(* ===== verification/_CoqProject ===== *)
-Q . S2P
Prelude.v
Kstring.v
Abi.v
Machine.v
Asm.v
Spinlock.v
Kalloc.v
Vm.v
PageTable.v
Uvm.v
UvmCopy.v
UserMem.v
Proc.v
Sched.v
Sleeplock.v
Virtio.v
Bio.v
Log.v
Fs.v
Console.v
Pipe.v
PipeQueue.v
File.v
Sysfile.v
Syscall.v
MsgQueue.v
Trap.v
Color.v
User.v
UserLib.v
Grep.v
Utils.v
Gallery.v
Umalloc.v
Sh.v
Mkfs.v
FsBitmap.v
Wp.v
BioList.v
BlockEnv.v
VirtioSpec.v
BioSpec.v
LogSpec.v
LogCrash.v
SchedLive.v
LogWrite.v
FsTx.v
FsAlloc.v
FsFile.v
FsRw.v
FsWrite.v
FsAtomic.v
FsDir.v
FsTrunc.v
FsPath.v
FsCreate.v
UtLib.v
Grind.v
Stress.v
UtPtr.v
UtProc.v
UtFile.v
Usertests.v
UtVerdict.v
