(* ===== verification/Prelude.v ===== *)
(** * xv6-gallery: a verification development

    xv6-gallery is the teaching kernel xv6 for RISC-V with a VGA driver, a queue of
    typed characters and a picture viewer.  This library translates its sources into
    executable definitions and proves what makes them correct.

    ** How the code is modelled

    Integers of the machine are [Z], wrapped to their width where the code can wrap
    ([u8], [u32], [i32], ...).  Memory is a map from byte addresses to bytes
    (Kstring.v).  A kernel function is a function of type [M S A := S -> res S A]
    (this file): it returns, panics, spins for ever, or switches to the scheduler, in
    which case the result holds what the function does when it is resumed in the state
    that other code left.  A component's code works on its own state and is run inside
    a larger one by [lift]; the states are nested, [machine] (Machine.v) in [bst]
    (Virtio.v) in [lst] (Log.v) in [fss] (Fs.v) in [kst] (File.v), and [cst] and [pst]
    for the console and the pipes.  User programs are trees of system calls (User.v).

    Loops that are not bounded by data take fuel.  In the kernel the fuel counts how
    often a wait may find its condition false, or is a bound of the data structure
    (three levels of page tables, [NBUF] buffers, [NUM] descriptors); running out of it
    is the result [Hang], and the theorems of functional correctness conclude [Ok],
    so that they show that the bound is enough.  A user program that uses up its fuel
    ends in [More]; the theorems on user programs either bound the fuel by the length
    of the input or, for the shell's parser, prove that four times the length of the
    line, plus four, is enough for every line.

    ** Files

    - Prelude.v (this file): integers, the monad [M] and its laws, [Sub] and [lift],
      arrays, little-endian words, the tactics [mgo], [mcall], [zcase], [dlia].
    - Kstring.v: memory and kernel/string.c.  Abi.v: what kernel, programs and mkfs
      share (kernel/fs.h, stat.h, fcntl.h).  Machine.v: kernel/param.h, riscv.h,
      memlayout.h, proc.h and the state of the machine.
    - Asm.v: the instructions of entry.S, trampoline.S, kernelvec.S and swtch.S.
    - Spinlock.v (spinlock.c), Kalloc.v (kalloc.c), Vm.v (vm.c), Proc.v (proc.c),
      Sleeplock.v (sleeplock.c), Virtio.v (virtio_disk.c), Bio.v (bio.c), Log.v
      (log.c), Fs.v (fs.c), Console.v (uart.c, console.c, printf.c, msg.c, plic.c,
      pci.c, vga.c), Pipe.v (pipe.c), File.v (file.c), Sysfile.v (sysfile.c, exec.c and
      the argument functions of syscall.c), Syscall.v (sysproc.c, syscall.c), Trap.v
      (trap.c, the scheduler, main.c, start.c): one definition for each function.
    - PageTable.v, Uvm.v, UvmCopy.v, UserMem.v: theorems on vm.c.  Sched.v: theorems
      on proc.c.  PipeQueue.v: theorems on pipe.c.  MsgQueue.v: theorems on msg.c.
      Color.v: the palette of vga.c.  FsBitmap.v: theorems on the free map of fs.c and
      mkfs.c.  SchedLive.v: progress of the scheduler.
    - Wp.v: weakest preconditions for kernel code that sleeps, with a condition that
      must hold whenever the machine may stop.  BlockEnv.v: what the rest of the system
      may do while a process sleeps in the block layer.  BioList.v, VirtioSpec.v,
      BioSpec.v: the list of buffers, a request to the disk and the buffer cache as a map
      from blocks to contents.  LogSpec.v, LogCrash.v, LogWrite.v: the log.  FsTx.v: the
      file system inside a transaction, as a view of the disk; FsAlloc.v, FsFile.v,
      FsRw.v, FsWrite.v: block allocation, [bmap], [readi] and [writei] on this view.
      FsAtomic.v: whole transactions.  FsDir.v: directories as maps from names to inode
      numbers, [dirlookup] and [dirlink].  FsTrunc.v: [itrunc], and [iput] of the last
      reference.  FsPath.v: [ilock], [iunlock] and [namex] on a tree of directories.
      FsCreate.v: [ialloc] and [create].
    - User.v: the system calls, ulib.c and printf.c of user/; UserLib.v: their
      theorems.  Umalloc.v: umalloc.c and its theorems.  Grep.v, Utils.v (cat, echo, wc,
      ls, kill, ln, mkdir, rm, zombie, init), Gallery.v, Sh.v: the programs and their
      theorems.
    - UtLib.v: what the test programs share, and programs that are [sound] whatever the
      kernel answers.  UtPtr.v, UtProc.v, UtFile.v: the tests of usertests.c; Usertests.v:
      its table and driver; UtVerdict.v: what the driver reports.  Grind.v: grind.c.
      Stress.v: forktest.c and stressfs.c.
    - Mkfs.v: mkfs/mkfs.c.

    ** What the theorems show

    - Memory.  [kalloc] and [kfree] neither lose pages nor hand one out twice; an
      address space built by vm.c is a list of private pages, which [uvmalloc],
      [uvmdealloc], [uvmcopy] and [uvmfree] change as intended, also when memory runs
      out; [copyin], [copyout] and [copyinstr] move exactly the bytes the user may use.
    - Concurrency.  Spinlocks exclude each other under every interleaving of harts, and
      on one hart restore the interrupt state exactly; no wakeup is lost between [sleep]
      and [wakeup]; [sleep], [wakeup] and [kill] have the effect on the process table they are meant to have.  A runnable
      process is run within one round of the scheduler, when processes give the CPU back,
      in the state in which the round finds it; what the process leaves is what the
      round goes on with.
    - Assembly.  The trap paths, the timer interrupt and the context switch lose no
      register.
    - Pipes and messages are first-in first-out queues, counter wrap-around included; the
      calls on pipes are followed on every branch, up to where they sleep and from there on.
    - Crash safety.  Between two points where the machine may stop, [end_op] leaves the
      disk and the log so that recovery restores the blocks before or after the
      transaction; recovery itself may be interrupted; a transaction that writes to a
      file, enters a name in a directory, creates a file at a path or drops the last
      reference to a file without a name leaves the old state or the new one, and the
      other files as they were.  The environment of these theorems ([env])
      lets other processes use the buffer cache and the disk while this one sleeps, but
      not its buffers; the crash points are those where the code waits, since the disk
      changes only there.
    - File system.  [balloc] takes the lowest free block; [bmap], [readi] and [writei]
      implement a file as a sequence of bytes, on every branch, and leave other files
      alone.  [dirlookup] and [dirlink] are lookup and insertion of the finite map that a
      directory stands for; [itrunc] frees the blocks of its file and no others; [namex]
      follows a path through the tree on the disk and keeps only the reference it returns.
      Inodes on disk round-trip; the free map finds the lowest free block and is
      restored by freeing it; mkfs and the kernel agree on it.  Transfers are those from
      and to the kernel's memory.
    - Heap.  [malloc] and [free] hand out disjoint blocks, keep the data in them and
      merge what is freed, for any sequence of calls.
    - Programs.  The shell parses what its printer prints; its child exits on every line
      when the kernel has memory for the nodes of the command, and stores through a null
      pointer when not.  grep decides its pattern language and prints the matching lines
      up to the first one that does not fit its buffer, wc counts, the gallery's flips mirror
      and change nothing else, and its drawing stays on the screen; its rotation writes
      outside the buffer.
    - Tests.  Whatever the kernel does, the tests of usertests.c but one use printf as its
      formats say, and those without a loop that the kernel must end do end; usertests
      passes exactly when the tests it ran do and no page is lost; forktest passes exactly
      when the process table has less than a thousand free entries.  A test that loops
      until the kernel refuses, kills it or ends a file takes fuel; its theorem holds for
      every fuel.

    ** Not modelled

    - The devices (virtio disk, UART, PLIC, VGA, PCI, CLINT): they are outside the
      sources.  What the kernel reads from them is an input of the definitions, what it
      writes is recorded.
    - Weak memory and instruction-level interleaving: [Spinlock.Smp] and
      [Sched.Handoff] interleave at the level of the atomic steps of the locks; all other
      code runs on one hart between two switches.
    - kernel/ramdisk.c and user/image.c are not built; defs.h and types.h only declare.
    - The messages mkfs prints, and its host's file operations other than their results. *)
From stdpp Require Import gmap list strings.

(** ** Fixed-width integers *)

Declare Scope kernel_scope.
Delimit Scope kernel_scope with kernel.
Open Scope Z_scope.
Open Scope kernel_scope.

#[global] Arguments Z.testbit : simpl never.
#[global] Arguments Z.land : simpl never.
#[global] Arguments Z.lor : simpl never.
#[global] Arguments Z.lnot : simpl never.
#[global] Arguments Z.shiftl : simpl never.
#[global] Arguments Z.shiftr : simpl never.

Definition u8 (z : Z) : Z := z mod 2 ^ 8.
Definition u16 (z : Z) : Z := z mod 2 ^ 16.
Definition u32 (z : Z) : Z := z mod 2 ^ 32.
Definition u64 (z : Z) : Z := z mod 2 ^ 64.
(** Conversion to the signed 32-bit type [int]. *)
Definition i32 (z : Z) : Z := (z + 2 ^ 31) mod 2 ^ 32 - 2 ^ 31.
(** Conversion to the signed 16-bit type [short]. *)
Definition i16 (z : Z) : Z := (z + 2 ^ 15) mod 2 ^ 16 - 2 ^ 15.

(** ** Outcomes of kernel code

    A piece of kernel code either returns, panics, spins for ever, or switches
    to the scheduler ([swtch]); in the last case the value holds what the code
    does when it is resumed in the state other code left. *)
Inductive res (S A : Type) : Type :=
| Ok (a : A) (s : S)
| Panic (msg : string)
| Hang
| Swtch (s : S) (resume : S -> res S A).
Arguments Ok {S A} a s.
Arguments Panic {S A} msg.
Arguments Hang {S A}.
Arguments Swtch {S A} s resume.

Definition M (S A : Type) : Type := S -> res S A.

Definition ret {S A} (a : A) : M S A := fun s => Ok a s.

Fixpoint res_bind {S A B} (r : res S A) (f : A -> M S B) : res S B :=
  match r with
  | Ok a s => f a s
  | Panic msg => Panic msg
  | Hang => Hang
  | Swtch s k => Swtch s (fun s' => res_bind (k s') f)
  end.

Definition bind {S A B} (m : M S A) (f : A -> M S B) : M S B :=
  fun s => res_bind (m s) f.

Definition panic {S A} (msg : string) : M S A := fun _ => Panic msg.
Definition hang {S A} : M S A := fun _ => Hang.
Definition reads {S A} (f : S -> A) : M S A := fun s => Ok (f s) s.
Definition modify {S} (f : S -> S) : M S unit := fun s => Ok tt (f s).
Definition swtch {S} : M S unit := fun s => Swtch s (fun s' => Ok tt s').

Notation "x <- m ;; k" := (bind m (fun x => k))
  (at level 100, m at next level, right associativity) : kernel_scope.
Notation "m ;;; k" := (bind m (fun _ => k))
  (at level 100, right associativity) : kernel_scope.

Definition when {S} (b : bool) (m : M S unit) : M S unit :=
  if b then m else ret tt.

(** Code of a component run inside a larger state: [Sub T S] says that a value
    of [T] is a part of every [S]. *)
Class Sub (T S : Type) := {
  sub_get : S -> T;
  sub_set : T -> S -> S;
  sub_get_set : forall t s, sub_get (sub_set t s) = t;
  sub_set_get : forall s, sub_set (sub_get s) s = s;
  sub_set_set : forall t t' s, sub_set t (sub_set t' s) = sub_set t s
}.

Fixpoint res_lift {T S A} `{Sub T S} (s0 : S) (r : res T A) : res S A :=
  match r with
  | Ok a t => Ok a (sub_set t s0)
  | Panic msg => Panic msg
  | Hang => Hang
  | Swtch t k =>
      Swtch (sub_set t s0) (fun s' => res_lift s' (k (sub_get s')))
  end.

Definition lift {T S A} `{Sub T S} (m : M T A) : M S A :=
  fun s => res_lift s (m (sub_get s)).

#[global] Arguments bind : simpl never.
#[global] Arguments lift : simpl never.

(** ** Symbolic execution of monadic code *)

Section MonadLemmas.
Context {S : Type}.

Lemma Ok_inj {A} (a b : A) (s t : S) : Ok a s = Ok b t -> a = b /\ s = t.
Proof. intros [=]. done. Qed.

Lemma bind_ret {A B} (a : A) (f : A -> M S B) s : bind (ret a) f s = f a s.
Proof. reflexivity. Qed.

Lemma bind_ok {A B} (m : M S A) (f : A -> M S B) s a s' :
  m s = Ok a s' -> bind m f s = f a s'.
Proof. intros E. unfold bind. rewrite E. reflexivity. Qed.

Lemma bind_panic {A B} (m : M S A) (f : A -> M S B) s msg :
  m s = Panic msg -> bind m f s = Panic msg.
Proof. intros E. unfold bind. rewrite E. reflexivity. Qed.

Lemma bind_hang {A B} (m : M S A) (f : A -> M S B) s :
  m s = Hang -> bind m f s = Hang.
Proof. intros E. unfold bind. rewrite E. reflexivity. Qed.

Lemma bind_swtch {A B} (m : M S A) (f : A -> M S B) s s' k :
  m s = Swtch s' k -> bind m f s = Swtch s' (fun s2 => res_bind (k s2) f).
Proof. intros E. unfold bind. rewrite E. reflexivity. Qed.

Lemma bind_reads {A B} (g : S -> A) (f : A -> M S B) s :
  bind (reads g) f s = f (g s) s.
Proof. reflexivity. Qed.

Lemma bind_modify {B} (g : S -> S) (f : unit -> M S B) s :
  bind (modify g) f s = f tt (g s).
Proof. reflexivity. Qed.

Lemma bind_ok_inv {A B} (m : M S A) (f : A -> M S B) s b s' :
  bind m f s = Ok b s' ->
  exists a s1, m s = Ok a s1 /\ f a s1 = Ok b s'.
Proof.
  unfold bind. destruct (m s) as [a s1| | |]; simpl; intros E; try discriminate.
  eauto.
Qed.

Lemma lift_ok {T A} `{Sub T S} (m : M T A) s a t :
  m (sub_get s) = Ok a t -> lift m s = Ok a (sub_set t s).
Proof. intros E. unfold lift. rewrite E. reflexivity. Qed.

Lemma lift_panic {T A} `{Sub T S} (m : M T A) s msg :
  m (sub_get s) = Panic msg -> lift (S := S) m s = Panic msg.
Proof. intros E. unfold lift. rewrite E. reflexivity. Qed.
End MonadLemmas.

(** [mgo] performs the steps whose result is known by computation; a call whose
    specification is [E : m s = Ok a s'] is crossed with [mcall E], the side
    conditions of [E] being left to the hint database [machine]. *)
Create HintDb machine.
Ltac mgo :=
  repeat first
    [ rewrite bind_ret | rewrite bind_reads | rewrite bind_modify ]; cbn beta.
Tactic Notation "mcall" uconstr(E) := 
  erewrite bind_ok by (eapply E; eauto with machine); cbn beta.

(** ** Arrays indexed by C integers *)

(** [a[i]] for an array of numbers; reading outside the array yields 0, so the
    theorems carry the bounds. *)
Definition zget (l : list Z) (i : Z) : Z := default 0 (l !! Z.to_nat i).
(** [a[i] = v]; a write outside the array is lost. *)
Definition zset (l : list Z) (i v : Z) : list Z := <[Z.to_nat i := v]> l.

Lemma length_zset l i v : length (zset l i v) = length l.
Proof. apply length_insert. Qed.

Lemma zget_zset_eq l i v :
  0 <= i < Z.of_nat (length l) -> zget (zset l i v) i = v.
Proof.
  intros Hi. unfold zget, zset. rewrite list_lookup_insert_eq by lia. reflexivity.
Qed.

Lemma zget_zset_ne l i j v :
  0 <= i -> 0 <= j -> i <> j -> zget (zset l i v) j = zget l j.
Proof.
  intros. unfold zget, zset. rewrite list_lookup_insert_ne by lia. reflexivity.
Qed.

(** ** Little-endian encoding of machine words *)

Fixpoint le_bytes (n : nat) (z : Z) : list Z :=
  match n with
  | O => []
  | S n => u8 z :: le_bytes n (z / 256)
  end.

Fixpoint le_val (l : list Z) : Z :=
  match l with
  | [] => 0
  | b :: l => b + 256 * le_val l
  end.

Definition is_byte (b : Z) : Prop := 0 <= b < 256.

Lemma u8_is_byte z : is_byte (u8 z).
Proof. unfold is_byte, u8. apply Z.mod_pos_bound. lia. Qed.

Lemma u8_id z : is_byte z -> u8 z = z.
Proof. unfold is_byte, u8. intros. apply Z.mod_small. lia. Qed.

Lemma length_le_bytes n z : length (le_bytes n z) = n.
Proof. revert z. induction n; intros; simpl; [done|]. by rewrite IHn. Qed.

Lemma le_bytes_byte n z : Forall is_byte (le_bytes n z).
Proof. revert z. induction n; intros; simpl; constructor; auto using u8_is_byte. Qed.

Lemma le_val_le_bytes n z : le_val (le_bytes n z) = z mod 256 ^ Z.of_nat n.
Proof.
  revert z. induction n as [|n IH]; intros z; simpl.
  - by rewrite Z.mod_1_r.
  - rewrite IH. replace (Z.of_nat (S n)) with (1 + Z.of_nat n) by lia.
    rewrite Z.pow_add_r, Z.pow_1_r by lia.
    rewrite (Z.rem_mul_r z 256 (256 ^ Z.of_nat n)) by lia.
    unfold u8. change (2 ^ 8) with 256. lia.
Qed.

Lemma le_val_bound l :
  Forall is_byte l -> 0 <= le_val l < 256 ^ Z.of_nat (length l).
Proof.
  induction 1 as [|b l Hb Hl IH]; simpl; [lia|].
  replace (Z.of_nat (S (length l))) with (1 + Z.of_nat (length l)) by lia.
  rewrite Z.pow_add_r by lia. unfold is_byte in Hb. lia.
Qed.

Lemma le_bytes_le_val l : Forall is_byte l -> le_bytes (length l) (le_val l) = l.
Proof.
  induction 1 as [|b l Hb Hl IH]; simpl; [done|].
  unfold is_byte in Hb. f_equal.
  - unfold u8. change (2 ^ 8) with 256.
    rewrite Z.mul_comm, Z.mod_add by lia. apply Z.mod_small. lia.
  - rewrite Z.mul_comm, Z.div_add, Z.div_small by lia. done.
Qed.

(** Case analysis on every integer comparison of the goal. *)
Ltac zcase :=
  repeat (rewrite ?Z.gtb_ltb, ?Z.geb_leb in *;
    match goal with
    | |- context [?a <=? ?b] => destruct (Z.leb_spec a b)
    | |- context [?a <? ?b] => destruct (Z.ltb_spec a b)
    | |- context [?a =? ?b] => destruct (Z.eqb_spec a b)
    end; cbn [andb orb negb]).

(** [n] calls of the same function. *)
Fixpoint repeat_m {S} (n : nat) (m : M S unit) : M S unit :=
  match n with
  | O => ret tt
  | S n => m ;;; repeat_m n m
  end.

(** [lia] with division and remainder by constants. *)
Ltac dlia := Z.div_mod_to_equations; lia.

(** [for (i = i0; k more times; i++) body(i)]. *)
Fixpoint for_upto {S} (k : nat) (i : Z) (body : Z -> M S unit) : M S unit :=
  match k with
  | O => ret tt
  | S k => body i ;;; for_upto k (i + 1) body
  end.

(** A loop over a table of objects, left early with a result by [Some]. *)
Fixpoint scan {S X A} (l : list X) (body : X -> M S (option A)) : M S (option A) :=
  match l with
  | [] => ret None
  | i :: l =>
      r <- body i ;;
      match r with
      | Some a => ret (Some a)
      | None => scan l body
      end
  end.

(** A loop over a table of objects without an exit. *)
Fixpoint each {S X} (l : list X) (body : X -> M S unit) : M S unit :=
  match l with
  | [] => ret tt
  | i :: l => body i ;;; each l body
  end.

Lemma size_union_le (X Y : gset Z) : (size (X ∪ Y) <= size X + size Y)%nat.
Proof. rewrite size_union_alt. pose proof (subseteq_size (Y ∖ X) Y ltac:(set_solver)). lia. Qed.
