(* ===== verification/Kstring.v ===== *)
(** * Physical memory and kernel/string.c

    Memory is a finite map from byte addresses to bytes; an address that was
    never written reads as 0.  The functions of kernel/string.c are loops over
    this memory, pointers being addresses.  The theorems give the memory each
    of them leaves, overlapping regions included. *)
From stdpp Require Import gmap list strings.
From S2P Require Import Prelude.

Abbreviation mem := (gmap Z Z).

Definition mget (m : mem) (a : Z) : Z := u8 (default 0 (m !! a)).
Definition mset (m : mem) (a v : Z) : mem := <[a := u8 v]> m.

(** [n] consecutive bytes from [a]. *)
Fixpoint mread (m : mem) (a : Z) (n : nat) : list Z :=
  match n with
  | O => []
  | S n => mget m a :: mread m (a + 1) n
  end.

Fixpoint mwrite (m : mem) (a : Z) (l : list Z) : mem :=
  match l with
  | [] => m
  | b :: l => mwrite (mset m a b) (a + 1) l
  end.

(** Aligned 64-bit accesses: page-table entries, list links, trapframe words. *)
Definition load64 (m : mem) (a : Z) : Z := le_val (mread m a 8).
Definition store64 (m : mem) (a v : Z) : mem := mwrite m a (le_bytes 8 v).
Definition load32 (m : mem) (a : Z) : Z := le_val (mread m a 4).
Definition store32 (m : mem) (a v : Z) : mem := mwrite m a (le_bytes 4 v).

#[global] Arguments mget : simpl never.
#[global] Arguments mset : simpl never.
#[global] Arguments load64 : simpl never.
#[global] Arguments store64 : simpl never.
#[global] Arguments load32 : simpl never.
#[global] Arguments store32 : simpl never.

(** ** The functions of string.c *)

Fixpoint memset_loop (k : nat) (i dst c : Z) (m : mem) : mem :=
  match k with
  | O => m
  | S k => memset_loop k (i + 1) dst c (mset m (dst + i) c)
  end.

Definition memset (m : mem) (dst c n : Z) : mem :=
  memset_loop (Z.to_nat n) 0 dst c m.

Fixpoint memcmp_loop (k : nat) (m : mem) (s1 s2 : Z) : Z :=
  match k with
  | O => 0
  | S k =>
      if mget m s1 =? mget m s2 then memcmp_loop k m (s1 + 1) (s2 + 1)
      else mget m s1 - mget m s2
  end.

Definition memcmp (m : mem) (v1 v2 n : Z) : Z := memcmp_loop (Z.to_nat n) m v1 v2.

Fixpoint copy_down (k : nat) (d s : Z) (m : mem) : mem :=
  match k with
  | O => m
  | S k => copy_down k (d - 1) (s - 1) (mset m (d - 1) (mget m (s - 1)))
  end.

Fixpoint copy_up (k : nat) (d s : Z) (m : mem) : mem :=
  match k with
  | O => m
  | S k => copy_up k (d + 1) (s + 1) (mset m d (mget m s))
  end.

Definition memmove (m : mem) (dst src n : Z) : mem :=
  if n =? 0 then m
  else if (src <? dst) && (src + n >? dst)
  then copy_down (Z.to_nat n) (dst + n) (src + n) m
  else copy_up (Z.to_nat n) dst src m.

Definition memcpy (m : mem) (dst src n : Z) : mem := memmove m dst src n.

Fixpoint strncmp_loop (k : nat) (m : mem) (p q : Z) : Z :=
  match k with
  | O => 0
  | S k =>
      if negb (mget m p =? 0) && (mget m p =? mget m q)
      then strncmp_loop k m (p + 1) (q + 1)
      else mget m p - mget m q
  end.

Definition strncmp (m : mem) (p q n : Z) : Z := strncmp_loop (Z.to_nat n) m p q.

(** The second loop of [strncpy], which pads with zeros. *)
Fixpoint zero_fill (k : nat) (s : Z) (m : mem) : mem :=
  match k with
  | O => m
  | S k => zero_fill k (s + 1) (mset m s 0)
  end.

Fixpoint strncpy_loop (k : nat) (s t : Z) (m : mem) : mem :=
  match k with
  | O => m
  | S k =>
      let c := mget m t in
      let m := mset m s c in
      if c =? 0 then zero_fill k (s + 1) m else strncpy_loop k (s + 1) (t + 1) m
  end.

Definition strncpy (m : mem) (s t n : Z) : mem := strncpy_loop (Z.to_nat n) s t m.

(** The loop of [safestrcpy] stores at most [k] bytes and returns the address
    one past the last byte stored. *)
Fixpoint safestrcpy_loop (k : nat) (s t : Z) (m : mem) : Z * mem :=
  match k with
  | O => (s, m)
  | S k =>
      let c := mget m t in
      let m := mset m s c in
      if c =? 0 then (s + 1, m) else safestrcpy_loop k (s + 1) (t + 1) m
  end.

Definition safestrcpy (m : mem) (s t n : Z) : mem :=
  if n <=? 0 then m
  else let '(s', m') := safestrcpy_loop (Z.to_nat (n - 1)) s t m in mset m' s' 0.

(** [strlen] scans until a NUL; [fuel] bounds the scan, [None] means that no
    NUL was met within it. *)
Fixpoint strlen_loop (fuel : nat) (m : mem) (s n : Z) : option Z :=
  match fuel with
  | O => None
  | S fuel => if mget m (s + n) =? 0 then Some n else strlen_loop fuel m s (n + 1)
  end.

Definition strlen (fuel : nat) (m : mem) (s : Z) : option Z := strlen_loop fuel m s 0.

(** ** Laws of memory *)

Lemma mget_mset m a v b : mget (mset m a v) b = if b =? a then u8 v else mget m b.
Proof.
  unfold mget, mset. destruct (Z.eqb_spec b a) as [->|Hne].
  - rewrite lookup_insert_eq. simpl. apply u8_id, u8_is_byte.
  - by rewrite lookup_insert_ne.
Qed.

Lemma mget_byte m a : is_byte (mget m a).
Proof. apply u8_is_byte. Qed.

Lemma u8_mget m a : u8 (mget m a) = mget m a.
Proof. apply u8_id, mget_byte. Qed.

Lemma length_mread m a n : length (mread m a n) = n.
Proof. revert a. induction n; intros; simpl; [done|]. by rewrite IHn. Qed.

Lemma mread_byte m a n : Forall is_byte (mread m a n).
Proof. revert a. induction n; intros; simpl; constructor; auto using mget_byte. Qed.

Lemma lookup_mread m a n i :
  (i < n)%nat -> mread m a n !! i = Some (mget m (a + Z.of_nat i)).
Proof.
  revert a i. induction n as [|n IH]; intros a [|i] Hi; simpl; try lia.
  - by rewrite Z.add_0_r.
  - rewrite IH by lia. do 2 f_equal. lia.
Qed.

(** Two memories that agree on a region hold the same bytes there. *)
Lemma mread_ext m m' a a' n :
  (forall i, 0 <= i < Z.of_nat n -> mget m (a + i) = mget m' (a' + i)) ->
  mread m a n = mread m' a' n.
Proof.
  revert a a'. induction n as [|n IH]; intros a a' H; simpl; [done|]. f_equal.
  - specialize (H 0). rewrite !Z.add_0_r in H. apply H. lia.
  - apply IH. intros i Hi. rewrite <- !Z.add_assoc. apply H. lia.
Qed.

Lemma mread_eq_get m m' a a' n :
  mread m a n = mread m' a' n ->
  forall i, 0 <= i < Z.of_nat n -> mget m (a + i) = mget m' (a' + i).
Proof.
  intros E i Hi. assert (Hn : (Z.to_nat i < n)%nat) by lia.
  pose proof (lookup_mread m a n _ Hn) as E1.
  pose proof (lookup_mread m' a' n _ Hn) as E2.
  rewrite Z2Nat.id in E1, E2 by lia. congruence.
Qed.

Lemma mread_app m a n k : mread m a (n + k) = mread m a n ++ mread m (a + Z.of_nat n) k.
Proof.
  revert a. induction n as [|n IH]; intros a; simpl.
  - by rewrite Z.add_0_r.
  - rewrite IH. do 3 f_equal. lia.
Qed.

Lemma mget_mwrite m a l b :
  mget (mwrite m a l) b =
    if (a <=? b) && (b <? a + Z.of_nat (length l)) then u8 (zget l (b - a))
    else mget m b.
Proof.
  revert m a. induction l as [|x l IH]; intros m a; cbn [mwrite length].
  - zcase; try done; lia.
  - rewrite IH, mget_mset. unfold zget. zcase; subst; try done; try lia.
    all: first [ by rewrite Z.sub_diag
               | by replace (Z.to_nat (b - a)) with (S (Z.to_nat (b - (a + 1)))) by lia ].
Qed.

Lemma mget_mwrite_out m a l b :
  b < a \/ a + Z.of_nat (length l) <= b -> mget (mwrite m a l) b = mget m b.
Proof.
  intros H. rewrite mget_mwrite. zcase; try done; lia.
Qed.

Lemma mread_mwrite_same m a l :
  Forall is_byte l -> mread (mwrite m a l) a (length l) = l.
Proof.
  intros Hl. apply list_eq_same_length with (n := length l); [done|apply length_mread|].
  intros i x y Hi Hx Hy. rewrite lookup_mread in Hx by done. injection Hx as <-.
  rewrite mget_mwrite. zcase; try lia.
  unfold zget. replace (Z.to_nat (a + Z.of_nat i - a)) with i by lia.
  rewrite Hy. simpl. apply u8_id. eapply Forall_lookup_1; eauto.
Qed.

Lemma mread_mwrite_out m a l b n :
  b + Z.of_nat n <= a \/ a + Z.of_nat (length l) <= b ->
  mread (mwrite m a l) b n = mread m b n.
Proof. intros H. apply mread_ext. intros i Hi. apply mget_mwrite_out. lia. Qed.

Lemma load64_bound m a : 0 <= load64 m a < 2 ^ 64.
Proof.
  unfold load64. pose proof (le_val_bound _ (mread_byte m a 8)) as H.
  rewrite length_mread in H. exact H.
Qed.

Lemma load64_store64 m a v : load64 (store64 m a v) a = u64 v.
Proof.
  unfold load64, store64. pose proof (mread_mwrite_same m a _ (le_bytes_byte 8 v)) as H.
  rewrite length_le_bytes in H. rewrite H, le_val_le_bytes. done.
Qed.

Lemma load64_store64_out m a v b :
  b + 8 <= a \/ a + 8 <= b -> load64 (store64 m a v) b = load64 m b.
Proof.
  intros H. unfold load64, store64. f_equal. apply mread_mwrite_out.
  rewrite length_le_bytes. lia.
Qed.

Lemma mget_store64_out m a v b :
  b < a \/ a + 8 <= b -> mget (store64 m a v) b = mget m b.
Proof. intros H. apply mget_mwrite_out. rewrite length_le_bytes. lia. Qed.

Lemma load64_ext m m' a :
  (forall i, 0 <= i < 8 -> mget m (a + i) = mget m' (a + i)) -> load64 m a = load64 m' a.
Proof. intros H. unfold load64. f_equal. apply mread_ext. intros i Hi. apply H. lia. Qed.

Lemma le_val_zeros l : Forall (fun b => b = 0) l -> le_val l = 0.
Proof. induction 1; simpl; lia. Qed.

Lemma load64_zero m a : (forall i, 0 <= i < 8 -> mget m (a + i) = 0) -> load64 m a = 0.
Proof.
  intros H. apply le_val_zeros, Forall_lookup. intros i x Hx.
  pose proof (lookup_lt_Some _ _ _ Hx) as Hi. rewrite length_mread in Hi.
  rewrite lookup_mread in Hx by done. injection Hx as <-. apply H. lia.
Qed.

(** ** What string.c computes *)

Lemma mget_memset_loop k i dst c m a :
  mget (memset_loop k i dst c m) a =
    if (dst + i <=? a) && (a <? dst + i + Z.of_nat k) then u8 c else mget m a.
Proof.
  revert i m. induction k as [|k IH]; intros i m; cbn [memset_loop].
  - zcase; try done; lia.
  - rewrite IH, mget_mset. zcase; subst; try done; lia.
Qed.

Lemma mget_memset m dst c n a :
  0 <= n ->
  mget (memset m dst c n) a = if (dst <=? a) && (a <? dst + n) then u8 c else mget m a.
Proof.
  intros Hn. unfold memset. rewrite mget_memset_loop, Z2Nat.id, Z.add_0_r by done. done.
Qed.

Lemma mget_copy_up k d s m a :
  d <= s \/ s + Z.of_nat k <= d ->
  mget (copy_up k d s m) a =
    if (d <=? a) && (a <? d + Z.of_nat k) then mget m (s + (a - d)) else mget m a.
Proof.
  revert d s m. induction k as [|k IH]; intros d s m H; cbn [copy_up].
  - zcase; try done; lia.
  - rewrite IH by lia. rewrite !mget_mset, u8_mget.
    zcase; subst; try done; try lia; f_equal; lia.
Qed.

Lemma mget_copy_down k d s m a :
  s <= d ->
  mget (copy_down k d s m) a =
    if (d - Z.of_nat k <=? a) && (a <? d) then mget m (s + (a - d)) else mget m a.
Proof.
  revert d s m. induction k as [|k IH]; intros d s m H; cbn [copy_down].
  - zcase; try done; lia.
  - rewrite IH by lia. rewrite !mget_mset, u8_mget.
    zcase; subst; try done; try lia; f_equal; lia.
Qed.

Lemma mget_memmove m dst src n a :
  0 <= n ->
  mget (memmove m dst src n) a =
    if (dst <=? a) && (a <? dst + n) then mget m (src + (a - dst)) else mget m a.
Proof.
  intros Hn. unfold memmove. destruct (Z.eqb_spec n 0) as [->|Hn0].
  - zcase; try done; lia.
  - destruct ((src <? dst) && (src + n >? dst)) eqn:E.
    + rewrite mget_copy_down by lia. rewrite Z2Nat.id by done.
      replace (dst + n - n) with dst by lia.
      replace (src + n + (a - (dst + n))) with (src + (a - dst)) by lia. done.
    + rewrite mget_copy_up by lia. rewrite Z2Nat.id by done. done.
Qed.

Lemma mread_memmove m dst src n :
  0 <= n -> mread (memmove m dst src n) dst (Z.to_nat n) = mread m src (Z.to_nat n).
Proof.
  intros Hn. apply mread_ext. intros i Hi. rewrite mget_memmove by done.
  zcase; try lia. f_equal. lia.
Qed.

Lemma mget_memmove_out m dst src n a :
  0 <= n -> a < dst \/ dst + n <= a -> mget (memmove m dst src n) a = mget m a.
Proof. intros Hn Ha. rewrite mget_memmove by done. zcase; try done; lia. Qed.

(** [memmove] copies correctly even when the regions overlap: afterwards the
    destination holds the bytes the source held before the call, and every byte
    outside the destination is unchanged. *)
Theorem memmove_correct m dst src n :
  0 <= n ->
  mread (memmove m dst src n) dst (Z.to_nat n) = mread m src (Z.to_nat n) /\
  forall a, a < dst \/ dst + n <= a -> mget (memmove m dst src n) a = mget m a.
Proof. intros Hn. split; [by apply mread_memmove | intros; by apply mget_memmove_out]. Qed.

Lemma memmove_correct_witness :
  mread (memmove (mwrite ∅ 100 [1; 2; 3; 4; 5]) 102 100 5) 102 5 = [1; 2; 3; 4; 5].
Proof.
  transitivity (mread (mwrite ∅ 100 [1; 2; 3; 4; 5]) 100 5); [|reflexivity].
  apply (memmove_correct (mwrite ∅ 100 [1; 2; 3; 4; 5]) 102 100 5). lia.
Defined.

(** [cstr m s l]: the NUL-terminated string at [s] is [l]. *)
Definition cstr (m : mem) (s : Z) (l : list Z) : Prop :=
  mread m s (length l) = l /\ mget m (s + Z.of_nat (length l)) = 0 /\
  Forall (fun b => b <> 0) l.

Lemma cstr_cons m s b l : cstr m s (b :: l) -> mget m s = b /\ b <> 0 /\ cstr m (s + 1) l.
Proof.
  intros (H1 & H2 & H3). simpl in H1, H2. injection H1 as Hb Hl.
  apply Forall_cons in H3 as [Hb0 Hl0]. repeat split; auto.
  rewrite <- H2. f_equal. lia.
Qed.

Lemma cstr_nil m s : cstr m s [] -> mget m s = 0.
Proof. intros (_ & H & _). simpl in H. by rewrite Z.add_0_r in H. Qed.

Lemma strlen_loop_spec m l : forall fuel s n,
  cstr m (s + n) l -> (length l < fuel)%nat ->
  strlen_loop fuel m s n = Some (n + Z.of_nat (length l)).
Proof.
  induction l as [|b l IH]; intros [|fuel] s n H Hf; simpl in Hf; try lia; cbn [strlen_loop].
  - apply cstr_nil in H. rewrite H. simpl. f_equal. lia.
  - apply cstr_cons in H as (-> & Hb & H).
    destruct (Z.eqb_spec b 0); [done|].
    rewrite IH; [f_equal; cbn [length]; lia | by rewrite Z.add_assoc | lia].
Qed.

(** [strlen] terminates on every C string and returns its length. *)
Lemma strlen_spec fuel m s l :
  cstr m s l -> (length l < fuel)%nat -> strlen fuel m s = Some (Z.of_nat (length l)).
Proof.
  intros H Hf. unfold strlen. rewrite (strlen_loop_spec m l) by (rewrite ?Z.add_0_r; done).
  done.
Qed.

Lemma strncmp_loop_eq0 k m : forall p q lp lq,
  cstr m p lp -> cstr m q lq ->
  strncmp_loop k m p q = 0 <-> take k lp = take k lq.
Proof.
  induction k as [|k IH]; intros p q lp lq Hp Hq; [done|].
  cbn [strncmp_loop].
  destruct lp as [|a lp]; [apply cstr_nil in Hp; rewrite Hp |
    apply cstr_cons in Hp as (-> & Ha & Hp)]; cbn [negb andb Z.eqb].
  - destruct lq as [|b lq]; [apply cstr_nil in Hq; rewrite Hq; done |
      apply cstr_cons in Hq as (-> & Hb & Hq)]. simpl. split; [lia|done].
  - destruct (Z.eqb_spec a 0); [done|]. cbn [negb andb].
    destruct lq as [|b lq]; [apply cstr_nil in Hq; rewrite Hq |
      apply cstr_cons in Hq as (-> & Hb & Hq)].
    + destruct (Z.eqb_spec a 0); [done|]. simpl. split; [lia|done].
    + destruct (Z.eqb_spec a b) as [->|Hne]; simpl.
      * rewrite (IH _ _ _ _ Hp Hq). split; congruence.
      * split; [lia|congruence].
Qed.

(** [strncmp] is 0 exactly when the two strings agree on their first [n]
    characters: the comparison on which directory lookup rests. *)
Theorem strncmp_zero_iff m p q n lp lq :
  cstr m p lp -> cstr m q lq -> 0 <= n ->
  strncmp m p q n = 0 <-> take (Z.to_nat n) lp = take (Z.to_nat n) lq.
Proof. intros Hp Hq _. by apply strncmp_loop_eq0. Qed.

Lemma strncmp_zero_iff_witness :
  let m := mwrite (mwrite ∅ 0 [97; 98; 0]) 10 [97; 98; 99; 0] in
  strncmp m 0 10 2 = 0 <-> take 2 [97; 98] = take 2 [97; 98; 99].
Proof.
  intros m. apply (strncmp_zero_iff m 0 10 2); [| |lia].
  - split; [reflexivity|]. split; [reflexivity|]. repeat constructor; discriminate.
  - split; [reflexivity|]. split; [reflexivity|]. repeat constructor; discriminate.
Defined.

Lemma mget_zero_fill k s m a :
  mget (zero_fill k s m) a =
    if (s <=? a) && (a <? s + Z.of_nat k) then 0 else mget m a.
Proof.
  revert s m. induction k as [|k IH]; intros s m; cbn [zero_fill].
  - zcase; try done; lia.
  - rewrite IH, mget_mset. zcase; subst; try done; lia.
Qed.

(** A write outside a C string does not change it. *)
Lemma cstr_mset m t l a v :
  cstr m t l -> a < t \/ t + Z.of_nat (length l) < a -> cstr (mset m a v) t l.
Proof.
  intros (H1 & H2 & H3) Ha. repeat split; [| |done].
  - rewrite <- H1 at 2. apply mread_ext. intros i Hi. rewrite mget_mset. zcase; [lia|done].
  - rewrite mget_mset. zcase; [lia|done].
Qed.

Lemma mread_cons_out m m' s k :
  (forall a, s <= a < s + Z.of_nat k -> mget m a = mget m' a) -> mread m s k = mread m' s k.
Proof. intros H. apply mread_ext. intros i Hi. apply H. lia. Qed.

Lemma mread_zero_fill k s m : mread (zero_fill k s m) s k = replicate k 0.
Proof.
  apply list_eq_same_length with (n := k); [by rewrite length_replicate|apply length_mread|].
  intros i x y Hi Hx Hy. rewrite lookup_mread in Hx by done. injection Hx as <-.
  apply lookup_replicate in Hy as [-> _]. rewrite mget_zero_fill. zcase; try done; lia.
Qed.

Lemma strncpy_loop_spec k : forall s t m l,
  cstr m t l -> s + Z.of_nat k <= t \/ t + Z.of_nat (length l) < s ->
  mread (strncpy_loop k s t m) s k = take k (l ++ replicate k 0) /\
  forall a, a < s \/ s + Z.of_nat k <= a -> mget (strncpy_loop k s t m) a = mget m a.
Proof.
  induction k as [|k IH]; intros s t m l Hc Hd; [done|].
  cbn [strncpy_loop]. destruct l as [|b l].
  - apply cstr_nil in Hc. rewrite Hc. cbn [Z.eqb app]. split.
    + cbn [mread]. rewrite mget_zero_fill, mget_mset, mread_zero_fill.
      cbn [replicate take].
      zcase; try lia. f_equal. by rewrite firstn_all2 by (rewrite length_replicate; lia).
    + intros a Ha. rewrite mget_zero_fill, mget_mset. zcase; try done; lia.
  - pose proof (cstr_cons _ _ _ _ Hc) as (Hb & Hb0 & Hc').
    rewrite Hb. destruct (Z.eqb_spec b 0); [done|].
    assert (Hc2 : cstr (mset m s b) (t + 1) l).
    { apply cstr_mset; [done|]. cbn [length] in Hd. lia. }
    destruct (IH (s + 1) (t + 1) _ _ Hc2) as [IH1 IH2]; [cbn [length] in Hd; lia|].
    split.
    + cbn [mread app take]. rewrite IH2 by lia. rewrite mget_mset, Z.eqb_refl.
      f_equal; [rewrite <- Hb; apply u8_mget|]. rewrite IH1.
      rewrite !take_app. f_equal. rewrite !take_replicate. f_equal. lia.
    + intros a Ha. rewrite IH2 by lia. rewrite mget_mset. zcase; [lia|done].
Qed.

(** [strncpy] fills the whole [n]-byte field: the string cut at [n], then zeros. *)
Lemma strncpy_spec m s t n l :
  0 <= n -> cstr m t l -> s + n <= t \/ t + Z.of_nat (length l) < s ->
  mread (strncpy m s t n) s (Z.to_nat n) =
    take (Z.to_nat n) (l ++ replicate (Z.to_nat n) 0).
Proof. intros Hn Hc Hd. apply strncpy_loop_spec; [done|]. rewrite Z2Nat.id; done. Qed.

Lemma safestrcpy_loop_spec k : forall s t m l,
  cstr m t l -> s + Z.of_nat k <= t \/ t + Z.of_nat (length l) < s ->
  exists d m', safestrcpy_loop k s t m = (d, m') /\
    mread m' s (length (take k l)) = take k l /\
    s + Z.of_nat (length (take k l)) <= d <= s + Z.of_nat k /\
    (d = s + Z.of_nat (length (take k l)) \/
     mget m' (s + Z.of_nat (length (take k l))) = 0) /\
    (forall a, a < s \/ s + Z.of_nat k <= a -> mget m' a = mget m a).
Proof.
  induction k as [|k IH]; intros s t m l Hc Hd; cbn [safestrcpy_loop].
  - eexists s, m. repeat split; try done; simpl; try lia.
  - destruct l as [|b l].
    + apply cstr_nil in Hc. rewrite Hc. cbn [Z.eqb].
      eexists (s + 1), _. split; [done|]. simpl. repeat split; try lia.
      * right. rewrite mget_mset, Z.add_0_r, Z.eqb_refl. done.
      * intros a Ha. rewrite mget_mset. zcase; [lia|done].
    + pose proof (cstr_cons _ _ _ _ Hc) as (Hb & Hb0 & Hc').
      rewrite Hb. destruct (Z.eqb_spec b 0); [done|].
      assert (Hc2 : cstr (mset m s b) (t + 1) l).
      { apply cstr_mset; [done|]. cbn [length] in Hd. lia. }
      destruct (IH (s + 1) (t + 1) _ _ Hc2) as (d & m' & E & H1 & H2 & H3 & H4);
        [cbn [length] in Hd; lia|].
      eexists d, m'. split; [done|]. cbn [take length mread].
      repeat split; try lia.
      * rewrite H1, H4, mget_mset, Z.eqb_refl by lia. f_equal. rewrite <- Hb. apply u8_mget.
      * destruct H3 as [->|H3]; [left; lia|right]. rewrite <- H3. f_equal. lia.
      * intros a Ha. rewrite H4 by lia. rewrite mget_mset. zcase; [lia|done].
Qed.

(** [safestrcpy] always leaves a NUL-terminated string: the source cut to at
    most [n-1] characters, and it never writes outside the [n]-byte buffer. *)
Theorem safestrcpy_terminates m s t n l :
  0 < n -> cstr m t l -> s + n <= t \/ t + Z.of_nat (length l) < s ->
  cstr (safestrcpy m s t n) s (take (Z.to_nat (n - 1)) l) /\
  forall a, a < s \/ s + n <= a -> mget (safestrcpy m s t n) a = mget m a.
Proof.
  intros Hn Hc Hd. unfold safestrcpy. destruct (Z.leb_spec n 0); [lia|].
  destruct (safestrcpy_loop_spec (Z.to_nat (n - 1)) s t m l Hc)
    as (d & m' & -> & H1 & H2 & H3 & H4); [lia|].
  split; [repeat split|].
  - rewrite <- H1 at 2. apply mread_ext. intros i Hi. rewrite mget_mset. zcase; [lia|done].
  - rewrite mget_mset. zcase; [done|]. destruct H3; [lia|done].
  - apply Forall_take. apply Hc.
  - intros a Ha. rewrite mget_mset. zcase; [lia|]. apply H4. lia.
Qed.

Lemma safestrcpy_terminates_witness :
  cstr (safestrcpy (mwrite ∅ 50 [105; 110; 105; 116; 0]) 0 50 3) 0 [105; 110].
Proof.
  apply (safestrcpy_terminates (mwrite ∅ 50 [105; 110; 105; 116; 0]) 0 50 3
           [105; 110; 105; 116]); [lia| |lia].
  split; [reflexivity|]. split; [reflexivity|]. repeat constructor; discriminate.
Defined.

Lemma memcmp_loop_eq0 k m : forall p q,
  memcmp_loop k m p q = 0 <-> mread m p k = mread m q k.
Proof.
  induction k as [|k IH]; intros p q; [done|]. cbn [memcmp_loop mread].
  destruct (Z.eqb_spec (mget m p) (mget m q)) as [E|E].
  - rewrite IH, E. split; congruence.
  - split; [lia|congruence].
Qed.

(** [memcmp] is 0 exactly when the two regions hold the same bytes. *)
Lemma memcmp_zero_iff m v1 v2 n :
  memcmp m v1 v2 n = 0 <-> mread m v1 (Z.to_nat n) = mread m v2 (Z.to_nat n).
Proof. apply memcmp_loop_eq0. Qed.

#[global] Arguments memset : simpl never.
#[global] Arguments memmove : simpl never.
#[global] Opaque memset memmove load64 store64.
