(* ===== verification/Abi.v ===== *)
(** * kernel/fs.h, stat.h, fcntl.h

    What the kernel, the user programs and mkfs share: the layout of the disk, the
    structures stored in its blocks, and the constants of the system calls. *)
From stdpp Require Import list strings.
From S2P Require Import Prelude.

(** The characters of a string constant. *)
Definition bytes_of (s : string) : list Z :=
  map (fun a => Z.of_nat (Ascii.nat_of_ascii a)) (String.list_ascii_of_string s).

(** ** fs.h *)

Definition ROOTINO : Z := 1.
Definition BSIZE : Z := 1024.
Definition FSMAGIC : Z := 0x10203040.
Definition NDIRECT : Z := 12.
Definition NINDIRECT : Z := BSIZE / 4.
Definition MAXFILE : Z := NDIRECT + NINDIRECT.
Definition DINODE_SIZE : Z := 64.
Definition IPB : Z := BSIZE / DINODE_SIZE.
Definition BPB : Z := BSIZE * 8.
Definition DIRSIZ : Z := 14.
Definition DIRENT_SIZE : Z := 16.

Record superblock := mk_superblock {
  sb_magic : Z;
  sb_size : Z;
  sb_nblocks : Z;
  sb_ninodes : Z;
  sb_nlog : Z;
  sb_logstart : Z;
  sb_inodestart : Z;
  sb_bmapstart : Z
}.

Definition IBLOCK (i : Z) (sb : superblock) : Z := u32 (i / IPB + sb_inodestart sb).
Definition BBLOCK (b : Z) (sb : superblock) : Z := u32 (b / BPB + sb_bmapstart sb).

(** ** stat.h, fcntl.h, file.h *)
Definition T_DIR : Z := 1.
Definition T_FILE : Z := 2.
Definition T_DEVICE : Z := 3.

Record stat := mk_stat { st_dev : Z; st_ino : Z; st_type : Z; st_nlink : Z; st_size : Z }.

Definition O_RDONLY : Z := 0x000.
Definition O_WRONLY : Z := 0x001.
Definition O_RDWR : Z := 0x002.
Definition O_CREATE : Z := 0x200.
Definition O_TRUNC : Z := 0x400.

Definition CONSOLE : Z := 1.

(** ** The structures stored in blocks *)

Definition get_u16 (data : list Z) (off : nat) : Z := le_val (take 2 (drop off data)).
Definition get_u32 (data : list Z) (off : nat) : Z := le_val (take 4 (drop off data)).

(** [bytes] stored at [off]. *)
Definition splice (data : list Z) (off : nat) (bytes : list Z) : list Z :=
  take off data ++ bytes ++ drop (off + length bytes) data.

(** struct dinode: five fields and [NDIRECT + 1] addresses. *)
Record dinode := mk_dinode {
  di_type : Z; di_major : Z; di_minor : Z; di_nlink : Z; di_size : Z; di_addrs : list Z
}.

Definition decode_dinode (data : list Z) (off : nat) : dinode :=
  mk_dinode (i16 (get_u16 data off)) (i16 (get_u16 data (off + 2))) (i16 (get_u16 data (off + 4)))
    (i16 (get_u16 data (off + 6))) (get_u32 data (off + 8))
    (map (fun k => get_u32 data (off + 12 + 4 * k)) (seq 0 13)).

Definition encode_dinode (d : dinode) : list Z :=
  le_bytes 2 (di_type d) ++ le_bytes 2 (di_major d) ++ le_bytes 2 (di_minor d) ++
  le_bytes 2 (di_nlink d) ++ le_bytes 4 (di_size d) ++ concat (map (le_bytes 4) (di_addrs d)).

(** struct dirent: the inode number and the [DIRSIZ] bytes of the name. *)
Definition de_inum (de : list Z) : Z := get_u16 de 0.
Definition de_name (de : list Z) : list Z := take 14 (drop 2 de).

(** ** Storing and reading back *)

Lemma length_splice data off bytes :
  (off + length bytes <= length data)%nat -> length (splice data off bytes) = length data.
Proof. intros H. unfold splice. rewrite !length_app, length_take, length_drop. lia. Qed.

Lemma splice_in data off bytes k n :
  (off <= length data)%nat -> (k + n <= length bytes)%nat ->
  take n (drop (off + k) (splice data off bytes)) = take n (drop k bytes).
Proof.
  intros Ho Hk. unfold splice. rewrite <- drop_drop.
  rewrite (drop_app_ge (take off data)) by (rewrite length_take; lia).
  replace (off - length (take off data))%nat with 0%nat by (rewrite length_take; lia).
  rewrite drop_0, drop_app_le by lia. apply take_app_le. rewrite length_drop. lia.
Qed.

Lemma splice_out data off bytes k n :
  (off + length bytes <= length data)%nat -> (k + n <= off \/ off + length bytes <= k)%nat ->
  take n (drop k (splice data off bytes)) = take n (drop k data).
Proof.
  intros Ho Hk. unfold splice. destruct Hk as [Hk|Hk].
  - rewrite drop_app_le by (rewrite length_take; lia). rewrite take_app_le by (rewrite length_drop, length_take; lia).
    rewrite <- (take_drop off data) at 2. rewrite drop_app_le by (rewrite length_take; lia).
    by rewrite take_app_le by (rewrite length_drop, length_take; lia).
  - rewrite app_assoc, drop_app_ge by (rewrite length_app, length_take; lia). rewrite length_app, length_take, drop_drop.
    f_equal. f_equal. lia.
Qed.

(** The words of an array of words. *)
Lemma take_drop_words (l : list Z) k x rest :
  l !! k = Some x -> take 4 (drop (4 * k) (concat (map (le_bytes 4) l) ++ rest)) = le_bytes 4 x.
Proof.
  revert k. induction l as [|y l IH]; intros [|k] Hk; [done|done| |]; cbn [map concat].
  - injection Hk as ->. rewrite Nat.mul_0_r, drop_0, <- app_assoc. rewrite take_app_le by (rewrite length_le_bytes; lia).
    apply take_ge. rewrite length_le_bytes. lia.
  - cbn in Hk. rewrite <- app_assoc. replace (4 * S k)%nat with (4 + 4 * k)%nat by lia.
    rewrite <- drop_drop, (drop_app_length' (le_bytes 4 y)) by (by rewrite length_le_bytes). by apply IH.
Qed.

Lemma i16_id z : - 2 ^ 15 <= z < 2 ^ 15 -> i16 (z mod 2 ^ 16) = z.
Proof.
  intros Hz. unfold i16. rewrite Zplus_mod_idemp_l, Z.mod_small by lia. lia.
Qed.

(** The fields fit their types. *)
Definition dinode_ok (d : dinode) : Prop :=
  - 2 ^ 15 <= di_type d < 2 ^ 15 /\ - 2 ^ 15 <= di_major d < 2 ^ 15 /\ - 2 ^ 15 <= di_minor d < 2 ^ 15 /\
  - 2 ^ 15 <= di_nlink d < 2 ^ 15 /\ 0 <= di_size d < 2 ^ 32 /\
  length (di_addrs d) = 13%nat /\ Forall (fun a => 0 <= a < 2 ^ 32) (di_addrs d).

Lemma length_words l : length (concat (map (le_bytes 4) l)) = (4 * length l)%nat.
Proof. induction l as [|x l IH]; [done|]. cbn [map concat]. rewrite length_app, length_le_bytes, IH. cbn. lia. Qed.

Lemma length_encode d : length (di_addrs d) = 13%nat -> length (encode_dinode d) = 64%nat.
Proof. intros H. unfold encode_dinode. rewrite !length_app, !length_le_bytes, length_words, H. done. Qed.

Lemma decode_encode d data off :
  dinode_ok d -> (off + 64 <= length data)%nat -> decode_dinode (splice data off (encode_dinode d)) off = d.
Proof.
  intros (H1 & H2 & H3 & H4 & H5 & Hl & Ha) Ho. pose proof (length_encode d Hl) as Hle.
  assert (G16 : forall k pre x rest, encode_dinode d = pre ++ le_bytes 2 x ++ rest -> length pre = k ->
    get_u16 (splice data off (encode_dinode d)) (off + k) = x mod 2 ^ 16).
  { intros k pre x rest E Hk. unfold get_u16. rewrite splice_in; [|lia|].
    - rewrite E, (drop_app_length' pre) by done. rewrite (take_app_length' (le_bytes 2 x)) by (by rewrite length_le_bytes).
      by rewrite le_val_le_bytes.
    - rewrite E, !length_app, length_le_bytes. lia. }
  assert (G32 : forall k, (k + 4 <= 64)%nat -> get_u32 (splice data off (encode_dinode d)) (off + k) = le_val (take 4 (drop k (encode_dinode d)))).
  { intros k Hk. unfold get_u32. rewrite splice_in; [done|lia|lia]. }
  assert (Es : encode_dinode d = (le_bytes 2 (di_type d) ++ le_bytes 2 (di_major d) ++ le_bytes 2 (di_minor d) ++
    le_bytes 2 (di_nlink d)) ++ le_bytes 4 (di_size d) ++ concat (map (le_bytes 4) (di_addrs d))) by (unfold encode_dinode; by rewrite <- !app_assoc).
  destruct d as [ty ma mi nl sz addrs]. cbn [di_type di_major di_minor di_nlink di_size di_addrs] in *.
  unfold decode_dinode. f_equal.
  - rewrite <- (Nat.add_0_r off) at 2. rewrite (G16 0%nat [] ty _ eq_refl eq_refl). by apply i16_id.
  - rewrite (G16 2%nat (le_bytes 2 ty) ma _ eq_refl eq_refl). by apply i16_id.
  - rewrite (G16 4%nat (le_bytes 2 ty ++ le_bytes 2 ma) mi (le_bytes 2 nl ++ le_bytes 4 sz ++ concat (map (le_bytes 4) addrs))); [by apply i16_id| |reflexivity].
    unfold encode_dinode. by rewrite <- !app_assoc.
  - rewrite (G16 6%nat (le_bytes 2 ty ++ le_bytes 2 ma ++ le_bytes 2 mi) nl (le_bytes 4 sz ++ concat (map (le_bytes 4) addrs))); [by apply i16_id| |reflexivity].
    unfold encode_dinode. by rewrite <- !app_assoc.
  - rewrite G32, Es by lia. rewrite drop_app_length' by reflexivity. rewrite (take_app_length' (le_bytes 4 sz)) by (by rewrite length_le_bytes).
    rewrite le_val_le_bytes. by apply Z.mod_small.
  - apply list_eq. intros k. rewrite list_lookup_fmap. destruct (decide (k < 13)%nat) as [Hk|Hk].
    + rewrite lookup_seq_lt by done. cbn [fmap option_fmap option_map]. rewrite Nat.add_0_l.
      destruct (lookup_lt_is_Some_2 addrs k ltac:(lia)) as [x Hx]. rewrite Hx. f_equal.
      replace (off + 12 + 4 * k)%nat with (off + (12 + 4 * k))%nat by lia. rewrite G32, Es, app_assoc by lia.
      rewrite <- drop_drop, drop_app_length' by reflexivity. rewrite <- (app_nil_r (concat _)), (take_drop_words _ _ x) by done.
      rewrite le_val_le_bytes. apply Z.mod_small. by apply (Forall_lookup_1 _ _ _ _ Ha Hx).
    + rewrite !lookup_ge_None_2; [done|lia|rewrite length_seq; lia].
Qed.

(** An inode that does not overlap the one that is written. *)
Lemma decode_other d data off off' : length (di_addrs d) = 13%nat -> (off + 64 <= length data)%nat -> (off' + 64 <= off \/ off + 64 <= off')%nat ->
  decode_dinode (splice data off (encode_dinode d)) off' = decode_dinode data off'.
Proof.
  intros Hd Ho Hap. pose proof (length_encode d Hd) as Hle.
  assert (G : forall n k, (k + n <= 64)%nat -> take n (drop (off' + k) (splice data off (encode_dinode d))) = take n (drop (off' + k) data)).
  { intros n k Hk. apply splice_out; lia. }
  unfold decode_dinode, get_u16, get_u32. rewrite (G 4%nat 8%nat), !(G 2%nat) by lia.
  pose proof (G 2%nat 0%nat ltac:(lia)) as G0. rewrite Nat.add_0_r in G0. rewrite G0. f_equal.
  apply map_ext_in. intros k Hk%in_seq. rewrite <- Nat.add_assoc, G by lia. done.
Qed.

(** An on-disk inode is read back as it was written: storing an inode whose fields fit
    their types at its offset in a block and reading that offset gives it again, and the
    inode at any other offset of the block that does not overlap is as before. *)
Theorem dinode_roundtrip (d : dinode) (data : list Z) (off off' : nat) :
  dinode_ok d -> (off + 64 <= length data)%nat -> (off' + 64 <= off \/ off + 64 <= off')%nat ->
  decode_dinode (splice data off (encode_dinode d)) off = d /\
  decode_dinode (splice data off (encode_dinode d)) off' = decode_dinode data off'.
Proof.
  intros Hd Ho Hap. split; [by apply decode_encode|]. apply decode_other; [apply Hd|done|done].
Qed.

Lemma dinode_roundtrip_witness :
  decode_dinode (splice (replicate 1024 7) 128 (encode_dinode (mk_dinode 2 0 0 1 5000 (replicate 13 77)))) 128
  = mk_dinode 2 0 0 1 5000 (replicate 13 77).
Proof.
  apply (dinode_roundtrip (mk_dinode 2 0 0 1 5000 (replicate 13 77)) (replicate 1024 7) 128 192).
  - unfold dinode_ok. cbn [di_type di_major di_minor di_nlink di_size di_addrs]. repeat split; try lia.
    apply Forall_replicate. lia.
  - apply Nat.leb_le. reflexivity.
  - right. apply Nat.leb_le. reflexivity.
Defined.
