(* ===== verification/Machine.v ===== *)
(** * The machine below the file system

    The constants of kernel/param.h, kernel/riscv.h and kernel/memlayout.h, the
    structures of kernel/spinlock.h and kernel/proc.h, and the record
    [machine]: the state that spinlock.c, kalloc.c, vm.c and proc.c share.  A
    [machine] is seen from one hart: [m_hart] holds that hart's registers and
    its [struct cpu].  The other components keep a [machine] as a part of their
    own state and reach it through the class [Sub] of the prelude. *)
From stdpp Require Import gmap list strings.
From S2P Require Import Prelude Kstring.

(** ** param.h *)
Definition NPROC : Z := 64.
Definition NCPU : Z := 8.
Definition NOFILE : Z := 16.
Definition NFILE : Z := 100.
Definition NINODE : Z := 50.
Definition NDEV : Z := 10.
Definition ROOTDEV : Z := 1.
Definition MAXARG : Z := 32.
Definition MAXOPBLOCKS : Z := 10.
Definition LOGSIZE : Z := MAXOPBLOCKS * 3.
Definition NBUF : Z := MAXOPBLOCKS * 3.
Definition FSSIZE : Z := 1000.
Definition MAXPATH : Z := 128.

(** ** riscv.h *)
Definition SSTATUS_SPP : Z := Z.shiftl 1 8.
Definition SSTATUS_SPIE : Z := Z.shiftl 1 5.
Definition SSTATUS_SIE : Z := Z.shiftl 1 1.

Definition PGSIZE : Z := 4096.
Definition PGSHIFT : Z := 12.
Definition PGROUNDUP (sz : Z) : Z := Z.land (u64 (sz + PGSIZE - 1)) (Z.lnot (PGSIZE - 1)).
Definition PGROUNDDOWN (a : Z) : Z := Z.land a (Z.lnot (PGSIZE - 1)).

Definition PTE_V : Z := Z.shiftl 1 0.
Definition PTE_R : Z := Z.shiftl 1 1.
Definition PTE_W : Z := Z.shiftl 1 2.
Definition PTE_X : Z := Z.shiftl 1 3.
Definition PTE_U : Z := Z.shiftl 1 4.

Definition PA2PTE (pa : Z) : Z := u64 (Z.shiftl (Z.shiftr pa 12) 10).
Definition PTE2PA (pte : Z) : Z := u64 (Z.shiftl (Z.shiftr pte 10) 12).
Definition PTE_FLAGS (pte : Z) : Z := Z.land pte 0x3FF.

Definition PXMASK : Z := 0x1FF.
Definition PXSHIFT (level : Z) : Z := PGSHIFT + 9 * level.
Definition PX (level va : Z) : Z := Z.land (Z.shiftr va (PXSHIFT level)) PXMASK.

Definition MAXVA : Z := Z.shiftl 1 (9 + 9 + 9 + 12 - 1).

Definition SATP_SV39 : Z := Z.shiftl 8 60.
Definition MAKE_SATP (pagetable : Z) : Z := Z.lor SATP_SV39 (Z.shiftr pagetable 12).

(** ** memlayout.h and vga.h *)
Definition UART0 : Z := 0x10000000.
Definition UART0_IRQ : Z := 10.
Definition VIRTIO0 : Z := 0x10001000.
Definition VIRTIO0_IRQ : Z := 1.
Definition PLIC : Z := 0x0c000000.
Definition KERNBASE : Z := 0x80000000.
Definition PHYSTOP : Z := KERNBASE + 128 * 1024 * 1024.
Definition TRAMPOLINE : Z := MAXVA - PGSIZE.
Definition KSTACK (p : Z) : Z := TRAMPOLINE - (p + 1) * 2 * PGSIZE.
Definition TRAPFRAME : Z := TRAMPOLINE - PGSIZE.
Definition VGA0 : Z := 0x3000000.
Definition FRAMEBUFFER : Z := 0x40000000.

(** ** Locks and wait channels

    A lock is named by the object that contains it, a wait channel by the
    address that [sleep] is given. *)
Inductive lockid : Type :=
| Lk_kmem | Lk_pid | Lk_wait | Lk_proc (i : nat) | Lk_ticks
| Lk_bcache | Lk_log | Lk_itable | Lk_ftable | Lk_pipe (pi : Z)
| Lk_cons | Lk_uart_tx | Lk_pr | Lk_msg | Lk_vdisk
| Lk_buf (i : nat) | Lk_inode (i : nat).

#[global] Instance lockid_eq_dec : EqDecision lockid.
Proof. solve_decision. Defined.

Definition lockid_code (l : lockid) : Z * Z :=
  match l with
  | Lk_kmem => (0, 0) | Lk_pid => (1, 0) | Lk_wait => (2, 0)
  | Lk_proc i => (3, Z.of_nat i) | Lk_ticks => (4, 0) | Lk_bcache => (5, 0)
  | Lk_log => (6, 0) | Lk_itable => (7, 0) | Lk_ftable => (8, 0)
  | Lk_pipe p => (9, p) | Lk_cons => (10, 0) | Lk_uart_tx => (11, 0)
  | Lk_pr => (12, 0) | Lk_msg => (13, 0) | Lk_vdisk => (14, 0)
  | Lk_buf i => (15, Z.of_nat i) | Lk_inode i => (16, Z.of_nat i)
  end.

Definition lockid_decode (c : Z * Z) : lockid :=
  match c with
  | (0, _) => Lk_kmem | (1, _) => Lk_pid | (2, _) => Lk_wait
  | (3, z) => Lk_proc (Z.to_nat z) | (4, _) => Lk_ticks | (5, _) => Lk_bcache
  | (6, _) => Lk_log | (7, _) => Lk_itable | (8, _) => Lk_ftable
  | (9, z) => Lk_pipe z | (10, _) => Lk_cons | (11, _) => Lk_uart_tx
  | (12, _) => Lk_pr | (13, _) => Lk_msg | (14, _) => Lk_vdisk
  | (15, z) => Lk_buf (Z.to_nat z) | (_, z) => Lk_inode (Z.to_nat z)
  end.

#[global] Instance lockid_countable : Countable lockid.
Proof.
  refine (inj_countable' lockid_code lockid_decode _).
  intros []; simpl; rewrite ?Nat2Z.id; reflexivity.
Defined.

Inductive chan : Type :=
| Ch_proc (i : nat) | Ch_ticks | Ch_log | Ch_pipe_nread (pi : Z) | Ch_pipe_nwrite (pi : Z)
| Ch_cons_r | Ch_uart_tx_r | Ch_disk_free | Ch_disk_buf (i : nat)
| Ch_sleep_buf (i : nat) | Ch_sleep_inode (i : nat).

#[global] Instance chan_eq_dec : EqDecision chan.
Proof. solve_decision. Defined.

(** struct spinlock *)
Record spinlock := mk_spinlock {
  locked : Z;
  lk_name : string;
  lk_cpu : option Z
}.
Definition set_locked (v : Z) (r : spinlock) : spinlock :=
  mk_spinlock v (lk_name r) (lk_cpu r).
Definition set_lk_name (v : string) (r : spinlock) : spinlock :=
  mk_spinlock (locked r) v (lk_cpu r).
Definition set_lk_cpu (v : option Z) (r : spinlock) : spinlock :=
  mk_spinlock (locked r) (lk_name r) v.

(** ** proc.h *)
Record context := mk_context {
  ctx_ra : Z;
  ctx_sp : Z;
  ctx_s0 : Z;
  ctx_s1 : Z;
  ctx_s2 : Z;
  ctx_s3 : Z;
  ctx_s4 : Z;
  ctx_s5 : Z;
  ctx_s6 : Z;
  ctx_s7 : Z;
  ctx_s8 : Z;
  ctx_s9 : Z;
  ctx_s10 : Z;
  ctx_s11 : Z
}.
Definition context_zero : context := mk_context 0 0 0 0 0 0 0 0 0 0 0 0 0 0.

Inductive procstate : Type := UNUSED | USED | SLEEPING | RUNNABLE | RUNNING | ZOMBIE.

#[global] Instance procstate_eq_dec : EqDecision procstate.
Proof. solve_decision. Defined.

(** struct proc.  A [struct proc *] is an index of the process table, a
    [struct file *] an index of the file table and a [struct inode *] an index
    of the inode table; [p_trapframe] is the address of the trapframe page, 0
    when there is none. *)
Record proc := mk_proc {
  p_state : procstate;
  p_chan : option chan;
  p_killed : Z;
  p_xstate : Z;
  p_pid : Z;
  p_parent : option nat;
  p_kstack : Z;
  p_sz : Z;
  p_pagetable : Z;
  p_trapframe : Z;
  p_context : context;
  p_ofile : list (option nat);
  p_cwd : option nat;
  p_name : list Z
}.
Definition set_p_state (v : procstate) (r : proc) : proc :=
  mk_proc v (p_chan r) (p_killed r) (p_xstate r) (p_pid r) (p_parent r) (p_kstack r)
    (p_sz r) (p_pagetable r) (p_trapframe r) (p_context r) (p_ofile r) (p_cwd r)
    (p_name r).
Definition set_p_chan (v : option chan) (r : proc) : proc :=
  mk_proc (p_state r) v (p_killed r) (p_xstate r) (p_pid r) (p_parent r) (p_kstack
    r) (p_sz r) (p_pagetable r) (p_trapframe r) (p_context r) (p_ofile r) (p_cwd r)
    (p_name r).
Definition set_p_killed (v : Z) (r : proc) : proc :=
  mk_proc (p_state r) (p_chan r) v (p_xstate r) (p_pid r) (p_parent r) (p_kstack r)
    (p_sz r) (p_pagetable r) (p_trapframe r) (p_context r) (p_ofile r) (p_cwd r)
    (p_name r).
Definition set_p_xstate (v : Z) (r : proc) : proc :=
  mk_proc (p_state r) (p_chan r) (p_killed r) v (p_pid r) (p_parent r) (p_kstack r)
    (p_sz r) (p_pagetable r) (p_trapframe r) (p_context r) (p_ofile r) (p_cwd r)
    (p_name r).
Definition set_p_pid (v : Z) (r : proc) : proc :=
  mk_proc (p_state r) (p_chan r) (p_killed r) (p_xstate r) v (p_parent r) (p_kstack
    r) (p_sz r) (p_pagetable r) (p_trapframe r) (p_context r) (p_ofile r) (p_cwd r)
    (p_name r).
Definition set_p_parent (v : option nat) (r : proc) : proc :=
  mk_proc (p_state r) (p_chan r) (p_killed r) (p_xstate r) (p_pid r) v (p_kstack r)
    (p_sz r) (p_pagetable r) (p_trapframe r) (p_context r) (p_ofile r) (p_cwd r)
    (p_name r).
Definition set_p_kstack (v : Z) (r : proc) : proc :=
  mk_proc (p_state r) (p_chan r) (p_killed r) (p_xstate r) (p_pid r) (p_parent r) v
    (p_sz r) (p_pagetable r) (p_trapframe r) (p_context r) (p_ofile r) (p_cwd r)
    (p_name r).
Definition set_p_sz (v : Z) (r : proc) : proc :=
  mk_proc (p_state r) (p_chan r) (p_killed r) (p_xstate r) (p_pid r) (p_parent r)
    (p_kstack r) v (p_pagetable r) (p_trapframe r) (p_context r) (p_ofile r) (p_cwd
    r) (p_name r).
Definition set_p_pagetable (v : Z) (r : proc) : proc :=
  mk_proc (p_state r) (p_chan r) (p_killed r) (p_xstate r) (p_pid r) (p_parent r)
    (p_kstack r) (p_sz r) v (p_trapframe r) (p_context r) (p_ofile r) (p_cwd r)
    (p_name r).
Definition set_p_trapframe (v : Z) (r : proc) : proc :=
  mk_proc (p_state r) (p_chan r) (p_killed r) (p_xstate r) (p_pid r) (p_parent r)
    (p_kstack r) (p_sz r) (p_pagetable r) v (p_context r) (p_ofile r) (p_cwd r)
    (p_name r).
Definition set_p_context (v : context) (r : proc) : proc :=
  mk_proc (p_state r) (p_chan r) (p_killed r) (p_xstate r) (p_pid r) (p_parent r)
    (p_kstack r) (p_sz r) (p_pagetable r) (p_trapframe r) v (p_ofile r) (p_cwd r)
    (p_name r).
Definition set_p_ofile (v : list (option nat)) (r : proc) : proc :=
  mk_proc (p_state r) (p_chan r) (p_killed r) (p_xstate r) (p_pid r) (p_parent r)
    (p_kstack r) (p_sz r) (p_pagetable r) (p_trapframe r) (p_context r) v (p_cwd r)
    (p_name r).
Definition set_p_cwd (v : option nat) (r : proc) : proc :=
  mk_proc (p_state r) (p_chan r) (p_killed r) (p_xstate r) (p_pid r) (p_parent r)
    (p_kstack r) (p_sz r) (p_pagetable r) (p_trapframe r) (p_context r) (p_ofile r)
    v (p_name r).
Definition set_p_name (v : list Z) (r : proc) : proc :=
  mk_proc (p_state r) (p_chan r) (p_killed r) (p_xstate r) (p_pid r) (p_parent r)
    (p_kstack r) (p_sz r) (p_pagetable r) (p_trapframe r) (p_context r) (p_ofile r)
    (p_cwd r) v.

(** Byte offsets in struct trapframe. *)
Definition TF_kernel_satp : Z := 0.
Definition TF_kernel_sp : Z := 8.
Definition TF_kernel_trap : Z := 16.
Definition TF_epc : Z := 24.
Definition TF_kernel_hartid : Z := 32.
Definition TF_sp : Z := 48.
Definition TF_a0 : Z := 112.
Definition TF_a (n : Z) : Z := TF_a0 + 8 * n.

(** The registers of a hart the kernel uses and its [struct cpu]; [h_proc] is
    the process running on it. *)
Record hart := mk_hart {
  h_tp : Z;
  h_sstatus : Z;
  h_noff : Z;
  h_intena : Z;
  h_proc : option nat
}.
Definition set_h_tp (v : Z) (r : hart) : hart :=
  mk_hart v (h_sstatus r) (h_noff r) (h_intena r) (h_proc r).
Definition set_h_sstatus (v : Z) (r : hart) : hart :=
  mk_hart (h_tp r) v (h_noff r) (h_intena r) (h_proc r).
Definition set_h_noff (v : Z) (r : hart) : hart :=
  mk_hart (h_tp r) (h_sstatus r) v (h_intena r) (h_proc r).
Definition set_h_intena (v : Z) (r : hart) : hart :=
  mk_hart (h_tp r) (h_sstatus r) (h_noff r) v (h_proc r).
Definition set_h_proc (v : option nat) (r : hart) : hart :=
  mk_hart (h_tp r) (h_sstatus r) (h_noff r) (h_intena r) v.

Record machine := mk_machine {
  m_hart : hart;
  m_locks : gmap lockid spinlock;
  m_mem : mem;
  m_freelist : Z;
  m_procs : list proc;
  m_initproc : option nat;
  m_nextpid : Z;
  m_ticks : Z
}.
Definition set_m_hart (v : hart) (r : machine) : machine :=
  mk_machine v (m_locks r) (m_mem r) (m_freelist r) (m_procs r) (m_initproc r)
    (m_nextpid r) (m_ticks r).
Definition set_m_locks (v : gmap lockid spinlock) (r : machine) : machine :=
  mk_machine (m_hart r) v (m_mem r) (m_freelist r) (m_procs r) (m_initproc r)
    (m_nextpid r) (m_ticks r).
Definition set_m_mem (v : mem) (r : machine) : machine :=
  mk_machine (m_hart r) (m_locks r) v (m_freelist r) (m_procs r) (m_initproc r)
    (m_nextpid r) (m_ticks r).
Definition set_m_freelist (v : Z) (r : machine) : machine :=
  mk_machine (m_hart r) (m_locks r) (m_mem r) v (m_procs r) (m_initproc r)
    (m_nextpid r) (m_ticks r).
Definition set_m_procs (v : list proc) (r : machine) : machine :=
  mk_machine (m_hart r) (m_locks r) (m_mem r) (m_freelist r) v (m_initproc r)
    (m_nextpid r) (m_ticks r).
Definition set_m_initproc (v : option nat) (r : machine) : machine :=
  mk_machine (m_hart r) (m_locks r) (m_mem r) (m_freelist r) (m_procs r) v
    (m_nextpid r) (m_ticks r).
Definition set_m_nextpid (v : Z) (r : machine) : machine :=
  mk_machine (m_hart r) (m_locks r) (m_mem r) (m_freelist r) (m_procs r) (m_initproc
    r) v (m_ticks r).
Definition set_m_ticks (v : Z) (r : machine) : machine :=
  mk_machine (m_hart r) (m_locks r) (m_mem r) (m_freelist r) (m_procs r) (m_initproc
    r) (m_nextpid r) v.

#[global] Instance sub_machine_refl : Sub machine machine.
Proof.
  refine {| sub_get := fun s => s; sub_set := fun t _ => t |}; reflexivity.
Defined.

(** ** Address arithmetic *)

Lemma land_lnot_page a : Z.land a (Z.lnot (PGSIZE - 1)) = a / 4096 * 4096.
Proof.
  change (PGSIZE - 1) with (Z.ones 12). fold (Z.ldiff a (Z.ones 12)).
  rewrite <- Z.ldiff_land, Z.ldiff_ones_r by lia.
  rewrite Z.shiftl_mul_pow2, Z.shiftr_div_pow2 by lia. done.
Qed.

Lemma PGROUNDDOWN_eq a : PGROUNDDOWN a = a / 4096 * 4096.
Proof. apply land_lnot_page. Qed.

Lemma PGROUNDUP_eq a : 0 <= a -> a + 4095 < 2 ^ 64 -> PGROUNDUP a = (a + 4095) / 4096 * 4096.
Proof.
  intros H0 H1. unfold PGROUNDUP. rewrite land_lnot_page. unfold u64, PGSIZE.
  rewrite Z.mod_small by lia. do 2 f_equal. lia.
Qed.

Lemma PGROUNDUP_spec a :
  0 <= a -> a + 4095 < 2 ^ 64 ->
  PGROUNDUP a mod 4096 = 0 /\ a <= PGROUNDUP a < a + 4096.
Proof.
  intros H0 H1. rewrite PGROUNDUP_eq by done. rewrite Z.mod_mul by lia.
  pose proof (Z.div_mod (a + 4095) 4096). pose proof (Z.mod_pos_bound (a + 4095) 4096). lia.
Qed.
