(* ===== verification/Asm.v ===== *)
(** * kernel/trampoline.S, kernelvec.S, swtch.S, entry.S

    The assembly code as lists of instructions on the 31 registers, the control
    registers it names and the memory it reaches through the page table in force.
    The theorems say that no register of the interrupted program is lost on the
    way into the kernel and back. *)
From stdpp Require Import gmap list.
From S2P Require Import Prelude Kstring Machine.

Inductive reg : Type :=
| ra | sp | gp | tp | t0 | t1 | t2 | s0 | s1
| a0 | a1 | a2 | a3 | a4 | a5 | a6 | a7
| s2 | s3 | s4 | s5 | s6 | s7 | s8 | s9 | s10 | s11
| t3 | t4 | t5 | t6.

#[global] Instance reg_eq_dec : EqDecision reg.
Proof. solve_decision. Defined.

Inductive csreg : Type := Sscratch | Mscratch | Satp | Sip | Mhartid.

#[global] Instance csreg_eq_dec : EqDecision csreg.
Proof. solve_decision. Defined.

Inductive instr : Type :=
| SD (r : reg) (off : Z) (b : reg)
| LD (r : reg) (off : Z) (b : reg)
| ADDI (d s : reg) (imm : Z)
| ADD (d s t : reg)
| MUL (d s t : reg)
| LI (d : reg) (imm : Z)
| CSRRW (d : reg) (c : csreg) (s : reg)
| CSRR (d : reg) (c : csreg)
| CSRW (c : csreg) (s : reg)
| SFENCE.

Record cpu := mk_cpu { regs : reg -> Z; csrs : csreg -> Z; ram : mem }.

Definition setr (d : reg) (v : Z) (f : reg -> Z) : reg -> Z := fun r => if decide (r = d) then u64 v else f r.
Definition setc (d : csreg) (v : Z) (f : csreg -> Z) : csreg -> Z := fun r => if decide (r = d) then v else f r.

Definition with_reg (d : reg) (v : Z) (c : cpu) : cpu := mk_cpu (setr d v (regs c)) (csrs c) (ram c).

Definition step1 (i : instr) (c : cpu) : cpu :=
  match i with
  | SD r off b => mk_cpu (regs c) (csrs c) (store64 (ram c) (u64 (regs c b + off)) (regs c r))
  | LD r off b => with_reg r (load64 (ram c) (u64 (regs c b + off))) c
  | ADDI d s imm => with_reg d (regs c s + imm) c
  | ADD d s t => with_reg d (regs c s + regs c t) c
  | MUL d s t => with_reg d (regs c s * regs c t) c
  | LI d imm => with_reg d imm c
  | CSRRW d k s =>
      mk_cpu (setr d (csrs c k) (regs c)) (setc k (regs c s) (csrs c)) (ram c)
  | CSRR d k => with_reg d (csrs c k) c
  | CSRW k s => mk_cpu (regs c) (setc k (regs c s) (csrs c)) (ram c)
  | SFENCE => c
  end.

Fixpoint exec (p : list instr) (c : cpu) : cpu :=
  match p with
  | [] => c
  | i :: p => exec p (step1 i c)
  end.

(** [uservec], up to the jump to the address in [t0]. *)
Definition uservec : list instr := [
  CSRRW a0 Sscratch a0; SD ra 40 a0; SD sp 48 a0; SD gp 56 a0; SD tp 64 a0; SD t0 72 a0;
  SD t1 80 a0; SD t2 88 a0; SD s0 96 a0; SD s1 104 a0; SD a1 120 a0; SD a2 128 a0;
  SD a3 136 a0; SD a4 144 a0; SD a5 152 a0; SD a6 160 a0; SD a7 168 a0; SD s2 176 a0;
  SD s3 184 a0; SD s4 192 a0; SD s5 200 a0; SD s6 208 a0; SD s7 216 a0; SD s8 224 a0;
  SD s9 232 a0; SD s10 240 a0; SD s11 248 a0; SD t3 256 a0; SD t4 264 a0; SD t5 272 a0;
  SD t6 280 a0; CSRR t0 Sscratch; SD t0 112 a0; LD sp 8 a0; LD tp 32 a0; LD t0 16 a0;
  LD t1 0 a0; CSRW Satp t1; SFENCE ].

(** [userret], up to [sret]. *)
Definition userret : list instr := [
  CSRW Satp a1; SFENCE; LD t0 112 a0; CSRW Sscratch t0; LD ra 40 a0; LD sp 48 a0; LD gp 56 a0;
  LD tp 64 a0; LD t0 72 a0; LD t1 80 a0; LD t2 88 a0; LD s0 96 a0; LD s1 104 a0; LD a1 120 a0;
  LD a2 128 a0; LD a3 136 a0; LD a4 144 a0; LD a5 152 a0; LD a6 160 a0; LD a7 168 a0;
  LD s2 176 a0; LD s3 184 a0; LD s4 192 a0; LD s5 200 a0; LD s6 208 a0; LD s7 216 a0;
  LD s8 224 a0; LD s9 232 a0; LD s10 240 a0; LD s11 248 a0; LD t3 256 a0; LD t4 264 a0;
  LD t5 272 a0; LD t6 280 a0; CSRRW a0 Sscratch a0 ].

(** [kernelvec], before the call of [kerneltrap]. *)
Definition kernelvec_save : list instr := [
  ADDI sp sp (-256); SD ra 0 sp; SD sp 8 sp; SD gp 16 sp; SD tp 24 sp; SD t0 32 sp;
  SD t1 40 sp; SD t2 48 sp; SD s0 56 sp; SD s1 64 sp; SD a0 72 sp; SD a1 80 sp; SD a2 88 sp;
  SD a3 96 sp; SD a4 104 sp; SD a5 112 sp; SD a6 120 sp; SD a7 128 sp; SD s2 136 sp;
  SD s3 144 sp; SD s4 152 sp; SD s5 160 sp; SD s6 168 sp; SD s7 176 sp; SD s8 184 sp;
  SD s9 192 sp; SD s10 200 sp; SD s11 208 sp; SD t3 216 sp; SD t4 224 sp; SD t5 232 sp;
  SD t6 240 sp ].

(** [kernelvec], from the return of [kerneltrap] to [sret]. *)
Definition kernelvec_restore : list instr := [
  LD ra 0 sp; LD sp 8 sp; LD gp 16 sp; LD t0 32 sp; LD t1 40 sp; LD t2 48 sp; LD s0 56 sp;
  LD s1 64 sp; LD a0 72 sp; LD a1 80 sp; LD a2 88 sp; LD a3 96 sp; LD a4 104 sp; LD a5 112 sp;
  LD a6 120 sp; LD a7 128 sp; LD s2 136 sp; LD s3 144 sp; LD s4 152 sp; LD s5 160 sp;
  LD s6 168 sp; LD s7 176 sp; LD s8 184 sp; LD s9 192 sp; LD s10 200 sp; LD s11 208 sp;
  LD t3 216 sp; LD t4 224 sp; LD t5 232 sp; LD t6 240 sp; ADDI sp sp 256 ].

(** [timervec], up to [mret]. *)
Definition timervec : list instr := [
  CSRRW a0 Mscratch a0; SD a1 0 a0; SD a2 8 a0; SD a3 16 a0; LD a1 24 a0; LD a2 32 a0;
  LD a3 0 a1; ADD a3 a3 a2; SD a3 0 a1; LI a1 2; CSRW Sip a1; LD a3 16 a0; LD a2 8 a0;
  LD a1 0 a0; CSRRW a0 Mscratch a0 ].

(** [swtch], up to [ret]. *)
Definition swtch_code : list instr := [
  SD ra 0 a0; SD sp 8 a0; SD s0 16 a0; SD s1 24 a0; SD s2 32 a0; SD s3 40 a0; SD s4 48 a0;
  SD s5 56 a0; SD s6 64 a0; SD s7 72 a0; SD s8 80 a0; SD s9 88 a0; SD s10 96 a0; SD s11 104 a0;
  LD ra 0 a1; LD sp 8 a1; LD s0 16 a1; LD s1 24 a1; LD s2 32 a1; LD s3 40 a1; LD s4 48 a1;
  LD s5 56 a1; LD s6 64 a1; LD s7 72 a1; LD s8 80 a1; LD s9 88 a1; LD s10 96 a1; LD s11 104 a1 ].

Section Entry.
(** The address of [stack0]. *)
Variable stack0 : Z.

(** [_entry], up to the call of [start]. *)
Definition entry : list instr :=
  [ LI sp stack0; LI a0 (1024 * 4); CSRR a1 Mhartid; ADDI a1 a1 1; MUL a0 a0 a1; ADD sp sp a0 ].
End Entry.

(** ** Saving and restoring a table of registers *)

Definition table := list (reg * Z).
Definition sds (b : reg) (l : table) : list instr := map (fun e => SD e.1 e.2 b) l.
Definition lds (b : reg) (l : table) : list instr := map (fun e => LD e.1 e.2 b) l.

(** Slots of eight bytes that do not overlap, within [size] bytes. *)
Definition apart (o o' : Z) : bool := (o + 8 <=? o') || (o' + 8 <=? o).
Fixpoint spaced (size : Z) (l : table) : bool :=
  match l with
  | [] => true
  | (_, o) :: l => (0 <=? o) && (o + 8 <=? size) && forallb (fun e => apart o e.2) l && spaced size l
  end.

(** Registers hold 64-bit values. *)
Definition regs_ok (c : cpu) : Prop := forall r, 0 <= regs c r < 2 ^ 64.

Lemma exec_app p q c : exec (p ++ q) c = exec q (exec p c).
Proof. revert c. induction p; intros c; simpl; auto. Qed.

Lemma exec_cons i p c : exec (i :: p) c = exec p (step1 i c).
Proof. done. Qed.

Lemma setr_eq d v f : setr d v f d = u64 v.
Proof. unfold setr. by rewrite decide_True. Qed.
Lemma setr_ne d r v f : r <> d -> setr d v f r = f r.
Proof. intros H. unfold setr. by rewrite decide_False. Qed.

Lemma setc_eq d v f : setc d v f d = v.
Proof. unfold setc. by rewrite decide_True. Qed.
Lemma setc_ne d r v f : r <> d -> setc d v f r = f r.
Proof. intros H. unfold setc. by rewrite decide_False. Qed.

Lemma u64_id v : 0 <= v < 2 ^ 64 -> u64 v = v.
Proof. intros H. unfold u64. by apply Z.mod_small. Qed.

Lemma u64_load m a : u64 (load64 m a) = load64 m a.
Proof. apply u64_id, load64_bound. Qed.

(** Memory after the registers of [l] were stored from the address [A] on. *)
Fixpoint store_table (f : reg -> Z) (A : Z) (l : table) (m : mem) : mem :=
  match l with
  | [] => m
  | (r, o) :: l => store_table f A l (store64 m (u64 (A + o)) (f r))
  end.

Lemma exec_sds b l c :
  exec (sds b l) c = mk_cpu (regs c) (csrs c) (store_table (regs c) (regs c b) l (ram c)).
Proof.
  revert c. induction l as [|[r o] l IH]; intros c; [by destruct c|]. cbn. by rewrite IH.
Qed.

Lemma spaced_slot size l r o :
  spaced size l = true -> (r, o) ∈ l -> 0 <= o /\ o + 8 <= size.
Proof.
  induction l as [|[r' o'] l IH]; cbn; [by rewrite elem_of_nil|].
  rewrite !andb_true_iff, !Z.leb_le. intros (((H1 & H2) & _) & H4) [[= -> ->]|Hin]%elem_of_cons; auto.
Qed.

Lemma store_table_out f A l m a size :
  spaced size l = true -> 0 <= A -> A + size <= 2 ^ 64 ->
  (forall r o, (r, o) ∈ l -> a + 8 <= A + o \/ A + o + 8 <= a) ->
  load64 (store_table f A l m) a = load64 m a.
Proof.
  revert m. induction l as [|[r o] l IH]; intros m Hs HA Hb Ho; [done|].
  pose proof (spaced_slot _ _ r o Hs ltac:(constructor)) as Hro.
  cbn in Hs. rewrite !andb_true_iff in Hs. destruct Hs as [_ Hs].
  cbn [store_table]. rewrite IH; try done.
  - apply load64_store64_out. rewrite u64_id by lia. specialize (Ho r o ltac:(constructor)). lia.
  - intros r' o' Hin. apply (Ho r'). by constructor.
Qed.

Lemma store_table_in f A l m r o size :
  spaced size l = true -> 0 <= A -> A + size <= 2 ^ 64 -> (r, o) ∈ l ->
  load64 (store_table f A l m) (A + o) = u64 (f r).
Proof.
  revert m. induction l as [|[r' o'] l IH]; intros m Hs HA Hb; [by rewrite elem_of_nil|].
  pose proof (spaced_slot _ _ r' o' Hs ltac:(constructor)) as Hro.
  cbn in Hs. rewrite !andb_true_iff, forallb_forall in Hs. destruct Hs as [[_ Hap] Hs].
  cbn [store_table]. intros [[= -> ->]|Hin]%elem_of_cons; [|by apply IH].
  rewrite (store_table_out _ _ _ _ _ size); try done.
  - rewrite u64_id by lia. apply load64_store64.
  - intros r o Hin. assert (apart o' o = true) as Hx by (apply (Hap (r, o)); by apply list_elem_of_In).
    unfold apart in Hx. rewrite orb_true_iff, !Z.leb_le in Hx. lia.
Qed.

(** Loading the table from the address [A] that the base register holds; the base
    may be one of the registers if its slot holds [A]. *)
Lemma exec_lds b l c size :
  spaced size l = true -> NoDup l.*1 -> 0 <= regs c b -> regs c b + size <= 2 ^ 64 ->
  (forall o, (b, o) ∈ l -> load64 (ram c) (regs c b + o) = regs c b) ->
  csrs (exec (lds b l) c) = csrs c /\ ram (exec (lds b l) c) = ram c /\
  (forall r o, (r, o) ∈ l -> regs (exec (lds b l) c) r = load64 (ram c) (regs c b + o)) /\
  (forall r, r ∉ l.*1 -> regs (exec (lds b l) c) r = regs c r).
Proof.
  revert c. induction l as [|[r o] l IH]; intros c Hs Hnd HA Hsz Hb.
  { split; [done|]. split; [done|]. split; [|done]. intros r o. by rewrite elem_of_nil. }
  pose proof (spaced_slot _ _ r o Hs ltac:(constructor)) as Hro.
  cbn in Hs. rewrite !andb_true_iff in Hs. destruct Hs as [_ Hs].
  cbn in Hnd. apply NoDup_cons in Hnd as [Hr Hnd]. cbn [lds map exec]. fold (lds b l).
  set (c1 := step1 _ c).
  assert (Hc1 : csrs c1 = csrs c /\ ram c1 = ram c) by done. destruct Hc1 as [Ec Er].
  assert (Hv : regs c1 r = load64 (ram c) (regs c b + o)).
  { subst c1. cbn. rewrite setr_eq, u64_load, u64_id by lia. done. }
  assert (Hne : forall r', r' <> r -> regs c1 r' = regs c r') by (intros; subst c1; cbn; by apply setr_ne).
  assert (Hbase : regs c1 b = regs c b).
  { destruct (decide (b = r)) as [->|]; [|by apply Hne]. rewrite Hv. apply Hb. constructor. }
  destruct (IH c1) as (I1 & I2 & I3 & I4); try done.
  { by rewrite Hbase. } { by rewrite Hbase. }
  { intros o' Ho'. rewrite Hbase, Er. apply Hb. by constructor. }
  rewrite I1, I2. split; [done|]. split; [done|]. rewrite Er, Hbase in I3. split.
  - intros r' o' [[= -> ->]|Hin]%elem_of_cons; [|by apply I3]. by rewrite I4.
  - intros r' Hr'. cbn in Hr'. apply not_elem_of_cons in Hr' as [H1 H2]. rewrite I4 by done. by apply Hne.
Qed.

(** ** The trampoline *)

(** The slots of struct trapframe. *)
Definition tf_table : table := [
  (ra, 40); (sp, 48); (gp, 56); (tp, 64); (t0, 72); (t1, 80); (t2, 88); (s0, 96); (s1, 104);
  (a1, 120); (a2, 128); (a3, 136); (a4, 144); (a5, 152); (a6, 160); (a7, 168);
  (s2, 176); (s3, 184); (s4, 192); (s5, 200); (s6, 208); (s7, 216); (s8, 224); (s9, 232);
  (s10, 240); (s11, 248); (t3, 256); (t4, 264); (t5, 272); (t6, 280) ].

Fixpoint slot_in (l : table) (r : reg) : option Z :=
  match l with
  | [] => None
  | (r', o) :: l => if decide (r = r') then Some o else slot_in l r
  end.
Definition tf_off (r : reg) : Z := default 112 (slot_in tf_table r).

Lemma slot_in_Some l r o : slot_in l r = Some o -> (r, o) ∈ l.
Proof.
  induction l as [|[r' o'] l IH]; cbn; [done|]. destruct (decide (r = r')) as [->|].
  - intros [= ->]. constructor.
  - intros H. constructor. auto.
Qed.

Lemma slot_in_None l r : slot_in l r = None -> r ∉ l.*1.
Proof.
  induction l as [|[r' o'] l IH]; cbn [slot_in]; [intros _; apply not_elem_of_nil|].
  destruct (decide (r = r')); [done|].
  intros H. apply not_elem_of_cons. auto.
Qed.

Lemma tf_off_table r : r = a0 \/ (r, tf_off r) ∈ tf_table.
Proof. destruct r; (by left) || (right; by apply slot_in_Some). Qed.

Lemma tf_table_regs : NoDup tf_table.*1 /\ a0 ∉ tf_table.*1.
Proof. apply (bool_decide_unpack _). by vm_compute. Qed.

Lemma tf_table_a0 r o : (r, o) ∈ tf_table -> r <> a0.
Proof.
  intros H ->. apply (proj2 tf_table_regs). apply list_elem_of_fmap. by exists (a0, o).
Qed.

Lemma uservec_eq : uservec = [CSRRW a0 Sscratch a0] ++ sds a0 tf_table ++
  [CSRR t0 Sscratch; SD t0 112 a0; LD sp 8 a0; LD tp 32 a0; LD t0 16 a0; LD t1 0 a0; CSRW Satp t1; SFENCE].
Proof. reflexivity. Qed.

Lemma userret_eq : userret =
  [CSRW Satp a1; SFENCE; LD t0 112 a0; CSRW Sscratch t0] ++ lds a0 tf_table ++ [CSRRW a0 Sscratch a0].
Proof. reflexivity. Qed.

(** An address space in which the trapframe at [A] is mapped. *)
Definition frame_ok (A size : Z) : Prop := 0 <= A /\ A + size <= 2 ^ 64.

Lemma uservec_saves c r :
  let A := csrs c Sscratch in
  regs_ok c -> frame_ok A 288 -> load64 (ram (exec uservec c)) (A + tf_off r) = regs c r.
Proof.
  intros A Hr [HA Hs]. rewrite uservec_eq, !exec_app. cbn [exec step1 app].
  rewrite exec_sds. cbn [regs csrs ram with_reg exec step1].
  assert (Ha0 : setr a0 (csrs c Sscratch) (regs c) a0 = A) by (rewrite setr_eq; apply u64_id; lia).
  rewrite setc_eq, setr_eq, (setr_ne t0 a0), Ha0, !u64_id by (done || apply Hr || lia).
  destruct (tf_off_table r) as [->|Hin].
  - change (tf_off a0) with 112. rewrite load64_store64, (setr_eq t0), (u64_id (regs c a0)) by apply Hr. apply u64_id, Hr.
  - pose proof (tf_table_a0 _ _ Hin) as Hne.
    rewrite load64_store64_out.
    + rewrite (store_table_in _ A tf_table _ r _ 288) by (done || lia). rewrite setr_ne by done. apply u64_id, Hr.
    + assert (Hd : forallb (fun e => apart 112 e.2) tf_table = true) by reflexivity.
      rewrite forallb_forall in Hd. specialize (Hd (r, tf_off r) ltac:(by apply list_elem_of_In)).
      unfold apart in Hd. cbn [snd] in Hd. rewrite orb_true_iff, !Z.leb_le in Hd. lia.
Qed.

Lemma userret_loads k r :
  frame_ok (regs k a0) 288 ->
  regs (exec userret k) r = load64 (ram k) (regs k a0 + tf_off r) /\
  csrs (exec userret k) Sscratch = regs k a0 /\ csrs (exec userret k) Satp = regs k a1.
Proof.
  intros [HA Hs]. rewrite userret_eq, !exec_app. cbn [exec step1 app].
  cbn [with_reg csrs regs ram]. rewrite (u64_id (regs k a0 + 112)) by lia.
  set (k1 := mk_cpu _ _ _).
  assert (Ek : regs k1 a0 = regs k a0) by (subst k1; cbn [regs]; by rewrite setr_ne).
  destruct (exec_lds a0 tf_table k1 288) as (E1 & E2 & E3 & E4); rewrite ?Ek; try done.
  { apply tf_table_regs. }
  { intros o Ho. by apply tf_table_a0 in Ho. }
  set (k2 := exec (lds a0 tf_table) k1) in *. cbn [exec step1 regs csrs ram].
  assert (Hsc : csrs k2 Sscratch = load64 (ram k) (regs k a0 + 112)).
  { rewrite E1. subst k1. cbn [csrs]. rewrite setc_eq, setr_eq. by rewrite u64_load. }
  assert (Ha : regs k2 a0 = regs k a0) by (rewrite E4; [done|apply tf_table_regs]).
  rewrite Ek in E3. split; [|split].
  - destruct (tf_off_table r) as [->|Hin].
    + rewrite setr_eq, Hsc, u64_load. done.
    + pose proof (tf_table_a0 _ _ Hin) as Hne.
      rewrite setr_ne by done. by rewrite (E3 r _ Hin).
  - by rewrite setc_eq.
  - rewrite setc_ne, E1 by done. subst k1. cbn [csrs]. by rewrite setc_ne, setc_eq.
Qed.

Lemma enter_tail k :
  let A := regs k a0 in
  let k' := exec [LD sp 8 a0; LD tp 32 a0; LD t0 16 a0; LD t1 0 a0; CSRW Satp t1; SFENCE] k in
  frame_ok A 288 ->
  regs k' sp = load64 (ram k) (A + 8) /\ regs k' tp = load64 (ram k) (A + 32) /\
  regs k' t0 = load64 (ram k) (A + 16) /\ csrs k' Satp = load64 (ram k) (A + 0).
Proof.
  intros A k' [HA Hs]. subst k'. cbn [exec step1 with_reg regs csrs ram]. rewrite setc_eq.
  repeat (rewrite setr_eq || rewrite setr_ne by done). fold A. by rewrite !u64_load, !u64_id by lia.
Qed.

Lemma enter_prefix c :
  let A := csrs c Sscratch in
  let k := exec ([CSRRW a0 Sscratch a0] ++ sds a0 tf_table) c in
  frame_ok A 288 ->
  regs k = setr a0 A (regs c) /\ ram k = store_table (setr a0 A (regs c)) A tf_table (ram c).
Proof.
  intros A k [HA Hs]. subst k. rewrite exec_app. cbn [exec step1]. rewrite exec_sds. cbn [regs ram].
  rewrite setr_eq, u64_id by lia. done.
Qed.

Lemma enter_mid A f m k :
  0 <= A -> A + 288 <= 2 ^ 64 -> regs k a0 = A -> ram k = store_table f A tf_table m ->
  let k2 := step1 (SD t0 112 a0) (step1 (CSRR t0 Sscratch) k) in
  regs k2 a0 = A /\
  forall o, forallb (fun e => apart o e.2) ((a0, 112) :: tf_table) && (0 <=? o) && (o <=? 280) = true ->
    load64 (ram k2) (A + o) = load64 m (A + o).
Proof.
  intros HA Hs Er Em k2. split.
  { subst k2. cbn [step1 with_reg regs]. by rewrite setr_ne, Er by done. }
  intros o. rewrite !andb_true_iff, forallb_forall, !Z.leb_le. intros ((Ho & H2) & H3).
  assert (Hx : forall r' o', (r', o') ∈ (a0, 112) :: tf_table -> A + o + 8 <= A + o' \/ A + o' + 8 <= A + o).
  { intros r' o' Hin. specialize (Ho (r', o') ltac:(by apply list_elem_of_In)). unfold apart in Ho. cbn [snd] in Ho.
    rewrite orb_true_iff, !Z.leb_le in Ho. lia. }
  subst k2. cbn [step1 with_reg ram regs]. rewrite setr_ne, Er, (u64_id (A + 112)) by (done || lia).
  rewrite load64_store64_out, Em by (specialize (Hx a0 112 ltac:(constructor)); lia).
  apply (store_table_out _ _ _ _ _ 288); try done. intros r' o' Hin. apply (Hx r'). by constructor.
Qed.

Lemma uservec_enters c :
  let A := csrs c Sscratch in
  frame_ok A 288 ->
  regs (exec uservec c) sp = load64 (ram c) (A + 8) /\ regs (exec uservec c) tp = load64 (ram c) (A + 32) /\
  regs (exec uservec c) t0 = load64 (ram c) (A + 16) /\ csrs (exec uservec c) Satp = load64 (ram c) (A + 0).
Proof.
  intros A HA. rewrite uservec_eq, (app_assoc _ (sds _ _)), exec_app.
  destruct (enter_prefix c HA) as [Er Em]. revert Er Em. generalize (exec ([CSRRW a0 Sscratch a0] ++ sds a0 tf_table) c).
  intros k Er Em. destruct HA as [HA Hs]. rewrite 2!exec_cons.
  destruct (enter_mid A _ _ k HA Hs ltac:(by rewrite Er, setr_eq, u64_id by lia) Em) as [Ea Hout].
  rewrite <- !Hout by reflexivity. rewrite <- Ea. apply enter_tail. by rewrite Ea.
Qed.

(** ** kernelvec *)

(** The slots of the frame below the interrupted stack pointer; [tp] is saved but
    not restored, in case the thread moved to another hart. *)
Definition kv_table : table := [
  (ra, 0); (sp, 8); (gp, 16); (t0, 32); (t1, 40); (t2, 48); (s0, 56);
  (s1, 64); (a0, 72); (a1, 80); (a2, 88); (a3, 96); (a4, 104); (a5, 112);
  (a6, 120); (a7, 128); (s2, 136); (s3, 144); (s4, 152); (s5, 160);
  (s6, 168); (s7, 176); (s8, 184); (s9, 192); (s10, 200); (s11, 208);
  (t3, 216); (t4, 224); (t5, 232); (t6, 240) ].
Definition kv_saved : table := take 3 kv_table ++ [(tp, 24)] ++ drop 3 kv_table.

Lemma kernelvec_save_eq : kernelvec_save = ADDI sp sp (-256) :: sds sp kv_saved.
Proof. reflexivity. Qed.
Lemma kernelvec_restore_eq : kernelvec_restore = lds sp kv_table ++ [ADDI sp sp 256].
Proof. reflexivity. Qed.

Lemma kv_table_slot r : r = tp \/ exists o, (r, o) ∈ kv_table.
Proof.
  destruct r; (by left) || (right;
    match goal with |- exists o, (?r, o) ∈ _ =>
      let v := eval vm_compute in (default 0 (slot_in kv_table r)) in
      exists v; by apply slot_in_Some end).
Qed.

Lemma kv_table_regs : NoDup kv_table.*1 /\ tp ∉ kv_table.*1 /\ kv_table ⊆ kv_saved.
Proof.
  split; [|split]; apply (bool_decide_unpack _); by vm_compute.
Qed.

(** The frame in memory after [kernelvec_save]. *)
Lemma kernelvec_saved c r o :
  let B := regs c sp - 256 in
  regs_ok c -> frame_ok B 256 -> (r, o) ∈ kv_table ->
  load64 (ram (exec kernelvec_save c)) (B + o) = (if decide (r = sp) then B else regs c r).
Proof.
  intros B Hr [HB Hs] Hin. rewrite kernelvec_save_eq, exec_cons, exec_sds. cbn [step1 with_reg regs ram].
  rewrite setr_eq, (u64_id (regs c sp + -256)) by lia. replace (regs c sp + -256) with B by lia.
  rewrite (store_table_in _ B kv_saved _ r o 256); [|done|lia|lia|by apply kv_table_regs].
  destruct (decide (r = sp)) as [->|Hne]; [by rewrite setr_eq, 2!(u64_id B) by lia|].
  rewrite setr_ne by done. apply u64_id, Hr.
Qed.

Lemma kernelvec_restored k :
  let B := regs k sp in
  frame_ok B 256 -> load64 (ram k) (B + 8) = B ->
  (forall r o, (r, o) ∈ kv_table -> r <> sp -> regs (exec kernelvec_restore k) r = load64 (ram k) (B + o)) /\
  regs (exec kernelvec_restore k) sp = u64 (B + 256) /\
  regs (exec kernelvec_restore k) tp = regs k tp.
Proof.
  intros B [HB Hs] Hsp. rewrite kernelvec_restore_eq, exec_app.
  destruct (exec_lds sp kv_table k 256) as (E1 & E2 & E3 & E4); try done.
  { apply kv_table_regs. }
  { intros o Ho. replace o with 8; [done|]. revert Ho. unfold kv_table. rewrite !elem_of_cons, elem_of_nil.
    intros Ho. repeat destruct Ho as [[=]|Ho]; done. }
  revert E1 E2 E3 E4. generalize (exec (lds sp kv_table) k). intros k2 E1 E2 E3 E4.
  cbn [exec step1 with_reg regs]. split; [|split].
  - intros r o Hin Hne. rewrite setr_ne by done. by apply E3.
  - rewrite setr_eq. f_equal. f_equal. rewrite (E3 sp 8); [done|]. by apply slot_in_Some.
  - rewrite setr_ne by done. apply E4, kv_table_regs.
Qed.

(** ** swtch *)

(** The slots of struct context. *)
Definition ctx_table : table := [
  (ra, 0); (sp, 8); (s0, 16); (s1, 24); (s2, 32); (s3, 40); (s4, 48); (s5, 56); (s6, 64);
  (s7, 72); (s8, 80); (s9, 88); (s10, 96); (s11, 104) ].

Lemma swtch_code_eq : swtch_code = sds a0 ctx_table ++ lds a1 ctx_table.
Proof. reflexivity. Qed.

Lemma ctx_table_regs : NoDup ctx_table.*1 /\ a1 ∉ ctx_table.*1.
Proof. apply (bool_decide_unpack _). by vm_compute. Qed.

Lemma swtch_saves c r o :
  regs_ok c -> frame_ok (regs c a0) 112 -> (r, o) ∈ ctx_table ->
  load64 (ram (exec swtch_code c)) (regs c a0 + o) = regs c r.
Proof.
  intros Hr [HA Hs] Hin. rewrite swtch_code_eq, exec_app, exec_sds.
  set (k := mk_cpu _ _ _).
  assert (Hlds : forall l d, ram (exec (lds a1 l) d) = ram d).
  { induction l as [|[r' o'] l IH]; intros d; [done|]. cbn [lds map]. rewrite exec_cons. fold (lds a1 l). by rewrite IH. }
  rewrite Hlds. subst k. cbn [ram]. rewrite (store_table_in _ _ ctx_table _ r o 112) by (done || lia). apply u64_id, Hr.
Qed.

Lemma swtch_loads k r o :
  frame_ok (regs k a0) 112 -> frame_ok (regs k a1) 112 ->
  regs k a0 + 112 <= regs k a1 \/ regs k a1 + 112 <= regs k a0 ->
  (r, o) ∈ ctx_table -> regs (exec swtch_code k) r = load64 (ram k) (regs k a1 + o).
Proof.
  intros [HA Hs] [HA1 Hs1] Hap Hin. rewrite swtch_code_eq, exec_app, exec_sds. set (k1 := mk_cpu _ _ _).
  destruct (exec_lds a1 ctx_table k1 112) as (_ & _ & E3 & _); try done.
  { apply ctx_table_regs. }
  { intros o' Ho. destruct (proj2 ctx_table_regs). apply list_elem_of_fmap. by exists (a1, o'). }
  rewrite (E3 r o Hin). subst k1. cbn [ram regs].
  assert (Ho : 0 <= o /\ o + 8 <= 112) by (by apply (spaced_slot 112 ctx_table r)).
  apply (store_table_out _ _ _ _ _ 112); try done. intros r' o' Hin'.
  pose proof (spaced_slot 112 ctx_table r' o' eq_refl Hin'). lia.
Qed.

(** ** timervec *)

Definition tv_table : table := [(a1, 0); (a2, 8); (a3, 16)].
Definition tick : list instr :=
  [LD a1 24 a0; LD a2 32 a0; LD a3 0 a1; ADD a3 a3 a2; SD a3 0 a1; LI a1 2; CSRW Sip a1].

Lemma timervec_eq : timervec =
  (CSRRW a0 Mscratch a0 :: sds a0 tv_table) ++ tick ++ lds a0 (reverse tv_table) ++ [CSRRW a0 Mscratch a0].
Proof. reflexivity. Qed.

Lemma tick_spec k :
  let A := regs k a0 in let B := load64 (ram k) (A + 24) in
  frame_ok A 40 ->
  csrs (exec tick k) = setc Sip 2 (csrs k) /\
  ram (exec tick k) = store64 (ram k) B (u64 (load64 (ram k) B + load64 (ram k) (A + 32))) /\
  (forall r, r ∉ tv_table.*1 -> regs (exec tick k) r = regs k r).
Proof.
  intros A B [HA Hs]. unfold tick. cbn [exec step1 with_reg regs csrs ram].
  repeat (rewrite setr_eq || rewrite setr_ne by done). fold A. rewrite (u64_id (A + 24)), (u64_id (A + 32)) by lia.
  rewrite !u64_load. fold B. rewrite Z.add_0_r. rewrite (u64_id B) by apply load64_bound.
  split; [done|]. split; [done|].
  intros r Hr. cbn in Hr. rewrite !not_elem_of_cons in Hr. destruct Hr as (H1 & H2 & H3 & _).
  by rewrite !setr_ne.
Qed.

Lemma u64_u64 v : u64 (u64 v) = u64 v.
Proof. apply u64_id. unfold u64. by apply Z.mod_pos_bound. Qed.

(** The end of [timervec]: the three registers come back from the scratch area. *)
Lemma timervec_restores k :
  let A := regs k a0 in
  let k' := exec (lds a0 (reverse tv_table) ++ [CSRRW a0 Mscratch a0]) k in
  frame_ok A 40 ->
  (forall r, regs k' r = if decide (r = a0) then u64 (csrs k Mscratch) else
     match slot_in tv_table r with Some o => load64 (ram k) (A + o) | None => regs k r end) /\
  csrs k' = setc Mscratch A (csrs k) /\ ram k' = ram k.
Proof.
  intros A k' [HA Hs]. unfold k'. rewrite exec_app.
  destruct (exec_lds a0 (reverse tv_table) k 40) as (E1 & E2 & E3 & E4).
  { done. } { apply (bool_decide_unpack _). by vm_compute. } { done. } { done. }
  { intros o Ho. exfalso. revert Ho. cbn. rewrite !elem_of_cons, elem_of_nil.
    intros Ho. repeat destruct Ho as [[=]|Ho]; done. }
  revert E1 E2 E3 E4. generalize (exec (lds a0 (reverse tv_table)) k). intros k2 E1 E2 E3 E4.
  cbn [exec step1 regs csrs ram]. rewrite E1, E2.
  assert (Ha : regs k2 a0 = A) by (apply E4, (bool_decide_unpack _); by vm_compute).
  split; [|by rewrite Ha]. intros r. destruct (decide (r = a0)) as [->|Hne]; [apply setr_eq|].
  rewrite setr_ne by done. destruct (slot_in tv_table r) as [o|] eqn:Eo.
  - apply E3, elem_of_reverse. by apply slot_in_Some.
  - apply E4. rewrite fmap_reverse, elem_of_reverse. by apply slot_in_None.
Qed.

(** The state after [timervec]; [A] is the hart's scratch area. *)
Lemma timervec_spec c :
  let A := csrs c Mscratch in let B := load64 (ram c) (A + 24) in let c' := exec timervec c in
  regs_ok c -> frame_ok A 40 -> B + 8 <= A \/ A + 40 <= B ->
  (forall r, regs c' r = regs c r) /\ csrs c' = setc Mscratch A (setc Sip 2 (setc Mscratch (regs c a0) (csrs c))) /\
  ram c' = store64 (store_table (regs c) A tv_table (ram c)) B (u64 (load64 (ram c) B + load64 (ram c) (A + 32))).
Proof.
  intros A B c' Hr HA Hap. destruct HA as [HA Hs]. unfold c'. rewrite timervec_eq, !exec_app, (exec_cons _ (sds _ _)), exec_sds.
  cbn [step1 regs csrs ram]. rewrite setr_eq. fold A. rewrite (u64_id A) by lia.
  assert (Et : store_table (setr a0 A (regs c)) A tv_table (ram c) = store_table (regs c) A tv_table (ram c)) by done.
  rewrite Et. clear Et. set (m1 := store_table _ _ _ _).
  assert (Hm1 : forall a, a + 8 <= A \/ A + 24 <= a -> load64 m1 a = load64 (ram c) a).
  { intros a Ha. apply (store_table_out _ _ _ _ _ 24); [done|lia|lia|]. intros r o Hin.
    pose proof (spaced_slot 24 tv_table r o eq_refl Hin). lia. }
  assert (Hin1 : forall r o, (r, o) ∈ tv_table -> load64 m1 (A + o) = regs c r).
  { intros r o Hin. unfold m1. rewrite (store_table_in _ _ _ _ r o 24) by (done || lia). apply u64_id, Hr. }
  set (k := mk_cpu _ _ _). assert (Ka : regs k a0 = A) by (subst k; cbn [regs]; rewrite setr_eq; apply u64_id; lia).
  destruct (tick_spec k) as (T1 & T2 & T3); [by rewrite Ka|].
  rewrite Ka in T2. change (ram k) with m1 in T2. rewrite !Hm1 in T2 by lia. fold B in T2.
  assert (Ka' : regs (exec tick k) a0 = A) by (rewrite T3; [done|]; apply (bool_decide_unpack _); by vm_compute).
  subst k. cbn [csrs] in T1. cbn [regs] in T3. clear Ka. revert T1 T2 T3 Ka'. generalize (exec tick (mk_cpu (setr a0 A (regs c)) (setc Mscratch (regs c a0) (csrs c)) m1)).
  intros k T1 T2 T3 Ka'. rewrite <- exec_app.
  destruct (timervec_restores k) as (R1 & R2 & R3); [by rewrite Ka'|].
  rewrite Ka', T1 in R2. rewrite T2 in R3. split; [|by split]. intros r. rewrite R1, Ka', T1, T2.
  destruct (decide (r = a0)) as [->|Hne]; [rewrite setc_ne, setc_eq by done; apply u64_id, Hr|].
  destruct (slot_in tv_table r) as [o|] eqn:Eo.
  - apply slot_in_Some in Eo. pose proof (spaced_slot 24 tv_table r o eq_refl Eo).
    rewrite load64_store64_out by lia. by apply Hin1.
  - rewrite T3; [by apply setr_ne|]. by apply slot_in_None.
Qed.

(** ** entry *)

Lemma entry_sp stack0 c :
  0 <= csrs c Mhartid < 8 -> 0 <= stack0 -> stack0 + 32768 < 2 ^ 64 ->
  regs (exec (entry stack0) c) sp = stack0 + 4096 * (csrs c Mhartid + 1).
Proof.
  intros Hh H0 Hs. unfold entry. cbn [exec step1 with_reg regs csrs].
  repeat (rewrite setr_eq || rewrite setr_ne by done).
  rewrite (u64_id stack0), (u64_id (1024 * 4)), (u64_id (csrs c Mhartid)) by lia.
  rewrite (u64_id (csrs c Mhartid + 1)) by lia. rewrite (u64_id (1024 * 4 * _)) by lia. rewrite u64_id by lia. lia.
Qed.

(** ** The theorems *)

(** C24. A trap from user space and back loses nothing: after [uservec] the trapframe
    at [sscratch] holds every user register, the hart has the kernel stack pointer,
    hart id, handler and page table that the trapframe named, and [userret], given the
    same trapframe, restores every register whose slot the kernel left alone and
    installs the page table it was given; a slot the kernel wrote (the result in [a0])
    is delivered as written. *)
Theorem trampoline_roundtrip (c k : cpu) :
  let A := csrs c Sscratch in
  let c' := exec uservec c in
  let k' := exec userret k in
  regs_ok c -> frame_ok A 288 -> regs k a0 = A ->
  (regs c' sp = load64 (ram c) (A + 8) /\ regs c' tp = load64 (ram c) (A + 32) /\
   regs c' t0 = load64 (ram c) (A + 16) /\ csrs c' Satp = load64 (ram c) (A + 0)) /\
  (forall r, load64 (ram c') (A + tf_off r) = regs c r) /\
  (forall r, regs k' r = load64 (ram k) (A + tf_off r)) /\
  (forall r, load64 (ram k) (A + tf_off r) = load64 (ram c') (A + tf_off r) -> regs k' r = regs c r) /\
  csrs k' Sscratch = A /\ csrs k' Satp = regs k a1.
Proof.
  intros A c' k' Hr HA Ea.
  assert (Hk : frame_ok (regs k a0) 288) by (by rewrite Ea).
  assert (Hs : forall r, load64 (ram c') (A + tf_off r) = regs c r) by (intros r; by apply uservec_saves).
  assert (Hl : forall r, regs k' r = load64 (ram k) (A + tf_off r)).
  { intros r. rewrite <- Ea. by apply userret_loads. }
  split; [by apply uservec_enters|]. split; [done|]. split; [done|]. split.
  - intros r Hx. by rewrite Hl, Hx.
  - rewrite <- Ea. by apply (userret_loads k a0).
Qed.

(** C25. [kernelvec] is transparent to the kernel code it interrupts: whatever
    [kerneltrap] does, if it returns with the stack pointer and the 256-byte frame as
    it found them, every register but [tp] has its value from before the interrupt,
    the stack pointer included, and [tp] is the hart [kerneltrap] returned on. *)
Theorem kernelvec_preserves (c : cpu) (kerneltrap : cpu -> cpu) :
  let B := regs c sp - 256 in
  let c1 := exec kernelvec_save c in
  let c2 := kerneltrap c1 in
  regs_ok c -> frame_ok B 256 -> regs c2 sp = regs c1 sp ->
  (forall a, B <= a -> a + 8 <= B + 256 -> load64 (ram c2) a = load64 (ram c1) a) ->
  (forall r, r <> tp -> regs (exec kernelvec_restore c2) r = regs c r) /\
  regs (exec kernelvec_restore c2) tp = regs c2 tp.
Proof.
  intros B c1 c2 Hr HB Hsp Hm. assert (HB' := HB). destruct HB' as [H1 H2].
  assert (Esp : regs c2 sp = B).
  { rewrite Hsp. unfold c1. rewrite kernelvec_save_eq, exec_cons, exec_sds. cbn [regs step1 with_reg].
    rewrite setr_eq. unfold B. rewrite u64_id; lia. }
  assert (Hf : forall r o, (r, o) ∈ kv_table -> load64 (ram c2) (B + o) = if decide (r = sp) then B else regs c r).
  { intros r o Hin. rewrite Hm; [by apply kernelvec_saved| |];
      pose proof (spaced_slot 256 kv_table r o eq_refl Hin); lia. }
  destruct (kernelvec_restored c2) as (R1 & R2 & R3); [by rewrite Esp| |].
  { rewrite Esp, (Hf sp 8) by (by apply slot_in_Some). done. }
  rewrite Esp in R1, R2. split; [|done]. intros r Htp. destruct (kv_table_slot r) as [|[o Hin]]; [done|].
  destruct (decide (r = sp)) as [->|Hne].
  - rewrite R2. unfold B. rewrite Z.sub_add. apply u64_id, Hr.
  - rewrite (R1 r o), (Hf r o) by done. by rewrite decide_False.
Qed.

(** C26. A thread that calls [swtch(old, new)] is resumed by the later [swtch(cur, old)],
    on whatever hart, with its return address, stack pointer and callee-saved
    registers, provided its context was not written in between. *)
Theorem swtch_resume (c k : cpu) :
  let old := regs c a0 in
  regs_ok c -> frame_ok old 112 -> regs k a1 = old -> frame_ok (regs k a0) 112 ->
  regs k a0 + 112 <= old \/ old + 112 <= regs k a0 ->
  (forall a, old <= a -> a + 8 <= old + 112 -> load64 (ram k) a = load64 (ram (exec swtch_code c)) a) ->
  forall r, r ∈ ctx_table.*1 -> regs (exec swtch_code k) r = regs c r.
Proof.
  intros old Hr Hold Ek Hcur Hap Hm r ([r' o] & -> & Hin)%list_elem_of_fmap. cbn [fst].
  rewrite (swtch_loads k r' o); rewrite ?Ek; try done.
  pose proof (spaced_slot 112 ctx_table r' o eq_refl Hin).
  rewrite Hm by lia. by apply swtch_saves.
Qed.

(** C27. The machine-mode timer interrupt is invisible to the code it interrupts:
    [timervec] gives every register back, leaves [mscratch] pointing at the hart's
    scratch area, raises the supervisor software interrupt, moves the hart's MTIMECMP
    on by the interval, and writes no other memory but the first three words of the
    scratch area. *)
Theorem timervec_transparent (c : cpu) :
  let A := csrs c Mscratch in
  let B := load64 (ram c) (A + 24) in
  let c' := exec timervec c in
  regs_ok c -> frame_ok A 40 -> B + 8 <= A \/ A + 40 <= B ->
  (forall r, regs c' r = regs c r) /\ csrs c' Mscratch = A /\ csrs c' Sip = 2 /\
  load64 (ram c') B = u64 (load64 (ram c) B + load64 (ram c) (A + 32)) /\
  (forall a, a + 8 <= A \/ A + 24 <= a -> a + 8 <= B \/ B + 8 <= a -> load64 (ram c') a = load64 (ram c) a).
Proof.
  intros A B c' Hr HA Hap. destruct (timervec_spec c Hr HA Hap) as (T1 & T2 & T3).
  fold c' in T1, T2, T3. fold A in T2, T3. fold B in T3. split; [done|]. rewrite T2, T3. destruct HA as [HA Hs].
  split; [by rewrite setc_eq|]. split; [by rewrite setc_ne, setc_eq|]. split.
  - rewrite load64_store64. apply u64_u64.
  - intros a Ha Hb. rewrite load64_store64_out by lia. apply (store_table_out _ _ _ _ _ 24); [done|lia|lia|].
    intros r o Hin. pose proof (spaced_slot 24 tv_table r o eq_refl Hin). lia.
Qed.

(** Every hart starts C code on a stack of its own: the stack pointers [_entry]
    computes delimit 4096-byte blocks inside [stack0], disjoint for distinct harts. *)
Theorem entry_stacks_disjoint (stack0 : Z) (c d : cpu) :
  let top x := regs (exec (entry stack0) x) sp in
  0 <= csrs c Mhartid < 8 -> 0 <= csrs d Mhartid < 8 -> csrs c Mhartid <> csrs d Mhartid ->
  0 <= stack0 -> stack0 + 32768 < 2 ^ 64 ->
  stack0 <= top c - 4096 /\ top c <= stack0 + 4096 * 8 /\ (top c <= top d - 4096 \/ top d <= top c - 4096).
Proof. intros top Hc Hd Hne H0 Hs. unfold top. rewrite !entry_sp by done. lia. Qed.

(** A hart with the registers holding small numbers and the scratch registers at
    addresses of the zeroed memory. *)
Definition cpu0 : cpu :=
  mk_cpu (fun r => default 7 (slot_in tf_table r)) (fun k => if decide (k = Sscratch) then 0x8000 else 0x9000) ∅.

Lemma cpu0_regs : regs_ok cpu0.
Proof. intros r. unfold cpu0. cbn [regs]. by destruct r. Qed.

Lemma trampoline_roundtrip_witness :
  regs (exec userret (mk_cpu (fun _ => 0x8000) (csrs cpu0) (ram (exec uservec cpu0)))) s5 = regs cpu0 s5.
Proof.
  apply (trampoline_roundtrip cpu0 (mk_cpu (fun _ => 0x8000) (csrs cpu0) (ram (exec uservec cpu0)))).
  - apply cpu0_regs.
  - by split.
  - reflexivity.
  - reflexivity.
Defined.

(** A hart inside the kernel, its stack pointer at 0x8000. *)
Definition cpu1 : cpu := mk_cpu (setr sp 0x8000 (regs cpu0)) (csrs cpu0) ∅.
Definition clobber (c : cpu) : cpu := mk_cpu (setr ra 1 (setr t0 2 (setr a0 3 (regs c)))) (csrs c) (ram c).

Lemma clobber_frame c : regs (clobber c) sp = regs c sp /\ forall a, load64 (ram (clobber c)) a = load64 (ram c) a.
Proof. done. Qed.

Lemma kernelvec_preserves_witness :
  regs (clobber (exec kernelvec_save cpu1)) t0 = 2 /\
  regs (exec kernelvec_restore (clobber (exec kernelvec_save cpu1))) t0 = regs cpu1 t0.
Proof.
  split; [by vm_compute|]. apply (kernelvec_preserves cpu1 clobber).
  - intros r. unfold cpu1. cbn [regs]. unfold setr. case_decide; [by vm_compute|apply cpu0_regs].
  - by vm_compute.
  - apply clobber_frame.
  - intros a _ _. apply clobber_frame.
  - discriminate.
Defined.

(** A thread with its context at 0x8000, resumed by a scheduler whose own context is
    at 0x9000 and whose registers are all 0x8000. *)
Definition cpu2 : cpu := mk_cpu (setr a0 0x8000 (regs cpu0)) (csrs cpu0) ∅.
Definition cpu3 : cpu := mk_cpu (setr a0 0x9000 (fun _ => 0x8000)) (csrs cpu0) (ram (exec swtch_code cpu2)).

Lemma swtch_resume_witness : regs (exec swtch_code cpu3) s11 = regs cpu2 s11.
Proof.
  apply (swtch_resume cpu2 cpu3).
  - intros r. unfold cpu2. cbn [regs]. unfold setr. case_decide; [by vm_compute|apply cpu0_regs].
  - by vm_compute.
  - reflexivity.
  - by vm_compute.
  - right. by vm_compute.
  - reflexivity.
  - apply (bool_decide_unpack _). reflexivity.
Defined.

(** Scratch area at 0x9000 naming an MTIMECMP register at 0x2004000 and the interval. *)
Definition cpu4 : cpu :=
  mk_cpu (regs cpu0) (csrs cpu0) (store64 (store64 (store64 ∅ 0x2004000 5) 0x9018 0x2004000) 0x9020 1000000).

Lemma timervec_transparent_witness :
  load64 (ram (exec timervec cpu4)) 0x2004000 = 1000005 /\ regs (exec timervec cpu4) a3 = regs cpu4 a3.
Proof.
  split; [by vm_compute|]. refine (proj1 (timervec_transparent cpu4 _ _ _) a3).
  - apply cpu0_regs.
  - by vm_compute.
  - right. by vm_compute.
Defined.

Definition hart_at (h : Z) : cpu := mk_cpu (fun _ => 0) (fun _ => h) ∅.

Lemma entry_stacks_disjoint_witness :
  regs (exec (entry 0x80010000) (hart_at 0)) sp <= regs (exec (entry 0x80010000) (hart_at 1)) sp - 4096 \/
  regs (exec (entry 0x80010000) (hart_at 1)) sp <= regs (exec (entry 0x80010000) (hart_at 0)) sp - 4096.
Proof. apply (entry_stacks_disjoint 0x80010000 (hart_at 0) (hart_at 1)); by vm_compute. Defined.
