(* ===== verification/Spinlock.v ===== *)
(** * kernel/spinlock.c

    First the operations as one hart runs them, on the [machine] of that hart:
    they disable interrupts, panic on misuse, and spin for ever when another
    hart holds the lock.  The theorems show that critical sections nest and
    restore the interrupt state exactly.  Then, in [Module Smp], the steps of
    [acquire] and [release] interleaved on any number of harts, with the mutual
    exclusion theorem; there [push_off] and [pop_off], which concern one hart only,
    are not steps, and a hart between them is never interrupted. *)
From stdpp Require Import gmap list strings.
From S2P Require Import Prelude Kstring Abi Machine.

(** ** Interrupts of this hart (riscv.h) *)

Definition with_hart (f : hart -> hart) (m : machine) : machine :=
  set_m_hart (f (m_hart m)) m.

Definition intr_on : M machine unit :=
  modify (with_hart (fun h => set_h_sstatus (Z.lor (h_sstatus h) SSTATUS_SIE) h)).

Definition intr_off : M machine unit :=
  modify (with_hart (fun h => set_h_sstatus (Z.land (h_sstatus h) (Z.lnot SSTATUS_SIE)) h)).

Definition sie (h : hart) : bool := negb (Z.land (h_sstatus h) SSTATUS_SIE =? 0).

Definition intr_get : M machine bool := reads (fun m => sie (m_hart m)).

(** ** spinlock.c *)

Definition get_lock (m : machine) (l : lockid) : spinlock :=
  default (mk_spinlock 0 "" None) (m_locks m !! l).

Definition set_lock (l : lockid) (v : spinlock) (m : machine) : machine :=
  set_m_locks (<[l := v]> (m_locks m)) m.

Definition initlock (l : lockid) (name : string) : M machine unit :=
  modify (set_lock l (mk_spinlock 0 name None)).

Definition push_off : M machine unit :=
  old <- intr_get ;;
  intr_off ;;;
  noff <- reads (fun m => h_noff (m_hart m)) ;;
  when (noff =? 0)
    (modify (with_hart (set_h_intena (if old : bool then 1 else 0)))) ;;;
  modify (with_hart (fun h => set_h_noff (h_noff h + 1) h)).

Definition pop_off : M machine unit :=
  on <- intr_get ;;
  if on : bool then panic "pop_off - interruptible" else
  noff <- reads (fun m => h_noff (m_hart m)) ;;
  if noff <? 1 then panic "pop_off" else
  modify (with_hart (fun h => set_h_noff (h_noff h - 1) h)) ;;;
  h <- reads m_hart ;;
  when ((h_noff h =? 0) && negb (h_intena h =? 0)) intr_on.

(** Is this hart holding the lock? *)
Definition holding (l : lockid) : M machine bool :=
  reads (fun m =>
    negb (locked (get_lock m l) =? 0) &&
    match lk_cpu (get_lock m l) with
    | Some c => c =? h_tp (m_hart m)
    | None => false
    end).

(** The atomic swap of [__sync_lock_test_and_set(&lk->locked, 1)]. *)
Definition test_and_set (l : lockid) : M machine Z :=
  old <- reads (fun m => locked (get_lock m l)) ;;
  modify (fun m => set_lock l (set_locked 1 (get_lock m l)) m) ;;;
  ret old.

Definition acquire (l : lockid) : M machine unit :=
  push_off ;;;
  h <- holding l ;;
  if h : bool then panic "acquire" else
  old <- test_and_set l ;;
  if negb (old =? 0) then hang else
  modify (fun m => set_lock l (set_lk_cpu (Some (h_tp (m_hart m))) (get_lock m l)) m).

Definition release (l : lockid) : M machine unit :=
  h <- holding l ;;
  if negb h then panic "release" else
  modify (fun m => set_lock l (set_lk_cpu None (get_lock m l)) m) ;;;
  modify (fun m => set_lock l (set_locked 0 (get_lock m l)) m) ;;;
  pop_off.

(** ** Critical sections *)

(** The hart after [push_off]. *)
Definition cpu_push (h : hart) : hart :=
  mk_hart (h_tp h) (Z.land (h_sstatus h) (Z.lnot SSTATUS_SIE)) (h_noff h + 1)
    (if h_noff h =? 0 then (if sie h then 1 else 0) else h_intena h) (h_proc h).

(** The hart after a balanced [push_off] and [pop_off]: at the outermost level
    [intena] remembers the interrupt state, everything else is as before. *)
Definition cpu_settle (h : hart) : hart :=
  if h_noff h =? 0 then set_h_intena (if sie h then 1 else 0) h else h.

Definition settle (m : machine) : machine := with_hart cpu_settle m.

(** The machine inside a critical section of [l]. *)
Definition hold (l : lockid) (m : machine) : machine :=
  set_lock l (mk_spinlock 1 (lk_name (get_lock m l)) (Some (h_tp (m_hart m))))
    (with_hart cpu_push m).

(** A lock that was initialised and that no hart holds. *)
Definition unlocked (l : lockid) (m : machine) : Prop :=
  exists name, m_locks m !! l = Some (mk_spinlock 0 name None).

(** Interrupts are off while a lock is held, and nesting depth is never negative. *)
Definition hart_ok (m : machine) : Prop :=
  0 <= h_noff (m_hart m) /\ (0 < h_noff (m_hart m) -> sie (m_hart m) = false).

Lemma sie_testbit h : sie h = Z.testbit (h_sstatus h) 1.
Proof.
  unfold sie. change SSTATUS_SIE with (2 ^ 1).
  destruct (Z.testbit (h_sstatus h) 1) eqn:E.
  - destruct (Z.eqb_spec (Z.land (h_sstatus h) (2 ^ 1)) 0) as [E0|]; [|done].
    apply (f_equal (fun z => Z.testbit z 1)) in E0.
    rewrite Z.land_spec, E in E0. discriminate.
  - replace (Z.land (h_sstatus h) (2 ^ 1)) with 0; [done|].
    symmetry. apply Z.bits_inj'. intros n Hn.
    rewrite Z.land_spec, Z.bits_0, Z.pow2_bits_eqb by lia.
    destruct (Z.eqb_spec 1 n) as [<-|]; [by rewrite E|by rewrite andb_false_r].
Qed.

Lemma sstatus_clear_testbit s : Z.testbit (Z.land s (Z.lnot SSTATUS_SIE)) 1 = false.
Proof.
  rewrite Z.land_spec, Z.lnot_spec by lia.
  change (Z.testbit SSTATUS_SIE 1) with true. by rewrite andb_false_r.
Qed.

Lemma sstatus_clear_id s :
  Z.testbit s 1 = false -> Z.land s (Z.lnot SSTATUS_SIE) = s.
Proof.
  intros E. apply Z.bits_inj'. intros n Hn.
  rewrite Z.land_spec, Z.lnot_spec by done.
  change SSTATUS_SIE with (2 ^ 1). rewrite Z.pow2_bits_eqb by lia.
  destruct (Z.eqb_spec 1 n) as [<-|]; [by rewrite E|by rewrite andb_true_r].
Qed.

Lemma sstatus_clear_set s :
  Z.testbit s 1 = true -> Z.lor (Z.land s (Z.lnot SSTATUS_SIE)) SSTATUS_SIE = s.
Proof.
  intros E. apply Z.bits_inj'. intros n Hn.
  rewrite Z.lor_spec, Z.land_spec, Z.lnot_spec by done.
  change SSTATUS_SIE with (2 ^ 1). rewrite Z.pow2_bits_eqb by lia.
  destruct (Z.eqb_spec 1 n) as [<-|]; [by rewrite E|].
  by rewrite andb_true_r, orb_false_r.
Qed.

#[local] Opaque SSTATUS_SIE.

Lemma push_off_eq m : push_off m = Ok tt (with_hart cpu_push m).
Proof.
  destruct m as [[tp ss noff ie p] lk me fl pr ip np ti].
  unfold push_off, cpu_push, intr_get, intr_off, with_hart. mgo. cbn.
  destruct (noff =? 0); unfold when; mgo; reflexivity.
Qed.

Lemma sie_cpu_push h : sie (cpu_push h) = false.
Proof. rewrite sie_testbit. apply sstatus_clear_testbit. Qed.

Lemma with_hart_id m : with_hart (fun h => h) m = m.
Proof. by destruct m. Qed.

Lemma pop_push m :
  hart_ok m -> pop_off (with_hart cpu_push m) = Ok tt (settle m).
Proof.
  intros [H0 H1]. unfold pop_off, intr_get. mgo.
  unfold with_hart at 1. cbn [m_hart set_m_hart]. rewrite sie_cpu_push. mgo.
  destruct m as [[tp ss noff ie p] lk me fl pr ip np ti].
  unfold with_hart, settle, cpu_settle, cpu_push, sie in *; cbn in *.
  destruct (Z.ltb_spec (noff + 1) 1); [lia|].
  mgo. cbn.
  replace (noff + 1 - 1) with noff by lia.
  pose proof (sie_testbit (mk_hart tp ss noff ie p)) as Hs. unfold sie in Hs. cbn in Hs.
  destruct (Z.eqb_spec noff 0) as [->|Hn]; cbn.
  - rewrite Hs. destruct (Z.testbit ss 1) eqn:E; unfold when, ret; cbn.
    + unfold intr_on, modify, with_hart. cbn. by rewrite sstatus_clear_set, ?Hs.
    + rewrite sstatus_clear_id by done. unfold with_hart. cbn. by rewrite Hs.
  - rewrite Hs in H1. unfold when, ret, with_hart. cbn.
    rewrite (proj2 (Z.eqb_neq noff 0) Hn), sstatus_clear_id; [done|]. apply H1. lia.
Qed.

(** [hold] and [settle] commute with changes to the rest of the machine, so a
    critical section's body can be moved out of it. *)
Lemma hold_mem l v m : set_m_mem v (hold l m) = hold l (set_m_mem v m).
Proof. reflexivity. Qed.
Lemma hold_freelist l v m : set_m_freelist v (hold l m) = hold l (set_m_freelist v m).
Proof. reflexivity. Qed.
Lemma hold_procs l v m : set_m_procs v (hold l m) = hold l (set_m_procs v m).
Proof. reflexivity. Qed.
Lemma hold_nextpid l v m : set_m_nextpid v (hold l m) = hold l (set_m_nextpid v m).
Proof. reflexivity. Qed.
Lemma hold_ticks l v m : set_m_ticks v (hold l m) = hold l (set_m_ticks v m).
Proof. reflexivity. Qed.

Lemma hart_ok_hold l m : hart_ok m -> hart_ok (hold l m).
Proof.
  intros [H0 _]. split; cbn; [lia|]. intros _. apply sie_cpu_push.
Qed.

Lemma hart_ok_settle m : hart_ok m -> hart_ok (settle m).
Proof.
  intros [H0 H1]. unfold settle, with_hart, cpu_settle.
  split; cbn; destruct (Z.eqb_spec (h_noff (m_hart m)) 0); cbn; auto.
Qed.

Lemma unlocked_hold l l' m : l <> l' -> unlocked l m -> unlocked l (hold l' m).
Proof.
  intros Hne [n Hn]. exists n. unfold hold, set_lock. cbn.
  by rewrite lookup_insert_ne.
Qed.

#[export] Hint Resolve hart_ok_hold hart_ok_settle : machine.
#[export] Hint Resolve unlocked_hold : machine.
#[export] Hint Extern 1 (_ <> _) => discriminate : machine.

Lemma settle_settle m : settle (settle m) = settle m.
Proof.
  destruct m as [h lk me fl pr ip np ti]. unfold settle, with_hart, cpu_settle. cbn.
  destruct (Z.eqb_spec (h_noff h) 0) as [E|E]; cbn.
  - rewrite E. cbn. unfold sie. cbn. done.
  - by rewrite (proj2 (Z.eqb_neq _ _) E).
Qed.

Lemma cpu_push_settle h : cpu_push (cpu_settle h) = cpu_push h.
Proof.
  unfold cpu_push, cpu_settle. destruct (Z.eqb_spec (h_noff h) 0) as [E|E]; cbn.
  - rewrite E. cbn. unfold sie. cbn. done.
  - by rewrite (proj2 (Z.eqb_neq _ _) E).
Qed.

Lemma hold_settle l m : hold l (settle m) = hold l m.
Proof.
  unfold hold, settle, with_hart, set_lock, get_lock. cbn. rewrite cpu_push_settle.
  unfold cpu_settle. by destruct (h_noff (m_hart m) =? 0).
Qed.

Lemma settle_hold l m : 0 <= h_noff (m_hart m) -> settle (hold l m) = hold l m.
Proof.
  intros H. unfold settle, with_hart, cpu_settle. cbn.
  destruct (Z.eqb_spec (h_noff (m_hart m) + 1) 0); [lia|]. reflexivity.
Qed.

Lemma unlocked_settle l m : unlocked l (settle m) <-> unlocked l m.
Proof. reflexivity. Qed.

Lemma push_off_settle m : push_off (settle m) = push_off m.
Proof.
  rewrite !push_off_eq. unfold settle, with_hart. cbn. by rewrite cpu_push_settle.
Qed.

(** Acquiring a free lock enters its critical section. *)
Lemma acquire_ok l m : unlocked l m -> acquire l m = Ok tt (hold l m).
Proof.
  intros [n Hn]. unfold acquire. mcall push_off_eq. unfold holding. mgo.
  unfold get_lock at 1. cbn [m_locks set_m_hart with_hart]. rewrite Hn. cbn [default locked].
  cbn [Z.eqb negb andb]. unfold test_and_set, bind, reads, modify, ret.
  unfold hold, set_lock, get_lock, with_hart. cbn. rewrite Hn. cbn.
  rewrite lookup_insert_eq. cbn. by rewrite insert_insert_eq.
Qed.

(** A lock this hart already holds makes [acquire] panic. *)
Lemma acquire_held l m : acquire l (hold l m) = Panic "acquire".
Proof.
  unfold acquire. mcall push_off_eq. unfold holding. mgo.
  unfold get_lock, hold, set_lock. cbn. rewrite lookup_insert_eq. cbn.
  by rewrite Z.eqb_refl.
Qed.

Lemma get_lock_set l v m : get_lock (set_lock l v m) l = v.
Proof. unfold get_lock, set_lock. cbn. by rewrite lookup_insert_eq. Qed.

Lemma set_lock_set l v w m : set_lock l v (set_lock l w m) = set_lock l v m.
Proof. unfold set_lock. cbn. by rewrite insert_insert_eq. Qed.

(** Leaving the critical section restores the lock and the interrupt state. *)
Lemma release_hold l m :
  hart_ok m -> unlocked l m -> release l (hold l m) = Ok tt (settle m).
Proof.
  intros Hok [n Hn]. unfold release, holding. mgo.
  unfold hold at 1 2 3. rewrite get_lock_set. cbn. rewrite Z.eqb_refl. cbn [negb]. mgo.
  unfold hold. rewrite ?get_lock_set, ?set_lock_set. cbn.
  rewrite <- (pop_push m Hok). f_equal.
  destruct m as [h lk me fl pr ip np ti]. unfold set_lock, get_lock, with_hart. cbn in *.
  rewrite Hn. cbn. by rewrite insert_id.
Qed.

Lemma release_unheld l m : unlocked l m -> release l m = Panic "release".
Proof.
  intros [n Hn]. unfold release, holding. mgo. unfold get_lock. by rewrite Hn.
Qed.

Definition pushed (n : nat) (m : machine) : machine :=
  Nat.iter n (with_hart cpu_push) m.

Lemma hart_ok_push m : hart_ok m -> hart_ok (with_hart cpu_push m).
Proof. intros [H0 _]. split; cbn; [lia|]. intros _. apply sie_cpu_push. Qed.

Lemma hart_ok_pushed n m : hart_ok m -> hart_ok (pushed n m).
Proof. intros H. induction n; simpl; auto using hart_ok_push. Qed.

Lemma repeat_push_off n m : repeat_m n push_off m = Ok tt (pushed n m).
Proof.
  revert m. induction n as [|n IH]; intros m; [done|]. cbn [repeat_m].
  mcall push_off_eq. rewrite IH. unfold pushed. by rewrite <- Nat.iter_succ_r.
Qed.

Lemma settle_push m :
  0 <= h_noff (m_hart m) -> settle (with_hart cpu_push m) = with_hart cpu_push m.
Proof.
  intros H. unfold settle, with_hart, cpu_settle. cbn.
  destruct (Z.eqb_spec (h_noff (m_hart m) + 1) 0); [lia|]. reflexivity.
Qed.

Lemma settle_pushed n m : hart_ok m -> settle (pushed (S n) m) = pushed (S n) m.
Proof. intros H. apply settle_push, (hart_ok_pushed n m H). Qed.

Lemma repeat_pop_off n m :
  hart_ok m -> repeat_m (S n) pop_off (pushed (S n) m) = Ok tt (settle m).
Proof.
  intros H. induction n as [|n IH].
  - cbn [repeat_m]. mcall (pop_push m H). done.
  - cbn [repeat_m]. mcall (pop_push (pushed (S n) m) (hart_ok_pushed _ _ H)).
    rewrite settle_pushed by done. exact IH.
Qed.

(** Interrupt disabling nests: after [n] calls of [push_off] interrupts are
    off, and [n] calls of [pop_off] bring back the interrupt state and depth the
    hart had before, whatever [n] is. *)
Theorem push_pop_balanced n m :
  hart_ok m ->
  exists m1 m2,
    repeat_m (S n) push_off m = Ok tt m1 /\ sie (m_hart m1) = false /\
    h_noff (m_hart m1) = h_noff (m_hart m) + Z.of_nat (S n) /\
    repeat_m (S n) pop_off m1 = Ok tt m2 /\
    h_sstatus (m_hart m2) = h_sstatus (m_hart m) /\ h_noff (m_hart m2) = h_noff (m_hart m).
Proof.
  intros H. exists (pushed (S n) m), (settle m). repeat split.
  - apply repeat_push_off.
  - apply sie_cpu_push.
  - clear H. induction n as [|n IH]; [cbn; lia|]. cbn in *. lia.
  - by apply repeat_pop_off.
  - unfold settle, with_hart, cpu_settle. cbn. by destruct (h_noff (m_hart m) =? 0).
  - unfold settle, with_hart, cpu_settle. cbn. by destruct (h_noff (m_hart m) =? 0).
Qed.

Definition boot_machine : machine :=
  mk_machine (mk_hart 0 2 0 0 None) {[Lk_kmem := mk_spinlock 0 "kmem" None]} ∅ 0 [] None 1 0.

Lemma boot_hart_ok : hart_ok boot_machine.
Proof. split; cbn; lia. Qed.

Lemma push_pop_balanced_witness :
  exists m1 m2,
    repeat_m 3 push_off boot_machine = Ok tt m1 /\ sie (m_hart m1) = false /\
    h_noff (m_hart m1) = 0 + Z.of_nat 3 /\
    repeat_m 3 pop_off m1 = Ok tt m2 /\
    h_sstatus (m_hart m2) = 2 /\ h_noff (m_hart m2) = 0.
Proof. apply (push_pop_balanced 2 boot_machine). split; cbn; lia. Defined.

(** ** Interleaved execution on several harts *)
Module Smp.

(** Where a hart is in its use of one lock.  [holding] reads [locked] and
    [cpu] in two separate steps. *)
Inductive pc : Type :=
| Outside
| AcqReadLocked | AcqReadCpu | AcqSwap | AcqSetCpu
| Critical
| RelReadLocked | RelReadCpu | RelClearCpu | RelStore
| Panicked (msg : string).

Record smp := mk_smp { s_locked : bool; s_cpu : option nat; s_pc : nat -> pc }.

Definition upd (f : nat -> pc) (h : nat) (p : pc) : nat -> pc :=
  fun h' => if decide (h' = h) then p else f h'.

(** One atomic step of hart [h]. *)
Inductive step (h : nat) : smp -> smp -> Prop :=
| step_acquire l c f : f h = Outside ->
    step h (mk_smp l c f) (mk_smp l c (upd f h AcqReadLocked))
| step_acq_locked l c f : f h = AcqReadLocked ->
    step h (mk_smp l c f) (mk_smp l c (upd f h (if l then AcqReadCpu else AcqSwap)))
| step_acq_cpu l c f : f h = AcqReadCpu ->
    step h (mk_smp l c f)
      (mk_smp l c (upd f h (if decide (c = Some h) then Panicked "acquire" else AcqSwap)))
| step_swap_free c f : f h = AcqSwap ->
    step h (mk_smp false c f) (mk_smp true c (upd f h AcqSetCpu))
| step_swap_spin c f : f h = AcqSwap ->
    step h (mk_smp true c f) (mk_smp true c f)
| step_set_cpu l c f : f h = AcqSetCpu ->
    step h (mk_smp l c f) (mk_smp l (Some h) (upd f h Critical))
| step_release l c f : f h = Critical ->
    step h (mk_smp l c f) (mk_smp l c (upd f h RelReadLocked))
| step_rel_locked l c f : f h = RelReadLocked ->
    step h (mk_smp l c f)
      (mk_smp l c (upd f h (if l then RelReadCpu else Panicked "release")))
| step_rel_cpu l c f : f h = RelReadCpu ->
    step h (mk_smp l c f)
      (mk_smp l c (upd f h (if decide (c = Some h) then RelClearCpu else Panicked "release")))
| step_clear_cpu l c f : f h = RelClearCpu ->
    step h (mk_smp l c f) (mk_smp l None (upd f h RelStore))
| step_store l c f : f h = RelStore ->
    step h (mk_smp l c f) (mk_smp false c (upd f h Outside)).

Definition init : smp := mk_smp false None (fun _ => Outside).

Inductive reachable : smp -> Prop :=
| reach_init : reachable init
| reach_step h s s' : reachable s -> step h s s' -> reachable s'.

(** The hart has the lock: it swapped [locked] and has not stored 0 yet. *)
Definition owns (p : pc) : bool :=
  match p with
  | AcqSetCpu | Critical | RelReadLocked | RelReadCpu | RelClearCpu | RelStore => true
  | _ => false
  end.

(** ... and its hart number is in the lock. *)
Definition named (p : pc) : bool :=
  match p with
  | Critical | RelReadLocked | RelReadCpu | RelClearCpu => true
  | _ => false
  end.

Definition is_panic (p : pc) : bool := match p with Panicked _ => true | _ => false end.

Record inv (s : smp) : Prop := {
  inv_locked : forall h, owns (s_pc s h) = true -> s_locked s = true;
  inv_unique : forall h h', owns (s_pc s h) = true -> owns (s_pc s h') = true -> h = h';
  inv_owner : s_locked s = true -> exists h, owns (s_pc s h) = true;
  inv_cpu : forall h, s_cpu s = Some h <-> named (s_pc s h) = true;
  inv_safe : forall h, is_panic (s_pc s h) = false
}.

Lemma named_owns p : named p = true -> owns p = true.
Proof. by destruct p. Qed.

Lemma inv_init : inv init.
Proof. constructor; cbn; try done. Qed.

Lemma upd_proj {A} (g : pc -> A) f h p h' :
  g (upd f h p h') = if decide (h' = h) then g p else g (f h').
Proof. unfold upd. by case_decide. Qed.

(** A step that only moves the program counter between places with the same
    rights keeps the invariant. *)
Lemma inv_local l c f h p :
  inv (mk_smp l c f) -> owns p = owns (f h) -> named p = named (f h) ->
  is_panic p = false -> inv (mk_smp l c (upd f h p)).
Proof.
  intros [HL HU HO HC HS] Ho Hn Hp. cbn in *.
  assert (Eo : forall h', owns (upd f h p h') = owns (f h')).
  { intros h'. rewrite upd_proj. case_decide; congruence. }
  assert (En : forall h', named (upd f h p h') = named (f h')).
  { intros h'. rewrite upd_proj. case_decide; congruence. }
  constructor; cbn.
  - intros h'. rewrite Eo. apply HL.
  - intros h1 h2. rewrite !Eo. apply HU.
  - intros Hl. destruct (HO Hl) as [h' Hh']. exists h'. by rewrite Eo.
  - intros h'. rewrite En. apply HC.
  - intros h'. rewrite upd_proj. case_decide; auto.
Qed.

Lemma inv_swap c f h :
  inv (mk_smp false c f) -> f h = AcqSwap -> inv (mk_smp true c (upd f h AcqSetCpu)).
Proof.
  intros [HL HU HO HC HS] E. cbn in *.
  assert (Hno : forall h', owns (f h') = false).
  { intros h'. destruct (owns (f h')) eqn:Ho; [|done]. by apply HL in Ho. }
  constructor; cbn.
  - done.
  - intros h1 h2. rewrite !upd_proj, !Hno. repeat case_decide; congruence.
  - intros _. exists h. by rewrite upd_proj, decide_True.
  - intros h'. rewrite upd_proj, HC. case_decide; [|done]. subst. by rewrite E.
  - intros h'. rewrite upd_proj. case_decide; auto.
Qed.

(** The owner [h] changes the recorded hart number to [c'], keeping the lock. *)
Lemma inv_cpu_write c c' f h p :
  inv (mk_smp true c f) -> owns (f h) = true -> owns p = true -> is_panic p = false ->
  (if named p then c' = Some h else c' = None) ->
  inv (mk_smp true c' (upd f h p)).
Proof.
  intros [HL HU HO HC HS] Eo Ep Hp Hc'. cbn in *.
  assert (Hoth : forall h', h' <> h -> named (f h') = false).
  { intros h' Hne. destruct (named (f h')) eqn:En; [|done].
    by rewrite (HU h' h (named_owns _ En) Eo) in Hne. }
  constructor; cbn.
  - done.
  - intros h1 h2. rewrite !upd_proj. repeat case_decide; subst; intros H1 H2; auto.
  - intros _. exists h. by rewrite upd_proj, decide_True.
  - intros h'. rewrite upd_proj. case_decide; subst.
    + destruct (named p); subst; split; congruence.
    + rewrite Hoth by done. destruct (named p); subst; split; congruence.
  - intros h'. rewrite upd_proj. case_decide; auto.
Qed.

Lemma inv_store c f h :
  inv (mk_smp true c f) -> f h = RelStore -> inv (mk_smp false c (upd f h Outside)).
Proof.
  intros [HL HU HO HC HS] E. cbn in *.
  assert (Hno : forall h', owns (upd f h Outside h') = false).
  { intros h'. rewrite upd_proj. case_decide as Hd; [done|].
    destruct (owns (f h')) eqn:Ho; [|done]. destruct Hd. apply HU; [done|]. by rewrite E. }
  constructor; cbn.
  - intros h'. by rewrite Hno.
  - intros h1 h2. by rewrite !Hno.
  - done.
  - intros h'. rewrite upd_proj, HC. case_decide; [|done]. subst. by rewrite E.
  - intros h'. rewrite upd_proj. case_decide; auto.
Qed.

Lemma inv_step h s s' : inv s -> step h s s' -> inv s'.
Proof.
  intros Hi Hst. pose proof Hi as [HL HU HO HC HS].
  destruct Hst as
    [l c f E|l c f E|l c f E|c f E|c f E|l c f E|l c f E|l c f E|l c f E|l c f E|l c f E];
    cbn in *; pose proof (HL h) as HLh; pose proof (HC h) as HCh; rewrite E in HLh, HCh;
    cbn in HLh, HCh.
  - apply inv_local; rewrite ?E; done.
  - apply inv_local; rewrite ?E; destruct l; done.
  - destruct (decide (c = Some h)) as [Hc|]; [by apply HCh in Hc|].
    apply inv_local; rewrite ?E; done.
  - by apply inv_swap.
  - done.
  - rewrite HLh in * by done. apply (inv_cpu_write c); rewrite ?E; done.
  - apply inv_local; rewrite ?E; done.
  - rewrite HLh in * by done. apply inv_local; rewrite ?E; done.
  - destruct (decide (c = Some h)) as [Hc|Hc]; [|by destruct Hc; apply HCh].
    apply inv_local; rewrite ?E; done.
  - rewrite HLh in * by done. apply (inv_cpu_write c); rewrite ?E; done.
  - rewrite HLh in * by done. by apply inv_store.
Qed.

Lemma reachable_inv s : reachable s -> inv s.
Proof. induction 1; eauto using inv_init, inv_step. Qed.

(** C21. Mutual exclusion: however the harts interleave, two harts are never in
    the critical section together, no use of the lock panics, and [holding],
    although it reads the lock without synchronisation, is true exactly for the
    hart that is in its critical section. *)
Theorem mutual_exclusion s h :
  reachable s ->
  (forall h', s_pc s h = Critical -> s_pc s h' = Critical -> h = h') /\
  (forall msg, s_pc s h <> Panicked msg) /\
  (s_pc s h = Critical -> s_locked s = true /\ s_cpu s = Some h) /\
  (s_pc s h = Outside -> s_cpu s <> Some h).
Proof.
  intros [HL HU HO HC HS]%reachable_inv.
  pose proof (HL h) as HLh. pose proof (HC h) as HCh. pose proof (HS h) as HSh.
  split; [|split; [|split]].
  - intros h' E E'. apply HU; by rewrite ?E, ?E'.
  - intros msg E. by rewrite E in HSh.
  - intros E. rewrite E in *. cbn in *. split; [auto|by apply HCh].
  - intros E Hc%HC. by rewrite E in Hc.
Qed.

(** Harts 0 and 1 contend: 0 is in its critical section and 1 spins. *)
Definition contended : smp :=
  mk_smp true (Some 0%nat)
    (upd (upd (upd (upd (upd (upd (fun _ => Outside) 0 AcqReadLocked) 0 AcqSwap)
       1 AcqReadLocked) 1 AcqSwap) 0 AcqSetCpu) 0 Critical)%nat.

Lemma contended_reachable : reachable contended.
Proof.
  eapply (reach_step 0); [|by constructor].
  eapply (reach_step 0); [|by constructor].
  eapply (reach_step 1); [|apply (step_acq_locked 1 false); reflexivity].
  eapply (reach_step 1); [|by constructor].
  eapply (reach_step 0); [|apply (step_acq_locked 0 false); reflexivity].
  eapply (reach_step 0); [|by constructor].
  apply reach_init.
Qed.

Lemma mutual_exclusion_witness :
  s_pc contended 0%nat = Critical /\ s_pc contended 1%nat = AcqSwap /\
  (s_pc contended 0%nat = Critical -> s_locked contended = true /\ s_cpu contended = Some 0%nat).
Proof.
  split; [reflexivity|]. split; [reflexivity|].
  apply (mutual_exclusion contended 0%nat contended_reachable).
Defined.
End Smp.
