(* ===== verification/Kalloc.v ===== *)
(** * kernel/kalloc.c

    The free list is threaded through the free pages themselves: the first
    word of a free page is the address of the next one.  [kmem_inv m l] states
    that the list in memory is [l], without duplicates and made of pages of the
    allocator's range.  The theorems give each operation's result and memory
    exactly; [Module Clients] runs any sequence of allocations, frees and
    client writes and shows that pages are neither lost nor handed out twice. *)
From stdpp Require Import gmap list strings.
From S2P Require Import Prelude Kstring Abi Machine Spinlock.

Definition with_mem (f : mem -> mem) (m : machine) : machine := set_m_mem (f (m_mem m)) m.

Section Kalloc.
(** [extern char end[]], the first address after the kernel (kernel.ld). *)
Variable kend : Z.

Definition kfree (pa : Z) : M machine unit :=
  if negb (pa mod PGSIZE =? 0) || (pa <? kend) || (pa >=? PHYSTOP)
  then panic "kfree" else
  modify (with_mem (fun mm => memset mm pa 1 PGSIZE)) ;;;
  acquire Lk_kmem ;;;
  modify (fun m => with_mem (fun mm => store64 mm pa (m_freelist m)) m) ;;;
  modify (set_m_freelist pa) ;;;
  release Lk_kmem.

Definition kalloc : M machine Z :=
  acquire Lk_kmem ;;;
  r <- reads m_freelist ;;
  when (negb (r =? 0))
    (modify (fun m => set_m_freelist (load64 (m_mem m) r) m)) ;;;
  release Lk_kmem ;;;
  when (negb (r =? 0))
    (modify (with_mem (fun mm => memset mm r 5 PGSIZE))) ;;;
  ret r.

(** The loop of [freerange]; [fuel] bounds the number of pages. *)
Fixpoint freerange_loop (fuel : nat) (p pa_end : Z) : M machine unit :=
  match fuel with
  | O => hang
  | S fuel =>
      if p + PGSIZE <=? pa_end
      then kfree p ;;; freerange_loop fuel (p + PGSIZE) pa_end
      else ret tt
  end.

Definition freerange (pa_start pa_end : Z) : M machine unit :=
  freerange_loop (S (Z.to_nat (pa_end / PGSIZE))) (PGROUNDUP pa_start) pa_end.

Definition kinit : M machine unit :=
  initlock Lk_kmem "kmem" ;;; freerange kend PHYSTOP.

(** ** The free list *)

Fixpoint is_freelist (mm : mem) (head : Z) (l : list Z) : Prop :=
  match l with
  | [] => head = 0
  | p :: l => head = p /\ is_freelist mm (load64 mm p) l
  end.

Definition page_ok (p : Z) : Prop := p mod 4096 = 0 /\ kend <= p < PHYSTOP.

Record kmem_inv (m : machine) (l : list Z) : Prop := {
  kmem_list : is_freelist (m_mem m) (m_freelist m) l;
  kmem_nodup : NoDup l;
  kmem_pages : Forall page_ok l
}.

Hypothesis kend_pos : 0 < kend.

Lemma page_ok_pos p : page_ok p -> 0 < p.
Proof. intros [_ H]. lia. Qed.

Lemma page_ok_word p : page_ok p -> u64 p = p.
Proof. intros [_ H]. apply Z.mod_small. unfold PHYSTOP, KERNBASE in H. lia. Qed.

(** Distinct pages do not overlap. *)
Lemma page_disjoint p q :
  page_ok p -> page_ok q -> p <> q -> p + 4096 <= q \/ q + 4096 <= p.
Proof. intros [Hp _] [Hq _] Hne. dlia. Qed.

(** The list only depends on the first words of its pages. *)
Lemma is_freelist_ext mm mm' l : forall head,
  (forall p, p ∈ l -> load64 mm' p = load64 mm p) ->
  is_freelist mm head l -> is_freelist mm' head l.
Proof.
  induction l as [|p l IH]; intros head Heq; simpl; [done|].
  intros [-> H]. split; [done|]. rewrite Heq by set_solver. apply IH; [|done].
  intros q Hq. apply Heq. set_solver.
Qed.

(** A change confined to a page that is not in the list keeps the list. *)
Lemma is_freelist_frame mm mm' p l head :
  page_ok p -> Forall page_ok l -> p ∉ l ->
  (forall a, a < p \/ p + 4096 <= a -> mget mm' a = mget mm a) ->
  is_freelist mm head l -> is_freelist mm' head l.
Proof.
  intros Hp Hl Hin Hout. apply is_freelist_ext. intros q Hq.
  rewrite Forall_forall in Hl.
  destruct (page_disjoint p q Hp (Hl q Hq));
    [set_solver| |]; apply load64_ext; intros i Hi; apply Hout; lia.
Qed.

Definition kfree_mem (pa next : Z) (mm : mem) : mem := store64 (memset mm pa 1 PGSIZE) pa next.

Lemma mget_kfree_mem_out pa next mm a :
  a < pa \/ pa + 4096 <= a -> mget (kfree_mem pa next mm) a = mget mm a.
Proof.
  intros Ha. unfold kfree_mem. rewrite mget_store64_out by lia.
  rewrite mget_memset by (unfold PGSIZE; lia). unfold PGSIZE. zcase; try done; lia.
Qed.

Lemma kfree_eq pa m :
  page_ok pa -> hart_ok m -> unlocked Lk_kmem m ->
  kfree pa m =
    Ok tt (settle (set_m_freelist pa (with_mem (kfree_mem pa (m_freelist m)) m))).
Proof.
  intros [Hal Hr] Hok Hlk. unfold kfree, PGSIZE at 1. rewrite Hal.
  destruct (Z.ltb_spec pa kend); [lia|]. rewrite Z.geb_leb.
  destruct (Z.leb_spec PHYSTOP pa); [lia|]. cbn [Z.eqb negb orb]. mgo.
  mcall acquire_ok. mgo. unfold with_mem.
  change (m_freelist (hold _ _)) with (m_freelist m).
  change (m_mem (hold Lk_kmem ?x)) with (m_mem x). rewrite hold_mem, hold_freelist.
  apply release_hold; done.
Qed.

Lemma kfree_bad pa m : ~ page_ok pa -> kfree pa m = Panic "kfree".
Proof.
  intros H. unfold kfree, page_ok, PGSIZE in *. rewrite Z.geb_leb.
  zcase; try done. destruct H. lia.
Qed.

Lemma kfree_inv pa m l :
  kmem_inv m l -> page_ok pa -> pa ∉ l ->
  kmem_inv (settle (set_m_freelist pa (with_mem (kfree_mem pa (m_freelist m)) m))) (pa :: l).
Proof.
  intros [Hl Hnd Hpg] Hpa Hin. split; cbn.
  - split; [done|]. unfold kfree_mem. rewrite load64_store64.
    assert (Hw : u64 (m_freelist m) = m_freelist m).
    { destruct l as [|q l]; simpl in Hl; [by rewrite Hl|].
      destruct Hl as [-> _]. apply page_ok_word. by apply Forall_cons in Hpg as [? _]. }
    rewrite Hw. eapply is_freelist_frame; [exact Hpa|done|done| |done].
    intros a Ha. by apply mget_kfree_mem_out.
  - by constructor.
  - by constructor.
Qed.

Lemma kalloc_empty m :
  hart_ok m -> unlocked Lk_kmem m -> m_freelist m = 0 -> kalloc m = Ok 0 (settle m).
Proof.
  intros Hok Hlk Hfl. unfold kalloc. mcall acquire_ok. mgo.
  change (m_freelist (hold _ m)) with (m_freelist m). rewrite Hfl. cbn [Z.eqb negb when].
  mgo. mcall release_hold. done.
Qed.

Lemma kalloc_cons p m :
  hart_ok m -> unlocked Lk_kmem m -> m_freelist m = p -> p <> 0 ->
  kalloc m =
    Ok p (with_mem (fun mm => memset mm p 5 PGSIZE)
            (settle (set_m_freelist (load64 (m_mem m) p) m))).
Proof.
  intros Hok Hlk Hfl Hp. unfold kalloc. mcall acquire_ok. mgo.
  change (m_freelist (hold _ m)) with (m_freelist m). rewrite Hfl.
  destruct (Z.eqb_spec p 0); [done|]. cbn [negb when]. mgo.
  change (m_mem (hold _ m)) with (m_mem m). rewrite hold_freelist.
  mcall release_hold. mgo. done.
Qed.

Lemma kalloc_inv p l m :
  kmem_inv m (p :: l) ->
  m_freelist m = p /\ p <> 0 /\ page_ok p /\ ~ (p ∈ l) /\
  kmem_inv (with_mem (fun mm => memset mm p 5 PGSIZE)
              (settle (set_m_freelist (load64 (m_mem m) p) m))) l.
Proof.
  intros [Hl Hnd Hpg]. simpl in Hl. destruct Hl as [Hfl Hl].
  apply NoDup_cons in Hnd as [Hin Hnd]. apply Forall_cons in Hpg as [Hp Hpg].
  repeat split; try done; try apply Hp.
  - pose proof (page_ok_pos p Hp). lia.
  - cbn. eapply is_freelist_frame; [exact Hp|done|done| |exact Hl].
    intros a Ha. rewrite mget_memset by (unfold PGSIZE; lia). unfold PGSIZE.
    zcase; try done; lia.
Qed.
(** [n] consecutive pages from [p], in ascending order. *)
Fixpoint pages_from (p : Z) (n : nat) : list Z :=
  match n with
  | O => []
  | S n => p :: pages_from (p + PGSIZE) n
  end.

Lemma pages_from_above p n q : q ∈ pages_from p n -> p <= q.
Proof.
  revert p. induction n as [|n IH]; intros p; simpl; [set_solver|].
  rewrite elem_of_cons. intros [->|H]; [lia|]. apply IH in H. unfold PGSIZE in H. lia.
Qed.

Lemma freerange_loop_spec n : forall fuel p pa_end l m,
  hart_ok m -> unlocked Lk_kmem m -> kmem_inv m l ->
  page_ok p \/ n = O -> pa_end <= PHYSTOP -> (forall q, q ∈ l -> q < p) ->
  p + PGSIZE * Z.of_nat n <= pa_end < p + PGSIZE * Z.of_nat (S n) -> (n < fuel)%nat ->
  exists m', freerange_loop fuel p pa_end m = Ok tt m' /\
    hart_ok m' /\ unlocked Lk_kmem m' /\ kmem_inv m' (reverse (pages_from p n) ++ l).
Proof.
  induction n as [|n IH]; intros fuel p pa_end l m Hok Hlk Hi Hp He Hl Hn Hf;
    (destruct fuel as [|fuel]; [lia|]); cbn [freerange_loop pages_from];
    unfold PGSIZE in Hn.
  - destruct (Z.leb_spec (p + PGSIZE) pa_end); [unfold PGSIZE in *; lia|]. by exists m.
  - destruct (Z.leb_spec (p + PGSIZE) pa_end); [|unfold PGSIZE in *; lia].
    destruct Hp as [Hp|]; [|done].
    assert (Hin : p ∉ l) by (intros Hx; apply Hl in Hx; lia).
    pose proof (kfree_inv p m l Hi Hp Hin) as Hi'.
    mcall kfree_eq.
    edestruct (IH fuel (p + PGSIZE) pa_end (p :: l)) as (m' & E & Hok' & Hlk' & Hinv);
      [| |exact Hi'| |done| | |lia|].
    + by apply hart_ok_settle.
    + by apply unlocked_settle.
    + destruct n; [by right|left]. destruct Hp as [Ha Hr].
      unfold page_ok, PGSIZE in *. split; [dlia|lia].
    + intros q [->|Hq]%elem_of_cons; [|apply Hl in Hq]; unfold PGSIZE; lia.
    + unfold PGSIZE in *. lia.
    + exists m'. rewrite E, reverse_cons, <- app_assoc. done.
Qed.

Hypothesis kend_ram : KERNBASE <= kend <= PHYSTOP.

Definition npages : nat := Z.to_nat ((PHYSTOP - PGROUNDUP kend) / PGSIZE).

Lemma kinit_spec m :
  hart_ok m -> m_freelist m = 0 ->
  exists m', kinit m = Ok tt m' /\ hart_ok m' /\ unlocked Lk_kmem m' /\
    kmem_inv m' (reverse (pages_from (PGROUNDUP kend) npages)).
Proof.
  intros Hok Hfl. unfold kinit, initlock. mgo.
  destruct (PGROUNDUP_spec kend) as [Ha Hb];
    [lia | unfold PHYSTOP, KERNBASE in *; lia |].
  assert (Hup : PGROUNDUP kend <= PHYSTOP).
  { unfold PHYSTOP, KERNBASE in *. dlia. }
  rewrite <- (app_nil_r (reverse _)). unfold freerange.
  apply freerange_loop_spec.
  - exact Hok.
  - exists "kmem"%string. cbn. by rewrite lookup_insert_eq.
  - split; [exact Hfl|constructor|constructor].
  - destruct (decide (npages = O)) as [|Hn]; [by right|left].
    split; [done|]. split; [lia|]. unfold npages, PGSIZE in Hn.
    assert ((PHYSTOP - PGROUNDUP kend) / 4096 <> 0) by lia. dlia.
  - done.
  - intros q Hq. by apply not_elem_of_nil in Hq.
  - unfold npages, PGSIZE.
    assert (0 <= (PHYSTOP - PGROUNDUP kend) / 4096) by (apply Z.div_pos; lia).
    rewrite Nat2Z.inj_succ, Z2Nat.id by done. dlia.
  - unfold npages, PGSIZE. apply Nat.lt_succ_r, Z2Nat.inj_le.
    + apply Z.div_pos; lia.
    + apply Z.div_pos; lia.
    + apply Z.div_le_mono; lia.
Qed.

(** At boot [kinit] puts every whole page between the end of the kernel and
    [PHYSTOP] on the free list, each one exactly once, without panicking. *)
Theorem kinit_frees_all_pages m :
  hart_ok m -> m_freelist m = 0 ->
  exists m' l, kinit m = Ok tt m' /\ kmem_inv m' l /\
    forall p, p ∈ l <-> p mod PGSIZE = 0 /\ kend <= p /\ p + PGSIZE <= PHYSTOP.
Proof.
  intros Hok Hfl. destruct (kinit_spec m Hok Hfl) as (m' & E & _ & _ & Hi).
  exists m', (reverse (pages_from (PGROUNDUP kend) npages)). split; [done|split; [done|]].
  intros p. rewrite elem_of_reverse.
  destruct (PGROUNDUP_spec kend) as [Ha Hb];
    [lia | unfold PHYSTOP, KERNBASE in *; lia |].
  assert (Hup : PGROUNDUP kend <= PHYSTOP) by (unfold PHYSTOP, KERNBASE in *; dlia).
  assert (Hmem : forall n q, q mod 4096 = 0 ->
            p ∈ pages_from q n <-> p mod 4096 = 0 /\ q <= p < q + 4096 * Z.of_nat n).
  { clear. intros n. induction n as [|n IH]; intros q Hq; simpl.
    - rewrite elem_of_nil. lia.
    - rewrite elem_of_cons, IH by (unfold PGSIZE; dlia). unfold PGSIZE.
      split; [intros [->|H]; lia|]. intros [H1 H2].
      destruct (decide (p = q)); [by left|right]. split; [done|dlia]. }
  rewrite Hmem by done. unfold npages, PGSIZE in *.
  rewrite Z2Nat.id by (apply Z.div_pos; lia). unfold PHYSTOP, KERNBASE in *. dlia.
Qed.
End Kalloc.

Lemma kinit_frees_all_pages_witness :
  exists m' l, kinit (PHYSTOP - 10000) boot_machine = Ok tt m' /\
    kmem_inv (PHYSTOP - 10000) m' l /\
    forall p, p ∈ l <->
      p mod PGSIZE = 0 /\ PHYSTOP - 10000 <= p /\ p + PGSIZE <= PHYSTOP.
Proof.
  apply kinit_frees_all_pages; unfold PHYSTOP, KERNBASE; [lia|lia|exact boot_hart_ok|reflexivity].
Defined.

#[export] Hint Resolve -> unlocked_settle : machine.

(** ** Users of the allocator *)
Module Clients.
Section Clients.
Variable kend : Z.
Hypothesis kend_pos : 0 < kend.

(** The machine and the pages its users have allocated and not yet freed. *)
Record cstate := mk_cstate { c_m : machine; c_held : list Z }.

(** A user allocates, is refused, frees a page it has, or writes into one. *)
Inductive cstep : cstate -> cstate -> Prop :=
| cstep_alloc m m' held p :
    kalloc m = Ok p m' -> p <> 0 -> cstep (mk_cstate m held) (mk_cstate m' (p :: held))
| cstep_refused m m' held :
    kalloc m = Ok 0 m' -> cstep (mk_cstate m held) (mk_cstate m' held)
| cstep_free m m' held p held' :
    held ≡ₚ p :: held' -> kfree kend p m = Ok tt m' ->
    cstep (mk_cstate m held) (mk_cstate m' held')
| cstep_write m held p a v :
    p ∈ held -> p <= a < p + PGSIZE ->
    cstep (mk_cstate m held) (mk_cstate (with_mem (fun mm => mset mm a v) m) held).

Definition csteps : cstate -> cstate -> Prop := rtc cstep.

Record cinv (pages : list Z) (s : cstate) (free : list Z) : Prop := {
  cinv_hart : hart_ok (c_m s);
  cinv_lock : unlocked Lk_kmem (c_m s);
  cinv_kmem : kmem_inv kend (c_m s) free;
  cinv_all : c_held s ++ free ≡ₚ pages;
  cinv_pages : NoDup pages /\ Forall (page_ok kend) pages
}.

Lemma cinv_held_fresh pages s free p :
  cinv pages s free -> p ∈ c_held s -> page_ok kend p /\ ~ (p ∈ free).
Proof.
  intros [_ _ _ Hall [Hnd Hpg]] Hp. rewrite <- Hall in Hnd, Hpg. split.
  - rewrite Forall_forall in Hpg. apply Hpg. set_solver.
  - apply NoDup_app in Hnd as (_ & Hd & _). auto.
Qed.

Lemma kalloc_result m free :
  hart_ok m -> unlocked Lk_kmem m -> kmem_inv kend m free ->
  match free with
  | [] => kalloc m = Ok 0 (settle m)
  | p :: free' => exists m', kalloc m = Ok p m' /\ p <> 0 /\ hart_ok m' /\
                    unlocked Lk_kmem m' /\ kmem_inv kend m' free'
  end.
Proof.
  intros Hok Hlk Hi. destruct free as [|p free'].
  - apply kalloc_empty; [done|done|]. apply Hi.
  - destruct (kalloc_inv kend kend_pos p free' m Hi) as (Hfl & Hp & _ & _ & Hi').
    eexists. split; [by apply kalloc_cons|]. split; [done|]. split; [|split; [|done]].
    + by apply (hart_ok_settle m).
    + done.
Qed.

Lemma cinv_step pages s s' free :
  cinv pages s free -> cstep s s' -> exists free', cinv pages s' free'.
Proof.
  intros Hi Hst. pose proof Hi as [Hok Hlk Hk Hall Hpg].
  destruct Hst as [m m' held p E Hp|m m' held E|m m' held p held' Hh E|m held p a v Hp Ha];
    cbn in *.
  - pose proof (kalloc_result m free Hok Hlk Hk) as Hr. destruct free as [|q free'].
    + rewrite Hr in E. by injection E as <- <-.
    + destruct Hr as (m2 & E2 & _ & Hok2 & Hlk2 & Hk2). rewrite E in E2.
      injection E2 as -> ->. exists free'. split; try done. cbn.
      rewrite <- Hall. apply Permutation_middle.
  - pose proof (kalloc_result m free Hok Hlk Hk) as Hr. destruct free as [|q free'].
    + rewrite Hr in E. injection E as <-. exists [].
      split; try done; [by apply hart_ok_settle | by destruct Hk].
    + destruct Hr as (m2 & E2 & Hq & _). rewrite E in E2. congruence.
  - destruct (cinv_held_fresh pages (mk_cstate m held) free p Hi) as [Hpo Hnin].
    { cbn. rewrite Hh. constructor. }
    rewrite kfree_eq in E by done. injection E as <-. exists (p :: free). split; try done.
    + by apply hart_ok_settle.
    + by apply kfree_inv.
    + cbn. rewrite <- Hall, Hh. simpl. symmetry. apply Permutation_middle.
  - destruct (cinv_held_fresh pages (mk_cstate m held) free p Hi) as [Hpo Hnin]; [done|].
    exists free. split; try done. destruct Hk as [Hl Hnd Hf]. split; try done. cbn.
    eapply is_freelist_frame; [exact kend_pos|exact Hpo|done|done| |exact Hl].
    intros b Hb. rewrite mget_mset. unfold PGSIZE in Ha. zcase; [lia|done].
Qed.

Lemma cinv_steps pages s s' free :
  cinv pages s free -> csteps s s' -> exists free', cinv pages s' free'.
Proof.
  intros Hi Hst. revert free Hi. induction Hst as [|s1 s2 s3 H12 _ IH]; intros free Hi.
  - by exists free.
  - destruct (cinv_step _ _ _ _ Hi H12) as [free' Hi']. by apply (IH free').
Qed.

(** C20. Through any sequence of allocations, frees and writes into allocated
    pages, every page of the allocator is either on the free list or held by
    exactly one user: none is lost, none is handed out twice, the next
    allocation returns a page nobody holds, and it fails only when all the
    pages are held. *)
Theorem pages_conserved m0 pages s :
  hart_ok m0 -> unlocked Lk_kmem m0 -> kmem_inv kend m0 pages ->
  csteps (mk_cstate m0 []) s ->
  exists free, kmem_inv kend (c_m s) free /\ c_held s ++ free ≡ₚ pages /\
    NoDup (c_held s ++ free) /\
    exists p m', kalloc (c_m s) = Ok p m' /\ ~ (p ∈ c_held s) /\
      (p = 0 <-> length (c_held s) = length pages).
Proof.
  intros Hok Hlk Hk Hst.
  assert (Hi : cinv pages (mk_cstate m0 []) pages) by (destruct Hk; split; done).
  destruct (cinv_steps _ _ _ _ Hi Hst) as [free Hi'].
  pose proof Hi' as [Hok' Hlk' Hk' Hall [Hnd Hpg]].
  exists free. split; [done|]. split; [done|]. rewrite Hall. split; [done|].
  pose proof (Permutation_length Hall) as Hlen. rewrite length_app in Hlen.
  pose proof (kalloc_result _ _ Hok' Hlk' Hk') as Hr. destruct free as [|p free'].
  - exists 0, (settle (c_m s)). split; [done|]. split; [|simpl in Hlen; lia].
    intros H0. apply (cinv_held_fresh _ _ _ _ Hi') in H0 as [[_ H0] _]. lia.
  - destruct Hr as (m' & E & Hp & _). exists p, m'. split; [done|]. split.
    + intros Hin. apply (cinv_held_fresh _ _ _ _ Hi') in Hin as [_ Hin]. set_solver.
    + simpl in Hlen. split; [done|lia].
Qed.
End Clients.

(** Two pages: one is allocated, written and freed again, then allocated. *)
Definition two_pages : machine :=
  mk_machine (mk_hart 0 2 0 0 None) {[Lk_kmem := mk_spinlock 0 "kmem" None]}
    (store64 ∅ (PHYSTOP - 8192) (PHYSTOP - 4096)) (PHYSTOP - 8192) [] None 1 0.

Lemma two_pages_inv : kmem_inv (PHYSTOP - 8192) two_pages [PHYSTOP - 8192; PHYSTOP - 4096].
Proof.
  split.
  - vm_compute. auto.
  - apply NoDup_cons. split; [|apply NoDup_singleton].
    rewrite list_elem_of_singleton. vm_compute. discriminate.
  - repeat constructor; vm_compute; congruence.
Qed.

Definition one_held : cstate :=
  mk_cstate (with_mem (fun mm => memset mm (PHYSTOP - 8192) 5 PGSIZE)
       (settle (set_m_freelist (load64 (m_mem two_pages) (PHYSTOP - 8192)) two_pages)))
    [PHYSTOP - 8192].

Lemma two_pages_alloc : cstep (PHYSTOP - 8192) (mk_cstate two_pages []) one_held.
Proof.
  apply cstep_alloc; [|done]. apply kalloc_cons; [split; cbn; lia| |done|done].
  by exists "kmem"%string.
Qed.

Lemma pages_conserved_witness :
  exists free, kmem_inv (PHYSTOP - 8192) (c_m one_held) free /\
    c_held one_held ++ free ≡ₚ [PHYSTOP - 8192; PHYSTOP - 4096].
Proof.
  destruct (pages_conserved (PHYSTOP - 8192) eq_refl two_pages
              [PHYSTOP - 8192; PHYSTOP - 4096] one_held) as (free & H1 & H2 & _).
  - split; cbn; lia.
  - by exists "kmem"%string.
  - exact two_pages_inv.
  - apply rtc_once, two_pages_alloc.
  - exists free. split; [exact H1|exact H2].
Defined.
End Clients.
