(* ===== verification/Vm.v ===== *)
(** * kernel/vm.c: the Sv39 page tables

    The operations of vm.c on the physical memory of [machine].  A kernel-side
    buffer that is handed to [copyout] or filled by [copyin] and [copyinstr] is
    a list of bytes; user memory is reached through the page table. *)
From stdpp Require Import gmap list strings.
From S2P Require Import Prelude Kstring Abi Machine Spinlock Kalloc.

Definition load_word (a : Z) : M machine Z := reads (fun m => load64 (m_mem m) a).
Definition store_word (a v : Z) : M machine unit :=
  modify (with_mem (fun mm => store64 mm a v)).
Definition zero_page (pa : Z) : M machine unit :=
  modify (with_mem (fun mm => memset mm pa 0 PGSIZE)).

Definition valid (pte : Z) : bool := negb (Z.land pte PTE_V =? 0).

(** One descent of [walk], from the table of [level] to that of level 0. *)
Fixpoint walk_loop (level : nat) (pagetable va : Z) (alloc : bool) : M machine Z :=
  match level with
  | O => ret (pagetable + 8 * PX 0 va)
  | S lower =>
      let pte := pagetable + 8 * PX (Z.of_nat level) va in
      v <- load_word pte ;;
      if valid v then walk_loop lower (PTE2PA v) va alloc
      else if negb alloc then ret 0 else
      page <- kalloc ;;
      if page =? 0 then ret 0 else
      zero_page page ;;;
      store_word pte (Z.lor (PA2PTE page) PTE_V) ;;;
      walk_loop lower page va alloc
  end.

Definition walk (pagetable va : Z) (alloc : bool) : M machine Z :=
  if va >=? MAXVA then panic "walk" else walk_loop 2 pagetable va alloc.

Definition walkaddr (pagetable va : Z) : M machine Z :=
  if va >=? MAXVA then ret 0 else
  pte <- walk pagetable va false ;;
  if pte =? 0 then ret 0 else
  v <- load_word pte ;;
  if negb (valid v) then ret 0 else
  if Z.land v PTE_U =? 0 then ret 0 else
  ret (PTE2PA v).

Fixpoint mappages_loop (fuel : nat) (pagetable a last pa perm : Z) : M machine Z :=
  match fuel with
  | O => hang
  | S fuel =>
      pte <- walk pagetable a true ;;
      if pte =? 0 then ret (-1) else
      v <- load_word pte ;;
      if valid v then panic "mappages: remap" else
      store_word pte (Z.lor (Z.lor (PA2PTE pa) perm) PTE_V) ;;;
      if a =? last then ret 0
      else mappages_loop fuel pagetable (u64 (a + PGSIZE)) last (u64 (pa + PGSIZE)) perm
  end.

(** From the first to the last page of the range; when the range wraps around,
    the loop runs into the panic of [walk] at [MAXVA]. *)
Definition mappages_fuel (a last : Z) : nat :=
  Z.to_nat (if a <=? last then (last - a) / PGSIZE + 1 else MAXVA / PGSIZE + 1).

Definition mappages (pagetable va size pa perm : Z) : M machine Z :=
  if size =? 0 then panic "mappages: size" else
  let a := PGROUNDDOWN va in
  let last := PGROUNDDOWN (u64 (va + size - 1)) in
  mappages_loop (mappages_fuel a last) pagetable a last pa perm.

Definition kvmmap (kpgtbl va pa sz perm : Z) : M machine unit :=
  r <- mappages kpgtbl va sz pa perm ;;
  if negb (r =? 0) then panic "kvmmap" else ret tt.

Section Vm.
Variable kend : Z.

Fixpoint uvmunmap_loop (fuel : nat) (pagetable a last : Z) (do_free : bool)
    : M machine unit :=
  if negb (a <? last) then ret tt else
  match fuel with
  | O => hang
  | S fuel =>
      pte <- walk pagetable a false ;;
      if pte =? 0 then panic "uvmunmap: walk" else
      v <- load_word pte ;;
      if negb (valid v) then panic "uvmunmap: not mapped" else
      if PTE_FLAGS v =? PTE_V then panic "uvmunmap: not a leaf" else
      when do_free (kfree kend (PTE2PA v)) ;;;
      store_word pte 0 ;;;
      uvmunmap_loop fuel pagetable (u64 (a + PGSIZE)) last do_free
  end.

Definition uvmunmap (pagetable va npages : Z) (do_free : bool) : M machine unit :=
  if negb (va mod PGSIZE =? 0) then panic "uvmunmap: not aligned" else
  uvmunmap_loop (Z.to_nat npages) pagetable va (u64 (va + npages * PGSIZE)) do_free.

Definition uvmcreate : M machine Z :=
  pagetable <- kalloc ;;
  if pagetable =? 0 then ret 0 else
  zero_page pagetable ;;;
  ret pagetable.

(** [src] holds the first [sz] bytes of the program. *)
Definition uvminit (pagetable : Z) (src : list Z) : M machine unit :=
  if Z.of_nat (length src) >=? PGSIZE then panic "inituvm: more than a page" else
  page <- kalloc ;;
  zero_page page ;;;
  mappages pagetable 0 PGSIZE page
    (Z.lor (Z.lor (Z.lor PTE_W PTE_R) PTE_X) PTE_U) ;;;
  modify (with_mem (fun mm => mwrite mm page src)).

Definition uvmdealloc (pagetable oldsz newsz : Z) : M machine Z :=
  if newsz >=? oldsz then ret oldsz else
  (if PGROUNDUP newsz <? PGROUNDUP oldsz
   then let npages := i32 ((PGROUNDUP oldsz - PGROUNDUP newsz) / PGSIZE) in
        uvmunmap pagetable (PGROUNDUP newsz) (u64 npages) true
   else ret tt) ;;;
  ret newsz.

Definition PTE_WXRU : Z := Z.lor (Z.lor (Z.lor PTE_W PTE_X) PTE_R) PTE_U.

Fixpoint uvmalloc_loop (fuel : nat) (pagetable oldsz a newsz : Z) : M machine Z :=
  if negb (a <? newsz) then ret newsz else
  match fuel with
  | O => hang
  | S fuel =>
      page <- kalloc ;;
      if page =? 0 then uvmdealloc pagetable a oldsz ;;; ret 0 else
      zero_page page ;;;
      r <- mappages pagetable a PGSIZE page PTE_WXRU ;;
      if negb (r =? 0)
      then kfree kend page ;;; uvmdealloc pagetable a oldsz ;;; ret 0
      else uvmalloc_loop fuel pagetable oldsz (u64 (a + PGSIZE)) newsz
  end.

Definition uvmalloc (pagetable oldsz newsz : Z) : M machine Z :=
  if newsz <? oldsz then ret oldsz else
  let oldsz := PGROUNDUP oldsz in
  uvmalloc_loop (S (Z.to_nat ((newsz - oldsz) / PGSIZE))) pagetable oldsz oldsz newsz.

(** [depth] bounds the recursion; three levels are enough for a page table. *)
Fixpoint freewalk (depth : nat) (pagetable : Z) : M machine unit :=
  match depth with
  | O => hang
  | S depth =>
      for_upto 512 0 (fun i =>
        pte <- load_word (pagetable + 8 * i) ;;
        if valid pte && (Z.land pte (Z.lor (Z.lor PTE_R PTE_W) PTE_X) =? 0)
        then freewalk depth (PTE2PA pte) ;;; store_word (pagetable + 8 * i) 0
        else if valid pte then panic "freewalk: leaf" else ret tt) ;;;
      kfree kend pagetable
  end.

Definition uvmfree (pagetable sz : Z) : M machine unit :=
  when (sz >? 0) (uvmunmap pagetable 0 (PGROUNDUP sz / PGSIZE) true) ;;;
  freewalk 3 pagetable.

Fixpoint uvmcopy_loop (fuel : nat) (old new i sz : Z) : M machine Z :=
  if negb (i <? sz) then ret 0 else
  match fuel with
  | O => hang
  | S fuel =>
      pte <- walk old i false ;;
      if pte =? 0 then panic "uvmcopy: pte should exist" else
      v <- load_word pte ;;
      if negb (valid v) then panic "uvmcopy: page not present" else
      let pa := PTE2PA v in
      let flags := PTE_FLAGS v in
      page <- kalloc ;;
      if page =? 0 then uvmunmap new 0 (i / PGSIZE) true ;;; ret (-1) else
      modify (with_mem (fun mm => memmove mm page pa PGSIZE)) ;;;
      r <- mappages new i PGSIZE page flags ;;
      if negb (r =? 0)
      then kfree kend page ;;; uvmunmap new 0 (i / PGSIZE) true ;;; ret (-1)
      else uvmcopy_loop fuel old new (u64 (i + PGSIZE)) sz
  end.

Definition uvmcopy (old new sz : Z) : M machine Z :=
  uvmcopy_loop (S (Z.to_nat (sz / PGSIZE))) old new 0 sz.

Definition uvmclear (pagetable va : Z) : M machine unit :=
  pte <- walk pagetable va false ;;
  if pte =? 0 then panic "uvmclear" else
  v <- load_word pte ;;
  store_word pte (Z.land v (Z.lnot PTE_U)).
End Vm.

(** ** Copying between kernel and user memory *)

(** The bytes of the page of [va] from [va] on. *)
Definition page_rest (va : Z) : Z := PGSIZE - (va - PGROUNDDOWN va).

Fixpoint copyout_loop (fuel : nat) (pagetable dstva : Z) (src : list Z) : M machine Z :=
  if Z.of_nat (length src) <=? 0 then ret 0 else
  match fuel with
  | O => hang
  | S fuel =>
      let va0 := PGROUNDDOWN dstva in
      pa0 <- walkaddr pagetable va0 ;;
      if pa0 =? 0 then ret (-1) else
      let n := Z.to_nat (Z.min (page_rest dstva) (Z.of_nat (length src))) in
      modify (with_mem (fun mm => mwrite mm (pa0 + (dstva - va0)) (take n src))) ;;;
      copyout_loop fuel pagetable (u64 (va0 + PGSIZE)) (drop n src)
  end.

Definition copyout (pagetable dstva : Z) (src : list Z) : M machine Z :=
  copyout_loop (length src) pagetable dstva src.

(** [copyin] returns its code and the bytes stored in [dst]. *)
Fixpoint copyin_loop (fuel : nat) (pagetable srcva len : Z) (dst : list Z)
    : M machine (Z * list Z) :=
  if len <=? 0 then ret (0, dst) else
  match fuel with
  | O => hang
  | S fuel =>
      let va0 := PGROUNDDOWN srcva in
      pa0 <- walkaddr pagetable va0 ;;
      if pa0 =? 0 then ret (-1, dst) else
      let n := Z.min (page_rest srcva) len in
      bytes <- reads (fun m => mread (m_mem m) (pa0 + (srcva - va0)) (Z.to_nat n)) ;;
      copyin_loop fuel pagetable (u64 (va0 + PGSIZE)) (len - n) (dst ++ bytes)
  end.

Definition copyin (pagetable srcva len : Z) : M machine (Z * list Z) :=
  copyin_loop (Z.to_nat len) pagetable srcva len [].

(** The inner loop of [copyinstr] on the [n] bytes at [p]: the bytes copied, the
    terminating NUL included, and whether one was found. *)
Fixpoint copy_until_nul (n : nat) (mm : mem) (p : Z) : list Z * bool :=
  match n with
  | O => ([], false)
  | S n =>
      if mget mm p =? 0 then ([0], true)
      else let '(bs, nul) := copy_until_nul n mm (p + 1) in (mget mm p :: bs, nul)
  end.

Fixpoint copyinstr_loop (fuel : nat) (pagetable srcva max : Z) (dst : list Z)
    : M machine (Z * list Z) :=
  if max <=? 0 then ret (-1, dst) else
  match fuel with
  | O => hang
  | S fuel =>
      let va0 := PGROUNDDOWN srcva in
      pa0 <- walkaddr pagetable va0 ;;
      if pa0 =? 0 then ret (-1, dst) else
      let n := Z.min (page_rest srcva) max in
      r <- reads (fun m => copy_until_nul (Z.to_nat n) (m_mem m) (pa0 + (srcva - va0))) ;;
      let '(bytes, got_null) := r in
      if got_null : bool then ret (0, dst ++ bytes)
      else copyinstr_loop fuel pagetable (u64 (va0 + PGSIZE)) (max - n) (dst ++ bytes)
  end.

Definition copyinstr (pagetable srcva max : Z) : M machine (Z * list Z) :=
  copyinstr_loop (Z.to_nat max) pagetable srcva max [].
