(* ===== verification/PageTable.v ===== *)
(** * The page tables of vm.c as a map from virtual pages to entries

    [pt_rep mm root tbl] relates the tables in memory to a ghost map [tbl] of
    the table pages: [tbl !! (l, x)] is the page of the level-[l] table that
    covers the virtual pages [n] with [n / 512 ^ (l + 1) = x].  The tables form a
    tree of distinct pages; [leaf mm tbl n] is the entry of virtual page [n]. *)
From stdpp Require Import gmap list strings.
From S2P Require Import Prelude Kstring Abi Machine Spinlock Kalloc Vm.

(** ** Page-table entries *)

Lemma valid_testbit v : valid v = Z.testbit v 0.
Proof.
  unfold valid. change PTE_V with (Z.ones 1). rewrite Z.land_ones by lia.
  rewrite Z.bit0_odd, Zmod_odd. by destruct (Z.odd v).
Qed.

Lemma valid_lor_V v : valid (Z.lor v PTE_V) = true.
Proof. rewrite valid_testbit, Z.lor_spec. by rewrite orb_true_r. Qed.

Lemma valid_0 : valid 0 = false.
Proof. reflexivity. Qed.

(** An address the kernel can put in an entry. *)
Definition pa_ok (pa : Z) : Prop := pa mod 4096 = 0 /\ 0 <= pa < 2 ^ 56.

Lemma page_ok_pa kend p : 0 < kend -> page_ok kend p -> pa_ok p.
Proof. intros Hk [H1 H2]. split; [done|]. unfold PHYSTOP, KERNBASE in H2. lia. Qed.

Lemma PA2PTE_eq pa : pa_ok pa -> PA2PTE pa = pa / 4096 * 1024.
Proof.
  intros [H1 H2]. unfold PA2PTE, u64.
  rewrite Z.shiftl_mul_pow2, Z.shiftr_div_pow2 by lia. apply Z.mod_small. dlia.
Qed.

Lemma pte_word pa f :
  pa_ok pa -> 0 <= f < 1024 -> Z.lor (PA2PTE pa) f = pa / 4096 * 1024 + f.
Proof.
  intros Hpa Hf. rewrite PA2PTE_eq by done.
  assert (Hand : Z.land (pa / 4096 * 1024) f = 0).
  { apply Z.bits_inj'. intros i Hi. rewrite Z.land_spec, Z.bits_0.
    change 1024 with (2 ^ 10). rewrite Z.mul_pow2_bits by lia.
    destruct (Z.ltb_spec i 10); [by rewrite Z.testbit_neg_r by lia|].
    rewrite <- (Z.mod_small f (2 ^ 10)) by lia.
    rewrite Z.mod_pow2_bits_high by lia. apply andb_false_r. }
  by rewrite Z.add_nocarry_lxor, Z.lxor_lor.
Qed.

Lemma PTE2PA_pte pa f :
  pa_ok pa -> 0 <= f < 1024 -> PTE2PA (Z.lor (PA2PTE pa) f) = pa.
Proof.
  intros Hpa Hf. rewrite pte_word by done. unfold PTE2PA, u64.
  rewrite Z.shiftl_mul_pow2, Z.shiftr_div_pow2 by lia.
  change (2 ^ 10) with 1024. change (2 ^ 12) with 4096.
  rewrite Z.div_add_l, (Z.div_small f) by lia. destruct Hpa. rewrite Z.mod_small; dlia.
Qed.

Lemma pte_u64 pa f :
  pa_ok pa -> 0 <= f < 1024 -> u64 (Z.lor (PA2PTE pa) f) = Z.lor (PA2PTE pa) f.
Proof. intros Hpa Hf. rewrite pte_word by done. destruct Hpa. apply Z.mod_small. dlia. Qed.

Lemma PTE_FLAGS_pte pa f :
  pa_ok pa -> 0 <= f < 1024 -> PTE_FLAGS (Z.lor (PA2PTE pa) f) = f.
Proof.
  intros Hpa Hf. rewrite pte_word by done. unfold PTE_FLAGS.
  change 0x3FF with (Z.ones 10). rewrite Z.land_ones by lia.
  change (2 ^ 10) with 1024. rewrite Z.add_comm, Z.mod_add by lia. by apply Z.mod_small.
Qed.

(** ** Indices *)

Definition vpn (va : Z) : Z := va / 4096.
Definition idx (l : nat) (n : Z) : Z := n / 512 ^ Z.of_nat l mod 512.
Definition prefix (l : nat) (n : Z) : Z := n / 512 ^ Z.of_nat (S l).

Lemma PX_idx l va : PX (Z.of_nat l) va = idx l (vpn va).
Proof.
  unfold PX, PXSHIFT, PXMASK, PGSHIFT, idx, vpn. change 0x1FF with (Z.ones 9).
  rewrite Z.land_ones, Z.shiftr_div_pow2 by lia.
  rewrite Z.pow_add_r, Z.pow_mul_r by lia. change (2 ^ 9) with 512. change (2 ^ 12) with 4096.
  by rewrite <- Z.div_div by lia.
Qed.

Lemma idx_bound l n : 0 <= idx l n < 512.
Proof. apply Z.mod_pos_bound. lia. Qed.

Lemma prefix_step l n : prefix l n = prefix (S l) n * 512 + idx (S l) n.
Proof.
  unfold prefix, idx. rewrite !Nat2Z.inj_succ.
  replace (512 ^ Z.succ (Z.succ (Z.of_nat l))) with (512 ^ Z.succ (Z.of_nat l) * 512)
    by (rewrite (Z.pow_succ_r 512 (Z.succ (Z.of_nat l))) by lia; lia).
  rewrite <- Z.div_div by lia.
  pose proof (Z.div_mod (n / 512 ^ Z.succ (Z.of_nat l)) 512). lia.
Qed.

Lemma prefix_up l n : prefix l n / 512 = prefix (S l) n.
Proof.
  rewrite prefix_step, Z.div_add_l by lia.
  rewrite (Z.div_small (idx _ _)) by apply idx_bound. lia.
Qed.

Lemma prefix_root n : 0 <= n < 2 ^ 26 -> prefix 2 n = 0.
Proof. intros H. unfold prefix. apply Z.div_small. change (512 ^ Z.of_nat 3) with (2 ^ 27). lia. Qed.

Lemma vpn_bound va : 0 <= va < MAXVA -> 0 <= vpn va < 2 ^ 26.
Proof. unfold vpn. change MAXVA with (2 ^ 38). intros H. dlia. Qed.

(** ** The tables *)

Abbreviation tables := (gmap (nat * Z) Z).

Section PageTable.
Variable kend : Z.
Hypothesis kend_pos : 0 < kend.

Record pt_rep (mm : mem) (root : Z) (tbl : tables) : Prop := {
  pr_root : tbl !! (2%nat, 0) = Some root;
  pr_inj : forall k k' p, tbl !! k = Some p -> tbl !! k' = Some p -> k = k';
  pr_page : forall k p, tbl !! k = Some p -> page_ok kend p;
  pr_level : forall l y q, tbl !! (l, y) = Some q -> (l <= 2)%nat;
  pr_parent : forall l y q, tbl !! (l, y) = Some q ->
    (l = 2%nat /\ y = 0) \/ exists p, tbl !! (S l, y / 512) = Some p;
  pr_child : forall l x p i, tbl !! (S l, x) = Some p -> 0 <= i < 512 ->
    match tbl !! (l, x * 512 + i) with
    | Some q => load64 mm (p + 8 * i) = Z.lor (PA2PTE q) PTE_V
    | None => valid (load64 mm (p + 8 * i)) = false
    end
}.

Definition leaf (mm : mem) (tbl : tables) (n : Z) : Z :=
  match tbl !! (0%nat, prefix 0 n) with
  | Some p => load64 mm (p + 8 * idx 0 n)
  | None => 0
  end.

(** The address of the entry of virtual page [n]. *)
Definition slot (tbl : tables) (n : Z) : option Z :=
  (fun p => p + 8 * idx 0 n) <$> tbl !! (0%nat, prefix 0 n).

(** [mm'] differs from [mm] only in the page [p]. *)
Definition page_change (p : Z) (mm mm' : mem) : Prop :=
  forall a, a < p \/ p + 4096 <= a -> mget mm' a = mget mm a.

Lemma page_change_load p q mm mm' i :
  page_ok kend p -> page_ok kend q -> p <> q -> page_change p mm mm' -> 0 <= i < 512 ->
  load64 mm' (q + 8 * i) = load64 mm (q + 8 * i).
Proof.
  intros Hp Hq Hne Hc Hi. apply load64_ext. intros j Hj. apply Hc.
  destruct (page_disjoint kend p q Hp Hq Hne); lia.
Qed.

Lemma page_change_trans p mm1 mm2 mm3 :
  page_change p mm1 mm2 -> page_change p mm2 mm3 -> page_change p mm1 mm3.
Proof. intros H1 H2 a Ha. rewrite H2, H1; done. Qed.

Lemma page_change_memset p c mm : page_change p mm (memset mm p c PGSIZE).
Proof.
  intros a Ha. rewrite mget_memset by (unfold PGSIZE; lia). unfold PGSIZE. zcase; try done; lia.
Qed.

Lemma page_change_store p mm i v : 0 <= i < 512 -> page_change p mm (store64 mm (p + 8 * i) v).
Proof. intros Hi a Ha. apply mget_store64_out. lia. Qed.

Lemma load64_zero_page p mm i : 0 <= i < 512 -> load64 (memset mm p 0 PGSIZE) (p + 8 * i) = 0.
Proof.
  intros Hi. apply load64_zero. intros j Hj. rewrite mget_memset by (unfold PGSIZE; lia).
  unfold PGSIZE. zcase; try done; lia.
Qed.

(** A change outside the tables is invisible to them. *)
Lemma pt_rep_frame mm mm' root tbl :
  (forall k p i, tbl !! k = Some p -> 0 <= i < 512 ->
     load64 mm' (p + 8 * i) = load64 mm (p + 8 * i)) ->
  pt_rep mm root tbl -> pt_rep mm' root tbl.
Proof.
  intros Hf [H1 H2 H3 H4 H5 H6]. split; try done.
  intros l x p i Hp Hi. rewrite (Hf _ _ _ Hp Hi). by apply H6.
Qed.

Lemma leaf_frame mm mm' tbl n :
  (forall k p i, tbl !! k = Some p -> 0 <= i < 512 ->
     load64 mm' (p + 8 * i) = load64 mm (p + 8 * i)) ->
  leaf mm' tbl n = leaf mm tbl n.
Proof.
  intros Hf. unfold leaf. destruct (tbl !! _) as [p|] eqn:E; [|done].
  apply (Hf _ _ _ E), idx_bound.
Qed.

Lemma slot_leaf mm tbl n a : slot tbl n = Some a -> leaf mm tbl n = load64 mm a.
Proof.
  unfold slot, leaf. destruct (tbl !! _); simpl; intros E; [|done]. by injection E as <-.
Qed.

Lemma no_slot_leaf mm tbl n : slot tbl n = None -> leaf mm tbl n = 0.
Proof. unfold slot, leaf. by destruct (tbl !! _). Qed.

(** Without the table of some level there is no entry. *)
Lemma slot_none mm root tbl l n :
  pt_rep mm root tbl -> (l <= 1)%nat -> tbl !! (l, prefix l n) = None -> slot tbl n = None.
Proof.
  intros Hr Hl Hn. unfold slot. destruct (tbl !! (0%nat, prefix 0 n)) as [p|] eqn:E; [|done].
  exfalso. destruct l as [|[|l]]; [congruence| |lia].
  destruct (pr_parent _ _ _ Hr _ _ _ E) as [[? _]|[q Hq]]; [done|].
  rewrite prefix_up in Hq. congruence.
Qed.

Lemma walk_loop_noalloc m root tbl va : forall l pt,
  pt_rep (m_mem m) root tbl -> (l <= 2)%nat -> tbl !! (l, prefix l (vpn va)) = Some pt ->
  walk_loop l pt va false m = Ok (default 0 (slot tbl (vpn va))) m.
Proof.
  induction l as [|l IH]; intros pt Hr Hl Hpt; cbn [walk_loop].
  - unfold ret, slot. rewrite Hpt. change 0 with (Z.of_nat 0) at 1. by rewrite PX_idx.
  - rewrite PX_idx. unfold load_word. mgo.
    pose proof (pr_child _ _ _ Hr l _ pt _ Hpt (idx_bound (S l) (vpn va))) as Hc.
    rewrite <- prefix_step in Hc. destruct (tbl !! (l, _)) as [q|] eqn:E.
    + rewrite Hc, valid_lor_V.
      rewrite PTE2PA_pte by (try done; eapply page_ok_pa, pr_page; eauto).
      apply IH; [done|lia|done].
    + rewrite Hc. cbn [negb]. rewrite (slot_none (m_mem m) root tbl l) by (done || lia). done.
Qed.

Lemma walk_noalloc m root tbl va :
  pt_rep (m_mem m) root tbl -> 0 <= va < MAXVA ->
  walk root va false m = Ok (default 0 (slot tbl (vpn va))) m.
Proof.
  intros Hr Hva. unfold walk. rewrite Z.geb_leb. destruct (Z.leb_spec MAXVA va); [lia|].
  eapply walk_loop_noalloc; [done|lia|]. rewrite prefix_root by by apply vpn_bound. apply Hr.
Qed.

(** ** Allocating tables *)

(** [m'] differs from [m] in its memory, free list and the [intena] that a
    critical section records. *)
Definition same_rest (m m' : machine) : Prop :=
  m' = set_m_hart (m_hart m') (set_m_freelist (m_freelist m') (set_m_mem (m_mem m') m)) /\
  (m_hart m' = m_hart m \/ m_hart m' = cpu_settle (m_hart m)).

Lemma same_rest_refl m : same_rest m m.
Proof. split; [by destruct m|by left]. Qed.

Lemma cpu_settle_settle h : cpu_settle (cpu_settle h) = cpu_settle h.
Proof.
  unfold cpu_settle. destruct (Z.eqb_spec (h_noff h) 0) as [E|E]; cbn.
  - rewrite E. cbn. unfold sie. cbn. done.
  - by rewrite (proj2 (Z.eqb_neq _ _) E).
Qed.

Lemma same_rest_trans m1 m2 m3 : same_rest m1 m2 -> same_rest m2 m3 -> same_rest m1 m3.
Proof.
  intros [E1 H1] [E2 H2]. split.
  - rewrite E2 at 1. rewrite E1. reflexivity.
  - destruct H2 as [->| ->], H1 as [->| ->]; rewrite ?cpu_settle_settle; auto.
Qed.

Lemma same_rest_mem f m : same_rest m (with_mem f m).
Proof. split; [by destruct m|by left]. Qed.

Lemma same_rest_freelist f m : same_rest m (settle (set_m_freelist f m)).
Proof. split; [by destruct m|by right]. Qed.

(** Memory outside the pages of [P] is unchanged. *)
Definition untouched (P : Z -> Prop) (mm mm' : mem) : Prop :=
  forall a, (forall p, P p -> a < p \/ p + 4096 <= a) -> mget mm' a = mget mm a.

Lemma untouched_refl P mm : untouched P mm mm.
Proof. done. Qed.

Lemma untouched_trans P mm1 mm2 mm3 :
  untouched P mm1 mm2 -> untouched P mm2 mm3 -> untouched P mm1 mm3.
Proof. intros H1 H2 a Ha. rewrite H2, H1; done. Qed.

Lemma untouched_mono (P Q : Z -> Prop) mm mm' :
  (forall p, P p -> Q p) -> untouched P mm mm' -> untouched Q mm mm'.
Proof. intros H H1 a Ha. apply H1. auto. Qed.

Lemma page_change_untouched (P : Z -> Prop) p mm mm' :
  P p -> page_change p mm mm' -> untouched P mm mm'.
Proof. intros Hp Hc a Ha. apply Hc, Ha, Hp. Qed.

(** The pages of the tables. *)
Definition table_page (tbl : tables) (p : Z) : Prop := exists k, tbl !! k = Some p.

Record vm_inv (m : machine) (free : list Z) (root : Z) (tbl : tables) : Prop := {
  vi_hart : hart_ok m;
  vi_lock : unlocked Lk_kmem m;
  vi_kmem : kmem_inv kend m free;
  vi_rep : pt_rep (m_mem m) root tbl;
  vi_fresh : forall p, table_page tbl p -> ~ (p ∈ free)
}.

(** A table that is not there has no tables below it. *)
Lemma pt_rep_no_child mm root tbl l n i : pt_rep mm root tbl -> (l <= 1)%nat -> tbl !! (S l, prefix (S l) n) = None -> 0 <= i < 512 ->
  tbl !! (l, prefix (S l) n * 512 + i) = None.
Proof.
  intros Hr Hl Hnone Hi. destruct (tbl !! (l, prefix (S l) n * 512 + i)) as [q|] eqn:Eq; [exfalso|done].
  destruct (pr_parent _ _ _ Hr _ _ _ Eq) as [[? _]|[p Hp]]; [lia|]. rewrite Z.div_add_l, (Z.div_small i), Z.add_0_r in Hp by lia. congruence.
Qed.

(** Linking a zeroed page [page] below the entry [idx] of the table [pt]. *)
Section Link.
Context {mm mm' : mem} {root : Z} {tbl : tables} {l : nat} {n pt page : Z}.
Context (Hr : pt_rep mm root tbl) (Hl : (l <= 1)%nat) (Hpt : tbl !! (S l, prefix (S l) n) = Some pt).
Context (Hnone : tbl !! (l, prefix l n) = None) (Hpage : page_ok kend page) (Hfresh : ~ table_page tbl page).
Context (Hch : page_change page mm mm') (Hzero : forall i, 0 <= i < 512 -> load64 mm' (page + 8 * i) = 0).
Notation mm2 := (store64 mm' (pt + 8 * idx (S l) n) (Z.lor (PA2PTE page) PTE_V)).
Notation tbl2 := (<[(l, prefix l n) := page]> tbl).

Lemma link_load k q i : tbl !! k = Some q -> 0 <= i < 512 ->
  load64 mm2 (q + 8 * i) = if decide (q = pt /\ i = idx (S l) n) then Z.lor (PA2PTE page) PTE_V else load64 mm (q + 8 * i).
Proof.
  intros Hq Hi. assert (Hqne : page <> q) by (intros ->; apply Hfresh; by eexists). pose proof (pr_page _ _ _ Hr _ _ Hq) as Hqok.
  rewrite <- (page_change_load page q mm mm' i) by done. destruct (decide (q = pt)) as [->|Hne].
  - destruct (decide (i = idx (S l) n)) as [->|Hine].
    + rewrite decide_True by done. rewrite load64_store64. apply pte_u64; [by eapply page_ok_pa|]. done.
    + rewrite decide_False by tauto. apply load64_store64_out. pose proof (idx_bound (S l) n). lia.
  - rewrite decide_False by tauto. apply (page_change_load pt); try done; [by eapply pr_page|]. apply page_change_store, idx_bound.
Qed.

Lemma link_zero i : 0 <= i < 512 -> load64 mm2 (page + 8 * i) = 0.
Proof.
  intros Hi. rewrite <- (Hzero i Hi). apply (page_change_load pt page); try done; [by eapply pr_page|intros <-; apply Hfresh; by eexists|apply page_change_store, idx_bound].
Qed.

Lemma link_child l' x p i : tbl2 !! (S l', x) = Some p -> 0 <= i < 512 ->
  match tbl2 !! (l', x * 512 + i) with
  | Some q => load64 mm2 (p + 8 * i) = Z.lor (PA2PTE q) PTE_V
  | None => valid (load64 mm2 (p + 8 * i)) = false
  end.
Proof.
  intros [[E <-]|[_ Hp]]%lookup_insert_Some Hi.
  - rewrite link_zero by done. injection E as -> <-. rewrite lookup_insert_ne by (intros [=]; lia). by rewrite (pt_rep_no_child _ _ _ l' n i Hr ltac:(lia) Hnone Hi).
  - rewrite (link_load _ _ _ Hp Hi). pose proof (pr_child _ _ _ Hr _ _ _ _ Hp Hi) as Hc. destruct (decide (p = pt /\ i = idx (S l) n)) as [[-> ->]|Hne].
    + pose proof (pr_inj _ _ _ Hr _ _ _ Hp Hpt) as E. injection E as -> ->. rewrite <- prefix_step. by rewrite lookup_insert_eq.
    + rewrite lookup_insert_ne; [done|]. intros [= <- E]. apply Hne. assert (x = prefix (S l) n).
      { rewrite <- prefix_up, E, Z.div_add_l, (Z.div_small i) by lia. lia. }
      subst x. split; [congruence|]. rewrite prefix_step in E. lia.
Qed.

Lemma pt_rep_link : pt_rep mm2 root tbl2 /\ forall j, leaf mm2 tbl2 j = leaf mm tbl j.
Proof.
  split; [split|].
  - rewrite lookup_insert_ne; [apply Hr|]. intros [=]. lia.
  - intros k k' p Hk Hk'. apply lookup_insert_Some in Hk, Hk'.
    destruct Hk as [[<- <-]|[Hk1 Hk]], Hk' as [[<- E]|[Hk1' Hk']]; try done.
    + destruct Hfresh. by eexists.
    + subst. destruct Hfresh. by eexists.
    + by apply (pr_inj _ _ _ Hr k k' p).
  - intros k p Hk. apply lookup_insert_Some in Hk.
    destruct Hk as [[_ <-]|[_ Hk]]; [done|]. by eapply pr_page.
  - intros l' y q [[[= <- <-] _]|[_ Hq]]%lookup_insert_Some; [lia|]. by eapply (pr_level _ _ _ Hr).
  - intros l' y q Hq. apply lookup_insert_Some in Hq.
    destruct Hq as [[E <-]|[_ Hq]].
    + injection E as <- <-. right. rewrite prefix_up.
      exists pt. rewrite lookup_insert_ne; [done|]. intros [=]. lia.
    + destruct (pr_parent _ _ _ Hr _ _ _ Hq) as [?|[p Hp]]; [by left|right].
      destruct (decide ((l, prefix l n) = (S l', y / 512))) as [E|E].
      * exists page. rewrite <- E. by rewrite lookup_insert_eq.
      * exists p. by rewrite lookup_insert_ne.
  - apply link_child.
  - intros j. unfold leaf.
    destruct (decide ((l, prefix l n) = (0%nat, prefix 0 j))) as [E|E].
    + rewrite E, lookup_insert_eq, link_zero by apply idx_bound. by rewrite <- E, Hnone.
    + rewrite lookup_insert_ne by done. destruct (tbl !! (0%nat, prefix 0 j)) as [q|] eqn:Eq; [|done].
      rewrite (link_load _ _ _ Eq (idx_bound 0 j)). rewrite decide_False; [done|].
      intros [-> _]. pose proof (pr_inj _ _ _ Hr _ _ _ Eq Hpt). done.
Qed.
End Link.

(** ** Allocating tables on the way down *)

Lemma untouched_load (P : Z -> Prop) mm mm' q i :
  untouched P mm mm' -> (forall p, P p -> page_ok kend p /\ p <> q) -> page_ok kend q ->
  0 <= i < 512 -> load64 mm' (q + 8 * i) = load64 mm (q + 8 * i).
Proof.
  intros Hu HP Hq Hi. apply load64_ext. intros j Hj. apply Hu. intros p Hp.
  destruct (HP p Hp) as [Hok Hne]. destruct (page_disjoint kend p q Hok Hq Hne); lia.
Qed.

Lemma kmem_inv_untouched (P : Z -> Prop) m m' l :
  kmem_inv kend m l -> m_freelist m' = m_freelist m ->
  untouched P (m_mem m) (m_mem m') ->
  (forall p, P p -> page_ok kend p /\ ~ (p ∈ l)) -> kmem_inv kend m' l.
Proof.
  intros [Hl Hnd Hpg] Hfl Hu HP. split; [|done|done]. rewrite Hfl.
  eapply is_freelist_ext; [exact kend_pos| |exact Hl]. intros q Hq. rewrite Forall_forall in Hpg.
  replace q with (q + 8 * 0) by lia. eapply untouched_load; [exact Hu| |by apply Hpg|lia].
  intros p Hp. destruct (HP p Hp). split; [done|]. by intros ->.
Qed.

(** The pages that an operation on the tables may write. *)
Definition owned (free : list Z) (tbl : tables) (p : Z) : Prop := p ∈ free \/ table_page tbl p.

Lemma owned_page_ok m free root tbl p : vm_inv m free root tbl -> owned free tbl p -> page_ok kend p.
Proof.
  intros Hv [Hp|[k Hk]].
  - pose proof (kmem_pages _ _ _ (vi_kmem _ _ _ _ Hv)) as Hf. rewrite Forall_forall in Hf. auto.
  - eapply pr_page; [apply Hv|done].
Qed.

(** What an operation that owns the pages [F] may change; it then owns [F']. *)
Record change (F F' : Z -> Prop) (m m' : machine) : Prop := {
  ch_rest : same_rest m m';
  ch_mem : untouched F (m_mem m) (m_mem m');
  ch_own : forall p, F' p <-> F p
}.

Lemma change_id (F F' : Z -> Prop) m : (forall p, F' p <-> F p) -> change F F' m m.
Proof. split; [apply same_rest_refl|apply untouched_refl|done]. Qed.

Lemma change_trans F1 F2 F3 m1 m2 m3 :
  change F1 F2 m1 m2 -> change F2 F3 m2 m3 -> change F1 F3 m1 m3.
Proof.
  intros [A1 A2 A3] [B1 B2 B3]. split.
  - by eapply same_rest_trans.
  - eapply untouched_trans; [done|]. eapply untouched_mono; [|done]. intros p. apply A3.
  - intros p. by rewrite B3, A3.
Qed.

Lemma change_or F F' (X : Z -> Prop) m m' :
  change F F' m m' -> change (fun p => F p \/ X p) (fun p => F' p \/ X p) m m'.
Proof.
  intros [A1 A2 A3]. split; [done| |].
  - eapply untouched_mono; [|done]. auto.
  - intros p. by rewrite A3.
Qed.

Lemma change_iff (F F' G G' : Z -> Prop) m m' :
  (forall p, F p <-> G p) -> (forall p, F' p <-> G' p) -> change F F' m m' -> change G G' m m'.
Proof.
  intros H H' [A1 A2 A3]. split; [done| |].
  - eapply untouched_mono; [|done]. intros p. apply H.
  - intros p. by rewrite <- H', A3.
Qed.

(** A step that owns [F], seen by code that also owns [X]. *)
Lemma change_step (F F' X F1 F3 : Z -> Prop) m1 m2 m3 :
  change F F' m1 m2 -> (forall p, F1 p <-> F p \/ X p) ->
  change (fun p => F' p \/ X p) F3 m2 m3 -> change F1 F3 m1 m3.
Proof.
  intros H12 HF H23. eapply change_trans; [|exact H23].
  eapply change_iff; [| |exact (change_or _ _ X _ _ H12)]; [|done]. intros p. by rewrite HF.
Qed.

(** Allocating tables: the entries of the virtual pages stay. *)
Record grow (m : machine) (free : list Z) (tbl : tables)
    (m' : machine) (free' : list Z) (tbl' : tables) : Prop := {
  gr_change : change (owned free tbl) (owned free' tbl') m m';
  gr_leaf : forall j, leaf (m_mem m') tbl' j = leaf (m_mem m) tbl j
}.

Lemma grow_refl m free tbl : grow m free tbl m free tbl.
Proof. split; [by apply change_id|done]. Qed.

Lemma grow_trans m1 f1 t1 m2 f2 t2 m3 f3 t3 :
  grow m1 f1 t1 m2 f2 t2 -> grow m2 f2 t2 m3 f3 t3 -> grow m1 f1 t1 m3 f3 t3.
Proof.
  intros [A1 A2] [B1 B2]. split; [by eapply change_trans|]. intros j. by rewrite B2, A2.
Qed.

(** The machine after [kalloc], [memset] and the store that links the page. *)
Definition linked (page pte : Z) (m : machine) : machine :=
  with_mem (fun mm => store64 mm pte (Z.lor (PA2PTE page) PTE_V))
    (with_mem (fun mm => memset mm page 0 PGSIZE)
       (with_mem (fun mm => memset mm page 5 PGSIZE)
          (settle (set_m_freelist (load64 (m_mem m) page) m)))).

Lemma link_grow m page free root tbl l n pt :
  vm_inv m (page :: free) root tbl -> (l <= 1)%nat ->
  tbl !! (S l, prefix (S l) n) = Some pt -> tbl !! (l, prefix l n) = None ->
  let m' := linked page (pt + 8 * idx (S l) n) m in
  let tbl' := <[(l, prefix l n) := page]> tbl in
  vm_inv m' free root tbl' /\ grow m (page :: free) tbl m' free tbl'.
Proof.
  intros Hv Hl Hpt Hnone m' tbl'. pose proof Hv as [Hok Hlk Hk Hr Hfr].
  destruct (kalloc_inv kend kend_pos page free m Hk) as (Hfl & Hp0 & Hpok & Hpin & Hk').
  assert (Hnt : ~ table_page tbl page) by (intros H; apply Hfr in H; set_solver).
  set (mm := memset (memset (m_mem m) page 5 PGSIZE) page 0 PGSIZE).
  assert (Hch : page_change page (m_mem m) mm)
    by (eapply page_change_trans; apply page_change_memset).
  destruct (pt_rep_link Hr Hl Hpt Hnone Hpok Hnt Hch)
    as [Hr' Hleaf]; [intros; by apply load64_zero_page|].
  assert (Hown : forall p, owned free tbl' p <-> owned (page :: free) tbl p).
  { intros p. unfold owned, table_page, tbl'. rewrite elem_of_cons. split.
    - intros [?|[k [[_ <-]|[_ Hk0]]%lookup_insert_Some]]; [by left; right|by left; left|].
      right. by exists k.
    - intros [[->|?]|[k Hk0]]; [right|by left|right].
      + exists (l, prefix l n). apply lookup_insert_eq.
      + exists k. apply lookup_insert_Some. right. split; [congruence|done]. }
  assert (Hptt : table_page tbl pt) by by eexists.
  assert (Hptin : ~ (pt ∈ page :: free)) by by apply Hfr.
  split; [split|split; [split|exact Hleaf]].
  - by apply (hart_ok_settle m).
  - exact Hlk.
  - apply (kmem_inv_untouched (fun p => p = page \/ p = pt) _ _ _ Hk'); [reflexivity| |].
    + apply (untouched_trans _ _ mm).
      * apply (page_change_untouched _ page); [by left|]. apply page_change_memset.
      * apply (page_change_untouched _ pt _ _ (or_intror eq_refl)).
        by apply (page_change_store pt mm), idx_bound.
    + intros p [->| ->]; [done|]. split; [by apply (pr_page _ _ _ Hr _ _ Hpt)|].
      intros Hin. apply Hptin. by right.
  - exact Hr'.
  - intros p [k [[_ <-]|[_ Hk0]]%lookup_insert_Some]; [done|].
    intros Hin. apply (Hfr p); [by exists k|by right].
  - unfold m', linked. do 3 (eapply same_rest_trans; [|apply same_rest_mem]).
    apply same_rest_freelist.
  - apply (untouched_trans _ _ mm).
    + apply (page_change_untouched _ page _ mm); [by left; left|done].
    + apply (page_change_untouched _ pt _ _ (or_intror Hptt)).
      by apply (page_change_store pt mm), idx_bound.
  - exact Hown.
Qed.

Lemma vm_inv_settle m free root tbl : vm_inv m free root tbl -> vm_inv (settle m) free root tbl.
Proof.
  intros [Hok Hlk [K1 K2 K3] Hr Hfr].
  split; [by apply hart_ok_settle|exact Hlk|by split|exact Hr|exact Hfr].
Qed.

Lemma grow_settle m free tbl : grow m free tbl (settle m) free tbl.
Proof.
  split; [|done]. split; [|apply untouched_refl|done]. split; [by destruct m|by right].
Qed.

Lemma slot_nonzero m free root tbl n a :
  vm_inv m free root tbl -> slot tbl n = Some a -> a <> 0.
Proof.
  intros Hv. unfold slot. destruct (tbl !! _) as [p|] eqn:E; [|done]. intros [= <-].
  pose proof (page_ok_pos kend kend_pos p (pr_page _ _ _ (vi_rep _ _ _ _ Hv) _ _ E)).
  pose proof (idx_bound 0 n). lia.
Qed.

Lemma walk_loop_alloc root va : forall l m free tbl pt,
  vm_inv m free root tbl -> (l <= 2)%nat -> tbl !! (l, prefix l (vpn va)) = Some pt ->
  exists r m' free' tbl', walk_loop l pt va true m = Ok r m' /\
    vm_inv m' free' root tbl' /\ grow m free tbl m' free' tbl' /\
    (r = 0 /\ free' = [] /\ slot tbl' (vpn va) = None \/ slot tbl' (vpn va) = Some r).
Proof.
  induction l as [|l IH]; intros m free tbl pt Hv Hl Hpt; cbn [walk_loop].
  - exists (pt + 8 * PX 0 va), m, free, tbl. split; [done|]. split; [done|].
    split; [apply grow_refl|]. right. unfold slot. rewrite Hpt.
    by rewrite <- (PX_idx 0).
  - rewrite PX_idx. unfold load_word. mgo. pose proof (vi_rep _ _ _ _ Hv) as Hr.
    pose proof (pr_child _ _ _ Hr l _ pt _ Hpt (idx_bound (S l) (vpn va))) as Hc.
    rewrite <- prefix_step in Hc. destruct (tbl !! (l, _)) as [q|] eqn:E.
    + rewrite Hc, valid_lor_V.
      rewrite PTE2PA_pte by (try done; eapply page_ok_pa, pr_page; eauto).
      apply IH; [done|lia|done].
    + rewrite Hc. cbn [negb]. destruct free as [|page free].
      * rewrite (bind_ok kalloc _ m 0 (settle m)) by (apply kalloc_empty; apply Hv).
        exists 0, (settle m), [], tbl. split; [done|]. split; [by apply vm_inv_settle|].
        split; [apply grow_settle|]. left. split; [done|]. split; [done|].
        apply (slot_none (m_mem m) root tbl l); [done|lia|done].
      * destruct (kalloc_inv kend kend_pos page free m (vi_kmem _ _ _ _ Hv)) as (Hfl & Hp0 & _).
        erewrite bind_ok by (apply kalloc_cons; [apply Hv|apply Hv|done|done]).
        cbn beta. destruct (Z.eqb_spec page 0); [done|]. unfold zero_page, store_word. mgo.
        destruct (link_grow m page free root tbl l (vpn va) pt Hv) as [Hv' Hg]; [lia|done|done|].
        destruct (IH _ _ _ page Hv') as (r & m' & free' & tbl' & E' & Hv2 & Hg2 & Hres);
          [lia|apply lookup_insert_eq|].
        exists r, m', free', tbl'. split; [exact E'|]. split; [done|]. split; [|done].
        by eapply grow_trans.
Qed.

(** The entry of a page, once its table exists, is found again by the same
    descent; a failed descent means that no page was left. *)
Lemma walk_alloc root va m free tbl :
  vm_inv m free root tbl -> 0 <= va < MAXVA ->
  exists r m' free' tbl', walk root va true m = Ok r m' /\
    vm_inv m' free' root tbl' /\ grow m free tbl m' free' tbl' /\
    (r = 0 /\ free' = [] /\ slot tbl' (vpn va) = None \/ slot tbl' (vpn va) = Some r).
Proof.
  intros Hv Hva. unfold walk. rewrite Z.geb_leb. destruct (Z.leb_spec MAXVA va); [lia|].
  apply walk_loop_alloc; [done|lia|]. rewrite prefix_root by by apply vpn_bound. apply Hv.
Qed.
(** ** Writing an entry *)

Lemma page_split n : n = prefix 0 n * 512 + idx 0 n.
Proof.
  unfold prefix, idx. change (512 ^ Z.of_nat 1) with 512. change (512 ^ Z.of_nat 0) with 1.
  rewrite Z.div_1_r. pose proof (Z.div_mod n 512). lia.
Qed.

Lemma pt_rep_set mm root tbl n a v :
  pt_rep mm root tbl -> slot tbl n = Some a -> 0 <= v < 2 ^ 64 ->
  pt_rep (store64 mm a v) root tbl /\
  forall j, leaf (store64 mm a v) tbl j = if j =? n then v else leaf mm tbl j.
Proof.
  intros Hr Hs Hv. unfold slot in Hs.
  destruct (tbl !! (0%nat, prefix 0 n)) as [pt|] eqn:Ept; [|done]. injection Hs as <-.
  pose proof (pr_page _ _ _ Hr _ _ Ept) as Hpt.
  pose proof (page_change_store pt mm (idx 0 n) v (idx_bound 0 n)) as Hch.
  assert (Hother : forall k q i, tbl !! k = Some q -> k <> (0%nat, prefix 0 n) -> 0 <= i < 512 ->
    load64 (store64 mm (pt + 8 * idx 0 n) v) (q + 8 * i) = load64 mm (q + 8 * i)).
  { intros k q i Hq Hk Hi. apply (page_change_load pt); try done; [by eapply (pr_page _ _ _ Hr)|].
    intros ->. apply Hk. by apply (pr_inj _ _ _ Hr _ _ q). }
  split; [split|]; try apply Hr.
  - intros l x p i Hp Hi. rewrite (Hother _ _ _ Hp) by done. by apply (pr_child _ _ _ Hr).
  - intros j. unfold leaf. destruct (tbl !! (0%nat, prefix 0 j)) as [q|] eqn:Eq.
    + destruct (Z.eqb_spec j n) as [->|Hne].
      * rewrite Ept in Eq. injection Eq as <-. rewrite load64_store64. by apply Z.mod_small.
      * destruct (decide (prefix 0 j = prefix 0 n)) as [E|E].
        -- rewrite E, Ept in Eq. injection Eq as <-. apply load64_store64_out.
           pose proof (page_split j). pose proof (page_split n). lia.
        -- apply (Hother _ _ _ Eq); [congruence|apply idx_bound].
    + destruct (Z.eqb_spec j n) as [->|]; [congruence|done].
Qed.

Lemma slot_in_table m free root tbl n a :
  vm_inv m free root tbl -> slot tbl n = Some a ->
  exists pt, table_page tbl pt /\ forall v mm, page_change pt mm (store64 mm a v).
Proof.
  intros Hv. unfold slot. destruct (tbl !! _) as [pt|] eqn:E; [|done]. intros [= <-].
  exists pt. split; [by eexists|]. intros v mm. apply page_change_store, idx_bound.
Qed.

(** Storing an entry keeps the invariant and changes that entry only. *)
Lemma store_entry m free root tbl n a v :
  vm_inv m free root tbl -> slot tbl n = Some a -> 0 <= v < 2 ^ 64 ->
  let m' := with_mem (fun mm => store64 mm a v) m in
  vm_inv m' free root tbl /\ change (owned free tbl) (owned free tbl) m m' /\
  forall j, leaf (m_mem m') tbl j = if j =? n then v else leaf (m_mem m) tbl j.
Proof.
  intros Hv Hs Hb m'. destruct (pt_rep_set _ _ _ _ _ _ (vi_rep _ _ _ _ Hv) Hs Hb) as [Hr Hl].
  destruct (slot_in_table _ _ _ _ _ _ Hv Hs) as (pt & Hpt & Hch).
  pose proof Hv as [Hok Hlk Hk _ Hfr]. split; [split; try done|split; [split|done]].
  - apply (kmem_inv_untouched (fun p => p = pt) _ _ _ Hk); [done| |].
    + by apply (page_change_untouched _ pt), Hch.
    + intros p ->. split; [|by apply Hfr]. by eapply owned_page_ok; [|right].
  - apply same_rest_mem.
  - apply (page_change_untouched _ pt); [by right|apply Hch].
  - done.
Qed.
End PageTable.
