(* ===== verification/Uvm.v ===== *)
(** * The address spaces that vm.c builds

    [mappages_spec] gives the entries [mappages] leaves behind, also when it runs
    out of memory.  [uvm m free root tbl ps] describes a user address space: the
    pages of [ps], in order, are mapped from address 0 on, none is shared with
    the tables or the free list.  The theorems follow vm.c: growing, shrinking,
    copying and freeing an address space, and the copies between kernel and user
    memory. *)
From stdpp Require Import gmap list strings.
From S2P Require Import Prelude Kstring Abi Machine Spinlock Kalloc Vm PageTable.

(** The entry that maps [pa] with permissions [perm]. *)
Definition mkpte (pa perm : Z) : Z := Z.lor (Z.lor (PA2PTE pa) perm) PTE_V.

Lemma lor_flags f g : 0 <= f < 1024 -> 0 <= g < 1024 -> 0 <= Z.lor f g < 1024.
Proof.
  intros Hf Hg. assert (Hlt : 0 <= Z.lor f g) by (apply Z.lor_nonneg; lia). split; [done|].
  destruct (Z.eq_dec (Z.lor f g) 0) as [->|Hz]; [lia|]. change 1024 with (2 ^ 10).
  apply Z.log2_lt_pow2; [lia|]. rewrite Z.log2_lor by lia.
  apply Z.max_lub_lt.
  - destruct (Z.eq_dec f 0) as [->|]; [done|]. apply Z.log2_lt_pow2; lia.
  - destruct (Z.eq_dec g 0) as [->|]; [done|]. apply Z.log2_lt_pow2; lia.
Qed.

Lemma mkpte_eq pa perm : mkpte pa perm = Z.lor (PA2PTE pa) (Z.lor perm PTE_V).
Proof. unfold mkpte. by rewrite Z.lor_assoc. Qed.

Lemma flags_V perm : 0 <= perm < 1024 -> 0 <= Z.lor perm PTE_V < 1024.
Proof. intros H. apply lor_flags; [done|]. unfold PTE_V. vm_compute. split; congruence. Qed.

Lemma pte_bound pa f : pa_ok pa -> 0 <= f < 1024 -> 0 <= Z.lor (PA2PTE pa) f < 2 ^ 64.
Proof. intros. rewrite <- pte_u64 by done. apply Z.mod_pos_bound. lia. Qed.

Lemma valid_mkpte pa perm : valid (mkpte pa perm) = true.
Proof. apply valid_lor_V. Qed.

Lemma pa_ok_add pa n : pa_ok pa -> 0 <= n -> pa + 4096 * n < 2 ^ 56 -> pa_ok (pa + 4096 * n).
Proof. intros [H1 H2] Hn Hb. split; [dlia|lia]. Qed.

Lemma vpn_add a n : vpn (a + 4096 * n) = vpn a + n.
Proof. unfold vpn. rewrite Z.mul_comm, Z.div_add by lia. done. Qed.

Section Uvm.
Variable kend : Z.
Hypothesis kend_pos : 0 < kend.

(** ** mappages *)

Lemma mappages_loop_spec root perm : forall k fuel m free tbl a pa,
  vm_inv kend m free root tbl -> 0 <= a -> a + 4096 * Z.of_nat k < MAXVA ->
  pa_ok pa -> pa + 4096 * Z.of_nat k < 2 ^ 56 -> 0 <= perm < 1024 ->
  (forall j, vpn a <= j <= vpn a + Z.of_nat k -> valid (leaf (m_mem m) tbl j) = false) ->
  (k < fuel)%nat ->
  exists r d m' free' tbl',
    mappages_loop fuel root a (a + 4096 * Z.of_nat k) pa perm m = Ok r m' /\
    vm_inv kend m' free' root tbl' /\ change (owned free tbl) (owned free' tbl') m m' /\
    (r = 0 /\ d = Z.of_nat k + 1 \/ r = -1 /\ 0 <= d <= Z.of_nat k /\ free' = []) /\
    forall j, leaf (m_mem m') tbl' j =
      if (vpn a <=? j) && (j <? vpn a + d) then mkpte (pa + 4096 * (j - vpn a)) perm
      else leaf (m_mem m) tbl j.
Proof.
  induction k as [|k IH]; intros fuel m free tbl a pa Hv Ha Hmax Hpa Hpb Hperm Hinv Hf;
    (destruct fuel as [|fuel]; [lia|]); cbn [mappages_loop];
    destruct (walk_alloc kend kend_pos root a m free tbl Hv) as
      (r & m1 & free1 & tbl1 & E & Hv1 & [Hc1 Hl1] & [(-> & -> & Hs)|Hs]); try lia;
    rewrite (bind_ok _ _ _ _ _ E); cbn beta.
  1,3: exists (-1), 0, m1, [], tbl1; do 3 (split; [done|]); split; [right; split; [done|split; [lia|done]]|];
    intros j; rewrite Hl1; zcase; done || lia.
  all: destruct (Z.eqb_spec r 0) as [|_];
    [by pose proof (slot_nonzero kend kend_pos _ _ _ _ _ _ Hv1 Hs)|].
  all: unfold load_word, store_word; mgo; rewrite <- (slot_leaf _ _ _ _ Hs), Hl1, Hinv by lia; mgo.
  all: pose proof (flags_V perm Hperm) as Hfl.
  all: assert (Hb : 0 <= mkpte pa perm < 2 ^ 64) by (rewrite mkpte_eq; by apply pte_bound).
  all: destruct (store_entry kend kend_pos m1 free1 root tbl1 _ _ _ Hv1 Hs Hb) as (Hv2 & Hc2 & Hl2).
  all: fold (mkpte pa perm); set (m2 := with_mem _ m1) in *.
  all: pose proof (change_trans _ _ _ _ _ _ Hc1 Hc2) as Hc12.
  - rewrite Z.mul_0_r, Z.add_0_r, Z.eqb_refl.
    exists 0, 1, m2, free1, tbl1. split; [done|]. split; [done|]. split; [done|]. split; [by left|].
    intros j. rewrite Hl2, Hl1. zcase; try done; try lia. subst. f_equal. lia.
  - destruct (Z.eqb_spec a (a + 4096 * Z.of_nat (S k))); [lia|].
    change MAXVA with (2 ^ 38) in *.
    assert (Ea : u64 (a + PGSIZE) = a + 4096) by (apply Z.mod_small; unfold PGSIZE; lia).
    assert (Ep : u64 (pa + PGSIZE) = pa + 4096)
      by (destruct Hpa; apply Z.mod_small; unfold PGSIZE; lia).
    rewrite Ea, Ep. replace (a + 4096 * Z.of_nat (S k)) with (a + 4096 + 4096 * Z.of_nat k) by lia.
    assert (Hvp : vpn (a + 4096) = vpn a + 1) by apply (vpn_add a 1).
    destruct (IH fuel m2 free1 tbl1 (a + 4096) (pa + 4096)) as
      (r3 & d & m3 & free3 & tbl3 & E3 & Hv3 & Hc3 & Hres & Hl3); try done; try lia.
    + apply (pa_ok_add pa 1); [done|lia|lia].
    + intros j Hj. rewrite Hl2, Hl1. zcase; [lia|]. apply Hinv. lia.
    + exists r3, (d + 1), m3, free3, tbl3. split; [done|]. split; [done|].
      split; [by eapply change_trans|]. split; [destruct Hres as [?|(? & ? & ?)]; [left; lia|right; split_and!; [done|lia|lia|done]]|].
      intros j. rewrite Hl3, Hl2, Hl1, Hvp. zcase; try done; try lia.
      * f_equal. lia.
      * subst. f_equal. lia.
Qed.

(** [mappages] on any range below [MAXVA]: it maps every page the range touches,
    or, when no page is left for a table, an initial part of them. *)
Lemma mappages_spec root va size pa perm m free tbl :
  vm_inv kend m free root tbl -> 0 <= va -> 0 < size -> va + size <= MAXVA ->
  pa_ok pa -> pa + size + 4096 < 2 ^ 56 -> 0 <= perm < 1024 ->
  let n := vpn (va + size - 1) + 1 - vpn va in
  (forall j, vpn va <= j < vpn va + n -> valid (leaf (m_mem m) tbl j) = false) ->
  exists r d m' free' tbl',
    mappages root va size pa perm m = Ok r m' /\
    vm_inv kend m' free' root tbl' /\ change (owned free tbl) (owned free' tbl') m m' /\
    (r = 0 /\ d = n \/ r = -1 /\ 0 <= d < n /\ free' = []) /\
    forall j, leaf (m_mem m') tbl' j =
      if (vpn va <=? j) && (j <? vpn va + d) then mkpte (pa + 4096 * (j - vpn va)) perm
      else leaf (m_mem m) tbl j.
Proof.
  intros Hv Hva Hsz Hmax Hpa Hpb Hperm n Hinv. unfold mappages.
  destruct (Z.eqb_spec size 0); [lia|]. change MAXVA with (2 ^ 38) in Hmax.
  assert (Eu : u64 (va + size - 1) = va + size - 1) by (apply Z.mod_small; lia).
  rewrite Eu, !PGROUNDDOWN_eq. fold (vpn va) (vpn (va + size - 1)).
  set (k := Z.to_nat (vpn (va + size - 1) - vpn va)).
  assert (Hk : vpn (va + size - 1) = vpn va + Z.of_nat k).
  { unfold k. rewrite Z2Nat.id; [lia|]. unfold vpn. dlia. }
  rewrite Hk in *. replace ((vpn va + Z.of_nat k) * 4096) with (vpn va * 4096 + 4096 * Z.of_nat k) by lia.
  assert (Hvv : vpn (vpn va * 4096) = vpn va) by (unfold vpn; dlia).
  assert (Hvb : 0 <= vpn va * 4096 <= va /\ va < vpn va * 4096 + 4096) by (unfold vpn; dlia).
  assert (Hlast : vpn va * 4096 + 4096 * Z.of_nat k <= va + size - 1) by (unfold vpn in *; dlia).
  destruct (mappages_loop_spec root perm k (mappages_fuel (vpn va * 4096) (vpn va * 4096 + 4096 * Z.of_nat k))
    m free tbl (vpn va * 4096) pa) as (r & d & m' & free' & tbl' & E & Hv' & Hc & Hres & Hl);
    try done; try lia.
  - change MAXVA with (2 ^ 38). lia.
  - intros j Hj. apply Hinv. lia.
  - unfold mappages_fuel, PGSIZE. destruct (Z.leb_spec (vpn va * 4096) (vpn va * 4096 + 4096 * Z.of_nat k)); [|lia].
    replace (_ - _) with (Z.of_nat k * 4096) by lia. rewrite Z.div_mul by lia. lia.
  - rewrite Hvv in *. exists r, d, m', free', tbl'. split; [done|]. split; [done|]. split; [done|].
    split; [destruct Hres as [?|(? & ? & ?)]; [left; lia|right; split_and!; [done|lia|lia|done]]|done].
Qed.

(** ** Removing mappings *)

(** The flags of an entry that maps a page. *)
Definition leaf_flags (f : Z) : Prop := 0 <= f < 1024 /\ Z.testbit f 0 = true /\ f <> PTE_V.

Lemma valid_pte pa f : pa_ok pa -> leaf_flags f -> valid (Z.lor (PA2PTE pa) f) = true.
Proof.
  intros Hpa (Hf & Hb & _). rewrite valid_testbit, Z.lor_spec, Hb. apply orb_true_r.
Qed.

(** The page that [uvmunmap] gives back for the entry. *)
Definition maps (mm : mem) (tbl : tables) (n q : Z) : Prop :=
  exists f, leaf mm tbl n = Z.lor (PA2PTE q) f /\ leaf_flags f /\ pa_ok q.

Lemma valid_slot mm tbl n : valid (leaf mm tbl n) = true -> exists a, slot tbl n = Some a.
Proof.
  intros H. destruct (slot tbl n) as [a|] eqn:E; [by eexists|].
  by rewrite (no_slot_leaf _ _ _ E) in H.
Qed.

(** Giving back a page that belongs to nobody else. *)
Lemma kfree_vm q m free root tbl :
  vm_inv kend m free root tbl -> page_ok kend q -> ~ owned free tbl q ->
  exists m', kfree kend q m = Ok tt m' /\ vm_inv kend m' (q :: free) root tbl /\
    change (fun p => owned free tbl p \/ p = q) (owned (q :: free) tbl) m m' /\
    forall j, leaf (m_mem m') tbl j = leaf (m_mem m) tbl j.
Proof.
  intros Hv Hq Hno. pose proof Hv as [Hok Hlk Hk Hr Hfr].
  assert (Hnin : q ∉ free) by (intros H; apply Hno; by left).
  assert (Hnt : ~ table_page tbl q) by (intros H; apply Hno; by right).
  eexists. split; [by apply kfree_eq|].
  set (m' := settle _).
  assert (Hch : page_change q (m_mem m) (m_mem m')) by (intros a Ha; by apply mget_kfree_mem_out).
  assert (Hload : forall k p i, tbl !! k = Some p -> 0 <= i < 512 ->
     load64 (m_mem m') (p + 8 * i) = load64 (m_mem m) (p + 8 * i)).
  { intros k p i Hp Hi. apply (page_change_load kend q); try done; [by eapply (pr_page _ _ _ _ Hr)|].
    intros ->. apply Hnt. by eexists. }
  split; [split|split].
  - by apply (hart_ok_settle m).
  - exact Hlk.
  - by apply kfree_inv.
  - by apply (pt_rep_frame kend _ _ _ _ Hload).
  - intros p Hp [->|Hin]%elem_of_cons; [done|]. by apply (Hfr p).
  - split; [apply (same_rest_trans _ (with_mem (kfree_mem q (m_freelist m)) m));
            [apply same_rest_mem|apply same_rest_freelist]| |].
    + apply (page_change_untouched _ q); [by right|done].
    + intros p. unfold owned. rewrite elem_of_cons. tauto.
  - intros j. by apply leaf_frame.
Qed.

Lemma maps_valid mm tbl n q : maps mm tbl n q -> valid (leaf mm tbl n) = true.
Proof. intros (f & -> & Hf & Hq). by apply valid_pte. Qed.

Lemma maps_leaf mm mm' tbl tbl' n q :
  leaf mm' tbl' n = leaf mm tbl n -> maps mm tbl n q -> maps mm' tbl' n q.
Proof. intros E (f & H). exists f. by rewrite E. Qed.

(** The pages among [qs] that go back to the allocator. *)
Definition given (do_free : bool) (qs : list Z) : list Z := if do_free then qs else [].

Lemma given_free do_free q m free root tbl :
  vm_inv kend m free root tbl -> Forall (page_ok kend) (given do_free [q]) ->
  (forall p, p ∈ given do_free [q] -> ~ owned free tbl p) ->
  exists m1, when do_free (kfree kend q) m = Ok tt m1 /\
    vm_inv kend m1 (given do_free [q] ++ free) root tbl /\
    change (fun p => owned free tbl p \/ p ∈ given do_free [q])
      (owned (given do_free [q] ++ free) tbl) m m1 /\
    forall j, leaf (m_mem m1) tbl j = leaf (m_mem m) tbl j.
Proof.
  intros Hv Hpg Hown. destruct do_free; cbn [given when app] in *.
  - destruct (kfree_vm q m free root tbl Hv) as (m1 & E1 & Hv1 & Hc1 & Hl1).
    + by apply Forall_cons in Hpg as [? _].
    + apply Hown. by left.
    + exists m1. split; [done|]. split; [done|]. split; [|done].
      eapply change_iff; [| |exact Hc1]; [|done]. intros p. by rewrite list_elem_of_singleton.
  - exists m. split; [done|]. split; [done|]. split; [|done].
    apply change_id. intros p. rewrite elem_of_nil. tauto.
Qed.

(** One round of the loop. *)
Lemma unmap_page root tbl do_free q m free a last fuel :
  vm_inv kend m free root tbl -> 0 <= a < last -> a < MAXVA -> maps (m_mem m) tbl (vpn a) q ->
  Forall (page_ok kend) (given do_free [q]) -> (forall p, p ∈ given do_free [q] -> ~ owned free tbl p) ->
  exists m2, uvmunmap_loop kend (S fuel) root a last do_free m = uvmunmap_loop kend fuel root (u64 (a + PGSIZE)) last do_free m2 /\
    vm_inv kend m2 (given do_free [q] ++ free) root tbl /\
    change (fun p => owned free tbl p \/ p ∈ given do_free [q]) (owned (given do_free [q] ++ free) tbl) m m2 /\
    forall j, leaf (m_mem m2) tbl j = if j =? vpn a then 0 else leaf (m_mem m) tbl j.
Proof.
  intros Hv Ha Hmax Hq Hpg Hown. cbn [uvmunmap_loop]. destruct (Z.ltb_spec a last); [|lia]. cbn [negb].
  destruct (valid_slot _ _ _ (maps_valid _ _ _ _ Hq)) as [pte Hs].
  rewrite (bind_ok _ _ _ pte m) by (rewrite (walk_noalloc kend kend_pos m root tbl); [by rewrite Hs|apply Hv|lia]).
  cbn beta. destruct (Z.eqb_spec pte 0); [by pose proof (slot_nonzero kend kend_pos _ _ _ _ _ _ Hv Hs)|].
  unfold load_word, store_word. mgo. rewrite <- (slot_leaf _ _ _ _ Hs), (maps_valid _ _ _ _ Hq).
  destruct Hq as (f & Ef & (Hf1 & Hf2 & Hf3) & Hpa). rewrite Ef, PTE_FLAGS_pte, PTE2PA_pte by done.
  cbn [negb]. destruct (Z.eqb_spec f PTE_V); [done|].
  destruct (given_free do_free q m free root tbl Hv Hpg Hown) as (m1 & E1 & Hv1 & Hc1 & Hl1). rewrite (bind_ok _ _ _ _ _ E1). mgo.
  destruct (store_entry kend kend_pos m1 _ root tbl _ _ 0 Hv1 Hs) as (Hv2 & Hc2 & Hl2); [lia|]. eexists. split; [reflexivity|]. split; [exact Hv2|].
  split; [exact (change_trans _ _ _ _ _ _ Hc1 Hc2)|]. intros j. by rewrite Hl2, Hl1.
Qed.

(** [uvmunmap] of the pages [qs] clears their entries; with [do_free] it puts the
    pages on the free list. *)
Lemma uvmunmap_loop_spec root tbl do_free : forall qs fuel m free a,
  vm_inv kend m free root tbl -> 0 <= a ->
  a + 4096 * Z.of_nat (length qs) <= MAXVA ->
  (forall i q, qs !! i = Some q -> maps (m_mem m) tbl (vpn a + Z.of_nat i) q) ->
  NoDup (given do_free qs) -> Forall (page_ok kend) (given do_free qs) ->
  (forall q, q ∈ given do_free qs -> ~ owned free tbl q) -> (length qs <= fuel)%nat ->
  exists m', uvmunmap_loop kend fuel root a (a + 4096 * Z.of_nat (length qs)) do_free m = Ok tt m' /\
    vm_inv kend m' (reverse (given do_free qs) ++ free) root tbl /\
    change (fun p => owned free tbl p \/ p ∈ given do_free qs)
      (owned (reverse (given do_free qs) ++ free) tbl) m m' /\
    forall j, leaf (m_mem m') tbl j =
      if (vpn a <=? j) && (j <? vpn a + Z.of_nat (length qs)) then 0 else leaf (m_mem m) tbl j.
Proof.
  induction qs as [|q qs IH]; intros fuel m free a Hv Ha Hmax Hmaps Hnd Hpg Hown Hf.
  { assert (Hg : given do_free [] = []) by by destruct do_free. rewrite Hg. exists m. split.
    - destruct fuel; cbn [uvmunmap_loop length]; zcase; try done; lia.
    - split; [done|]. split.
      + apply change_id. intros p. rewrite elem_of_nil. cbn [reverse app]. tauto.
      + intros j. cbn [length]. zcase; try done; lia. }
  destruct fuel as [|fuel]; [simpl in Hf; lia|]. cbn [length] in *. change MAXVA with (2 ^ 38) in *.
  assert (Hgc : given do_free (q :: qs) = given do_free [q] ++ given do_free qs) by by destruct do_free.
  rewrite Hgc in *. apply NoDup_app in Hnd as (Hn1 & Hn2 & Hn3). apply Forall_app in Hpg as [Hp1 Hp2].
  pose proof (Hmaps O q eq_refl) as Hq. rewrite Z.add_0_r in Hq.
  destruct (unmap_page root tbl do_free q m free a (a + 4096 * Z.of_nat (S (length qs))) fuel Hv) as (m2 & E2 & Hv2 & Hc2 & Hl2); try done; try lia.
  { change MAXVA with (2 ^ 38). lia. }
  { intros p Hp. apply Hown, elem_of_app. by left. }
  rewrite E2.
  assert (Ea : u64 (a + PGSIZE) = a + 4096) by (apply Z.mod_small; unfold PGSIZE; lia).
  assert (Hvp : vpn (a + 4096) = vpn a + 1) by apply (vpn_add a 1).
  rewrite Ea. replace (a + 4096 * Z.of_nat (S (length qs))) with (a + 4096 + 4096 * Z.of_nat (length qs)) by lia.
  assert (Hrev : reverse (given do_free [q]) = given do_free [q]) by by destruct do_free.
  destruct (IH fuel m2 (given do_free [q] ++ free) (a + 4096)) as (m3 & E3 & Hv3 & Hc3 & Hl3);
    try done; try lia.
  - intros i q' Hi. pose proof (Hmaps (S i) q' Hi) as Hm.
    replace (vpn a + Z.of_nat (S i)) with (vpn (a + 4096) + Z.of_nat i) in Hm by lia.
    eapply maps_leaf; [|exact Hm]. rewrite Hl2. zcase; [lia|done].
  - intros q' Hq' [[Hin|Hin]%elem_of_app|Ht].
    + by apply (Hn2 q' Hin).
    + apply (Hown q'); [apply elem_of_app; by right|by left].
    + apply (Hown q'); [apply elem_of_app; by right|by right].
  - exists m3. rewrite reverse_app, <- app_assoc, Hrev. split; [done|]. split; [done|]. split.
    + eapply change_trans; [|exact Hc3].
      pose proof (change_or _ _ (fun p => p ∈ given do_free qs) _ _ Hc2) as Hc.
      eapply change_iff; [| |exact Hc]; [|done]. intros p. rewrite elem_of_app. tauto.
    + intros j. rewrite Hl3, Hl2, Hvp. zcase; try done; try lia.
Qed.

(** ** Pages that belong to one owner *)

Lemma untouched_page (P : Z -> Prop) mm mm' q i :
  untouched P mm mm' -> (forall p, P p -> page_ok kend p /\ p <> q) -> page_ok kend q ->
  0 <= i < 4096 -> mget mm' (q + i) = mget mm (q + i).
Proof.
  intros Hu HP Hq Hi. apply Hu. intros p Hp. destruct (HP p Hp) as [Hok Hne].
  destruct (page_disjoint kend p q Hok Hq Hne); lia.
Qed.

(** Writing into a page that is neither free nor a table. *)
Lemma private_write q f m free root tbl :
  vm_inv kend m free root tbl -> page_ok kend q -> ~ owned free tbl q ->
  page_change q (m_mem m) (f (m_mem m)) ->
  vm_inv kend (with_mem f m) free root tbl /\
  change (fun p => p = q) (fun p => p = q) m (with_mem f m) /\
  forall j, leaf (m_mem (with_mem f m)) tbl j = leaf (m_mem m) tbl j.
Proof.
  intros Hv Hq Hno Hch. pose proof Hv as [Hok Hlk Hk Hr Hfr].
  assert (Hload : forall k p i, tbl !! k = Some p -> 0 <= i < 512 ->
     load64 (f (m_mem m)) (p + 8 * i) = load64 (m_mem m) (p + 8 * i)).
  { intros k p i Hp Hi. apply (page_change_load kend q); try done; [by eapply (pr_page _ _ _ _ Hr)|].
    intros ->. apply Hno. right. by eexists. }
  assert (Hu : untouched (fun p => p = q) (m_mem m) (f (m_mem m)))
    by by apply (page_change_untouched _ q).
  split; [split; try done|split; [split; [apply same_rest_mem|done|done]|]].
  - apply (kmem_inv_untouched kend kend_pos _ m (with_mem f m) _ Hk eq_refl Hu).
    intros p ->. split; [done|]. intros H. apply Hno. by left.
  - by apply (pt_rep_frame kend _ _ _ _ Hload).
  - intros j. by apply leaf_frame.
Qed.

Lemma kalloc_vm p m free root tbl :
  vm_inv kend m (p :: free) root tbl ->
  page_ok kend p /\ p <> 0 /\ ~ owned free tbl p /\
  exists m', kalloc m = Ok p m' /\ vm_inv kend m' free root tbl /\
    change (owned (p :: free) tbl) (fun q => owned free tbl q \/ q = p) m m' /\
    forall j, leaf (m_mem m') tbl j = leaf (m_mem m) tbl j.
Proof.
  intros Hv. pose proof Hv as [Hok Hlk Hk Hr Hfr].
  destruct (kalloc_inv kend kend_pos p free m Hk) as (Hfl & Hp0 & Hpok & Hpin & Hk').
  assert (Hnt : ~ table_page tbl p) by (intros H; apply (Hfr p H); by left).
  split; [done|]. split; [done|]. split; [by intros [?|?]|].
  set (m0 := settle (set_m_freelist (load64 (m_mem m) p) m)).
  exists (with_mem (fun mm => memset mm p 5 PGSIZE) m0). split; [by apply kalloc_cons|].
  assert (Hch : page_change p (m_mem m) (memset (m_mem m) p 5 PGSIZE)) by apply page_change_memset.
  assert (Hload : forall k q i, tbl !! k = Some q -> 0 <= i < 512 ->
     load64 (memset (m_mem m) p 5 PGSIZE) (q + 8 * i) = load64 (m_mem m) (q + 8 * i)).
  { intros k q i Hq Hi. apply (page_change_load kend p); try done; [by eapply (pr_page _ _ _ _ Hr)|].
    intros ->. apply Hnt. by eexists. }
  split; [split|split; [split|]].
  - by apply (hart_ok_settle m).
  - exact Hlk.
  - exact Hk'.
  - by apply (pt_rep_frame kend _ _ _ _ Hload).
  - intros q Hq Hin. apply (Hfr q Hq). by right.
  - eapply same_rest_trans; [apply same_rest_freelist|apply same_rest_mem].
  - by apply (page_change_untouched _ p); [left; left|].
  - intros q. unfold owned. rewrite elem_of_cons. tauto.
  - intros j. by apply (leaf_frame (m_mem m)).
Qed.

(** ** User address spaces *)

(** The entries from the trapframe on; the operations below leave them alone. *)
Variable top : Z -> Z.

(** [ps] lists the pages mapped from address 0 on, each with its flags; nothing
    else is mapped below the trapframe. *)
Record uvm (m : machine) (free : list Z) (root : Z) (tbl : tables) (ps : list (Z * Z)) : Prop := {
  u_vm : vm_inv kend m free root tbl;
  u_map : forall i p f, ps !! i = Some (p, f) ->
    leaf (m_mem m) tbl (Z.of_nat i) = Z.lor (PA2PTE p) f /\ leaf_flags f /\ page_ok kend p;
  u_free : forall j, Z.of_nat (length ps) <= j < vpn TRAPFRAME -> valid (leaf (m_mem m) tbl j) = false;
  u_nodup : NoDup ps.*1;
  u_own : forall p, p ∈ ps.*1 -> ~ owned free tbl p;
  u_len : Z.of_nat (length ps) <= vpn TRAPFRAME;
  u_top : forall j, vpn TRAPFRAME <= j -> leaf (m_mem m) tbl j = top j
}.

Lemma u_page m free root tbl ps p : uvm m free root tbl ps -> p ∈ ps.*1 -> page_ok kend p.
Proof.
  intros Hu [[q f] [-> Hin]]%list_elem_of_fmap. apply list_elem_of_lookup in Hin as [i Hi].
  by destruct (u_map _ _ _ _ _ Hu _ _ _ Hi) as (_ & _ & ?).
Qed.

Lemma u_maps m free root tbl ps i q :
  uvm m free root tbl ps -> ps.*1 !! i = Some q -> maps (m_mem m) tbl (Z.of_nat i) q.
Proof.
  intros Hu Hi. rewrite list_lookup_fmap in Hi.
  destruct (ps !! i) as [[p f]|] eqn:E; [|done]. injection Hi as <-.
  destruct (u_map _ _ _ _ _ Hu _ _ _ E) as (H1 & H2 & H3). exists f. split; [done|].
  split; [done|]. by eapply page_ok_pa.
Qed.

Lemma fst_app (xs ys : list (Z * Z)) : (xs ++ ys).*1 = xs.*1 ++ ys.*1.
Proof. apply fmap_app. Qed.

(** Removing the last pages of an address space. *)
Lemma uvm_unmap_tail m free root tbl ps qs :
  uvm m free root tbl (ps ++ qs) ->
  exists m' free', free' = reverse qs.*1 ++ free /\
    uvmunmap kend root (4096 * Z.of_nat (length ps)) (Z.of_nat (length qs)) true m = Ok tt m' /\
    uvm m' free' root tbl ps /\
    change (fun p => owned free tbl p \/ p ∈ qs.*1) (owned free' tbl) m m'.
Proof.
  intros Hu. pose proof Hu as [Hv Hm Hf Hnd Hown Hlen Htop]. rewrite length_app in Hlen, Hf.
  rewrite fst_app in *. apply NoDup_app in Hnd as (Hn1 & Hn2 & Hn3).
  assert (Hb : 4096 * vpn TRAPFRAME <= 2 ^ 38) by (vm_compute; congruence).
  set (a := 4096 * Z.of_nat (length ps)) in *.
  assert (Hva : vpn a = Z.of_nat (length ps)) by (unfold vpn, a; rewrite Z.mul_comm, Z.div_mul; lia).
  destruct (uvmunmap_loop_spec root tbl true qs.*1 (length qs) m free a) as (m' & E & Hv' & Hc & Hl);
    try done; rewrite ?length_fmap; try lia.
  - change MAXVA with (2 ^ 38). lia.
  - intros i q Hi. rewrite Hva. replace (_ + _) with (Z.of_nat (length ps + i)) by lia.
    eapply u_maps; [exact Hu|]. rewrite fst_app, lookup_app_r; rewrite length_fmap; [|lia].
    rewrite <- Hi. f_equal. lia.
  - apply Forall_forall. intros q Hq. eapply u_page; [exact Hu|]. rewrite fst_app, elem_of_app. by right.
  - intros q Hq. apply Hown, elem_of_app. by right.
  - rewrite length_fmap, Hva in *. cbn [given] in *. exists m', (reverse qs.*1 ++ free).
    split; [done|]. split; [|split; [split|done]]; try done.
    + unfold uvmunmap, PGSIZE. unfold a at 1. rewrite Z.mul_comm, Z.mod_mul by lia.
      cbn [Z.eqb negb]. rewrite Nat2Z.id. rewrite Z.mul_comm. fold a.
      replace (u64 (a + 4096 * Z.of_nat (length qs))) with (a + 4096 * Z.of_nat (length qs)); [done|].
      symmetry. apply Z.mod_small. lia.
    + intros i p f Hi. rewrite Hl. pose proof (lookup_lt_Some _ _ _ Hi). zcase; try lia.
      all: apply Hm; by apply lookup_app_l_Some.
    + intros j Hj. rewrite Hl. zcase; try lia; try done. apply Hf. lia.
    + intros p Hp. unfold owned. rewrite elem_of_app, elem_of_reverse.
      assert (Hpo : ~ owned free tbl p) by (apply Hown, elem_of_app; by left).
      intros [[H|H]|H]; [by apply (Hn2 p)|apply Hpo; by left|apply Hpo; by right].
    + lia.
    + intros j Hj. rewrite <- Htop, Hl by done. zcase; try done; lia.
Qed.

(** The number of pages that [sz] bytes take. *)
Definition pgs (sz : Z) : nat := Z.to_nat ((sz + 4095) / 4096).

Lemma PGROUNDUP_pgs sz : 0 <= sz <= TRAPFRAME -> PGROUNDUP sz = 4096 * Z.of_nat (pgs sz).
Proof.
  intros H. change TRAPFRAME with (2 ^ 38 - 8192) in H. rewrite PGROUNDUP_eq by lia.
  unfold pgs. rewrite Z2Nat.id by (apply Z.div_pos; lia). lia.
Qed.

Lemma pgs_mono a b : 0 <= a <= b -> (pgs a <= pgs b)%nat.
Proof. intros H. unfold pgs. apply Z2Nat.inj_le; [dlia|dlia|]. apply Z.div_le_mono; lia. Qed.

Lemma pgs_mul n : pgs (4096 * Z.of_nat n) = n.
Proof. unfold pgs. replace ((_ + 4095) / 4096) with (Z.of_nat n) by dlia. apply Nat2Z.id. Qed.

Lemma pgs_bound sz : 0 <= sz <= TRAPFRAME -> 4096 * Z.of_nat (pgs sz) <= TRAPFRAME.
Proof.
  intros H. change TRAPFRAME with (2 ^ 38 - 8192) in *. unfold pgs.
  rewrite Z2Nat.id by (apply Z.div_pos; lia). dlia.
Qed.

Lemma vpn_TRAPFRAME : vpn TRAPFRAME = 2 ^ 26 - 2.
Proof. reflexivity. Qed.

Lemma uvmdealloc_spec m free root tbl ps oldsz newsz :
  uvm m free root tbl ps -> 0 <= oldsz <= TRAPFRAME -> 0 <= newsz -> length ps = pgs oldsz ->
  exists m' free', uvmdealloc kend root oldsz newsz m = Ok (Z.min oldsz newsz) m' /\
    free' = reverse (drop (pgs newsz) ps).*1 ++ free /\
    uvm m' free' root tbl (take (pgs newsz) ps) /\
    change (fun p => owned free tbl p \/ p ∈ (drop (pgs newsz) ps).*1) (owned free' tbl) m m'.
Proof.
  intros Hu Hold Hnew Hlen. unfold uvmdealloc.
  assert (Hid : (length ps <= pgs newsz)%nat ->
    reverse (drop (pgs newsz) ps).*1 ++ free = free /\ take (pgs newsz) ps = ps /\
    change (fun p => owned free tbl p \/ p ∈ (drop (pgs newsz) ps).*1) (owned free tbl) m m).
  { intros Hge. rewrite drop_ge, take_ge by done. split; [done|]. split; [done|].
    apply change_id. intros p. cbn. rewrite elem_of_nil. tauto. }
  rewrite Z.geb_leb. destruct (Z.leb_spec oldsz newsz) as [Hle|Hlt].
  { destruct Hid as (E1 & E2 & E3); [pose proof (pgs_mono oldsz newsz); lia|].
    exists m, free. rewrite E1, E2, Z.min_l by lia. done. }
  rewrite !PGROUNDUP_pgs by lia. rewrite Z.min_r by lia.
  pose proof (pgs_mono newsz oldsz). pose proof (pgs_bound oldsz Hold) as Hb.
  destruct (Z.ltb_spec (4096 * Z.of_nat (pgs newsz)) (4096 * Z.of_nat (pgs oldsz))).
  - assert (Hu' : uvm m free root tbl (take (pgs newsz) ps ++ drop (pgs newsz) ps))
      by by rewrite take_drop.
    destruct (uvm_unmap_tail _ _ _ _ _ _ Hu') as (m' & free' & -> & E & Hu2 & Hc).
    rewrite length_take_le, length_drop, Hlen in E by lia.
    change TRAPFRAME with (2 ^ 38 - 8192) in *.
    assert (En : u64 (i32 ((4096 * Z.of_nat (pgs oldsz) - 4096 * Z.of_nat (pgs newsz)) / PGSIZE))
      = Z.of_nat (pgs oldsz - pgs newsz)).
    { rewrite <- Z.mul_sub_distr_l, Z.mul_comm. unfold PGSIZE. rewrite Z.div_mul by lia.
      unfold i32. rewrite Z.mod_small by lia. unfold u64. rewrite Z.mod_small; lia. }
    rewrite En, (bind_ok _ _ _ _ _ E). exists m', (reverse (drop (pgs newsz) ps).*1 ++ free). done.
  - destruct Hid as (E1 & E2 & E3); [lia|]. mgo. exists m, free. rewrite E1, E2. done.
Qed.

(** Every byte of the pages is zero. *)
Definition zero_pages (mm : mem) (ps : list (Z * Z)) : Prop :=
  forall p i, p ∈ ps.*1 -> 0 <= i < 4096 -> mget mm (p + i) = 0.

(** Pages outside the footprint of a change keep their contents. *)
Lemma change_page F F' m m' q i :
  change F F' m m' -> (forall p, F p -> page_ok kend p) -> ~ F q -> page_ok kend q ->
  0 <= i < 4096 -> mget (m_mem m') (q + i) = mget (m_mem m) (q + i).
Proof.
  intros Hc HF Hq Hok Hi. eapply untouched_page; [apply Hc| |done|done].
  intros p Hp. split; [auto|]. intros ->. done.
Qed.

(** An address space depends on its entries and on who owns its pages. *)
Lemma uvm_change m free tbl m' free' tbl' root ps :
  uvm m free root tbl ps -> vm_inv kend m' free' root tbl' ->
  (forall j, leaf (m_mem m') tbl' j = leaf (m_mem m) tbl j) ->
  (forall p, owned free' tbl' p -> owned free tbl p) -> uvm m' free' root tbl' ps.
Proof.
  intros [Hv Hm Hf Hnd Hown Hlen Htop] Hv' Hl Ho. split; try done.
  - intros i p f Hi. rewrite Hl. by apply Hm.
  - intros j Hj. rewrite Hl. by apply Hf.
  - intros p Hp H. by apply (Hown p Hp), Ho.
  - intros j Hj. rewrite Hl. by apply Htop.
Qed.

Lemma leaf_flags_V perm : 0 <= perm < 1024 -> Z.lor perm PTE_V <> PTE_V -> leaf_flags (Z.lor perm PTE_V).
Proof.
  intros H1 H2. split; [by apply flags_V|]. split; [|done].
  rewrite Z.lor_spec. apply orb_true_r.
Qed.

(** Mapping one more page at the end. *)
Lemma uvm_map_page m free root tbl ps page perm :
  uvm m free root tbl ps -> page_ok kend page -> ~ owned free tbl page -> page ∉ ps.*1 ->
  0 <= perm < 1024 -> Z.lor perm PTE_V <> PTE_V -> Z.of_nat (length ps) < vpn TRAPFRAME ->
  exists r m' free' tbl',
    mappages root (4096 * Z.of_nat (length ps)) PGSIZE page perm m = Ok r m' /\
    change (owned free tbl) (owned free' tbl') m m' /\
    (r = 0 /\ uvm m' free' root tbl' (ps ++ [(page, Z.lor perm PTE_V)]) \/
     r = -1 /\ free' = [] /\ uvm m' free' root tbl' ps).
Proof.
  intros Hu Hpg Hno Hnin Hperm HpV Hlt. pose proof Hu as [Hv Hm Hf Hnd Hown Hlen Htop].
  rewrite vpn_TRAPFRAME in *. set (a := 4096 * Z.of_nat (length ps)).
  assert (Hva : vpn a = Z.of_nat (length ps)) by (unfold vpn, a; rewrite Z.mul_comm, Z.div_mul; lia).
  assert (Hn : vpn (a + PGSIZE - 1) + 1 - vpn a = 1).
  { rewrite Hva. unfold vpn, a, PGSIZE. dlia. }
  pose proof (page_ok_pa kend page kend_pos Hpg) as Hpa.
  destruct (mappages_spec root a PGSIZE page perm m free tbl) as
    (r & d & m' & free' & tbl' & E & Hv' & Hc & Hres & Hl); rewrite ?Hn in *; try done; try lia.
  - change MAXVA with (2 ^ 38). unfold PGSIZE, a. lia.
  - destruct Hpg as [_ Hpg]. unfold PHYSTOP, KERNBASE, PGSIZE in *. lia.
  - intros j Hj. apply Hf. lia.
  - exists r, m', free', tbl'. split; [done|]. split; [done|]. rewrite Hva in Hl.
    destruct Hres as [[-> ->]|(-> & Hd & ->)]; [left|right].
    + split; [done|]. split; try done.
      * intros i p f Hi. rewrite Hl. apply lookup_app_Some in Hi as [Hi|[Hge Hi]].
        -- pose proof (lookup_lt_Some _ _ _ Hi). zcase; try lia; by apply Hm.
        -- destruct (i - length ps)%nat as [|?] eqn:Ei; [|done]. injection Hi as <- <-.
           zcase; try lia. replace (page + _) with page by lia. rewrite mkpte_eq.
           split; [done|]. split; [by apply leaf_flags_V|done].
      * intros j Hj. rewrite length_app in Hj. cbn in Hj. rewrite vpn_TRAPFRAME in Hj.
        rewrite Hl. zcase; try lia. all: apply Hf; lia.
      * rewrite fst_app. apply NoDup_app. split; [done|]. split; [|apply NoDup_singleton].
        intros p Hp ->%list_elem_of_singleton. done.
      * rewrite fst_app. intros p [Hp| ->%list_elem_of_singleton]%elem_of_app H;
          apply (ch_own _ _ _ _ Hc) in H; [by apply (Hown p)|done].
      * rewrite length_app, vpn_TRAPFRAME. cbn. lia.
      * intros j Hj. rewrite vpn_TRAPFRAME in Hj. rewrite Hl, Htop by done. zcase; try done; lia.
    + split; [done|]. split; [done|]. apply (uvm_change m free tbl); try done.
      * intros j. rewrite Hl. zcase; try done; lia.
      * intros p. apply Hc.
Qed.

(** Taking a page from the free list and filling it. *)
Lemma uvm_new_page p f m free root tbl ps :
  uvm m (p :: free) root tbl ps -> (forall mm, page_change p mm (f mm)) ->
  page_ok kend p /\ p <> 0 /\ ~ owned free tbl p /\ ~ (p ∈ ps.*1) /\
  exists m', kalloc m = Ok p m' /\ uvm (with_mem f m') free root tbl ps /\
    change (owned (p :: free) tbl) (fun q => owned free tbl q \/ q = p) m (with_mem f m').
Proof.
  intros Hu Hf. pose proof Hu as [Hv Hm Hfr Hnd Hown Hlen Htop].
  destruct (kalloc_vm p m free root tbl Hv) as (Hp & Hp0 & Hno & m' & E & Hv' & Hc & Hl).
  split; [done|]. split; [done|]. split; [done|].
  split; [intros H; apply (Hown p H); left; by left|]. exists m'. split; [done|].
  destruct (private_write p f m' free root tbl Hv' Hp Hno (Hf _)) as (Hv2 & Hc2 & Hl2).
  split.
  - apply (uvm_change m (p :: free) tbl); try done.
    + intros j. by rewrite Hl2, Hl.
    + intros q Hq. apply (ch_own _ _ _ _ Hc). by left.
  - eapply change_trans; [exact Hc|]. eapply change_iff;
      [| |exact (change_or _ _ (owned free tbl) _ _ Hc2)]; intros q; tauto.
Qed.

Lemma owned_ok m free root tbl p : vm_inv kend m free root tbl -> owned free tbl p -> page_ok kend p.
Proof. intros Hv. by apply (owned_page_ok kend m free root). Qed.

Lemma PTE_WXRU_ok : 0 <= PTE_WXRU < 1024 /\ Z.lor PTE_WXRU PTE_V <> PTE_V.
Proof. vm_compute. split; [split|]; congruence. Qed.

(** The flags of a page that [uvmalloc] maps. *)
Definition user_rwx : Z := Z.lor PTE_WXRU PTE_V.

Lemma uvm_kfree page m free root tbl ps :
  uvm m free root tbl ps -> page_ok kend page -> ~ owned free tbl page -> ~ (page ∈ ps.*1) ->
  exists m', kfree kend page m = Ok tt m' /\ uvm m' (page :: free) root tbl ps /\
    change (fun p => owned free tbl p \/ p = page) (owned (page :: free) tbl) m m'.
Proof.
  intros [Hv Hm Hf Hnd Hown Hlen Htop] Hp Hno Hnin.
  destruct (kfree_vm page m free root tbl Hv Hp Hno) as (m' & E & Hv' & Hc & Hl).
  exists m'. split; [done|]. split; [|done]. split; try done.
  - intros i p f Hi. rewrite Hl. by apply Hm.
  - intros j Hj. rewrite Hl. by apply Hf.
  - intros p Hp' H. apply (ch_own _ _ _ _ Hc) in H as [H| ->]; [by apply (Hown p)|done].
  - intros j Hj. rewrite Hl. by apply Htop.
Qed.

(** The pages mapped so far and the new one are zero after [mappages]. *)
Lemma zero_pages_snoc m m2 m3 page f ps new free root tbl F2 F3 :
  uvm m (page :: free) root tbl (ps ++ new) -> uvm m2 free root tbl (ps ++ new) ->
  change (owned (page :: free) tbl) F2 m m2 -> change (owned free tbl) F3 m2 m3 ->
  page_ok kend page -> ~ owned free tbl page -> zero_pages (m_mem m) new ->
  (forall i, 0 <= i < 4096 -> mget (m_mem m2) (page + i) = 0) ->
  zero_pages (m_mem m3) (new ++ [(page, f)]).
Proof.
  intros Hu Hu1 Hc1 Hc3 Hpok Hno Hz Hz2.
  pose proof (fun p => owned_ok m (page :: free) root tbl p (u_vm _ _ _ _ _ Hu)) as Hok0.
  pose proof (fun p => owned_ok m2 free root tbl p (u_vm _ _ _ _ _ Hu1)) as Hok2.
  intros p i. rewrite fst_app. intros [Hp| ->%list_elem_of_singleton]%elem_of_app Hi.
  - assert (Hpa : p ∈ (ps ++ new).*1) by (rewrite fst_app, elem_of_app; by right).
    pose proof (u_page _ _ _ _ _ _ Hu Hpa).
    rewrite (change_page _ _ _ _ _ _ Hc3) by (try done; by apply (u_own _ _ _ _ _ Hu1)).
    rewrite (change_page _ _ _ _ _ _ Hc1) by (try done; by apply (u_own _ _ _ _ _ Hu)).
    by apply Hz.
  - rewrite (change_page _ _ _ _ _ _ Hc3) by done. by apply Hz2.
Qed.

(** The failure path of [uvmalloc]: the pages added so far are given back. *)
Lemma uvmalloc_undo m free root tbl ps new :
  uvm m free root tbl (ps ++ new) ->
  let a := 4096 * Z.of_nat (length (ps ++ new)) in
  let oldsz := 4096 * Z.of_nat (length ps) in
  exists m' free', uvmdealloc kend root a oldsz m = Ok oldsz m' /\
    uvm m' free' root tbl ps /\
    change (fun p => owned free tbl p \/ p ∈ new.*1) (owned free' tbl) m m'.
Proof.
  intros Hu a oldsz. pose proof (u_len _ _ _ _ _ Hu) as Hlen. rewrite vpn_TRAPFRAME in Hlen.
  destruct (uvmdealloc_spec m free root tbl (ps ++ new) a oldsz) as (m' & free' & E & _ & Hu' & Hc);
    [done|unfold a; change TRAPFRAME with (2 ^ 38 - 8192); lia|unfold oldsz; lia|
     by unfold a; rewrite pgs_mul|].
  unfold oldsz in *. rewrite pgs_mul, take_app_length, drop_app_length in *.
  exists m', free'. split; [|done]. rewrite E. f_equal. unfold a. rewrite length_app. lia.
Qed.

(** One round of the loop: a new page, or everything is given back. *)
Lemma uvmalloc_round root newsz ps fuel m free tbl new (a := 4096 * Z.of_nat (length (ps ++ new))) :
  0 <= newsz <= TRAPFRAME -> a < newsz -> uvm m free root tbl (ps ++ new) -> zero_pages (m_mem m) new ->
  (exists m3 free3 tbl3 page,
     uvmalloc_loop kend (S fuel) root (4096 * Z.of_nat (length ps)) a newsz m = uvmalloc_loop kend fuel root (4096 * Z.of_nat (length ps)) (u64 (a + PGSIZE)) newsz m3 /\
     uvm m3 free3 root tbl3 (ps ++ new ++ [(page, user_rwx)]) /\ zero_pages (m_mem m3) (new ++ [(page, user_rwx)]) /\
     change (fun p => owned free tbl p \/ p ∈ new.*1) (fun p => owned free3 tbl3 p \/ p ∈ (new ++ [(page, user_rwx)]).*1) m m3) \/
  (exists m' free' tbl', uvmalloc_loop kend (S fuel) root (4096 * Z.of_nat (length ps)) a newsz m = Ok 0 m' /\
     uvm m' free' root tbl' ps /\ change (fun p => owned free tbl p \/ p ∈ new.*1) (owned free' tbl') m m').
Proof.
  intros Hsz Hlt Hu Hz. cbn [uvmalloc_loop]. pose proof (pgs_bound newsz Hsz) as Hpb. change TRAPFRAME with (2 ^ 38 - 8192) in *.
  zcase; [|lia]. pose proof PTE_WXRU_ok as [Hw1 Hw2]. destruct free as [|page free].
  - right. rewrite (bind_ok kalloc _ m 0 (settle m)) by (apply kalloc_empty; apply Hu). cbn beta.
    assert (Hus : uvm (settle m) [] root tbl (ps ++ new)) by (apply (uvm_change m [] tbl); try done; apply vm_inv_settle; apply Hu).
    destruct (uvmalloc_undo _ _ _ _ _ _ Hus) as (m' & free' & E & Hu' & Hc). fold a in E. rewrite Z.eqb_refl, (bind_ok _ _ _ _ _ E).
    exists m', free', tbl. split; [done|]. split; [done|]. eapply change_trans; [eapply change_or, gr_change, grow_settle|exact Hc].
  - destruct (uvm_new_page page (fun mm => memset mm page 0 PGSIZE) m free root tbl (ps ++ new) Hu)
      as (Hpok & Hp0 & Hno & Hnin & m1 & E1 & Hu1 & Hc1); [intros; apply page_change_memset|].
    rewrite (bind_ok _ _ _ _ _ E1). cbn beta. destruct (Z.eqb_spec page 0); [done|]. unfold zero_page. mgo. set (m2 := with_mem _ m1) in *.
    destruct (uvm_map_page m2 free root tbl (ps ++ new) page PTE_WXRU) as (r & m3 & free3 & tbl3 & E3 & Hc3 & Hres); try done; [rewrite vpn_TRAPFRAME; lia|].
    fold a in E3. rewrite (bind_ok _ _ _ _ _ E3). cbn beta. destruct Hres as [[-> Hu3]|(-> & -> & Hu3)]; cbn [Z.eqb negb].
    + left. rewrite <- app_assoc in Hu3. exists m3, free3, tbl3, page. split; [done|]. split; [done|]. split.
      * apply (zero_pages_snoc m m2 m3 page user_rwx ps new free root tbl _ _ Hu Hu1 Hc1 Hc3 Hpok Hno Hz).
        intros i Hi. unfold m2. cbn. rewrite mget_memset by (unfold PGSIZE; lia). unfold PGSIZE. zcase; try done; lia.
      * apply (change_step _ _ (fun p => p ∈ new.*1) _ _ _ _ _ Hc1); [done|].
        eapply change_iff; [| |exact (change_or _ _ (fun p => p = page \/ p ∈ new.*1) _ _ Hc3)]; intros p; [tauto|].
        rewrite fst_app, elem_of_app. change [(page, user_rwx)].*1 with [page]. rewrite list_elem_of_singleton. tauto.
    + right. destruct (uvm_kfree page m3 [] root tbl3 (ps ++ new)) as (m4 & E4 & Hu4 & Hc4); try done.
      { intros Ho. by apply Hno, (ch_own _ _ _ _ Hc3). }
      rewrite (bind_ok _ _ _ _ _ E4). cbn beta. destruct (uvmalloc_undo _ _ _ _ _ _ Hu4) as (m' & free' & E & Hu' & Hc). fold a in E.
      rewrite (bind_ok _ _ _ _ _ E). exists m', free', tbl3. split; [done|]. split; [done|].
      apply (change_step _ _ (fun p => p ∈ new.*1) _ _ _ _ _ Hc1); [done|].
      apply (change_step _ _ (fun p => p = page \/ p ∈ new.*1) _ _ _ _ _ Hc3); [tauto|].
      apply (change_step _ _ (fun p => p ∈ new.*1) _ _ _ _ _ Hc4); [tauto|exact Hc].
Qed.

Lemma uvmalloc_loop_spec root newsz ps : 0 <= newsz <= TRAPFRAME ->
  forall k fuel m free tbl new,
  uvm m free root tbl (ps ++ new) -> zero_pages (m_mem m) new -> new.*2 = replicate (length new) user_rwx ->
  (length (ps ++ new) + k = Nat.max (pgs newsz) (length (ps ++ new)))%nat -> (k <= fuel)%nat ->
  exists r m' free' tbl' new',
    uvmalloc_loop kend fuel root (4096 * Z.of_nat (length ps)) (4096 * Z.of_nat (length (ps ++ new))) newsz m
      = Ok r m' /\
    uvm m' free' root tbl' (ps ++ new') /\
    change (fun p => owned free tbl p \/ p ∈ new.*1) (fun p => owned free' tbl' p \/ p ∈ new'.*1) m m' /\
    zero_pages (m_mem m') new' /\ new'.*2 = replicate (length new') user_rwx /\
    (r = newsz /\ length new' = (length new + k)%nat \/ r = 0 /\ new' = []).
Proof.
  intros Hsz. induction k as [|k IH]; intros fuel m free tbl new Hu Hz Hfl Hk Hf.
  { assert (Hge : newsz <= 4096 * Z.of_nat (length (ps ++ new))).
    { unfold pgs in Hk. assert (0 <= (newsz + 4095) / 4096) by dlia. dlia. }
    exists newsz, m, free, tbl, new. split.
    - destruct fuel; cbn [uvmalloc_loop]; zcase; try done; lia.
    - split; [done|]. split; [by apply change_id|]. split; [done|]. split; [done|]. left. split; [done|lia]. }
  destruct fuel as [|fuel]; [lia|]. assert (Hlt : 4096 * Z.of_nat (length (ps ++ new)) < newsz).
  { unfold pgs in Hk. assert (0 <= (newsz + 4095) / 4096) by dlia. dlia. }
  destruct (uvmalloc_round root newsz ps fuel m free tbl new Hsz Hlt Hu Hz) as [(m3 & free3 & tbl3 & page & -> & Hu3 & Hz3 & Hc3)|(m' & free' & tbl' & -> & Hu' & Hc')].
  - destruct (IH fuel m3 free3 tbl3 (new ++ [(page, user_rwx)])) as (r & m' & free' & tbl' & new' & E' & Hu' & Hc' & Hz' & Hfl' & Hr); try done.
    + rewrite fmap_app, Hfl, length_app. cbn. by rewrite Nat.add_1_r, replicate_S_end.
    + rewrite !length_app in *. cbn. lia.
    + lia.
    + exists r, m', free', tbl', new'. split; [|split; [done|split; [by eapply change_trans|split; [done|split; [done|]]]]].
      * rewrite <- E'. f_equal. change TRAPFRAME with (2 ^ 38 - 8192) in *. rewrite length_app in Hlt. rewrite !length_app. cbn. unfold u64, PGSIZE. rewrite Z.mod_small; lia.
      * rewrite length_app in Hr. cbn in Hr. destruct Hr as [[-> ?]|[-> ->]]; [left|by right]. split; [done|lia].
  - exists 0, m', free', tbl', []. rewrite app_nil_r. split; [done|]. split; [done|]. split; [|split; [by intros p i Hp%not_elem_of_nil|split; [done|by right]]].
    eapply change_iff; [| |exact Hc']; [done|]. intros p. cbn. rewrite elem_of_nil. tauto.
Qed.

(** ** What the user sees *)

(** The byte at user address [va], where a user page is mapped. *)
Definition ubyte (mm : mem) (ps : list (Z * Z)) (va : Z) : option Z :=
  match ps !! Z.to_nat (va / 4096) with
  | Some (p, f) => if Z.testbit f 4 then Some (mget mm (p + va mod 4096)) else None
  | None => None
  end.

Lemma ubyte_keep mm mm' ps va :
  (forall p i, p ∈ ps.*1 -> 0 <= i < 4096 -> mget mm' (p + i) = mget mm (p + i)) ->
  ubyte mm' ps va = ubyte mm ps va.
Proof.
  intros H. unfold ubyte. destruct (ps !! _) as [[p f]|] eqn:E; [|done].
  destruct (Z.testbit f 4); [|done]. f_equal. apply H; [|apply Z.mod_pos_bound; lia].
  apply list_elem_of_fmap. exists (p, f). split; [done|]. by eapply list_elem_of_lookup_2.
Qed.

Lemma ubyte_app_l mm ps new va :
  0 <= va < 4096 * Z.of_nat (length ps) -> ubyte mm (ps ++ new) va = ubyte mm ps va.
Proof. intros H. unfold ubyte. rewrite lookup_app_l; [done|]. dlia. Qed.

Lemma ubyte_new mm ps new va :
  zero_pages mm new -> new.*2 = replicate (length new) user_rwx ->
  4096 * Z.of_nat (length ps) <= va < 4096 * Z.of_nat (length (ps ++ new)) ->
  ubyte mm (ps ++ new) va = Some 0.
Proof.
  intros Hz Hf Hva. rewrite length_app in Hva. unfold ubyte.
  assert (Hi : (length ps <= Z.to_nat (va / 4096) < length ps + length new)%nat) by dlia.
  rewrite lookup_app_r by lia.
  destruct (new !! _) as [[p f]|] eqn:E; [|apply lookup_ge_None in E; lia].
  pose proof (list_elem_of_lookup_2 _ _ _ E) as Hin.
  assert (Ef : new.*2 !! (Z.to_nat (va / 4096) - length ps)%nat = Some f)
    by (rewrite list_lookup_fmap, E; done).
  rewrite Hf in Ef. apply lookup_replicate in Ef as [-> _]. change (Z.testbit user_rwx 4) with true.
  f_equal. cbn. apply Hz; [|apply Z.mod_pos_bound; lia].
  apply list_elem_of_fmap. by exists (p, user_rwx).
Qed.

(** ** The operations *)

(** A fresh page table. *)
Lemma zero_root_rep mm root :
  page_ok kend root -> (forall i, 0 <= i < 512 -> load64 mm (root + 8 * i) = 0) ->
  pt_rep kend mm root {[(2%nat, 0) := root]} /\
  forall j, leaf mm ({[(2%nat, 0) := root]} : tables) j = 0.
Proof.
  intros Hok Hz.
  assert (Hlk : forall k p, ({[(2%nat, 0) := root]} : tables) !! k = Some p -> k = (2%nat, 0) /\ p = root)
    by (intros k p [<- <-]%lookup_singleton_Some; done).
  split; [split|].
  - apply lookup_singleton_eq.
  - intros k k' p [-> _]%Hlk [-> _]%Hlk. done.
  - by intros k p [_ ->]%Hlk.
  - by intros l y q [[= -> _] _]%Hlk.
  - intros l y q [[= -> ->] _]%Hlk. by left.
  - intros l x p i [[= -> ->] ->]%Hlk Hi. rewrite lookup_singleton_ne by done. by rewrite Hz.
  - intros j. unfold leaf. by rewrite lookup_singleton_ne.
Qed.

Lemma uvmcreate_spec m free :
  (forall j, top j = 0) -> hart_ok m -> unlocked Lk_kmem m -> kmem_inv kend m free ->
  match free with
  | [] => uvmcreate m = Ok 0 (settle m)
  | p :: free' => exists m', uvmcreate m = Ok p m' /\
                    uvm m' free' p {[(2%nat, 0) := p]} [] /\
                    change (fun q => q ∈ free) (fun q => q ∈ free) m m'
  end.
Proof.
  intros Htop Hok Hlk Hk. unfold uvmcreate. destruct free as [|p free].
  { by rewrite (bind_ok kalloc _ m 0 (settle m)) by (apply kalloc_empty; try done; apply Hk). }
  destruct (kalloc_inv kend kend_pos p free m Hk) as (Hfl & Hp0 & Hpok & Hpin & Hk').
  rewrite (bind_ok kalloc _ m _ _ (kalloc_cons p m Hok Hlk Hfl Hp0)). cbn beta.
  destruct (Z.eqb_spec p 0); [done|]. unfold zero_page. mgo.
  eexists. split; [reflexivity|]. set (m1 := with_mem _ (settle _)) in *. set (m2 := with_mem _ m1).
  destruct (zero_root_rep (m_mem m2) p Hpok) as [Hr Hl];
    [intros i Hi; by apply load64_zero_page|].
  split; [split; try done|].
  - split; try done.
    + by apply (hart_ok_settle m).
    + apply (kmem_inv_untouched kend kend_pos (fun q => q = p) m1 m2 _ Hk' eq_refl).
      * apply (page_change_untouched _ p); [done|]. apply page_change_memset.
      * by intros q ->.
    + intros q [k [_ <-]%lookup_singleton_Some]. done.
  - intros j _. by rewrite Hl.
  - constructor.
  - intros q Hq. by apply not_elem_of_nil in Hq.
  - intros j _. by rewrite Hl, Htop.
  - split; [|apply (page_change_untouched _ p); [by left|]|done].
    + do 2 (eapply same_rest_trans; [|apply same_rest_mem]). apply same_rest_freelist.
    + apply (page_change_trans p _ (m_mem m1)); apply page_change_memset.
Qed.

(** C16. Growing an address space with [uvmalloc] either succeeds, and then the user
    finds the old bytes below the old size and zeros in the new pages, or it
    returns 0 and the address space is the old one; no page is lost: the pages
    that were free are free, in the page table or among the new pages. *)
Theorem uvmalloc_correct m free root tbl ps oldsz newsz :
  uvm m free root tbl ps -> 0 <= oldsz <= newsz -> newsz <= TRAPFRAME ->
  length ps = pgs oldsz ->
  exists r m' free' tbl' new,
    uvmalloc kend root oldsz newsz m = Ok r m' /\
    uvm m' free' root tbl' (ps ++ new) /\
    (r = newsz /\ length (ps ++ new) = pgs newsz \/ r = 0 /\ new = []) /\
    (forall va, 0 <= va < 4096 * Z.of_nat (length ps) ->
       ubyte (m_mem m') (ps ++ new) va = ubyte (m_mem m) ps va) /\
    (forall va, 4096 * Z.of_nat (length ps) <= va < 4096 * Z.of_nat (length (ps ++ new)) ->
       ubyte (m_mem m') (ps ++ new) va = Some 0) /\
    forall p, owned free' tbl' p \/ p ∈ new.*1 <-> owned free tbl p.
Proof.
  intros Hu Hold Hnew Hlen. unfold uvmalloc. destruct (Z.ltb_spec newsz oldsz); [lia|].
  rewrite PGROUNDUP_pgs by lia. rewrite <- Hlen. pose proof (pgs_mono oldsz newsz Hold) as Hmono.
  destruct (uvmalloc_loop_spec root newsz ps ltac:(lia) (pgs newsz - length ps)
    (S (Z.to_nat ((newsz - 4096 * Z.of_nat (length ps)) / PGSIZE))) m free tbl [])
    as (r & m' & free' & tbl' & new & E & Hu' & Hc & Hz & Hf & Hr).
  - by rewrite app_nil_r.
  - by intros p i Hp%not_elem_of_nil.
  - done.
  - rewrite app_nil_r. lia.
  - unfold pgs, PGSIZE. dlia.
  - rewrite app_nil_r in E. exists r, m', free', tbl', new. split; [done|]. split; [done|].
    split; [|split; [|split]].
    + destruct Hr as [[-> Hl]|?]; [left|by right]. rewrite length_app, Hl. cbn. split; [done|lia].
    + intros va Hva. rewrite ubyte_app_l by done. apply ubyte_keep. intros p i Hp Hi.
      eapply change_page; [exact Hc| | |eapply u_page; [exact Hu|done]|done].
      * intros q [Hq|Hq%not_elem_of_nil]; [|done]. eapply owned_ok; [apply Hu|done].
      * intros [Ho|Hq%not_elem_of_nil]; [|done]. by apply (u_own _ _ _ _ _ Hu p).
    + intros va Hva. by apply ubyte_new.
    + intros p. rewrite (ch_own _ _ _ _ Hc p). cbn. rewrite elem_of_nil. tauto.
Qed.

(** Shrinking with [uvmdealloc] keeps the bytes of the remaining pages and gives
    the other pages back to the allocator. *)
Theorem uvmdealloc_correct m free root tbl ps oldsz newsz :
  uvm m free root tbl ps -> 0 <= oldsz <= TRAPFRAME -> 0 <= newsz -> length ps = pgs oldsz ->
  exists m' free', uvmdealloc kend root oldsz newsz m = Ok (Z.min oldsz newsz) m' /\
    uvm m' free' root tbl (take (pgs newsz) ps) /\
    free' = reverse (drop (pgs newsz) ps).*1 ++ free /\
    forall va, ubyte (m_mem m') (take (pgs newsz) ps) va = ubyte (m_mem m) (take (pgs newsz) ps) va.
Proof.
  intros Hu Hold Hnew Hlen.
  destruct (uvmdealloc_spec m free root tbl ps oldsz newsz Hu Hold Hnew Hlen)
    as (m' & free' & E & Ef & Hu' & Hc).
  exists m', free'. split; [done|]. split; [done|]. split; [done|].
  intros va. apply ubyte_keep. intros p i Hp Hi.
  pose proof (u_nodup _ _ _ _ _ Hu) as Hnd. rewrite <- (take_drop (pgs newsz) ps), fst_app in Hnd.
  apply NoDup_app in Hnd as (_ & Hnd & _).
  assert (Hin : forall q, q ∈ (take (pgs newsz) ps).*1 \/ q ∈ (drop (pgs newsz) ps).*1 -> q ∈ ps.*1).
  { intros q Hq. rewrite <- (take_drop (pgs newsz) ps), fst_app, elem_of_app. done. }
  eapply change_page; [exact Hc| | |eapply u_page; [exact Hu|auto]|done].
  - intros q [Hq|Hq]; [eapply owned_ok; [apply Hu|done]|]. eapply u_page; [exact Hu|auto].
  - intros [Ho|Hq]; [by apply (u_own _ _ _ _ _ Hu p); [auto|]|]. by apply (Hnd p).
Qed.
End Uvm.

(** ** A small machine *)

(** Twelve free pages at the end of the memory. *)
Definition pool_end : Z := PHYSTOP - 12 * 4096.
Definition pool_pages : list Z := map (fun i => pool_end + 4096 * i) (seqZ 0 12).

Definition pool : machine :=
  mk_machine (mk_hart 0 2 0 0 None) {[Lk_kmem := mk_spinlock 0 "kmem" None]}
    (foldr (fun i mm => store64 mm (pool_end + 4096 * i) (pool_end + 4096 * (i + 1))) ∅ (seqZ 0 11))
    pool_end [] None 1 0.

Lemma pool_inv : kmem_inv pool_end pool pool_pages.
Proof.
  split.
  - vm_compute. tauto.
  - by apply (bool_decide_unpack _); vm_compute.
  - apply Forall_forall. intros p (i & <- & Hi)%list_elem_of_In%in_map_iff.
    apply list_elem_of_In, elem_of_seqZ in Hi. unfold page_ok, pool_end, PHYSTOP, KERNBASE. split; [dlia|lia].
Qed.

Definition no_top (j : Z) : Z := 0.

(** The state after an operation that returned. *)
Definition state_of {A} (r : res machine A) : machine :=
  match r with Ok _ m => m | _ => pool end.

(** An empty address space, and one of two pages. *)
Definition pool_empty : machine := state_of (uvmcreate pool).
Definition pool_two : machine := state_of (uvmalloc pool_end pool_end 0 8192 pool_empty).

Lemma pool_empty_uvm :
  uvm pool_end no_top pool_empty (tail pool_pages) pool_end {[(2%nat, 0) := pool_end]} [].
Proof.
  destruct (uvmcreate_spec pool_end eq_refl no_top pool pool_pages) as (m' & E & Hu & _);
    [done|split; cbn; lia|by exists "kmem"%string|exact pool_inv|].
  unfold pool_empty. by rewrite E.
Qed.

Lemma uvmalloc_correct_witness :
  exists r m' free' tbl' new,
    uvmalloc pool_end pool_end 0 8192 pool_empty = Ok r m' /\
    uvm pool_end no_top m' free' pool_end tbl' new /\
    (r = 8192 /\ length new = pgs 8192 \/ r = 0 /\ new = []).
Proof.
  destruct (uvmalloc_correct pool_end eq_refl no_top pool_empty _ _ _ _ 0 8192 pool_empty_uvm)
    as (r & m' & free' & tbl' & new & E & Hu & Hr & _); [lia|vm_compute; congruence|reflexivity|].
  exists r, m', free', tbl', new. split; [exact E|]. split; [exact Hu|exact Hr].
Defined.

(** A call that is known to return [r]. *)
Lemma ok_state {A} (e : res machine A) (r : A) :
  match e with Ok r' _ => Some r' | _ => None end = Some r -> e = Ok r (state_of e).
Proof. destruct e; intros [=]. by subst. Qed.

Lemma pool_two_eq : uvmalloc pool_end pool_end 0 8192 pool_empty = Ok 8192 pool_two.
Proof. unfold pool_two. apply ok_state. vm_compute. reflexivity. Qed.

#[global] Opaque pool_empty pool_two.

Lemma zero_pages_nil mm : zero_pages mm [].
Proof. by intros p i Hp%not_elem_of_nil. Qed.

Lemma pool_two_uvm : exists free tbl ps,
  uvm pool_end no_top pool_two free pool_end tbl ps /\ ps.*2 = [user_rwx; user_rwx].
Proof.
  assert (Hk : (length ([] ++ [] : list (Z * Z)) + 2)%nat =
               Nat.max (pgs 8192) (length ([] ++ [] : list (Z * Z)))) by (vm_compute; reflexivity).
  assert (Hsz : 0 <= 8192 <= TRAPFRAME) by (split; discriminate).
  pose proof (uvmalloc_loop_spec pool_end eq_refl no_top pool_end 8192 [] Hsz 2 3 pool_empty _ _ []
                pool_empty_uvm (zero_pages_nil _) eq_refl Hk ltac:(lia)) as H.
  destruct H as (r & m' & free' & tbl' & new & E & Hu & _ & _ & Hf & Hr).
  change (uvmalloc pool_end pool_end 0 8192 pool_empty = Ok r m') in E. rewrite pool_two_eq in E.
  apply Ok_inj in E as [<- <-]. destruct Hr as [[_ Hlen]|[H0 _]]; [|discriminate H0].
  exists free', tbl', new. split; [exact Hu|]. rewrite Hf, Hlen. reflexivity.
Qed.

Lemma uvmdealloc_correct_witness :
  exists m' free' tbl' ps, uvmdealloc pool_end pool_end 8192 100 pool_two = Ok 100 m' /\
    uvm pool_end no_top m' free' pool_end tbl' ps /\ length ps = 1%nat.
Proof.
  destruct pool_two_uvm as (free & tbl & ps & Hu & Hf).
  assert (Hl : length ps = pgs 8192) by (rewrite <- (length_fmap snd ps), Hf; reflexivity).
  destruct (uvmdealloc_correct pool_end eq_refl no_top pool_two _ _ _ _ 8192 100 Hu)
    as (m' & free' & E & Hu' & _); [vm_compute; intuition congruence|lia|exact Hl|].
  exists m', free', tbl, (take (pgs 100) ps). split; [exact E|]. split; [exact Hu'|].
  rewrite length_take, Hl. reflexivity.
Defined.
