(* ===== verification/UvmCopy.v ===== *)
(** * Copying and freeing address spaces

    [uvmcopy], the heart of [fork], duplicates the pages of the parent in the
    child; [freewalk] and [uvmfree] give every page of an address space back. *)
From stdpp Require Import gmap list strings.
From S2P Require Import Prelude Kstring Abi Machine Spinlock Kalloc Vm PageTable Uvm.

Lemma lor_has_V f : Z.testbit f 0 = true -> Z.lor f PTE_V = f.
Proof.
  intros Hf. apply Z.bits_inj'. intros i Hi. rewrite Z.lor_spec.
  destruct (Z.eq_dec i 0) as [->|Hne]; [by rewrite Hf|].
  change PTE_V with (Z.ones 1). rewrite Z.ones_spec_high by lia. apply orb_false_r.
Qed.

Section UvmCopy.
Variable kend : Z.
Hypothesis kend_pos : 0 < kend.
(** The entries above the user part, of the parent and of the child. *)
Variables top topN : Z -> Z.

(** The pages of an address space. *)
Definition pages_of (tbl : tables) (ps : list (Z * Z)) (p : Z) : Prop :=
  table_page tbl p \/ p ∈ ps.*1.

Lemma pages_of_ok m free root tbl ps p :
  uvm kend top m free root tbl ps -> pages_of tbl ps p -> page_ok kend p /\ ~ (p ∈ free).
Proof.
  intros Hu [Hp|Hp]; split.
  - eapply owned_ok; [apply Hu|by right].
  - by apply (vi_fresh _ _ _ _ _ (u_vm _ _ _ _ _ _ _ Hu)).
  - by eapply u_page.
  - intros H. apply (u_own _ _ _ _ _ _ _ Hu p Hp). by left.
Qed.

(** Work on one address space leaves the others alone. *)
Lemma uvm_other F F' m m' free free' root tbl ps rootN tblN :
  uvm kend top m free root tbl ps -> vm_inv kend m' free' rootN tblN -> change F F' m m' ->
  (forall p, F p -> page_ok kend p /\ ~ pages_of tbl ps p) -> (forall p, p ∈ free' -> F' p) ->
  uvm kend top m' free' root tbl ps /\
  forall p i, p ∈ ps.*1 -> 0 <= i < 4096 -> mget (m_mem m') (p + i) = mget (m_mem m) (p + i).
Proof.
  intros Hu Hv' Hc HF Hfree. pose proof Hu as [Hv Hm Hf Hnd Hown Hlen Htop].
  assert (Hload : forall k p i, tbl !! k = Some p -> 0 <= i < 512 ->
     load64 (m_mem m') (p + 8 * i) = load64 (m_mem m) (p + 8 * i)).
  { intros k p i Hp Hi. eapply (untouched_load kend);
      [apply Hc| |by eapply (pr_page _ _ _ _ (vi_rep _ _ _ _ _ Hv))|done].
    intros q Hq. destruct (HF q Hq) as [? Hno]. split; [done|]. intros ->. apply Hno. left. by eexists. }
  assert (Hleaf : forall j, leaf (m_mem m') tbl j = leaf (m_mem m) tbl j)
    by (intros j; by apply leaf_frame).
  assert (Hnf : forall p, pages_of tbl ps p -> ~ (p ∈ free')).
  { intros p Hp Hin. apply Hfree, (ch_own _ _ _ _ Hc) in Hin. by apply (HF p Hin). }
  split; [split; try done|].
  - destruct Hv' as [H1 H2 H3 _ _]. split; try done.
    + by apply (pt_rep_frame kend (m_mem m)); [|apply Hv].
    + intros p Hp. apply Hnf. by left.
  - intros i p f Hi. rewrite Hleaf. by apply Hm.
  - intros j Hj. rewrite Hleaf. by apply Hf.
  - intros p Hp [H|H]; [by apply (Hnf p); [right|]|]. apply (Hown p Hp). by right.
  - intros j Hj. rewrite Hleaf. by apply Htop.
  - intros p i Hp Hi. eapply (change_page kend); [exact Hc| | |by eapply u_page|done].
    + intros q Hq. apply (HF q Hq).
    + intros Hq. apply (HF p Hq). by right.
Qed.

(** Page [y] is a copy of [x], with the same flags. *)
Definition page_copy (mm : mem) (x y : Z * Z) : Prop :=
  x.2 = y.2 /\ forall i, 0 <= i < 4096 -> mget mm (y.1 + i) = mget mm (x.1 + i).

Lemma page_copy_keep mm mm' xs ys :
  (forall p i, p ∈ xs.*1 \/ p ∈ ys.*1 -> 0 <= i < 4096 -> mget mm' (p + i) = mget mm (p + i)) ->
  Forall2 (page_copy mm) xs ys -> Forall2 (page_copy mm') xs ys.
Proof.
  intros Hk H. induction H as [|x y xs ys [H1 H2] H IH]; constructor.
  - split; [done|]. intros i Hi. rewrite !Hk by (done || (rewrite !fmap_cons, !elem_of_cons; tauto)). auto.
  - apply IH. intros p i Hp Hi. apply Hk; [|done]. rewrite !fmap_cons, !elem_of_cons. tauto.
Qed.

(** Two address spaces without a common page. *)
Definition apart (tbl : tables) (ps : list (Z * Z)) (tblN : tables) (psN : list (Z * Z)) : Prop :=
  forall p, pages_of tbl ps p -> ~ pages_of tblN psN p.

(** The invariant of the loop of [uvmcopy]: the first pages are copied. *)
Record copying (m : machine) (free : list Z)
    (old : Z) (tbl : tables) (ps : list (Z * Z)) (new : Z) (tblN : tables) (psN : list (Z * Z)) : Prop := {
  cp_old : uvm kend top m free old tbl ps;
  cp_new : uvm kend topN m free new tblN psN;
  cp_apart : apart tbl ps tblN psN;
  cp_done : Forall2 (page_copy (m_mem m)) (take (length psN) ps) psN
}.

Lemma fst_take n (ps : list (Z * Z)) p : p ∈ (take n ps).*1 -> p ∈ ps.*1.
Proof.
  rewrite <- (take_drop n ps) at 2. rewrite fst_app, elem_of_app. by left.
Qed.

(** The pages a step of the child may write: neither the parent's nor those
    already copied. *)
Definition outside (tbl : tables) (ps psN : list (Z * Z)) (p : Z) : Prop :=
  page_ok kend p /\ ~ pages_of tbl ps p /\ ~ (p ∈ psN.*1).

Lemma owned_outside m free old tbl ps new tblN psN p :
  copying m free old tbl ps new tblN psN -> owned free tblN p -> outside tbl ps psN p.
Proof.
  intros [H1 H2 H3 H4] Hp. split; [eapply owned_ok; [apply H2|done]|]. split.
  - intros Hq. destruct Hp as [Hp|Hp]; [by apply (pages_of_ok _ _ _ _ _ _ H1 Hq)|].
    apply (H3 p Hq). by left.
  - intros Hq. by apply (u_own _ _ _ _ _ _ _ H2 p Hq).
Qed.

(** Steps of the child that keep its pages and may add some. *)
Lemma copying_step F F' m m' free free' old tbl ps new tblN tblN' psN ex :
  copying m free old tbl ps new tblN psN -> uvm kend topN m' free' new tblN' (psN ++ ex) ->
  change F F' m m' -> (forall p, F p -> outside tbl ps psN p) ->
  (forall p, owned free' tblN' p -> F' p) -> (forall p, p ∈ ex.*1 -> ~ pages_of tbl ps p) ->
  Forall2 (page_copy (m_mem m')) (take (length ex) (drop (length psN) ps)) ex ->
  copying m' free' old tbl ps new tblN' (psN ++ ex).
Proof.
  intros [H1 H2 H3 H4] Hu' Hc HF HF' Hex Hcp.
  destruct (uvm_other F F' m m' free free' old tbl ps new tblN' H1 (u_vm _ _ _ _ _ _ _ Hu') Hc)
    as [Hold Hkeep].
  { intros p Hp. by destruct (HF p Hp) as (? & ? & _). }
  { intros p Hp. apply HF'. by left. }
  split; [done|done| |].
  - intros p Hp [Hq|Hq].
    + destruct (HF p) as (_ & Hd & _); [|done]. apply (ch_own _ _ _ _ Hc), HF'. by right.
    + rewrite fst_app, elem_of_app in Hq.
      destruct Hq as [Hq|Hq]; [by apply (H3 p Hp); right|by apply (Hex p)].
  - rewrite length_app, <- take_take_drop. apply Forall2_app; [|done].
    eapply page_copy_keep; [|done]. intros p i [Hp|Hp] Hi.
    + apply Hkeep; [by eapply fst_take|done].
    + eapply (change_page kend); [exact Hc| | |eapply u_page; [exact H2|done]|done].
      * intros q Hq. by apply HF.
      * intros Hq. by apply (HF p Hq).
Qed.

Lemma copying_keep F F' m m' free free' old tbl ps new tblN tblN' psN :
  copying m free old tbl ps new tblN psN -> uvm kend topN m' free' new tblN' psN ->
  change F F' m m' -> (forall p, F p -> outside tbl ps psN p) ->
  (forall p, owned free' tblN' p -> F' p) -> copying m' free' old tbl ps new tblN' psN.
Proof.
  intros Hcp Hu Hc H1 H2. rewrite <- (app_nil_r psN).
  eapply copying_step; [exact Hcp|by rewrite app_nil_r|exact Hc|done|done| |constructor].
  by intros p Hp%not_elem_of_nil.
Qed.

(** The failure path of [uvmcopy]: the child is empty again. *)
Lemma uvmcopy_undo m free old tbl ps new tblN psN :
  copying m free old tbl ps new tblN psN ->
  exists m' free', uvmunmap kend new 0 (Z.of_nat (length psN)) true m = Ok tt m' /\
    copying m' free' old tbl ps new tblN [] /\
    change (fun p => owned free tblN p \/ p ∈ psN.*1) (owned free' tblN) m m'.
Proof.
  intros [H1 H2 H3 H4].
  destruct (uvm_unmap_tail kend kend_pos topN m free new tblN [] psN H2) as (m' & free' & _ & E & Hu & Hc).
  exists m', free'. split; [done|]. split; [|done].
  destruct (uvm_other _ _ m m' free free' old tbl ps new tblN H1 (u_vm _ _ _ _ _ _ _ Hu) Hc) as [Hold _].
  { intros p Hp. assert (Hpo : ~ pages_of tbl ps p).
    { intros Hq. destruct Hp as [[Hp|Hp]|Hp].
      - by apply (pages_of_ok _ _ _ _ _ _ H1 Hq).
      - apply (H3 p Hq). by left.
      - apply (H3 p Hq). by right. }
    split; [|done]. destruct Hp as [Hp|Hp]; [eapply owned_ok; [apply H2|done]|].
    eapply u_page; [exact H2|done]. }
  { intros p Hp. by left. }
  split; [done|done| |constructor].
  intros p Hp [Hq|Hq%not_elem_of_nil]; [|done]. apply (H3 p Hp). by left.
Qed.

Lemma page_change_memmove p q mm : page_change p mm (memmove mm p q PGSIZE).
Proof. intros a Ha. apply mget_memmove_out; unfold PGSIZE; lia. Qed.

(** The new page of the child, filled from the parent's page [pa]. *)
Lemma copying_new_page p pa f m free old tbl ps new tblN psN :
  copying m (p :: free) old tbl ps new tblN psN -> ps !! length psN = Some (pa, f) ->
  page_ok kend p /\ p <> 0 /\ ~ owned free tblN p /\ ~ (p ∈ psN.*1) /\ ~ pages_of tbl ps p /\
  exists m1, kalloc m = Ok p m1 /\
    let m2 := with_mem (fun mm => memmove mm p pa PGSIZE) m1 in
    copying m2 free old tbl ps new tblN psN /\ page_copy (m_mem m2) (pa, f) (p, f) /\
    change (owned (p :: free) tblN) (fun q => owned free tblN q \/ q = p) m m2.
Proof.
  intros Hcp Hpa. pose proof Hcp as [H1 H2 H3 H4].
  destruct (uvm_new_page kend kend_pos topN p (fun mm => memmove mm p pa PGSIZE) m free new tblN psN H2)
    as (Hp & Hp0 & Hno & Hnin & m1 & E & Hu & Hc); [intros; apply page_change_memmove|].
  assert (Hpo : ~ pages_of tbl ps p).
  { intros Hq. apply (pages_of_ok _ _ _ _ _ _ H1 Hq). by left. }
  do 5 (split; [done|]). exists m1. split; [done|]. intros m2.
  assert (Hcp2 : copying m2 free old tbl ps new tblN psN).
  { eapply copying_keep; [exact Hcp|exact Hu|exact Hc| |].
    - intros q. by apply (owned_outside _ _ _ _ _ _ _ _ _ Hcp).
    - intros q Hq. by left. }
  split; [done|]. split; [|done]. split; [done|]. intros i Hi. cbn [fst].
  assert (Hpain : pa ∈ ps.*1).
  { apply list_elem_of_fmap. exists (pa, f). split; [done|]. by eapply list_elem_of_lookup_2. }
  assert (Hne : p <> pa) by (intros ->; apply Hpo; by right).
  assert (Hpaok : page_ok kend pa) by (eapply u_page; [exact H1|done]).
  unfold m2. cbn. rewrite mget_memmove by (unfold PGSIZE; lia).
  destruct (page_disjoint kend p pa Hp Hpaok Hne).
  - rewrite mget_memmove_out by (unfold PGSIZE; lia). unfold PGSIZE. zcase; try lia. f_equal. lia.
  - rewrite mget_memmove_out by (unfold PGSIZE; lia). unfold PGSIZE. zcase; try lia. f_equal. lia.
Qed.

(** The two outcomes of mapping it. *)
Lemma copying_map p pa f m free old tbl ps new tblN psN :
  copying m free old tbl ps new tblN psN -> ps !! length psN = Some (pa, f) ->
  page_ok kend p -> ~ owned free tblN p -> ~ (p ∈ psN.*1) -> ~ pages_of tbl ps p ->
  page_copy (m_mem m) (pa, f) (p, f) ->
  exists r m' free' tblN',
    mappages new (4096 * Z.of_nat (length psN)) PGSIZE p f m = Ok r m' /\
    change (owned free tblN) (owned free' tblN') m m' /\
    (r = 0 /\ copying m' free' old tbl ps new tblN' (psN ++ [(p, f)]) \/
     r = -1 /\ copying m' free' old tbl ps new tblN' psN).
Proof.
  intros Hcp Hpa Hp Hno Hnin Hpo Hpc. pose proof Hcp as [H1 H2 _ _].
  destruct (u_map _ _ _ _ _ _ _ H1 _ _ _ Hpa) as (_ & (Hf1 & Hf2 & Hf3) & Hpaok).
  pose proof (lookup_lt_Some _ _ _ Hpa). pose proof (u_len _ _ _ _ _ _ _ H1).
  destruct (uvm_map_page kend kend_pos topN m free new tblN psN p f) as
    (r & m' & free' & tblN' & E & Hc & Hres); try done; [by rewrite lor_has_V|lia|].
  rewrite lor_has_V in Hres by done. exists r, m', free', tblN'. split; [done|]. split; [done|].
  destruct Hres as [[-> Hu]|(-> & -> & Hu)]; [left|right]; (split; [done|]).
  - eapply copying_step; [exact Hcp|exact Hu|exact Hc|intros q Hq; exact (owned_outside _ _ _ _ _ _ _ _ _ Hcp Hq)|done| |].
    + by intros q ->%list_elem_of_singleton.
    + rewrite (drop_S _ _ _ Hpa). cbn. constructor; [|constructor].
      destruct Hpc as [_ Hpc]. split; [done|]. intros i Hi.
      assert (Hpain : pa ∈ ps.*1)
        by (apply list_elem_of_fmap; exists (pa, f); split; [done|]; by eapply list_elem_of_lookup_2).
      assert (HF : forall q, owned free tblN q -> page_ok kend q) by (intros q; eapply owned_ok; apply H2).
      rewrite !(change_page kend _ _ _ _ _ _ Hc); try done; [by apply Hpc|].
      intros Hq. apply (owned_outside _ _ _ _ _ _ _ _ _ Hcp) in Hq as (_ & Hq & _).
      apply Hq. by right.
  - eapply copying_keep; [exact Hcp|exact Hu|exact Hc|intros q Hq; exact (owned_outside _ _ _ _ _ _ _ _ _ Hcp Hq)|done].
Qed.

Lemma copying_kfree p m free old tbl ps new tblN psN :
  copying m free old tbl ps new tblN psN ->
  page_ok kend p -> ~ owned free tblN p -> ~ (p ∈ psN.*1) -> ~ pages_of tbl ps p ->
  exists m', kfree kend p m = Ok tt m' /\ copying m' (p :: free) old tbl ps new tblN psN /\
    change (fun q => owned free tblN q \/ q = p) (owned (p :: free) tblN) m m'.
Proof.
  intros Hcp Hp Hno Hnin Hpo. pose proof Hcp as [_ H2 _ _].
  destruct (uvm_kfree kend kend_pos topN p m free new tblN psN H2) as (m' & E & Hu & Hc); try done.
  exists m'. split; [done|]. split; [|done].
  eapply copying_keep; [exact Hcp|exact Hu|exact Hc| |done].
  intros q [Hq| ->]; [exact (owned_outside _ _ _ _ _ _ _ _ _ Hcp Hq)|done].
Qed.

(** The entry of the parent that a round reads. *)
Lemma copying_entry m free old tbl ps new tblN psN pa g :
  copying m free old tbl ps new tblN psN -> ps !! length psN = Some (pa, g) -> 4096 * Z.of_nat (length psN) < 2 ^ 38 ->
  exists pte, pte <> 0 /\ valid (load64 (m_mem m) pte) = true /\ PTE2PA (load64 (m_mem m) pte) = pa /\ PTE_FLAGS (load64 (m_mem m) pte) = g /\
    walk old (4096 * Z.of_nat (length psN)) false m = Ok pte m.
Proof.
  intros [H1 H2 H3 H4] Epa Hlt. set (i := 4096 * Z.of_nat (length psN)) in *. assert (Hvi : vpn i = Z.of_nat (length psN)) by (unfold vpn, i; rewrite Z.mul_comm, Z.div_mul; lia).
  destruct (u_map _ _ _ _ _ _ _ H1 _ _ _ Epa) as (Elf & Hfl & Hpaok). pose proof (page_ok_pa kend pa kend_pos Hpaok) as Hpa.
  pose proof (valid_pte _ _ Hpa Hfl) as Hval. rewrite <- Elf in Hval. destruct (valid_slot _ _ _ Hval) as [pte Hs]. exists pte.
  split; [by pose proof (slot_nonzero kend kend_pos _ _ _ _ _ _ (u_vm _ _ _ _ _ _ _ H1) Hs)|]. rewrite <- (slot_leaf _ _ _ _ Hs), Hval, Elf.
  rewrite PTE2PA_pte, PTE_FLAGS_pte by (try done; apply Hfl). do 3 (split; [done|]).
  rewrite (walk_noalloc kend kend_pos m old tbl); [by rewrite Hvi, Hs|apply H1|]. change MAXVA with (2 ^ 38). unfold i in *. lia.
Qed.

(** One round of the loop: one more page is copied, or the child is emptied. *)
Lemma uvmcopy_round old tbl ps new sz fuel m free tblN psN (i := 4096 * Z.of_nat (length psN)) :
  sz <= TRAPFRAME -> i < sz -> (length psN < length ps)%nat -> copying m free old tbl ps new tblN psN ->
  (exists p f m3 free3 tbl3, uvmcopy_loop kend (S fuel) old new i sz m = uvmcopy_loop kend fuel old new (u64 (i + PGSIZE)) sz m3 /\
     copying m3 free3 old tbl ps new tbl3 (psN ++ [(p, f)]) /\
     change (fun p => owned free tblN p \/ p ∈ psN.*1) (fun q => owned free3 tbl3 q \/ q ∈ (psN ++ [(p, f)]).*1) m m3) \/
  (exists m' free' tbl', uvmcopy_loop kend (S fuel) old new i sz m = Ok (-1) m' /\ copying m' free' old tbl ps new tbl' [] /\
     change (fun p => owned free tblN p \/ p ∈ psN.*1) (owned free' tbl') m m').
Proof.
  intros Hsz Hlt Hlen Hcp. cbn [uvmcopy_loop]. change TRAPFRAME with (2 ^ 38 - 8192) in *. zcase; [|lia]. pose proof Hcp as [H1 H2 H3 H4].
  destruct (lookup_lt_is_Some_2 _ _ Hlen) as [[pa f] Epa]. destruct (copying_entry _ _ _ _ _ _ _ _ _ _ Hcp Epa ltac:(unfold i in *; lia)) as (pte & Hp0 & Hval & Epp & Epf & E0).
  fold i in E0. rewrite (bind_ok _ _ _ _ _ E0).
  rewrite (proj2 (Z.eqb_neq _ _) Hp0). unfold load_word. mgo. rewrite Hval, Epp, Epf. cbn [negb]. replace (i / PGSIZE) with (Z.of_nat (length psN)) by (unfold i, PGSIZE; rewrite Z.mul_comm, Z.div_mul; lia).
  destruct free as [|p free].
  - right. rewrite (bind_ok kalloc _ m 0 (settle m)) by (apply kalloc_empty; apply H1). cbn beta. pose proof (gr_change _ _ _ _ _ _ (grow_settle m [] tblN)) as Hcs.
    assert (Hcp' : copying (settle m) [] old tbl ps new tblN psN).
    { eapply copying_keep; [exact Hcp| |exact Hcs|intros q Hq; exact (owned_outside _ _ _ _ _ _ _ _ _ Hcp Hq)|done].
      apply (uvm_change kend topN m [] tblN); try done. apply vm_inv_settle; apply H2. }
    destruct (uvmcopy_undo _ _ _ _ _ _ _ _ Hcp') as (m' & free' & E & Hcp2 & Hc). rewrite Z.eqb_refl, (bind_ok _ _ _ _ _ E). exists m', free', tblN.
    split; [done|]. split; [done|]. by apply (change_step _ _ (fun p => p ∈ psN.*1) _ _ _ _ _ Hcs).
  - destruct (copying_new_page p pa f m free old tbl ps new tblN psN Hcp Epa) as (Hp & Hpn & Hno & Hnin & Hpo & m1 & E1 & Hcp2 & Hpc & Hc2).
    rewrite (bind_ok _ _ _ _ _ E1). cbn beta. destruct (Z.eqb_spec p 0); [done|]. mgo. set (m2 := with_mem _ m1) in *.
    destruct (copying_map p pa f m2 free old tbl ps new tblN psN) as (r & m3 & free3 & tbl3 & E3 & Hc3 & Hres); try done. fold i in E3.
    rewrite (bind_ok _ _ _ _ _ E3). cbn beta. destruct Hres as [[-> Hcp3]|[-> Hcp3]]; cbn [Z.eqb negb].
    + left. exists p, f, m3, free3, tbl3. split; [done|]. split; [done|]. apply (change_step _ _ (fun p => p ∈ psN.*1) _ _ _ _ _ Hc2); [done|].
      eapply change_iff; [| |exact (change_or _ _ (fun q => q = p \/ q ∈ psN.*1) _ _ Hc3)]; intros q; [tauto|].
      rewrite fst_app, elem_of_app. change [(p, f)].*1 with [p]. rewrite list_elem_of_singleton. tauto.
    + right. destruct (copying_kfree p m3 free3 old tbl ps new tbl3 psN) as (m4 & E4 & Hcp4 & Hc4); try done.
      { intros Ho. by apply Hno, (ch_own _ _ _ _ Hc3). }
      rewrite (bind_ok _ _ _ _ _ E4). cbn beta. destruct (uvmcopy_undo _ _ _ _ _ _ _ _ Hcp4) as (m' & free' & E & Hcp' & Hc).
      rewrite (bind_ok _ _ _ _ _ E). exists m', free', tbl3. split; [done|]. split; [done|].
      apply (change_step _ _ (fun q => q ∈ psN.*1) _ _ _ _ _ Hc2); [done|].
      apply (change_step _ _ (fun q => q = p \/ q ∈ psN.*1) _ _ _ _ _ Hc3); [tauto|].
      apply (change_step _ _ (fun q => q ∈ psN.*1) _ _ _ _ _ Hc4); [tauto|exact Hc].
Qed.

Lemma uvmcopy_loop_spec old tbl ps new sz : 0 <= sz <= TRAPFRAME -> length ps = pgs sz ->
  forall k fuel m free tblN psN,
  copying m free old tbl ps new tblN psN -> (length psN + k = length ps)%nat -> (k <= fuel)%nat ->
  exists r m' free' tblN' psN',
    uvmcopy_loop kend fuel old new (4096 * Z.of_nat (length psN)) sz m = Ok r m' /\
    copying m' free' old tbl ps new tblN' psN' /\
    change (fun p => owned free tblN p \/ p ∈ psN.*1) (fun p => owned free' tblN' p \/ p ∈ psN'.*1) m m' /\
    (r = 0 /\ length psN' = length ps \/ r = -1 /\ psN' = []).
Proof.
  intros Hsz Hlen. induction k as [|k IH]; intros fuel m free tblN psN Hcp Hk Hf.
  { assert (Hge : sz <= 4096 * Z.of_nat (length psN)).
    { replace (length psN) with (pgs sz) by lia. unfold pgs. dlia. }
    exists 0, m, free, tblN, psN. split; [destruct fuel; cbn [uvmcopy_loop]; zcase; done || lia|].
    split; [done|]. split; [by apply change_id|]. left. split; [done|lia]. }
  destruct fuel as [|fuel]; [lia|]. assert (Hlt : 4096 * Z.of_nat (length psN) < sz).
  { unfold pgs in Hlen. assert (0 <= (sz + 4095) / 4096) by dlia. dlia. }
  destruct (uvmcopy_round old tbl ps new sz fuel m free tblN psN) as [(p & f & m3 & free3 & tbl3 & -> & Hcp3 & Hc3)|(m' & free' & tbl' & -> & Hcp' & Hc')]; try done; try lia.
  - destruct (IH fuel m3 free3 tbl3 (psN ++ [(p, f)]) Hcp3) as (r & m' & free' & tblN' & psN' & E' & Hcp' & Hc' & Hr); [rewrite length_app; cbn; lia|lia|].
    exists r, m', free', tblN', psN'. split; [|split; [done|split; [by eapply change_trans|done]]].
    rewrite <- E'. f_equal. change TRAPFRAME with (2 ^ 38 - 8192) in *. rewrite length_app. unfold u64, PGSIZE. cbn. rewrite Z.mod_small; lia.
  - exists (-1), m', free', tbl', []. split; [done|]. split; [done|]. split; [|by right]. eapply change_iff; [| |exact Hc']; [done|]. intros q. cbn. rewrite elem_of_nil. tauto.
Qed.

Lemma ubyte_copy mm xs ys va : Forall2 (page_copy mm) xs ys -> ubyte mm ys va = ubyte mm xs va.
Proof.
  intros H. unfold ubyte. destruct (xs !! _) as [[p f]|] eqn:E.
  - destruct (Forall2_lookup_l _ _ _ _ _ H E) as ([q g] & -> & Hf & Hb). cbn in *. subst g.
    destruct (Z.testbit f 4); [|done]. f_equal. apply Hb, Z.mod_pos_bound. lia.
  - apply Forall2_length in H. apply lookup_ge_None in E.
    by rewrite (proj2 (lookup_ge_None _ _)) by lia.
Qed.

(** C15. [uvmcopy] gives the child a copy of the parent's memory: afterwards both see,
    at every address, the byte the parent saw before, in pages that they do not
    share.  When memory runs out it returns -1 and the child is empty again.  The
    parent is unchanged in both cases and no page is lost. *)
Theorem uvmcopy_correct m free old tbl ps new tblN sz :
  uvm kend top m free old tbl ps -> uvm kend topN m free new tblN [] -> apart tbl ps tblN [] ->
  0 <= sz <= TRAPFRAME -> length ps = pgs sz ->
  exists r m' free' tblN' psN, uvmcopy kend old new sz m = Ok r m' /\
    uvm kend top m' free' old tbl ps /\ uvm kend topN m' free' new tblN' psN /\ apart tbl ps tblN' psN /\
    (forall va, ubyte (m_mem m') ps va = ubyte (m_mem m) ps va) /\
    (r = 0 /\ (forall va, ubyte (m_mem m') psN va = ubyte (m_mem m) ps va) \/ r = -1 /\ psN = []) /\
    forall p, owned free' tblN' p \/ p ∈ psN.*1 <-> owned free tblN p.
Proof.
  intros H1 H2 H3 Hsz Hlen. unfold uvmcopy.
  assert (Hcp : copying m free old tbl ps new tblN []) by (split; [done..|constructor]).
  destruct (uvmcopy_loop_spec old tbl ps new sz Hsz Hlen (length ps) (S (Z.to_nat (sz / PGSIZE)))
    m free tblN [] Hcp) as (r & m' & free' & tblN' & psN & E & [A1 A2 A3 A4] & Hc & Hr); [done| |].
  { rewrite Hlen. unfold pgs, PGSIZE. dlia. }
  assert (Hpar : forall va, ubyte (m_mem m') ps va = ubyte (m_mem m) ps va).
  { intros va. apply ubyte_keep. intros p i Hp Hi.
    assert (HF : forall q, owned free tblN q \/ q ∈ ([] : list (Z * Z)).*1 -> owned free tblN q).
    { intros q [Hq|Hq%not_elem_of_nil]; done. }
    eapply (change_page kend); [exact Hc| | |eapply u_page; [exact H1|done]|done].
    - intros q Hq%HF. eapply owned_ok; [apply H2|done].
    - intros Hq%HF. destruct (owned_outside _ _ _ _ _ _ _ _ _ Hcp Hq) as (_ & Hno & _).
      apply Hno. by right. }
  exists r, m', free', tblN', psN. split; [done|]. split; [done|]. split; [done|]. split; [done|].
  split; [done|]. split.
  - destruct Hr as [[-> Hl]|[-> ->]]; [left|by right]. split; [done|]. intros va.
    rewrite <- Hpar. apply ubyte_copy. rewrite Hl, firstn_all in A4. done.
  - intros p. rewrite (ch_own _ _ _ _ Hc p). cbn. rewrite elem_of_nil. tauto.
Qed.

End UvmCopy.

(** ** Freeing the tables *)

Section UvmFree.
Variable kend : Z.
Hypothesis kend_pos : 0 < kend.
Variable top : Z -> Z.

(** The table pages below [(l, x)], in the order in which [freewalk] frees them. *)
Fixpoint subpages (tbl : tables) (l : nat) (x : Z) : list Z :=
  match tbl !! (l, x) with
  | None => []
  | Some p =>
      match l with
      | O => []
      | S l' => concat (map (fun i => subpages tbl l' (x * 512 + i)) (seqZ 0 512))
      end ++ [p]
  end.

(** [freewalk] needs tables whose last level is empty. *)
Fixpoint ftree (mm : mem) (tbl : tables) (l : nat) (x p : Z) : Prop :=
  match l with
  | O => forall i, 0 <= i < 512 -> valid (load64 mm (p + 8 * i)) = false
  | S l' => forall i, 0 <= i < 512 ->
      match tbl !! (l', x * 512 + i) with
      | None => valid (load64 mm (p + 8 * i)) = false
      | Some q => load64 mm (p + 8 * i) = Z.lor (PA2PTE q) PTE_V /\ pa_ok q /\
                  ftree mm tbl l' (x * 512 + i) q
      end
  end.

Lemma subpages_in tbl l : forall x q,
  q ∈ subpages tbl l x -> exists l' y, (l' <= l)%nat /\ tbl !! (l', y) = Some q /\
    y / 512 ^ Z.of_nat (l - l') = x.
Proof.
  induction l as [|l IH]; intros x q; cbn [subpages];
    (destruct (tbl !! (_, x)) as [p|] eqn:E; [|by intros ?%not_elem_of_nil]).
  - intros ->%list_elem_of_singleton. exists O, x. split; [lia|]. split; [done|]. apply Z.div_1_r.
  - intros [Hq| ->%list_elem_of_singleton]%elem_of_app.
    + apply list_elem_of_In, in_concat in Hq as (c & Hc & Hq). apply in_map_iff in Hc as (i & <- & Hi).
      apply list_elem_of_In in Hq, Hi. apply elem_of_seqZ in Hi.
      destruct (IH _ _ Hq) as (l' & y & Hl & Ht & Hy). exists l', y. split; [lia|]. split; [done|].
      replace (Z.of_nat (S l - l')) with (Z.of_nat (l - l') + 1) by lia.
      rewrite Z.pow_add_r, Z.pow_1_r, <- Z.div_div by lia. rewrite Hy. dlia.
    + exists (S l), x. split; [lia|]. split; [done|]. rewrite Nat.sub_diag. apply Z.div_1_r.
Qed.

Lemma table_pte_RWX q : pa_ok q ->
  Z.land (Z.lor (PA2PTE q) PTE_V) (Z.lor (Z.lor PTE_R PTE_W) PTE_X) = 0.
Proof.
  intros Hq. rewrite pte_word by done. change (Z.lor (Z.lor PTE_R PTE_W) PTE_X) with (Z.land (Z.ones 4) 14).
  rewrite Z.land_assoc, Z.land_ones by lia. change PTE_V with 1.
  replace ((q / 4096 * 1024 + 1) mod 2 ^ 4) with 1; [done|]. change (2 ^ 4) with 16. dlia.
Qed.

Lemma ftree_frame mm mm' tbl l : forall x p,
  tbl !! (l, x) = Some p ->
  (forall q i, q ∈ subpages tbl l x -> 0 <= i < 512 -> load64 mm' (q + 8 * i) = load64 mm (q + 8 * i)) ->
  ftree mm tbl l x p -> ftree mm' tbl l x p.
Proof.
  induction l as [|l IH]; intros x p Hp Hf; cbn [ftree subpages] in *; rewrite Hp in Hf; intros H i Hi.
  - rewrite Hf; [by apply H| |done]. apply elem_of_app. right. by apply list_elem_of_singleton.
  - rewrite Hf; [|apply elem_of_app; right; by apply list_elem_of_singleton|done].
    specialize (H i Hi). destruct (tbl !! (l, x * 512 + i)) as [q|] eqn:E; [|done].
    destruct H as (H1 & H2 & H3). split; [done|]. split; [done|]. apply IH; [done| |done].
    intros q' j Hq' Hj. apply Hf; [|done]. apply elem_of_app. left.
    apply list_elem_of_In, in_concat. exists (subpages tbl l (x * 512 + i)). split.
    + apply in_map_iff. exists i. split; [done|]. apply list_elem_of_In, elem_of_seqZ. lia.
    + by apply list_elem_of_In.
Qed.

(** The allocator between two critical sections. *)
Record kstate (m : machine) (free : list Z) : Prop := {
  ks_hart : hart_ok m;
  ks_lock : unlocked Lk_kmem m;
  ks_kmem : kmem_inv kend m free
}.

Lemma kfree_kstate p m free :
  kstate m free -> page_ok kend p -> ~ (p ∈ free) ->
  exists m', kfree kend p m = Ok tt m' /\ kstate m' (p :: free) /\ same_rest m m' /\
    page_change p (m_mem m) (m_mem m').
Proof.
  intros [H1 H2 H3] Hp Hin. eexists. split; [by apply kfree_eq|]. split; [split|split].
  - by apply (hart_ok_settle m).
  - exact H2.
  - by apply kfree_inv.
  - apply (same_rest_trans _ (with_mem (kfree_mem p (m_freelist m)) m));
      [apply same_rest_mem|apply same_rest_freelist].
  - intros a Ha. by apply mget_kfree_mem_out.
Qed.

Lemma store_kstate a v p m free :
  kstate m free -> page_ok kend p -> ~ (p ∈ free) -> page_change p (m_mem m) (store64 (m_mem m) a v) ->
  kstate (with_mem (fun mm => store64 mm a v) m) free.
Proof.
  intros [H1 H2 H3] Hp Hin Hc. split; try done.
  apply (kmem_inv_untouched kend kend_pos (fun q => q = p) m
           (with_mem (fun mm => store64 mm a v) m) _ H3 eq_refl).
  - by apply (page_change_untouched _ p).
  - by intros q ->.
Qed.

(** What [freewalk] of the tables below [(l, x)] does. *)
Definition freewalk_ok (tbl : tables) (l : nat) : Prop := forall x p m free,
  tbl !! (l, x) = Some p -> ftree (m_mem m) tbl l x p -> kstate m free ->
  NoDup (subpages tbl l x ++ free) -> Forall (page_ok kend) (subpages tbl l x) ->
  exists m', freewalk kend (S l) p m = Ok tt m' /\ kstate m' (reverse (subpages tbl l x) ++ free) /\
    same_rest m m' /\ untouched (fun q => q ∈ subpages tbl l x) (m_mem m) (m_mem m').

(** The body of the loop of [freewalk]. *)
Definition freewalk_body (depth : nat) (p i : Z) : M machine unit :=
  pte <- load_word (p + 8 * i) ;;
  if valid pte && (Z.land pte (Z.lor (Z.lor PTE_R PTE_W) PTE_X) =? 0)
  then freewalk kend depth (PTE2PA pte) ;;; store_word (p + 8 * i) 0
  else if valid pte then panic "freewalk: leaf" else ret tt.

Lemma NoDup_app_swap {A} (xs ys zs : list A) : NoDup (xs ++ ys ++ zs) -> NoDup (ys ++ xs ++ zs).
Proof. intros H. by rewrite !app_assoc, (Permutation_app_comm ys xs), <- app_assoc. Qed.

(** The pages below the entries [i], [i + 1], ... of the table [(S l, x)]. *)
Definition kids (tbl : tables) (l : nat) (x i : Z) (k : nat) : list Z :=
  concat (map (fun j => subpages tbl l (x * 512 + j)) (seqZ i (Z.of_nat k))).

Lemma kids_S tbl l x i k :
  kids tbl l x i (S k) = subpages tbl l (x * 512 + i) ++ kids tbl l x (i + 1) k.
Proof. unfold kids. rewrite seqZ_cons by lia. cbn. by replace (Z.pred _) with (Z.of_nat k) by lia. Qed.

Lemma subpages_none tbl l x : tbl !! (l, x) = None -> subpages tbl l x = [].
Proof. destruct l; cbn [subpages]; intros ->; done. Qed.

Lemma kids_child tbl l x i k j q :
  i <= j < i + Z.of_nat k -> q ∈ subpages tbl l (x * 512 + j) -> q ∈ kids tbl l x i k.
Proof.
  intros Hj Hq. apply list_elem_of_In, in_concat. exists (subpages tbl l (x * 512 + j)).
  split; [|by apply list_elem_of_In]. apply in_map_iff. exists j. split; [done|].
  apply list_elem_of_In, elem_of_seqZ. lia.
Qed.

(** What the entry [j] of the table page [p] leads to. *)
Definition fentry (mm : mem) (tbl : tables) (l : nat) (x p j : Z) : Prop :=
  match tbl !! (l, x * 512 + j) with
  | None => valid (load64 mm (p + 8 * j)) = false
  | Some q => load64 mm (p + 8 * j) = Z.lor (PA2PTE q) PTE_V /\ pa_ok q /\
              ftree mm tbl l (x * 512 + j) q
  end.

Lemma fentry_frame mm mm' tbl l x p j :
  load64 mm' (p + 8 * j) = load64 mm (p + 8 * j) ->
  (forall q i, q ∈ subpages tbl l (x * 512 + j) -> 0 <= i < 512 ->
     load64 mm' (q + 8 * i) = load64 mm (q + 8 * i)) ->
  fentry mm tbl l x p j -> fentry mm' tbl l x p j.
Proof.
  intros He Hf. unfold fentry. destruct (tbl !! _) as [q|] eqn:E; rewrite He; [|done].
  intros (H1 & H2 & H3). split; [done|]. split; [done|]. by eapply ftree_frame.
Qed.

(** One round of the loop. *)
Lemma freewalk_body_spec tbl l x p i m free :
  freewalk_ok tbl l -> fentry (m_mem m) tbl l x p i -> 0 <= i < 512 -> kstate m free ->
  NoDup (subpages tbl l (x * 512 + i) ++ p :: free) ->
  Forall (page_ok kend) (subpages tbl l (x * 512 + i)) -> page_ok kend p ->
  exists m1 v, freewalk_body (S l) p i m = Ok tt (with_mem (fun mm => if v : bool then store64 mm (p + 8 * i) 0 else mm) m1) /\
    kstate m1 (reverse (subpages tbl l (x * 512 + i)) ++ free) /\ same_rest m m1 /\
    untouched (fun q => q ∈ subpages tbl l (x * 512 + i)) (m_mem m) (m_mem m1).
Proof.
  intros IH He Hi Hk Hnd Hpg Hp. unfold freewalk_body, load_word. mgo. unfold fentry in He.
  destruct (tbl !! (l, x * 512 + i)) as [q|] eqn:E.
  - destruct He as (He & Hq & Hft). rewrite He, valid_lor_V, table_pte_RWX, PTE2PA_pte by done.
    cbn [Z.eqb andb]. destruct (IH (x * 512 + i) q m free E Hft Hk) as (m1 & E1 & Hk1 & Hs1 & Hu1).
    + apply (NoDup_app_swap _ [p]) in Hnd. by apply NoDup_app in Hnd as (_ & _ & ?).
    + done.
    + rewrite (bind_ok _ _ _ _ _ E1). exists m1, true. done.
  - rewrite He. cbn [andb]. rewrite (subpages_none _ _ _ E). exists m, false.
    split; [by destruct m|]. split; [done|]. split; [apply same_rest_refl|apply untouched_refl].
Qed.

Lemma freewalk_loop tbl l x p : freewalk_ok tbl l -> page_ok kend p -> forall k i m free,
  0 <= i -> i + Z.of_nat k = 512 -> (forall j, i <= j < 512 -> fentry (m_mem m) tbl l x p j) ->
  kstate m free -> NoDup (kids tbl l x i k ++ p :: free) -> Forall (page_ok kend) (kids tbl l x i k) ->
  exists m', for_upto k i (freewalk_body (S l) p) m = Ok tt m' /\
    kstate m' (reverse (kids tbl l x i k) ++ free) /\ same_rest m m' /\
    untouched (fun q => q ∈ kids tbl l x i k \/ q = p) (m_mem m) (m_mem m').
Proof.
  intros IHl Hp. induction k as [|k IH]; intros i m free Hi Hk He Hks Hnd Hpg.
  { exists m. split; [done|]. split; [done|]. split; [apply same_rest_refl|apply untouched_refl]. }
  cbn [for_upto]. rewrite kids_S in *. rewrite <- app_assoc in Hnd.
  apply Forall_app in Hpg as [Hpg1 Hpg2].
  pose proof Hnd as (Hn1 & Hn2 & Hn3)%NoDup_app.
  pose proof (NoDup_app_swap _ _ _ Hnd) as (_ & _ & Hnd')%NoDup_app.
  destruct (freewalk_body_spec tbl l x p i m free IHl (He i ltac:(lia)) ltac:(lia) Hks Hnd' Hpg1 Hp)
    as (m1 & v & E1 & Hk1 & Hs1 & Hu1).
  rewrite (bind_ok _ _ _ _ _ E1). cbn beta. set (m2 := with_mem _ m1).
  set (sub := subpages tbl l (x * 512 + i)) in *.
  assert (Hch : page_change p (m_mem m1) (m_mem m2)).
  { unfold m2. destruct v; [|done]. apply (page_change_store p (m_mem m1)). lia. }
  assert (Hpn : ~ (p ∈ reverse sub ++ free)).
  { rewrite elem_of_app, elem_of_reverse. intros [H|H].
    - apply (Hn2 p H). apply elem_of_app. right. by left.
    - apply NoDup_app in Hn3 as (_ & _ & [Hn3 _]%NoDup_cons). done. }
  assert (Hk2 : kstate m2 (reverse sub ++ free)).
  { unfold m2 in *. destruct v; [by apply (store_kstate _ _ p)|]. by destruct m1. }
  assert (Hsub : forall q, q ∈ sub -> page_ok kend q) by by apply Forall_forall.
  assert (Hout : forall q, q ∈ kids tbl l x (i + 1) k \/ q = p -> ~ (q ∈ sub)).
  { intros q Hq Hs. apply (Hn2 q Hs). rewrite elem_of_app, elem_of_cons. tauto. }
  assert (Hload1 : forall q j, q ∈ kids tbl l x (i + 1) k \/ q = p -> page_ok kend q -> 0 <= j < 512 ->
            load64 (m_mem m1) (q + 8 * j) = load64 (m_mem m) (q + 8 * j)).
  { intros q j Hq Hqok Hj. eapply (untouched_load kend); [exact Hu1| |done|done].
    intros q' Hq'. split; [auto|]. intros ->. by apply (Hout q). }
  destruct (IH (i + 1) m2 (reverse sub ++ free)) as (m' & E' & Hk' & Hs' & Hu'); [lia|lia| |done| |done|].
  - intros j Hj. eapply fentry_frame; [| |exact (He j ltac:(lia))].
    + rewrite <- Hload1 by (try done; auto; lia). unfold m2. destruct v; [|done].
      apply load64_store64_out. lia.
    + intros q j' Hq Hj'. pose proof (kids_child tbl l x (i + 1) k j q ltac:(lia) Hq) as Hqk.
      assert (Hqok : page_ok kend q) by by apply (proj1 (Forall_forall _ _) Hpg2).
      rewrite <- Hload1 by (try done; auto). apply (page_change_load kend p); try done.
      intros <-. apply NoDup_app in Hn3 as (_ & Hn3 & _). apply (Hn3 p Hqk). by left.
  - rewrite (reverse_Permutation sub). change (p :: sub ++ free) with ([p] ++ sub ++ free).
    rewrite app_assoc. apply NoDup_app_swap. by rewrite <- app_assoc.
  - exists m'. split; [done|]. rewrite reverse_app, <- app_assoc. split; [done|]. split.
    + eapply same_rest_trans; [exact Hs1|]. eapply same_rest_trans; [apply same_rest_mem|exact Hs'].
    + eapply untouched_trans; [eapply untouched_mono; [|exact Hu1]|].
      { intros q Hq. left. apply elem_of_app. by left. }
      eapply untouched_trans; [apply (page_change_untouched _ p); [by right|exact Hch]|].
      eapply untouched_mono; [|exact Hu']. intros q. rewrite elem_of_app. tauto.
Qed.

(** The rounds at the last level, where no entry is valid. *)
Lemma freewalk_leaf p depth : forall k i m, 0 <= i -> i + Z.of_nat k = 512 ->
  (forall j, i <= j < 512 -> valid (load64 (m_mem m) (p + 8 * j)) = false) ->
  for_upto k i (freewalk_body depth p) m = Ok tt m.
Proof.
  induction k as [|k IH]; intros i m Hi Hk Hv; cbn [for_upto]; [done|].
  rewrite (bind_ok _ _ m tt m); [apply IH; [lia|lia|]; intros j Hj; apply Hv; lia|].
  unfold freewalk_body, load_word. mgo. by rewrite Hv by lia.
Qed.

Lemma freewalk_spec tbl l : freewalk_ok tbl l.
Proof.
  induction l as [|l IH]; intros x p m free Hp Hft Hk Hnd Hpg; cbn [subpages ftree] in *; rewrite Hp in *.
  - apply NoDup_cons in Hnd as [Hin Hnd]. apply Forall_cons in Hpg as [Hpok _].
    destruct (kfree_kstate p m free Hk Hpok Hin) as (m' & E & Hk' & Hs & Hc).
    exists m'. split; [|split; [done|split; [done|]]].
    + cbn [freewalk]. fold (freewalk_body 0 p).
      by rewrite (bind_ok _ _ _ _ _ (freewalk_leaf p 0 512 0 m ltac:(lia) eq_refl Hft)).
    + apply (page_change_untouched _ p); [by apply list_elem_of_singleton|done].
  - change (concat _) with (kids tbl l x 0 512) in *. rewrite <- app_assoc in Hnd.
    apply Forall_app in Hpg as [Hpg [Hpok _]%Forall_cons].
    destruct (freewalk_loop tbl l x p IH Hpok 512 0 m free) as (m1 & E1 & Hk1 & Hs1 & Hu1); try done.
    destruct (kfree_kstate p m1 (reverse (kids tbl l x 0 512) ++ free) Hk1 Hpok) as (m' & E & Hk' & Hs & Hc).
    { apply NoDup_app_swap in Hnd as [Hin _]%NoDup_cons. by rewrite reverse_Permutation. }
    exists m'. rewrite reverse_app, <- app_assoc. split; [|split; [done|split; [by eapply same_rest_trans|]]].
    + cbn [freewalk]. fold (freewalk_body (S l) p). by rewrite (bind_ok _ _ _ _ _ E1).
    + eapply untouched_trans; [eapply untouched_mono; [|exact Hu1]|].
      * intros q. by rewrite elem_of_app, list_elem_of_singleton.
      * apply (page_change_untouched _ p); [|done]. rewrite elem_of_app, list_elem_of_singleton. by right.
Qed.

(** ** From the page table to the tree *)

Lemma pt_rep_ftree mm root tbl :
  pt_rep kend mm root tbl -> (forall n, valid (leaf mm tbl n) = false) ->
  forall l x p, tbl !! (l, x) = Some p -> ftree mm tbl l x p.
Proof.
  intros Hr Hleaf. induction l as [|l IH]; intros x p Hp i Hi; cbn [ftree].
  - specialize (Hleaf (x * 512 + i)). unfold leaf in Hleaf.
    replace (prefix 0 (x * 512 + i)) with x in Hleaf by (unfold prefix; change (512 ^ _) with 512; dlia).
    replace (idx 0 (x * 512 + i)) with i in Hleaf
      by (unfold idx; change (512 ^ _) with 1; rewrite Z.div_1_r; dlia).
    by rewrite Hp in Hleaf.
  - pose proof (pr_child _ _ _ _ Hr l x p i Hp Hi) as Hc.
    destruct (tbl !! (l, x * 512 + i)) as [q|] eqn:E; [|done]. split; [done|].
    split; [|by apply IH]. eapply page_ok_pa; [exact kend_pos|]. by eapply (pr_page _ _ _ _ Hr).
Qed.

Lemma subpages_NoDup mm root tbl l : pt_rep kend mm root tbl -> forall x, NoDup (subpages tbl l x).
Proof.
  intros Hr. induction l as [|l IH]; intros x; cbn [subpages]; destruct (tbl !! _) as [p|] eqn:E;
    try apply NoDup_singleton; try constructor.
  change (concat _) with (kids tbl l x 0 (Z.to_nat 512)).
  assert (Hkid : forall k i q, q ∈ kids tbl l x i k -> exists j, i <= j < i + Z.of_nat k /\
                   q ∈ subpages tbl l (x * 512 + j)).
  { intros k i q Hq. apply list_elem_of_In, in_concat in Hq as (c & Hc & Hq).
    apply in_map_iff in Hc as (j & <- & Hj). apply list_elem_of_In, elem_of_seqZ in Hj.
    exists j. split; [lia|]. by apply list_elem_of_In. }
  apply NoDup_app. split; [|split; [|apply NoDup_singleton]].
  - generalize 0. induction (Z.to_nat 512) as [|k IHk]; intros i; [constructor|]. rewrite kids_S.
    apply NoDup_app. split; [done|]. split; [|done]. intros q Hq (j & Hj & Hq')%Hkid.
    apply subpages_in in Hq as (l1 & y1 & Hl1 & Ht1 & E1), Hq' as (l2 & y2 & Hl2 & Ht2 & E2).
    pose proof (pr_inj _ _ _ _ Hr _ _ _ Ht1 Ht2) as [= -> ->]. rewrite E1 in E2. clear -E2 Hj. lia.
  - intros q (j & Hj & Hq)%Hkid ->%list_elem_of_singleton.
    apply subpages_in in Hq as (l1 & y1 & Hl1 & Ht1 & E1).
    pose proof (pr_inj _ _ _ _ Hr _ _ _ Ht1 E) as [= -> _]. clear -Hl1. lia.
Qed.

Lemma subpages_up tbl l x q p : 
  tbl !! (S l, x / 512) = Some p -> q ∈ subpages tbl l x -> q ∈ subpages tbl (S l) (x / 512).
Proof.
  intros Hp Hq. cbn [subpages]. rewrite Hp. apply elem_of_app. left.
  apply (kids_child tbl l (x / 512) 0 (Z.to_nat 512) (x mod 512)); [dlia|].
  by replace (x / 512 * 512 + x mod 512) with x by dlia.
Qed.

Lemma subpages_self tbl l x q : tbl !! (l, x) = Some q -> q ∈ subpages tbl l x.
Proof.
  intros H. destruct l; cbn [subpages]; rewrite H; apply elem_of_app; right;
    by apply list_elem_of_singleton.
Qed.

#[local] Opaque subpages.

Lemma table_page_subpages mm root tbl q :
  pt_rep kend mm root tbl -> table_page tbl q <-> q ∈ subpages tbl 2 0.
Proof.
  intros Hr. split; [|intros (l & y & _ & H & _)%subpages_in; by exists (l, y)].
  intros [[l y] H].
  assert (Htop : forall l x q, tbl !! (l, x) = Some q ->
    (l = 2%nat /\ x = 0) \/ exists p, tbl !! (S l, x / 512) = Some p) by
    (intros; by eapply (pr_parent _ _ _ _ Hr)).
  assert (H3 : forall x p, tbl !! (3%nat, x) <> Some p)
    by (intros x p H3; apply (pr_level _ _ _ _ Hr) in H3; lia).
  assert (H2 : forall x q' q, tbl !! (2%nat, x) = Some q' -> q ∈ subpages tbl 2 x -> q ∈ subpages tbl 2 0).
  { intros x q' q0 Hx Hin. destruct (Htop _ _ _ Hx) as [[_ ->]|[p Hp]]; [done|].
    destruct (H3 _ _ Hp). }
  assert (H1 : forall x q' q, tbl !! (1%nat, x) = Some q' -> q ∈ subpages tbl 1 x -> q ∈ subpages tbl 2 0).
  { intros x q' q0 Hx Hin. destruct (Htop _ _ _ Hx) as [[? _]|[p Hp]]; [done|].
    eapply H2; [exact Hp|]. by eapply subpages_up. }
  pose proof (pr_level _ _ _ _ Hr _ _ _ H). pose proof (subpages_self _ _ _ _ H) as Hs.
  destruct l as [|[|[|l]]]; [|by eapply H1|by eapply H2|lia].
  destruct (Htop _ _ _ H) as [[? _]|[p Hp]]; [done|].
  eapply H1; [exact Hp|]. by eapply subpages_up.
Qed.

(** Only the 2^27 virtual pages of Sv39 have entries. *)
Lemma leaf_range mm root tbl j :
  pt_rep kend mm root tbl -> valid (leaf mm tbl j) = true -> 0 <= j < 2 ^ 27.
Proof.
  intros Hr Hv. destruct (valid_slot _ _ _ Hv) as [a Ha]. unfold slot in Ha.
  destruct (tbl !! (0%nat, prefix 0 j)) as [p|] eqn:E0; [|done].
  destruct (pr_parent _ _ _ _ Hr _ _ _ E0) as [[? _]|[p1 E1]]; [done|]. rewrite prefix_up in E1.
  destruct (pr_parent _ _ _ _ Hr _ _ _ E1) as [[? _]|[p2 E2]]; [done|]. rewrite prefix_up in E2.
  destruct (pr_parent _ _ _ _ Hr _ _ _ E2) as [[_ H]|[p3 E3]];
    [|apply (pr_level _ _ _ _ Hr) in E3; lia].
  unfold prefix in H. change (512 ^ Z.of_nat 3) with (2 ^ 27) in H. dlia.
Qed.

(** The first half of [uvmfree]: the pages of the process. *)
Lemma uvmfree_unmap m free root tbl ps sz :
  uvm kend top m free root tbl ps -> 0 <= sz <= TRAPFRAME -> length ps = pgs sz ->
  exists m1, when (sz >? 0) (uvmunmap kend root 0 (PGROUNDUP sz / PGSIZE) true) m = Ok tt m1 /\
    uvm kend top m1 (reverse ps.*1 ++ free) root tbl [] /\ same_rest m m1.
Proof.
  intros Hu Hsz Hlen. rewrite Z.gtb_ltb. destruct (Z.ltb_spec 0 sz) as [Hpos|Hz]; cbn [when].
  - destruct (uvm_unmap_tail kend kend_pos top m free root tbl [] ps Hu) as (m1 & free1 & -> & E & Hu1 & Hc).
    exists m1. split; [|split; [done|apply Hc]].
    rewrite PGROUNDUP_pgs, Z.mul_comm by done. unfold PGSIZE. rewrite Z.div_mul, <- Hlen by lia. done.
  - assert (sz = 0) as -> by lia. destruct ps as [|x ps]; [|done].
    exists m. split; [done|]. split; [done|]. apply same_rest_refl.
Qed.

(** C17. [uvmfree] of an address space with nothing mapped above the user part gives every
    page back: afterwards the free pages are those that were free before, the
    pages of the process and the pages of its table, each exactly once. *)
Theorem uvmfree_frees_all m free root tbl ps sz :
  uvm kend top m free root tbl ps -> 0 <= sz <= TRAPFRAME -> length ps = pgs sz ->
  (forall j, vpn TRAPFRAME <= j -> valid (top j) = false) ->
  exists m' free', uvmfree kend root sz m = Ok tt m' /\ same_rest m m' /\
    hart_ok m' /\ unlocked Lk_kmem m' /\ kmem_inv kend m' free' /\
    forall p, p ∈ free' <-> p ∈ free \/ p ∈ ps.*1 \/ table_page tbl p.
Proof.
  intros Hu Hsz Hlen Htop. unfold uvmfree.
  destruct (uvmfree_unmap m free root tbl ps sz Hu Hsz Hlen) as (m1 & E1 & Hu1 & Hs1).
  rewrite (bind_ok _ _ _ _ _ E1). pose proof (u_vm _ _ _ _ _ _ _ Hu1) as [Hok Hlk Hk Hr Hfr].
  assert (Hinv : forall j, valid (leaf (m_mem m1) tbl j) = false).
  { intros j. destruct (valid (leaf (m_mem m1) tbl j)) eqn:Ev; [exfalso|done].
    pose proof (leaf_range _ _ _ _ Hr Ev). destruct (Z.lt_ge_cases j (vpn TRAPFRAME)) as [Hj|Hj].
    - rewrite (u_free _ _ _ _ _ _ _ Hu1 j) in Ev by (cbn; lia). done.
    - rewrite (u_top _ _ _ _ _ _ _ Hu1 j Hj), Htop in Ev by done. done. }
  destruct (freewalk_spec tbl 2 0 root m1 (reverse ps.*1 ++ free)) as (m' & E & [A1 A2 A3] & Hs & _).
  - apply Hr.
  - apply (pt_rep_ftree _ _ _ Hr Hinv), Hr.
  - by split.
  - apply NoDup_app. split; [exact (subpages_NoDup _ _ _ 2 Hr 0)|]. split; [|apply Hk].
    intros q Hq. by apply Hfr, (table_page_subpages _ _ _ _ Hr).
  - apply Forall_forall. intros q Hq. apply (table_page_subpages _ _ _ _ Hr) in Hq as [k Hq].
    by eapply (pr_page _ _ _ _ Hr).
  - exists m', (reverse (subpages tbl 2 0) ++ reverse ps.*1 ++ free).
    split; [exact E|]. split; [exact (same_rest_trans _ _ _ Hs1 Hs)|].
    split; [exact A1|]. split; [exact A2|]. split; [exact A3|].
    intros p. rewrite !elem_of_app, !elem_of_reverse, (table_page_subpages _ _ _ p Hr). tauto.
Qed.
End UvmFree.

Lemma uvmfree_frees_all_witness :
  exists m' free', uvmfree pool_end pool_end 8192 pool_two = Ok tt m' /\ kmem_inv pool_end m' free'.
Proof.
  destruct pool_two_uvm as (free & tbl & ps & Hu & Hf).
  assert (Hl : length ps = pgs 8192) by (rewrite <- (length_fmap snd ps), Hf; reflexivity).
  destruct (uvmfree_frees_all pool_end eq_refl no_top pool_two free pool_end tbl ps 8192 Hu)
    as (m' & free' & E & _ & _ & _ & Hk & _); [vm_compute; intuition congruence|exact Hl|reflexivity|].
  exists m', free'. split; [exact E|exact Hk].
Defined.

(** A second, empty address space beside the one of [pool_two]. *)
Definition pool_child : machine := state_of (uvmcreate pool_two).

Lemma pool_child_spaces : exists free tbl ps new,
  uvm pool_end no_top pool_child free pool_end tbl ps /\ length ps = pgs 8192 /\
  uvm pool_end no_top pool_child free new {[(2%nat, 0) := new]} [] /\
  apart tbl ps {[(2%nat, 0) := new]} [].
Proof.
  destruct pool_two_uvm as (free & tbl & ps & Hu & Hf). pose proof (u_vm _ _ _ _ _ _ _ Hu) as [H1 H2 H3 _ _].
  pose proof (uvmcreate_spec pool_end eq_refl no_top pool_two free ltac:(done) H1 H2 H3) as Hc.
  assert (Hres : match uvmcreate pool_two with Ok r _ => r =? 0 | _ => true end = false)
    by (vm_compute; reflexivity).
  destruct free as [|new free]; [rewrite Hc in Hres; discriminate Hres|].
  destruct Hc as (m' & E & Hn & Hch). unfold pool_child. rewrite E. cbn [state_of].
  exists free, tbl, ps, new.
  destruct (uvm_other pool_end no_top _ _ _ m' _ free _ _ _ _ _ Hu (u_vm _ _ _ _ _ _ _ Hn) Hch) as [Ho _].
  - intros p Hp. split; [by apply (proj1 (Forall_forall _ _) (kmem_pages _ _ _ H3))|].
    intros Hq. by apply (pages_of_ok _ _ _ _ _ _ _ _ Hu Hq).
  - intros p Hp. by right.
  - split; [done|]. split; [rewrite <- (length_fmap snd ps), Hf; reflexivity|]. split; [done|].
    intros p Hp [[k [_ <-]%lookup_singleton_Some]|Hq%not_elem_of_nil]; [|done].
    apply (pages_of_ok _ _ _ _ _ _ _ _ Hu Hp). by left.
Qed.

Lemma uvmcopy_correct_witness :
  exists r m' ps psN new, uvmcopy pool_end pool_end new 8192 pool_child = Ok r m' /\ length ps = 2%nat /\
    (r = 0 /\ ubyte (m_mem m') psN 4100 = ubyte (m_mem pool_child) ps 4100 \/ r = -1 /\ psN = []).
Proof.
  destruct pool_child_spaces as (free & tbl & ps & new & H1 & H2 & H3 & H4).
  destruct (uvmcopy_correct pool_end eq_refl no_top no_top pool_child free pool_end tbl ps new _ 8192 H1 H3 H4)
    as (r & m' & free' & tblN' & psN & E & _ & _ & _ & _ & Hr & _); [vm_compute; intuition congruence|exact H2|].
  exists r, m', ps, psN, new. split; [exact E|]. split; [exact H2|].
  destruct Hr as [[-> Hb]|Hr]; [left|right]; auto.
Defined.
