(* ===== verification/UserMem.v ===== *)
(** * copyout, copyin and copyinstr

    The copies of vm.c between the kernel and user memory, against the view
    [ubyte] of the address space: they copy byte by byte up to the first address
    the user may not use, and never touch anything else. *)
From stdpp Require Import gmap list strings.
From S2P Require Import Prelude Kstring Abi Machine Spinlock Kalloc Vm PageTable Uvm.

Lemma land_pow2 v n : 0 <= n -> (Z.land v (2 ^ n) =? 0) = negb (Z.testbit v n).
Proof.
  intros Hn. destruct (Z.eqb_spec (Z.land v (2 ^ n)) 0) as [E|E].
  - apply (f_equal (fun x => Z.testbit x n)) in E.
    rewrite Z.land_spec, Z.pow2_bits_true, andb_true_r, Z.bits_0 in E by done. by rewrite E.
  - destruct (Z.testbit v n) eqn:Ev; [done|]. destruct E. apply Z.bits_inj'. intros i Hi.
    rewrite Z.land_spec, Z.pow2_bits_eqb, Z.bits_0 by done.
    destruct (Z.eqb_spec n i) as [<-|]; [by rewrite Ev|apply andb_false_r].
Qed.

Lemma PA2PTE_low pa i : pa_ok pa -> 0 <= i < 10 -> Z.testbit (PA2PTE pa) i = false.
Proof.
  intros Hpa Hi. rewrite PA2PTE_eq by done. change 1024 with (2 ^ 10).
  apply Z.mul_pow2_bits_low. lia.
Qed.

(** The physical page behind a user address. *)
Definition upage (ps : list (Z * Z)) (va : Z) : option Z :=
  match ps !! Z.to_nat (va / 4096) with
  | Some (p, f) => if Z.testbit f 4 then Some p else None
  | None => None
  end.

Lemma ubyte_upage mm ps va : ubyte mm ps va = (fun p => mget mm (p + va mod 4096)) <$> upage ps va.
Proof. unfold ubyte, upage. destruct (ps !! _) as [[p f]|]; [|done]. by destruct (Z.testbit f 4). Qed.

Lemma upage_same ps va va' : va / 4096 = va' / 4096 -> upage ps va = upage ps va'.
Proof. unfold upage. by intros ->. Qed.

Section UserMem.
Variable kend : Z.
Hypothesis kend_pos : 0 < kend.

(** The entries above the user part are not for the user: the trapframe and the
    trampoline are mapped without [PTE_U]. *)
Variable top : Z -> Z.
Hypothesis top_kernel : forall j, vpn TRAPFRAME <= j -> Z.testbit (top j) 4 = false.

Lemma upage_in ps va p : upage ps va = Some p -> p ∈ ps.*1.
Proof.
  unfold upage. destruct (ps !! _) as [[q f]|] eqn:E; [|done]. destruct (Z.testbit f 4); [|done].
  intros [= ->]. apply list_elem_of_fmap. exists (p, f). split; [done|]. by eapply list_elem_of_lookup_2.
Qed.

Lemma upage_none_above m free root tbl ps va :
  uvm kend top m free root tbl ps -> 4096 * vpn TRAPFRAME <= va -> upage ps va = None.
Proof.
  intros Hu Hva. unfold upage. pose proof (u_len _ _ _ _ _ _ _ Hu).
  rewrite (proj2 (lookup_ge_None _ _)); [done|]. dlia.
Qed.

Lemma walkaddr_eq m free root tbl ps va :
  uvm kend top m free root tbl ps -> 0 <= va ->
  walkaddr root va m = Ok (default 0 (upage ps va)) m.
Proof.
  intros Hu Hva. unfold walkaddr. rewrite Z.geb_leb. destruct (Z.leb_spec MAXVA va) as [Hm|Hm].
  { rewrite (upage_none_above m free root tbl) by
      (done || (change MAXVA with (2 ^ 38) in Hm; rewrite vpn_TRAPFRAME; lia)). done. }
  rewrite (bind_ok _ _ _ _ _ (walk_noalloc kend kend_pos m root tbl va (vi_rep _ _ _ _ _ (u_vm _ _ _ _ _ _ _ Hu)) (conj Hva Hm))).
  cbn beta. unfold load_word, upage. fold (vpn va).
  assert (Hn : 0 <= vpn va) by (apply Z.div_pos; lia).
  destruct (slot tbl (vpn va)) as [pte|] eqn:Es; cbn [default from_option id].
  - destruct (Z.eqb_spec pte 0); [by pose proof (slot_nonzero kend kend_pos _ _ _ _ _ _ (u_vm _ _ _ _ _ _ _ Hu) Es)|].
    mgo. rewrite <- (slot_leaf _ _ _ _ Es). change PTE_U with (2 ^ 4). rewrite land_pow2 by lia.
    destruct (ps !! _) as [[p f]|] eqn:Ep.
    + destruct (u_map _ _ _ _ _ _ _ Hu _ _ _ Ep) as (El & Hf & Hp).
      pose proof (page_ok_pa kend p kend_pos Hp) as Hpa. rewrite Z2Nat.id in El by done.
      rewrite El, valid_pte, Z.lor_spec, PA2PTE_low by (done || lia). cbn [orb negb].
      destruct (Z.testbit f 4); [|done]. cbn [negb]. rewrite PTE2PA_pte by (done || apply Hf). done.
    + apply lookup_ge_None in Ep. destruct (Z.lt_ge_cases (vpn va) (vpn TRAPFRAME)) as [Hlt|Hge].
      * by rewrite (u_free _ _ _ _ _ _ _ Hu) by lia.
      * rewrite (u_top _ _ _ _ _ _ _ Hu) by done. rewrite top_kernel by done. by destruct (valid _).
  - destruct (ps !! _) as [[p f]|] eqn:Ep; [|done].
    destruct (u_map _ _ _ _ _ _ _ Hu _ _ _ Ep) as (El & Hf & Hp). rewrite Z2Nat.id in El by done.
    rewrite (no_slot_leaf _ _ _ Es) in El. pose proof (page_ok_pa kend p kend_pos Hp) as Hpa.
    pose proof (valid_pte p f Hpa Hf) as Hv. by rewrite <- El in Hv.
Qed.

(** Different user pages are different physical pages. *)
Lemma upage_inj m free root tbl ps va va' p :
  uvm kend top m free root tbl ps -> 0 <= va -> 0 <= va' ->
  upage ps va = Some p -> upage ps va' = Some p -> va / 4096 = va' / 4096.
Proof.
  intros Hu H H'. unfold upage. destruct (ps !! Z.to_nat (va / 4096)) as [[q f]|] eqn:E; [|done].
  destruct (ps !! Z.to_nat (va' / 4096)) as [[q' f']|] eqn:E'; [|done].
  destruct (Z.testbit f 4), (Z.testbit f' 4); try done. intros [= ->] [= ->].
  apply Z2Nat.inj; [apply Z.div_pos; lia..|].
  eapply (NoDup_lookup _ _ _ p (u_nodup _ _ _ _ _ _ _ Hu)); by rewrite list_lookup_fmap, ?E, ?E'.
Qed.

(** Writing inside one user page. *)
Lemma user_write m free root tbl ps va p l :
  uvm kend top m free root tbl ps -> 0 <= va -> upage ps va = Some p ->
  va mod 4096 + Z.of_nat (length l) <= 4096 ->
  let m' := with_mem (fun mm => mwrite mm (p + va mod 4096) l) m in
  uvm kend top m' free root tbl ps /\
  forall va', 0 <= va' -> ubyte (m_mem m') ps va' =
    if (va <=? va') && (va' <? va + Z.of_nat (length l)) then Some (u8 (zget l (va' - va)))
    else ubyte (m_mem m) ps va'.
Proof.
  intros Hu Hva Hp Hl m'. pose proof (upage_in _ _ _ Hp) as Hin.
  pose proof (u_page _ _ _ _ _ _ _ _ Hu Hin) as Hok.
  assert (Hm : 0 <= va mod 4096 < 4096) by (apply Z.mod_pos_bound; lia).
  destruct (private_write kend kend_pos p (fun mm => mwrite mm (p + va mod 4096) l) m free root tbl)
    as (Hv' & _ & Hleaf); [apply Hu|done|by apply (u_own _ _ _ _ _ _ _ Hu)| |].
  { intros a Ha. apply mget_mwrite_out. lia. }
  fold m' in Hv', Hleaf. split.
  - by apply (uvm_change kend top m free tbl).
  - intros va' Hva'. rewrite !ubyte_upage.
    destruct (Z.eq_dec (va' / 4096) (va / 4096)) as [E|E].
    + rewrite (upage_same ps va' va E), Hp. cbn. rewrite mget_mwrite. zcase; try done; try dlia.
      do 2 f_equal. f_equal. dlia.
    + replace ((va <=? va') && (va' <? va + Z.of_nat (length l))) with false
        by (symmetry; zcase; try done; dlia).
      destruct (upage ps va') as [q|] eqn:Eq; [|done]. cbn. f_equal.
      pose proof (u_page _ _ _ _ _ _ _ _ Hu (upage_in _ _ _ Eq)) as Hqok.
      assert (Hne : p <> q) by (intros <-; by apply E, (upage_inj _ _ _ _ _ _ _ _ Hu Hva' Hva Eq Hp)).
      apply mget_mwrite_out. destruct (page_disjoint kend p q Hok Hqok Hne);
        pose proof (Z.mod_pos_bound va' 4096); lia.
Qed.

Lemma page_rest_eq va : page_rest va = 4096 - va mod 4096.
Proof. unfold page_rest. rewrite PGROUNDDOWN_eq. unfold PGSIZE. dlia. Qed.

(** The first page of a copy: the address [walkaddr] gives, or failure. *)
Lemma walk_user m free root tbl ps va :
  uvm kend top m free root tbl ps -> 0 <= va ->
  walkaddr root (PGROUNDDOWN va) m = Ok (default 0 (upage ps va)) m /\
  (forall p, upage ps va = Some p -> p <> 0 /\ va - PGROUNDDOWN va = va mod 4096 /\
     u64 (PGROUNDDOWN va + PGSIZE) = va + page_rest va).
Proof.
  intros Hu Hva. rewrite page_rest_eq, PGROUNDDOWN_eq. unfold PGSIZE. split.
  - rewrite (walkaddr_eq m free root tbl ps) by (done || dlia).
    do 2 f_equal. apply upage_same. rewrite Z.div_mul by lia. done.
  - intros p Hp. pose proof (page_ok_pos kend kend_pos _ (u_page _ _ _ _ _ _ _ _ Hu (upage_in _ _ _ Hp))).
    split; [lia|]. split; [dlia|]. unfold u64. rewrite Z.mod_small; [dlia|].
    destruct (Z.lt_ge_cases va (4096 * vpn TRAPFRAME)) as [Hlt|Hge].
    + rewrite vpn_TRAPFRAME in Hlt. dlia.
    + by rewrite (upage_none_above m free root tbl) in Hp.
Qed.

Lemma zget_drop l k i : 0 <= i -> zget (drop k l) i = zget l (Z.of_nat k + i).
Proof. intros Hi. unfold zget. rewrite lookup_drop. do 2 f_equal. lia. Qed.

Lemma zget_take l k i : 0 <= i < Z.of_nat k -> zget (take k l) i = zget l i.
Proof. intros Hi. unfold zget. by rewrite lookup_take_lt by lia. Qed.

Lemma copyout_loop_spec free root tbl ps : forall fuel src m va,
  uvm kend top m free root tbl ps -> 0 <= va -> (length src <= fuel)%nat ->
  exists r m' n, copyout_loop fuel root va src m = Ok r m' /\
    uvm kend top m' free root tbl ps /\  same_rest m m' /\
    (r = 0 /\ n = Z.of_nat (length src) \/
     r = -1 /\ 0 <= n < Z.of_nat (length src) /\ upage ps (va + n) = None) /\
    forall va', 0 <= va' -> ubyte (m_mem m') ps va' =
      if (va <=? va') && (va' <? va + n) then Some (u8 (zget src (va' - va)))
      else ubyte (m_mem m) ps va'.
Proof.
  induction fuel as [|fuel IH]; intros src m va Hu Hva Hf; cbn [copyout_loop].
  { destruct src; [|simpl in Hf; lia]. exists 0, m, 0. cbn. do 2 (split; [done|]).
    split; [apply same_rest_refl|]. split; [by left|]. intros va' _. zcase; try done; lia. }
  destruct (Z.leb_spec (Z.of_nat (length src)) 0) as [Hz|Hpos].
  { exists 0, m, 0. do 2 (split; [done|]). split; [apply same_rest_refl|]. split; [left; lia|].
    intros va' _. zcase; try done; lia. }
  destruct (walk_user m free root tbl ps va Hu Hva) as [E Hp].
  rewrite (bind_ok _ _ _ _ _ E). cbn beta. destruct (upage ps va) as [p|] eqn:Ep; cbn [default from_option id].
  2: { exists (-1), m, 0. do 2 (split; [done|]). split; [apply same_rest_refl|].
       split; [right; rewrite Z.add_0_r; split; [done|split; [lia|done]]|].
       intros va' _. zcase; try done; lia. }
  destruct (Hp p eq_refl) as (Hp0 & Hoff & Hnext). destruct (Z.eqb_spec p 0) as [|_]; [done|]. mgo.
  rewrite Hoff, Hnext, page_rest_eq. pose proof (Z.mod_pos_bound va 4096 ltac:(lia)) as Hm.
  set (n1 := Z.to_nat (Z.min (4096 - va mod 4096) (Z.of_nat (length src)))).
  assert (Hl1 : length (take n1 src) = n1) by (rewrite length_take; unfold n1; lia).
  destruct (user_write m free root tbl ps va p (take n1 src) Hu Hva Ep) as (Hu1 & Hb1);
    [rewrite Hl1; unfold n1; lia|].
  set (m1 := with_mem _ m) in *. rewrite Hl1 in Hb1.
  assert (Hn1 : 1 <= Z.of_nat n1 <= Z.of_nat (length src)) by (unfold n1; lia).
  destruct (IH (drop n1 src) m1 (va + (4096 - va mod 4096))) as
    (r & m' & n & E' & Hu' & Hs' & Hr & Hb'); [done|lia|rewrite length_drop; lia|].
  rewrite length_drop in Hr.
  assert (Hs : same_rest m m') by (eapply same_rest_trans; [apply same_rest_mem|exact Hs']).
  assert (Hcase : va + (4096 - va mod 4096) = va + Z.of_nat n1 \/ n1 = length src) by (unfold n1; lia).
  exists r, m', (Z.of_nat n1 + n). do 3 (split; [done|]). destruct Hcase as [Ev|Ev].
  - rewrite Ev in *. split.
    + destruct Hr as [[-> ->]|(-> & Hn & Hnone)]; [left; lia|right]. split; [done|]. split; [lia|].
      by rewrite Z.add_assoc.
    + intros va' Hva'. rewrite Hb', Hb1 by done. zcase; try done; try lia.
      * do 2 f_equal. rewrite zget_drop by lia. f_equal. lia.
      * do 2 f_equal. rewrite zget_take by lia. done.
  - destruct Hr as [[-> Hn]|(-> & Hn & _)]; [|lia]. split; [left; lia|].
    intros va' Hva'. rewrite Hb', Hb1 by done. zcase; try done; try lia.
    do 2 f_equal. rewrite zget_take by lia. done.
Qed.

(** Reading inside one user page. *)
Lemma user_read mm ps va p i :
  upage ps va = Some p -> 0 <= i -> va mod 4096 + i < 4096 ->
  ubyte mm ps (va + i) = Some (mget mm (p + va mod 4096 + i)).
Proof.
  intros Hp Hi Hl. rewrite ubyte_upage, (upage_same ps (va + i) va), Hp by dlia.
  cbn. do 2 f_equal. dlia.
Qed.

(** [bytes] are the user's bytes from [va] on. *)
Definition user_bytes (mm : mem) (ps : list (Z * Z)) (va : Z) (bytes : list Z) : Prop :=
  forall i b, bytes !! i = Some b -> ubyte mm ps (va + Z.of_nat i) = Some b.

Lemma user_bytes_app mm ps va xs ys :
  user_bytes mm ps va xs -> user_bytes mm ps (va + Z.of_nat (length xs)) ys ->
  user_bytes mm ps va (xs ++ ys).
Proof.
  intros Hx Hy i b [Hi|[Hge Hi]]%lookup_app_Some; [by apply Hx|].
  rewrite <- (Hy _ _ Hi). f_equal. lia.
Qed.

Lemma user_bytes_mread mm ps va p n :
  upage ps va = Some p -> va mod 4096 + Z.of_nat n <= 4096 ->
  user_bytes mm ps va (mread mm (p + va mod 4096) n).
Proof.
  intros Hp Hn i b Hi. pose proof (lookup_lt_Some _ _ _ Hi) as Hl. rewrite length_mread in Hl.
  rewrite lookup_mread in Hi by done. injection Hi as <-. apply user_read; [done|lia|lia].
Qed.

Lemma copyin_loop_spec free root tbl ps m :
  uvm kend top m free root tbl ps -> forall fuel va len dst,
  0 <= va -> len <= Z.of_nat fuel ->
  exists r bytes, copyin_loop fuel root va len dst m = Ok (r, dst ++ bytes) m /\
    user_bytes (m_mem m) ps va bytes /\
    (r = 0 /\ Z.of_nat (length bytes) = Z.max 0 len \/
     r = -1 /\ Z.of_nat (length bytes) < len /\ upage ps (va + Z.of_nat (length bytes)) = None).
Proof.
  intros Hu. induction fuel as [|fuel IH]; intros va len dst Hva Hf; cbn [copyin_loop];
    (destruct (Z.leb_spec len 0) as [Hz|Hpos];
     [exists 0, []; rewrite app_nil_r; split; [done|]; split; [done|]; left; cbn; lia|]); [lia|].
  destruct (walk_user m free root tbl ps va Hu Hva) as [E Hp].
  rewrite (bind_ok _ _ _ _ _ E). cbn beta. destruct (upage ps va) as [p|] eqn:Ep; cbn [default from_option id].
  2: { exists (-1), []. rewrite app_nil_r. split; [done|]. split; [done|]. right. cbn. rewrite Z.add_0_r. auto. }
  destruct (Hp p eq_refl) as (Hp0 & Hoff & Hnext). destruct (Z.eqb_spec p 0) as [|_]; [done|]. mgo.
  rewrite Hoff, Hnext, page_rest_eq. pose proof (Z.mod_pos_bound va 4096 ltac:(lia)) as Hm.
  set (n := Z.min (4096 - va mod 4096) len). assert (Hn : 1 <= n <= len) by lia.
  set (b1 := mread (m_mem m) (p + va mod 4096) (Z.to_nat n)).
  assert (Hl1 : length b1 = Z.to_nat n) by apply length_mread.
  destruct (IH (va + (4096 - va mod 4096)) (len - n) (dst ++ b1)) as (r & bytes & E' & Hb & Hr); [lia|lia|].
  exists r, (b1 ++ bytes). rewrite app_assoc. split; [done|]. rewrite length_app, Hl1.
  assert (Hb1 : user_bytes (m_mem m) ps va b1) by (apply user_bytes_mread; [done|lia]).
  assert (Hcase : va + (4096 - va mod 4096) = va + n \/ n = len) by lia.
  destruct Hcase as [Ev|Ev].
  - rewrite Ev in *. split; [apply user_bytes_app; [done|]; by rewrite Hl1, Z2Nat.id by lia|].
    destruct Hr as [[-> Hr]|(-> & Hr & Hnone)]; [left; lia|right].
    split; [done|]. split; [lia|]. rewrite <- Hnone. f_equal. lia.
  - destruct Hr as [[-> Hr]|(-> & Hr & _)]; [|lia].
    destruct bytes; [|simpl in Hr; lia]. rewrite app_nil_r. split; [done|left; cbn; lia].
Qed.

(** C18. [copyout] writes its bytes at the user address, up to the first page that is
    not the user's, and then fails; the rest of the user's memory is unchanged. *)
Theorem copyout_correct m free root tbl ps va src :
  uvm kend top m free root tbl ps -> 0 <= va ->
  exists r m' n, copyout root va src m = Ok r m' /\
    uvm kend top m' free root tbl ps /\  same_rest m m' /\
    (r = 0 /\ n = Z.of_nat (length src) \/
     r = -1 /\ 0 <= n < Z.of_nat (length src) /\ upage ps (va + n) = None) /\
    forall va', 0 <= va' -> ubyte (m_mem m') ps va' =
      if (va <=? va') && (va' <? va + n) then Some (u8 (zget src (va' - va)))
      else ubyte (m_mem m) ps va'.
Proof. intros Hu Hva. unfold copyout. by apply copyout_loop_spec. Qed.

(** What [copyout] stored, [copyin] reads back. *)
Theorem copyin_copyout m free root tbl ps va src m' :
  uvm kend top m free root tbl ps -> 0 <= va -> Forall is_byte src ->
  copyout root va src m = Ok 0 m' ->
  copyin root va (Z.of_nat (length src)) m' = Ok (0, src) m'.
Proof.
  intros Hu Hva Hsrc E.
  destruct (copyout_loop_spec free root tbl ps (length src) src m va Hu Hva) as
    (r & m1 & n & E1 & Hu1 & _ & Hr & Hb); [done|].
  unfold copyout in E. rewrite E in E1. injection E1 as <- <-.
  destruct Hr as [[_ ->]|(? & _)]; [|done].
  destruct (copyin_loop_spec free root tbl ps m' Hu1 (length src) va (Z.of_nat (length src)) [])
    as (r & bytes & E2 & Hbytes & Hr); [done|lia|].
  assert (Hmapped : forall i, 0 <= i < Z.of_nat (length src) ->
    ubyte (m_mem m') ps (va + i) = Some (u8 (zget src i))).
  { intros i Hi. rewrite Hb by lia. zcase; try lia. do 3 f_equal. lia. }
  destruct Hr as [[-> Hlen]|(-> & Hlen & Hnone)].
  - unfold copyin. rewrite Nat2Z.id, E2. cbn [app]. do 2 f_equal.
    apply list_eq_same_length with (n := length src); [done|lia|].
    intros i x y Hi Hx Hy. pose proof (Hbytes i x Hx) as H1. rewrite Hmapped in H1 by lia.
    injection H1 as <-. unfold zget. rewrite Nat2Z.id, Hy. cbn. apply u8_id.
    by eapply Forall_lookup_1.
  - specialize (Hmapped (Z.of_nat (length bytes)) ltac:(lia)). by rewrite ubyte_upage, Hnone in Hmapped.
Qed.

(** ** copyinstr *)

Lemma copy_until_nul_spec n mm : forall p bs nul,
  copy_until_nul n mm p = (bs, nul) ->
  bs = mread mm p (length bs) /\ (length bs <= n)%nat /\
  if nul then exists s, bs = s ++ [0] /\ ~ (0 ∈ s) else length bs = n /\ ~ (0 ∈ bs).
Proof.
  induction n as [|n IH]; intros p bs nul; cbn [copy_until_nul].
  { intros [= <- <-]. split; [done|]. split; [done|]. split; [done|]. apply not_elem_of_nil. }
  destruct (Z.eqb_spec (mget mm p) 0) as [E0|E0].
  { intros [= <- <-]. cbn. rewrite E0. split; [done|]. split; [lia|].
    exists []. split; [done|]. apply not_elem_of_nil. }
  destruct (copy_until_nul n mm (p + 1)) as [bs' nul'] eqn:E. intros [= <- <-].
  destruct (IH _ _ _ E) as (H1 & H2 & H3). cbn. rewrite <- H1. split; [done|]. split; [lia|].
  destruct nul'.
  - destruct H3 as (s & -> & Hs). exists (mget mm p :: s). split; [done|].
    rewrite elem_of_cons. intros [?|?]; congruence.
  - destruct H3 as [H3 H4]. split; [lia|]. rewrite elem_of_cons. intros [?|?]; congruence.
Qed.

(** The string of [copyinstr]: the bytes before the first NUL, with the NUL. *)
Definition nul_string (bytes : list Z) : Prop := exists s, bytes = s ++ [0] /\ ~ (0 ∈ s).

Lemma copyinstr_loop_spec free root tbl ps m :
  uvm kend top m free root tbl ps -> forall fuel va max dst,
  0 <= va -> max <= Z.of_nat fuel ->
  exists r bytes, copyinstr_loop fuel root va max dst m = Ok (r, dst ++ bytes) m /\
    user_bytes (m_mem m) ps va bytes /\ Z.of_nat (length bytes) <= Z.max 0 max /\
    (r = 0 /\ nul_string bytes \/
     r = -1 /\ ~ (0 ∈ bytes) /\
       (Z.of_nat (length bytes) = Z.max 0 max \/ upage ps (va + Z.of_nat (length bytes)) = None)).
Proof.
  intros Hu. induction fuel as [|fuel IH]; intros va max dst Hva Hf; cbn [copyinstr_loop];
    (destruct (Z.leb_spec max 0) as [Hz|Hpos];
     [exists (-1), []; rewrite app_nil_r; split; [done|]; split; [done|]; split; [cbn; lia|]; right;
      split; [done|]; split; [apply not_elem_of_nil|left; cbn; lia]|]); [lia|].
  destruct (walk_user m free root tbl ps va Hu Hva) as [E Hp].
  rewrite (bind_ok _ _ _ _ _ E). cbn beta. destruct (upage ps va) as [p|] eqn:Ep; cbn [default from_option id].
  2: { exists (-1), []. rewrite app_nil_r. split; [done|]. split; [done|]. split; [cbn; lia|]. right.
       split; [done|]. split; [apply not_elem_of_nil|right; cbn; by rewrite Z.add_0_r]. }
  destruct (Hp p eq_refl) as (Hp0 & Hoff & Hnext). destruct (Z.eqb_spec p 0) as [|_]; [done|]. mgo.
  rewrite Hoff, Hnext, page_rest_eq. pose proof (Z.mod_pos_bound va 4096 ltac:(lia)) as Hm.
  set (n := Z.min (4096 - va mod 4096) max). assert (Hn : 1 <= n <= max) by lia.
  destruct (copy_until_nul _ _ _) as [b1 nul] eqn:Eb.
  destruct (copy_until_nul_spec _ _ _ _ _ Eb) as (Hb1 & Hl1 & Hnul).
  assert (Hub : user_bytes (m_mem m) ps va b1) by (rewrite Hb1; apply user_bytes_mread; [done|lia]).
  destruct nul.
  { exists 0, b1. split; [done|]. split; [done|]. split; [lia|]. by left. }
  destruct Hnul as [Hl Hno].
  destruct (IH (va + (4096 - va mod 4096)) (max - n) (dst ++ b1)) as (r & bytes & E' & Hb & Hle & Hr); [lia|lia|].
  exists r, (b1 ++ bytes). rewrite app_assoc. split; [done|]. rewrite length_app, Hl.
  assert (Hcase : va + (4096 - va mod 4096) = va + n \/ n = max) by lia.
  assert (Happ : forall bs, ~ (0 ∈ bs) -> ~ (0 ∈ b1 ++ bs)) by (intros bs Hbs; rewrite elem_of_app; tauto).
  destruct Hcase as [Ev|Ev].
  - rewrite Ev in *. split; [apply user_bytes_app; [done|]; by rewrite Hl, Z2Nat.id by lia|].
    split; [lia|]. destruct Hr as [[-> (s & -> & Hs)]|(-> & Hr & Hend)]; [left|right]; (split; [done|]).
    + exists (b1 ++ s). split; [by rewrite app_assoc|]. by apply Happ.
    + split; [by apply Happ|]. destruct Hend as [Hend|Hend]; [left; lia|right].
      rewrite <- Hend. f_equal. lia.
  - destruct bytes as [|b bytes]; [|simpl in Hle; lia]. rewrite app_nil_r. split; [done|]. split; [cbn; lia|].
    destruct Hr as [[-> (s & Hs & _)]|(-> & Hr & Hend)]; [by destruct s|right].
    split; [done|]. split; [done|]. left. cbn. lia.
Qed.

(** C19. [copyinstr] returns 0 exactly with a NUL-terminated string of user bytes that
    fits in the buffer; when it fails, the [max] bytes it looked at, or those up
    to an address the user may not use, contain no NUL. *)
Theorem copyinstr_correct m free root tbl ps va max :
  uvm kend top m free root tbl ps -> 0 <= va -> 0 <= max ->
  exists r bytes, copyinstr root va max m = Ok (r, bytes) m /\
    user_bytes (m_mem m) ps va bytes /\ Z.of_nat (length bytes) <= max /\
    (r = 0 /\ nul_string bytes \/
     r = -1 /\ ~ (0 ∈ bytes) /\
       (Z.of_nat (length bytes) = max \/ upage ps (va + Z.of_nat (length bytes)) = None)).
Proof.
  intros Hu Hva Hmax. unfold copyinstr.
  destruct (copyinstr_loop_spec free root tbl ps m Hu (Z.to_nat max) va max [])
    as (r & bytes & E & Hb & Hl & Hr); [done|lia|].
  rewrite Z.max_r in * by done. exists r, bytes. done.
Qed.
End UserMem.

Lemma copyout_correct_witness :
  exists r m' n, copyout pool_end 4090 (repeat 7 10) pool_two = Ok r m' /\ (r = 0 /\ n = 10 \/ r = -1 /\ 0 <= n < 10).
Proof.
  destruct pool_two_uvm as (free & tbl & ps & Hu & Hf).
  destruct (copyout_correct pool_end eq_refl no_top ltac:(reflexivity) pool_two free pool_end tbl ps 4090 (repeat 7 10) Hu)
    as (r & m' & n & E & _ & _ & Hr & _); [lia|].
  exists r, m', n. split; [exact E|]. cbn in Hr. lia.
Defined.

(** The two pages after a copy across their boundary. *)
Definition pool_written : machine := state_of (copyout pool_end 4090 [1; 2; 3; 4; 5; 6; 7; 8; 0] pool_two).

Lemma pool_written_eq : copyout pool_end 4090 [1; 2; 3; 4; 5; 6; 7; 8; 0] pool_two = Ok 0 pool_written.
Proof. unfold pool_written. apply ok_state. vm_compute. reflexivity. Qed.

Lemma copyin_copyout_witness :
  copyin pool_end 4090 9 pool_written = Ok (0, [1; 2; 3; 4; 5; 6; 7; 8; 0]) pool_written.
Proof.
  destruct pool_two_uvm as (free & tbl & ps & Hu & Hf).
  apply (copyin_copyout pool_end eq_refl no_top ltac:(reflexivity) pool_two free pool_end tbl ps 4090
           [1; 2; 3; 4; 5; 6; 7; 8; 0] pool_written Hu); [lia| |exact pool_written_eq].
  repeat constructor; lia.
Defined.

Lemma copyinstr_correct_witness :
  exists r bytes, copyinstr pool_end 4090 100 pool_two = Ok (r, bytes) pool_two /\
    (r = 0 /\ nul_string bytes \/ r = -1 /\ ~ (0 ∈ bytes)).
Proof.
  destruct pool_two_uvm as (free & tbl & ps & Hu & Hf).
  destruct (copyinstr_correct pool_end eq_refl no_top ltac:(reflexivity) pool_two free pool_end tbl ps 4090 100 Hu)
    as (r & bytes & E & _ & _ & Hr); [lia|lia|].
  exists r, bytes. split; [exact E|]. destruct Hr as [Hr|(H1 & H2 & _)]; [left|right]; auto.
Defined.
