(* ===== verification/Proc.v ===== *)
(** * kernel/proc.c: processes

    The process table, [sleep] and [wakeup], the scheduler and the life of a
    process.  [sched] switches to the scheduler with [swtch]; what the process
    does afterwards is the resumption that the result carries.  [fork] and [exit]
    call the file layer, which they see through the interface [FileOps]. *)
From stdpp Require Import gmap list strings.
From S2P Require Import Prelude Kstring Abi Machine Spinlock Kalloc Vm.

(** ** The process table *)

Definition proc_zero : proc :=
  mk_proc UNUSED None 0 0 0 None 0 0 0 0 context_zero (replicate 16 None) None [].

Definition get_proc (m : machine) (i : nat) : proc := default proc_zero (m_procs m !! i).

Definition upd_proc (i : nat) (f : proc -> proc) (m : machine) : machine :=
  set_m_procs (<[i := f (get_proc m i)]> (m_procs m)) m.

Definition proc_get {A} (i : nat) (f : proc -> A) : M machine A := reads (fun m => f (get_proc m i)).
Definition proc_set (i : nat) (f : proc -> proc) : M machine unit := modify (upd_proc i f).

(** [for(p = proc; p < &proc[NPROC]; p++)] *)
Definition proc_table : list nat := seq 0 (Z.to_nat NPROC).

Definition proc_mapstacks (kpgtbl : Z) : M machine unit :=
  each proc_table (fun p =>
    pa <- kalloc ;;
    if pa =? 0 then panic "kalloc" else
    kvmmap kpgtbl (KSTACK (Z.of_nat p)) pa PGSIZE (Z.lor PTE_R PTE_W)).

Definition procinit : M machine unit :=
  initlock Lk_pid "nextpid" ;;;
  initlock Lk_wait "wait_lock" ;;;
  each proc_table (fun p =>
    initlock (Lk_proc p) "proc" ;;;
    proc_set p (set_p_kstack (KSTACK (Z.of_nat p)))).

Definition cpuid : M machine Z := reads (fun m => h_tp (m_hart m)).

(** The fields of [mycpu()] are those of the hart. *)
Definition myproc : M machine (option nat) :=
  push_off ;;;
  p <- reads (fun m => h_proc (m_hart m)) ;;
  pop_off ;;;
  ret p.

(** A dereference of [myproc()]: without a process it is a fault on address 0,
    on which [kerneltrap] panics. *)
Definition curproc : M machine nat :=
  p <- myproc ;;
  match p with
  | Some i => ret i
  | None => panic "kerneltrap"
  end.

Definition allocpid : M machine Z :=
  acquire Lk_pid ;;;
  pid <- reads m_nextpid ;;
  modify (set_m_nextpid (i32 (pid + 1))) ;;;
  release Lk_pid ;;;
  ret pid.

Section Proc.
(** Symbols of the linker script and of trampoline.S. *)
Variables kend trampoline forkret_addr : Z.

(** ** Page tables of processes *)

Definition proc_pagetable (p : nat) : M machine Z :=
  pagetable <- uvmcreate ;;
  if pagetable =? 0 then ret 0 else
  r <- mappages pagetable TRAMPOLINE PGSIZE trampoline (Z.lor PTE_R PTE_X) ;;
  if r <? 0 then uvmfree kend pagetable 0 ;;; ret 0 else
  trapframe <- proc_get p p_trapframe ;;
  r <- mappages pagetable TRAPFRAME PGSIZE trapframe (Z.lor PTE_R PTE_W) ;;
  if r <? 0
  then uvmunmap kend pagetable TRAMPOLINE 1 false ;;; uvmfree kend pagetable 0 ;;; ret 0
  else ret pagetable.

Definition proc_freepagetable (pagetable sz : Z) : M machine unit :=
  uvmunmap kend pagetable TRAMPOLINE 1 false ;;;
  uvmunmap kend pagetable TRAPFRAME 1 false ;;;
  uvmfree kend pagetable sz.

(** ** Allocating and freeing a process *)

Definition freeproc (p : nat) : M machine unit :=
  trapframe <- proc_get p p_trapframe ;;
  when (negb (trapframe =? 0)) (kfree kend trapframe) ;;;
  proc_set p (set_p_trapframe 0) ;;;
  pagetable <- proc_get p p_pagetable ;;
  sz <- proc_get p p_sz ;;
  when (negb (pagetable =? 0)) (proc_freepagetable pagetable sz) ;;;
  proc_set p (set_p_pagetable 0) ;;;
  proc_set p (set_p_sz 0) ;;;
  proc_set p (set_p_pid 0) ;;;
  proc_set p (set_p_parent None) ;;;
  proc_set p (set_p_name []) ;;;
  proc_set p (set_p_chan None) ;;;
  proc_set p (set_p_killed 0) ;;;
  proc_set p (set_p_xstate 0) ;;;
  proc_set p (set_p_state UNUSED).

(** The search of [allocproc]; the lock of the slot it finds is held. *)
Definition find_unused : M machine (option nat) :=
  scan proc_table (fun p =>
    acquire (Lk_proc p) ;;;
    st <- proc_get p p_state ;;
    if decide (st = UNUSED) then ret (Some p) else
    release (Lk_proc p) ;;;
    ret None).

Definition allocproc : M machine (option nat) :=
  found <- find_unused ;;
  match found with
  | None => ret None
  | Some p =>
      pid <- allocpid ;;
      proc_set p (set_p_pid pid) ;;;
      proc_set p (set_p_state USED) ;;;
      trapframe <- kalloc ;;
      proc_set p (set_p_trapframe trapframe) ;;;
      if trapframe =? 0
      then freeproc p ;;; release (Lk_proc p) ;;; ret None else
      pagetable <- proc_pagetable p ;;
      proc_set p (set_p_pagetable pagetable) ;;;
      if pagetable =? 0
      then freeproc p ;;; release (Lk_proc p) ;;; ret None else
      kstack <- proc_get p p_kstack ;;
      proc_set p (set_p_context
        (mk_context forkret_addr (u64 (kstack + PGSIZE)) 0 0 0 0 0 0 0 0 0 0 0 0)) ;;;
      ret (Some p)
  end.

(** [uint sz]: the size is kept in 32 bits. *)
Definition growproc (n : Z) : M machine Z :=
  p <- curproc ;;
  sz64 <- proc_get p p_sz ;;
  pagetable <- proc_get p p_pagetable ;;
  let sz := u32 sz64 in
  if n >? 0 then
    r <- uvmalloc kend pagetable sz (u32 (sz + n)) ;;
    if u32 r =? 0 then ret (-1) else
    proc_set p (set_p_sz (u32 r)) ;;; ret 0
  else if n <? 0 then
    r <- uvmdealloc kend pagetable sz (u32 (sz + n)) ;;
    proc_set p (set_p_sz (u32 r)) ;;; ret 0
  else proc_set p (set_p_sz sz) ;;; ret 0.

(** ** Switching *)

Definition sched : M machine unit :=
  p <- curproc ;;
  h <- holding (Lk_proc p) ;;
  if negb h then panic "sched p->lock" else
  noff <- reads (fun m => h_noff (m_hart m)) ;;
  if negb (noff =? 1) then panic "sched locks" else
  st <- proc_get p p_state ;;
  if decide (st = RUNNING) then panic "sched running" else
  on <- intr_get ;;
  if on : bool then panic "sched interruptible" else
  intena <- reads (fun m => h_intena (m_hart m)) ;;
  swtch ;;;
  modify (with_hart (set_h_intena intena)).

Definition yield : M machine unit :=
  p <- curproc ;;
  acquire (Lk_proc p) ;;;
  proc_set p (set_p_state RUNNABLE) ;;;
  sched ;;;
  release (Lk_proc p).

Definition sleep (chan : chan) (lk : lockid) : M machine unit :=
  p <- curproc ;;
  acquire (Lk_proc p) ;;;
  release lk ;;;
  proc_set p (set_p_chan (Some chan)) ;;;
  proc_set p (set_p_state SLEEPING) ;;;
  sched ;;;
  proc_set p (set_p_chan None) ;;;
  release (Lk_proc p) ;;;
  acquire lk.

(** A channel of 0 is [None]. *)
Definition wakeup_body (chan : option chan) (p : nat) : M machine unit :=
  me <- myproc ;;
  if decide (Some p = me) then ret tt else
  acquire (Lk_proc p) ;;;
  st <- proc_get p p_state ;;
  ch <- proc_get p p_chan ;;
  when (bool_decide (st = SLEEPING /\ ch = chan)) (proc_set p (set_p_state RUNNABLE)) ;;;
  release (Lk_proc p).

Definition wakeup (chan : option chan) : M machine unit := each proc_table (wakeup_body chan).

Definition kill (pid : Z) : M machine Z :=
  r <- scan proc_table (fun p =>
    acquire (Lk_proc p) ;;;
    pid' <- proc_get p p_pid ;;
    if pid' =? pid then
      proc_set p (set_p_killed 1) ;;;
      st <- proc_get p p_state ;;
      when (bool_decide (st = SLEEPING)) (proc_set p (set_p_state RUNNABLE)) ;;;
      release (Lk_proc p) ;;;
      ret (Some 0)
    else release (Lk_proc p) ;;; ret None) ;;
  ret (default (-1) r).

(** ** Waiting for children *)

(** [wait_lock] is held. *)
Definition reparent (p : nat) : M machine unit :=
  each proc_table (fun pp =>
    parent <- proc_get pp p_parent ;;
    if decide (parent = Some p) then
      init <- reads m_initproc ;;
      proc_set pp (set_p_parent init) ;;;
      wakeup (Ch_proc <$> init)
    else ret tt).

(** What one pass of [wait] over the table finds. *)
Inductive reaped : Type := Reaped (pid : Z) | Copy_failed.

Definition wait_scan (p : nat) (addr : Z) : M machine (bool * option reaped) :=
  let body np (havekids : bool) : M machine (bool * option reaped) :=
    parent <- proc_get np p_parent ;;
    if decide (parent = Some p) then
      acquire (Lk_proc np) ;;;
      st <- proc_get np p_state ;;
      if decide (st = ZOMBIE) then
        pid <- proc_get np p_pid ;;
        xstate <- proc_get np p_xstate ;;
        pagetable <- proc_get p p_pagetable ;;
        r <- (if negb (addr =? 0) then copyout pagetable addr (le_bytes 4 xstate) else ret 0) ;;
        if r <? 0 then
          release (Lk_proc np) ;;; release Lk_wait ;;; ret (true, Some Copy_failed)
        else
          freeproc np ;;; release (Lk_proc np) ;;; release Lk_wait ;;;
          ret (true, Some (Reaped pid))
      else release (Lk_proc np) ;;; ret (true, None)
    else ret (havekids, None) in
  (fix go (l : list nat) (havekids : bool) : M machine (bool * option reaped) :=
     match l with
     | [] => ret (havekids, None)
     | np :: l =>
         r <- body np havekids ;;
         match r with
         | (_, Some x) => ret r
         | (hk, None) => go l hk
         end
     end) proc_table false.

(** [for(;;)]: [fuel] bounds the number of times the process is woken up. *)
Fixpoint wait_loop (fuel : nat) (p : nat) (addr : Z) : M machine Z :=
  match fuel with
  | O => hang
  | S fuel =>
      r <- wait_scan p addr ;;
      match r with
      | (_, Some (Reaped pid)) => ret pid
      | (_, Some Copy_failed) => ret (-1)
      | (havekids, None) =>
          killed <- proc_get p p_killed ;;
          if negb havekids || negb (killed =? 0) then release Lk_wait ;;; ret (-1) else
          sleep (Ch_proc p) Lk_wait ;;;
          wait_loop fuel p addr
      end
  end.

Definition wait (fuel : nat) (addr : Z) : M machine Z :=
  p <- curproc ;;
  acquire Lk_wait ;;;
  wait_loop fuel p addr.

(** ** Copies to and from the user or the kernel

    [Dkernel] and [Skernel] stand for a buffer of the kernel: the bytes that
    [memmove] stores there are returned. *)
Inductive dst : Type := Duser (va : Z) | Dkernel.
Inductive src : Type := Suser (va : Z) | Skernel (bytes : list Z).

Definition either_copyout (d : dst) (bytes : list Z) : M machine (Z * list Z) :=
  p <- curproc ;;
  match d with
  | Duser va =>
      pagetable <- proc_get p p_pagetable ;;
      r <- copyout pagetable va bytes ;;
      ret (r, [])
  | Dkernel => ret (0, bytes)
  end.

Definition either_copyin (s : src) (off len : Z) : M machine (Z * list Z) :=
  p <- curproc ;;
  match s with
  | Suser va =>
      pagetable <- proc_get p p_pagetable ;;
      copyin pagetable (u64 (va + off)) len
  | Skernel bytes => ret (0, take (Z.to_nat len) (drop (Z.to_nat off) bytes))
  end.
End Proc.

(** ** Processes and files *)

(** What proc.c uses of the file layer; a kernel state [S] contains the machine. *)
Class FileOps (S : Type) := {
  filedup : nat -> M S nat;
  fileclose : nat -> M S unit;
  idup : nat -> M S nat;
  iput : nat -> M S unit;
  begin_op : M S unit;
  end_op : M S unit;
  namei : list Z -> M S (option nat)
}.

Section ProcFiles.
Context {S : Type} `{Sub machine S} `{FileOps S}.
Variables kend trampoline forkret_addr : Z.

Definition initcode : list Z := [
  0x17; 0x05; 0x00; 0x00; 0x13; 0x05; 0x45; 0x02;
  0x97; 0x05; 0x00; 0x00; 0x93; 0x85; 0x35; 0x02;
  0x93; 0x08; 0x70; 0x00; 0x73; 0x00; 0x00; 0x00;
  0x93; 0x08; 0x20; 0x00; 0x73; 0x00; 0x00; 0x00;
  0xef; 0xf0; 0x9f; 0xff; 0x2f; 0x69; 0x6e; 0x69;
  0x74; 0x00; 0x00; 0x24; 0x00; 0x00; 0x00; 0x00;
  0x00; 0x00; 0x00; 0x00 ].

(** The bytes of a string literal. *)
Definition store_tf (p : nat) (off v : Z) : M machine unit :=
  tf <- proc_get p p_trapframe ;; store_word (tf + off) v.

Definition userinit : M S unit :=
  p <- lift (allocproc kend trampoline forkret_addr) ;;
  lift (modify (set_m_initproc p)) ;;;
  match p with
  | None => panic "kerneltrap"
  | Some p =>
      pagetable <- lift (proc_get p p_pagetable) ;;
      lift (uvminit pagetable initcode) ;;;
      lift (proc_set p (set_p_sz PGSIZE)) ;;;
      lift (store_tf p TF_epc 0) ;;;
      lift (store_tf p TF_sp PGSIZE) ;;;
      lift (proc_set p (set_p_name (bytes_of "initcode"))) ;;;
      cwd <- namei (bytes_of "/") ;;
      lift (proc_set p (set_p_cwd cwd)) ;;;
      lift (proc_set p (set_p_state RUNNABLE)) ;;;
      lift (release (Lk_proc p))
  end.

(** The duplication of the open files. *)
Definition dup_files (p np : nat) : M S unit :=
  each (seq 0 (Z.to_nat NOFILE)) (fun i =>
    f <- lift (proc_get p (fun q => default None (p_ofile q !! i))) ;;
    match f with
    | Some f =>
        f' <- filedup f ;;
        lift (proc_set np (fun q => set_p_ofile (<[i := Some f']> (p_ofile q)) q))
    | None => ret tt
    end).

Definition fork : M S Z :=
  p <- lift curproc ;;
  np <- lift (allocproc kend trampoline forkret_addr) ;;
  match np with
  | None => ret (-1)
  | Some np =>
      pagetable <- lift (proc_get p p_pagetable) ;;
      npagetable <- lift (proc_get np p_pagetable) ;;
      sz <- lift (proc_get p p_sz) ;;
      r <- lift (uvmcopy kend pagetable npagetable sz) ;;
      if r <? 0
      then lift (freeproc kend np) ;;; lift (release (Lk_proc np)) ;;; ret (-1)
      else
      lift (proc_set np (set_p_sz sz)) ;;;
      tf <- lift (proc_get p p_trapframe) ;;
      ntf <- lift (proc_get np p_trapframe) ;;
      lift (modify (with_mem (fun mm => memmove mm ntf tf 288))) ;;;
      lift (store_tf np TF_a0 0) ;;;
      dup_files p np ;;;
      cwd <- lift (proc_get p p_cwd) ;;
      ncwd <- match cwd with Some c => idup c | None => panic "kerneltrap" end ;;
      lift (proc_set np (set_p_cwd (Some ncwd))) ;;;
      name <- lift (proc_get p p_name) ;;
      lift (proc_set np (set_p_name (take 15 name))) ;;;
      pid <- lift (proc_get np p_pid) ;;
      lift (release (Lk_proc np)) ;;;
      lift (acquire Lk_wait) ;;;
      lift (proc_set np (set_p_parent (Some p))) ;;;
      lift (release Lk_wait) ;;;
      lift (acquire (Lk_proc np)) ;;;
      lift (proc_set np (set_p_state RUNNABLE)) ;;;
      lift (release (Lk_proc np)) ;;;
      ret pid
  end.

Definition exit (status : Z) : M S unit :=
  p <- lift curproc ;;
  init <- lift (reads m_initproc) ;;
  if decide (init = Some p) then panic "init exiting" else
  each (seq 0 (Z.to_nat NOFILE)) (fun fd =>
    f <- lift (proc_get p (fun q => default None (p_ofile q !! fd))) ;;
    match f with
    | Some f =>
        fileclose f ;;;
        lift (proc_set p (fun q => set_p_ofile (<[fd := None]> (p_ofile q)) q))
    | None => ret tt
    end) ;;;
  begin_op ;;;
  cwd <- lift (proc_get p p_cwd) ;;
  match cwd with Some c => iput c | None => panic "kerneltrap" end ;;;
  end_op ;;;
  lift (proc_set p (set_p_cwd None)) ;;;
  lift (acquire Lk_wait) ;;;
  lift (reparent p) ;;;
  parent <- lift (proc_get p p_parent) ;;
  lift (wakeup (Ch_proc <$> parent)) ;;;
  lift (acquire (Lk_proc p)) ;;;
  lift (proc_set p (set_p_xstate status)) ;;;
  lift (proc_set p (set_p_state ZOMBIE)) ;;;
  lift (release Lk_wait) ;;;
  lift sched ;;;
  panic "zombie exit".
End ProcFiles.
