(* ===== verification/Sched.v ===== *)
(** * Processes: sleep, wakeup, kill and the switch to the scheduler

    Specifications of the operations of kernel/proc.c on the process table, for a
    hart that runs process [me]. *)
From stdpp Require Import gmap list strings.
From S2P Require Import Prelude Kstring Abi Machine Spinlock Kalloc Vm Proc.

(** ** The running process *)

Lemma myproc_eq m : hart_ok m -> myproc m = Ok (h_proc (m_hart m)) (settle m).
Proof.
  intros H. unfold myproc. mcall push_off_eq. mgo. mcall (pop_push m H). done.
Qed.

Lemma curproc_eq m p :
  hart_ok m -> h_proc (m_hart m) = Some p -> curproc m = Ok p (settle m).
Proof. intros H E. unfold curproc. mcall (myproc_eq m H). by rewrite E. Qed.

Lemma settle_depth m : 0 < h_noff (m_hart m) -> settle m = m.
Proof.
  intros H. unfold settle, with_hart, cpu_settle.
  rewrite (proj2 (Z.eqb_neq _ 0)) by lia. by destruct m.
Qed.

Lemma upd_proc_hold l p f m : upd_proc p f (hold l m) = hold l (upd_proc p f m).
Proof. reflexivity. Qed.
Lemma upd_proc_settle p f m : upd_proc p f (settle m) = settle (upd_proc p f m).
Proof. reflexivity. Qed.
Lemma get_proc_hold l p m : get_proc (hold l m) p = get_proc m p.
Proof. reflexivity. Qed.
Lemma get_proc_settle p m : get_proc (settle m) p = get_proc m p.
Proof. reflexivity. Qed.
Lemma procs_settle m : m_procs (settle m) = m_procs m.
Proof. reflexivity. Qed.
Lemma hart_ok_upd_proc p f m : hart_ok m -> hart_ok (upd_proc p f m).
Proof. done. Qed.
Lemma unlocked_upd_proc l p f m : unlocked l m -> unlocked l (upd_proc p f m).
Proof. done. Qed.
#[export] Hint Resolve hart_ok_upd_proc unlocked_upd_proc : machine.

Lemma get_upd_proc_eq p f m :
  (p < length (m_procs m))%nat -> get_proc (upd_proc p f m) p = f (get_proc m p).
Proof.
  intros H. unfold get_proc at 1, upd_proc. cbn. by rewrite list_lookup_insert_eq by done.
Qed.

Lemma get_upd_proc_ne p q f m : p <> q -> get_proc (upd_proc p f m) q = get_proc m q.
Proof. intros H. unfold get_proc, upd_proc. cbn. by rewrite list_lookup_insert_ne by done. Qed.

Lemma upd_proc_upd p f g m :
  (p < length (m_procs m))%nat -> upd_proc p f (upd_proc p g m) = upd_proc p (fun x => f (g x)) m.
Proof.
  intros H. unfold upd_proc at 1. rewrite get_upd_proc_eq by done.
  unfold upd_proc. destruct m. cbn. by rewrite list_insert_insert_eq.
Qed.

Lemma upd_proc_id p m : (p < length (m_procs m))%nat -> upd_proc p (fun x => x) m = m.
Proof.
  intros H. unfold upd_proc, get_proc. destruct (lookup_lt_is_Some_2 _ _ H) as [x Hx].
  rewrite Hx. cbn. rewrite list_insert_id by done. by destruct m.
Qed.

Lemma length_upd_proc p f m : length (m_procs (upd_proc p f m)) = length (m_procs m).
Proof. unfold upd_proc. cbn. by rewrite length_insert. Qed.

(** A critical section of a process lock that changes that process. *)
Lemma proc_section p f m :
  hart_ok m -> unlocked (Lk_proc p) m ->
  (acquire (Lk_proc p) ;;; proc_set p f ;;; release (Lk_proc p)) m = Ok tt (settle (upd_proc p f m)).
Proof.
  intros H1 H2. mcall (acquire_ok _ _ H2). unfold proc_set. mgo. rewrite upd_proc_hold.
  apply release_hold; auto with machine.
Qed.

(** ** Leaving a lock inside another critical section *)

Lemma set_lock_comm l l' v w m :
  l <> l' -> set_lock l v (set_lock l' w m) = set_lock l' w (set_lock l v m).
Proof. intros H. unfold set_lock. cbn. by rewrite insert_insert_ne by done. Qed.

Lemma pop_push2 m :
  hart_ok m -> pop_off (with_hart cpu_push (with_hart cpu_push m)) = Ok tt (with_hart cpu_push m).
Proof.
  intros H. rewrite (pop_push (with_hart cpu_push m)) by (by apply hart_ok_push).
  destruct H as [H _]. f_equal. by apply settle_push.
Qed.

Lemma pop_off_set_lock l v m m' :
  pop_off m = Ok tt m' -> pop_off (set_lock l v m) = Ok tt (set_lock l v m').
Proof.
  destruct m as [h lk me fl pr ip np ti]. unfold pop_off, intr_get, bind, reads, set_lock. cbn.
  destruct (sie h); cbn; [done|]. destruct (h_noff h <? 1); cbn; [done|].
  unfold with_hart, set_m_hart. cbn. destruct (_ && _); intros E; apply Ok_inj in E as [_ <-]; reflexivity.
Qed.

Lemma release_inner l l2 m :
  hart_ok m -> l <> l2 -> unlocked l m ->
  release l (hold l2 (hold l m)) = Ok tt (hold l2 m).
Proof.
  intros Hok Hne [n Hn]. unfold release, holding. mgo.
  assert (Hg : get_lock (hold l2 (hold l m)) l = mk_spinlock 1 n (Some (h_tp (m_hart m)))).
  { unfold hold, get_lock, set_lock. cbn. rewrite lookup_insert_ne by done.
    rewrite lookup_insert_eq. cbn. by rewrite Hn. }
  rewrite Hg. cbn [locked lk_cpu]. replace (h_tp (m_hart (hold l2 (hold l m)))) with (h_tp (m_hart m)) by done.
  cbn. rewrite Z.eqb_refl. cbn [negb]. mgo. rewrite Hg. rewrite ?get_lock_set, ?set_lock_set. cbn.
  pose proof (pop_push2 m Hok) as E.
  apply (pop_off_set_lock l2 (mk_spinlock 1 (lk_name (get_lock m l2)) (Some (h_tp (m_hart m))))) in E.
  etrans; [|exact E]. f_equal.
  destruct m as [h lk me fl pr ip np ti]. unfold hold, set_lock, with_hart, get_lock, set_m_locks, set_m_hart. cbn in *.
  f_equal. rewrite !lookup_insert_ne by done. rewrite (insert_insert_ne _ l l2) by done.
  rewrite insert_insert_eq. by rewrite (insert_id lk l).
Qed.

(** ** wakeup *)

(** The locks of all processes but [me] are free. *)
Definition procs_free (me : option nat) (m : machine) : Prop :=
  forall p, (p < length (m_procs m))%nat -> Some p <> me -> unlocked (Lk_proc p) m.

Record sched_ok (m : machine) : Prop := {
  so_hart : hart_ok m;
  so_len : length (m_procs m) = Z.to_nat NPROC;
  so_free : procs_free (h_proc (m_hart m)) m
}.

(** What [wakeup] does to one process. *)
Definition wake (ch : option chan) (me : option nat) (i : nat) (x : proc) : proc :=
  if decide (Some i = me) then x
  else if decide (p_state x = SLEEPING /\ p_chan x = ch) then set_p_state RUNNABLE x else x.

Lemma sched_ok_settle m : sched_ok m -> sched_ok (settle m).
Proof.
  intros [H1 H2 H3]. split; [by apply hart_ok_settle|done|].
  replace (h_proc (m_hart (settle m))) with (h_proc (m_hart m)); [done|].
  unfold settle, with_hart, cpu_settle. cbn. by destruct (_ =? 0).
Qed.

Lemma h_proc_settle m : h_proc (m_hart (settle m)) = h_proc (m_hart m).
Proof. unfold settle, with_hart, cpu_settle. cbn. by destruct (_ =? 0). Qed.

Lemma sched_ok_upd p f m : sched_ok m -> sched_ok (upd_proc p f m).
Proof.
  intros [H1 H2 H3]. split; [done|by rewrite length_upd_proc|].
  intros q Hq. rewrite length_upd_proc in Hq. by apply H3.
Qed.
#[export] Hint Resolve sched_ok_settle sched_ok_upd so_hart : machine.

Lemma sched_ok_hold l m : sched_ok m -> (forall p, l <> Lk_proc p) -> sched_ok (hold l m).
Proof.
  intros [H1 H2 H3] Hl. split; [by apply hart_ok_hold|done|].
  intros p Hp Hne. apply unlocked_hold; [done|by apply H3].
Qed.

Lemma wakeup_body_eq ch m i :
  sched_ok m -> (i < length (m_procs m))%nat ->
  wakeup_body ch i m = Ok tt (settle (upd_proc i (wake ch (h_proc (m_hart m)) i) m)).
Proof.
  intros Hs Hi. unfold wakeup_body. mcall (myproc_eq m (so_hart m Hs)). unfold wake at 1.
  destruct (decide (Some i = h_proc (m_hart m))) as [E|E].
  - replace (upd_proc i _ m) with m; [done|].
    by rewrite <- (upd_proc_id i m Hi) at 1.
  - pose proof (so_free m Hs i Hi E) as Hu.
    mcall (acquire_ok (Lk_proc i) (settle m) Hu). rewrite hold_settle. unfold proc_get. mgo.
    rewrite get_proc_hold.
    destruct (decide (p_state (get_proc m i) = SLEEPING /\ p_chan (get_proc m i) = ch)) as [D|D].
    + rewrite bool_decide_true by done. unfold when, proc_set. mgo. rewrite upd_proc_hold.
      rewrite release_hold by (auto with machine). f_equal. f_equal. unfold upd_proc.
      by rewrite ?decide_False, ?decide_True by done.
    + rewrite bool_decide_false by done. unfold when. mgo.
      rewrite release_hold by (auto with machine). f_equal. f_equal.
      rewrite <- (upd_proc_id i m Hi) at 1. unfold upd_proc. by rewrite ?decide_False by done.
Qed.

(** The process table after the processes of [l] were visited. *)
Definition wake_list (ch : option chan) (me : option nat) (l : list nat) (m : machine) : machine :=
  fold_left (fun m i => upd_proc i (wake ch me i) m) l m.

Lemma wake_list_settle ch me l m : wake_list ch me l (settle m) = settle (wake_list ch me l m).
Proof. revert m. induction l as [|i l IH]; intros m; [done|]. exact (IH (upd_proc i (wake ch me i) m)). Qed.

Lemma wake_list_rest ch me l m :
  length (m_procs (wake_list ch me l m)) = length (m_procs m) /\
  wake_list ch me l m = set_m_procs (m_procs (wake_list ch me l m)) m.
Proof.
  revert m. induction l as [|i l IH]; intros m; [by destruct m|]. cbn.
  destruct (IH (upd_proc i (wake ch me i) m)) as [H1 H2]. rewrite H2 at 2.
  rewrite length_upd_proc in H1. done.
Qed.

Lemma wake_list_get ch me l m q :
  NoDup l -> (forall i, i ∈ l -> (i < length (m_procs m))%nat) ->
  get_proc (wake_list ch me l m) q =
  if decide (q ∈ l) then wake ch me q (get_proc m q) else get_proc m q.
Proof.
  revert m. induction l as [|i l IH]; intros m Hnd Hl; [done|]. apply NoDup_cons in Hnd as [Hni Hnd].
  change (wake_list ch me (i :: l) m) with (wake_list ch me l (upd_proc i (wake ch me i) m)). rewrite IH; [|done|].
  - destruct (decide (q = i)) as [->|Hne].
    + rewrite decide_False by done. rewrite decide_True by (constructor).
      apply get_upd_proc_eq, Hl. constructor.
    + rewrite get_upd_proc_ne by done. apply decide_ext. rewrite elem_of_cons. naive_solver.
  - intros j Hj. rewrite length_upd_proc. apply Hl. by constructor.
Qed.

Lemma wakeup_list ch l m :
  sched_ok m -> (forall i, i ∈ l -> (i < length (m_procs m))%nat) -> l <> [] ->
  each l (wakeup_body ch) m = Ok tt (settle (wake_list ch (h_proc (m_hart m)) l m)).
Proof.
  revert m. induction l as [|i l IH]; intros m Hs Hl Hne; [done|]. cbn [each].
  assert (Hi : (i < length (m_procs m))%nat) by (apply Hl; constructor).
  mcall (wakeup_body_eq ch m i Hs Hi). destruct l as [|j l]; [done|].
  rewrite IH; [|by auto with machine| |done].
  - rewrite wake_list_settle, settle_settle, h_proc_settle. done.
  - intros k Hk. rewrite procs_settle, length_upd_proc. apply Hl. by constructor.
Qed.

Lemma proc_table_bound m i :
  sched_ok m -> i ∈ proc_table -> (i < length (m_procs m))%nat.
Proof. intros Hs. unfold proc_table. rewrite elem_of_seq, (so_len m Hs). lia. Qed.

Lemma wakeup_procs ch m :
  sched_ok m ->
  exists procs,
    wakeup ch m = Ok tt (settle (set_m_procs procs m)) /\ length procs = length (m_procs m) /\
    forall p, (p < length (m_procs m))%nat ->
      default proc_zero (procs !! p) = wake ch (h_proc (m_hart m)) p (get_proc m p).
Proof.
  intros Hs. pose proof (wakeup_list ch proc_table m Hs (fun i => proc_table_bound m i Hs) ltac:(done)) as E.
  pose proof (fun q => wake_list_get ch (h_proc (m_hart m)) proc_table m q (NoDup_seq _ _)
                (fun i => proc_table_bound m i Hs)) as Hg.
  destruct (wake_list_rest ch (h_proc (m_hart m)) proc_table m) as [Hlen Hrest].
  generalize dependent (wake_list ch (h_proc (m_hart m)) proc_table m). intros m1 E Hg Hlen Hrest.
  exists (m_procs m1). rewrite <- Hrest. split; [exact E|]. split; [done|].
  intros p Hp. specialize (Hg p). unfold get_proc in Hg at 1. rewrite Hg, decide_True; [done|].
  unfold proc_table. rewrite elem_of_seq, <- (so_len m Hs). lia.
Qed.

(** [wakeup(chan)] makes runnable exactly the processes that sleep on [chan],
    other than the caller; every other process, every lock and the rest of the
    machine are as before. *)
Theorem wakeup_exact ch m :
  sched_ok m ->
  exists m',
    wakeup ch m = Ok tt m' /\
    m' = settle (set_m_procs (m_procs m') m) /\ length (m_procs m') = length (m_procs m) /\
    forall p, (p < length (m_procs m))%nat ->
      get_proc m' p = wake ch (h_proc (m_hart m)) p (get_proc m p).
Proof.
  intros Hs. destruct (wakeup_procs ch m Hs) as (procs & E & Hl & Hp). eauto.
Qed.

(** ** kill *)

Definition kill_one (x : proc) : proc :=
  let x := set_p_killed 1 x in
  if decide (p_state x = SLEEPING) then set_p_state RUNNABLE x else x.

(** [kill] of a process, by a hart that holds no process lock. *)
Definition all_free (m : machine) : Prop :=
  hart_ok m /\ forall p, (p < length (m_procs m))%nat -> unlocked (Lk_proc p) m.

Lemma all_free_settle m : all_free m -> all_free (settle m).
Proof. intros [H1 H2]. split; [by apply hart_ok_settle|done]. Qed.

(** The body of the loop over the table. *)
Definition kill_body (pid : Z) (p : nat) : M machine (option Z) :=
  acquire (Lk_proc p) ;;;
  pid' <- proc_get p p_pid ;;
  if pid' =? pid then
    proc_set p (set_p_killed 1) ;;;
    st <- proc_get p p_state ;;
    when (bool_decide (st = SLEEPING)) (proc_set p (set_p_state RUNNABLE)) ;;;
    release (Lk_proc p) ;;;
    ret (Some 0)
  else release (Lk_proc p) ;;; ret None.

Lemma kill_body_eq pid p m :
  all_free m -> (p < length (m_procs m))%nat ->
  kill_body pid p m =
  if p_pid (get_proc m p) =? pid then Ok (Some 0) (settle (upd_proc p kill_one m))
  else Ok None (settle m).
Proof.
  intros [Ho Hf] Hp. pose proof (Hf p Hp) as Hu. unfold kill_body.
  mcall (acquire_ok (Lk_proc p) m Hu). unfold proc_get, proc_set. mgo. rewrite get_proc_hold.
  destruct (_ =? pid); mgo.
  - rewrite upd_proc_hold. rewrite get_proc_hold, get_upd_proc_eq by done. cbn [p_state set_p_killed].
    destruct (decide (p_state (get_proc m p) = SLEEPING)) as [E|E].
    + rewrite bool_decide_true by done. unfold when. mgo. rewrite upd_proc_hold.
      erewrite bind_ok by (apply release_hold; auto with machine). unfold ret. f_equal.
      rewrite upd_proc_upd by done. unfold upd_proc, kill_one. cbn. by rewrite decide_True.
    + rewrite bool_decide_false by done. unfold when. mgo.
      erewrite bind_ok by (apply release_hold; auto with machine). unfold ret. f_equal.
      unfold upd_proc, kill_one. cbn. by rewrite decide_False.
  - erewrite bind_ok by (apply release_hold; auto with machine). done.
Qed.

Lemma kill_scan pid l m :
  all_free m -> (forall p, p ∈ l -> (p < length (m_procs m))%nat) -> l <> [] ->
  scan l (kill_body pid) m =
  match list_find (fun p => p_pid (get_proc m p) = pid) l with
  | Some (_, p) => Ok (Some 0) (settle (upd_proc p kill_one m))
  | None => Ok None (settle m)
  end.
Proof.
  revert m. induction l as [|p l IH]; intros m Hf Hl Hne; [done|]. cbn [scan].
  assert (Hp : (p < length (m_procs m))%nat) by (apply Hl; constructor).
  pose proof (kill_body_eq pid p m Hf Hp) as E. cbn [list_find].
  destruct (Z.eqb_spec (p_pid (get_proc m p)) pid) as [Ep|Ep].
  - erewrite bind_ok by exact E. by rewrite decide_True.
  - erewrite bind_ok by exact E. rewrite decide_False by done. destruct l as [|q l]; [done|].
    rewrite IH; [|by apply all_free_settle| |done].
    + change (fun p => p_pid (get_proc (settle m) p) = pid) with (fun p => p_pid (get_proc m p) = pid).
      rewrite settle_settle. destruct (list_find _ (q :: l)) as [[i r]|]; cbn [fmap option_fmap option_map prod_map]; [|done].
      by rewrite upd_proc_settle, settle_settle.
    + intros k Hk. apply Hl. by constructor.
Qed.

(** [kill(pid)] marks the first process of the table with that pid, wakes it if
    it sleeps, and returns 0; no other process changes.  When no process has the
    pid it returns -1 and changes nothing. *)
Theorem kill_correct pid m :
  all_free m -> length (m_procs m) = Z.to_nat NPROC ->
  (exists p, (p < length (m_procs m))%nat /\ p_pid (get_proc m p) = pid /\
     (forall q, (q < p)%nat -> p_pid (get_proc m q) <> pid) /\
     kill pid m = Ok 0 (settle (upd_proc p kill_one m))) \/
  ((forall q, (q < length (m_procs m))%nat -> p_pid (get_proc m q) <> pid) /\
     kill pid m = Ok (-1) (settle m)).
Proof.
  intros Hf Hn. assert (Hb : forall p, p ∈ proc_table -> (p < length (m_procs m))%nat).
  { intros p. unfold proc_table. rewrite elem_of_seq, Hn. lia. }
  pose proof (kill_scan pid proc_table m Hf Hb ltac:(done)) as E.
  unfold kill. fold (kill_body pid).
  destruct (list_find (fun p => p_pid (get_proc m p) = pid) proc_table) as [[i p]|] eqn:Ef.
  - left. apply list_find_Some in Ef as (Hi & Hp & Hmin).
    unfold proc_table in Hi. apply lookup_seq in Hi as [-> Hi]. cbn in *.
    exists i. split; [lia|]. split; [done|]. split.
    + intros q Hq. apply (Hmin q q); [|done]. unfold proc_table. apply lookup_seq. lia.
    + erewrite bind_ok by exact E. done.
  - right. split.
    + intros q Hq Hpid. apply list_find_None in Ef. rewrite Forall_forall in Ef.
      apply (Ef q); [|done]. unfold proc_table. rewrite elem_of_seq. lia.
    + erewrite bind_ok by exact E. done.
Qed.

(** ** The switch to the scheduler *)

(** [sched] switches only when the hart holds the process's lock and no other,
    interrupts are off and the process is no longer marked running; otherwise it
    panics, and it never returns without having switched. *)
Theorem sched_guard m :
  hart_ok m ->
  match sched m with
  | Ok _ _ => False
  | Hang => False
  | Panic _ => True
  | Swtch m' _ =>
      m' = settle m /\ h_noff (m_hart m) = 1 /\ sie (m_hart m) = false /\
      exists p, h_proc (m_hart m) = Some p /\ p_state (get_proc m p) <> RUNNING /\
        locked (get_lock m (Lk_proc p)) <> 0 /\
        lk_cpu (get_lock m (Lk_proc p)) = Some (h_tp (m_hart m))
  end.
Proof.
  intros H. unfold sched, curproc.
  destruct (h_proc (m_hart m)) as [p|] eqn:Ep.
  - erewrite bind_ok; [|mcall (myproc_eq m H); rewrite Ep; reflexivity].
    unfold holding, proc_get, intr_get. mgo.
    change (get_lock (settle m)) with (get_lock m). change (get_proc (settle m)) with (get_proc m).
    assert (Htp : h_tp (m_hart (settle m)) = h_tp (m_hart m))
      by (unfold settle, with_hart, cpu_settle; cbn; by destruct (_ =? 0)).
    assert (Hn : h_noff (m_hart (settle m)) = h_noff (m_hart m))
      by (unfold settle, with_hart, cpu_settle; cbn; by destruct (_ =? 0)).
    assert (Hsi : sie (m_hart (settle m)) = sie (m_hart m))
      by (unfold settle, with_hart, cpu_settle; cbn; by destruct (_ =? 0)).
    destruct (get_lock m (Lk_proc p)) as [lo na cp] eqn:El. cbn [locked lk_cpu].
    rewrite Htp.
    destruct (Z.eqb_spec lo 0) as [?|El0]; cbn [negb andb]; [done|].
    destruct cp as [c|]; cbn; [|done].
    destruct (Z.eqb_spec c (h_tp (m_hart m))) as [->|]; cbn [negb]; [|done]. mgo. rewrite Hn.
    destruct (Z.eqb_spec (h_noff (m_hart m)) 1) as [E1|]; cbn [negb]; [|done]. mgo.
    change (get_proc (settle m)) with (get_proc m).
    destruct (decide (p_state (get_proc m p) = RUNNING)) as [|Er]; [done|]. mgo. rewrite Hsi.
    destruct (sie (m_hart m)) eqn:Es; [done|]. mgo.
    erewrite bind_swtch by reflexivity. split; [done|]. split; [done|]. split; [done|].
    exists p. rewrite El. done.
  - erewrite bind_panic; [done|]. mcall (myproc_eq m H). by rewrite Ep.
Qed.

(** ** sleep *)

(** The interrupt state that [release] brings back with a saved [intena]. *)
Definition restore_intr (ie : Z) (h : hart) : hart :=
  mk_hart (h_tp h)
    (let off := Z.land (h_sstatus h) (Z.lnot SSTATUS_SIE) in
     if ie =? 0 then off else Z.lor off SSTATUS_SIE)
    0 ie (h_proc h).

Lemma release_intena l ie m :
  h_noff (m_hart m) = 0 -> unlocked l m ->
  release l (with_hart (set_h_intena ie) (hold l m)) = Ok tt (with_hart (restore_intr ie) m).
Proof.
  intros H0 [n Hn]. unfold release, holding. mgo.
  assert (Hg : get_lock (with_hart (set_h_intena ie) (hold l m)) l = mk_spinlock 1 n (Some (h_tp (m_hart m)))).
  { unfold with_hart, hold, get_lock, set_lock. cbn. rewrite lookup_insert_eq. cbn. by rewrite Hn. }
  rewrite Hg. cbn [locked lk_cpu].
  replace (h_tp (m_hart (with_hart (set_h_intena ie) (hold l m)))) with (h_tp (m_hart m)) by done.
  cbn. rewrite Z.eqb_refl. cbn [negb]. mgo. rewrite Hg, ?get_lock_set, ?set_lock_set. cbn.
  destruct m as [[tp ss noff ine p] lk me fl pr ip np ti]. cbn in *. subst noff.
  unfold pop_off, intr_get, hold, set_lock, with_hart, get_lock. mgo. cbn.
  pose proof (sstatus_clear_testbit ss) as Hs.
  pose proof (sie_testbit (mk_hart tp (Z.land ss (Z.lnot SSTATUS_SIE)) 1 ie p)) as Hs'. cbn in Hs'.
  rewrite Hs in Hs'. cbn in Hs'. change (cpu_push _) with (mk_hart tp (Z.land ss (Z.lnot SSTATUS_SIE)) 1 (if sie (mk_hart tp ss 0 ine p) then 1 else 0) p).
  unfold set_h_intena. cbn. rewrite Hs'. mgo. cbn.
  rewrite insert_insert_eq. rewrite (insert_id lk l) by done.
  unfold when, restore_intr, ret, intr_on, bind, reads, modify, with_hart, set_m_hart, set_m_locks. cbn.
  by destruct (ie =? 0).
Qed.

(** What a sleeping process is marked with. *)
Definition asleep (ch : chan) (x : proc) : proc := set_p_state SLEEPING (set_p_chan (Some ch) x).

(** The hart runs process [p], holds no lock, and the two locks are free. *)
Record can_sleep (p : nat) (lk : lockid) (m : machine) : Prop := {
  cs_depth : h_noff (m_hart m) = 0;
  cs_proc : h_proc (m_hart m) = Some p;
  cs_bound : (p < length (m_procs m))%nat;
  cs_ne : lk <> Lk_proc p;
  cs_lk : unlocked lk m;
  cs_plk : unlocked (Lk_proc p) m
}.

Lemma can_sleep_ok p lk m : can_sleep p lk m -> hart_ok m.
Proof. intros [H]. split; rewrite H; lia. Qed.

Lemma sched_switch p m :
  h_noff (m_hart m) = 0 -> h_proc (m_hart m) = Some p -> p_state (get_proc m p) <> RUNNING ->
  sched (hold (Lk_proc p) m) =
  Swtch (hold (Lk_proc p) m)
        (fun m' => Ok tt (with_hart (set_h_intena (if sie (m_hart m) then 1 else 0)) m')).
Proof.
  intros H0 Hp Hst. assert (Hok : hart_ok m) by (split; rewrite H0; lia).
  unfold sched. mcall (curproc_eq (hold (Lk_proc p) m) p).
  rewrite settle_hold by (rewrite H0; lia). unfold holding, proc_get, intr_get. mgo.
  unfold hold at 1 2 3. rewrite get_lock_set. cbn. rewrite Z.eqb_refl. cbn [negb]. mgo. cbn.
  rewrite H0. change (negb (0 + 1 =? 1)) with false. cbn iota. mgo. rewrite get_proc_hold, decide_False by done. mgo.
  cbn. rewrite sie_cpu_push. mgo. erewrite bind_swtch by reflexivity. cbn. by rewrite H0.
Qed.

Lemma sleep_spec ch p lk m :
  can_sleep p lk m ->
  exists resume,
    sleep ch lk (hold lk m) = Swtch (hold (Lk_proc p) (upd_proc p (asleep ch) m)) resume /\
    forall m', can_sleep p lk m' ->
      resume (hold (Lk_proc p) m') =
      Ok tt (hold lk (upd_proc p (set_p_chan None)
                (with_hart (restore_intr (if sie (m_hart m) then 1 else 0)) m'))).
Proof.
  intros Hc. pose proof (can_sleep_ok _ _ _ Hc) as Hok. destruct Hc as [H0 Hp Hb Hne Hlk Hplk].
  eexists. split.
  - unfold sleep. mcall (curproc_eq (hold lk m) p). rewrite settle_hold by lia.
    mcall (acquire_ok (Lk_proc p) (hold lk m)). mcall (release_inner lk (Lk_proc p) m).
    unfold proc_set. mgo. rewrite !upd_proc_hold, upd_proc_upd by done.
    erewrite bind_swtch; [reflexivity|]. apply sched_switch; [done|done|].
    rewrite get_upd_proc_eq by done. done.
  - intros m' [H0' Hp' Hb' _ Hlk' Hplk']. cbn [res_bind]. mgo.
    change (upd_proc p ?f (with_hart ?g (hold ?l m'))) with (with_hart g (hold l (upd_proc p f m'))).
    erewrite bind_ok by (apply release_intena; [done|by apply unlocked_upd_proc]).
    change (with_hart (restore_intr ?ie) (upd_proc p ?f m')) with (upd_proc p f (with_hart (restore_intr ie) m')).
    by apply acquire_ok.
Qed.

(** C22. [sleep(chan, lk)] gives up the CPU with [lk] free, the process marked as
    sleeping on [chan] and only its own lock held, so that no wakeup can come
    between the release of [lk] and the mark.  When the scheduler resumes it,
    with the process lock held, it returns with [lk] held again, the channel
    cleared and the interrupt state the caller had. *)
Theorem sleep_correct ch p lk m :
  can_sleep p lk m ->
  exists resume,
    sleep ch lk (hold lk m) = Swtch (hold (Lk_proc p) (upd_proc p (asleep ch) m)) resume /\
    forall m', can_sleep p lk m' ->
      resume (hold (Lk_proc p) m') =
      Ok tt (hold lk (upd_proc p (set_p_chan None)
                (with_hart (restore_intr (if sie (m_hart m) then 1 else 0)) m'))).
Proof. apply sleep_spec. Qed.

(** ** A machine with two processes *)

(** Process 0 runs, process 1 sleeps on the tick counter, the others are unused. *)
Definition free_locks (ls : list lockid) : gmap lockid spinlock :=
  list_to_map (map (fun l => (l, mk_spinlock 0 "lock" None)) ls).

Lemma free_locks_unlocked ls l m : m_locks m = free_locks ls -> l ∈ ls -> unlocked l m.
Proof.
  intros E H. exists "lock"%string. rewrite E. apply elem_of_list_to_map_1'.
  - intros y Hy. apply list_elem_of_fmap in Hy as (l' & [= <- <-] & _). done.
  - apply list_elem_of_fmap. eauto.
Qed.

Lemma proc_lock_elem p ls : (p < 64)%nat -> Lk_proc p ∈ ls ++ map Lk_proc proc_table.
Proof.
  intros H. apply elem_of_app. right. apply list_elem_of_fmap.
  exists p. split; [done|]. apply elem_of_seq. change (Z.to_nat NPROC) with 64%nat. lia.
Qed.

Definition proc_locks : list lockid := [Lk_ticks] ++ map Lk_proc proc_table.
Definition two_procs : machine :=
  mk_machine (mk_hart 0 2 0 0 (Some 0%nat)) (free_locks proc_locks) ∅ 0
    (set_p_pid 1 (set_p_state RUNNING proc_zero) ::
     set_p_pid 2 (asleep Ch_ticks proc_zero) :: replicate 62 proc_zero)
    (Some 0%nat) 3 0.

Lemma two_procs_free p : (p < 64)%nat -> unlocked (Lk_proc p) two_procs.
Proof. intros H. eapply free_locks_unlocked; [reflexivity|]. by apply proc_lock_elem. Qed.

Lemma two_procs_sched : sched_ok two_procs.
Proof. split; [by split|reflexivity|]. intros p Hp _. by apply two_procs_free. Qed.

Lemma wakeup_exact_witness :
  exists m', wakeup (Some Ch_ticks) two_procs = Ok tt m' /\
             p_state (get_proc m' 1) = RUNNABLE /\ p_state (get_proc m' 0) = RUNNING.
Proof.
  destruct (wakeup_exact (Some Ch_ticks) two_procs two_procs_sched) as (m' & E & _ & _ & H).
  exists m'. split; [exact E|]. split.
  - rewrite (H 1%nat) by (cbn; lia). reflexivity.
  - rewrite (H 0%nat) by (cbn; lia). reflexivity.
Defined.

Lemma kill_correct_witness : exists m', kill 2 two_procs = Ok 0 m'.
Proof.
  destruct (kill_correct 2 two_procs) as [(p & _ & _ & _ & E)|[H _]].
  - split; [by split|]. intros p Hp. by apply two_procs_free.
  - reflexivity.
  - eexists. exact E.
  - exfalso. apply (H 1%nat); [cbn; lia|reflexivity].
Defined.

Lemma sched_guard_witness : sched two_procs = Panic "sched p->lock".
Proof.
  pose proof (sched_guard two_procs (so_hart _ two_procs_sched)) as H.
  destruct (sched two_procs) as [| msg | |] eqn:E; [done| |done|].
  - rewrite <- E. vm_compute. reflexivity.
  - destruct H as (_ & H & _). discriminate H.
Defined.

Lemma two_procs_can_sleep : can_sleep 0 Lk_ticks two_procs.
Proof.
  split; try reflexivity; try discriminate; [cbn; lia| |].
  - eapply free_locks_unlocked; [reflexivity|constructor].
  - apply two_procs_free. lia.
Qed.

Lemma sleep_correct_witness :
  exists resume,
    sleep Ch_ticks Lk_ticks (hold Lk_ticks two_procs)
      = Swtch (hold (Lk_proc 0) (upd_proc 0 (asleep Ch_ticks) two_procs)) resume.
Proof.
  destruct (sleep_correct Ch_ticks 0 Lk_ticks two_procs two_procs_can_sleep) as (resume & E & _).
  exists resume. exact E.
Defined.

(** ** Interleavings of sleep and wakeup

    One process waits for a condition with
    [acquire(lk); while(!cond) sleep(chan, lk); release(lk)], and any number of
    others run [acquire(lk); cond = 1; wakeup(chan); release(lk)].  The steps of the
    processes interleave in any order; the locks are those of spinlock.c, whose
    mutual exclusion is shown there.  The processes are different and use one channel, so
    the comparisons with [myproc()] and with [p->chan] in [wakeup] hold whenever the state
    is [SLEEPING], and the steps leave them out. *)
Module Handoff.

(** The sleeper: [S_test] holds [lk]; [S_locked] holds [lk] and, in [sleep], the
    process lock; from [S_released] on only the process lock, which the scheduler
    gives back once the process is [S_off]; [S_back] is resumed with it. *)
Inductive spc : Type :=
| S_start | S_test | S_sleep | S_locked | S_released | S_off | S_back | S_relock | S_done.

(** A waker: [W_set] has set the condition, [W_plock] is in [wakeup] with the
    process lock, [W_woke] has left it. *)
Inductive wpc : Type := W_start | W_lock | W_set | W_plock | W_woke | W_done.

Inductive owner : Type := Nobody | Sleeper | Waker (i : nat).

Record st := mk_st {
  cond : bool;
  state : procstate;
  lk : owner;
  plk : owner;
  s_pc : spc;
  w_pc : nat -> wpc
}.

Definition upd (f : nat -> wpc) (i : nat) (p : wpc) : nat -> wpc :=
  fun j => if decide (j = i) then p else f j.

Inductive step : st -> st -> Prop :=
| s_acquire c x p w : step (mk_st c x Nobody p S_start w) (mk_st c x Sleeper p S_test w)
| s_exit c x p w : c = true -> step (mk_st c x Sleeper p S_test w) (mk_st c x Nobody p S_done w)
| s_enter c x p w : c = false -> step (mk_st c x Sleeper p S_test w) (mk_st c x Sleeper p S_sleep w)
| s_plock c x l w : step (mk_st c x l Nobody S_sleep w) (mk_st c x l Sleeper S_locked w)
| s_release c x p w : step (mk_st c x Sleeper p S_locked w) (mk_st c x Nobody p S_released w)
| s_switch c x l w : step (mk_st c x l Sleeper S_released w) (mk_st c SLEEPING l Nobody S_off w)
| s_resume c l w : step (mk_st c RUNNABLE l Nobody S_off w) (mk_st c RUNNING l Sleeper S_back w)
| s_punlock c x l w : step (mk_st c x l Sleeper S_back w) (mk_st c x l Nobody S_relock w)
| s_reacquire c x p w : step (mk_st c x Nobody p S_relock w) (mk_st c x Sleeper p S_test w)
| w_acquire i c x p s w : w i = W_start ->
    step (mk_st c x Nobody p s w) (mk_st c x (Waker i) p s (upd w i W_lock))
| w_cond i c x l p s w : w i = W_lock ->
    step (mk_st c x l p s w) (mk_st true x l p s (upd w i W_set))
| w_plock i c x l s w : w i = W_set ->
    step (mk_st c x l Nobody s w) (mk_st c x l (Waker i) s (upd w i W_plock))
| w_wake i c x l p s w : w i = W_plock ->
    step (mk_st c x l p s w)
         (mk_st c (if decide (x = SLEEPING) then RUNNABLE else x) l Nobody s (upd w i W_woke))
| w_release i c x l p s w : w i = W_woke ->
    step (mk_st c x l p s w) (mk_st c x Nobody p s (upd w i W_done)).

Definition init : st := mk_st false RUNNING Nobody Nobody S_start (fun _ => W_start).

Inductive reachable : st -> Prop :=
| reach_init : reachable init
| reach_step s s' : reachable s -> step s s' -> reachable s'.

(** Who holds which lock, and the wakers that will still look at the sleeper. *)
Definition s_has_lk (p : spc) : bool := match p with S_test | S_sleep | S_locked => true | _ => false end.
Definition s_has_plk (p : spc) : bool := match p with S_locked | S_released | S_back => true | _ => false end.
Definition w_has_lk (p : wpc) : bool := match p with W_start | W_done => false | _ => true end.
Definition w_has_plk (p : wpc) : bool := match p with W_plock => true | _ => false end.
Definition pending (p : wpc) : bool := match p with W_set | W_plock => true | _ => false end.

(** The sleeper has found the condition false and has not been woken since. *)
Definition waiting (p : spc) (x : procstate) : bool :=
  match p with
  | S_sleep | S_locked | S_released => true
  | S_off => bool_decide (x = SLEEPING)
  | _ => false
  end.

Record inv (s : st) : Prop := {
  i_w_lk : forall i, w_has_lk (w_pc s i) = true -> lk s = Waker i;
  i_s_lk : s_has_lk (s_pc s) = true -> lk s = Sleeper;
  i_w_plk : forall i, w_has_plk (w_pc s i) = true -> plk s = Waker i;
  i_s_plk : s_has_plk (s_pc s) = true -> plk s = Sleeper;
  i_cond : cond s = true -> waiting (s_pc s) (state s) = true -> exists i, pending (w_pc s i) = true
}.

Lemma upd_eq w i p : upd w i p i = p.
Proof. unfold upd. by rewrite decide_True. Qed.
Lemma upd_ne w i j p : j <> i -> upd w i p j = w j.
Proof. intros H. unfold upd. by rewrite decide_False. Qed.

(** Case analysis on whether [j] is the waker that moves. *)
Ltac who i j := destruct (decide (j = i)) as [->|?]; [rewrite ?upd_eq in *|rewrite ?upd_ne in * by done].

(** A step of the owner [i] of a lock keeps the other wakers out. *)
Lemma owner_step (o o' : owner) (has : wpc -> bool) (w : nat -> wpc) i p :
  (forall j, has (w j) = true -> o = Waker j) ->
  (has p = true -> o' = Waker i) -> (forall j, j <> i -> o = Waker j -> o' = Waker j) ->
  forall j, has (upd w i p j) = true -> o' = Waker j.
Proof. intros H1 H2 H3 j Hj. who i j; auto. Qed.

(** A waker that is not pending before its step leaves the pending ones. *)
Lemma pending_upd w i p :
  pending (w i) = false \/ pending p = true ->
  (exists j, pending (w j) = true) -> exists j, pending (upd w i p j) = true.
Proof.
  intros Hp [j Hj]. destruct (decide (j = i)) as [->|Hne].
  - destruct Hp as [Hp|Hp]; [congruence|]. exists i. by rewrite upd_eq.
  - exists j. by rewrite upd_ne.
Qed.

Lemma inv_sleeper s s' : inv s -> step s s' -> w_pc s' = w_pc s -> inv s'.
Proof.
  intros [A B C D E] Hst Hw.
  destruct Hst; cbn in *;
    try (apply (f_equal (fun f => f i)) in Hw; rewrite upd_eq in Hw; congruence);
    split; cbn; intros; auto; try congruence;
    match goal with
    | H : w_has_lk _ = true |- _ => apply A in H; try rewrite B in H by done; congruence
    | H : w_has_plk _ = true |- _ => apply C in H; try rewrite D in H by done; congruence
    end.
Qed.

Lemma handoff_step s s' : inv s -> step s s' -> inv s'.
Proof.
  intros I Hst. pose proof I as [A B C D E].
  destruct Hst; try (eapply inv_sleeper; [exact I|econstructor; eassumption|reflexivity]); cbn in *.
  - split; cbn; [eapply owner_step; eauto; congruence|intros Hs; apply B in Hs; congruence| |done|].
    + eapply (owner_step p); [exact C|done|done].
    + intros Hc Hw. apply pending_upd; [left; by rewrite H|auto].
  - assert (Hl : l = Waker i) by (apply A; by rewrite H).
    split; cbn; [eapply owner_step; eauto|done| |done|].
    + eapply (owner_step p); [exact C|done|done].
    + intros _ _. exists i. by rewrite upd_eq.
  - assert (Hl : l = Waker i) by (apply A; by rewrite H).
    split; cbn; [eapply owner_step; eauto|done| |intros Hs; apply D in Hs; congruence|].
    + eapply (owner_step Nobody); [exact C|done|done].
    + intros Hc Hw. apply pending_upd; [by right|auto].
  - assert (Hl : l = Waker i) by (apply A; by rewrite H).
    assert (Hp : p = Waker i) by (apply C; by rewrite H).
    split; cbn; [eapply owner_step; eauto|done| |intros Hs; apply D in Hs; congruence|].
    + eapply (owner_step p); [exact C|done|congruence].
    + intros Hc Hw. exfalso. destruct s; cbn in *; try discriminate.
      * rewrite B in Hl by done. discriminate.
      * rewrite D in Hp by done. discriminate.
      * rewrite D in Hp by done. discriminate.
      * by destruct (decide (x = SLEEPING)); case_bool_decide.
  - assert (Hl : l = Waker i) by (apply A; by rewrite H).
    split; cbn; [|intros Hs; apply B in Hs; congruence| |done|].
    + eapply (owner_step l); [exact A|done|congruence].
    + eapply (owner_step p); [exact C|done|done].
    + intros Hc Hw. apply pending_upd; [left; by rewrite H|auto].
Qed.

Lemma inv_reachable s : reachable s -> inv s.
Proof. induction 1; [by split|]. eapply handoff_step; eauto. Qed.

(** C23. No wakeup is lost: in every interleaving, once the condition holds and every
    waker that set it has been through [wakeup], the process is not left asleep,
    nor about to sleep. *)
Theorem no_lost_wakeup s :
  reachable s -> cond s = true -> (forall i, pending (w_pc s i) = false) ->
  waiting (s_pc s) (state s) = false.
Proof.
  intros Hr Hc Hp. destruct (waiting (s_pc s) (state s)) eqn:E; [|done].
  destruct (i_cond s (inv_reachable s Hr) Hc E) as [i Hi]. by rewrite Hp in Hi.
Qed.

(** The sleeper goes to sleep before the waker takes [lk]; the waker finds it. *)
Definition woken : st :=
  mk_st true RUNNABLE (Waker 0) Nobody S_off (upd (upd (upd (upd (fun _ => W_start) 0 W_lock) 0 W_set) 0 W_plock) 0 W_woke).

Lemma woken_reachable : reachable woken.
Proof.
  eapply reach_step; [|unfold woken; apply (w_wake 0 true SLEEPING (Waker 0) (Waker 0)); reflexivity].
  eapply reach_step; [|apply (w_plock 0); reflexivity].
  eapply reach_step; [|apply (w_cond 0 false); reflexivity].
  eapply reach_step; [|apply (w_acquire 0); reflexivity].
  eapply reach_step; [|apply (s_switch false RUNNING)].
  eapply reach_step; [|apply s_release].
  eapply reach_step; [|apply s_plock].
  eapply reach_step; [|by apply s_enter].
  eapply reach_step; [|apply s_acquire]. apply reach_init.
Qed.

Lemma no_lost_wakeup_witness : waiting (s_pc woken) (state woken) = false.
Proof.
  apply (no_lost_wakeup woken woken_reachable); [reflexivity|].
  intros i. unfold woken, w_pc, upd. by destruct (decide (i = 0%nat)).
Defined.
End Handoff.
