(* ===== verification/Sleeplock.v ===== *)
(** * kernel/sleeplock.c

    A sleep lock is part of a buffer or of an inode; [slens S] says where in the
    state [S] it is, which spinlock protects it and on which channel its waiters
    sleep. *)
From stdpp Require Import gmap list strings.
From S2P Require Import Prelude Kstring Abi Machine Spinlock Kalloc Vm Proc.

Record sleeplock := mk_sleeplock {
  sl_locked : Z;
  sl_name : string;
  sl_pid : Z
}.
Definition set_sl_locked (v : Z) (r : sleeplock) : sleeplock := mk_sleeplock v (sl_name r) (sl_pid r).
Definition set_sl_name (v : string) (r : sleeplock) : sleeplock := mk_sleeplock (sl_locked r) v (sl_pid r).
Definition set_sl_pid (v : Z) (r : sleeplock) : sleeplock := mk_sleeplock (sl_locked r) (sl_name r) v.

Record slens (S : Type) := mk_slens {
  sl_get : S -> sleeplock;
  sl_set : sleeplock -> S -> S;
  sl_lk : lockid;
  sl_chan : chan
}.
Arguments mk_slens {S} _ _ _ _.
Arguments sl_get {S} _ _.
Arguments sl_set {S} _ _ _.
Arguments sl_lk {S} _.
Arguments sl_chan {S} _.

Section Sleeplock.
Context {S : Type} `{Sub machine S}.

Definition sl_upd (l : slens S) (f : sleeplock -> sleeplock) : M S unit :=
  modify (fun s => sl_set l (f (sl_get l s)) s).

Definition initsleeplock (l : slens S) (name : string) : M S unit :=
  lift (initlock (sl_lk l) "sleep lock") ;;;
  sl_upd l (set_sl_name name) ;;;
  sl_upd l (set_sl_locked 0) ;;;
  sl_upd l (set_sl_pid 0).

(** [while (lk->locked)]: [fuel] bounds how often the lock is found taken. *)
Fixpoint acquiresleep_loop (fuel : nat) (l : slens S) : M S unit :=
  v <- reads (fun s => sl_locked (sl_get l s)) ;;
  if v =? 0 then ret tt else
  match fuel with
  | O => hang
  | Datatypes.S fuel => lift (sleep (sl_chan l) (sl_lk l)) ;;; acquiresleep_loop fuel l
  end.

Definition acquiresleep (fuel : nat) (l : slens S) : M S unit :=
  lift (acquire (sl_lk l)) ;;;
  acquiresleep_loop fuel l ;;;
  sl_upd l (set_sl_locked 1) ;;;
  p <- lift curproc ;;
  pid <- lift (proc_get p p_pid) ;;
  sl_upd l (set_sl_pid pid) ;;;
  lift (release (sl_lk l)).

Definition releasesleep (l : slens S) : M S unit :=
  lift (acquire (sl_lk l)) ;;;
  sl_upd l (set_sl_locked 0) ;;;
  sl_upd l (set_sl_pid 0) ;;;
  lift (wakeup (Some (sl_chan l))) ;;;
  lift (release (sl_lk l)).

Definition holdingsleep (l : slens S) : M S bool :=
  lift (acquire (sl_lk l)) ;;;
  v <- reads (sl_get l) ;;
  r <- (if sl_locked v =? 0 then ret false
        else p <- lift curproc ;; pid <- lift (proc_get p p_pid) ;; ret (sl_pid v =? pid)) ;;
  lift (release (sl_lk l)) ;;;
  ret r.
End Sleeplock.
