(* ===== verification/Virtio.v ===== *)
(** * kernel/virtio_disk.c, kernel/virtio.h and kernel/buf.h

    The buffers and the driver of the virtio disk.  The descriptors and the two
    rings are the structures the driver shares with the device; an address in a
    descriptor is one of the three things the driver points it at.  The device
    itself is not part of the kernel: its registers are a map, and the writes it
    has carried out are the list [b_writes]. *)
From stdpp Require Import gmap list strings.
From S2P Require Import Prelude Kstring Abi Machine Spinlock Kalloc Vm Proc Sleeplock.

(** struct buf; [prev] and [next] are indices of [b_bufs]. *)
Record buf := mk_buf {
  buf_valid : Z;
  buf_disk : Z;
  buf_dev : Z;
  buf_blockno : Z;
  buf_lock : sleeplock;
  buf_refcnt : Z;
  buf_prev : nat;
  buf_next : nat;
  buf_data : list Z
}.
Definition set_buf_valid (v : Z) (r : buf) : buf :=
  mk_buf v (buf_disk r) (buf_dev r) (buf_blockno r) (buf_lock r) (buf_refcnt r) (buf_prev r) (buf_next r) (buf_data r).
Definition set_buf_disk (v : Z) (r : buf) : buf :=
  mk_buf (buf_valid r) v (buf_dev r) (buf_blockno r) (buf_lock r) (buf_refcnt r) (buf_prev r) (buf_next r) (buf_data r).
Definition set_buf_dev (v : Z) (r : buf) : buf :=
  mk_buf (buf_valid r) (buf_disk r) v (buf_blockno r) (buf_lock r) (buf_refcnt r) (buf_prev r) (buf_next r) (buf_data r).
Definition set_buf_blockno (v : Z) (r : buf) : buf :=
  mk_buf (buf_valid r) (buf_disk r) (buf_dev r) v (buf_lock r) (buf_refcnt r) (buf_prev r) (buf_next r) (buf_data r).
Definition set_buf_lock (v : sleeplock) (r : buf) : buf :=
  mk_buf (buf_valid r) (buf_disk r) (buf_dev r) (buf_blockno r) v (buf_refcnt r) (buf_prev r) (buf_next r) (buf_data r).
Definition set_buf_refcnt (v : Z) (r : buf) : buf :=
  mk_buf (buf_valid r) (buf_disk r) (buf_dev r) (buf_blockno r) (buf_lock r) v (buf_prev r) (buf_next r) (buf_data r).
Definition set_buf_prev (v : nat) (r : buf) : buf :=
  mk_buf (buf_valid r) (buf_disk r) (buf_dev r) (buf_blockno r) (buf_lock r) (buf_refcnt r) v (buf_next r) (buf_data r).
Definition set_buf_next (v : nat) (r : buf) : buf :=
  mk_buf (buf_valid r) (buf_disk r) (buf_dev r) (buf_blockno r) (buf_lock r) (buf_refcnt r) (buf_prev r) v (buf_data r).
Definition set_buf_data (v : list Z) (r : buf) : buf :=
  mk_buf (buf_valid r) (buf_disk r) (buf_dev r) (buf_blockno r) (buf_lock r) (buf_refcnt r) (buf_prev r) (buf_next r) v.

(** ** virtio.h *)

Definition VIRTIO_MMIO_MAGIC_VALUE : Z := 0x000.
Definition VIRTIO_MMIO_VERSION : Z := 0x004.
Definition VIRTIO_MMIO_DEVICE_ID : Z := 0x008.
Definition VIRTIO_MMIO_VENDOR_ID : Z := 0x00c.
Definition VIRTIO_MMIO_DEVICE_FEATURES : Z := 0x010.
Definition VIRTIO_MMIO_DRIVER_FEATURES : Z := 0x020.
Definition VIRTIO_MMIO_GUEST_PAGE_SIZE : Z := 0x028.
Definition VIRTIO_MMIO_QUEUE_SEL : Z := 0x030.
Definition VIRTIO_MMIO_QUEUE_NUM_MAX : Z := 0x034.
Definition VIRTIO_MMIO_QUEUE_NUM : Z := 0x038.
Definition VIRTIO_MMIO_QUEUE_PFN : Z := 0x040.
Definition VIRTIO_MMIO_QUEUE_NOTIFY : Z := 0x050.
Definition VIRTIO_MMIO_INTERRUPT_STATUS : Z := 0x060.
Definition VIRTIO_MMIO_INTERRUPT_ACK : Z := 0x064.
Definition VIRTIO_MMIO_STATUS : Z := 0x070.

Definition VIRTIO_CONFIG_S_ACKNOWLEDGE : Z := 1.
Definition VIRTIO_CONFIG_S_DRIVER : Z := 2.
Definition VIRTIO_CONFIG_S_DRIVER_OK : Z := 4.
Definition VIRTIO_CONFIG_S_FEATURES_OK : Z := 8.

Definition VIRTIO_BLK_F_RO : Z := 5.
Definition VIRTIO_BLK_F_SCSI : Z := 7.
Definition VIRTIO_BLK_F_CONFIG_WCE : Z := 11.
Definition VIRTIO_BLK_F_MQ : Z := 12.
Definition VIRTIO_F_ANY_LAYOUT : Z := 27.
Definition VIRTIO_RING_F_INDIRECT_DESC : Z := 28.
Definition VIRTIO_RING_F_EVENT_IDX : Z := 29.

Definition NUM : nat := 8.
Definition VRING_DESC_F_NEXT : Z := 1.
Definition VRING_DESC_F_WRITE : Z := 2.
Definition VIRTIO_BLK_T_IN : Z := 0.
Definition VIRTIO_BLK_T_OUT : Z := 1.

(** What a descriptor points at: a command header, the data of a buffer or a
    status byte. *)
Inductive dma : Type := Dma_null | Dma_op (i : nat) | Dma_data (b : nat) | Dma_status (i : nat).

(** struct virtq_desc *)
Record virtq_desc := mk_desc { vd_addr : dma; vd_len : Z; vd_flags : Z; vd_next : nat }.
(** struct virtio_blk_req *)
Record virtio_blk_req := mk_req { req_type : Z; req_reserved : Z; req_sector : Z }.

(** struct disk; [avail] is its index and ring, [used] likewise (the ids). *)
Record vdisk := mk_vdisk {
  d_desc : list virtq_desc;
  d_avail_idx : Z;
  d_avail_ring : list nat;
  d_used_idx_dev : Z;
  d_used_ring : list nat;
  d_free : list bool;
  d_used_idx : Z;
  d_info : list (option nat * Z);
  d_ops : list virtio_blk_req
}.
Definition set_d_desc (v : list virtq_desc) (r : vdisk) : vdisk :=
  mk_vdisk v (d_avail_idx r) (d_avail_ring r) (d_used_idx_dev r) (d_used_ring r) (d_free r) (d_used_idx r) (d_info r) (d_ops r).
Definition set_d_avail_idx (v : Z) (r : vdisk) : vdisk :=
  mk_vdisk (d_desc r) v (d_avail_ring r) (d_used_idx_dev r) (d_used_ring r) (d_free r) (d_used_idx r) (d_info r) (d_ops r).
Definition set_d_avail_ring (v : list nat) (r : vdisk) : vdisk :=
  mk_vdisk (d_desc r) (d_avail_idx r) v (d_used_idx_dev r) (d_used_ring r) (d_free r) (d_used_idx r) (d_info r) (d_ops r).
Definition set_d_free (v : list bool) (r : vdisk) : vdisk :=
  mk_vdisk (d_desc r) (d_avail_idx r) (d_avail_ring r) (d_used_idx_dev r) (d_used_ring r) v (d_used_idx r) (d_info r) (d_ops r).
Definition set_d_used_idx (v : Z) (r : vdisk) : vdisk :=
  mk_vdisk (d_desc r) (d_avail_idx r) (d_avail_ring r) (d_used_idx_dev r) (d_used_ring r) (d_free r) v (d_info r) (d_ops r).
Definition set_d_info (v : list (option nat * Z)) (r : vdisk) : vdisk :=
  mk_vdisk (d_desc r) (d_avail_idx r) (d_avail_ring r) (d_used_idx_dev r) (d_used_ring r) (d_free r) (d_used_idx r) v (d_ops r).
Definition set_d_ops (v : list virtio_blk_req) (r : vdisk) : vdisk :=
  mk_vdisk (d_desc r) (d_avail_idx r) (d_avail_ring r) (d_used_idx_dev r) (d_used_ring r) (d_free r) (d_used_idx r) (d_info r) v.

(** The state of the block layer. *)
Record bst := mk_bst {
  b_m : machine;
  b_bufs : list buf;
  b_vd : vdisk;
  b_regs : gmap Z Z;
  b_writes : list (Z * list Z)
}.
Definition set_b_m (v : machine) (r : bst) : bst := mk_bst v (b_bufs r) (b_vd r) (b_regs r) (b_writes r).
Definition set_b_bufs (v : list buf) (r : bst) : bst := mk_bst (b_m r) v (b_vd r) (b_regs r) (b_writes r).
Definition set_b_vd (v : vdisk) (r : bst) : bst := mk_bst (b_m r) (b_bufs r) v (b_regs r) (b_writes r).
Definition set_b_regs (v : gmap Z Z) (r : bst) : bst := mk_bst (b_m r) (b_bufs r) (b_vd r) v (b_writes r).

#[global] Instance sub_machine_bst : Sub machine bst.
Proof. refine {| sub_get := b_m; sub_set := set_b_m |}; [done|by intros []|done]. Defined.

(** [bcache.buf] and, as the last element, [bcache.head]. *)
Definition buf_zero : buf := mk_buf 0 0 0 0 (mk_sleeplock 0 "" 0) 0 0 0 (replicate 1024 0).
Definition get_buf (s : bst) (i : nat) : buf := default buf_zero (b_bufs s !! i).
Definition upd_buf (i : nat) (f : buf -> buf) (s : bst) : bst :=
  set_b_bufs (<[i := f (get_buf s i)]> (b_bufs s)) s.
Definition buf_get {A} (i : nat) (f : buf -> A) : M bst A := reads (fun s => f (get_buf s i)).
Definition buf_set (i : nat) (f : buf -> buf) : M bst unit := modify (upd_buf i f).

(** The sleep lock of buffer [i]. *)
Definition buf_sl (i : nat) : slens bst :=
  mk_slens (fun s => buf_lock (get_buf s i)) (fun v => upd_buf i (set_buf_lock v))
    (Lk_buf i) (Ch_sleep_buf i).

Definition vd_upd (f : vdisk -> vdisk) : M bst unit := modify (fun s => set_b_vd (f (b_vd s)) s).
Definition vd_get {A} (f : vdisk -> A) : M bst A := reads (fun s => f (b_vd s)).

(** [*R(r)] *)
Definition reg_read (r : Z) : M bst Z := reads (fun s => default 0 (b_regs s !! r)).
Definition reg_write (r v : Z) : M bst unit := modify (fun s => set_b_regs (<[r := u32 v]> (b_regs s)) s).

(** ** virtio_disk.c *)

Definition clear_bit (features bit : Z) : Z := Z.land features (Z.lnot (Z.shiftl 1 bit)).

Definition desc_zero : virtq_desc := mk_desc Dma_null 0 0 0.

(** [pages] is the address of the memory shared with the device. *)
Definition virtio_disk_init (pages : Z) : M bst unit :=
  lift (initlock Lk_vdisk "virtio_disk") ;;;
  magic <- reg_read VIRTIO_MMIO_MAGIC_VALUE ;;
  version <- reg_read VIRTIO_MMIO_VERSION ;;
  device <- reg_read VIRTIO_MMIO_DEVICE_ID ;;
  vendor <- reg_read VIRTIO_MMIO_VENDOR_ID ;;
  if negb (magic =? 0x74726976) || negb (version =? 1) || negb (device =? 2) || negb (vendor =? 0x554d4551)
  then panic "could not find virtio disk" else
  let status := Z.lor 0 VIRTIO_CONFIG_S_ACKNOWLEDGE in
  reg_write VIRTIO_MMIO_STATUS status ;;;
  let status := Z.lor status VIRTIO_CONFIG_S_DRIVER in
  reg_write VIRTIO_MMIO_STATUS status ;;;
  features <- reg_read VIRTIO_MMIO_DEVICE_FEATURES ;;
  let features := clear_bit features VIRTIO_BLK_F_RO in
  let features := clear_bit features VIRTIO_BLK_F_SCSI in
  let features := clear_bit features VIRTIO_BLK_F_CONFIG_WCE in
  let features := clear_bit features VIRTIO_BLK_F_MQ in
  let features := clear_bit features VIRTIO_F_ANY_LAYOUT in
  let features := clear_bit features VIRTIO_RING_F_EVENT_IDX in
  let features := clear_bit features VIRTIO_RING_F_INDIRECT_DESC in
  reg_write VIRTIO_MMIO_DRIVER_FEATURES features ;;;
  let status := Z.lor status VIRTIO_CONFIG_S_FEATURES_OK in
  reg_write VIRTIO_MMIO_STATUS status ;;;
  let status := Z.lor status VIRTIO_CONFIG_S_DRIVER_OK in
  reg_write VIRTIO_MMIO_STATUS status ;;;
  reg_write VIRTIO_MMIO_GUEST_PAGE_SIZE PGSIZE ;;;
  reg_write VIRTIO_MMIO_QUEUE_SEL 0 ;;;
  max <- reg_read VIRTIO_MMIO_QUEUE_NUM_MAX ;;
  if max =? 0 then panic "virtio disk has no queue 0" else
  if max <? Z.of_nat NUM then panic "virtio disk max queue too short" else
  reg_write VIRTIO_MMIO_QUEUE_NUM (Z.of_nat NUM) ;;;
  vd_upd (fun d => mk_vdisk (replicate NUM desc_zero) 0 (replicate NUM 0%nat) 0 (replicate NUM 0%nat)
                     (d_free d) (d_used_idx d) (d_info d) (d_ops d)) ;;;
  reg_write VIRTIO_MMIO_QUEUE_PFN (Z.shiftr pages PGSHIFT) ;;;
  each (seq 0 NUM) (fun i => vd_upd (fun d => set_d_free (<[i := true]> (d_free d)) d)).

Definition is_free (d : vdisk) (i : nat) : bool := default false (d_free d !! i).
Definition get_desc (d : vdisk) (i : nat) : virtq_desc := default desc_zero (d_desc d !! i).
Definition set_desc (i : nat) (v : virtq_desc) (d : vdisk) : vdisk := set_d_desc (<[i := v]> (d_desc d)) d.

Definition alloc_desc : M bst (option nat) :=
  scan (seq 0 NUM) (fun i =>
    f <- vd_get (fun d => is_free d i) ;;
    if f : bool then vd_upd (fun d => set_d_free (<[i := false]> (d_free d)) d) ;;; ret (Some i)
    else ret None).

Definition free_desc (i : nat) : M bst unit :=
  if Nat.leb NUM i then panic "free_desc 1" else
  f <- vd_get (fun d => is_free d i) ;;
  if f : bool then panic "free_desc 2" else
  vd_upd (set_desc i desc_zero) ;;;
  vd_upd (fun d => set_d_free (<[i := true]> (d_free d)) d) ;;;
  lift (wakeup (Some Ch_disk_free)).

(** A chain has at most [NUM] descriptors. *)
Fixpoint free_chain (fuel : nat) (i : nat) : M bst unit :=
  match fuel with
  | O => hang
  | S fuel =>
      d <- vd_get (fun d => get_desc d i) ;;
      free_desc i ;;;
      if Z.land (vd_flags d) VRING_DESC_F_NEXT =? 0 then ret tt else free_chain fuel (vd_next d)
  end.

Definition alloc3_desc : M bst (option (nat * nat * nat)) :=
  i0 <- alloc_desc ;;
  match i0 with
  | None => ret None
  | Some i0 =>
      i1 <- alloc_desc ;;
      match i1 with
      | None => free_desc i0 ;;; ret None
      | Some i1 =>
          i2 <- alloc_desc ;;
          match i2 with
          | None => free_desc i0 ;;; free_desc i1 ;;; ret None
          | Some i2 => ret (Some (i0, i1, i2))
          end
      end
  end.

Fixpoint alloc3_loop (fuel : nat) : M bst (nat * nat * nat) :=
  match fuel with
  | O => hang
  | S fuel =>
      r <- alloc3_desc ;;
      match r with
      | Some idx => ret idx
      | None => lift (sleep Ch_disk_free Lk_vdisk) ;;; alloc3_loop fuel
      end
  end.

(** [while(b->disk == 1) sleep(b, &disk.vdisk_lock)] *)
Fixpoint wait_disk (fuel : nat) (b : nat) : M bst unit :=
  v <- buf_get b buf_disk ;;
  if negb (v =? 1) then ret tt else
  match fuel with
  | O => hang
  | S fuel => lift (sleep (Ch_disk_buf b) Lk_vdisk) ;;; wait_disk fuel b
  end.

(** [info[i].b = b] and [info[i].status = v]. *)
Definition set_info_b (i : nat) (b : option nat) (d : vdisk) : vdisk :=
  set_d_info (alter (fun x => (b, x.2)) i (d_info d)) d.
Definition set_info_status (i : nat) (v : Z) (d : vdisk) : vdisk :=
  set_d_info (alter (fun x => (x.1, v)) i (d_info d)) d.

(** The request as it is laid out for the device. *)
Definition virtio_format (b : nat) (write : bool) (sector : Z) (i0 i1 i2 : nat) : M bst unit :=
  vd_upd (fun d => set_d_ops (<[i0 := mk_req (if write then VIRTIO_BLK_T_OUT else VIRTIO_BLK_T_IN) 0 sector]>
                                (d_ops d)) d) ;;;
  vd_upd (set_desc i0 (mk_desc (Dma_op i0) 16 VRING_DESC_F_NEXT i1)) ;;;
  vd_upd (set_desc i1 (mk_desc (Dma_data b) BSIZE
            (Z.lor (if write then 0 else VRING_DESC_F_WRITE) VRING_DESC_F_NEXT) i2)) ;;;
  vd_upd (set_info_status i0 0xff) ;;;
  vd_upd (set_desc i2 (mk_desc (Dma_status i0) 1 VRING_DESC_F_WRITE 0)) ;;;
  buf_set b (set_buf_disk 1) ;;;
  vd_upd (set_info_b i0 (Some b)) ;;;
  vd_upd (fun d => set_d_avail_ring (<[Z.to_nat (d_avail_idx d mod Z.of_nat NUM) := i0]> (d_avail_ring d)) d) ;;;
  vd_upd (fun d => set_d_avail_idx (u16 (d_avail_idx d + 1)) d) ;;;
  reg_write VIRTIO_MMIO_QUEUE_NOTIFY 0.

Definition virtio_disk_rw (fuel : nat) (b : nat) (write : bool) : M bst unit :=
  blockno <- buf_get b buf_blockno ;;
  let sector := u32 (blockno * (BSIZE / 512)) in
  lift (acquire Lk_vdisk) ;;;
  idx <- alloc3_loop fuel ;;
  let '(i0, i1, i2) := idx in
  virtio_format b write sector i0 i1 i2 ;;;
  wait_disk fuel b ;;;
  vd_upd (set_info_b i0 None) ;;;
  free_chain NUM i0 ;;;
  lift (release Lk_vdisk).

(** The completed requests; there are at most [NUM]. *)
Fixpoint virtio_intr_loop (fuel : nat) : M bst unit :=
  d <- vd_get (fun d => d) ;;
  if d_used_idx d =? d_used_idx_dev d then ret tt else
  match fuel with
  | O => hang
  | S fuel =>
      let id := default 0%nat (d_used_ring d !! Z.to_nat (d_used_idx d mod Z.of_nat NUM)) in
      let info := default (None, 0) (d_info d !! id) in
      if negb (info.2 =? 0) then panic "virtio_disk_intr status" else
      match info.1 with
      | None => panic "kerneltrap"
      | Some b =>
          buf_set b (set_buf_disk 0) ;;;
          lift (wakeup (Some (Ch_disk_buf b))) ;;;
          vd_upd (fun d => set_d_used_idx (u16 (d_used_idx d + 1)) d) ;;;
          virtio_intr_loop fuel
      end
  end.

Definition virtio_disk_intr : M bst unit :=
  lift (acquire Lk_vdisk) ;;;
  st <- reg_read VIRTIO_MMIO_INTERRUPT_STATUS ;;
  reg_write VIRTIO_MMIO_INTERRUPT_ACK (Z.land st 3) ;;;
  virtio_intr_loop NUM ;;;
  lift (release Lk_vdisk).
