(* ===== verification/Bio.v ===== *)
(** * kernel/bio.c: the buffer cache

    The buffers are linked in a circular list through [prev] and [next], the
    element [HEAD] being [bcache.head]. *)
From stdpp Require Import gmap list strings.
From S2P Require Import Prelude Kstring Abi Machine Spinlock Kalloc Vm Proc Sleeplock Virtio.

(** The index of [bcache.head] in [b_bufs]. *)
Definition HEAD : nat := Z.to_nat NBUF.

Definition binit : M bst unit :=
  lift (initlock Lk_bcache "bcache") ;;;
  buf_set HEAD (set_buf_prev HEAD) ;;;
  buf_set HEAD (set_buf_next HEAD) ;;;
  each (seq 0 (Z.to_nat NBUF)) (fun b =>
    next <- buf_get HEAD buf_next ;;
    buf_set b (set_buf_next next) ;;;
    buf_set b (set_buf_prev HEAD) ;;;
    initsleeplock (buf_sl b) "buffer" ;;;
    first <- buf_get HEAD buf_next ;;
    buf_set first (set_buf_prev b) ;;;
    buf_set HEAD (set_buf_next b)).

Section Bio.
(** How often a waiting loop may find its condition false. *)
Variable fuel : nat.

(** [for(b = head.next; b != &head; b = b->next)], at most [NBUF] steps. *)
Fixpoint bget_cached (n : nat) (b : nat) (dev blockno : Z) : M bst (option nat) :=
  if decide (b = HEAD) then ret None else
  match n with
  | O => hang
  | S n =>
      x <- buf_get b (fun x => x) ;;
      if (buf_dev x =? dev) && (buf_blockno x =? blockno) then ret (Some b)
      else bget_cached n (buf_next x) dev blockno
  end.

(** [for(b = head.prev; b != &head; b = b->prev)] *)
Fixpoint bget_unused (n : nat) (b : nat) : M bst (option nat) :=
  if decide (b = HEAD) then ret None else
  match n with
  | O => hang
  | S n =>
      x <- buf_get b (fun x => x) ;;
      if buf_refcnt x =? 0 then ret (Some b) else bget_unused n (buf_prev x)
  end.

Definition bget (dev blockno : Z) : M bst nat :=
  lift (acquire Lk_bcache) ;;;
  first <- buf_get HEAD buf_next ;;
  found <- bget_cached (Z.to_nat NBUF) first dev blockno ;;
  match found with
  | Some b =>
      buf_set b (fun x => set_buf_refcnt (u32 (buf_refcnt x + 1)) x) ;;;
      lift (release Lk_bcache) ;;;
      acquiresleep fuel (buf_sl b) ;;;
      ret b
  | None =>
      last <- buf_get HEAD buf_prev ;;
      found <- bget_unused (Z.to_nat NBUF) last ;;
      match found with
      | Some b =>
          buf_set b (set_buf_dev dev) ;;;
          buf_set b (set_buf_blockno blockno) ;;;
          buf_set b (set_buf_valid 0) ;;;
          buf_set b (set_buf_refcnt 1) ;;;
          lift (release Lk_bcache) ;;;
          acquiresleep fuel (buf_sl b) ;;;
          ret b
      | None => panic "bget: no buffers"
      end
  end.

Definition bread (dev blockno : Z) : M bst nat :=
  b <- bget dev blockno ;;
  valid <- buf_get b buf_valid ;;
  when (valid =? 0) (virtio_disk_rw fuel b false ;;; buf_set b (set_buf_valid 1)) ;;;
  ret b.

Definition bwrite (b : nat) : M bst unit :=
  h <- holdingsleep (buf_sl b) ;;
  if negb h then panic "bwrite" else virtio_disk_rw fuel b true.

(** Taking [b] out of the list and putting it at its head. *)
Definition brelse_move (b : nat) : M bst unit :=
  x <- buf_get b (fun x => x) ;;
  buf_set (buf_next x) (set_buf_prev (buf_prev x)) ;;;
  x <- buf_get b (fun x => x) ;;
  buf_set (buf_prev x) (set_buf_next (buf_next x)) ;;;
  first <- buf_get HEAD buf_next ;;
  buf_set b (set_buf_next first) ;;;
  buf_set b (set_buf_prev HEAD) ;;;
  first <- buf_get HEAD buf_next ;;
  buf_set first (set_buf_prev b) ;;;
  buf_set HEAD (set_buf_next b).

Definition brelse (b : nat) : M bst unit :=
  h <- holdingsleep (buf_sl b) ;;
  if negb h then panic "brelse" else
  releasesleep (buf_sl b) ;;;
  lift (acquire Lk_bcache) ;;;
  buf_set b (fun x => set_buf_refcnt (u32 (buf_refcnt x - 1)) x) ;;;
  refcnt <- buf_get b buf_refcnt ;;
  when (refcnt =? 0) (brelse_move b) ;;;
  lift (release Lk_bcache).

Definition bpin (b : nat) : M bst unit :=
  lift (acquire Lk_bcache) ;;;
  buf_set b (fun x => set_buf_refcnt (u32 (buf_refcnt x + 1)) x) ;;;
  lift (release Lk_bcache).

Definition bunpin (b : nat) : M bst unit :=
  lift (acquire Lk_bcache) ;;;
  buf_set b (fun x => set_buf_refcnt (u32 (buf_refcnt x - 1)) x) ;;;
  lift (release Lk_bcache).
End Bio.
