(* ===== verification/Log.v ===== *)
(** * kernel/log.c: the write-ahead log *)
From stdpp Require Import gmap list strings.
From S2P Require Import Prelude Kstring Abi Machine Spinlock Kalloc Vm Proc Sleeplock Virtio Bio.

(** struct log; [lg_block] is the array [lh.block]. *)
Record log := mk_log {
  lg_start : Z;
  lg_size : Z;
  lg_outstanding : Z;
  lg_committing : Z;
  lg_dev : Z;
  lg_n : Z;
  lg_block : list Z
}.
Definition set_lg_start (v : Z) (r : log) : log :=
  mk_log v (lg_size r) (lg_outstanding r) (lg_committing r) (lg_dev r) (lg_n r) (lg_block r).
Definition set_lg_size (v : Z) (r : log) : log :=
  mk_log (lg_start r) v (lg_outstanding r) (lg_committing r) (lg_dev r) (lg_n r) (lg_block r).
Definition set_lg_outstanding (v : Z) (r : log) : log :=
  mk_log (lg_start r) (lg_size r) v (lg_committing r) (lg_dev r) (lg_n r) (lg_block r).
Definition set_lg_committing (v : Z) (r : log) : log :=
  mk_log (lg_start r) (lg_size r) (lg_outstanding r) v (lg_dev r) (lg_n r) (lg_block r).
Definition set_lg_dev (v : Z) (r : log) : log :=
  mk_log (lg_start r) (lg_size r) (lg_outstanding r) (lg_committing r) v (lg_n r) (lg_block r).
Definition set_lg_n (v : Z) (r : log) : log :=
  mk_log (lg_start r) (lg_size r) (lg_outstanding r) (lg_committing r) (lg_dev r) v (lg_block r).
Definition set_lg_block (v : list Z) (r : log) : log :=
  mk_log (lg_start r) (lg_size r) (lg_outstanding r) (lg_committing r) (lg_dev r) (lg_n r) v.

(** The block layer with the log. *)
Record lst := mk_lst { l_b : bst; l_log : log }.
Definition set_l_b (v : bst) (r : lst) : lst := mk_lst v (l_log r).
Definition set_l_log (v : log) (r : lst) : lst := mk_lst (l_b r) v.

#[global] Instance sub_bst_lst : Sub bst lst.
Proof. refine {| sub_get := l_b; sub_set := set_l_b |}; [done|by intros []|done]. Defined.

(** The machine is a part of a part. *)
#[global] Instance sub_machine_lst : Sub machine lst.
Proof.
  refine {| sub_get := fun s => b_m (l_b s); sub_set := fun m s => set_l_b (set_b_m m (l_b s)) s |};
    [done|by intros [[]]|done].
Defined.

Definition log_get {A} (f : log -> A) : M lst A := reads (fun s => f (l_log s)).
Definition log_upd (f : log -> log) : M lst unit := modify (fun s => set_l_log (f (l_log s)) s).

(** [int] fields of the header in a block: [n], then [block[i]]. *)
Definition hd_int (data : list Z) (i : nat) : Z := i32 (le_val (take 4 (drop (4 * i) data))).
Definition set_hd_int (data : list Z) (i : nat) (v : Z) : list Z :=
  take (4 * i) data ++ le_bytes 4 v ++ drop (4 * i + 4) data.

Section Log.
Variable fuel : nat.

Definition install_trans_body (recovering : bool) (tail : nat) : M lst unit :=
  lg <- log_get (fun l => l) ;;
  lbuf <- lift (bread fuel (lg_dev lg) (u32 (lg_start lg + Z.of_nat tail + 1))) ;;
  dbuf <- lift (bread fuel (lg_dev lg) (u32 (zget (lg_block lg) (Z.of_nat tail)))) ;;
  data <- lift (buf_get lbuf buf_data) ;;
  lift (buf_set dbuf (set_buf_data data)) ;;;
  lift (bwrite fuel dbuf) ;;;
  when (negb recovering) (lift (bunpin dbuf)) ;;;
  lift (brelse lbuf) ;;;
  lift (brelse dbuf).

Definition install_trans (recovering : bool) : M lst unit :=
  n <- log_get lg_n ;;
  each (seq 0 (Z.to_nat n)) (install_trans_body recovering).

Definition read_head : M lst unit :=
  lg <- log_get (fun l => l) ;;
  buf <- lift (bread fuel (lg_dev lg) (u32 (lg_start lg))) ;;
  data <- lift (buf_get buf buf_data) ;;
  log_upd (set_lg_n (hd_int data 0)) ;;;
  n <- log_get lg_n ;;
  each (seq 0 (Z.to_nat n)) (fun i =>
    log_upd (fun l => set_lg_block (zset (lg_block l) (Z.of_nat i) (hd_int data (S i))) l)) ;;;
  lift (brelse buf).

Definition write_head : M lst unit :=
  lg <- log_get (fun l => l) ;;
  buf <- lift (bread fuel (lg_dev lg) (u32 (lg_start lg))) ;;
  lift (buf_set buf (fun b => set_buf_data (set_hd_int (buf_data b) 0 (lg_n lg)) b)) ;;;
  each (seq 0 (Z.to_nat (lg_n lg))) (fun i =>
    lift (buf_set buf (fun b =>
      set_buf_data (set_hd_int (buf_data b) (S i) (zget (lg_block lg) (Z.of_nat i))) b))) ;;;
  lift (bwrite fuel buf) ;;;
  lift (brelse buf).

Definition recover_from_log : M lst unit :=
  read_head ;;;
  install_trans true ;;;
  log_upd (set_lg_n 0) ;;;
  write_head.

(** [logstart] and [nlog] are fields of the superblock. *)
Definition initlog (dev logstart nlog : Z) : M lst unit :=
  if 4 * (LOGSIZE + 1) >=? BSIZE then panic "initlog: too big logheader" else
  lift (initlock Lk_log "log") ;;;
  log_upd (set_lg_start (i32 logstart)) ;;;
  log_upd (set_lg_size (i32 nlog)) ;;;
  log_upd (set_lg_dev dev) ;;;
  recover_from_log.

(** [while(1)]: [n] bounds how often the operation must wait. *)
Fixpoint begin_op_loop (n : nat) : M lst unit :=
  lg <- log_get (fun l => l) ;;
  if negb (lg_committing lg =? 0) || (lg_n lg + (lg_outstanding lg + 1) * MAXOPBLOCKS >? LOGSIZE)
  then match n with
       | O => hang
       | S n => lift (sleep Ch_log Lk_log) ;;; begin_op_loop n
       end
  else log_upd (fun l => set_lg_outstanding (lg_outstanding l + 1) l) ;;; lift (release Lk_log).

Definition log_begin_op : M lst unit := lift (acquire Lk_log) ;;; begin_op_loop fuel.

Definition write_log_body (tail : nat) : M lst unit :=
  lg <- log_get (fun l => l) ;;
  to <- lift (bread fuel (lg_dev lg) (u32 (lg_start lg + Z.of_nat tail + 1))) ;;
  from <- lift (bread fuel (lg_dev lg) (u32 (zget (lg_block lg) (Z.of_nat tail)))) ;;
  data <- lift (buf_get from buf_data) ;;
  lift (buf_set to (set_buf_data data)) ;;;
  lift (bwrite fuel to) ;;;
  lift (brelse from) ;;;
  lift (brelse to).

Definition write_log : M lst unit :=
  n <- log_get lg_n ;;
  each (seq 0 (Z.to_nat n)) write_log_body.

Definition commit : M lst unit :=
  n <- log_get lg_n ;;
  when (n >? 0)
    (write_log ;;;
     write_head ;;;
     install_trans false ;;;
     log_upd (set_lg_n 0) ;;;
     write_head).

Definition log_end_op : M lst unit :=
  lift (acquire Lk_log) ;;;
  log_upd (fun l => set_lg_outstanding (lg_outstanding l - 1) l) ;;;
  lg <- log_get (fun l => l) ;;
  if negb (lg_committing lg =? 0) then panic "log.committing" else
  let do_commit := lg_outstanding lg =? 0 in
  (if do_commit then log_upd (set_lg_committing 1) else lift (wakeup (Some Ch_log))) ;;;
  lift (release Lk_log) ;;;
  when do_commit
    (commit ;;;
     lift (acquire Lk_log) ;;;
     log_upd (set_lg_committing 0) ;;;
     lift (wakeup (Some Ch_log)) ;;;
     lift (release Lk_log)).

(** The first index at which [blockno] is recorded, or [n]. *)
Fixpoint log_absorb (blocks : list Z) (n i : nat) (blockno : Z) : nat :=
  match n with
  | O => i
  | S n => if u32 (zget blocks (Z.of_nat i)) =? blockno then i else log_absorb blocks n (S i) blockno
  end.

Definition log_write (b : nat) : M lst unit :=
  lift (acquire Lk_log) ;;;
  lg <- log_get (fun l => l) ;;
  if (lg_n lg >=? LOGSIZE) || (lg_n lg >=? lg_size lg - 1) then panic "too big a transaction" else
  if lg_outstanding lg <? 1 then panic "log_write outside of trans" else
  blockno <- lift (buf_get b buf_blockno) ;;
  let i := log_absorb (lg_block lg) (Z.to_nat (lg_n lg)) 0 blockno in
  log_upd (fun l => set_lg_block (zset (lg_block l) (Z.of_nat i) (i32 blockno)) l) ;;;
  when (Z.of_nat i =? lg_n lg)
    (lift (bpin b) ;;; log_upd (fun l => set_lg_n (lg_n l + 1) l)) ;;;
  lift (release Lk_log).
End Log.
