(* ===== verification/Fs.v ===== *)
(** * kernel/fs.c, kernel/fs.h, kernel/file.h: the file system

    Blocks, inodes, directories and path names on top of the log.  A block is a
    list of bytes; the structures stored in blocks are read and written at their
    offsets. *)
From stdpp Require Import gmap list strings.
From S2P Require Import Prelude Kstring Abi Machine Spinlock Kalloc Vm Proc Sleeplock Virtio Bio Log.

(** struct inode (file.h) *)
Record inode := mk_inode {
  i_dev : Z;
  i_inum : Z;
  i_ref : Z;
  i_lock : sleeplock;
  i_valid : Z;
  i_type : Z;
  i_major : Z;
  i_minor : Z;
  i_nlink : Z;
  i_size : Z;
  i_addrs : list Z
}.
Definition set_i_dev (v : Z) (r : inode) : inode :=
  mk_inode v (i_inum r) (i_ref r) (i_lock r) (i_valid r) (i_type r) (i_major r) (i_minor r) (i_nlink r) (i_size r) (i_addrs r).
Definition set_i_inum (v : Z) (r : inode) : inode :=
  mk_inode (i_dev r) v (i_ref r) (i_lock r) (i_valid r) (i_type r) (i_major r) (i_minor r) (i_nlink r) (i_size r) (i_addrs r).
Definition set_i_ref (v : Z) (r : inode) : inode :=
  mk_inode (i_dev r) (i_inum r) v (i_lock r) (i_valid r) (i_type r) (i_major r) (i_minor r) (i_nlink r) (i_size r) (i_addrs r).
Definition set_i_lock (v : sleeplock) (r : inode) : inode :=
  mk_inode (i_dev r) (i_inum r) (i_ref r) v (i_valid r) (i_type r) (i_major r) (i_minor r) (i_nlink r) (i_size r) (i_addrs r).
Definition set_i_valid (v : Z) (r : inode) : inode :=
  mk_inode (i_dev r) (i_inum r) (i_ref r) (i_lock r) v (i_type r) (i_major r) (i_minor r) (i_nlink r) (i_size r) (i_addrs r).
Definition set_i_type (v : Z) (r : inode) : inode :=
  mk_inode (i_dev r) (i_inum r) (i_ref r) (i_lock r) (i_valid r) v (i_major r) (i_minor r) (i_nlink r) (i_size r) (i_addrs r).
Definition set_i_major (v : Z) (r : inode) : inode :=
  mk_inode (i_dev r) (i_inum r) (i_ref r) (i_lock r) (i_valid r) (i_type r) v (i_minor r) (i_nlink r) (i_size r) (i_addrs r).
Definition set_i_minor (v : Z) (r : inode) : inode :=
  mk_inode (i_dev r) (i_inum r) (i_ref r) (i_lock r) (i_valid r) (i_type r) (i_major r) v (i_nlink r) (i_size r) (i_addrs r).
Definition set_i_nlink (v : Z) (r : inode) : inode :=
  mk_inode (i_dev r) (i_inum r) (i_ref r) (i_lock r) (i_valid r) (i_type r) (i_major r) (i_minor r) v (i_size r) (i_addrs r).
Definition set_i_size (v : Z) (r : inode) : inode :=
  mk_inode (i_dev r) (i_inum r) (i_ref r) (i_lock r) (i_valid r) (i_type r) (i_major r) (i_minor r) (i_nlink r) v (i_addrs r).
Definition set_i_addrs (v : list Z) (r : inode) : inode :=
  mk_inode (i_dev r) (i_inum r) (i_ref r) (i_lock r) (i_valid r) (i_type r) (i_major r) (i_minor r) (i_nlink r) (i_size r) v.

(** ** State *)

Record fss := mk_fss { fs_l : lst; fs_itable : list inode; fs_sb : superblock }.
Definition set_fs_l (v : lst) (r : fss) : fss := mk_fss v (fs_itable r) (fs_sb r).
Definition set_fs_itable (v : list inode) (r : fss) : fss := mk_fss (fs_l r) v (fs_sb r).
Definition set_fs_sb (v : superblock) (r : fss) : fss := mk_fss (fs_l r) (fs_itable r) v.

#[global] Instance sub_lst_fss : Sub lst fss.
Proof. refine {| sub_get := fs_l; sub_set := set_fs_l |}; [done|by intros []|done]. Defined.
#[global] Instance sub_bst_fss : Sub bst fss.
Proof.
  refine {| sub_get := fun s => l_b (fs_l s); sub_set := fun b s => set_fs_l (set_l_b b (fs_l s)) s |};
    [done|by intros [[]]|done].
Defined.
#[global] Instance sub_machine_fss : Sub machine fss.
Proof.
  refine {| sub_get := fun s => b_m (l_b (fs_l s));
            sub_set := fun m s => set_fs_l (set_l_b (set_b_m m (l_b (fs_l s))) (fs_l s)) s |};
    [done|by intros [[[]]]|done].
Defined.

Definition inode_zero : inode :=
  mk_inode 0 0 0 (mk_sleeplock 0 "" 0) 0 0 0 0 0 0 (replicate 13 0).
Definition get_inode (s : fss) (i : nat) : inode := default inode_zero (fs_itable s !! i).
Definition upd_inode (i : nat) (f : inode -> inode) (s : fss) : fss :=
  set_fs_itable (<[i := f (get_inode s i)]> (fs_itable s)) s.
Definition inode_get {A} (i : nat) (f : inode -> A) : M fss A := reads (fun s => f (get_inode s i)).
Definition inode_set (i : nat) (f : inode -> inode) : M fss unit := modify (upd_inode i f).
Definition sb_get {A} (f : superblock -> A) : M fss A := reads (fun s => f (fs_sb s)).

Definition inode_sl (i : nat) : slens fss :=
  mk_slens (fun s => i_lock (get_inode s i)) (fun v => upd_inode i (set_i_lock v))
    (Lk_inode i) (Ch_sleep_inode i).

(** Reading and changing the data of a buffer. *)
Definition bdata (b : nat) : M fss (list Z) := lift (buf_get b buf_data).
Definition set_bdata (b : nat) (data : list Z) : M fss unit := lift (buf_set b (set_buf_data data)).

Definition inode_table : list nat := seq 0 (Z.to_nat NINODE).

Section Fs.
Variable fuel : nat.

Definition fs_bread (dev blockno : Z) : M fss nat := lift (bread fuel dev blockno).
Definition fs_brelse (b : nat) : M fss unit := lift (brelse b).
Definition fs_log_write (b : nat) : M fss unit := lift (log_write b).

Definition readsb (dev : Z) : M fss unit :=
  bp <- fs_bread dev 1 ;;
  data <- bdata bp ;;
  modify (set_fs_sb (mk_superblock (get_u32 data 0) (get_u32 data 4) (get_u32 data 8) (get_u32 data 12)
    (get_u32 data 16) (get_u32 data 20) (get_u32 data 24) (get_u32 data 28))) ;;;
  fs_brelse bp.

Definition fsinit (dev : Z) : M fss unit :=
  readsb dev ;;;
  sb <- sb_get (fun sb => sb) ;;
  if negb (sb_magic sb =? FSMAGIC) then panic "invalid file system" else
  lift (initlog fuel dev (sb_logstart sb) (sb_nlog sb)).

Definition bzero (dev bno : Z) : M fss unit :=
  bp <- fs_bread dev bno ;;
  set_bdata bp (replicate (Z.to_nat BSIZE) 0) ;;;
  fs_log_write bp ;;;
  fs_brelse bp.

(** The inner loop of [balloc]: the first clear bit, from [bi] on. *)
Fixpoint find_clear (n : nat) (data : list Z) (b bi size : Z) : option Z :=
  match n with
  | O => None
  | S n =>
      if negb (b + bi <? size) then None else
      if Z.land (zget data (bi / 8)) (Z.shiftl 1 (bi mod 8)) =? 0 then Some bi
      else find_clear n data b (bi + 1) size
  end.

(** [bp->data[bi/8] |= m] and [bp->data[bi/8] &= ~m], with [m] the bit of block [bi]. *)
Definition set_used (data : list Z) (bi : Z) : list Z :=
  zset data (bi / 8) (Z.lor (zget data (bi / 8)) (Z.shiftl 1 (bi mod 8))).
Definition set_free (data : list Z) (bi : Z) : list Z :=
  zset data (bi / 8) (Z.land (zget data (bi / 8)) (u8 (Z.lnot (Z.shiftl 1 (bi mod 8))))).

Fixpoint balloc_loop (n : nat) (dev b : Z) : M fss Z :=
  sb <- sb_get (fun sb => sb) ;;
  if negb (b <? sb_size sb) then panic "balloc: out of blocks" else
  match n with
  | O => hang
  | S n =>
      bp <- fs_bread dev (BBLOCK b sb) ;;
      data <- bdata bp ;;
      match find_clear (Z.to_nat BPB) data b 0 (sb_size sb) with
      | Some bi =>
          set_bdata bp (set_used data bi) ;;;
          fs_log_write bp ;;;
          fs_brelse bp ;;;
          bzero dev (b + bi) ;;;
          ret (b + bi)
      | None => fs_brelse bp ;;; balloc_loop n dev (b + BPB)
      end
  end.

Definition balloc (dev : Z) : M fss Z :=
  size <- sb_get sb_size ;;
  balloc_loop (S (Z.to_nat (size / BPB))) dev 0.

Definition bfree (dev b : Z) : M fss unit :=
  sb <- sb_get (fun sb => sb) ;;
  bp <- fs_bread dev (BBLOCK b sb) ;;
  data <- bdata bp ;;
  let bi := b mod BPB in
  let m := Z.shiftl 1 (bi mod 8) in
  if Z.land (zget data (bi / 8)) m =? 0 then panic "freeing free block" else
  set_bdata bp (set_free data bi) ;;;
  fs_log_write bp ;;;
  fs_brelse bp.

(** ** Inodes *)

Definition iinit : M fss unit :=
  lift (initlock Lk_itable "itable") ;;;
  each inode_table (fun i => initsleeplock (inode_sl i) "inode").

(** One pass over the table: the entry of the inode, or the first free one. *)
Fixpoint iget_find (l : list nat) (empty : option nat) (s : fss) (dev inum : Z) : nat + option nat :=
  match l with
  | [] => inr empty
  | i :: l =>
      let ip := get_inode s i in
      if (i_ref ip >? 0) && (i_dev ip =? dev) && (i_inum ip =? inum) then inl i else
      let empty := match empty with None => if i_ref ip =? 0 then Some i else None | _ => empty end in
      iget_find l empty s dev inum
  end.

Definition iget (dev inum : Z) : M fss nat :=
  lift (acquire Lk_itable) ;;;
  r <- reads (fun s => iget_find inode_table None s dev inum) ;;
  match r with
  | inl ip =>
      inode_set ip (fun x => set_i_ref (i_ref x + 1) x) ;;;
      lift (release Lk_itable) ;;;
      ret ip
  | inr None => panic "iget: no inodes"
  | inr (Some ip) =>
      inode_set ip (set_i_dev dev) ;;;
      inode_set ip (set_i_inum inum) ;;;
      inode_set ip (set_i_ref 1) ;;;
      inode_set ip (set_i_valid 0) ;;;
      lift (release Lk_itable) ;;;
      ret ip
  end.

(** The offset of inode [inum] in its block. *)
Definition dinode_off (inum : Z) : nat := Z.to_nat (DINODE_SIZE * (inum mod IPB)).

Fixpoint ialloc_loop (n : nat) (dev type inum : Z) : M fss nat :=
  sb <- sb_get (fun sb => sb) ;;
  if negb (inum <? sb_ninodes sb) then panic "ialloc: no inodes" else
  match n with
  | O => hang
  | S n =>
      bp <- fs_bread dev (IBLOCK inum sb) ;;
      data <- bdata bp ;;
      if get_u16 data (dinode_off inum) =? 0 then
        set_bdata bp (splice data (dinode_off inum) (le_bytes 2 type ++ replicate 62 0)) ;;;
        fs_log_write bp ;;;
        fs_brelse bp ;;;
        iget dev inum
      else fs_brelse bp ;;; ialloc_loop n dev type (inum + 1)
  end.

Definition ialloc (dev type : Z) : M fss nat :=
  n <- sb_get sb_ninodes ;;
  ialloc_loop (Z.to_nat n) dev type 1.

Definition inode_dinode (ip : inode) : dinode :=
  mk_dinode (i_type ip) (i_major ip) (i_minor ip) (i_nlink ip) (i_size ip) (i_addrs ip).

Definition iupdate (ip : nat) : M fss unit :=
  x <- inode_get ip (fun x => x) ;;
  sb <- sb_get (fun sb => sb) ;;
  bp <- fs_bread (i_dev x) (IBLOCK (i_inum x) sb) ;;
  data <- bdata bp ;;
  set_bdata bp (splice data (dinode_off (i_inum x)) (encode_dinode (inode_dinode x))) ;;;
  fs_log_write bp ;;;
  fs_brelse bp.

Definition fs_idup (ip : nat) : M fss nat :=
  lift (acquire Lk_itable) ;;;
  inode_set ip (fun x => set_i_ref (i_ref x + 1) x) ;;;
  lift (release Lk_itable) ;;;
  ret ip.

Definition ilock (ip : nat) : M fss unit :=
  ref <- inode_get ip i_ref ;;
  if ref <? 1 then panic "ilock" else
  acquiresleep fuel (inode_sl ip) ;;;
  x <- inode_get ip (fun x => x) ;;
  if i_valid x =? 0 then
    sb <- sb_get (fun sb => sb) ;;
    bp <- fs_bread (i_dev x) (IBLOCK (i_inum x) sb) ;;
    data <- bdata bp ;;
    let dip := decode_dinode data (dinode_off (i_inum x)) in
    inode_set ip (set_i_type (di_type dip)) ;;;
    inode_set ip (set_i_major (di_major dip)) ;;;
    inode_set ip (set_i_minor (di_minor dip)) ;;;
    inode_set ip (set_i_nlink (di_nlink dip)) ;;;
    inode_set ip (set_i_size (di_size dip)) ;;;
    inode_set ip (set_i_addrs (di_addrs dip)) ;;;
    fs_brelse bp ;;;
    inode_set ip (set_i_valid 1) ;;;
    type <- inode_get ip i_type ;;
    if type =? 0 then panic "ilock: no type" else ret tt
  else ret tt.

Definition iunlock (ip : nat) : M fss unit :=
  h <- holdingsleep (inode_sl ip) ;;
  ref <- inode_get ip i_ref ;;
  if negb h || (ref <? 1) then panic "iunlock" else
  releasesleep (inode_sl ip).

(** The first [NDIRECT] blocks of [itrunc]. *)
Definition itrunc_direct (ip : nat) : M fss unit :=
  each (seq 0 (Z.to_nat NDIRECT)) (fun i =>
    x <- inode_get ip (fun x => x) ;;
    let a := zget (i_addrs x) (Z.of_nat i) in
    if a =? 0 then ret tt else
    bfree (i_dev x) a ;;;
    inode_set ip (fun x => set_i_addrs (zset (i_addrs x) (Z.of_nat i) 0) x)).

Definition itrunc (ip : nat) : M fss unit :=
  itrunc_direct ip ;;;
  x <- inode_get ip (fun x => x) ;;
  let a := zget (i_addrs x) NDIRECT in
  (if a =? 0 then ret tt else
   bp <- fs_bread (i_dev x) a ;;
   each (seq 0 (Z.to_nat NINDIRECT)) (fun j =>
     data <- bdata bp ;;
     let aj := get_u32 data (4 * j) in
     if aj =? 0 then ret tt else bfree (i_dev x) aj) ;;;
   fs_brelse bp ;;;
   bfree (i_dev x) a ;;;
   inode_set ip (fun x => set_i_addrs (zset (i_addrs x) NDIRECT 0) x)) ;;;
  inode_set ip (set_i_size 0) ;;;
  iupdate ip.

Definition fs_iput (ip : nat) : M fss unit :=
  lift (acquire Lk_itable) ;;;
  x <- inode_get ip (fun x => x) ;;
  when ((i_ref x =? 1) && negb (i_valid x =? 0) && (i_nlink x =? 0))
    (acquiresleep fuel (inode_sl ip) ;;;
     lift (release Lk_itable) ;;;
     itrunc ip ;;;
     inode_set ip (set_i_type 0) ;;;
     iupdate ip ;;;
     inode_set ip (set_i_valid 0) ;;;
     releasesleep (inode_sl ip) ;;;
     lift (acquire Lk_itable)) ;;;
  inode_set ip (fun x => set_i_ref (i_ref x - 1) x) ;;;
  lift (release Lk_itable).

Definition iunlockput (ip : nat) : M fss unit := iunlock ip ;;; fs_iput ip.

(** ** Contents *)

Definition bmap (ip : nat) (bn : Z) : M fss Z :=
  x <- inode_get ip (fun x => x) ;;
  if bn <? NDIRECT then
    let addr := zget (i_addrs x) bn in
    if negb (addr =? 0) then ret addr else
    addr <- balloc (i_dev x) ;;
    inode_set ip (fun x => set_i_addrs (zset (i_addrs x) bn addr) x) ;;;
    ret addr
  else
  let bn := bn - NDIRECT in
  if bn <? NINDIRECT then
    ind <- (let addr := zget (i_addrs x) NDIRECT in
            if negb (addr =? 0) then ret addr else
            addr <- balloc (i_dev x) ;;
            inode_set ip (fun x => set_i_addrs (zset (i_addrs x) NDIRECT addr) x) ;;;
            ret addr) ;;
    bp <- fs_bread (i_dev x) ind ;;
    data <- bdata bp ;;
    addr <- (let addr := get_u32 data (Z.to_nat (4 * bn)) in
             if negb (addr =? 0) then ret addr else
             addr <- balloc (i_dev x) ;;
             lift (buf_set bp (fun b => set_buf_data (splice (buf_data b) (Z.to_nat (4 * bn)) (le_bytes 4 addr)) b)) ;;;
             fs_log_write bp ;;;
             ret addr) ;;
    fs_brelse bp ;;;
    ret addr
  else panic "bmap: out of range".

Definition stati (ip : nat) : M fss stat :=
  inode_get ip (fun x => mk_stat (i_dev x) (i_inum x) (i_type x) (i_nlink x) (i_size x)).

(** The bytes of a transfer and its destination advance by [m] in each round; a
    round moves at least one byte, so [n / BSIZE + 2] rounds are enough. *)
Fixpoint readi_loop (k : nat) (ip : nat) (d : dst) (off tot n : Z) (acc : list Z) : M fss (Z * list Z) :=
  if negb (tot <? n) then ret (i32 tot, acc) else
  match k with
  | O => hang
  | S k =>
      dev <- inode_get ip i_dev ;;
      addr <- bmap ip (off / BSIZE) ;;
      bp <- fs_bread dev addr ;;
      data <- bdata bp ;;
      let m := Z.min (n - tot) (BSIZE - off mod BSIZE) in
      r <- lift (either_copyout d (take (Z.to_nat m) (drop (Z.to_nat (off mod BSIZE)) data))) ;;
      if r.1 =? -1 then fs_brelse bp ;;; ret (-1, acc) else
      fs_brelse bp ;;;
      let d := match d with Duser va => Duser (u64 (va + m)) | Dkernel => Dkernel end in
      readi_loop k ip d (u32 (off + m)) (tot + m) n (acc ++ r.2)
  end.

Definition readi (ip : nat) (d : dst) (off n : Z) : M fss (Z * list Z) :=
  size <- inode_get ip i_size ;;
  if (off >? size) || (u32 (off + n) <? off) then ret (0, []) else
  let n := if u32 (off + n) >? size then u32 (size - off) else n in
  readi_loop (Z.to_nat (n / BSIZE + 2)) ip d off 0 n [].

(** The offset after the loop is returned with the count; a failed copy may have
    changed the buffer. *)
Fixpoint writei_loop (k : nat) (ip : nat) (sr : src) (off tot n : Z) : M fss (Z * Z) :=
  if negb (tot <? n) then ret (tot, off) else
  match k with
  | O => hang
  | S k =>
      dev <- inode_get ip i_dev ;;
      addr <- bmap ip (off / BSIZE) ;;
      bp <- fs_bread dev addr ;;
      let m := Z.min (n - tot) (BSIZE - off mod BSIZE) in
      r <- lift (either_copyin sr tot m) ;;
      lift (buf_set bp (fun b => set_buf_data (splice (buf_data b) (Z.to_nat (off mod BSIZE)) r.2) b)) ;;;
      if r.1 =? -1 then fs_brelse bp ;;; ret (tot, off) else
      fs_log_write bp ;;;
      fs_brelse bp ;;;
      writei_loop k ip sr (u32 (off + m)) (tot + m) n
  end.

Definition writei (ip : nat) (sr : src) (off n : Z) : M fss Z :=
  size <- inode_get ip i_size ;;
  if (off >? size) || (u32 (off + n) <? off) then ret (-1) else
  if u32 (off + n) >? MAXFILE * BSIZE then ret (-1) else
  r <- writei_loop (Z.to_nat (n / BSIZE + 2)) ip sr off 0 n ;;
  let '(tot, off) := r in
  size <- inode_get ip i_size ;;
  when (off >? size) (inode_set ip (set_i_size off)) ;;;
  iupdate ip ;;;
  ret (i32 tot).

(** ** Directories *)

(** [strncmp] on names; past its end a name is NUL. *)
Fixpoint strncmp_list (n : nat) (p q : list Z) : Z :=
  match n with
  | O => 0
  | S n =>
      let a := hd 0 p in let b := hd 0 q in
      if negb (a =? 0) && (a =? b) then strncmp_list n (tail p) (tail q) else a - b
  end.

Definition namecmp (s t : list Z) : Z := strncmp_list (Z.to_nat DIRSIZ) s t.

(** The entry found and its offset. *)
Fixpoint dirlookup_loop (k : nat) (dp : nat) (name : list Z) (off : Z) : M fss (option (nat * Z)) :=
  size <- inode_get dp i_size ;;
  if negb (off <? size) then ret None else
  match k with
  | O => hang
  | S k =>
      r <- readi dp Dkernel off DIRENT_SIZE ;;
      if negb (r.1 =? DIRENT_SIZE) then panic "dirlookup read" else
      if de_inum r.2 =? 0 then dirlookup_loop k dp name (u32 (off + DIRENT_SIZE)) else
      if namecmp name (de_name r.2) =? 0 then
        dev <- inode_get dp i_dev ;;
        ip <- iget dev (de_inum r.2) ;;
        ret (Some (ip, off))
      else dirlookup_loop k dp name (u32 (off + DIRENT_SIZE))
  end.

Definition dirlookup (dp : nat) (name : list Z) : M fss (option (nat * Z)) :=
  x <- inode_get dp (fun x => x) ;;
  if negb (i_type x =? T_DIR) then panic "dirlookup not DIR" else
  dirlookup_loop (Z.to_nat (i_size x / DIRENT_SIZE + 1)) dp name 0.

(** The offset of the first free entry, or the end of the directory. *)
Fixpoint dirlink_find (k : nat) (dp : nat) (off : Z) : M fss Z :=
  size <- inode_get dp i_size ;;
  if negb (off <? size) then ret off else
  match k with
  | O => hang
  | S k =>
      r <- readi dp Dkernel off DIRENT_SIZE ;;
      if negb (r.1 =? DIRENT_SIZE) then panic "dirlink read" else
      if de_inum r.2 =? 0 then ret off else dirlink_find k dp (off + DIRENT_SIZE)
  end.

(** [strncpy(de.name, name, DIRSIZ)] *)
Definition pad_name (name : list Z) : list Z :=
  take 14 name ++ replicate (14 - length name) 0.

Definition dirlink (dp : nat) (name : list Z) (inum : Z) : M fss Z :=
  r <- dirlookup dp name ;;
  match r with
  | Some (ip, _) => fs_iput ip ;;; ret (-1)
  | None =>
      size <- inode_get dp i_size ;;
      off <- dirlink_find (Z.to_nat (size / DIRENT_SIZE + 1)) dp 0 ;;
      w <- writei dp (Skernel (le_bytes 2 inum ++ pad_name name)) off DIRENT_SIZE ;;
      if negb (w =? DIRENT_SIZE) then panic "dirlink" else ret 0
  end.

(** ** Paths *)

Definition SLASH : Z := 47.

Fixpoint skip_slashes (path : list Z) : list Z :=
  match path with
  | c :: rest => if c =? SLASH then skip_slashes rest else path
  | [] => []
  end.

(** The characters up to the next slash, and the rest. *)
Fixpoint span_elem (path : list Z) : list Z * list Z :=
  match path with
  | c :: rest =>
      if c =? SLASH then ([], path)
      else let '(e, r) := span_elem rest in (c :: e, r)
  | [] => ([], [])
  end.

(** A path is the list of its bytes before the NUL; the name keeps the first
    [DIRSIZ] bytes of the element. *)
Definition skipelem (path : list Z) : option (list Z * list Z) :=
  match skip_slashes path with
  | [] => None
  | path =>
      let '(e, rest) := span_elem path in
      Some (skip_slashes rest, take (Z.to_nat DIRSIZ) e)
  end.

Fixpoint namex_loop (k : nat) (ip : nat) (path : list Z) (parent : bool) (name : list Z)
    : M fss (option nat * list Z) :=
  match skipelem path with
  | None =>
      if parent then fs_iput ip ;;; ret (None, name) else ret (Some ip, name)
  | Some (path, name) =>
      match k with
      | O => hang
      | S k =>
          ilock ip ;;;
          type <- inode_get ip i_type ;;
          if negb (type =? T_DIR) then iunlockput ip ;;; ret (None, name) else
          if parent && match path with [] => true | _ => false end
          then iunlock ip ;;; ret (Some ip, name) else
          next <- dirlookup ip name ;;
          match next with
          | None => iunlockput ip ;;; ret (None, name)
          | Some (next, _) => iunlockput ip ;;; namex_loop k next path parent name
          end
      end
  end.

(** Every element takes at least one byte of the path. *)
Definition namex (path : list Z) (parent : bool) : M fss (option nat * list Z) :=
  ip <- (match path with
         | c :: _ =>
             if c =? SLASH then iget ROOTDEV ROOTINO else
             p <- lift curproc ;;
             cwd <- lift (proc_get p p_cwd) ;;
             match cwd with Some c => fs_idup c | None => panic "kerneltrap" end
         | [] =>
             p <- lift curproc ;;
             cwd <- lift (proc_get p p_cwd) ;;
             match cwd with Some c => fs_idup c | None => panic "kerneltrap" end
         end) ;;
  namex_loop (length path) ip path parent [].

Definition fs_namei (path : list Z) : M fss (option nat) :=
  r <- namex path false ;; ret r.1.

Definition nameiparent (path : list Z) : M fss (option nat * list Z) := namex path true.
End Fs.
