(* ===== verification/Console.v ===== *)
(** * kernel/uart.c, console.c, printf.c, msg.c, plic.c, pci.c, vga.c

    The devices are outside the kernel: what the kernel reads from their
    registers is the list [io_in], one value for each read in the order of the
    reads, and what it writes is appended to [io_out] with the address.  A wait
    for the device that is never answered spins for ever. *)
From stdpp Require Import gmap list strings.
From S2P Require Import Prelude Kstring Abi Machine Spinlock Kalloc Vm Proc.

Record con := mk_con {
  io_in : list Z;
  io_out : list (Z * Z);
  panicked : Z;
  pr_locking : Z;
  uart_tx_buf : list Z;
  uart_tx_w : Z;
  uart_tx_r : Z;
  cons_buf : list Z;
  cons_r : Z;
  cons_w : Z;
  cons_e : Z;
  msgqueue : list Z;
  listening : Z;
  front : Z;
  back : Z
}.
Definition set_io_in v r := mk_con v (io_out r) (panicked r) (pr_locking r) (uart_tx_buf r) (uart_tx_w r) (uart_tx_r r) (cons_buf r) (cons_r r) (cons_w r) (cons_e r) (msgqueue r) (listening r) (front r) (back r).
Definition set_io_out v r := mk_con (io_in r) v (panicked r) (pr_locking r) (uart_tx_buf r) (uart_tx_w r) (uart_tx_r r) (cons_buf r) (cons_r r) (cons_w r) (cons_e r) (msgqueue r) (listening r) (front r) (back r).
Definition set_panicked v r := mk_con (io_in r) (io_out r) v (pr_locking r) (uart_tx_buf r) (uart_tx_w r) (uart_tx_r r) (cons_buf r) (cons_r r) (cons_w r) (cons_e r) (msgqueue r) (listening r) (front r) (back r).
Definition set_pr_locking v r := mk_con (io_in r) (io_out r) (panicked r) v (uart_tx_buf r) (uart_tx_w r) (uart_tx_r r) (cons_buf r) (cons_r r) (cons_w r) (cons_e r) (msgqueue r) (listening r) (front r) (back r).
Definition set_uart_tx_buf v r := mk_con (io_in r) (io_out r) (panicked r) (pr_locking r) v (uart_tx_w r) (uart_tx_r r) (cons_buf r) (cons_r r) (cons_w r) (cons_e r) (msgqueue r) (listening r) (front r) (back r).
Definition set_uart_tx_w v r := mk_con (io_in r) (io_out r) (panicked r) (pr_locking r) (uart_tx_buf r) v (uart_tx_r r) (cons_buf r) (cons_r r) (cons_w r) (cons_e r) (msgqueue r) (listening r) (front r) (back r).
Definition set_uart_tx_r v r := mk_con (io_in r) (io_out r) (panicked r) (pr_locking r) (uart_tx_buf r) (uart_tx_w r) v (cons_buf r) (cons_r r) (cons_w r) (cons_e r) (msgqueue r) (listening r) (front r) (back r).
Definition set_cons_buf v r := mk_con (io_in r) (io_out r) (panicked r) (pr_locking r) (uart_tx_buf r) (uart_tx_w r) (uart_tx_r r) v (cons_r r) (cons_w r) (cons_e r) (msgqueue r) (listening r) (front r) (back r).
Definition set_cons_r v r := mk_con (io_in r) (io_out r) (panicked r) (pr_locking r) (uart_tx_buf r) (uart_tx_w r) (uart_tx_r r) (cons_buf r) v (cons_w r) (cons_e r) (msgqueue r) (listening r) (front r) (back r).
Definition set_cons_w v r := mk_con (io_in r) (io_out r) (panicked r) (pr_locking r) (uart_tx_buf r) (uart_tx_w r) (uart_tx_r r) (cons_buf r) (cons_r r) v (cons_e r) (msgqueue r) (listening r) (front r) (back r).
Definition set_cons_e v r := mk_con (io_in r) (io_out r) (panicked r) (pr_locking r) (uart_tx_buf r) (uart_tx_w r) (uart_tx_r r) (cons_buf r) (cons_r r) (cons_w r) v (msgqueue r) (listening r) (front r) (back r).
Definition set_msgqueue v r := mk_con (io_in r) (io_out r) (panicked r) (pr_locking r) (uart_tx_buf r) (uart_tx_w r) (uart_tx_r r) (cons_buf r) (cons_r r) (cons_w r) (cons_e r) v (listening r) (front r) (back r).
Definition set_listening v r := mk_con (io_in r) (io_out r) (panicked r) (pr_locking r) (uart_tx_buf r) (uart_tx_w r) (uart_tx_r r) (cons_buf r) (cons_r r) (cons_w r) (cons_e r) (msgqueue r) v (front r) (back r).
Definition set_front v r := mk_con (io_in r) (io_out r) (panicked r) (pr_locking r) (uart_tx_buf r) (uart_tx_w r) (uart_tx_r r) (cons_buf r) (cons_r r) (cons_w r) (cons_e r) (msgqueue r) (listening r) v (back r).
Definition set_back v r := mk_con (io_in r) (io_out r) (panicked r) (pr_locking r) (uart_tx_buf r) (uart_tx_w r) (uart_tx_r r) (cons_buf r) (cons_r r) (cons_w r) (cons_e r) (msgqueue r) (listening r) (front r) v.

Record cst := mk_cst { c_m : machine; c_con : con }.
Definition set_c_m v r := mk_cst v (c_con r).
Definition set_c_con v r := mk_cst (c_m r) v.

#[global] Instance sub_machine_cst : Sub machine cst.
Proof. refine {| sub_get := c_m; sub_set := set_c_m |}; [done|by intros []|done]. Defined.

Definition con_get {A} (f : con -> A) : M cst A := reads (fun s => f (c_con s)).
Definition con_upd (f : con -> con) : M cst unit := modify (fun s => set_c_con (f (c_con s)) s).

(** ** Device registers *)

Definition io_read : M cst (option Z) :=
  l <- con_get io_in ;;
  match l with
  | [] => ret None
  | v :: l => con_upd (set_io_in l) ;;; ret (Some v)
  end.

(** A read that the device does not answer never returns. *)
Definition io_read_sync : M cst Z :=
  v <- io_read ;; match v with Some v => ret v | None => hang end.

Definition io_write (addr v : Z) : M cst unit :=
  con_upd (fun c => set_io_out (io_out c ++ [(addr, v)]) c).

(** ** msg.c *)

Definition NMSG : Z := 128.
Definition increase (x : Z) : Z := (x + 1) mod NMSG.

Definition msginit : M cst unit := lift (initlock Lk_msg "msg").

Definition putmsg (c : Z) : M cst unit :=
  lift (acquire Lk_msg) ;;;
  con_upd (fun k => set_msgqueue (zset (msgqueue k) (back k) (u8 c)) k) ;;;
  con_upd (fun k => set_back (increase (back k)) k) ;;;
  k <- con_get (fun k => k) ;;
  when (front k =? back k) (con_upd (fun k => set_front (increase (front k)) k)) ;;;
  lift (release Lk_msg).

(** ** uart.c *)

Definition RHR : Z := 0.
Definition THR : Z := 0.
Definition IER : Z := 1.
Definition IER_RX_ENABLE : Z := Z.shiftl 1 0.
Definition IER_TX_ENABLE : Z := Z.shiftl 1 1.
Definition FCR : Z := 2.
Definition FCR_FIFO_ENABLE : Z := Z.shiftl 1 0.
Definition FCR_FIFO_CLEAR : Z := Z.shiftl 3 1.
Definition LCR : Z := 3.
Definition LCR_EIGHT_BITS : Z := Z.shiftl 3 0.
Definition LCR_BAUD_LATCH : Z := Z.shiftl 1 7.
Definition LSR : Z := 5.
Definition LSR_RX_READY : Z := Z.shiftl 1 0.
Definition LSR_TX_IDLE : Z := Z.shiftl 1 5.
Definition UART_TX_BUF_SIZE : Z := 32.

Definition WriteReg (reg v : Z) : M cst unit := io_write (UART0 + reg) (u8 v).

Definition uartinit : M cst unit :=
  WriteReg IER 0 ;;;
  WriteReg LCR LCR_BAUD_LATCH ;;;
  WriteReg 0 3 ;;;
  WriteReg 1 0 ;;;
  WriteReg LCR LCR_EIGHT_BITS ;;;
  WriteReg FCR (Z.lor FCR_FIFO_ENABLE FCR_FIFO_CLEAR) ;;;
  WriteReg IER (Z.lor IER_TX_ENABLE IER_RX_ENABLE) ;;;
  lift (initlock Lk_uart_tx "uart") ;;;
  msginit.

(** [uart_tx_lock] is held.  Each round reads the line status once, so the length
    of [io_in] bounds the rounds. *)
Fixpoint uartstart_loop (n : nat) : M cst unit :=
  k <- con_get (fun k => k) ;;
  if uart_tx_w k =? uart_tx_r k then ret tt else
  match n with
  | O => hang
  | S n =>
      lsr <- io_read_sync ;;
      if Z.land lsr LSR_TX_IDLE =? 0 then ret tt else
      let c := zget (uart_tx_buf k) (uart_tx_r k mod UART_TX_BUF_SIZE) in
      con_upd (set_uart_tx_r (u64 (uart_tx_r k + 1))) ;;;
      lift (wakeup (Some Ch_uart_tx_r)) ;;;
      WriteReg THR c ;;;
      uartstart_loop n
  end.

Definition uartstart : M cst unit :=
  l <- con_get io_in ;;
  uartstart_loop (S (length l)).

(** [while(1)]: [fuel] bounds how often the buffer is found full. *)
Fixpoint uartputc_loop (fuel : nat) (c : Z) : M cst unit :=
  k <- con_get (fun k => k) ;;
  if uart_tx_w k =? u64 (uart_tx_r k + UART_TX_BUF_SIZE) then
    match fuel with
    | O => hang
    | S fuel => lift (sleep Ch_uart_tx_r Lk_uart_tx) ;;; uartputc_loop fuel c
    end
  else
    con_upd (fun k => set_uart_tx_buf (zset (uart_tx_buf k) (uart_tx_w k mod UART_TX_BUF_SIZE) (u8 c)) k) ;;;
    con_upd (fun k => set_uart_tx_w (u64 (uart_tx_w k + 1)) k) ;;;
    uartstart ;;;
    lift (release Lk_uart_tx).

Definition uartputc (fuel : nat) (c : Z) : M cst unit :=
  lift (acquire Lk_uart_tx) ;;;
  p <- con_get panicked ;;
  if negb (p =? 0) then hang else uartputc_loop fuel c.

(** Spinning until the line status says idle; the reads are those of [io_in]. *)
Fixpoint wait_tx_idle (n : nat) : M cst unit :=
  match n with
  | O => hang
  | S n =>
      lsr <- io_read_sync ;;
      if Z.land lsr LSR_TX_IDLE =? 0 then wait_tx_idle n else ret tt
  end.

Definition uartputc_sync (c : Z) : M cst unit :=
  lift push_off ;;;
  p <- con_get panicked ;;
  if negb (p =? 0) then hang else
  l <- con_get io_in ;;
  wait_tx_idle (S (length l)) ;;;
  WriteReg THR c ;;;
  lift pop_off.

Definition uartgetc : M cst Z :=
  lsr <- io_read_sync ;;
  if negb (Z.land lsr 1 =? 0) then c <- io_read_sync ;; ret (u8 c) else ret (-1).

(** ** console.c and printf.c *)

Definition BACKSPACE : Z := 0x100.
Definition C (x : Z) : Z := x - 64.
Definition INPUT_BUF : Z := 128.

Definition consputc (c : Z) : M cst unit :=
  if c =? BACKSPACE
  then uartputc_sync 8 ;;; uartputc_sync 32 ;;; uartputc_sync 8
  else uartputc_sync c.

Fixpoint consolewrite_loop (fuel n : nat) (sr : src) (i : Z) : M cst Z :=
  match n with
  | O => ret i
  | S n =>
      r <- lift (either_copyin sr i 1) ;;
      if r.1 =? -1 then ret i else
      uartputc fuel (zget r.2 0) ;;;
      consolewrite_loop fuel n sr (i + 1)
  end.

Definition consolewrite (fuel : nat) (sr : src) (n : Z) : M cst Z :=
  consolewrite_loop fuel (Z.to_nat n) sr 0.

(** Waiting for a line: [false] when the process was killed. *)
Fixpoint consoleread_wait (fuel : nat) : M cst bool :=
  k <- con_get (fun k => k) ;;
  if negb (cons_r k =? cons_w k) then ret true else
  p <- lift curproc ;;
  killed <- lift (proc_get p p_killed) ;;
  if negb (killed =? 0) then lift (release Lk_cons) ;;; ret false else
  match fuel with
  | O => hang
  | S fuel => lift (sleep Ch_cons_r Lk_cons) ;;; consoleread_wait fuel
  end.

(** The count is [target - n] at the end; the bytes are those of a kernel buffer. *)
Fixpoint consoleread_loop (fuel n : nat) (target : Z) (d : dst) (acc : list Z) : M cst (Z * list Z) :=
  let done (n : nat) acc := lift (release Lk_cons) ;;; ret (target - Z.of_nat n, acc) in
  match n with
  | O => done O acc
  | S n' =>
      ok <- consoleread_wait fuel ;;
      if negb ok then ret (-1, acc) else
      k <- con_get (fun k => k) ;;
      let c := zget (cons_buf k) (cons_r k mod INPUT_BUF) in
      con_upd (set_cons_r (u32 (cons_r k + 1))) ;;;
      if c =? C 68 then
        when (Z.of_nat n <? target) (con_upd (fun k => set_cons_r (u32 (cons_r k - 1)) k)) ;;;
        done n acc
      else
      r <- lift (either_copyout d [c]) ;;
      if r.1 =? -1 then done n acc else
      let d := match d with Duser va => Duser (u64 (va + 1)) | Dkernel => Dkernel end in
      if c =? 10 then done n' (acc ++ r.2) else consoleread_loop fuel n' target d (acc ++ r.2)
  end.

Definition consoleread (fuel : nat) (d : dst) (n : Z) : M cst (Z * list Z) :=
  lift (acquire Lk_cons) ;;;
  if n <=? 0 then lift (release Lk_cons) ;;; ret (0, [])
  else consoleread_loop fuel (Z.to_nat n) n d [].

(** printf.c *)
Inductive arg : Type := Aint (x : Z) | Aptr (x : Z) | Astr (s : option (list Z)).

Definition digit (d : Z) : Z := if d <? 10 then 48 + d else 87 + d.

(** The digits from the least significant one on; at most 16 of them. *)
Fixpoint int_digits (n : nat) (x base : Z) : list Z :=
  match n with
  | O => []
  | S n => digit (x mod base) :: if x / base =? 0 then [] else int_digits n (x / base) base
  end.

Definition int_chars (xx base : Z) (sign : bool) : list Z :=
  let neg := sign && (xx <? 0) in
  let x := if neg then u32 (- xx) else u32 xx in
  (if neg then [45] else []) ++ rev (int_digits 16 x base).

Fixpoint consputs (cs : list Z) : M cst unit :=
  match cs with
  | [] => ret tt
  | c :: cs => consputc c ;;; consputs cs
  end.

Definition printint (xx base : Z) (sign : bool) : M cst unit := consputs (int_chars xx base sign).

Fixpoint ptr_digits (n : nat) (x : Z) : list Z :=
  match n with
  | O => []
  | S n => digit (Z.shiftr x 60) :: ptr_digits n (u64 (Z.shiftl x 4))
  end.

Definition printptr (x : Z) : M cst unit :=
  consputc 48 ;;; consputc 120 ;;; consputs (ptr_digits 16 x).

(** The characters of a string before its nul. *)
Fixpoint cstr (s : list Z) : list Z :=
  match s with
  | [] => []
  | c :: s => if c =? 0 then [] else c :: cstr s
  end.

(** [fmt] holds the characters of the format before its nul.  Every caller passes
    the arguments its format names; the loop ends where one is missing. *)
Fixpoint printf_loop (fmt : list Z) (args : list arg) : M cst unit :=
  match fmt with
  | [] => ret tt
  | c :: fmt =>
      if negb (c =? 37) then consputc c ;;; printf_loop fmt args else
      match fmt with
      | [] => ret tt
      | c :: fmt =>
          if c =? 100 then
            match args with
            | Aint x :: args => printint x 10 true ;;; printf_loop fmt args
            | _ => ret tt
            end
          else if c =? 120 then
            match args with
            | Aint x :: args => printint x 16 true ;;; printf_loop fmt args
            | _ => ret tt
            end
          else if c =? 112 then
            match args with
            | Aptr x :: args => printptr x ;;; printf_loop fmt args
            | _ => ret tt
            end
          else if c =? 115 then
            match args with
            | Astr s :: args => consputs (cstr (default (bytes_of "(null)") s)) ;;; printf_loop fmt args
            | _ => ret tt
            end
          else if c =? 37 then consputc 37 ;;; printf_loop fmt args
          else consputc 37 ;;; consputc c ;;; printf_loop fmt args
      end
  end.

Definition printf (fmt : list Z) (args : list arg) : M cst unit :=
  locking <- con_get pr_locking ;;
  when (negb (locking =? 0)) (lift (acquire Lk_pr)) ;;;
  printf_loop fmt args ;;;
  when (negb (locking =? 0)) (lift (release Lk_pr)).

(** What [panic] prints before it stops the system. *)
Definition panic_print (s : list Z) : M cst unit :=
  con_upd (set_pr_locking 0) ;;;
  printf (bytes_of "panic: ") [] ;;;
  printf s [] ;;;
  printf [10] [] ;;;
  con_upd (set_panicked 1) ;;;
  hang.

Definition printfinit : M cst unit :=
  lift (initlock Lk_pr "pr") ;;; con_upd (set_pr_locking 1).

(** proc.c: the process listing. *)
Definition state_name (st : procstate) : list Z :=
  match st with
  | SLEEPING => bytes_of "sleep "
  | RUNNABLE => bytes_of "runble"
  | RUNNING => bytes_of "run   "
  | ZOMBIE => bytes_of "zombie"
  | UNUSED => bytes_of "unused"
  | USED => bytes_of "???"
  end.

Definition procdump : M cst unit :=
  printf [10] [] ;;;
  each proc_table (fun p =>
    x <- lift (proc_get p (fun x => x)) ;;
    if decide (p_state x = UNUSED) then ret tt else
    printf (bytes_of "%d %s %s") [Aint (p_pid x); Astr (Some (state_name (p_state x))); Astr (Some (p_name x))] ;;;
    printf [10] []).

(** The line is killed back to the last newline; at most [INPUT_BUF] characters. *)
Fixpoint kill_line (n : nat) : M cst unit :=
  k <- con_get (fun k => k) ;;
  if negb (cons_e k =? cons_w k) &&
     negb (zget (cons_buf k) (u32 (cons_e k - 1) mod INPUT_BUF) =? 10)
  then match n with
       | O => hang
       | S n =>
           con_upd (set_cons_e (u32 (cons_e k - 1))) ;;;
           consputc BACKSPACE ;;;
           kill_line n
       end
  else ret tt.

Definition consoleintr (c : Z) : M cst unit :=
  lift (acquire Lk_cons) ;;;
  (if c =? C 80 then procdump
   else if c =? C 85 then kill_line (Z.to_nat INPUT_BUF)
   else if (c =? C 72) || (c =? 127) then
     k <- con_get (fun k => k) ;;
     when (negb (cons_e k =? cons_w k))
       (con_upd (set_cons_e (u32 (cons_e k - 1))) ;;; consputc BACKSPACE)
   else
     k <- con_get (fun k => k) ;;
     when (negb (c =? 0) && (u32 (cons_e k - cons_r k) <? INPUT_BUF))
       (let c := if c =? 13 then 10 else c in
        consputc c ;;;
        con_upd (fun k => set_cons_buf (zset (cons_buf k) (cons_e k mod INPUT_BUF) (u8 c)) k) ;;;
        con_upd (fun k => set_cons_e (u32 (cons_e k + 1)) k) ;;;
        k <- con_get (fun k => k) ;;
        when ((c =? 10) || (c =? C 68) || (cons_e k =? u32 (cons_r k + INPUT_BUF)))
          (con_upd (fun k => set_cons_w (cons_e k) k) ;;; lift (wakeup (Some Ch_cons_r))))) ;;;
  lift (release Lk_cons).

(** The input of an interrupt; every round reads the line status. *)
Fixpoint uartintr_loop (n : nat) : M cst unit :=
  match n with
  | O => hang
  | S n =>
      c <- uartgetc ;;
      if c =? -1 then ret tt else
      l <- con_get listening ;;
      (if l =? 1 then putmsg c else consoleintr c) ;;;
      uartintr_loop n
  end.

Definition uartintr : M cst unit :=
  l <- con_get io_in ;;
  uartintr_loop (S (length l)) ;;;
  lift (acquire Lk_uart_tx) ;;;
  uartstart ;;;
  lift (release Lk_uart_tx).

Definition consoleinit : M cst unit :=
  lift (initlock Lk_cons "cons") ;;; uartinit.

(** ** plic.c *)

Definition PLIC_SENABLE (hart : Z) : Z := PLIC + 0x2080 + hart * 0x100.
Definition PLIC_SPRIORITY (hart : Z) : Z := PLIC + 0x201000 + hart * 0x2000.
Definition PLIC_SCLAIM (hart : Z) : Z := PLIC + 0x201004 + hart * 0x2000.

Definition plicinit : M cst unit :=
  io_write (PLIC + UART0_IRQ * 4) 1 ;;; io_write (PLIC + VIRTIO0_IRQ * 4) 1.

Definition plicinithart : M cst unit :=
  hart <- lift cpuid ;;
  io_write (PLIC_SENABLE hart) (Z.lor (Z.shiftl 1 UART0_IRQ) (Z.shiftl 1 VIRTIO0_IRQ)) ;;;
  io_write (PLIC_SPRIORITY hart) 0.

Definition plic_claim : M cst Z := lift cpuid ;;; irq <- io_read_sync ;; ret (i32 irq).

Definition plic_complete (irq : Z) : M cst unit :=
  hart <- lift cpuid ;; io_write (PLIC_SCLAIM hart) irq.

(** ** vga.c and pci.c *)

Definition WIDTH : Z := 320.
Definition HEIGHT : Z := 200.
Definition VGA_AC_INDEX : Z := 0x3C0.
Definition VGA_AC_WRITE : Z := 0x3C0.
Definition VGA_MISC_WRITE : Z := 0x3C2.
Definition VGA_SEQ_INDEX : Z := 0x3C4.
Definition VGA_SEQ_DATA : Z := 0x3C5.
Definition VGA_GC_INDEX : Z := 0x3CE.
Definition VGA_GC_DATA : Z := 0x3CF.
Definition VGA_CRTC_INDEX : Z := 0x3D4.
Definition VGA_CRTC_DATA : Z := 0x3D5.
Definition VGA_INSTAT_READ : Z := 0x3DA.
Definition VGA_NUM_SEQ_REGS : nat := 5.
Definition VGA_NUM_CRTC_REGS : nat := 25.
Definition VGA_NUM_GC_REGS : nat := 9.
Definition VGA_NUM_AC_REGS : nat := 21.

Definition g_320x200x256 : list Z := [
  0x63;
  0x03; 0x01; 0x0F; 0x00; 0x0E;
  0x5F; 0x4F; 0x50; 0x82; 0x54; 0x80; 0xBF; 0x1F;
  0x00; 0x41; 0x00; 0x00; 0x00; 0x00; 0x00; 0x00;
  0x9C; 0x0E; 0x8F; 0x28; 0x40; 0x96; 0xB9; 0xA3;
  0xFF;
  0x00; 0x00; 0x00; 0x00; 0x00; 0x40; 0x05; 0x0F;
  0xFF;
  0x00; 0x01; 0x02; 0x03; 0x04; 0x05; 0x06; 0x07;
  0x08; 0x09; 0x0A; 0x0B; 0x0C; 0x0D; 0x0E; 0x0F;
  0x41; 0x00; 0x0F; 0x00; 0x00 ].

Definition vga_write (port v : Z) : M cst unit := io_write (VGA0 + port) (u8 v).

(** A register file behind an index port. *)
Definition write_indexed (index data : Z) (regs : list Z) : M cst unit :=
  each (seq 0 (length regs)) (fun i =>
    vga_write index (Z.of_nat i) ;;;
    vga_write data (zget regs (Z.of_nat i))).

(** The unlock bits are also set in the table itself: writing them again in a later
    call changes nothing, so the table is passed by value here. *)
Definition write_regs (regs : list Z) : M cst unit :=
  vga_write VGA_MISC_WRITE (zget regs 0) ;;;
  let regs := drop 1 regs in
  write_indexed VGA_SEQ_INDEX VGA_SEQ_DATA (take VGA_NUM_SEQ_REGS regs) ;;;
  let regs := drop VGA_NUM_SEQ_REGS regs in
  vga_write VGA_CRTC_INDEX 0x03 ;;;
  v <- io_read_sync ;;
  vga_write VGA_CRTC_DATA (Z.lor v 0x80) ;;;
  vga_write VGA_CRTC_INDEX 0x11 ;;;
  v <- io_read_sync ;;
  vga_write VGA_CRTC_DATA (Z.land v (Z.lnot 0x80)) ;;;
  let regs := zset regs 0x03 (Z.lor (zget regs 0x03) 0x80) in
  let regs := zset regs 0x11 (Z.land (zget regs 0x11) (u8 (Z.lnot 0x80))) in
  write_indexed VGA_CRTC_INDEX VGA_CRTC_DATA (take VGA_NUM_CRTC_REGS regs) ;;;
  let regs := drop VGA_NUM_CRTC_REGS regs in
  write_indexed VGA_GC_INDEX VGA_GC_DATA (take VGA_NUM_GC_REGS regs) ;;;
  let regs := drop VGA_NUM_GC_REGS regs in
  each (seq 0 VGA_NUM_AC_REGS) (fun i =>
    io_read_sync ;;;
    vga_write VGA_AC_INDEX (Z.of_nat i) ;;;
    vga_write VGA_AC_WRITE (zget regs (Z.of_nat i))) ;;;
  io_read_sync ;;;
  vga_write VGA_AC_INDEX 0x20.

(** The 256 colours: 8 shades of red and green, 4 of blue. *)
Definition vgainit : M cst unit :=
  write_regs g_320x200x256 ;;;
  vga_write 0x3c8 0 ;;;
  each (seq 0 8) (fun r =>
    each (seq 0 8) (fun g =>
      each (seq 0 4) (fun b =>
        vga_write 0x3c9 (8 * Z.of_nat r) ;;;
        vga_write 0x3c9 (8 * Z.of_nat g) ;;;
        vga_write 0x3c9 (16 * Z.of_nat b)))).

Definition ECAM : Z := 0x30000000.

Definition pciinit : M cst unit :=
  each (seq 0 32) (fun dev =>
    let base := ECAM + 4 * Z.shiftl (Z.of_nat dev) 11 in
    id <- io_read_sync ;;
    if negb (id =? 0x11111234) then ret tt else
    io_write (base + 4) 7 ;;;
    each (seq 0 6) (fun i =>
      old <- io_read_sync ;;
      io_write (base + 4 * (4 + Z.of_nat i)) 0xffffffff ;;;
      io_write (base + 4 * (4 + Z.of_nat i)) old) ;;;
    io_write (base + 4 * 4) FRAMEBUFFER ;;;
    vgainit).
