(* ===== verification/Pipe.v ===== *)
(** * kernel/pipe.c: pipes

    A pipe lives in a page of its own; the pipes are kept by the address of that
    page.  The counters are unsigned and wrap around. *)
From stdpp Require Import gmap list strings.
From S2P Require Import Prelude Kstring Abi Machine Spinlock Kalloc Vm Proc.

Definition PIPESIZE : Z := 512.

Record pipe := mk_pipe {
  pi_data : list Z;
  pi_nread : Z;
  pi_nwrite : Z;
  pi_readopen : Z;
  pi_writeopen : Z
}.
Definition set_pi_data v r := mk_pipe v (pi_nread r) (pi_nwrite r) (pi_readopen r) (pi_writeopen r).
Definition set_pi_nread v r := mk_pipe (pi_data r) v (pi_nwrite r) (pi_readopen r) (pi_writeopen r).
Definition set_pi_nwrite v r := mk_pipe (pi_data r) (pi_nread r) v (pi_readopen r) (pi_writeopen r).
Definition set_pi_readopen v r := mk_pipe (pi_data r) (pi_nread r) (pi_nwrite r) v (pi_writeopen r).
Definition set_pi_writeopen v r := mk_pipe (pi_data r) (pi_nread r) (pi_nwrite r) (pi_readopen r) v.

Record pst := mk_pst { ps_m : machine; ps_pipes : gmap Z pipe }.
Definition set_ps_m v r := mk_pst v (ps_pipes r).
Definition set_ps_pipes v r := mk_pst (ps_m r) v.

#[global] Instance sub_machine_pst : Sub machine pst.
Proof. refine {| sub_get := ps_m; sub_set := set_ps_m |}; [done|by intros []|done]. Defined.

(** What [kalloc] leaves in the page, with the counters zero. *)
Definition pipe_fresh : pipe := mk_pipe (replicate (Z.to_nat PIPESIZE) 5) 0 0 1 1.

Definition get_pipe (pi : Z) (s : pst) : pipe := default pipe_fresh (ps_pipes s !! pi).
Definition pipe_get {A} (pi : Z) (f : pipe -> A) : M pst A := reads (fun s => f (get_pipe pi s)).
Definition pipe_set (pi : Z) (f : pipe -> pipe) : M pst unit :=
  modify (fun s => set_ps_pipes (<[pi := f (get_pipe pi s)]> (ps_pipes s)) s).

Section Pipe.
Variable kend : Z.

(** The part of [pipealloc] that makes the pipe, between the two [filealloc]s and
    the initialisation of the files. *)
Definition pipe_new : M pst Z :=
  pi <- lift kalloc ;;
  if pi =? 0 then ret 0 else
  pipe_set pi (fun _ => pipe_fresh) ;;;
  lift (initlock (Lk_pipe pi) "pipe") ;;;
  ret pi.

Definition pipeclose (pi : Z) (writable : Z) : M pst unit :=
  lift (acquire (Lk_pipe pi)) ;;;
  (if negb (writable =? 0)
   then pipe_set pi (set_pi_writeopen 0) ;;; lift (wakeup (Some (Ch_pipe_nread pi)))
   else pipe_set pi (set_pi_readopen 0) ;;; lift (wakeup (Some (Ch_pipe_nwrite pi)))) ;;;
  x <- pipe_get pi (fun x => x) ;;
  if (pi_readopen x =? 0) && (pi_writeopen x =? 0)
  then
    lift (release (Lk_pipe pi)) ;;;
    lift (kfree kend pi) ;;;
    modify (fun s => set_ps_pipes (delete pi (ps_pipes s)) s)
  else lift (release (Lk_pipe pi)).
End Pipe.

(** [pi->data[pi->nwrite++ % PIPESIZE] = ch] *)
Definition pipe_put (ch : Z) (x : pipe) : pipe :=
  set_pi_nwrite (u32 (pi_nwrite x + 1)) (set_pi_data (zset (pi_data x) (pi_nwrite x mod PIPESIZE) ch) x).

(** [ch = pi->data[pi->nread++ % PIPESIZE]] *)
Definition pipe_next (x : pipe) : Z := zget (pi_data x) (pi_nread x mod PIPESIZE).
Definition pipe_drop (x : pipe) : pipe := set_pi_nread (u32 (pi_nread x + 1)) x.

(** [while(i < n)], with [n] bytes left to write.  [fuel] bounds how often the pipe is
    found full. *)
Fixpoint pipewrite_loop (fuel : nat) (pi : Z) (pr : nat) (addr : Z) : nat -> Z -> M pst Z :=
  fix write (n : nat) (i : Z) : M pst Z :=
  let finish := lift (wakeup (Some (Ch_pipe_nread pi))) ;;; lift (release (Lk_pipe pi)) ;;; ret i in
  match n with
  | O => finish
  | S rest =>
      x <- pipe_get pi (fun x => x) ;;
      killed <- lift (proc_get pr p_killed) ;;
      if (pi_readopen x =? 0) || negb (killed =? 0) then lift (release (Lk_pipe pi)) ;;; ret (-1) else
      if pi_nwrite x =? u32 (pi_nread x + PIPESIZE) then
        match fuel with
        | O => hang
        | S fuel =>
            lift (wakeup (Some (Ch_pipe_nread pi))) ;;;
            lift (sleep (Ch_pipe_nwrite pi) (Lk_pipe pi)) ;;;
            pipewrite_loop fuel pi pr addr n i
        end
      else
        pagetable <- lift (proc_get pr p_pagetable) ;;
        r <- lift (copyin pagetable (u64 (addr + i)) 1) ;;
        if r.1 =? -1 then finish else
        pipe_set pi (pipe_put (zget r.2 0)) ;;;
        write rest (i + 1)
  end.

Definition pipewrite (fuel : nat) (pi addr n : Z) : M pst Z :=
  pr <- lift curproc ;;
  lift (acquire (Lk_pipe pi)) ;;;
  pipewrite_loop fuel pi pr addr (Z.to_nat n) 0.

Fixpoint piperead_wait (fuel : nat) (pi : Z) (pr : nat) : M pst bool :=
  x <- pipe_get pi (fun x => x) ;;
  if (pi_nread x =? pi_nwrite x) && negb (pi_writeopen x =? 0) then
    killed <- lift (proc_get pr p_killed) ;;
    if negb (killed =? 0) then lift (release (Lk_pipe pi)) ;;; ret false else
    match fuel with
    | O => hang
    | S fuel =>
        lift (sleep (Ch_pipe_nread pi) (Lk_pipe pi)) ;;;
        piperead_wait fuel pi pr
    end
  else ret true.

Fixpoint piperead_loop (n : nat) (pi : Z) (pr : nat) (addr i : Z) : M pst Z :=
  match n with
  | O => ret i
  | S n =>
      x <- pipe_get pi (fun x => x) ;;
      if pi_nread x =? pi_nwrite x then ret i else
      pipe_set pi pipe_drop ;;;
      pagetable <- lift (proc_get pr p_pagetable) ;;
      r <- lift (copyout pagetable (u64 (addr + i)) [pipe_next x]) ;;
      if r =? -1 then ret i else piperead_loop n pi pr addr (i + 1)
  end.

Definition piperead (fuel : nat) (pi addr n : Z) : M pst Z :=
  pr <- lift curproc ;;
  lift (acquire (Lk_pipe pi)) ;;;
  ok <- piperead_wait fuel pi pr ;;
  if negb ok then ret (-1) else
  i <- piperead_loop (Z.to_nat n) pi pr addr 0 ;;
  lift (wakeup (Some (Ch_pipe_nwrite pi))) ;;;
  lift (release (Lk_pipe pi)) ;;;
  ret i.
