(* ===== verification/PipeQueue.v ===== *)
(** * Pipes as byte streams

    The ring of kernel/pipe.c represents a list of at most [PIPESIZE] bytes, also
    when its counters wrap around.  [pipewrite] appends the writer's bytes to it
    and [piperead] moves bytes from its front to the reader's memory. *)
From stdpp Require Import gmap list strings.
From S2P Require Import Prelude Kstring Abi Machine Spinlock Kalloc Vm PageTable Uvm UserMem Proc Sched Pipe.

(** ** The ring *)

Record pipe_rep (x : pipe) (q : list Z) : Prop := {
  pr_size : Z.of_nat (length (pi_data x)) = PIPESIZE;
  pr_nread : 0 <= pi_nread x < 2 ^ 32;
  pr_nwrite : pi_nwrite x = u32 (pi_nread x + Z.of_nat (length q));
  pr_room : Z.of_nat (length q) <= PIPESIZE;
  pr_bytes : forall i, (i < length q)%nat ->
    q !! i = Some (zget (pi_data x) ((pi_nread x + Z.of_nat i) mod PIPESIZE))
}.

Lemma PIPESIZE_eq : PIPESIZE = 512.
Proof. reflexivity. Qed.

Lemma u32_mod_512 z : u32 z mod 512 = z mod 512.
Proof. unfold u32. apply Z.mod_mod_divide. by exists (2 ^ 23). Qed.

Lemma u32_eq_add a n m :
  0 <= n < 2 ^ 32 -> 0 <= m < 2 ^ 32 -> u32 (a + n) = u32 (a + m) -> n = m.
Proof. unfold u32. intros. dlia. Qed.

Lemma pipe_empty x q : pipe_rep x q -> (pi_nread x =? pi_nwrite x) = bool_decide (q = []).
Proof.
  intros [Hs Hr Hw Hm _]. rewrite Hw. rewrite PIPESIZE_eq in Hm.
  destruct q as [|c q]; cbn [length] in *.
  - rewrite bool_decide_true by done. apply Z.eqb_eq. rewrite Z.add_0_r. unfold u32. by rewrite Z.mod_small.
  - rewrite bool_decide_false by done. apply Z.eqb_neq. intros E.
    assert (E' : u32 (pi_nread x + 0) = u32 (pi_nread x + Z.of_nat (S (length q)))).
    { rewrite Z.add_0_r. unfold u32 at 1. by rewrite Z.mod_small. }
    apply u32_eq_add in E'; lia.
Qed.

Lemma pipe_full x q :
  pipe_rep x q -> (pi_nwrite x =? u32 (pi_nread x + PIPESIZE)) = (Z.of_nat (length q) =? PIPESIZE).
Proof.
  intros [Hs Hr Hw Hm _]. rewrite Hw. rewrite PIPESIZE_eq in *.
  destruct (Z.eqb_spec (Z.of_nat (length q)) 512) as [->|Hne]; [apply Z.eqb_refl|].
  apply Z.eqb_neq. intros E. apply u32_eq_add in E; lia.
Qed.

Lemma pipe_put_rep x q c :
  pipe_rep x q -> Z.of_nat (length q) < PIPESIZE -> pipe_rep (pipe_put c x) (q ++ [c]).
Proof.
  intros [Hs Hr Hw Hm Hb] Hl. rewrite PIPESIZE_eq in *. split; cbn; rewrite ?length_zset, ?length_app, ?PIPESIZE_eq; cbn [length].
  - done.
  - done.
  - rewrite Hw. unfold u32. rewrite Zplus_mod_idemp_l. f_equal. lia.
  - lia.
  - intros i Hi. rewrite Hw, u32_mod_512. destruct (decide (i = length q)) as [->|Hne].
    + rewrite list_lookup_middle by done. rewrite zget_zset_eq by (rewrite Hs; apply Z.mod_pos_bound; lia). done.
    + rewrite lookup_app_l by lia. rewrite zget_zset_ne by (try apply Z.mod_pos_bound; dlia).
      rewrite <- PIPESIZE_eq. apply Hb. lia.
Qed.

Lemma pipe_drop_rep x c q :
  pipe_rep x (c :: q) -> pipe_next x = c /\ pipe_rep (pipe_drop x) q.
Proof.
  intros [Hs Hr Hw Hm Hb]. rewrite PIPESIZE_eq in *. split.
  - specialize (Hb O ltac:(cbn; lia)). cbn in Hb. rewrite Z.add_0_r in Hb. unfold pipe_next. rewrite PIPESIZE_eq. congruence.
  - split; cbn; rewrite ?PIPESIZE_eq; cbn [length] in *.
    + done.
    + unfold u32. apply Z.mod_pos_bound. lia.
    + rewrite Hw. unfold u32. rewrite Zplus_mod_idemp_l. f_equal. lia.
    + lia.
    + intros i Hi. specialize (Hb (S i) ltac:(cbn; lia)). etrans; [exact Hb|]. do 2 f_equal.
      rewrite <- (Zplus_mod_idemp_l (u32 _)), u32_mod_512, Zplus_mod_idemp_l. f_equal. lia.
Qed.

(** ** The caller *)

(** The address space is unaffected by what pipes do to the machine. *)
Lemma uvm_frame kend top m m' free root tbl ps :
  uvm kend top m free root tbl ps -> hart_ok m' -> unlocked Lk_kmem m' ->
  m_mem m' = m_mem m -> m_freelist m' = m_freelist m -> uvm kend top m' free root tbl ps.
Proof.
  intros [[Hok Hlk [K1 K2 K3] Hr Hfr] Hm Hf Hn Ho Hl Ht] H1 H2 Em Ef.
  split; rewrite ?Em; try done. split; rewrite ?Em; try done. split; rewrite ?Em, ?Ef; done.
Qed.

Lemma same_rest_procs m m' : same_rest m m' -> m_procs m' = m_procs m.
Proof. intros [E _]. by rewrite E. Qed.

Section PipeQueue.
Variable kend : Z.
Hypothesis kend_pos : 0 < kend.
Variable top : Z -> Z.
Hypothesis top_user : forall j, vpn TRAPFRAME <= j -> Z.testbit (top j) 4 = false.

(** ** Reading *)

(** The machine while the loop runs: the reader's address space is [ps]. *)
Record reader (pr : nat) (m : machine) (free : list Z) (root : Z) (tbl : tables) (ps : list (Z * Z)) : Prop := {
  rd_uvm : uvm kend top m free root tbl ps;
  rd_root : p_pagetable (get_proc m pr) = root
}.

Lemma reader_same pr m m' free root tbl ps :
  reader pr m free root tbl ps -> uvm kend top m' free root tbl ps -> same_rest m m' ->
  reader pr m' free root tbl ps.
Proof. intros [_ Hr] Hu Hs. split; [done|]. unfold get_proc in *. by rewrite (same_rest_procs _ _ Hs). Qed.

(** What a read of at most [n] bytes at [va] takes from the queue and stores: [k]
    bytes are stored, and a byte that could not be stored is lost. *)
Definition read_effect (ps : list (Z * Z)) (n : nat) (va : Z) (q : list Z) (mm mm' : mem) (k : nat) (q' : list Z) : Prop :=
  (k <= Nat.min n (length q))%nat /\
  (k = Nat.min n (length q) /\ q' = drop k q \/
   (k < Nat.min n (length q))%nat /\ upage ps (va + Z.of_nat k) = None /\ q' = drop (S k) q) /\
  forall va', 0 <= va' -> ubyte mm' ps va' =
    if (va <=? va') && (va' <? va + Z.of_nat k) then Some (u8 (zget q (va' - va))) else ubyte mm ps va'.
Lemma pipe_get_eq pi x m pipes :
  pipes !! pi = Some x -> get_pipe pi (mk_pst m pipes) = x.
Proof. intros H. unfold get_pipe. cbn. by rewrite H. Qed.

Lemma pipe_set_eq pi x f m pipes :
  pipes !! pi = Some x -> pipe_set pi f (mk_pst m pipes) = Ok tt (mk_pst m (<[pi := f x]> pipes)).
Proof. intros H. unfold pipe_set, modify. by rewrite (pipe_get_eq pi x). Qed.

Lemma pst_lift {A} (f : M machine A) m pipes a m' :
  f m = Ok a m' -> lift f (mk_pst m pipes) = Ok a (mk_pst m' pipes).
Proof. intros E. by erewrite lift_ok by exact E. Qed.

(** [copyout] of one byte. *)
Lemma copyout_byte m free root tbl ps va c :
  uvm kend top m free root tbl ps -> 0 <= va ->
  exists r m', copyout root va [c] m = Ok r m' /\ uvm kend top m' free root tbl ps /\ same_rest m m' /\
    (r = 0 /\ (forall va', 0 <= va' -> ubyte (m_mem m') ps va' =
                 if va' =? va then Some (u8 c) else ubyte (m_mem m) ps va') \/
     r = -1 /\ upage ps va = None /\
       forall va', 0 <= va' -> ubyte (m_mem m') ps va' = ubyte (m_mem m) ps va').
Proof.
  intros Hu Hva.
  destruct (copyout_loop_spec kend kend_pos top top_user free root tbl ps 1 [c] m va Hu Hva) as
    (r & m' & n & E & Hu' & Hs & Hr & Hb); [cbn; lia|].
  exists r, m'. split; [exact E|]. split; [done|]. split; [done|]. cbn [length] in Hr.
  destruct Hr as [[-> ->]|(-> & Hn & Hp)].
  - left. split; [done|]. intros va' Hva'. rewrite Hb by done.
    destruct (Z.eqb_spec va' va) as [->|Hne].
    + rewrite Z.leb_refl, (proj2 (Z.ltb_lt _ _)) by lia. cbn. by rewrite Z.sub_diag.
    + destruct (Z.leb_spec va va'), (Z.ltb_spec va' (va + Z.of_nat 1)); cbn; try done; lia.
  - right. split; [done|]. replace n with 0 in * by lia. rewrite Z.add_0_r in Hp. split; [done|].
    intros va' Hva'. rewrite Hb by done.
    destruct (Z.leb_spec va va'), (Z.ltb_spec va' (va + 0)); cbn; try done; lia.
Qed.

Lemma read_effect_none ps n va q mm mm' k q' :
  (k = O /\ Nat.min n (length q) = O /\ q' = q \/
   k = O /\ (0 < Nat.min n (length q))%nat /\ upage ps va = None /\ q' = drop 1 q) ->
  (forall va', 0 <= va' -> ubyte mm' ps va' = ubyte mm ps va') ->
  read_effect ps n va q mm mm' k q'.
Proof.
  intros Hk Hb. split; [lia|]. split.
  - destruct Hk as [(-> & Hm & ->)|(-> & Hm & Hp & ->)]; [left; by rewrite Hm|right].
    rewrite Z.add_0_r. done.
  - intros va' Hva'. rewrite Hb by done. assert (k = O) as -> by lia.
    destruct (Z.leb_spec va va'), (Z.ltb_spec va' (va + Z.of_nat 0)); cbn; try done; lia.
Qed.

Lemma read_effect_cons ps n va c q mm mm1 mm' k q' :
  0 <= va ->
  (forall va', 0 <= va' -> ubyte mm1 ps va' = if va' =? va then Some (u8 c) else ubyte mm ps va') ->
  read_effect ps n (va + 1) q mm1 mm' k q' -> read_effect ps (S n) va (c :: q) mm mm' (S k) q'.
Proof.
  intros Hva H1 (Hk & Hq & Hb). split; [cbn; lia|]. split.
  - destruct Hq as [[-> ->]|(Hlt & Hp & ->)]; [left|right]; cbn [length drop]; [done|].
    split; [lia|]. split; [|done]. rewrite <- Hp. f_equal. lia.
  - intros va' Hva'. rewrite Hb by done.
    destruct (Z.eq_dec va' va) as [->|Hne].
    + rewrite (proj2 (Z.leb_gt _ _)) by lia. cbn [andb]. rewrite H1, Z.eqb_refl by done.
      rewrite Z.leb_refl, (proj2 (Z.ltb_lt _ _)) by lia. cbn. by rewrite Z.sub_diag.
    + replace (va + 1 <=? va') with (va <=? va') by (destruct (Z.leb_spec va va'), (Z.leb_spec (va + 1) va'); lia || done).
      replace (va + 1 + Z.of_nat k) with (va + Z.of_nat (S k)) by lia.
      destruct (Z.leb_spec va va'), (Z.ltb_spec va' (va + Z.of_nat (S k))); cbn [andb].
      * do 2 f_equal. unfold zget. replace (Z.to_nat (va' - va)) with (S (Z.to_nat (va' - (va + 1)))) by lia. done.
      * rewrite H1 by done. by rewrite (proj2 (Z.eqb_neq _ _)).
      * rewrite H1 by done. by rewrite (proj2 (Z.eqb_neq _ _)).
      * rewrite H1 by done. by rewrite (proj2 (Z.eqb_neq _ _)).
Qed.

Lemma piperead_loop_spec pi pr free root tbl ps : forall n m pipes x q addr i,
  reader pr m free root tbl ps -> pipes !! pi = Some x -> pipe_rep x q ->
  0 <= addr -> 0 <= i -> addr + i + Z.of_nat n <= 2 ^ 64 ->
  exists k m' x' q',
    piperead_loop n pi pr addr i (mk_pst m pipes) = Ok (i + Z.of_nat k) (mk_pst m' (<[pi := x']> pipes)) /\
    reader pr m' free root tbl ps /\ same_rest m m' /\ pipe_rep x' q' /\
    pi_readopen x' = pi_readopen x /\ pi_writeopen x' = pi_writeopen x /\
    read_effect ps n (addr + i) q (m_mem m) (m_mem m') k q'.
Proof.
  induction n as [|n IH]; intros m pipes x q addr i Hrd Hx Hrep Ha Hi Hb; cbn [piperead_loop].
  { exists O, m, x, q. rewrite insert_id, Z.add_0_r by done. do 2 (split; [done|]).
    split; [apply same_rest_refl|]. do 3 (split; [done|]). apply read_effect_none; [by left|done]. }
  unfold pipe_get. mgo. rewrite (pipe_get_eq pi x) by done. rewrite (pipe_empty x q Hrep).
  destruct q as [|c q]; [rewrite bool_decide_true by done|rewrite bool_decide_false by done].
  { exists O, m, x, []. rewrite insert_id, Z.add_0_r by done. do 2 (split; [done|]).
    split; [apply same_rest_refl|]. do 3 (split; [done|]). apply read_effect_none; [by left|done]. }
  destruct (pipe_drop_rep x c q Hrep) as [Hc Hrep1].
  erewrite bind_ok by (by apply pipe_set_eq).
  erewrite bind_ok by (by apply pst_lift). rewrite (rd_root _ _ _ _ _ _ Hrd), Hc.
  unfold u64. rewrite Z.mod_small by lia.
  destruct (copyout_byte m free root tbl ps (addr + i) c (rd_uvm _ _ _ _ _ _ Hrd)) as
    (r & m1 & E1 & Hu1 & Hs1 & Hr1); [lia|].
  erewrite bind_ok by (by apply pst_lift).
  pose proof (reader_same _ _ _ _ _ _ _ Hrd Hu1 Hs1) as Hrd1.
  destruct Hr1 as [[-> Hb1]|(-> & Hp & Hb1)]; cbn [Z.eqb].
  - destruct (IH m1 (<[pi := pipe_drop x]> pipes) (pipe_drop x) q addr (i + 1)) as
      (k & m' & x' & q' & E & Hrd' & Hs' & Hrep' & Ho1 & Ho2 & Heff); try done; try lia.
    { by rewrite lookup_insert_eq. }
    exists (S k), m', x', q'. rewrite E, insert_insert_eq. split; [f_equal; lia|]. split; [done|].
    split; [by eapply same_rest_trans|]. do 3 (split; [done|]).
    eapply read_effect_cons; [lia|exact Hb1|]. by rewrite <- Z.add_assoc.
  - exists O, m1, (pipe_drop x), q. rewrite Z.add_0_r. split; [done|]. split; [done|]. split; [done|].
    do 3 (split; [done|]). apply read_effect_none; [right; cbn; split; [done|]; split; [lia|done]|done].
Qed.
(** ** The whole calls *)

(** The hart runs process [pr] and holds no lock; the locks of the process and of the pipe
    are free. *)
Record caller (pr : nat) (pi : Z) (m : machine) : Prop := {
  cl_sched : sched_ok m;
  cl_depth : h_noff (m_hart m) = 0;
  cl_proc : h_proc (m_hart m) = Some pr;
  cl_bound : (pr < length (m_procs m))%nat;
  cl_own : unlocked (Lk_proc pr) m;
  cl_lock : unlocked (Lk_pipe pi) m;
  cl_kmem : unlocked Lk_kmem m
}.

(** The machine with other memory, in or out of the critical section. *)
Lemma same_rest_hold l m m1 :
  hart_ok m -> same_rest (hold l m) m1 ->
  m1 = hold l (set_m_freelist (m_freelist m1) (set_m_mem (m_mem m1) m)).
Proof.
  intros [H0 _] [E Hh]. assert (Hc : m_hart m1 = cpu_push (m_hart m)).
  { destruct Hh as [Hh|Hh]; rewrite Hh; [done|]. cbn. unfold cpu_settle. cbn.
    by rewrite (proj2 (Z.eqb_neq _ _)) by lia. }
  rewrite E, Hc. reflexivity.
Qed.

(** [wakeup] in the critical section, and leaving it. *)
Lemma wakeup_release pi ch pr m pipes :
  caller pr pi m ->
  exists procs,
    lift (wakeup ch) (mk_pst (hold (Lk_pipe pi) m) pipes) = Ok tt (mk_pst (hold (Lk_pipe pi) (set_m_procs procs m)) pipes) /\
    lift (release (Lk_pipe pi)) (mk_pst (hold (Lk_pipe pi) (set_m_procs procs m)) pipes) = Ok tt (mk_pst (settle (set_m_procs procs m)) pipes) /\
    length procs = length (m_procs m) /\
    forall p, (p < length (m_procs m))%nat ->
      default proc_zero (procs !! p) = wake ch (Some pr) p (get_proc m p).
Proof.
  intros [Hs _ Hp _ _ Hl _].
  destruct (wakeup_procs ch (hold (Lk_pipe pi) m) (sched_ok_hold (Lk_pipe pi) m Hs (fun p => ltac:(discriminate)))) as (procs & E & Hlen & Hpr).
  exists procs. split; [|split; [|split; [done|]]].
  - rewrite hold_procs, settle_hold in E by (apply (so_hart _ Hs)). by apply pst_lift.
  - apply pst_lift. by apply release_hold; [apply (so_hart _ Hs)|].
  - intros p Hpl. rewrite Hpr by done. change (h_proc (m_hart (hold (Lk_pipe pi) m))) with (h_proc (m_hart m)).
    by rewrite Hp.
Qed.

Lemma caller_mem pr pi f mm m :
  caller pr pi m -> caller pr pi (set_m_freelist f (set_m_mem mm m)).
Proof. intros [[H1 H2 H3] H0 Hp Hb Ho Hl Hk]. by split. Qed.

Lemma wake_pagetable ch me p x : p_pagetable (wake ch me p x) = p_pagetable x.
Proof. unfold wake. destruct (decide _); [done|]. by destruct (decide _). Qed.

(** The reader's view outside and inside of the critical section. *)
Lemma reader_hold pr pi m free root tbl ps :
  caller pr pi m -> reader pr m free root tbl ps -> reader pr (hold (Lk_pipe pi) m) free root tbl ps.
Proof.
  intros [[Hok _ _] _ _ _ _ _ Hk] [Hu Hr]. split; [|done].
  eapply uvm_frame; [exact Hu|by apply hart_ok_hold|by apply unlocked_hold|done|done].
Qed.

Lemma reader_leave pr pi ch m procs free root tbl ps :
  caller pr pi m -> (pr < length (m_procs m))%nat -> reader pr (hold (Lk_pipe pi) m) free root tbl ps ->
  (forall p, (p < length (m_procs m))%nat ->
      default proc_zero (procs !! p) = wake ch (Some pr) p (get_proc m p)) ->
  reader pr (settle (set_m_procs procs m)) free root tbl ps.
Proof.
  intros [[Hok _ _] _ _ _ _ _ Hk] Hpl [Hu Hr] Hp. split.
  - eapply uvm_frame; [exact Hu|by apply hart_ok_settle|done|done|done].
  - unfold get_proc. cbn. rewrite Hp by done. by rewrite wake_pagetable.
Qed.
(** ** Waiting *)

(** The process [pr] goes to sleep on [ch] in the critical section of the pipe, with the
    machine [m] otherwise, and the pipe's lock free; when it is resumed, with its
    own lock held, [again] happens in the machine in which the call returns to the loop. *)
Definition woken (pr : nat) (m m' : machine) : machine :=
  upd_proc pr (set_p_chan None) (with_hart (restore_intr (if sie (m_hart m) then 1 else 0)) m').
Definition waits (ch : chan) (pi : Z) (pr : nat) (m : machine) (pipes : gmap Z pipe) (again : pst -> res pst Z) (r : res pst Z) : Prop :=
  exists resume, r = Swtch (mk_pst (hold (Lk_proc pr) (upd_proc pr (asleep ch) m)) pipes) resume /\
    forall m' pipes', can_sleep pr (Lk_pipe pi) m' ->
      resume (mk_pst (hold (Lk_proc pr) m') pipes') = again (mk_pst (woken pr m m') pipes').

Lemma caller_can_sleep pr pi m : caller pr pi m -> can_sleep pr (Lk_pipe pi) m.
Proof. intros [Hs H0 Hp Hb Ho Hl _]. by split. Qed.

(** [sleep] on the pipe's lock. *)
Lemma sleep_pipe ch pi pr m pipes : can_sleep pr (Lk_pipe pi) m ->
  exists resume, lift (sleep ch (Lk_pipe pi)) (mk_pst (hold (Lk_pipe pi) m) pipes) =
      Swtch (mk_pst (hold (Lk_proc pr) (upd_proc pr (asleep ch) m)) pipes) resume /\
    forall m' pipes', can_sleep pr (Lk_pipe pi) m' ->
      resume (mk_pst (hold (Lk_proc pr) m') pipes') = Ok tt (mk_pst (hold (Lk_pipe pi) (woken pr m m')) pipes').
Proof.
  intros Hc. destruct (sleep_spec ch pr (Lk_pipe pi) m Hc) as (resume & E & Hr). eexists. split.
  - unfold lift. cbn [sub_get sub_machine_pst ps_m]. rewrite E. reflexivity.
  - intros m' pipes' Hc'. cbn [sub_get sub_machine_pst ps_m]. by rewrite (Hr m' Hc').
Qed.

Lemma woken_can_sleep pr pi m m' : can_sleep pr (Lk_pipe pi) m' -> can_sleep pr (Lk_pipe pi) (woken pr m m').
Proof.
  intros [H1 H2 H3 H4 H5 H6]. split; try done. unfold woken. by rewrite length_upd_proc.
Qed.

Lemma enter_pipe pr pi m pipes : can_sleep pr (Lk_pipe pi) m ->
  lift curproc (mk_pst m pipes) = Ok pr (mk_pst (settle m) pipes) /\
  lift (acquire (Lk_pipe pi)) (mk_pst (settle m) pipes) = Ok tt (mk_pst (hold (Lk_pipe pi) m) pipes).
Proof.
  intros Hc. split; apply pst_lift.
  - apply curproc_eq; [by eapply can_sleep_ok|apply Hc].
  - rewrite acquire_ok by apply Hc. by rewrite hold_settle.
Qed.

(** The part of [piperead] after the wait. *)
Lemma piperead_now fuel pi pr m pipes x q addr n free root tbl ps :
  caller pr pi m -> reader pr m free root tbl ps ->
  pipes !! pi = Some x -> pipe_rep x q -> q <> [] \/ pi_writeopen x = 0 ->
  0 <= addr -> 0 <= n -> addr + n <= 2 ^ 64 ->
  exists k m' x' q',
    piperead fuel pi addr n (mk_pst m pipes) = Ok (Z.of_nat k) (mk_pst m' (<[pi := x']> pipes)) /\
    pipe_rep x' q' /\ pi_readopen x' = pi_readopen x /\ pi_writeopen x' = pi_writeopen x /\
    reader pr m' free root tbl ps /\ unlocked (Lk_pipe pi) m' /\
    read_effect ps (Z.to_nat n) addr q (m_mem m) (m_mem m') k q' /\
    forall p, (p < length (m_procs m))%nat ->
      get_proc m' p = wake (Some (Ch_pipe_nwrite pi)) (Some pr) p (get_proc m p).
Proof.
  intros Hc Hrd Hx Hrep Hq Ha Hn Hb. pose proof (cl_bound _ _ _ Hc) as Hpl. destruct (enter_pipe pr pi m pipes (caller_can_sleep _ _ _ Hc)) as [E1 E2].
  unfold piperead. erewrite bind_ok by exact E1. erewrite bind_ok by exact E2.
  erewrite bind_ok; cycle 1.
  { destruct fuel; cbn [piperead_wait]; unfold pipe_get; mgo; rewrite (pipe_get_eq pi x) by done;
      rewrite (pipe_empty x q Hrep);
      (replace (bool_decide (q = []) && negb (pi_writeopen x =? 0)) with false; [reflexivity|];
       destruct Hq as [Hq|Hq]; [by rewrite bool_decide_false|by rewrite Hq, andb_false_r]). }
  destruct (piperead_loop_spec pi pr free root tbl ps (Z.to_nat n) (hold (Lk_pipe pi) m) pipes x q addr 0) as
    (k & m1 & x' & q' & E & Hrd1 & Hs1 & Hrep' & Ho1 & Ho2 & Heff); try done; try lia.
  { by apply reader_hold. }
  cbn [negb]. erewrite bind_ok by exact E. rewrite Z.add_0_r in Heff.
  rewrite (same_rest_hold _ _ _ (so_hart _ (cl_sched _ _ _ Hc)) Hs1) in Hrd1 |- *.
  set (m0 := set_m_freelist _ _) in *.
  assert (Hc0 : caller pr pi m0) by (by apply caller_mem).
  destruct (wakeup_release pi (Some (Ch_pipe_nwrite pi)) pr m0 (<[pi := x']> pipes) Hc0) as (procs & Ew & Er & Hlen & Hpr).
  exists k, (settle (set_m_procs procs m0)), x', q'. split; [|do 3 (split; [done|])].
  - rewrite Z.add_0_l. by rewrite (bind_ok _ _ _ _ _ Ew), (bind_ok _ _ _ _ _ Er).
  - split; [eapply reader_leave; [exact Hc0|exact Hpl|exact Hrd1|exact Hpr]|].
    split; [apply (cl_lock _ _ _ Hc)|]. split; [exact Heff|exact Hpr].
Qed.

(** C28. [piperead] on every branch.  When the pipe is empty and open for writing, it fails and
    changes nothing if the process is killed, and otherwise the process sleeps, on the counter
    of the readers, with the lock of the pipe free; resumed, the call does what a new
    one would do.  In all other cases it moves bytes from the front of the pipe to the
    reader's memory, as many as were asked for and are there, in order, without waiting,
    wakes the writers that wait for room and leaves every other byte of that memory alone.
    Where the reader's memory ends it stops, and the byte it could not store is lost. *)
Theorem piperead_correct fuel pi pr m pipes x q addr n free root tbl ps :
  caller pr pi m -> reader pr m free root tbl ps -> pipes !! pi = Some x -> pipe_rep x q ->
  0 <= addr -> 0 <= n -> addr + n <= 2 ^ 64 ->
  let r := piperead (S fuel) pi addr n (mk_pst m pipes) in
  if decide (q = [] /\ pi_writeopen x <> 0) then
    if decide (p_killed (get_proc m pr) <> 0) then r = Ok (-1) (mk_pst (settle m) pipes)
    else waits (Ch_pipe_nread pi) pi pr m pipes (piperead fuel pi addr n) r
  else exists k m' x' q',
    r = Ok (Z.of_nat k) (mk_pst m' (<[pi := x']> pipes)) /\
    pipe_rep x' q' /\ pi_readopen x' = pi_readopen x /\ pi_writeopen x' = pi_writeopen x /\
    reader pr m' free root tbl ps /\ unlocked (Lk_pipe pi) m' /\
    read_effect ps (Z.to_nat n) addr q (m_mem m) (m_mem m') k q' /\
    forall p, (p < length (m_procs m))%nat ->
      get_proc m' p = wake (Some (Ch_pipe_nwrite pi)) (Some pr) p (get_proc m p).
Proof.
  intros Hc Hrd Hx Hrep Ha Hn Hb. cbn zeta. destruct (decide _) as [[-> Hw]|Hq].
  2:{ apply piperead_now; try done. destruct q; [right|by left]. destruct (decide (pi_writeopen x = 0)); [done|]. by destruct Hq. }
  pose proof (caller_can_sleep _ _ _ Hc) as Hcs. destruct (enter_pipe pr pi m pipes Hcs) as [E1 E2].
  assert (Ew : forall fuel, piperead_wait fuel pi pr (mk_pst (hold (Lk_pipe pi) m) pipes) =
    (if negb (p_killed (get_proc m pr) =? 0) then lift (release (Lk_pipe pi)) ;;; ret false
     else match fuel with O => hang | S fuel => lift (sleep (Ch_pipe_nread pi) (Lk_pipe pi)) ;;; piperead_wait fuel pi pr end)
      (mk_pst (hold (Lk_pipe pi) m) pipes)).
  { intros fu. destruct fu; cbn [piperead_wait]; unfold pipe_get; mgo; rewrite (pipe_get_eq pi x), (pipe_empty x [] Hrep) by done;
      rewrite bool_decide_true, (proj2 (Z.eqb_neq _ _)) by done; cbn [andb negb]; by erewrite bind_ok by (by apply pst_lift). }
  destruct (decide _) as [Hk|Hk].
  - unfold piperead. rewrite !(bind_ok _ _ _ _ _ E1), !(bind_ok _ _ _ _ _ E2). unfold bind at 1. rewrite Ew.
    rewrite (proj2 (Z.eqb_neq _ _)) by done. cbn [negb]. erewrite bind_ok; [reflexivity|].
    apply pst_lift, release_hold; [apply (can_sleep_ok _ _ _ Hcs)|apply Hcs].
  - apply dec_stable in Hk. destruct (sleep_pipe (Ch_pipe_nread pi) pi pr m pipes Hcs) as (resume & E & Hr).
    eexists. split.
    + unfold piperead. rewrite !(bind_ok _ _ _ _ _ E1), !(bind_ok _ _ _ _ _ E2). unfold bind at 1. rewrite Ew, Hk. cbn [Z.eqb negb].
      unfold bind at 1. rewrite E. reflexivity.
    + intros m' pipes' Hc'. cbn beta. rewrite (Hr _ _ Hc'). cbn [res_bind].
      destruct (enter_pipe pr pi (woken pr m m') pipes' (woken_can_sleep _ _ _ _ Hc')) as [E3 E4].
      unfold piperead. by rewrite (bind_ok _ _ _ _ _ E3), (bind_ok _ _ _ _ _ E4).
Qed.

(** ** Writing *)

(** [copyin] of one byte. *)
Lemma copyin_byte m free root tbl ps va :
  uvm kend top m free root tbl ps -> 0 <= va ->
  (exists c, copyin root va 1 m = Ok (0, [c]) m /\ ubyte (m_mem m) ps va = Some c) \/
  (copyin root va 1 m = Ok (-1, []) m /\ upage ps va = None).
Proof.
  intros Hu Hva.
  destruct (copyin_loop_spec kend kend_pos top top_user free root tbl ps m Hu 1 va 1 []) as
    (r & bytes & E & Hb & Hr); [done|lia|].
  unfold copyin. change (Z.to_nat 1) with 1%nat. rewrite E. cbn [app].
  destruct Hr as [[-> Hl]|(-> & Hl & Hp)].
  - left. destruct bytes as [|c [|]]; cbn in Hl; try lia. exists c. split; [done|].
    rewrite <- (Hb O c eq_refl). f_equal. lia.
  - right. destruct bytes; cbn in Hl; [|lia]. split; [done|]. cbn in Hp. by rewrite Z.add_0_r in Hp.
Qed.

(** The call of [pipewrite] that has written [i] bytes and has [n] left. *)
Definition writing (fuel : nat) (pi addr : Z) (n : nat) (i : Z) : M pst Z :=
  pr <- lift curproc ;; lift (acquire (Lk_pipe pi)) ;;; pipewrite_loop fuel pi pr addr n i.

(** What it does with the pipe [x] that holds [q], called with the fuel [S fuel], [r] being the outcome. *)
Definition write_outcome (fuel : nat) (pi : Z) (pr : nat) (m : machine) (pipes : gmap Z pipe) (ps : list (Z * Z))
    (x : pipe) (q : list Z) (addr : Z) (n : nat) (i : Z) (r : res pst Z) : Prop :=
  if decide (n <> O /\ (pi_readopen x = 0 \/ p_killed (get_proc m pr) <> 0)) then r = Ok (-1) (mk_pst (settle m) pipes)
  else exists bytes procs x',
    let done := i + Z.of_nat (length bytes) in
    let m' := set_m_procs procs m in
    pipe_rep x' (q ++ bytes) /\ pi_readopen x' = pi_readopen x /\ pi_writeopen x' = pi_writeopen x /\
    (length bytes <= n)%nat /\ user_bytes (m_mem m) ps (addr + i) bytes /\
    (forall p, (p < length (m_procs m))%nat ->
      get_proc m' p = wake (Some (Ch_pipe_nread pi)) (Some pr) p (get_proc m p)) /\
    if decide ((length bytes < n)%nat /\ Z.of_nat (length (q ++ bytes)) = PIPESIZE) then
      waits (Ch_pipe_nwrite pi) pi pr m' (<[pi := x']> pipes) (writing fuel pi addr (n - length bytes) done) r
    else (length bytes = n \/ upage ps (addr + done) = None) /\
      r = Ok done (mk_pst (settle m') (<[pi := x']> pipes)).

Lemma pipewrite_loop_S fuel pi pr addr n i : pipewrite_loop (S fuel) pi pr addr (S n) i =
  (x <- pipe_get pi (fun x => x) ;;
   killed <- lift (proc_get pr p_killed) ;;
   if (pi_readopen x =? 0) || negb (killed =? 0) then lift (release (Lk_pipe pi)) ;;; ret (-1) else
   if pi_nwrite x =? u32 (pi_nread x + PIPESIZE) then
     lift (wakeup (Some (Ch_pipe_nread pi))) ;;;
     lift (sleep (Ch_pipe_nwrite pi) (Lk_pipe pi)) ;;;
     pipewrite_loop fuel pi pr addr (S n) i
   else
     pagetable <- lift (proc_get pr p_pagetable) ;;
     r <- lift (copyin pagetable (u64 (addr + i)) 1) ;;
     if r.1 =? -1 then lift (wakeup (Some (Ch_pipe_nread pi))) ;;; lift (release (Lk_pipe pi)) ;;; ret i else
     pipe_set pi (pipe_put (zget r.2 0)) ;;;
     pipewrite_loop (S fuel) pi pr addr n (i + 1)).
Proof. done. Qed.

(** The call that returns before it writes another byte. *)
Lemma write_finish fuel pi pr m pipes ps x q addr n i r :
  caller pr pi m -> pipes !! pi = Some x -> pipe_rep x q ->
  n = O \/ pi_readopen x <> 0 /\ p_killed (get_proc m pr) = 0 /\ Z.of_nat (length q) < PIPESIZE /\ upage ps (addr + i) = None ->
  r = (lift (wakeup (Some (Ch_pipe_nread pi))) ;;; lift (release (Lk_pipe pi)) ;;; ret i) (mk_pst (hold (Lk_pipe pi) m) pipes) ->
  write_outcome fuel pi pr m pipes ps x q addr n i r.
Proof.
  intros Hc Hx Hrep Hn ->. unfold write_outcome. rewrite decide_False by naive_solver.
  destruct (wakeup_release pi (Some (Ch_pipe_nread pi)) pr m pipes Hc) as (procs & Ew & Er & Hlen & Hpr).
  exists [], procs, x. cbn zeta. rewrite app_nil_r, insert_id, Z.add_0_r by done. cbn [length].
  do 3 (split; [done|]). split; [lia|]. split; [by intros j b Hj|]. split; [exact Hpr|].
  rewrite decide_False by lia. split; [naive_solver|].
  by rewrite (bind_ok _ _ _ _ _ Ew), (bind_ok _ _ _ _ _ Er).
Qed.

Lemma caller_woken pr pi m procs :
  caller pr pi m -> length procs = length (m_procs m) -> can_sleep pr (Lk_pipe pi) (set_m_procs procs m).
Proof. intros Hc Hl. destruct (caller_can_sleep _ _ _ Hc). split; cbn; try done. by rewrite Hl. Qed.

(** The call that finds the pipe full. *)
Lemma write_full fuel pi pr m pipes ps x q addr n i r :
  caller pr pi m -> pipes !! pi = Some x -> pipe_rep x q ->
  pi_readopen x <> 0 -> p_killed (get_proc m pr) = 0 -> n <> O -> Z.of_nat (length q) = PIPESIZE ->
  r = (lift (wakeup (Some (Ch_pipe_nread pi))) ;;; lift (sleep (Ch_pipe_nwrite pi) (Lk_pipe pi)) ;;;
       pipewrite_loop fuel pi pr addr n i) (mk_pst (hold (Lk_pipe pi) m) pipes) ->
  write_outcome fuel pi pr m pipes ps x q addr n i r.
Proof.
  intros Hc Hx Hrep Ho Hk Hn Hl ->. unfold write_outcome. rewrite decide_False by naive_solver.
  destruct (wakeup_release pi (Some (Ch_pipe_nread pi)) pr m pipes Hc) as (procs & Ew & _ & Hlen & Hpr).
  exists [], procs, x. cbn zeta. rewrite app_nil_r, insert_id, Z.add_0_r, Nat.sub_0_r by done. cbn [length].
  do 3 (split; [done|]). split; [lia|]. split; [by intros j b Hj|]. split; [exact Hpr|].
  rewrite decide_True by (split; [lia|done]).
  destruct (sleep_pipe (Ch_pipe_nwrite pi) pi pr _ pipes (caller_woken _ _ _ _ Hc Hlen)) as (resume & E & Hr).
  eexists. split.
  - rewrite (bind_ok _ _ _ _ _ Ew). unfold bind at 1. rewrite E. reflexivity.
  - intros m' pipes' Hc'. cbn beta. rewrite (Hr _ _ Hc'). cbn [res_bind].
    destruct (enter_pipe pr pi (woken pr (set_m_procs procs m) m') pipes' (woken_can_sleep _ _ _ _ Hc')) as [E3 E4].
    unfold writing. by rewrite (bind_ok _ _ _ _ _ E3), (bind_ok _ _ _ _ _ E4).
Qed.

(** The call that writes a byte and goes on. *)
Lemma write_step fuel pi pr m pipes ps x q addr n i c r :
  pi_readopen x <> 0 -> p_killed (get_proc m pr) = 0 -> ubyte (m_mem m) ps (addr + i) = Some c ->
  write_outcome fuel pi pr m (<[pi := pipe_put c x]> pipes) ps (pipe_put c x) (q ++ [c]) addr n (i + 1) r ->
  write_outcome fuel pi pr m pipes ps x q addr (S n) i r.
Proof.
  intros Ho Hk Hc. unfold write_outcome. rewrite !decide_False by (cbn [pipe_put pi_readopen]; naive_solver).
  intros (bytes & procs & x' & Hrep & H1 & H2 & Hl & Hb & Hp & Hr). exists (c :: bytes), procs, x'.
  cbn zeta in *. rewrite insert_insert_eq, <- app_assoc in *. cbn [app length] in *.
  replace (i + Z.of_nat (S (length bytes))) with (i + 1 + Z.of_nat (length bytes)) by lia.
  do 3 (split; [done|]). split; [lia|]. split; [|split; [exact Hp|]].
  - intros [|j] b Hj; cbn in Hj; [injection Hj as <-; by rewrite Z.add_0_r|]. rewrite <- (Hb j b Hj). f_equal. lia.
  - cbn [Nat.sub]. destruct (decide (_ /\ _)) as [Hd|Hd]; [rewrite decide_True by (split; [lia|apply Hd]); exact Hr|].
    rewrite decide_False by (intros [? ?]; apply Hd; split; [lia|done]). destruct Hr as [[->|Hp'] Hr]; auto.
Qed.

Lemma pipewrite_loop_spec fuel pi pr free root tbl ps m : forall n pipes x q addr i,
  caller pr pi m -> reader pr m free root tbl ps -> pipes !! pi = Some x -> pipe_rep x q ->
  0 <= addr -> 0 <= i -> addr + i + Z.of_nat n <= 2 ^ 64 ->
  write_outcome fuel pi pr m pipes ps x q addr n i (pipewrite_loop (S fuel) pi pr addr n i (mk_pst (hold (Lk_pipe pi) m) pipes)).
Proof.
  induction n as [|n IH]; intros pipes x q addr i Hc Hrd Hx Hrep Ha Hi Hb; [apply write_finish; auto|].
  rewrite pipewrite_loop_S. unfold pipe_get. mgo. rewrite (pipe_get_eq pi x) by done.
  erewrite bind_ok by (by apply pst_lift). rewrite !get_proc_hold.
  destruct (decide (pi_readopen x = 0 \/ p_killed (get_proc m pr) <> 0)) as [Hd|Hd].
  { unfold write_outcome. rewrite decide_True by done.
    replace (_ || _) with true by (destruct Hd as [->|Hd]; [done|]; by rewrite (proj2 (Z.eqb_neq _ _) Hd), orb_true_r).
    erewrite bind_ok; [reflexivity|]. apply pst_lift, release_hold; [apply (so_hart _ (cl_sched _ _ _ Hc))|apply Hc]. }
  apply Decidable.not_or in Hd as [Ho Hk]. apply dec_stable in Hk.
  rewrite Hk, (proj2 (Z.eqb_neq _ _) Ho), (pipe_full x q Hrep). cbn [Z.eqb negb orb].
  destruct (Z.eqb_spec (Z.of_nat (length q)) PIPESIZE) as [Hl|Hl]; [by apply write_full|].
  pose proof (pr_room _ _ Hrep) as Hm.
  erewrite bind_ok by (by apply pst_lift). rewrite get_proc_hold, (rd_root _ _ _ _ _ _ Hrd).
  pose proof (rd_uvm _ _ _ _ _ _ (reader_hold _ _ _ _ _ _ _ Hc Hrd)) as Hu.
  unfold u64. rewrite Z.mod_small by lia.
  destruct (copyin_byte (hold (Lk_pipe pi) m) free root tbl ps (addr + i) Hu) as [(c & E & Hbyte)|[E Hp]]; [lia| |].
  - erewrite bind_ok by (apply pst_lift, E). cbn [fst snd Z.eqb].
    erewrite bind_ok by (by apply pipe_set_eq). change (zget [c] 0) with c.
    eapply write_step; try done. apply IH; try done; try lia; [by rewrite lookup_insert_eq|apply pipe_put_rep; [done|lia]].
  - erewrite bind_ok by (apply pst_lift, E). cbn [fst]. change (-1 =? -1) with true. cbn iota.
    apply write_finish; try done. right. do 2 (split; [done|]). split; [lia|done].
Qed.

(** C29. [pipewrite] on every branch, from its start ([i] = 0) or from where it was when it last
    slept.  With bytes left to write, it fails and changes nothing if the pipe is closed for
    reading or the process is killed.  Otherwise it appends the writer's bytes in order,
    never more than the pipe can hold, changes no memory and wakes the readers that wait.
    It returns the number of bytes written when all are written or the writer's memory
    ends; when the pipe is full and bytes are left the process sleeps, on the counter of the
    writers, with the lock of the pipe free, and resumed goes on with the bytes that are left. *)
Theorem pipewrite_correct fuel pi pr m pipes x q addr n i free root tbl ps :
  caller pr pi m -> reader pr m free root tbl ps -> pipes !! pi = Some x -> pipe_rep x q ->
  0 <= addr -> 0 <= i -> addr + i + Z.of_nat n <= 2 ^ 64 ->
  pipewrite (S fuel) pi addr (Z.of_nat n) = writing (S fuel) pi addr n 0 /\
  write_outcome fuel pi pr m pipes ps x q addr n i (writing (S fuel) pi addr n i (mk_pst m pipes)).
Proof.
  intros Hc Hrd Hx Hrep Ha Hi Hb. split; [unfold pipewrite; by rewrite Nat2Z.id|].
  destruct (enter_pipe pr pi m pipes (caller_can_sleep _ _ _ Hc)) as [E1 E2].
  unfold writing. rewrite (bind_ok _ _ _ _ _ E1), (bind_ok _ _ _ _ _ E2). by eapply pipewrite_loop_spec.
Qed.
End PipeQueue.

(** ** A process with two pages and a pipe *)

Definition pipe_procs : list proc :=
  set_p_pagetable pool_end (set_p_state RUNNING proc_zero) :: replicate 63 proc_zero.
Definition pipe_locks : list lockid := [Lk_kmem; Lk_pipe 8192] ++ map Lk_proc proc_table.
Definition pipe_on (m : machine) : machine :=
  set_m_hart (mk_hart 0 2 0 0 (Some 0%nat))
    (set_m_procs pipe_procs (set_m_locks (free_locks pipe_locks) m)).
Definition pipe_machine : machine := pipe_on pool_two.

(** The counters are about to wrap around. *)
Definition pipe_wrap : pipe :=
  mk_pipe (<[510%nat := 65]> (<[511%nat := 66]> (replicate 512 0))) (2 ^ 32 - 2) 0 1 1.

Lemma pipe_wrap_rep : pipe_rep pipe_wrap [65; 66].
Proof.
  split; try done. cbn [length]. intros [|[|i]] Hi; [reflexivity|reflexivity|lia].
Qed.

Lemma pipe_on_caller m : caller 0 8192 (pipe_on m).
Proof.
  split; [split|..].
  - split; cbn; lia.
  - reflexivity.
  - intros p Hp _. eapply free_locks_unlocked; [reflexivity|]. by apply proc_lock_elem.
  - reflexivity.
  - reflexivity.
  - cbn. lia.
  - eapply free_locks_unlocked; [reflexivity|]. by do 3 constructor.
  - eapply free_locks_unlocked; [reflexivity|]. by do 2 constructor.
  - eapply free_locks_unlocked; [reflexivity|]. constructor.
Qed.

Lemma pipe_on_reader m free tbl ps :
  uvm pool_end no_top m free pool_end tbl ps -> reader pool_end no_top 0 (pipe_on m) free pool_end tbl ps.
Proof.
  intros Hu. split; [|reflexivity].
  eapply uvm_frame; [exact Hu|split; cbn; lia|apply (cl_kmem _ _ _ (pipe_on_caller m))|reflexivity|reflexivity].
Qed.

Lemma pipe_reader : exists free tbl ps, reader pool_end no_top 0 pipe_machine free pool_end tbl ps.
Proof.
  destruct pool_two_uvm as (free & tbl & ps & Hu & _). exists free, tbl, ps. exact (pipe_on_reader _ _ _ _ Hu).
Qed.

Lemma pipe_caller : caller 0 8192 pipe_machine.
Proof. exact (pipe_on_caller pool_two). Qed.

Lemma pipe_not_killed : p_killed (get_proc pipe_machine 0) = 0.
Proof. unfold get_proc. change (m_procs pipe_machine) with pipe_procs. reflexivity. Qed.

#[local] Opaque pipe_machine.

(** Two bytes are read; then the pipe is empty and the next read sleeps. *)
Definition pipe_drained : pipe := pipe_drop (pipe_drop pipe_wrap).

Lemma pipe_drained_rep : pipe_rep pipe_drained [].
Proof. do 2 eapply pipe_drop_rep. exact pipe_wrap_rep. Qed.

Lemma piperead_correct_witness :
  (exists k m' x' q',
    piperead 1 8192 100 10 (mk_pst pipe_machine {[8192 := pipe_wrap]}) = Ok (Z.of_nat k) (mk_pst m' {[8192 := x']}) /\
    pipe_rep x' q') /\
  waits (Ch_pipe_nread 8192) 8192 0 pipe_machine {[8192 := pipe_drained]} (piperead 0 8192 100 10)
    (piperead 1 8192 100 10 (mk_pst pipe_machine {[8192 := pipe_drained]})).
Proof.
  destruct pipe_reader as (free & tbl & ps & Hrd). split.
  - pose proof (piperead_correct pool_end eq_refl no_top ltac:(reflexivity) 0 8192 0 pipe_machine {[8192 := pipe_wrap]}
              pipe_wrap [65; 66] 100 10 free pool_end tbl ps pipe_caller Hrd (lookup_singleton_eq _ _) pipe_wrap_rep
              ltac:(lia) ltac:(lia) ltac:(lia)) as H.
    cbn zeta in H. rewrite decide_False in H by (intros [H1 _]; discriminate H1).
    destruct H as (k & m' & x' & q' & E & Hr & _). exists k, m', x', q'. rewrite insert_singleton_eq in E. split; [exact E|exact Hr].
  - pose proof (piperead_correct pool_end eq_refl no_top ltac:(reflexivity) 0 8192 0 pipe_machine {[8192 := pipe_drained]}
              pipe_drained [] 100 10 free pool_end tbl ps pipe_caller Hrd (lookup_singleton_eq _ _) pipe_drained_rep
              ltac:(lia) ltac:(lia) ltac:(lia)) as H.
    cbn zeta in H. rewrite decide_True in H by (split; [reflexivity|discriminate]).
    rewrite decide_False in H by (rewrite pipe_not_killed; intros H1; apply H1; reflexivity). exact H.
Defined.

(** A write of 600 bytes does not fit. *)
Lemma pipewrite_correct_witness : exists ps,
  pipewrite 1 8192 100 600 = writing 1 8192 100 600 0 /\
  write_outcome 0 8192 0 pipe_machine {[8192 := pipe_wrap]} ps pipe_wrap [65; 66] 100 600 0
    (writing 1 8192 100 600 0 (mk_pst pipe_machine {[8192 := pipe_wrap]})).
Proof.
  destruct pipe_reader as (free & tbl & ps & Hrd). exists ps.
  exact (pipewrite_correct pool_end eq_refl no_top ltac:(reflexivity) 0 8192 0 pipe_machine {[8192 := pipe_wrap]}
              pipe_wrap [65; 66] 100 600 0 free pool_end tbl ps pipe_caller Hrd (lookup_singleton_eq _ _) pipe_wrap_rep
              ltac:(lia) ltac:(lia) ltac:(lia)).
Defined.
