(* ===== verification/File.v ===== *)
(** * kernel/file.c, kernel/file.h: open files

    The state [kst] of the whole kernel, the table of open files, and the
    instance of the file interface that processes use.  [fuel] bounds each wait
    inside the calls. *)
From stdpp Require Import gmap list strings.
From S2P Require Import Prelude Kstring Abi Machine Spinlock Kalloc Vm Proc Sleeplock Virtio Bio Log Fs Console Pipe.

Inductive filetype : Type := FD_NONE | FD_PIPE | FD_INODE | FD_DEVICE.

#[global] Instance filetype_eq_dec : EqDecision filetype.
Proof. solve_decision. Defined.

Record file := mk_file {
  f_type : filetype;
  f_ref : Z;
  f_readable : Z;
  f_writable : Z;
  f_pipe : Z;
  f_ip : option nat;
  f_off : Z;
  f_major : Z
}.
Definition set_f_type v r := mk_file v (f_ref r) (f_readable r) (f_writable r) (f_pipe r) (f_ip r) (f_off r) (f_major r).
Definition set_f_ref v r := mk_file (f_type r) v (f_readable r) (f_writable r) (f_pipe r) (f_ip r) (f_off r) (f_major r).
Definition set_f_readable v r := mk_file (f_type r) (f_ref r) v (f_writable r) (f_pipe r) (f_ip r) (f_off r) (f_major r).
Definition set_f_writable v r := mk_file (f_type r) (f_ref r) (f_readable r) v (f_pipe r) (f_ip r) (f_off r) (f_major r).
Definition set_f_pipe v r := mk_file (f_type r) (f_ref r) (f_readable r) (f_writable r) v (f_ip r) (f_off r) (f_major r).
Definition set_f_ip v r := mk_file (f_type r) (f_ref r) (f_readable r) (f_writable r) (f_pipe r) v (f_off r) (f_major r).
Definition set_f_off v r := mk_file (f_type r) (f_ref r) (f_readable r) (f_writable r) (f_pipe r) (f_ip r) v (f_major r).
Definition set_f_major v r := mk_file (f_type r) (f_ref r) (f_readable r) (f_writable r) (f_pipe r) (f_ip r) (f_off r) v.

(** The control registers of the hart that trap.c, start.c and vm.c use. *)
Record csr := mk_csr {
  r_stvec : Z;
  r_sepc : Z;
  r_scause : Z;
  r_stval : Z;
  r_sip : Z;
  r_satp : Z
}.
Definition set_r_stvec v r := mk_csr v (r_sepc r) (r_scause r) (r_stval r) (r_sip r) (r_satp r).
Definition set_r_sepc v r := mk_csr (r_stvec r) v (r_scause r) (r_stval r) (r_sip r) (r_satp r).
Definition set_r_scause v r := mk_csr (r_stvec r) (r_sepc r) v (r_stval r) (r_sip r) (r_satp r).
Definition set_r_sip v r := mk_csr (r_stvec r) (r_sepc r) (r_scause r) (r_stval r) v (r_satp r).
Definition set_r_satp v r := mk_csr (r_stvec r) (r_sepc r) (r_scause r) (r_stval r) (r_sip r) v.

(** The kernel.  [k_devsw] says for which major numbers the functions of the
    console are installed; no other driver installs any. *)
Record kst := mk_kst {
  k_fs : fss;
  k_con : con;
  k_pipes : gmap Z pipe;
  k_ftable : list file;
  k_devsw : list bool;
  k_csr : csr;
  k_kernel_pagetable : Z;
  k_first : Z;
  k_started : Z
}.
Definition set_k_fs v r := mk_kst v (k_con r) (k_pipes r) (k_ftable r) (k_devsw r) (k_csr r) (k_kernel_pagetable r) (k_first r) (k_started r).
Definition set_k_con v r := mk_kst (k_fs r) v (k_pipes r) (k_ftable r) (k_devsw r) (k_csr r) (k_kernel_pagetable r) (k_first r) (k_started r).
Definition set_k_pipes v r := mk_kst (k_fs r) (k_con r) v (k_ftable r) (k_devsw r) (k_csr r) (k_kernel_pagetable r) (k_first r) (k_started r).
Definition set_k_ftable v r := mk_kst (k_fs r) (k_con r) (k_pipes r) v (k_devsw r) (k_csr r) (k_kernel_pagetable r) (k_first r) (k_started r).
Definition set_k_devsw v r := mk_kst (k_fs r) (k_con r) (k_pipes r) (k_ftable r) v (k_csr r) (k_kernel_pagetable r) (k_first r) (k_started r).
Definition set_k_csr v r := mk_kst (k_fs r) (k_con r) (k_pipes r) (k_ftable r) (k_devsw r) v (k_kernel_pagetable r) (k_first r) (k_started r).
Definition set_k_kernel_pagetable v r := mk_kst (k_fs r) (k_con r) (k_pipes r) (k_ftable r) (k_devsw r) (k_csr r) v (k_first r) (k_started r).
Definition set_k_first v r := mk_kst (k_fs r) (k_con r) (k_pipes r) (k_ftable r) (k_devsw r) (k_csr r) (k_kernel_pagetable r) v (k_started r).
Definition set_k_started v r := mk_kst (k_fs r) (k_con r) (k_pipes r) (k_ftable r) (k_devsw r) (k_csr r) (k_kernel_pagetable r) (k_first r) v.

#[global] Instance sub_fss_kst : Sub fss kst.
Proof. refine {| sub_get := k_fs; sub_set := set_k_fs |}; [done|by intros []|done]. Defined.
#[global] Instance sub_lst_kst : Sub lst kst.
Proof.
  refine {| sub_get := fun s => fs_l (k_fs s);
            sub_set := fun v s => set_k_fs (set_fs_l v (k_fs s)) s |};
    [done|by intros [[]]|done].
Defined.
#[global] Instance sub_bst_kst : Sub bst kst.
Proof.
  refine {| sub_get := fun s => sub_get (k_fs s);
            sub_set := fun v s => set_k_fs (sub_set v (k_fs s)) s |};
    [done|by intros [[[]]]|done].
Defined.

Definition k_machine (s : kst) : machine := sub_get (k_fs s).
Definition set_k_machine (m : machine) (s : kst) : kst := set_k_fs (sub_set m (k_fs s)) s.

#[global] Instance sub_machine_kst : Sub machine kst.
Proof.
  refine {| sub_get := k_machine; sub_set := set_k_machine |}; [done|by intros [[[[]]]]|done].
Defined.
#[global] Instance sub_cst_kst : Sub cst kst.
Proof.
  refine {| sub_get := fun s => mk_cst (k_machine s) (k_con s);
            sub_set := fun v s => set_k_con (c_con v) (set_k_machine (c_m v) s) |};
    [by intros [] []|by intros [[[[]]]]|done].
Defined.
#[global] Instance sub_pst_kst : Sub pst kst.
Proof.
  refine {| sub_get := fun s => mk_pst (k_machine s) (k_pipes s);
            sub_set := fun v s => set_k_pipes (ps_pipes v) (set_k_machine (ps_m v) s) |};
    [by intros [] []|by intros [[[[]]]]|done].
Defined.

Definition file_zero : file := mk_file FD_NONE 0 0 0 0 None 0 0.
Definition get_file (f : nat) (s : kst) : file := default file_zero (k_ftable s !! f).
Definition file_get {A} (f : nat) (g : file -> A) : M kst A := reads (fun s => g (get_file f s)).
Definition file_set (f : nat) (g : file -> file) : M kst unit :=
  modify (fun s => set_k_ftable (<[f := g (get_file f s)]> (k_ftable s)) s).

(** A dereference of [f->ip]. *)
Definition file_ip (f : nat) : M kst nat :=
  ip <- file_get f f_ip ;; match ip with Some ip => ret ip | None => panic "kerneltrap" end.

Definition file_table : list nat := seq 0 (Z.to_nat NFILE).

Definition fileinit : M kst unit := lift (initlock Lk_ftable "ftable").

Definition filealloc : M kst (option nat) :=
  lift (acquire Lk_ftable) ;;;
  r <- scan file_table (fun f =>
    ref <- file_get f f_ref ;;
    if ref =? 0 then file_set f (set_f_ref 1) ;;; ret (Some f) else ret None) ;;
  lift (release Lk_ftable) ;;;
  ret r.

Definition kfiledup (f : nat) : M kst nat :=
  lift (acquire Lk_ftable) ;;;
  ref <- file_get f f_ref ;;
  if ref <? 1 then panic "filedup" else
  file_set f (set_f_ref (ref + 1)) ;;;
  lift (release Lk_ftable) ;;;
  ret f.

Section File.
Variable fuel : nat.
Variable kend : Z.

Definition kfileclose (f : nat) : M kst unit :=
  lift (acquire Lk_ftable) ;;;
  ref <- file_get f f_ref ;;
  if ref <? 1 then panic "fileclose" else
  file_set f (set_f_ref (ref - 1)) ;;;
  if ref - 1 >? 0 then lift (release Lk_ftable) else
  ff <- file_get f (fun x => x) ;;
  file_set f (set_f_ref 0) ;;;
  file_set f (set_f_type FD_NONE) ;;;
  lift (release Lk_ftable) ;;;
  match f_type ff with
  | FD_PIPE => lift (pipeclose kend (f_pipe ff) (f_writable ff))
  | FD_INODE | FD_DEVICE =>
      lift (log_begin_op fuel) ;;;
      match f_ip ff with Some ip => lift (fs_iput fuel ip) | None => panic "kerneltrap" end ;;;
      lift (log_end_op fuel)
  | FD_NONE => ret tt
  end.

#[global] Instance kst_fileops : FileOps kst := {|
  filedup := kfiledup;
  fileclose := kfileclose;
  idup := fun ip => lift (fs_idup ip);
  iput := fun ip => lift (fs_iput fuel ip);
  begin_op := lift (log_begin_op fuel);
  end_op := lift (log_end_op fuel);
  namei := fun path => lift (fs_namei fuel path)
|}.

Definition pipealloc : M kst (option (nat * nat)) :=
  f0 <- filealloc ;;
  match f0 with
  | None => ret None
  | Some f0 =>
      f1 <- filealloc ;;
      match f1 with
      | None => kfileclose f0 ;;; ret None
      | Some f1 =>
          pi <- lift pipe_new ;;
          if pi =? 0 then kfileclose f0 ;;; kfileclose f1 ;;; ret None else
          file_set f0 (set_f_type FD_PIPE) ;;;
          file_set f0 (set_f_readable 1) ;;;
          file_set f0 (set_f_writable 0) ;;;
          file_set f0 (set_f_pipe pi) ;;;
          file_set f1 (set_f_type FD_PIPE) ;;;
          file_set f1 (set_f_readable 0) ;;;
          file_set f1 (set_f_writable 1) ;;;
          file_set f1 (set_f_pipe pi) ;;;
          ret (Some (f0, f1))
      end
  end.

(** struct stat as it lies in memory: [dev] an int, [ino] a uint, [type] and
    [nlink] shorts, padding, [size] a uint64. *)
Definition stat_bytes (pad : list Z) (st : stat) : list Z :=
  le_bytes 4 (st_dev st) ++ le_bytes 4 (st_ino st) ++ le_bytes 2 (st_type st) ++
  le_bytes 2 (st_nlink st) ++ pad ++ le_bytes 8 (st_size st).

Definition filestat (pad : list Z) (f : nat) (addr : Z) : M kst Z :=
  p <- lift curproc ;;
  type <- file_get f f_type ;;
  match type with
  | FD_INODE | FD_DEVICE =>
      ip <- file_ip f ;;
      lift (ilock fuel ip) ;;;
      st <- lift (stati ip) ;;
      lift (iunlock ip) ;;;
      pagetable <- lift (proc_get p p_pagetable) ;;
      r <- lift (copyout pagetable addr (stat_bytes pad st)) ;;
      if r <? 0 then ret (-1) else ret 0
  | _ => ret (-1)
  end.

Definition has_device (major : Z) (devsw : list bool) : bool :=
  (0 <=? major) && (major <? NDEV) && default false (devsw !! Z.to_nat major).

Definition fileread (f : nat) (addr n : Z) : M kst Z :=
  x <- file_get f (fun x => x) ;;
  if f_readable x =? 0 then ret (-1) else
  match f_type x with
  | FD_PIPE => lift (piperead fuel (f_pipe x) addr n)
  | FD_DEVICE =>
      devsw <- reads k_devsw ;;
      if negb (has_device (f_major x) devsw) then ret (-1) else
      r <- lift (consoleread fuel (Duser addr) n) ;; ret r.1
  | FD_INODE =>
      ip <- file_ip f ;;
      lift (ilock fuel ip) ;;;
      off <- file_get f f_off ;;
      r <- lift (readi fuel ip (Duser addr) off (u32 n)) ;;
      when (r.1 >? 0) (file_set f (fun x => set_f_off (u32 (f_off x + r.1)) x)) ;;;
      lift (iunlock ip) ;;;
      ret r.1
  | FD_NONE => panic "fileread"
  end.

(** A transaction for each [max] bytes; a round that succeeds moves [n1 > 0]
    bytes, so [n] rounds are enough. *)
Definition filewrite_max : Z := ((MAXOPBLOCKS - 1 - 1 - 2) / 2) * BSIZE.

Fixpoint filewrite_loop (k : nat) (f : nat) (addr n i : Z) : M kst Z :=
  if negb (i <? n) then ret i else
  match k with
  | O => hang
  | S k =>
      let n1 := Z.min (n - i) filewrite_max in
      lift (log_begin_op fuel) ;;;
      ip <- file_ip f ;;
      lift (ilock fuel ip) ;;;
      off <- file_get f f_off ;;
      r <- lift (writei fuel ip (Suser (u64 (addr + i))) off n1) ;;
      when (r >? 0) (file_set f (fun x => set_f_off (u32 (f_off x + r)) x)) ;;;
      lift (iunlock ip) ;;;
      lift (log_end_op fuel) ;;;
      if negb (r =? n1) then ret i else filewrite_loop k f addr n (i + r)
  end.

Definition filewrite (f : nat) (addr n : Z) : M kst Z :=
  x <- file_get f (fun x => x) ;;
  if f_writable x =? 0 then ret (-1) else
  match f_type x with
  | FD_PIPE => lift (pipewrite fuel (f_pipe x) addr n)
  | FD_DEVICE =>
      devsw <- reads k_devsw ;;
      if negb (has_device (f_major x) devsw) then ret (-1) else
      lift (consolewrite fuel (Suser addr) n)
  | FD_INODE =>
      i <- filewrite_loop (Z.to_nat n) f addr n 0 ;;
      ret (if i =? n then n else -1)
  | FD_NONE => panic "filewrite"
  end.
End File.
