(* ===== verification/Sysfile.v ===== *)
(** * kernel/syscall.c (arguments), kernel/sysfile.c, kernel/exec.c

    The system calls on files, and [exec].  A result of -1 is the [uint64] of the
    same bits; [syscall] stores it in the trapframe. *)
From stdpp Require Import gmap list strings.
From S2P Require Import Prelude Kstring Abi Machine Spinlock Kalloc Vm Proc Sleeplock Virtio Bio Log Fs Console Pipe File.

(** ** Arguments *)

Definition load_tf (p : nat) (off : Z) : M machine Z :=
  tf <- proc_get p p_trapframe ;; load_word (tf + off).

Definition argraw (n : Z) : M machine Z :=
  p <- curproc ;;
  if (0 <=? n) && (n <=? 5) then load_tf p (TF_a n) else panic "argraw".

Definition argint (n : Z) : M machine Z := x <- argraw n ;; ret (i32 x).
Definition argaddr (n : Z) : M machine Z := argraw n.

Definition fetchaddr (addr : Z) : M machine (Z * Z) :=
  p <- curproc ;;
  sz <- proc_get p p_sz ;;
  if (addr >=? sz) || (u64 (addr + 8) >? sz) then ret (-1, 0) else
  pagetable <- proc_get p p_pagetable ;;
  r <- copyin pagetable addr 8 ;;
  if negb (r.1 =? 0) then ret (-1, 0) else ret (0, le_val r.2).

(** The length and the bytes copied, the nul included. *)
Definition fetchstr (addr max : Z) : M machine (Z * list Z) :=
  p <- curproc ;;
  pagetable <- proc_get p p_pagetable ;;
  r <- copyinstr pagetable addr max ;;
  if r.1 <? 0 then ret (r.1, r.2) else ret (Z.of_nat (length (cstr r.2)), r.2).

Definition argstr (n max : Z) : M machine (Z * list Z) :=
  addr <- argaddr n ;; fetchstr addr max.

(** ** Descriptors *)

(** A failure is [None]. *)
Definition argfd (n : Z) : M machine (option (Z * nat)) :=
  fd <- argint n ;;
  if (fd <? 0) || (fd >=? NOFILE) then ret None else
  p <- curproc ;;
  f <- proc_get p (fun x => default None (p_ofile x !! Z.to_nat fd)) ;;
  match f with None => ret None | Some f => ret (Some (fd, f)) end.

Definition fdalloc (f : nat) : M machine Z :=
  p <- curproc ;;
  r <- scan (seq 0 (Z.to_nat NOFILE)) (fun fd =>
    o <- proc_get p (fun x => default None (p_ofile x !! fd)) ;;
    match o with
    | None => proc_set p (fun x => set_p_ofile (<[fd := Some f]> (p_ofile x)) x) ;;; ret (Some (Z.of_nat fd))
    | Some _ => ret None
    end) ;;
  ret (default (-1) r).

Definition clear_fd (p : nat) (fd : Z) : M machine unit :=
  proc_set p (fun x => set_p_ofile (<[Z.to_nat fd := None]> (p_ofile x)) x).

Section Sysfile.
Variable fuel : nat.
Variables kend trampoline : Z.

Definition sys_dup : M kst Z :=
  r <- lift (argfd 0) ;;
  match r with
  | None => ret (-1)
  | Some (_, f) =>
      fd <- lift (fdalloc f) ;;
      if fd <? 0 then ret (-1) else
      kfiledup f ;;;
      ret fd
  end.

Definition sys_read : M kst Z :=
  r <- lift (argfd 0) ;;
  match r with
  | None => ret (-1)
  | Some (_, f) =>
      n <- lift (argint 2) ;;
      p <- lift (argaddr 1) ;;
      fileread fuel f p n
  end.

Definition sys_write : M kst Z :=
  r <- lift (argfd 0) ;;
  match r with
  | None => ret (-1)
  | Some (_, f) =>
      n <- lift (argint 2) ;;
      p <- lift (argaddr 1) ;;
      filewrite fuel f p n
  end.

Definition sys_close : M kst Z :=
  r <- lift (argfd 0) ;;
  match r with
  | None => ret (-1)
  | Some (fd, f) =>
      p <- lift curproc ;;
      lift (clear_fd p fd) ;;;
      kfileclose fuel kend f ;;;
      ret 0
  end.

Definition sys_fstat (pad : list Z) : M kst Z :=
  r <- lift (argfd 0) ;;
  match r with
  | None => ret (-1)
  | Some (_, f) => st <- lift (argaddr 1) ;; filestat fuel pad f st
  end.

(** ** Names *)

Definition begin_op_k : M kst unit := lift (log_begin_op fuel).
Definition end_op_k : M kst unit := lift (log_end_op fuel).

(** A failed call inside a transaction. *)
Definition fail_op : M kst Z := end_op_k ;;; ret (-1).

Definition link_undo (ip : nat) : M kst Z :=
  lift (ilock fuel ip) ;;;
  lift (inode_set ip (fun x => set_i_nlink (i16 (i_nlink x - 1)) x)) ;;;
  lift (iupdate fuel ip) ;;;
  lift (iunlockput fuel ip) ;;;
  fail_op.

Definition sys_link : M kst Z :=
  old <- lift (argstr 0 MAXPATH) ;;
  if old.1 <? 0 then ret (-1) else
  new <- lift (argstr 1 MAXPATH) ;;
  if new.1 <? 0 then ret (-1) else
  begin_op_k ;;;
  ip <- lift (fs_namei fuel (cstr old.2)) ;;
  match ip with
  | None => fail_op
  | Some ip =>
      lift (ilock fuel ip) ;;;
      type <- lift (inode_get ip i_type) ;;
      if type =? T_DIR then lift (iunlockput fuel ip) ;;; fail_op else
      lift (inode_set ip (fun x => set_i_nlink (i16 (i_nlink x + 1)) x)) ;;;
      lift (iupdate fuel ip) ;;;
      lift (iunlock ip) ;;;
      r <- lift (nameiparent fuel (cstr new.2)) ;;
      match r with
      | (None, _) => link_undo ip
      | (Some dp, name) =>
          lift (ilock fuel dp) ;;;
          dx <- lift (inode_get dp (fun x => x)) ;;
          x <- lift (inode_get ip (fun x => x)) ;;
          c <- (if negb (i_dev dx =? i_dev x) then ret (-1)
                else lift (dirlink fuel dp name (i_inum x))) ;;
          if c <? 0 then lift (iunlockput fuel dp) ;;; link_undo ip else
          lift (iunlockput fuel dp) ;;;
          lift (fs_iput fuel ip) ;;;
          end_op_k ;;;
          ret 0
      end
  end.

Fixpoint isdirempty_loop (k : nat) (dp : nat) (off : Z) : M fss bool :=
  size <- inode_get dp i_size ;;
  if negb (off <? size) then ret true else
  match k with
  | O => hang
  | S k =>
      r <- readi fuel dp Dkernel off DIRENT_SIZE ;;
      if negb (r.1 =? DIRENT_SIZE) then panic "isdirempty: readi" else
      if negb (de_inum r.2 =? 0) then ret false else
      isdirempty_loop k dp (off + DIRENT_SIZE)
  end.

Definition isdirempty (dp : nat) : M fss bool :=
  size <- inode_get dp i_size ;;
  isdirempty_loop (Z.to_nat (size / DIRENT_SIZE + 1)) dp (2 * DIRENT_SIZE).

Definition sys_unlink : M kst Z :=
  path <- lift (argstr 0 MAXPATH) ;;
  if path.1 <? 0 then ret (-1) else
  begin_op_k ;;;
  r <- lift (nameiparent fuel (cstr path.2)) ;;
  match r with
  | (None, _) => fail_op
  | (Some dp, name) =>
      let bad := lift (iunlockput fuel dp) ;;; fail_op in
      lift (ilock fuel dp) ;;;
      if (namecmp name (bytes_of ".") =? 0) || (namecmp name (bytes_of "..") =? 0) then bad else
      e <- lift (dirlookup fuel dp name) ;;
      match e with
      | None => bad
      | Some (ip, off) =>
          lift (ilock fuel ip) ;;;
          x <- lift (inode_get ip (fun x => x)) ;;
          if i_nlink x <? 1 then panic "unlink: nlink < 1" else
          empty <- (if i_type x =? T_DIR then lift (isdirempty ip) else ret true) ;;
          if negb empty then lift (iunlockput fuel ip) ;;; bad else
          w <- lift (writei fuel dp (Skernel (replicate (Z.to_nat DIRENT_SIZE) 0)) off DIRENT_SIZE) ;;
          if negb (w =? DIRENT_SIZE) then panic "unlink: writei" else
          type <- lift (inode_get ip i_type) ;;
          when (type =? T_DIR)
            (lift (inode_set dp (fun x => set_i_nlink (i16 (i_nlink x - 1)) x)) ;;; lift (iupdate fuel dp)) ;;;
          lift (iunlockput fuel dp) ;;;
          lift (inode_set ip (fun x => set_i_nlink (i16 (i_nlink x - 1)) x)) ;;;
          lift (iupdate fuel ip) ;;;
          lift (iunlockput fuel ip) ;;;
          end_op_k ;;;
          ret 0
      end
  end.

Definition create (path : list Z) (type major minor : Z) : M fss (option nat) :=
  r <- nameiparent fuel path ;;
  match r with
  | (None, _) => ret None
  | (Some dp, name) =>
      ilock fuel dp ;;;
      e <- dirlookup fuel dp name ;;
      match e with
      | Some (ip, _) =>
          iunlockput fuel dp ;;;
          ilock fuel ip ;;;
          t <- inode_get ip i_type ;;
          if (type =? T_FILE) && ((t =? T_FILE) || (t =? T_DEVICE)) then ret (Some ip)
          else iunlockput fuel ip ;;; ret None
      | None =>
          dev <- inode_get dp i_dev ;;
          ip <- ialloc fuel dev type ;;
          ilock fuel ip ;;;
          inode_set ip (set_i_major major) ;;;
          inode_set ip (set_i_minor minor) ;;;
          inode_set ip (set_i_nlink 1) ;;;
          iupdate fuel ip ;;;
          inum <- inode_get ip i_inum ;;
          when (type =? T_DIR)
            (inode_set dp (fun x => set_i_nlink (i16 (i_nlink x + 1)) x) ;;;
             iupdate fuel dp ;;;
             c <- dirlink fuel ip (bytes_of ".") inum ;;
             if c <? 0 then panic "create dots" else
             dinum <- inode_get dp i_inum ;;
             c <- dirlink fuel ip (bytes_of "..") dinum ;;
             if c <? 0 then panic "create dots" else ret tt) ;;;
          c <- dirlink fuel dp name inum ;;
          if c <? 0 then panic "create: dirlink" else
          iunlockput fuel dp ;;;
          ret (Some ip)
      end
  end.

Definition flag (omode bit : Z) : bool := negb (Z.land omode bit =? 0).

(** The inode to open, locked. *)
Definition open_inode (path : list Z) (omode : Z) : M kst (option nat) :=
  if flag omode O_CREATE then lift (create path T_FILE 0 0) else
  ip <- lift (fs_namei fuel path) ;;
  match ip with
  | None => ret None
  | Some ip =>
      lift (ilock fuel ip) ;;;
      type <- lift (inode_get ip i_type) ;;
      if (type =? T_DIR) && negb (omode =? O_RDONLY)
      then lift (iunlockput fuel ip) ;;; ret None
      else ret (Some ip)
  end.

(** The file and descriptor of [sys_open]. *)
Definition open_file : M kst (option (nat * Z)) :=
  f <- filealloc ;;
  match f with
  | None => ret None
  | Some f =>
      fd <- lift (fdalloc f) ;;
      if fd <? 0 then kfileclose fuel kend f ;;; ret None else ret (Some (f, fd))
  end.

Definition sys_open : M kst Z :=
  path <- lift (argstr 0 MAXPATH) ;;
  if path.1 <? 0 then ret (-1) else
  omode <- lift (argint 1) ;;
  begin_op_k ;;;
  ip <- open_inode (cstr path.2) omode ;;
  match ip with
  | None => fail_op
  | Some ip =>
      x <- lift (inode_get ip (fun x => x)) ;;
      if (i_type x =? T_DEVICE) && ((i_major x <? 0) || (i_major x >=? NDEV))
      then lift (iunlockput fuel ip) ;;; fail_op else
      o <- open_file ;;
      match o with
      | None => lift (iunlockput fuel ip) ;;; fail_op
      | Some (f, fd) =>
          (if i_type x =? T_DEVICE
           then file_set f (set_f_type FD_DEVICE) ;;; file_set f (set_f_major (i_major x))
           else file_set f (set_f_type FD_INODE) ;;; file_set f (set_f_off 0)) ;;;
          file_set f (set_f_ip (Some ip)) ;;;
          file_set f (set_f_readable (Z.b2z (negb (flag omode O_WRONLY)))) ;;;
          file_set f (set_f_writable (Z.b2z (flag omode O_WRONLY || flag omode O_RDWR))) ;;;
          when (flag omode O_TRUNC && (i_type x =? T_FILE)) (lift (itrunc fuel ip)) ;;;
          lift (iunlock ip) ;;;
          end_op_k ;;;
          ret fd
      end
  end.

Definition sys_mkdir : M kst Z :=
  begin_op_k ;;;
  path <- lift (argstr 0 MAXPATH) ;;
  if path.1 <? 0 then fail_op else
  ip <- lift (create (cstr path.2) T_DIR 0 0) ;;
  match ip with
  | None => fail_op
  | Some ip => lift (iunlockput fuel ip) ;;; end_op_k ;;; ret 0
  end.

Definition sys_mknod : M kst Z :=
  begin_op_k ;;;
  path <- lift (argstr 0 MAXPATH) ;;
  if path.1 <? 0 then fail_op else
  major <- lift (argint 1) ;;
  minor <- lift (argint 2) ;;
  ip <- lift (create (cstr path.2) T_DEVICE (i16 major) (i16 minor)) ;;
  match ip with
  | None => fail_op
  | Some ip => lift (iunlockput fuel ip) ;;; end_op_k ;;; ret 0
  end.

Definition sys_chdir : M kst Z :=
  p <- lift curproc ;;
  begin_op_k ;;;
  path <- lift (argstr 0 MAXPATH) ;;
  if path.1 <? 0 then fail_op else
  ip <- lift (fs_namei fuel (cstr path.2)) ;;
  match ip with
  | None => fail_op
  | Some ip =>
      lift (ilock fuel ip) ;;;
      type <- lift (inode_get ip i_type) ;;
      if negb (type =? T_DIR) then lift (iunlockput fuel ip) ;;; fail_op else
      lift (iunlock ip) ;;;
      cwd <- lift (proc_get p p_cwd) ;;
      match cwd with Some c => lift (fs_iput fuel c) | None => panic "kerneltrap" end ;;;
      end_op_k ;;;
      lift (proc_set p (set_p_cwd (Some ip))) ;;;
      ret 0
  end.

Definition sys_pipe : M kst Z :=
  p <- lift curproc ;;
  fdarray <- lift (argaddr 0) ;;
  r <- pipealloc fuel kend ;;
  match r with
  | None => ret (-1)
  | Some (rf, wf) =>
      let drop_files := kfileclose fuel kend rf ;;; kfileclose fuel kend wf ;;; ret (-1) in
      fd0 <- lift (fdalloc rf) ;;
      if fd0 <? 0 then drop_files else
      fd1 <- lift (fdalloc wf) ;;
      if fd1 <? 0 then lift (clear_fd p fd0) ;;; drop_files else
      pagetable <- lift (proc_get p p_pagetable) ;;
      c0 <- lift (copyout pagetable fdarray (le_bytes 4 fd0)) ;;
      c1 <- (if c0 <? 0 then ret (-1) else lift (copyout pagetable (u64 (fdarray + 4)) (le_bytes 4 fd1))) ;;
      if c1 <? 0
      then lift (clear_fd p fd0) ;;; lift (clear_fd p fd1) ;;; drop_files
      else ret 0
  end.

(** ** exec.c *)

Definition get_u64 (data : list Z) (off : nat) : Z := le_val (take 8 (drop off data)).

Definition ELF_MAGIC : Z := 0x464C457F.
Definition ELF_PROG_LOAD : Z := 1.
Definition ELFHDR_SIZE : Z := 64.
Definition PROGHDR_SIZE : Z := 56.

Record elfhdr := mk_elfhdr { elf_magic : Z; elf_entry : Z; elf_phoff : Z; elf_phnum : Z }.
Definition decode_elfhdr (d : list Z) : elfhdr :=
  mk_elfhdr (get_u32 d 0) (get_u64 d 24) (get_u64 d 32) (get_u16 d 56).

Record proghdr := mk_proghdr { ph_type : Z; ph_off : Z; ph_vaddr : Z; ph_filesz : Z; ph_memsz : Z }.
Definition decode_proghdr (d : list Z) : proghdr :=
  mk_proghdr (get_u32 d 0) (get_u64 d 8) (get_u64 d 16) (get_u64 d 32) (get_u64 d 40).

(** [readi] into the physical page. *)
Fixpoint loadseg_loop (k : nat) (pagetable va : Z) (ip : nat) (offset sz i : Z) : M kst Z :=
  if negb (i <? sz) then ret 0 else
  match k with
  | O => hang
  | S k =>
      pa <- lift (walkaddr pagetable (u64 (va + i))) ;;
      if pa =? 0 then panic "loadseg: address should exist" else
      let n := if sz - i <? PGSIZE then sz - i else PGSIZE in
      r <- lift (readi fuel ip Dkernel (u32 (offset + i)) n) ;;
      lift (modify (with_mem (fun mm => mwrite mm pa r.2))) ;;;
      if negb (r.1 =? n) then ret (-1) else
      loadseg_loop k pagetable va ip offset sz (u32 (i + PGSIZE))
  end.

Definition loadseg (pagetable va : Z) (ip : nat) (offset sz : Z) : M kst Z :=
  loadseg_loop (Z.to_nat (sz / PGSIZE + 1)) pagetable va ip offset sz 0.

(** The program headers: [false] where the code goes to [bad]; the size of the
    image so far is returned in both cases. *)
Fixpoint load_program (n : nat) (pagetable : Z) (ip : nat) (off sz : Z) : M kst (bool * Z) :=
  match n with
  | O => ret (true, sz)
  | S n =>
      r <- lift (readi fuel ip Dkernel (u32 off) PROGHDR_SIZE) ;;
      if negb (r.1 =? PROGHDR_SIZE) then ret (false, sz) else
      let ph := decode_proghdr r.2 in
      if negb (ph_type ph =? ELF_PROG_LOAD)
      then load_program n pagetable ip (i32 (off + PROGHDR_SIZE)) sz else
      if ph_memsz ph <? ph_filesz ph then ret (false, sz) else
      if u64 (ph_vaddr ph + ph_memsz ph) <? ph_vaddr ph then ret (false, sz) else
      sz1 <- lift (uvmalloc kend pagetable sz (u64 (ph_vaddr ph + ph_memsz ph))) ;;
      if sz1 =? 0 then ret (false, sz) else
      if negb (ph_vaddr ph mod PGSIZE =? 0) then ret (false, sz1) else
      c <- loadseg pagetable (ph_vaddr ph) ip (u32 (ph_off ph)) (u32 (ph_filesz ph)) ;;
      if c <? 0 then ret (false, sz1) else
      load_program n pagetable ip (i32 (off + PROGHDR_SIZE)) sz1
  end.

(** The argument strings pushed below [sp]; their addresses, or [None]. *)
Fixpoint push_args (argv : list (list Z)) (pagetable argc sp stackbase : Z) (ustack : list Z)
    : M machine (option (Z * list Z)) :=
  match argv with
  | [] => ret (Some (sp, ustack))
  | a :: argv =>
      if argc >=? MAXARG then ret None else
      let sp := u64 (sp - (Z.of_nat (length a) + 1)) in
      let sp := sp - sp mod 16 in
      if sp <? stackbase then ret None else
      c <- copyout pagetable sp (a ++ [0]) ;;
      if c <? 0 then ret None else
      push_args argv pagetable (argc + 1) sp stackbase (ustack ++ [sp])
  end.

(** The text after the last slash. *)
Fixpoint basename (last path : list Z) : list Z :=
  match path with
  | [] => last
  | c :: path => basename (if c =? SLASH then path else last) path
  end.

Definition exec_image (pagetable sz : Z) (elf : elfhdr) (path : list Z) (argv : list (list Z)) : M kst Z :=
  let bad sz := lift (proc_freepagetable kend pagetable sz) ;;; ret (-1) in
  p <- lift curproc ;;
  oldsz <- lift (proc_get p p_sz) ;;
  let sz := PGROUNDUP sz in
  sz1 <- lift (uvmalloc kend pagetable sz (u64 (sz + 2 * PGSIZE))) ;;
  if sz1 =? 0 then bad sz else
  let sz := sz1 in
  lift (uvmclear pagetable (u64 (sz - 2 * PGSIZE))) ;;;
  let stackbase := u64 (sz - PGSIZE) in
  let argc := Z.of_nat (length argv) in
  r <- lift (push_args argv pagetable 0 sz stackbase []) ;;
  match r with
  | None => bad sz
  | Some (sp, ustack) =>
      let sp := u64 (sp - (argc + 1) * 8) in
      let sp := sp - sp mod 16 in
      if sp <? stackbase then bad sz else
      c <- lift (copyout pagetable sp (concat (map (le_bytes 8) (ustack ++ [0])))) ;;
      if c <? 0 then bad sz else
      lift (store_tf p (TF_a 1) sp) ;;;
      lift (proc_set p (set_p_name (take 15 (basename path path)))) ;;;
      oldpagetable <- lift (proc_get p p_pagetable) ;;
      lift (proc_set p (set_p_pagetable pagetable)) ;;;
      lift (proc_set p (set_p_sz sz)) ;;;
      lift (store_tf p TF_epc (elf_entry elf)) ;;;
      lift (store_tf p TF_sp sp) ;;;
      lift (proc_freepagetable kend oldpagetable oldsz) ;;;
      ret argc
  end.

Definition exec (path : list Z) (argv : list (list Z)) : M kst Z :=
  p <- lift curproc ;;
  begin_op_k ;;;
  ip <- lift (fs_namei fuel path) ;;
  match ip with
  | None => fail_op
  | Some ip =>
      let bad := lift (iunlockput fuel ip) ;;; fail_op in
      lift (ilock fuel ip) ;;;
      r <- lift (readi fuel ip Dkernel 0 ELFHDR_SIZE) ;;
      if negb (r.1 =? ELFHDR_SIZE) then bad else
      let elf := decode_elfhdr r.2 in
      if negb (elf_magic elf =? ELF_MAGIC) then bad else
      pagetable <- lift (proc_pagetable kend trampoline p) ;;
      if pagetable =? 0 then bad else
      l <- load_program (Z.to_nat (elf_phnum elf)) pagetable ip (i32 (elf_phoff elf)) 0 ;;
      let '(ok, sz) := l in
      if negb ok then lift (proc_freepagetable kend pagetable sz) ;;; bad else
      lift (iunlockput fuel ip) ;;;
      end_op_k ;;;
      exec_image pagetable sz elf path argv
  end.

(** The pages of the arguments, freed in the order of [argv]. *)
Definition free_args (pages : list Z) : M machine unit := each pages (kfree kend).

(** The arguments read so far are [pages] with their strings [argv]; [None] where
    the code goes to [bad]. *)
Fixpoint fetch_args (k : nat) (uargv i : Z) (pages : list Z) (argv : list (list Z))
    : M machine (list Z * option (list (list Z))) :=
  match k with
  | O => ret (pages, None)
  | S k =>
      r <- fetchaddr (u64 (uargv + 8 * i)) ;;
      if r.1 <? 0 then ret (pages, None) else
      if r.2 =? 0 then ret (pages, Some argv) else
      page <- kalloc ;;
      if page =? 0 then ret (pages, None) else
      s <- fetchstr r.2 PGSIZE ;;
      modify (with_mem (fun mm => mwrite mm page s.2)) ;;;
      if s.1 <? 0 then ret (pages ++ [page], None) else
      fetch_args k uargv (i + 1) (pages ++ [page]) (argv ++ [cstr s.2])
  end.

Definition sys_exec : M kst Z :=
  path <- lift (argstr 0 MAXPATH) ;;
  if path.1 <? 0 then ret (-1) else
  uargv <- lift (argaddr 1) ;;
  a <- lift (fetch_args (Z.to_nat MAXARG) uargv 0 [] []) ;;
  match a with
  | (pages, None) => lift (free_args pages) ;;; ret (-1)
  | (pages, Some argv) =>
      r <- exec (cstr path.2) argv ;;
      lift (free_args pages) ;;;
      ret r
  end.
End Sysfile.
