(* ===== verification/Syscall.v ===== *)
(** * kernel/sysproc.c and the dispatch of kernel/syscall.c *)
From stdpp Require Import gmap list strings.
From S2P Require Import Prelude Kstring Abi Machine Spinlock Kalloc Vm Proc Sleeplock Virtio Bio Log Fs Console Pipe File Sysfile.

(** [while(ticks - ticks0 < n)]: unsigned, also for a negative [n]. *)
Fixpoint sys_sleep_loop (fuel : nat) (ticks0 n : Z) : M machine Z :=
  ticks <- reads m_ticks ;;
  if negb (u32 (ticks - ticks0) <? u32 n) then release Lk_ticks ;;; ret 0 else
  p <- curproc ;;
  killed <- proc_get p p_killed ;;
  if negb (killed =? 0) then release Lk_ticks ;;; ret (-1) else
  match fuel with
  | O => hang
  | S fuel => sleep Ch_ticks Lk_ticks ;;; sys_sleep_loop fuel ticks0 n
  end.

Definition sys_sleep (fuel : nat) : M machine Z :=
  n <- argint 0 ;;
  acquire Lk_ticks ;;;
  ticks0 <- reads m_ticks ;;
  sys_sleep_loop fuel ticks0 n.

Definition sys_getpid : M machine Z := p <- curproc ;; proc_get p p_pid.

Definition sys_wait (fuel : nat) (kend : Z) : M machine Z :=
  p <- argaddr 0 ;; wait kend fuel p.

Definition sys_sbrk (kend : Z) : M machine Z :=
  n <- argint 0 ;;
  p <- curproc ;;
  sz <- proc_get p p_sz ;;
  r <- growproc kend n ;;
  if r <? 0 then ret (-1) else ret (i32 sz).

Definition sys_kill : M machine Z := pid <- argint 0 ;; kill pid.

Definition sys_uptime : M machine Z :=
  acquire Lk_ticks ;;;
  xticks <- reads m_ticks ;;
  release Lk_ticks ;;;
  ret xticks.

(** The palette index of a colour; [/] and [%] truncate. *)
Definition pixel_index (r g b : Z) : Z :=
  let r := r - Z.rem r 64 in
  let g := Z.quot g 8 in
  let g := g - Z.rem g 4 in
  let b := Z.quot b 64 in
  u8 (r + g + b).

Definition sys_getmsg : M cst Z :=
  lift (acquire Lk_msg) ;;;
  k <- con_get (fun k => k) ;;
  if front k =? back k then lift (release Lk_msg) ;;; ret 0 else
  let c := zget (msgqueue k) (front k) in
  con_upd (set_front (increase (front k))) ;;;
  lift (release Lk_msg) ;;;
  ret c.

Definition sys_listenmsgs : M cst Z :=
  lift (acquire Lk_msg) ;;;
  l <- lift (argint 0) ;;
  con_upd (set_listening l) ;;;
  when (l =? 1) (con_upd (set_front 0) ;;; con_upd (set_back 0)) ;;;
  lift (release Lk_msg) ;;;
  ret 0.

Section Syscall.
Variable fuel : nat.
Variables kend trampoline forkret_addr : Z.
(** The four bytes of padding in the [struct stat] on the kernel stack. *)
Variable pad : list Z.

Definition kexit (status : Z) : M kst unit := exit (H0 := kst_fileops fuel kend) status.
Definition kfork : M kst Z := fork (H0 := kst_fileops fuel kend) kend trampoline forkret_addr.

Definition sys_exit : M kst Z := n <- lift (argint 0) ;; kexit n ;;; ret 0.
Definition sys_fork : M kst Z := kfork.

Definition sys_setpixel : M kst Z :=
  x <- lift (argint 0) ;;
  y <- lift (argint 1) ;;
  when ((x <? 0) || (y <? 0) || (x >=? WIDTH) || (y >=? HEIGHT))
    (lift (printf (bytes_of "setpixel error") []) ;;; kexit 0) ;;;
  r <- lift (argint 2) ;;
  g <- lift (argint 3) ;;
  b <- lift (argint 4) ;;
  lift (io_write (FRAMEBUFFER + WIDTH * y + x) (pixel_index r g b)) ;;;
  ret 0.

Definition syscalls (num : Z) : option (M kst Z) :=
  match num with
  | 1 => Some sys_fork
  | 2 => Some sys_exit
  | 3 => Some (lift (sys_wait fuel kend))
  | 4 => Some (sys_pipe fuel kend)
  | 5 => Some (sys_read fuel)
  | 6 => Some (lift sys_kill)
  | 7 => Some (sys_exec fuel kend trampoline)
  | 8 => Some (sys_fstat fuel pad)
  | 9 => Some (sys_chdir fuel)
  | 10 => Some sys_dup
  | 11 => Some (lift sys_getpid)
  | 12 => Some (lift (sys_sbrk kend))
  | 13 => Some (lift (sys_sleep fuel))
  | 14 => Some (lift sys_uptime)
  | 15 => Some (sys_open fuel kend)
  | 16 => Some (sys_write fuel)
  | 17 => Some (sys_mknod fuel)
  | 18 => Some (sys_unlink fuel)
  | 19 => Some (sys_link fuel)
  | 20 => Some (sys_mkdir fuel)
  | 21 => Some (sys_close fuel kend)
  | 22 => Some sys_setpixel
  | 23 => Some (lift sys_getmsg)
  | 24 => Some (lift sys_listenmsgs)
  | _ => None
  end.

Definition syscall : M kst unit :=
  p <- lift curproc ;;
  a7 <- lift (load_tf p (TF_a 7)) ;;
  let num := i32 a7 in
  match syscalls num with
  | Some f => r <- f ;; lift (store_tf p TF_a0 (u64 r))
  | None =>
      x <- lift (proc_get p (fun x => x)) ;;
      lift (printf (bytes_of "%d %s: unknown sys call %d" ++ [10])
              [Aint (p_pid x); Astr (Some (p_name x)); Aint num]) ;;;
      lift (store_tf p TF_a0 (u64 (-1)))
  end.
End Syscall.
