(* ===== verification/MsgQueue.v ===== *)
(** * The message queue of kernel/msg.c and kernel/sysproc.c as a bounded queue

    The circular array is refined by a list: [putmsg] appends and, when 128
    messages would be held, drops the oldest; [sys_getmsg] takes the oldest. *)
From stdpp Require Import gmap list strings.
From S2P Require Import Prelude Kstring Abi Machine Spinlock Kalloc Vm Proc Console Syscall.

(** ** Specification *)

Definition q_put (c : Z) (q : list Z) : list Z :=
  let q := q ++ [u8 c] in
  if Z.of_nat (length q) =? NMSG then tail q else q.

Definition q_get (q : list Z) : Z * list Z :=
  match q with [] => (0, []) | c :: q => (c, q) end.

Inductive msgop : Type := Put (c : Z) | Get.

Definition run_op (o : msgop) : M cst (list Z) :=
  match o with
  | Put c => putmsg c ;;; ret []
  | Get => c <- sys_getmsg ;; ret [c]
  end.

Fixpoint run_ops (l : list msgop) : M cst (list Z) :=
  match l with
  | [] => ret []
  | o :: l => a <- run_op o ;; b <- run_ops l ;; ret (a ++ b)
  end.

Fixpoint spec_ops (l : list msgop) (q : list Z) : list Z * list Z :=
  match l with
  | [] => ([], q)
  | Put c :: l => spec_ops l (q_put c q)
  | Get :: l => let '(c, q) := q_get q in let '(out, q) := spec_ops l q in (c :: out, q)
  end.

(** ** Representation *)

Record msg_rep (k : con) (q : list Z) : Prop := {
  mr_len : Z.of_nat (length (msgqueue k)) = NMSG;
  mr_front : 0 <= front k < NMSG;
  mr_back : back k = (front k + Z.of_nat (length q)) mod NMSG;
  mr_room : Z.of_nat (length q) < NMSG;
  mr_msgs : forall i, (i < length q)%nat ->
    q !! i = Some (zget (msgqueue k) ((front k + Z.of_nat i) mod NMSG))
}.

(** The lock is free and the hart is in order. *)
Definition msg_ready (m : machine) : Prop := hart_ok m /\ unlocked Lk_msg m.

Lemma msg_ready_settle m : msg_ready m -> msg_ready (settle m).
Proof. intros [H1 H2]. split; [by apply hart_ok_settle|done]. Qed.
#[export] Hint Resolve msg_ready_settle : machine.

Lemma con_upd_eq f m k : con_upd f (mk_cst m k) = Ok tt (mk_cst m (f k)).
Proof. reflexivity. Qed.

Lemma con_acquire l m k :
  unlocked l m -> lift (acquire l) (mk_cst m k) = Ok tt (mk_cst (hold l m) k).
Proof. intros H. erewrite lift_ok by (by apply acquire_ok). done. Qed.

Lemma con_release l m k :
  hart_ok m -> unlocked l m -> lift (release l) (mk_cst (hold l m) k) = Ok tt (mk_cst (settle m) k).
Proof. intros H1 H2. erewrite lift_ok by (by apply release_hold). done. Qed.

Lemma NMSG_eq : NMSG = 128.
Proof. reflexivity. Qed.

(** The slot behind the last message is outside of the queue. *)
Lemma slot_ne f n i :
  0 <= f < NMSG -> Z.of_nat n < NMSG -> (i < n)%nat ->
  (f + Z.of_nat n) mod NMSG <> (f + Z.of_nat i) mod NMSG.
Proof. rewrite NMSG_eq. intros. dlia. Qed.

(** The representation of the queue before the check for overflow. *)
Lemma put_slot k q c :
  msg_rep k q ->
  let k' := set_back (increase (back k)) (set_msgqueue (zset (msgqueue k) (back k) (u8 c)) k) in
  forall i, (i <= length q)%nat ->
    (q ++ [u8 c]) !! i = Some (zget (msgqueue k') ((front k' + Z.of_nat i) mod NMSG)).
Proof.
  intros [Hl Hf Hb Hr Hm] k' i Hi. unfold k'. cbn. rewrite Hb.
  assert (Hn : 0 <= (front k + Z.of_nat (length q)) mod NMSG < NMSG)
    by (rewrite NMSG_eq; apply Z.mod_pos_bound; lia).
  destruct (decide (i = length q)) as [->|Hne].
  - rewrite zget_zset_eq by lia. by rewrite list_lookup_middle.
  - rewrite lookup_app_l by lia. rewrite zget_zset_ne.
    + apply Hm. lia.
    + lia.
    + rewrite NMSG_eq. apply Z.mod_pos_bound. lia.
    + apply slot_ne; lia.
Qed.

Lemma putmsg_spec c m k q :
  msg_ready m -> msg_rep k q ->
  exists k', putmsg c (mk_cst m k) = Ok tt (mk_cst (settle m) k') /\ msg_rep k' (q_put c q).
Proof.
  intros [Ho Hu] Hrep. pose proof (put_slot k q c Hrep) as Hs. cbn zeta in Hs.
  unfold putmsg. mcall (con_acquire Lk_msg m k Hu).
  erewrite bind_ok by apply con_upd_eq. erewrite bind_ok by apply con_upd_eq.
  unfold con_get. rewrite bind_reads. cbn [c_con].
  set (k1 := set_back _ _) in *.
  assert (Hb1 : back k1 = (front k + Z.of_nat (length q) + 1) mod NMSG).
  { subst k1. cbn. rewrite (mr_back _ _ Hrep). unfold increase. rewrite NMSG_eq. dlia. }
  assert (Hl1 : Z.of_nat (length (msgqueue k1)) = NMSG)
    by (subst k1; cbn; rewrite length_zset; apply (mr_len _ _ Hrep)).
  change (front k1) with (front k) in *.
  destruct Hrep as [Hl Hf Hb Hr Hm]. unfold q_put. rewrite length_app. cbn [length].
  assert (Hov : (front k =? back k1) = (Z.of_nat (length q + 1) =? NMSG)).
  { rewrite Hb1. rewrite NMSG_eq in *. destruct (Z.eqb_spec (Z.of_nat (length q + 1)) 128).
    - apply Z.eqb_eq. dlia.
    - apply Z.eqb_neq. dlia. }
  rewrite Hov. destruct (Z.eqb_spec (Z.of_nat (length q + 1)) NMSG) as [E|E]; unfold when.
  - erewrite bind_ok by apply con_upd_eq. rewrite (con_release Lk_msg m _ Ho Hu).
    eexists. split; [reflexivity|]. split; cbn [front set_front back msgqueue].
    + done.
    + unfold increase. rewrite NMSG_eq. apply Z.mod_pos_bound. lia.
    + rewrite Hb1. unfold increase. change (front k1) with (front k).
      replace (length (tail (q ++ [u8 c]))) with (length q) by (destruct q; cbn; rewrite ?length_app; cbn; lia).
      rewrite NMSG_eq in *. dlia.
    + destruct q; cbn in *; rewrite ?length_app; cbn; lia.
    + intros i Hi. rewrite lookup_tail.
      replace (increase (front k1) + Z.of_nat i) with (increase (front k) + Z.of_nat i) by done.
      rewrite Hs.
      * f_equal. f_equal. unfold increase. rewrite NMSG_eq. change (front k1) with (front k). dlia.
      * destruct q; cbn in *; rewrite ?length_app in Hi; cbn in Hi; lia.
  - rewrite bind_ret. rewrite (con_release Lk_msg m _ Ho Hu).
    eexists. split; [reflexivity|]. split; [done|done| | |].
    + rewrite Hb1, length_app. cbn. f_equal. change (front k1) with (front k). lia.
    + rewrite length_app. cbn. lia.
    + intros i Hi. rewrite length_app in Hi. cbn in Hi. apply Hs. lia.
Qed.

Lemma getmsg_spec m k q :
  msg_ready m -> msg_rep k q ->
  exists k', sys_getmsg (mk_cst m k) = Ok (q_get q).1 (mk_cst (settle m) k') /\
             msg_rep k' (q_get q).2.
Proof.
  intros [Ho Hu] Hrep. unfold sys_getmsg. mcall (con_acquire Lk_msg m k Hu).
  unfold con_get. rewrite bind_reads. cbn [c_con].
  assert (Hem : (front k =? back k) = bool_decide (q = [])).
  { destruct Hrep as [Hl Hf Hb Hr Hm]. rewrite Hb. rewrite NMSG_eq in *.
    destruct q as [|c q]; cbn [length] in *.
    - rewrite bool_decide_true by done. apply Z.eqb_eq. dlia.
    - rewrite bool_decide_false by done. apply Z.eqb_neq. dlia. }
  rewrite Hem. destruct q as [|c q]; [rewrite bool_decide_true by done|rewrite bool_decide_false by done].
  - erewrite bind_ok by (by apply con_release). exists k. done.
  - erewrite bind_ok by apply con_upd_eq. erewrite bind_ok by (by apply con_release).
    destruct Hrep as [Hl Hf Hb Hr Hm]. rewrite NMSG_eq in *.
    assert (Hc : zget (msgqueue k) (front k) = c).
    { specialize (Hm O ltac:(cbn; lia)). cbn in Hm. rewrite Z.add_0_r, Z.mod_small in Hm by lia. congruence. }
    rewrite Hc. eexists. split; [reflexivity|]. split; cbn [front set_front msgqueue back q_get snd length].
    + done.
    + unfold increase. rewrite NMSG_eq. apply Z.mod_pos_bound. lia.
    + rewrite Hb. unfold increase. rewrite NMSG_eq. cbn [length]. dlia.
    + rewrite NMSG_eq. cbn [length] in Hr. lia.
    + intros i Hi. specialize (Hm (S i) ltac:(cbn in *; lia)). etrans; [exact Hm|]. do 2 f_equal.
      unfold increase. rewrite NMSG_eq. dlia.
Qed.

(** ** Theorems *)

Lemma run_ops_spec ops m k q :
  msg_ready m -> msg_rep k q ->
  exists m' k',
    run_ops ops (mk_cst m k) = Ok (spec_ops ops q).1 (mk_cst m' k') /\
    msg_ready m' /\ msg_rep k' (spec_ops ops q).2.
Proof.
  revert m k q. induction ops as [|o ops IH]; intros m k q Hm Hrep; [by exists m, k|].
  cbn [run_ops]. destruct o as [c|]; cbn [run_op spec_ops].
  - destruct (putmsg_spec c m k q Hm Hrep) as (k1 & E1 & R1).
    destruct (IH (settle m) k1 (q_put c q) (msg_ready_settle _ Hm) R1) as (m2 & k2 & E2 & H2).
    exists m2, k2. split; [|done]. erewrite bind_ok; [|erewrite bind_ok by exact E1; done].
    erewrite bind_ok by exact E2. done.
  - destruct (getmsg_spec m k q Hm Hrep) as (k1 & E1 & R1).
    destruct (q_get q) as [c q1] eqn:Eq. cbn [fst snd] in *.
    destruct (IH (settle m) k1 q1 (msg_ready_settle _ Hm) R1) as (m2 & k2 & E2 & H2).
    exists m2, k2. destruct (spec_ops ops q1) as [out q2] eqn:Es. cbn [fst snd] in *. split; [|done].
    erewrite bind_ok; [|erewrite bind_ok by exact E1; done].
    erewrite bind_ok by exact E2. done.
Qed.

(** C30. Every sequence of [putmsg] and [sys_getmsg] behaves as a first-in first-out
    queue that keeps the 127 newest messages, one less than the 128 that the comment of
    [NMSG] in msg.h gives as the maximum: the values the calls return and the
    messages left are those of the list. *)
Theorem msgqueue_refines ops m k q :
  msg_ready m -> msg_rep k q ->
  exists m' k',
    run_ops ops (mk_cst m k) = Ok (spec_ops ops q).1 (mk_cst m' k') /\
    msg_ready m' /\ msg_rep k' (spec_ops ops q).2.
Proof. apply run_ops_spec. Qed.

(** The newest messages of a list. *)
Definition newest (n : nat) (l : list Z) : list Z := drop (length l - n) l.

Lemma q_put_newest c l :
  q_put c (newest 127 l) = newest 127 (l ++ [u8 c]).
Proof.
  unfold q_put, newest. rewrite !length_app, length_drop. cbn [length]. rewrite NMSG_eq.
  destruct (Z.eqb_spec (Z.of_nat (length l - (length l - 127) + 1)) 128) as [E|E].
  - replace (length l + 1 - 127)%nat with (1 + (length l - 127))%nat by lia.
    rewrite Nat.add_comm, <- drop_drop, drop_app_le by lia.
    destruct (drop (length l - 127) l) as [|x r] eqn:Ed.
    + apply (f_equal length) in Ed. rewrite length_drop in Ed. cbn in Ed. lia.
    + done.
  - replace (length l + 1 - 127)%nat with O by lia.
    by replace (length l - 127)%nat with O by lia.
Qed.

Lemma spec_puts cs l :
  spec_ops (map Put cs) (newest 127 l) = ([], newest 127 (l ++ map u8 cs)).
Proof.
  revert l. induction cs as [|c cs IH]; intros l; cbn [map spec_ops]; [by rewrite app_nil_r|].
  rewrite q_put_newest, IH, <- app_assoc. done.
Qed.

(** Whatever is typed while nobody reads, the queue holds the last 127
    characters in the order in which they were typed. *)
Theorem putmsg_keeps_newest cs m k :
  msg_ready m -> msg_rep k [] ->
  exists m' k',
    run_ops (map Put cs) (mk_cst m k) = Ok [] (mk_cst m' k') /\ msg_rep k' (newest 127 (map u8 cs)).
Proof.
  intros Hm Hrep. destruct (run_ops_spec (map Put cs) m k [] Hm Hrep) as (m' & k' & E & _ & R).
  pose proof (spec_puts cs []) as Es. change (newest 127 []) with (@nil Z) in Es.
  rewrite Es in E, R. eauto.
Qed.

(** A machine on which the queue was initialised, and the empty queue. *)
Definition msg_machine : machine :=
  set_lock Lk_msg (mk_spinlock 0 "msg" None) boot_machine.
Definition msg_empty : con :=
  mk_con [] [] 0 0 (replicate 32 0) 0 0 (replicate 128 0) 0 0 0 (replicate 128 0) 1 0 0.

Lemma msg_machine_ready : msg_ready msg_machine.
Proof. split; [by split; vm_compute|]. exists "msg"%string. reflexivity. Qed.

Lemma msg_empty_rep : msg_rep msg_empty [].
Proof. split; try done. cbn. intros i Hi. lia. Qed.

Lemma msgqueue_refines_witness :
  exists m' k',
    run_ops [Put 97; Put 98; Get; Put 99; Get; Get; Get] (mk_cst msg_machine msg_empty)
      = Ok [97; 98; 99; 0] (mk_cst m' k') /\ msg_rep k' [].
Proof.
  destruct (msgqueue_refines [Put 97; Put 98; Get; Put 99; Get; Get; Get] _ _ _
              msg_machine_ready msg_empty_rep) as (m' & k' & E & _ & R).
  exists m', k'. split; [exact E|exact R].
Defined.

Lemma putmsg_keeps_newest_witness :
  exists m' k',
    run_ops (map Put (replicate 130 7)) (mk_cst msg_machine msg_empty) = Ok [] (mk_cst m' k') /\
    msg_rep k' (replicate 127 7).
Proof. exact (putmsg_keeps_newest (replicate 130 7) _ _ msg_machine_ready msg_empty_rep). Defined.
