(* ===== verification/Trap.v ===== *)
(** * kernel/trap.c, forkret and scheduler of kernel/proc.c, kernel/main.c, kernel/start.c

    Traps, the switches between the scheduler and the kernel threads, and the
    boot sequence.  The addresses of assembly labels are parameters, as is what a
    process does in user mode until its next trap. *)
From stdpp Require Import gmap list strings.
From S2P Require Import Prelude Kstring Abi Machine Spinlock Kalloc Vm Proc Sleeplock Virtio Bio Log Fs Console Pipe File Sysfile Syscall.

Definition csr_get {A} (f : csr -> A) : M kst A := reads (fun s => f (k_csr s)).
Definition csr_upd (f : csr -> csr) : M kst unit := modify (fun s => set_k_csr (f (k_csr s)) s).

Definition trapinit : M kst unit := lift (initlock Lk_ticks "time").

Definition clockintr : M machine unit :=
  acquire Lk_ticks ;;;
  modify (fun m => set_m_ticks (u32 (m_ticks m + 1)) m) ;;;
  wakeup (Some Ch_ticks) ;;;
  release Lk_ticks.

Definition devintr : M kst Z :=
  scause <- csr_get r_scause ;;
  if negb (Z.land scause 0x8000000000000000 =? 0) && (Z.land scause 0xff =? 9) then
    irq <- lift plic_claim ;;
    (if irq =? UART0_IRQ then lift uartintr
     else if irq =? VIRTIO0_IRQ then lift virtio_disk_intr
     else if irq =? 6969 then ret tt
     else when (negb (irq =? 0))
            (lift (printf (bytes_of "unexpected interrupt irq=%d" ++ [10]) [Aint irq]))) ;;;
    when (negb (irq =? 0)) (lift (plic_complete irq)) ;;;
    ret 1
  else if scause =? 0x8000000000000001 then
    hart <- lift cpuid ;;
    when (hart =? 0) (lift clockintr) ;;;
    csr_upd (fun r => set_r_sip (Z.land (r_sip r) (Z.lnot 2)) r) ;;;
    ret 2
  else ret 0.

Section Trap.
Variable fuel : nat.
Variables kend etext trampoline uservec userret usertrap_addr kernelvec forkret_addr : Z.
Variable pad : list Z.

Definition trapinithart : M kst unit := csr_upd (set_r_stvec kernelvec).

(** The values passed to [userret] are those the hart goes to user mode with. *)
Definition usertrapret : M kst (Z * Z) :=
  p <- lift curproc ;;
  lift intr_off ;;;
  csr_upd (set_r_stvec (TRAMPOLINE + (uservec - trampoline))) ;;;
  satp <- csr_get r_satp ;;
  kstack <- lift (proc_get p p_kstack) ;;
  tp <- lift cpuid ;;
  lift (store_tf p TF_kernel_satp satp) ;;;
  lift (store_tf p TF_kernel_sp (u64 (kstack + PGSIZE))) ;;;
  lift (store_tf p TF_kernel_trap usertrap_addr) ;;;
  lift (store_tf p TF_kernel_hartid tp) ;;;
  lift (modify (with_hart (fun h =>
    set_h_sstatus (Z.lor (Z.land (h_sstatus h) (Z.lnot SSTATUS_SPP)) SSTATUS_SPIE) h))) ;;;
  epc <- lift (load_tf p TF_epc) ;;
  csr_upd (set_r_sepc epc) ;;;
  pagetable <- lift (proc_get p p_pagetable) ;;
  ret (TRAPFRAME, MAKE_SATP pagetable).

Definition usertrap : M kst (Z * Z) :=
  sstatus <- lift (reads (fun m => h_sstatus (m_hart m))) ;;
  if negb (Z.land sstatus SSTATUS_SPP =? 0) then panic "usertrap: not from user mode" else
  csr_upd (set_r_stvec kernelvec) ;;;
  p <- lift curproc ;;
  sepc <- csr_get r_sepc ;;
  lift (store_tf p TF_epc sepc) ;;;
  scause <- csr_get r_scause ;;
  which_dev <-
    (if scause =? 8 then
       killed <- lift (proc_get p p_killed) ;;
       when (negb (killed =? 0)) (kexit fuel kend (-1)) ;;;
       epc <- lift (load_tf p TF_epc) ;;
       lift (store_tf p TF_epc (u64 (epc + 4))) ;;;
       lift intr_on ;;;
       syscall fuel kend trampoline forkret_addr pad ;;;
       ret 0
     else
       which_dev <- devintr ;;
       if negb (which_dev =? 0) then ret which_dev else
       pid <- lift (proc_get p p_pid) ;;
       scause <- csr_get r_scause ;;
       lift (printf (bytes_of "usertrap(): unexpected scause %p pid=%d" ++ [10]) [Aptr scause; Aint pid]) ;;;
       sepc <- csr_get r_sepc ;;
       stval <- csr_get r_stval ;;
       lift (printf (bytes_of "            sepc=%p stval=%p" ++ [10]) [Aptr sepc; Aptr stval]) ;;;
       lift (proc_set p (set_p_killed 1)) ;;;
       ret 0) ;;
  killed <- lift (proc_get p p_killed) ;;
  when (negb (killed =? 0)) (kexit fuel kend (-1)) ;;;
  when (which_dev =? 2) (lift yield) ;;;
  usertrapret.

Definition kerneltrap : M kst unit :=
  sepc <- csr_get r_sepc ;;
  sstatus <- lift (reads (fun m => h_sstatus (m_hart m))) ;;
  scause <- csr_get r_scause ;;
  if Z.land sstatus SSTATUS_SPP =? 0 then panic "kerneltrap: not from supervisor mode" else
  on <- lift intr_get ;;
  if on : bool then panic "kerneltrap: interrupts enabled" else
  which_dev <- devintr ;;
  if which_dev =? 0 then
    lift (printf (bytes_of "scause %p" ++ [10]) [Aptr scause]) ;;;
    sepc <- csr_get r_sepc ;;
    stval <- csr_get r_stval ;;
    lift (printf (bytes_of "sepc=%p stval=%p" ++ [10]) [Aptr sepc; Aptr stval]) ;;;
    panic "kerneltrap"
  else
  when (which_dev =? 2)
    (p <- lift myproc ;;
     match p with
     | None => ret tt
     | Some _ =>
         p <- lift curproc ;;
         st <- lift (proc_get p p_state) ;;
         when (bool_decide (st = RUNNING)) (lift yield)
     end) ;;;
  csr_upd (set_r_sepc sepc) ;;;
  lift (modify (with_hart (set_h_sstatus sstatus))).

Definition forkret : M kst (Z * Z) :=
  p <- lift curproc ;;
  lift (release (Lk_proc p)) ;;;
  first <- reads k_first ;;
  when (negb (first =? 0))
    (modify (set_k_first 0) ;;; lift (fsinit fuel ROOTDEV)) ;;;
  usertrapret.

(** ** Threads

    [swtch] saves the caller's registers in its [context] and loads those of the
    other side.  What the registers saved by [sched] stand for is the resumption
    kept in [threads]; the return address tells it from a process that has not
    run yet, whose context [allocproc] made to start in [forkret]. *)
Definition thread : Type := kst -> res kst (Z * Z).
Record sys := mk_sys { sy_k : kst; sy_threads : gmap nat thread }.

Inductive outcome : Type := Back (s : sys) | Panicked (msg : string) | Stuck.

Definition obind (o : outcome) (f : sys -> outcome) : outcome :=
  match o with Back s => f s | Panicked m => Panicked m | Stuck => Stuck end.

(** A step of the scheduler's own code, which never switches by itself. *)
Definition own_step (m : M kst unit) (s : sys) : outcome :=
  match m (sy_k s) with
  | Ok _ k => Back (mk_sys k (sy_threads s))
  | Panic msg => Panicked msg
  | Hang => Stuck
  | Swtch _ _ => Stuck
  end.

(** [user p] is what process [p] does in user mode up to its next trap; [sched_ra]
    is the address in [sched] to which [swtch] returns. *)
Variable user : nat -> kst -> kst.
Variable sched_ra : Z.

Definition set_ra (ra : Z) (c : context) : context :=
  mk_context ra (ctx_sp c) (ctx_s0 c) (ctx_s1 c) (ctx_s2 c) (ctx_s3 c) (ctx_s4 c) (ctx_s5 c) (ctx_s6 c) (ctx_s7 c)
    (ctx_s8 c) (ctx_s9 c) (ctx_s10 c) (ctx_s11 c).

(** The thread runs, in the kernel and between traps in user mode, until it
    switches back; [n] bounds its returns to user mode. *)
Fixpoint run_thread (n : nat) (p : nat) (threads : gmap nat thread) (r : res kst (Z * Z)) : outcome :=
  match r with
  | Panic msg => Panicked msg
  | Hang => Stuck
  | Swtch k resume =>
      let m := upd_proc p (fun x => set_p_context (set_ra sched_ra (p_context x)) x) (k_machine k) in
      Back (mk_sys (set_k_machine m k) (<[p := resume]> threads))
  | Ok _ k =>
      match n with
      | O => Stuck
      | S n => run_thread n p threads (usertrap (user p k))
      end
  end.

Definition swtch_to (n : nat) (p : nat) (s : sys) : outcome :=
  let c := p_context (get_proc (k_machine (sy_k s)) p) in
  if ctx_ra c =? forkret_addr then run_thread n p (sy_threads s) (forkret (sy_k s))
  else match sy_threads s !! p with
       | Some resume => run_thread n p (sy_threads s) (resume (sy_k s))
       | None => Stuck
       end.

Definition set_cpu_proc (p : option nat) : M kst unit := lift (modify (with_hart (set_h_proc p))).

(** One process of a scheduler round. *)
Definition schedule_one (n : nat) (p : nat) (s : sys) : outcome :=
  obind (own_step (lift (acquire (Lk_proc p))) s) (fun s =>
  obind (if decide (p_state (get_proc (k_machine (sy_k s)) p) = RUNNABLE) then
           obind (own_step (lift (proc_set p (set_p_state RUNNING)) ;;; set_cpu_proc (Some p)) s) (fun s =>
           obind (swtch_to n p s) (own_step (set_cpu_proc None)))
         else Back s)
        (own_step (lift (release (Lk_proc p))))).

Fixpoint schedule_round (n : nat) (l : list nat) (s : sys) : outcome :=
  match l with
  | [] => Back s
  | p :: l => obind (schedule_one n p s) (schedule_round n l)
  end.

(** [rounds] passes of [for(;;)]. *)
Fixpoint scheduler_loop (rounds n : nat) (s : sys) : outcome :=
  match rounds with
  | O => Back s
  | S rounds =>
      obind (own_step (lift intr_on) s) (fun s =>
      obind (schedule_round n proc_table s) (scheduler_loop rounds n))
  end.

Definition scheduler (rounds n : nat) (s : sys) : outcome :=
  obind (own_step (set_cpu_proc None) s) (scheduler_loop rounds n).

(** ** Boot *)

Definition kvmmake : M machine Z :=
  kpgtbl <- kalloc ;;
  zero_page kpgtbl ;;;
  let RW := Z.lor PTE_R PTE_W in
  kvmmap kpgtbl UART0 UART0 PGSIZE RW ;;;
  kvmmap kpgtbl VIRTIO0 VIRTIO0 PGSIZE RW ;;;
  kvmmap kpgtbl 0x30000000 0x30000000 0x10000000 RW ;;;
  kvmmap kpgtbl FRAMEBUFFER FRAMEBUFFER 0x1000000 RW ;;;
  kvmmap kpgtbl VGA0 VGA0 0x10000 RW ;;;
  kvmmap kpgtbl PLIC PLIC 0x400000 RW ;;;
  kvmmap kpgtbl KERNBASE KERNBASE (etext - KERNBASE) (Z.lor PTE_R PTE_X) ;;;
  kvmmap kpgtbl etext etext (PHYSTOP - etext) RW ;;;
  kvmmap kpgtbl TRAMPOLINE trampoline PGSIZE (Z.lor PTE_R PTE_X) ;;;
  proc_mapstacks kpgtbl ;;;
  ret kpgtbl.

Definition kvminit : M kst unit :=
  kpgtbl <- lift kvmmake ;; modify (set_k_kernel_pagetable kpgtbl).

Definition kvminithart : M kst unit :=
  kpgtbl <- reads k_kernel_pagetable ;; csr_upd (set_r_satp (MAKE_SATP kpgtbl)).

(** The part of [consoleinit] that connects the device functions. *)
Definition connect_console : M kst unit :=
  modify (fun s => set_k_devsw (<[Z.to_nat CONSOLE := true]> (k_devsw s)) s).

Definition puts (s : string) : M kst unit := lift (printf (bytes_of s) []).

(** [main] up to the call of [scheduler]; [disk_pages] is the memory of the
    descriptor rings.  A hart other than 0 waits for [started]. *)
Definition main (disk_pages : Z) : M kst unit :=
  hart <- lift cpuid ;;
  if hart =? 0 then
    lift consoleinit ;;;
    connect_console ;;;
    lift printfinit ;;;
    lift (printf [10] []) ;;;
    lift (printf (bytes_of "xv6 kernel is booting" ++ [10]) []) ;;;
    lift (printf [10] []) ;;;
    lift (kinit kend) ;;;
    kvminit ;;;
    kvminithart ;;;
    lift procinit ;;;
    trapinit ;;;
    trapinithart ;;;
    lift plicinit ;;;
    lift plicinithart ;;;
    lift binit ;;;
    lift iinit ;;;
    fileinit ;;;
    lift pciinit ;;;
    lift (virtio_disk_init disk_pages) ;;;
    userinit (H0 := kst_fileops fuel kend) kend trampoline forkret_addr ;;;
    modify (set_k_started 1)
  else
    started <- reads k_started ;;
    if started =? 0 then hang else
    lift (printf (bytes_of "hart %d starting" ++ [10]) [Aint hart]) ;;;
    kvminithart ;;;
    trapinithart ;;;
    lift plicinithart.
End Trap.

(** ** start.c: machine mode *)

Definition CLINT : Z := 0x2000000.
Definition CLINT_MTIMECMP (hartid : Z) : Z := CLINT + 0x4000 + 8 * hartid.
Definition CLINT_MTIME : Z := CLINT + 0xBFF8.

Definition MSTATUS_MPP_MASK : Z := Z.shiftl 3 11.
Definition MSTATUS_MPP_S : Z := Z.shiftl 1 11.
Definition MSTATUS_MIE : Z := Z.shiftl 1 3.
Definition SIE_SEIE : Z := Z.shiftl 1 9.
Definition SIE_STIE : Z := Z.shiftl 1 5.
Definition SIE_SSIE : Z := Z.shiftl 1 1.
Definition MIE_MTIE : Z := Z.shiftl 1 7.

(** The registers of machine mode; [m_mtime] and [m_mtimecmp] are the CLINT's. *)
Record mstate := mk_mstate {
  m_mstatus : Z; m_mepc : Z; m_satp : Z; m_medeleg : Z; m_mideleg : Z; m_sie : Z;
  m_pmpaddr0 : Z; m_pmpcfg0 : Z; m_mhartid : Z; m_tp : Z; m_mscratch : Z; m_mtvec : Z; m_mie : Z;
  m_mtime : Z; m_mtimecmp : Z; m_scratch : list Z
}.

Section Start.
Variables main_addr timervec timer_scratch : Z.

Definition timerinit (r : mstate) : mstate :=
  let id := i32 (m_mhartid r) in
  let interval := 1000000 in
  let mtimecmp := u64 (m_mtime r + interval) in
  let scratch := zset (zset (m_scratch r) 3 (CLINT_MTIMECMP id)) 4 interval in
  mk_mstate (Z.lor (m_mstatus r) MSTATUS_MIE) (m_mepc r) (m_satp r) (m_medeleg r) (m_mideleg r) (m_sie r)
    (m_pmpaddr0 r) (m_pmpcfg0 r) (m_mhartid r) (m_tp r) (timer_scratch + 40 * id) timervec
    (Z.lor (m_mie r) MIE_MTIE) (m_mtime r) mtimecmp scratch.

(** The state in which [mret] enters [main] in supervisor mode. *)
Definition start (r : mstate) : mstate :=
  let mstatus := Z.lor (Z.land (m_mstatus r) (Z.lnot MSTATUS_MPP_MASK)) MSTATUS_MPP_S in
  let sie := Z.lor (Z.lor (Z.lor (m_sie r) SIE_SEIE) SIE_STIE) SIE_SSIE in
  let r := timerinit (mk_mstate mstatus main_addr 0 0xffff 0xffff sie 0x3fffffffffffff 0xf
    (m_mhartid r) (m_tp r) (m_mscratch r) (m_mtvec r) (m_mie r) (m_mtime r) (m_mtimecmp r) (m_scratch r)) in
  mk_mstate (m_mstatus r) (m_mepc r) (m_satp r) (m_medeleg r) (m_mideleg r) (m_sie r) (m_pmpaddr0 r)
    (m_pmpcfg0 r) (m_mhartid r) (i32 (m_mhartid r)) (m_mscratch r) (m_mtvec r) (m_mie r) (m_mtime r)
    (m_mtimecmp r) (m_scratch r).
End Start.
