(* ===== verification/Color.v ===== *)
(** * Colours: the palette of kernel/vga.c and the pixels of sys_setpixel

    [vgainit] loads the 256 colours of the palette through one port, three values
    each; [sys_setpixel] turns a colour into an index of that palette.  Together they
    determine which colour is seen. *)
From stdpp Require Import gmap list strings.
From S2P Require Import Prelude Kstring Abi Machine Spinlock Kalloc Vm Proc Sleeplock Virtio Bio Log Fs Console Pipe File Sysfile Syscall.

(** The port that takes the colours. *)
Definition DAC : Z := VGA0 + 0x3c9.
Definition dac_values (out : list (Z * Z)) : list Z := snd <$> filter (fun w => w.1 = DAC) out.

(** [m] reads [k] values from devices and sends [vs] to the palette. *)
Definition sends (k : nat) (vs : list Z) (m : M cst unit) : Prop :=
  forall s, (k <= length (io_in (c_con s)))%nat ->
  exists s' w, m s = Ok tt s' /\ io_in (c_con s') = drop k (io_in (c_con s)) /\
    io_out (c_con s') = io_out (c_con s) ++ w /\ dac_values w = vs.

Lemma sends_ret : sends 0 [] (ret tt).
Proof. intros s _. exists s, []. by rewrite app_nil_r. Qed.

Lemma sends_bind j k vs ws m n : sends j vs m -> sends k ws n -> sends (j + k) (vs ++ ws) (m ;;; n).
Proof.
  intros Hm Hn s Hs. destruct (Hm s) as (s1 & w1 & E1 & I1 & O1 & D1); [lia|].
  destruct (Hn s1) as (s2 & w2 & E2 & I2 & O2 & D2); [rewrite I1, length_drop; lia|].
  exists s2, (w1 ++ w2). rewrite (bind_ok _ _ _ _ _ E1), E2. split; [done|].
  split; [by rewrite I2, I1, drop_drop|]. split; [by rewrite O2, O1, app_assoc|].
  unfold dac_values in *. by rewrite filter_app, fmap_app, D1, D2.
Qed.

Lemma sends_each {X} k (vs : X -> list Z) (l : list X) body :
  (forall x, x ∈ l -> sends k (vs x) (body x)) -> sends (k * length l) (l ≫= vs) (each l body).
Proof.
  induction l as [|x l IH]; intros H; cbn [each length]; [replace (k * 0)%nat with 0%nat by lia; apply sends_ret|].
  replace (k * S (length l))%nat with (k + k * length l)%nat by lia. apply sends_bind; [apply H; set_solver|].
  apply IH. set_solver.
Qed.

Lemma sends_write port v : sends 0 (if decide (VGA0 + port = DAC) then [u8 v] else []) (vga_write port v).
Proof.
  intros s _. eexists _, [(VGA0 + port, u8 v)]. split; [done|]. split; [done|]. split; [done|].
  unfold dac_values. rewrite filter_cons. cbn [fst]. destruct (decide _); done.
Qed.

Lemma sends_other port v : port <> 0x3c9 -> sends 0 [] (vga_write port v).
Proof. intros Hp. pose proof (sends_write port v) as H. by rewrite decide_False in H by (unfold DAC; lia). Qed.

Lemma sends_dac v : sends 0 [u8 v] (vga_write 0x3c9 v).
Proof. apply (sends_write 0x3c9 v). Qed.

Lemma sends_read k vs (f : Z -> M cst unit) : (forall v, sends k vs (f v)) -> sends (S k) vs (v <- io_read_sync ;; f v).
Proof.
  intros Hf s Hs. destruct (io_in (c_con s)) as [|v l] eqn:E; [cbn in Hs; lia|].
  destruct (Hf v (set_c_con (set_io_in l (c_con s)) s)) as (s' & w & E1 & H); [cbn in *; lia|].
  exists s', w. split; [|done]. rewrite <- E1. unfold io_read_sync, io_read, bind, con_get, con_upd, reads, modify. cbn. by rewrite E.
Qed.

Lemma concat_none {X} (l : list X) : (l ≫= (fun _ => [])) = @nil Z.
Proof. by induction l. Qed.

Lemma sends_each_none {X} k (l : list X) body : (forall x, sends k [] (body x)) -> sends (k * length l) [] (each l body).
Proof. intros H. pose proof (sends_each k (fun _ => []) l body (fun x _ => H x)) as E. by rewrite concat_none in E. Qed.

Lemma sends_indexed index data regs : index <> 0x3c9 -> data <> 0x3c9 -> sends 0 [] (write_indexed index data regs).
Proof.
  intros. apply (sends_each_none 0 (seq 0 (length regs))). intros i.
  by apply (sends_bind 0 0 [] []); apply sends_other.
Qed.

Ltac quiet := first [ by apply sends_indexed | by apply sends_other ].

Lemma sends_write_regs regs : sends 24 [] (write_regs regs).
Proof.
  unfold write_regs. apply (sends_bind 0 24 [] []); [quiet|]. apply (sends_bind 0 24 [] []); [quiet|].
  apply (sends_bind 0 24 [] []); [quiet|]. apply (sends_read 23). intros v.
  apply (sends_bind 0 23 [] []); [quiet|]. apply (sends_bind 0 23 [] []); [quiet|].
  apply (sends_read 22). intros v'. do 3 (apply (sends_bind 0 22 [] []); [quiet|]).
  apply (sends_bind 21 1 [] []).
  - apply (sends_each_none 1 (seq 0 VGA_NUM_AC_REGS)). intros i. apply (sends_read 0). intros _.
    apply (sends_bind 0 0 [] []); quiet.
  - apply (sends_read 0). intros _. quiet.
Qed.

(** The colour with index [i], each component out of 64. *)
Definition palette (i : nat) : list Z :=
  [8 * (Z.of_nat i / 32); 8 * (Z.of_nat i / 4 mod 8); 16 * (Z.of_nat i mod 4)].

Definition shade (r g b : nat) : list Z := [8 * Z.of_nat r; 8 * Z.of_nat g; 16 * Z.of_nat b].
Definition shades : list Z := seq 0 8 ≫= (fun r => seq 0 8 ≫= (fun g => seq 0 4 ≫= shade r g)).

Lemma sends_vgainit : sends 24 shades vgainit.
Proof.
  unfold vgainit. apply (sends_bind 24 0 [] shades); [apply sends_write_regs|]. apply (sends_bind 0 0 [] shades); [quiet|].
  apply (sends_each 0 (fun r => seq 0 8 ≫= (fun g => seq 0 4 ≫= shade r g)) (seq 0 8)).
  intros r Hr. apply (sends_each 0 (fun g => seq 0 4 ≫= shade r g) (seq 0 8)).
  intros g Hg. apply (sends_each 0 (shade r g) (seq 0 4)). intros b Hb. apply elem_of_seq in Hr, Hg, Hb.
  assert (Hu : forall v, 0 <= v < 64 -> u8 v = v) by (intros; apply u8_id; unfold is_byte; lia).
  pose proof (sends_dac (8 * Z.of_nat r)) as H1. pose proof (sends_dac (8 * Z.of_nat g)) as H2. pose proof (sends_dac (16 * Z.of_nat b)) as H3.
  rewrite Hu in H1, H2, H3 by lia. exact (sends_bind 0 0 _ _ _ _ H1 (sends_bind 0 0 _ _ _ _ H2 H3)).
Qed.

Lemma shades_palette : forallb (fun i => bool_decide (take 3 (drop (3 * i) shades) = palette i)) (seq 0 256) = true.
Proof. by vm_compute. Qed.

Lemma shade_at i : (i < 256)%nat -> take 3 (drop (3 * i) shades) = palette i.
Proof.
  intros Hi. pose proof shades_palette as H. rewrite forallb_forall in H.
  specialize (H i). rewrite bool_decide_eq_true in H. apply H. apply in_seq. lia.
Qed.

Lemma pixel_index_eq r g b : is_byte r -> is_byte g -> is_byte b -> pixel_index r g b = 64 * (r / 64) + 4 * (g / 32) + b / 64.
Proof.
  unfold is_byte. intros Hr Hg Hb. unfold pixel_index. rewrite !Z.quot_div_nonneg by lia.
  rewrite !Z.rem_mod_nonneg by (try apply Z.div_pos; lia). unfold u8. rewrite Z.mod_small; dlia.
Qed.

(** C40. The colour that [sys_setpixel] shows, with the palette [vgainit] loads: after
    [vgainit], whatever the device answers to its reads, the palette holds at the index
    of a pixel the green and blue shades of the requested colour, eight and four levels,
    rounded down.  Of the eight shades of red only every second is used: red is rounded
    down to a multiple of 64, not of 32. *)
Theorem setpixel_color (s : cst) (r g b : Z) :
  (24 <= length (io_in (c_con s)))%nat -> is_byte r -> is_byte g -> is_byte b ->
  exists s' w, vgainit s = Ok tt s' /\ io_out (c_con s') = io_out (c_con s) ++ w /\
    take 3 (drop (3 * Z.to_nat (pixel_index r g b)) (dac_values w)) = [16 * (r / 64); 8 * (g / 32); 16 * (b / 64)].
Proof.
  intros Hs Hr Hg Hb. destruct (sends_vgainit s Hs) as (s' & w & E & _ & O & D). exists s', w.
  split; [done|]. split; [done|]. rewrite D, pixel_index_eq by done. unfold is_byte in *.
  assert (Hq : 0 <= r / 64 < 4 /\ 0 <= g / 32 < 8 /\ 0 <= b / 64 < 4) by dlia.
  rewrite shade_at by lia. unfold palette. rewrite Z2Nat.id by lia. f_equal; [dlia|f_equal; [dlia|f_equal; dlia]].
Qed.

(** The palette has the shade that is closer. *)
Lemma setpixel_color_witness :
  (exists s' w, vgainit (mk_cst boot_machine (mk_con (replicate 24 0) [] 0 0 [] 0 0 [] 0 0 0 [] 0 0 0)) = Ok tt s' /\
    io_out (c_con s') = [] ++ w /\ take 3 (drop (3 * Z.to_nat (pixel_index 63 255 255)) (dac_values w)) = [0; 56; 48]) /\
  palette 63 = [8; 56; 48].
Proof.
  split; [|reflexivity].
  apply (setpixel_color (mk_cst boot_machine (mk_con (replicate 24 0) [] 0 0 [] 0 0 [] 0 0 0 [] 0 0 0)) 63 255 255);
    [cbn; lia|unfold is_byte; lia..].
Defined.
