(* ===== verification/User.v ===== *)
(** * User programs: the system calls and the C library

    user/user.h, user/usys.pl, user/ulib.c and user/printf.c.  A user program is a
    tree of system calls: what it does next depends on what the kernel answers.
    [OS] is the kernel as a program sees it, a state and the answer to each call;
    [FileIO] states what the programs of this development need of [read] and [write].
    Strings are the lists of their characters before the nul. *)
From stdpp Require Import gmap list strings.
From S2P Require Import Prelude Kstring Abi.

Declare Scope user_scope.
Delimit Scope user_scope with user.

(** ** System calls *)

(** An argument of a system call as it stands in its register: a word, the address of a
    string, or the address of an array of such arguments. *)
Inductive sysarg : Type :=
| Word (v : Z)
| Cstring (s : list Z)
| Argv (l : list sysarg).

(** A call and the type of its answer.  [Read] answers the number of bytes and the
    bytes, [Wait] the pid and the exit status, [Pipe] also the two descriptors;
    [Exec] answers only when it fails.  [Ecall] is a call by its number, for programs
    that pass addresses of memory they may not have; [Load] and [Store] are accesses to
    an address outside the program's variables, which the hardware may refuse. *)
Inductive sys : Type -> Type :=
| Fork : sys Z
| Wait : sys (Z * Z)
| Pipe : sys (Z * (Z * Z))
| Write (fd : Z) (bytes : list Z) : sys Z
| Read (fd n : Z) : sys (Z * list Z)
| Close (fd : Z) : sys Z
| Kill (pid : Z) : sys Z
| Exec (path : list Z) (argv : list (list Z)) : sys Z
| Open (path : list Z) (omode : Z) : sys Z
| Mknod (path : list Z) (major minor : Z) : sys Z
| Unlink (path : list Z) : sys Z
| Fstat (fd : Z) : sys (Z * stat)
| Link (old new : list Z) : sys Z
| Mkdir (path : list Z) : sys Z
| Chdir (path : list Z) : sys Z
| Dup (fd : Z) : sys Z
| Getpid : sys Z
| Sbrk (n : Z) : sys Z
| Sleep (n : Z) : sys Z
| Uptime : sys Z
| Setpixel (x y r g b : Z) : sys Z
| Getmsg : sys Z
| Listenmsgs (state : Z) : sys unit
| Ecall (num : Z) (args : list sysarg) : sys Z
| Load (a : Z) : sys (option Z)
| Store (a v : Z) : sys bool.

(** A program returns, calls the kernel, exits, accesses memory it does not have, or
    has used up the fuel of its loops. *)
Inductive prog (A : Type) : Type :=
| Ret (a : A)
| Call (X : Type) (c : sys X) (k : X -> prog A)
| Exit (status : Z)
| Fault
| More.
Arguments Ret {A} a.
Arguments Call {A} X c k.
Arguments Exit {A} status.
Arguments Fault {A}.
Arguments More {A}.

Fixpoint ubind {A B} (p : prog A) (f : A -> prog B) : prog B :=
  match p with
  | Ret a => f a
  | Call X c k => Call X c (fun x => ubind (k x) f)
  | Exit n => Exit n
  | Fault => Fault
  | More => More
  end.

Definition call {X} (c : sys X) : prog X := Call X c Ret.

Notation "x <- m ;; k" := (ubind m (fun x => k))
  (at level 100, m at next level, right associativity) : user_scope.
Notation "m ;;; k" := (ubind m (fun _ => k))
  (at level 100, right associativity) : user_scope.
Open Scope user_scope.

Definition uwhen (b : bool) (p : prog unit) : prog unit := if b then p else Ret tt.

(** [for(;;) body], left with [inr]; [fuel] bounds the iterations. *)
Fixpoint loop {St R} (fuel : nat) (body : St -> prog (St + R)) (s : St) : prog R :=
  match fuel with
  | O => More
  | S fuel => r <- body s ;; match r with inl s => loop fuel body s | inr r => Ret r end
  end.

(** [for (x in l) body(x)]. *)
Fixpoint ueach {X} (l : list X) (body : X -> prog unit) : prog unit :=
  match l with
  | [] => Ret tt
  | x :: l => body x ;;; ueach l body
  end.

(** ** The kernel as programs see it *)

Class OS (S : Type) := answer : forall X, sys X -> S -> X * S.

Inductive outcome (A : Type) : Type := Returned (a : A) | Exited (status : Z) | Faulted | OutOfFuel.
Arguments Returned {A} a.
Arguments Exited {A} status.
Arguments Faulted {A}.
Arguments OutOfFuel {A}.

Fixpoint run {S A} `{OS S} (p : prog A) (s : S) : outcome A * S :=
  match p with
  | Ret a => (Returned a, s)
  | Call X c k => let r := answer X c s in run (k (fst r)) (snd r)
  | Exit n => (Exited n, s)
  | Fault => (Faulted, s)
  | More => (OutOfFuel, s)
  end.

(** [read] and [write]: [input s fd] is what is still to be read from [fd], [output s
    fd] what was written to it.  A read returns at least one byte unless the input is
    at its end, in chunks of any size up to the one asked for; a write takes it all. *)
Class FileIO (S : Type) `{OS S} := {
  input : S -> Z -> list Z;
  output : S -> Z -> list Z;
  read_answer : forall s fd n, 0 < n -> exists bytes s',
    answer _ (Read fd n) s = ((Z.of_nat (length bytes), bytes), s') /\
    input s fd = bytes ++ input s' fd /\ Z.of_nat (length bytes) <= n /\
    (bytes = [] -> input s fd = []) /\ (forall fd', output s' fd' = output s fd');
  write_answer : forall s fd bytes, exists s',
    answer _ (Write fd bytes) s = (Z.of_nat (length bytes), s') /\
    output s' fd = output s fd ++ bytes /\
    (forall fd', fd' <> fd -> output s' fd' = output s fd') /\
    (forall fd', input s' fd' = input s fd')
}.

(** The characters before the nul. *)
Fixpoint until_nul (s : list Z) : list Z :=
  match s with
  | [] => []
  | c :: s => if c =? 0 then [] else c :: until_nul s
  end.

(** ** ulib.c *)

Module Ulib.
Fixpoint strcpy (fuel : nat) (m : mem) (s t : Z) : option mem :=
  match fuel with
  | O => None
  | S fuel =>
      let m := mset m s (mget m t) in
      if mget m s =? 0 then Some m else strcpy fuel m (s + 1) (t + 1)
  end.

Fixpoint strcmp (p q : list Z) : Z :=
  match p, q with
  | a :: p, b :: q => if a =? b then strcmp p q else u8 a - u8 b
  | a :: _, [] => u8 a
  | [], b :: _ => 0 - u8 b
  | [], [] => 0
  end.

Definition strlen (s : list Z) : Z := Z.of_nat (length s).

Fixpoint memset_loop (k : nat) (i dst c : Z) (m : mem) : mem :=
  match k with
  | O => m
  | S k => memset_loop k (i + 1) dst c (mset m (dst + i) c)
  end.
Definition memset (m : mem) (dst c n : Z) : mem := memset_loop (Z.to_nat n) 0 dst c m.

(** The position of the first [c], if it is there before the nul. *)
Fixpoint strchr (s : list Z) (c : Z) : option nat :=
  match s with
  | [] => None
  | a :: s => if a =? c then Some 0%nat else option_map S (strchr s c)
  end.

(** The characters [gets] stores before the nul; [k] is [max - 1 - i]. *)
Fixpoint gets_loop (k : nat) (acc : list Z) : prog (list Z) :=
  match k with
  | O => Ret acc
  | S k =>
      r <- call (Read 0 1) ;;
      if fst r <? 1 then Ret acc else
      let c := default 0 (head (snd r)) in
      if (c =? 10) || (c =? 13) then Ret (acc ++ [c]) else gets_loop k (acc ++ [c])
  end.
Definition gets (max : Z) : prog (list Z) := gets_loop (Z.to_nat (max - 1)) [].

Definition stat_zero : stat := mk_stat 0 0 0 0 0.

Definition stat (n : list Z) : prog (Z * Abi.stat) :=
  fd <- call (Open n O_RDONLY) ;;
  if fd <? 0 then Ret (-1, stat_zero) else
  r <- call (Fstat fd) ;;
  call (Close fd) ;;;
  Ret r.

Fixpoint atoi_loop (n : Z) (s : list Z) : Z :=
  match s with
  | [] => n
  | c :: s => if (48 <=? c) && (c <=? 57) then atoi_loop (i32 (n * 10 + c - 48)) s else n
  end.
Definition atoi (s : list Z) : Z := atoi_loop 0 s.

Definition memmove (m : mem) (vdst vsrc n : Z) : mem :=
  if vsrc >? vdst then copy_up (Z.to_nat n) vdst vsrc m
  else copy_down (Z.to_nat n) (vdst + n) (vsrc + n) m.

Fixpoint memcmp_loop (k : nat) (m : mem) (p1 p2 : Z) : Z :=
  match k with
  | O => 0
  | S k => if mget m p1 =? mget m p2 then memcmp_loop k m (p1 + 1) (p2 + 1) else mget m p1 - mget m p2
  end.
Definition memcmp (m : mem) (s1 s2 n : Z) : Z := memcmp_loop (Z.to_nat n) m s1 s2.

Definition memcpy (m : mem) (dst src n : Z) : mem := memmove m dst src n.
End Ulib.

(** ** printf.c *)

Module Uprintf.
(** An argument: a word or a string. *)
Inductive uarg : Type := Aval (v : Z) | Astr (s : option (list Z)).

Definition digit (d : Z) : Z := if d <? 10 then 48 + d else 55 + d.

Definition putc (fd c : Z) : prog unit := call (Write fd [u8 c]) ;;; Ret tt.

(** [buf], from its first element on; 16 digits are enough for any [uint]. *)
Fixpoint digits_loop (n : nat) (x base : Z) : list Z :=
  match n with
  | O => []
  | S n => digit (x mod base) :: if x / base =? 0 then [] else digits_loop n (x / base) base
  end.

Definition int_chars (xx base : Z) (sgn : bool) : list Z :=
  let neg := sgn && (xx <? 0) in
  let x := if neg then u32 (- xx) else u32 xx in
  rev (digits_loop 16 x base ++ if neg then [45] else []).

Definition printint (fd xx base : Z) (sgn : bool) : prog unit := ueach (int_chars xx base sgn) (putc fd).

Fixpoint ptr_chars (n : nat) (x : Z) : list Z :=
  match n with
  | O => []
  | S n => digit (Z.shiftr x 60) :: ptr_chars n (u64 (Z.shiftl x 4))
  end.

Definition printptr (fd x : Z) : prog unit :=
  putc fd 48 ;;; putc fd 120 ;;; ueach (ptr_chars 16 x) (putc fd).

(** [pct] is [state == '%']; an argument that is not there is read from outside the
    caller's frame. *)
Fixpoint vprintf (fd : Z) (fmt : list Z) (pct : bool) (ap : list uarg) : prog unit :=
  match fmt with
  | [] => Ret tt
  | c :: fmt =>
      if negb pct then
        if c =? 37 then vprintf fd fmt true ap else putc fd c ;;; vprintf fd fmt false ap
      else if c =? 100 then
        match ap with
        | Aval v :: ap => printint fd (i32 v) 10 true ;;; vprintf fd fmt false ap
        | _ => Fault
        end
      else if c =? 108 then
        match ap with
        | Aval v :: ap => printint fd (i32 v) 10 false ;;; vprintf fd fmt false ap
        | _ => Fault
        end
      else if c =? 120 then
        match ap with
        | Aval v :: ap => printint fd (i32 v) 16 false ;;; vprintf fd fmt false ap
        | _ => Fault
        end
      else if c =? 112 then
        match ap with
        | Aval v :: ap => printptr fd v ;;; vprintf fd fmt false ap
        | _ => Fault
        end
      else if c =? 115 then
        match ap with
        | Astr s :: ap => ueach (default (bytes_of "(null)") s) (putc fd) ;;; vprintf fd fmt false ap
        | _ => Fault
        end
      else if c =? 99 then
        match ap with
        | Aval v :: ap => putc fd v ;;; vprintf fd fmt false ap
        | _ => Fault
        end
      else if c =? 37 then putc fd c ;;; vprintf fd fmt false ap
      else putc fd 37 ;;; putc fd c ;;; vprintf fd fmt false ap
  end.

Definition fprintf (fd : Z) (fmt : list Z) (ap : list uarg) : prog unit := vprintf fd fmt false ap.
Definition printf (fmt : list Z) (ap : list uarg) : prog unit := vprintf 1 fmt false ap.
End Uprintf.
