(* ===== verification/UserLib.v ===== *)
(** * Theorems on user/ulib.c and user/printf.c

    The laws of running a program, the output of [printf], and the library functions
    against what they mean: [memmove] against the kernel's, [strcmp] against the
    lexicographic order, [atoi] against the digits [printf] writes. *)
From stdpp Require Import gmap list strings.
From S2P Require Import Prelude Kstring Abi User.

(** ** Running programs *)

Section Run.
Context {S : Type} `{OS S}.

Lemma run_bind {A B} (p : prog A) (f : A -> prog B) s :
  run (ubind p f) s = match run p s with
                      | (Returned a, s') => run (f a) s'
                      | (Exited n, s') => (Exited n, s')
                      | (Faulted, s') => (Faulted, s')
                      | (OutOfFuel, s') => (OutOfFuel, s')
                      end.
Proof. revert s. induction p as [a|X c k IH| | |]; intros s; cbn; auto. Qed.

Lemma run_bind_ret {A B} (p : prog A) (f : A -> prog B) s a s' :
  run p s = (Returned a, s') -> run (ubind p f) s = run (f a) s'.
Proof. intros E. by rewrite run_bind, E. Qed.

Lemma run_call {X B} (c : sys X) (f : X -> prog B) s x s' :
  answer X c s = (x, s') -> run (ubind (call c) f) s = run (f x) s'.
Proof. intros E. cbn. by rewrite E. Qed.
End Run.

(** ** Formats *)

Definition ptr_text (v : Z) : list Z := [48; 120] ++ Uprintf.ptr_chars 16 v.

(** What a format and its arguments stand for. *)
Fixpoint format (fmt : list Z) (pct : bool) (ap : list Uprintf.uarg) : option (list Z) :=
  match fmt with
  | [] => Some []
  | c :: fmt =>
      if negb pct then
        if c =? 37 then format fmt true ap else option_map (cons c) (format fmt false ap)
      else
        match (if c =? 100 then Some (fun v => Uprintf.int_chars (i32 v) 10 true)
               else if c =? 108 then Some (fun v => Uprintf.int_chars (i32 v) 10 false)
               else if c =? 120 then Some (fun v => Uprintf.int_chars (i32 v) 16 false)
               else if c =? 112 then Some ptr_text
               else None), ap with
        | Some f, Uprintf.Aval v :: ap => option_map (app (f v)) (format fmt false ap)
        | Some _, _ => None
        | None, ap =>
            if c =? 115 then
              match ap with
              | Uprintf.Astr x :: ap => option_map (app (default (bytes_of "(null)") x)) (format fmt false ap)
              | _ => None
              end
            else if c =? 99 then
              match ap with
              | Uprintf.Aval v :: ap => option_map (cons v) (format fmt false ap)
              | _ => None
              end
            else if c =? 37 then option_map (cons c) (format fmt false ap)
            else option_map (app [37; c]) (format fmt false ap)
        end
  end.

(** What holds of programs that write one character, of doing nothing and of sequences
    holds of printf. *)
Section Writer.
Context (fd : Z) (W : list Z -> prog unit -> Prop).
Context (W_ret : W [] (Ret tt)) (W_putc : forall c, W [u8 c] (Uprintf.putc fd c)).
Context (W_bind : forall l l' p q, W l p -> W l' q -> W (l ++ l') (p ;;; q)).

Lemma writer_putcs cs : W (map u8 cs) (ueach cs (Uprintf.putc fd)).
Proof. induction cs as [|c cs IH]; [done|]. by apply (W_bind [u8 c]). Qed.

Lemma writer_printptr v : W (map u8 (ptr_text v)) (Uprintf.printptr fd v).
Proof. apply (W_bind [u8 48] (u8 120 :: _)); [done|]. apply (W_bind [u8 120]); [done|]. apply writer_putcs. Qed.

#[local] Opaque ptr_text.

Ltac writes_step IH :=
  match goal with
  | |- context [option_map _ (format ?f ?b ?a)] =>
      let E := fresh in destruct (format f b a) eqn:E; [|done]; intros [= <-];
      rewrite ?map_app; cbn [map]; apply IH in E
  end.

Lemma writer_vprintf fmt : forall pct ap l, format fmt pct ap = Some l -> W (map u8 l) (Uprintf.vprintf fd fmt pct ap).
Proof.
  assert (Hc : forall c l p, W l p -> W (u8 c :: l) (Uprintf.putc fd c ;;; p)) by (intros c l p Hp; by apply (W_bind [u8 c])).
  induction fmt as [|c fmt IH]; intros pct ap l; cbn [format Uprintf.vprintf]; [by intros [= <-]|].
  destruct pct; cbn [negb].
  2:{ destruct (c =? 37); [apply IH|]. writes_step IH. by apply Hc. }
  destruct (c =? 100); [|destruct (c =? 108); [|destruct (c =? 120); [|destruct (c =? 112)]]].
  1-3: destruct ap as [|[v|] ap]; try done; writes_step IH; by apply W_bind; [apply writer_putcs|].
  - destruct ap as [|[v|] ap]; try done. writes_step IH. by apply W_bind; [apply writer_printptr|].
  - destruct (c =? 115); [|destruct (c =? 99); [|destruct (c =? 37)]].
    + destruct ap as [|[v|x] ap]; try done. writes_step IH. by apply W_bind; [apply writer_putcs|].
    + destruct ap as [|[v|] ap]; try done. writes_step IH. by apply Hc.
    + writes_step IH. by apply Hc.
    + writes_step IH. by apply Hc, Hc.
Qed.
End Writer.

Section Output.
Context {S : Type} `{FileIO S}.

(** [p] writes [bytes] to [fd], nothing to other descriptors, reads nothing and
    returns. *)
Definition writes {A} (fd : Z) (bytes : list Z) (p : prog A) : Prop :=
  forall s, exists a s', run p s = (Returned a, s') /\ output s' fd = output s fd ++ bytes /\
    (forall fd', fd' <> fd -> output s' fd' = output s fd') /\ (forall fd', input s' fd' = input s fd').

Lemma writes_ret {A} fd (a : A) : writes fd [] (Ret a).
Proof. intros s. exists a, s. by rewrite app_nil_r. Qed.

Lemma writes_bind {A B} fd l l' (p : prog A) (f : A -> prog B) :
  writes fd l p -> (forall a, writes fd l' (f a)) -> writes fd (l ++ l') (ubind p f).
Proof.
  intros Hp Hf s. destruct (Hp s) as (a & s1 & E & O1 & O2 & I). destruct (Hf a s1) as (b & s2 & E' & O1' & O2' & I').
  exists b, s2. rewrite (run_bind_ret _ _ _ _ _ E), E', O1', O1, app_assoc. split; [done|]. split; [done|].
  split; intros fd'; [intros Hne; by rewrite O2', O2|by rewrite I', I].
Qed.

Lemma writes_call fd l : writes fd l (call (Write fd l)).
Proof.
  intros s. destruct (write_answer s fd l) as (s' & E & O1 & O2 & I).
  exists (Z.of_nat (length l)), s'. cbn. by rewrite E.
Qed.

Lemma writes_putc fd c : writes fd [u8 c] (Uprintf.putc fd c).
Proof. unfold Uprintf.putc. rewrite <- (app_nil_r [u8 c]). apply writes_bind; [apply writes_call|]. intros; apply writes_ret. Qed.

Lemma writes_putcs fd cs : writes fd (map u8 cs) (ueach cs (Uprintf.putc fd)).
Proof.
  induction cs as [|c cs IH]; [apply writes_ret|]. cbn [map ueach].
  apply (writes_bind _ [u8 c]); [apply writes_putc|by intros].
Qed.

Lemma writes_vprintf fd fmt pct ap l :
  format fmt pct ap = Some l -> writes fd (map u8 l) (Uprintf.vprintf fd fmt pct ap).
Proof.
  apply (writer_vprintf fd (fun l p => writes fd l p)); [apply writes_ret|apply writes_putc|].
  intros l1 l2 p q Hp Hq. by apply writes_bind.
Qed.
End Output.

(** A kernel with one file to read, [fo_chunk + 1] bytes at most at a time, and a log of
    what was written. *)
Record fakeos := mk_fakeos { fo_chunk : nat; fo_in : list Z; fo_out : list (Z * list Z) }.

#[global] Instance fakeos_os : OS fakeos := fun X c s =>
  match c in sys X return X * fakeos with
  | Read fd n =>
      let k := Nat.min (Z.to_nat n) (S (fo_chunk s)) in
      ((Z.of_nat (length (take k (fo_in s))), take k (fo_in s)), mk_fakeos (fo_chunk s) (drop k (fo_in s)) (fo_out s))
  | Write fd bytes => (Z.of_nat (length bytes), mk_fakeos (fo_chunk s) (fo_in s) (fo_out s ++ [(fd, bytes)]))
  | Wait => ((-1, 0), s)
  | Pipe => ((-1, (0, 0)), s)
  | Fstat _ => ((-1, Ulib.stat_zero), s)
  | Listenmsgs _ => (tt, s)
  | Load _ => (None, s)
  | Store _ _ => (false, s)
  | Fork | Close _ | Kill _ | Exec _ _ | Open _ _ | Mknod _ _ _ | Unlink _ | Link _ _ | Mkdir _ | Chdir _
  | Dup _ | Getpid | Sbrk _ | Sleep _ | Uptime | Setpixel _ _ _ _ _ | Getmsg | Ecall _ _ => (-1, s)
  end.

#[global] Program Instance fakeos_io : FileIO fakeos := {|
  input s fd := fo_in s;
  output s fd := concat (map snd (filter (fun e => e.1 = fd) (fo_out s)))
|}.
Next Obligation.
  intros s fd n Hn. cbn. eexists _, _. split; [done|]. cbn [fo_in fo_out].
  rewrite take_drop, length_take. split; [done|]. split; [lia|]. split; [|done].
  intros E. destruct (fo_in s); [done|]. exfalso. apply (f_equal length) in E. rewrite length_take in E. cbn in E. lia.
Qed.
Next Obligation.
  intros s fd bytes. cbn. eexists. split; [done|]. cbn [fo_in fo_out]. split; [|split; [|done]].
  - rewrite filter_app, map_app, concat_app, filter_cons_True by done. cbn. by rewrite app_nil_r.
  - intros fd' Hne. by rewrite filter_app, map_app, concat_app, filter_cons_False, filter_nil, app_nil_r by done.
Qed.

(** ** The library *)

Lemma mget_umemmove m dst src n a :
  0 <= n ->
  mget (Ulib.memmove m dst src n) a =
    if (dst <=? a) && (a <? dst + n) then mget m (src + (a - dst)) else mget m a.
Proof.
  intros Hn. unfold Ulib.memmove. destruct (Z.gtb_spec src dst).
  - rewrite mget_copy_up by lia. by rewrite Z2Nat.id.
  - rewrite mget_copy_down, Z2Nat.id by lia.
    replace (dst + n - n) with dst by lia. by replace (src + n + (a - (dst + n))) with (src + (a - dst)) by lia.
Qed.

(** The user library's [memmove], which chooses its direction by comparing the two
    addresses only, leaves the same memory as the kernel's, which copies downwards
    only when the regions overlap. *)
Theorem memmove_equiv (m : mem) (dst src n a : Z) :
  0 <= n -> mget (Ulib.memmove m dst src n) a = mget (Kstring.memmove m dst src n) a.
Proof. intros Hn. by rewrite mget_umemmove, mget_memmove. Qed.

Lemma memmove_equiv_witness :
  mget (Ulib.memmove (mwrite ∅ 10 [1; 2; 3; 4]) 12 10 4) 14 = mget (Kstring.memmove (mwrite ∅ 10 [1; 2; 3; 4]) 12 10 4) 14.
Proof. apply (memmove_equiv (mwrite ∅ 10 [1; 2; 3; 4]) 12 10 4 14). lia. Defined.

Lemma strchr_spec s c :
  match Ulib.strchr s c with
  | None => c ∉ s
  | Some i => exists l rest, s = l ++ c :: rest /\ i = length l /\ c ∉ l
  end.
Proof.
  induction s as [|a s IH]; cbn [Ulib.strchr]; [apply not_elem_of_nil|].
  destruct (Z.eqb_spec a c) as [->|Hne].
  { exists [], s. repeat split. apply not_elem_of_nil. }
  destruct (Ulib.strchr s c) as [i|]; cbn [option_map].
  - destruct IH as (l & rest & -> & -> & Hl). exists (a :: l), rest. repeat split. rewrite not_elem_of_cons. naive_solver.
  - rewrite not_elem_of_cons. naive_solver.
Qed.

Lemma strchr_at l c rest : c ∉ l -> Ulib.strchr (l ++ c :: rest) c = Some (length l).
Proof.
  induction l as [|a l IH]; cbn; [by rewrite Z.eqb_refl|]. rewrite not_elem_of_cons. intros [Hc Hl].
  destruct (Z.eqb_spec a c) as [->|]; [done|]. by rewrite IH.
Qed.

Lemma until_nul_app l rest : 0 ∉ l -> until_nul (l ++ 0 :: rest) = l.
Proof.
  induction l as [|c l IH]; [done|]. rewrite not_elem_of_cons. intros [Hc Hl]. cbn.
  destruct (Z.eqb_spec c 0) as [->|]; [done|]. by rewrite IH.
Qed.

Lemma strchr_in s c : match Ulib.strchr s c with Some _ => true | None => false end = bool_decide (c ∈ s).
Proof.
  pose proof (strchr_spec s c) as Hs. destruct (Ulib.strchr s c).
  - destruct Hs as (l & rest & -> & _). symmetry. apply bool_decide_eq_true. rewrite elem_of_app, elem_of_cons. auto.
  - symmetry. by apply bool_decide_eq_false.
Qed.

(** The lexicographic order of character strings. *)
Inductive lex : list Z -> list Z -> Prop :=
| lex_nil b q : lex [] (b :: q)
| lex_lt a b p q : a < b -> lex (a :: p) (b :: q)
| lex_eq a p q : lex p q -> lex (a :: p) (a :: q).

Definition cchar (c : Z) : Prop := 0 < c < 256.

Lemma cchar_u8 c : cchar c -> u8 c = c.
Proof. unfold cchar. intros. apply u8_id. unfold is_byte. lia. Qed.

(** [strcmp] is zero exactly on equal strings, negative exactly when the first
    comes before the second in lexicographic order, positive when it comes after. *)
Theorem strcmp_order (p q : list Z) :
  Forall cchar p -> Forall cchar q ->
  (Ulib.strcmp p q = 0 <-> p = q) /\ (Ulib.strcmp p q < 0 <-> lex p q) /\ (Ulib.strcmp p q > 0 <-> lex q p).
Proof.
  intros Hp. revert q. induction Hp as [|a p Ha Hp IH]; intros q Hq; destruct Hq as [|b q Hb Hq]; cbn [Ulib.strcmp].
  - repeat split; try done; try lia; intros Hx; inversion Hx.
  - rewrite cchar_u8 by done. unfold cchar in Hb.
    repeat split; try done; try lia; try (by intros Hx; inversion Hx). intros _. constructor.
  - rewrite cchar_u8 by done. unfold cchar in Ha.
    repeat split; try done; try lia; try (by intros Hx; inversion Hx); intros _. constructor.
  - destruct (Z.eqb_spec a b) as [->|Hne].
    + destruct (IH q Hq) as (I1 & I2 & I3). rewrite I1, I2, I3. repeat split; try congruence; intros Hx.
      1,3: by constructor. all: inversion Hx; subst; try lia; done.
    + rewrite !cchar_u8 by done. repeat split; try (intros [=]; done); try lia; intros Hx.
      1,3: constructor; lia. all: inversion Hx; subst; try done; lia.
Qed.

Lemma strcmp_order_witness : Ulib.strcmp (bytes_of "grep") (bytes_of "grind") < 0 /\ lex (bytes_of "grep") (bytes_of "grind").
Proof.
  assert (H : forall s, forallb (fun c => (0 <? c) && (c <? 256)) (bytes_of s) = true -> Forall cchar (bytes_of s)).
  { intros s E. apply Forall_forall. intros x Hx. rewrite forallb_forall in E.
    specialize (E x ltac:(by apply list_elem_of_In)). unfold cchar. lia. }
  split; [reflexivity|]. apply (strcmp_order (bytes_of "grep") (bytes_of "grind")); [by apply H|by apply H|reflexivity].
Defined.

Lemma i32_id z : - 2 ^ 31 <= z < 2 ^ 31 -> i32 z = z.
Proof. intros. unfold i32. rewrite Z.mod_small by lia. lia. Qed.

Lemma atoi_digits k : forall x rest,
  0 <= x < 2 ^ 31 -> x < 10 ^ Z.of_nat k ->
  Ulib.atoi_loop 0 (rev (Uprintf.digits_loop k x 10) ++ rest) = Ulib.atoi_loop x rest.
Proof.
  induction k as [|k IH]; intros x rest Hx Hk.
  { change (10 ^ Z.of_nat 0) with 1 in Hk. by replace x with 0 by lia. }
  rewrite Nat2Z.inj_succ, Z.pow_succ_r in Hk by lia. cbn [Uprintf.digits_loop rev].
  assert (Hm : 0 <= x mod 10 < 10) by (apply Z.mod_pos_bound; lia).
  assert (Hstep : Ulib.atoi_loop (x / 10) (Uprintf.digit (x mod 10) :: rest) = Ulib.atoi_loop x rest).
  { unfold Uprintf.digit. replace (x mod 10 <? 10) with true by lia. cbn [Ulib.atoi_loop]. zcase; try lia. rewrite i32_id; [f_equal|]; dlia. }
  rewrite <- app_assoc. cbn [app]. destruct (Z.eqb_spec (x / 10) 0) as [E|E]; cbn [rev app].
  - by rewrite <- Hstep, E.
  - rewrite IH; [done| |]; dlia.
Qed.

(** What [printf] writes for [%d], [atoi] reads back: for every non-negative [int]
    the digits evaluate to it, and reading stops at the character after them. *)
Theorem atoi_printint (n c : Z) (rest : list Z) :
  0 <= n < 2 ^ 31 -> ~ (48 <= c <= 57) ->
  Ulib.atoi (Uprintf.int_chars n 10 true) = n /\ Ulib.atoi (Uprintf.int_chars n 10 true ++ c :: rest) = n.
Proof.
  intros Hn Hc. unfold Uprintf.int_chars, Ulib.atoi. replace (n <? 0) with false by lia. cbn [andb].
  replace (u32 n) with n by (unfold u32; rewrite Z.mod_small; lia). rewrite app_nil_r. split.
  - rewrite <- (app_nil_r (rev _)). by rewrite atoi_digits by lia.
  - rewrite atoi_digits by lia. cbn [Ulib.atoi_loop]. zcase; try done; lia.
Qed.

Lemma atoi_printint_witness : Ulib.atoi (Uprintf.int_chars 2147483647 10 true ++ [32; 49]) = 2147483647.
Proof. apply (atoi_printint 2147483647 32 [49]); lia. Defined.
