(* ===== verification/Grep.v ===== *)
(** * user/grep.c

    The matcher of Kernighan and Pike and the loop that cuts the input into lines.
    The matcher is proved equivalent to the language its patterns denote, and the
    loop to printing the lines that match, however [read] cuts the input, up to the first
    line that does not fit the buffer. *)
From stdpp Require Import gmap list strings.
From S2P Require Import Prelude Kstring Abi User UserLib.

(** [matchstar(c, re, text)], where [here] is [matchhere] of [re]. *)
Fixpoint matchstar (here : list Z -> bool) (c : Z) (text : list Z) : bool :=
  if here text then true else
  match text with
  | [] => false
  | t :: text => if (t =? c) || (c =? 46) then matchstar here c text else false
  end.

Definition is_nil (s : list Z) : bool := match s with [] => true | _ => false end.

(** ['*'] is 42, ['$'] is 36, ['.'] is 46. *)
Fixpoint matchhere (re text : list Z) : bool :=
  match re with
  | [] => true
  | c :: re1 =>
      let rest :=
        if (c =? 36) && is_nil re1 then is_nil text
        else match text with
             | [] => false
             | t :: text => if (c =? 46) || (c =? t) then matchhere re1 text else false
             end in
      match re1 with
      | d :: re2 => if d =? 42 then matchstar (matchhere re2) c text else rest
      | [] => rest
      end
  end.

(** The search of [match] at every position. *)
Fixpoint match_loop (re text : list Z) : bool :=
  if matchhere re text then true else
  match text with
  | [] => false
  | _ :: text => match_loop re text
  end.

(** [match]; ['^'] is 94. *)
Definition match_re (re text : list Z) : bool :=
  match re with
  | c :: re1 => if c =? 94 then matchhere re1 text else match_loop re text
  | [] => match_loop re text
  end.

(** The inner loop: the lines of the buffer from [p] on; the result is [p] after the
    last newline, and the buffer, in which a newline is overwritten by a nul. *)
Definition grep_line (pattern : list Z) (st : nat * list Z) : prog (nat * list Z + nat * list Z) :=
  let '(p, buf) := st in
  match Ulib.strchr (until_nul (drop p buf)) 10 with
  | None => Ret (inr (p, buf))
  | Some d =>
      let q := (p + d)%nat in
      let buf := <[q := 0]> buf in
      if match_re pattern (until_nul (drop p buf)) then
        let buf := <[q := 10]> buf in
        call (Write 1 (take (q + 1 - p) (drop p buf))) ;;;
        Ret (inl (S q, buf))
      else Ret (inl (S q, buf))
  end.

Definition BUF : nat := 1024.

(** One iteration of the outer loop; [m] bytes of [buf] are in use. *)
Definition grep_chunk (pattern : list Z) (fd : Z) (st : nat * list Z) : prog (nat * list Z + unit) :=
  let '(m, buf) := st in
  r <- call (Read fd (Z.of_nat BUF - Z.of_nat m - 1)) ;;
  let '(n, bytes) := r in
  if n <=? 0 then Ret (inr tt) else
  let buf := splice buf m bytes in
  let m := (m + Z.to_nat n)%nat in
  let buf := <[m := 0]> buf in
  pb <- loop (S BUF) (grep_line pattern) (0%nat, buf) ;;
  let '(p, buf) := pb in
  let m := (m - p)%nat in
  Ret (inl (m, splice buf 0 (take m (drop p buf)))).

Definition grep (fuel : nat) (pattern : list Z) (fd : Z) : prog unit :=
  loop fuel (grep_chunk pattern fd) (0%nat, replicate BUF 0).

(** [main]: the files named after the pattern, or the standard input. *)
Fixpoint grep_files (fuel : nat) (pattern : list Z) (files : list (list Z)) : prog unit :=
  match files with
  | [] => Exit 0
  | f :: files =>
      fd <- call (Open f 0) ;;
      if fd <? 0 then
        Uprintf.printf (bytes_of "grep: cannot open %s" ++ [10]) [Uprintf.Astr (Some f)] ;;; Exit 1
      else grep fuel pattern fd ;;; call (Close fd) ;;; grep_files fuel pattern files
  end.

Definition main (fuel : nat) (argv : list (list Z)) : prog unit :=
  match argv with
  | _ :: pattern :: files =>
      match files with
      | [] => grep fuel pattern 0 ;;; Exit 0
      | _ => grep_files fuel pattern files
      end
  | _ => Uprintf.fprintf 2 (bytes_of "usage: grep pattern [file ...]" ++ [10]) [] ;;; Exit 1
  end.

(** ** The language of a pattern *)

Inductive item : Type := One (c : Z) | Star (c : Z) | End.

Definition accepts (c t : Z) : Prop := c = 46 \/ c = t.

Fixpoint items (re : list Z) : list item :=
  match re with
  | [] => []
  | c :: re1 =>
      let rest := if (c =? 36) && is_nil re1 then [End] else One c :: items re1 in
      match re1 with
      | d :: re2 => if d =? 42 then Star c :: items re2 else rest
      | [] => rest
      end
  end.

(** [w] is matched where [rest] follows it. *)
Fixpoint denote (l : list item) (w rest : list Z) : Prop :=
  match l with
  | [] => w = []
  | One c :: l => exists t w', w = t :: w' /\ accepts c t /\ denote l w' rest
  | Star c :: l => exists u w', w = u ++ w' /\ Forall (accepts c) u /\ denote l w' rest
  | End :: _ => w = [] /\ rest = []
  end.

Lemma re_ind (P : list Z -> Prop) :
  P [] -> (forall c re, P re -> P (c :: 42 :: re)) ->
  (forall c re, head re <> Some 42 -> P re -> P (c :: re)) -> forall re, P re.
Proof.
  intros H0 H1 H2 re. remember (length re) as n eqn:En. assert (Hle : (length re <= n)%nat) by lia. clear En.
  revert re Hle. induction n as [|n IH]; intros re Hle; [by destruct re; [|cbn in Hle; lia]|].
  destruct re as [|c re]; [done|]. cbn in Hle. destruct (decide (head re = Some 42)) as [E|E].
  - destruct re as [|d re]; [done|]. injection E as ->. apply H1, IH. cbn in Hle. lia.
  - apply H2; [done|]. apply IH. lia.
Qed.

Lemma matchhere_plain c re text :
  head re <> Some 42 ->
  matchhere (c :: re) text =
    if (c =? 36) && is_nil re then is_nil text
    else match text with
         | [] => false
         | t :: text => if (c =? 46) || (c =? t) then matchhere re text else false
         end.
Proof.
  intros Hre. destruct re as [|d re]; [done|]. cbn [matchhere]. by destruct (Z.eqb_spec d 42) as [->|].
Qed.

Lemma items_plain c re :
  head re <> Some 42 -> items (c :: re) = if (c =? 36) && is_nil re then [End] else One c :: items re.
Proof. intros Hre. destruct re as [|d re]; [done|]. cbn [items]. by destruct (Z.eqb_spec d 42) as [->|]. Qed.

Lemma acceptsP c t : (c =? 46) || (c =? t) = true <-> accepts c t.
Proof. unfold accepts. rewrite orb_true_iff, !Z.eqb_eq. done. Qed.

Lemma is_nilP s : is_nil s = true <-> s = [].
Proof. by destruct s. Qed.

(** What a matcher that looks for a prefix finds. *)
Definition prefix_of (L : list Z -> list Z -> Prop) (text : list Z) : Prop :=
  exists w rest, text = w ++ rest /\ L w rest.

Lemma matchstar_denote here L c :
  (forall text, here text = true <-> prefix_of L text) -> forall text,
  matchstar here c text = true <->
  prefix_of (fun w rest => exists u w', w = u ++ w' /\ Forall (accepts c) u /\ L w' rest) text.
Proof.
  intros Hh. induction text as [|t text IH]; cbn [matchstar]; destruct (here _) eqn:E.
  1,3: apply Hh in E as (w & rest & Ew & HL); split; [intros _|done]; exists w, rest; split; [done|];
    exists [], w; by repeat constructor.
  - split; [done|]. intros (w & rest & Ew & u & w' & -> & Hu & HL). exfalso.
    destruct u; [|done]. assert (prefix_of L []) as Hx%Hh by (by exists w', rest). congruence.
  - destruct ((t =? c) || (c =? 46)) eqn:Ea.
    + rewrite IH. assert (Hacc : accepts c t) by (apply acceptsP; lia). split.
      * intros (w & rest & -> & u & w' & -> & Hu & HL). exists (t :: u ++ w'), rest. split; [done|].
        exists (t :: u), w'. repeat split; [by constructor|done].
      * intros (w & rest & Ew & u & w' & -> & Hu & HL). destruct u as [|t' u].
        { exfalso. assert (prefix_of L (t :: text)) as Hx%Hh by (by exists w', rest). congruence. }
        injection Ew as -> ->. exists (u ++ w'), rest. split; [done|]. exists u, w'. by inversion Hu.
    + split; [done|]. intros (w & rest & Ew & u & w' & -> & Hu & HL). exfalso. destruct u as [|t' u].
      * assert (prefix_of L (t :: text)) as Hx%Hh by (by exists w', rest). congruence.
      * injection Ew as -> ->. inversion Hu as [|? ? Hacc]; subst. apply acceptsP in Hacc. lia.
Qed.

Lemma matchhere_denote re : forall text, matchhere re text = true <-> prefix_of (denote (items re)) text.
Proof.
  induction re as [|c re IH|c re Hre IH] using re_ind; intros text.
  - split; [intros _|done]. by exists [], text.
  - cbn [matchhere items]. rewrite Z.eqb_refl. by apply matchstar_denote.
  - rewrite matchhere_plain, items_plain by done. destruct ((c =? 36) && is_nil re).
    + rewrite is_nilP. split; [intros ->; by exists [], []|]. by intros (w & rest & -> & -> & ->).
    + cbn [denote]. destruct text as [|t text].
      * split; [done|]. intros (w & rest & Ew & t & w' & -> & _). done.
      * destruct ((c =? 46) || (c =? t)) eqn:Ea.
        -- apply acceptsP in Ea. rewrite IH. split.
           ++ intros (w & rest & -> & HL). exists (t :: w), rest. split; [done|]. by exists t, w.
           ++ intros (w & rest & Ew & t' & w' & -> & _ & HL). injection Ew as -> ->. by exists w', rest.
        -- split; [done|]. intros (w & rest & Ew & t' & w' & -> & Hacc & HL). injection Ew as -> ->.
           apply acceptsP in Hacc. congruence.
Qed.

Lemma match_loop_denote re text :
  match_loop re text = true <-> exists before after, text = before ++ after /\ prefix_of (denote (items re)) after.
Proof.
  induction text as [|t text IH]; cbn [match_loop]; destruct (matchhere _ _) eqn:E.
  1,3: apply matchhere_denote in E; split; [intros _; exists []; eauto|done].
  - split; [done|]. intros (b & a & Eb & Hp). destruct b; [|done]. destruct a; [|done].
    apply matchhere_denote in Hp. congruence.
  - rewrite IH. split.
    + intros (b & a & -> & Hp). by exists (t :: b), a.
    + intros (b & a & Eb & Hp). destruct b as [|t' b].
      * cbn in Eb. subst a. apply matchhere_denote in Hp. congruence.
      * injection Eb as -> ->. by exists b, a.
Qed.

(** C36. [match] decides the language of its pattern: it answers 1 exactly when some part
    [w] of the text is in the language, a pattern that starts with [^] matching only at
    the beginning of the text and one that ends with [$] only at its end. *)
Theorem match_correct (re text : list Z) :
  let anchored := match re with c :: _ => c =? 94 | [] => false end in
  let body := if anchored then tail re else re in
  match_re re text = true <->
  exists before w after, text = before ++ w ++ after /\ denote (items body) w after /\ (anchored = true -> before = []).
Proof.
  cbn zeta. destruct re as [|c re].
  - cbn. rewrite match_loop_denote. split.
    + intros (b & a & -> & w & rest & -> & HL). by exists b, w, rest.
    + intros (b & w & a & -> & HL & _). exists b, (w ++ a). split; [done|]. by exists w, a.
  - cbn [match_re]. destruct (c =? 94) eqn:Ec; cbn [tail].
    + rewrite matchhere_denote. split.
      * intros (w & rest & -> & HL). by exists [], w, rest.
      * intros (b & w & a & -> & HL & Hb). rewrite Hb by done. by exists w, a.
    + rewrite match_loop_denote. split.
      * intros (b & a & -> & w & rest & -> & HL). by exists b, w, rest.
      * intros (b & w & a & -> & HL & _). exists b, (w ++ a). split; [done|]. by exists w, a.
Qed.

(** ** The lines of the input *)

(** The lines of [text] that end in a newline, the first one starting with [cur], and
    what follows the last newline. *)
Fixpoint lines_of (cur text : list Z) : list (list Z) * list Z :=
  match text with
  | [] => ([], cur)
  | c :: text =>
      if c =? 10 then (cur :: fst (lines_of [] text), snd (lines_of [] text))
      else lines_of (cur ++ [c]) text
  end.

Definition printed (pattern : list Z) (ls : list (list Z)) : list Z :=
  concat (map (fun l => if match_re pattern l then l ++ [10] else []) ls).

Lemma lines_of_app a : forall cur b,
  lines_of cur (a ++ b) =
  (fst (lines_of cur a) ++ fst (lines_of (snd (lines_of cur a)) b), snd (lines_of (snd (lines_of cur a)) b)).
Proof.
  induction a as [|c a IH]; intros cur b; cbn [lines_of app fst snd]; [by destruct (lines_of cur b)|].
  destruct (c =? 10); [|by rewrite IH]. by rewrite (IH []).
Qed.

Lemma lines_of_line l : forall cur, 10 ∉ l -> lines_of cur l = ([], cur ++ l).
Proof.
  induction l as [|c l IH]; intros cur Hl; cbn [lines_of]; [by rewrite app_nil_r|].
  apply not_elem_of_cons in Hl as [Hc Hl]. destruct (Z.eqb_spec c 10) as [->|]; [done|].
  rewrite IH by done. by rewrite <- app_assoc.
Qed.

Lemma lines_of_rest text : forall cur, 10 ∉ cur -> 10 ∉ snd (lines_of cur text).
Proof.
  induction text as [|c text IH]; intros cur Hc; cbn [lines_of snd]; [done|].
  destruct (Z.eqb_spec c 10) as [->|]; cbn [snd]; [apply IH, not_elem_of_nil|].
  apply IH. rewrite elem_of_app, list_elem_of_singleton. naive_solver.
Qed.

Lemma lines_of_incl text : forall cur x, x ∈ snd (lines_of cur text) -> x ∈ cur ++ text.
Proof.
  induction text as [|c text IH]; intros cur x; cbn [lines_of snd]; [by rewrite app_nil_r|].
  destruct (c =? 10); cbn [snd]; intros Hx; apply IH in Hx; revert Hx; rewrite !elem_of_app, ?elem_of_cons, ?elem_of_nil; tauto.
Qed.

(** The lines before the first one of more than [k] characters. *)
Fixpoint leading (k : nat) (ls : list (list Z)) : list (list Z) :=
  match ls with
  | [] => []
  | l :: ls => if decide (length l <= k)%nat then l :: leading k ls else []
  end.

Lemma leading_app k ls ls' : Forall (fun l => (length l <= k)%nat) ls -> leading k (ls ++ ls') = ls ++ leading k ls'.
Proof. induction 1 as [|l ls Hl _ IH]; cbn [leading app]; [done|]. by rewrite decide_True, IH. Qed.

(** A line that has more than [k] characters already. *)
Lemma leading_long k text : forall cur, (k < length cur)%nat -> leading k (fst (lines_of cur text)) = [].
Proof.
  induction text as [|c text IH]; intros cur Hk; cbn [lines_of]; [done|].
  destruct (c =? 10); [cbn [fst leading]; by rewrite decide_False by lia|]. apply IH. rewrite length_app. lia.
Qed.

Lemma lines_of_short k text : forall cur, (length cur + length text <= S k)%nat ->
  Forall (fun l => (length l <= k)%nat) (fst (lines_of cur text)).
Proof.
  induction text as [|c text IH]; intros cur Hk; cbn [lines_of length] in *; [constructor|].
  destruct (c =? 10); [constructor; [lia|]; apply IH; cbn; lia|]. apply IH. rewrite length_app. cbn. lia.
Qed.

Lemma drop_insert_at {A} (buf l rest : list A) p c x :
  drop p buf = l ++ c :: rest -> drop p (<[(p + length l)%nat := x]> buf) = l ++ x :: rest.
Proof.
  intros E. rewrite drop_insert_ge by lia. rewrite E.
  replace (p + length l - p)%nat with (length l + 0)%nat by lia. by rewrite insert_app_r.
Qed.

(** A read of no bytes returns 0. *)
Class ReadNone (S : Type) `{FileIO S} :=
  read_none : forall s fd, exists s', answer _ (Read fd 0) s = ((0, []), s') /\ forall fd', output s' fd' = output s fd'.

#[global] Instance fakeos_none : ReadNone fakeos.
Proof. intros s fd. eexists. split; [reflexivity|done]. Qed.

Section GrepLoop.
Context {S : Type} `{ReadNone S}.

(** A step of the inner loop on a line [l] of the buffer. *)
Lemma grep_line_line pattern p buf l rest junk s :
  drop p buf = (l ++ 10 :: rest) ++ 0 :: junk -> 0 ∉ l ++ 10 :: rest -> 10 ∉ l ->
  exists buf' s', run (grep_line pattern (p, buf)) s = (Returned (inl (Datatypes.S (p + length l), buf')), s') /\
    length buf' = length buf /\ drop (Datatypes.S (p + length l)) buf' = rest ++ 0 :: junk /\
    output s' 1 = output s 1 ++ printed pattern [l] /\
    (forall fd, fd <> 1 -> output s' fd = output s fd) /\ (forall fd, input s' fd = input s fd).
Proof.
  intros Ed H0l Hl. unfold grep_line. rewrite Ed, until_nul_app by done.
  rewrite strchr_at by done.
  rewrite <- app_assoc in Ed. cbn [app] in Ed.
  assert (E0 := drop_insert_at buf l (rest ++ 0 :: junk) p 10 0 Ed).
  assert (E1 := drop_insert_at _ l (rest ++ 0 :: junk) p 0 10 E0).
  rewrite E0, until_nul_app by (intros ?; apply H0l; rewrite elem_of_app; auto).
  assert (Hdrop : forall b c, drop p b = l ++ c :: rest ++ 0 :: junk ->
    drop (Datatypes.S (p + length l)) b = rest ++ 0 :: junk).
  { intros b c Eb. replace (Datatypes.S (p + length l)) with (p + Datatypes.S (length l))%nat by lia.
    rewrite <- drop_drop, Eb, drop_app_ge by lia. by replace (Datatypes.S (length l) - length l)%nat with 1%nat by lia. }
  unfold printed. cbn [map concat]. rewrite app_nil_r. destruct (match_re pattern l).
  - rewrite E1. replace (p + length l + 1 - p)%nat with (length (l ++ [10])) by (rewrite length_app; cbn; lia).
    replace (take _ _) with (l ++ [10]).
    2: { rewrite (cons_middle 10 l (rest ++ _)), app_assoc. by rewrite take_app_length. }
    destruct (write_answer s 1 (l ++ [10])) as (s' & Ea & O1 & O2 & I). rewrite (run_call _ _ _ _ _ Ea).
    eexists _, s'. cbn [run]. split; [done|]. rewrite !length_insert. split; [done|]. split; [by eapply Hdrop|done].
  - eexists _, s. cbn [run]. split; [done|]. rewrite !length_insert, app_nil_r. split; [done|]. split; [by eapply Hdrop|done].
Qed.

Lemma grep_lines pattern fuel : forall p buf data junk s,
  drop p buf = data ++ 0 :: junk -> 0 ∉ data -> (length data < fuel)%nat ->
  exists buf' s', let rest := snd (lines_of [] data) in
    run (loop fuel (grep_line pattern) (p, buf)) s = (Returned ((p + (length data - length rest))%nat, buf'), s') /\
    length buf' = length buf /\ drop (p + (length data - length rest)) buf' = rest ++ 0 :: junk /\
    output s' 1 = output s 1 ++ printed pattern (fst (lines_of [] data)) /\
    (forall fd, fd <> 1 -> output s' fd = output s fd) /\ (forall fd, input s' fd = input s fd).
Proof.
  induction fuel as [|fuel IH]; intros p buf data junk s Ed H0d Hf; [lia|]. cbn [loop].
  pose proof (strchr_spec data 10) as Hc. destruct (Ulib.strchr data 10) as [i|] eqn:Ei.
  - destruct Hc as (l & rest & -> & -> & Hl).
    destruct (grep_line_line pattern p buf l rest junk s Ed H0d Hl) as (b1 & s1 & E1 & L1 & D1 & O1 & O1' & I1).
    rewrite (run_bind_ret _ _ _ _ _ E1). rewrite length_app in Hf. cbn [length] in Hf.
    destruct (IH (Datatypes.S (p + length l)) b1 rest junk s1 D1) as (b2 & s2 & E2 & L2 & D2 & O2 & O2' & I2).
    { intros ?. apply H0d. rewrite elem_of_app, elem_of_cons. auto. } { lia. }
    exists b2, s2. cbn zeta in *. rewrite lines_of_app, lines_of_line by done. cbn [lines_of fst snd app].
    rewrite Z.eqb_refl. cbn [fst snd]. rewrite length_app. cbn [length].
    assert (Hr : (length (snd (lines_of [] rest)) <= length rest)%nat).
    { apply (f_equal length) in D2. rewrite length_drop, length_app in D2. cbn in D2.
      apply (f_equal length) in D1. rewrite length_drop, length_app in D1. cbn in D1. lia. }
    replace (p + (length l + Datatypes.S (length rest) - length (snd (lines_of [] rest))))%nat
      with (Datatypes.S (p + length l) + (length rest - length (snd (lines_of [] rest))))%nat by lia.
    split; [done|]. split; [lia|]. split; [done|]. split.
    { rewrite O2, O1. unfold printed. cbn [map concat]. by rewrite app_nil_r, <- app_assoc. }
    split; intros fd; [intros Hfd; by rewrite O2', O1'|by rewrite I2, I1].
  - exists buf, s. rewrite lines_of_line by done. cbn [fst snd app]. rewrite Nat.sub_diag, Nat.add_0_r.
    unfold grep_line at 1. rewrite Ed, until_nul_app, Ei by done. cbn [ubind run].
    unfold printed. cbn. by rewrite app_nil_r.
Qed.

Lemma splice_chunk (buf pend bytes : list Z) m :
  length buf = BUF -> take m buf = pend -> length pend = m -> (m + length bytes < BUF)%nat ->
  <[(m + length bytes)%nat := 0]> (splice buf m bytes) = (pend ++ bytes) ++ 0 :: drop (m + length bytes + 1) buf.
Proof.
  intros Hb <- Hm Hlt. unfold splice. rewrite app_assoc.
  replace (m + length bytes)%nat with (length (take m buf ++ bytes) + 0)%nat at 1 by (rewrite length_app; lia).
  rewrite insert_app_r. f_equal. destruct (drop (m + length bytes) buf) as [|x junk] eqn:E.
  { apply (f_equal length) in E. rewrite length_drop in E. cbn in E. lia. }
  cbn. rewrite <- drop_drop, E. done.
Qed.

(** From the state in which [m] bytes [pend] of an unfinished line are in the buffer. *)
Lemma grep_loop pattern fd fuel : forall m buf pend s,
  length buf = BUF -> take m buf = pend -> length pend = m -> 10 ∉ pend -> 0 ∉ pend -> 0 ∉ input s fd ->
  (m < BUF)%nat -> (length (input s fd) < fuel)%nat ->
  exists s', run (loop fuel (grep_chunk pattern fd) (m, buf)) s = (Returned tt, s') /\
    output s' 1 = output s 1 ++ printed pattern (leading 1022 (fst (lines_of pend (input s fd)))) /\
    (forall fd', fd' <> 1 -> output s' fd' = output s fd').
Proof.
  induction fuel as [|fuel IH]; intros m buf pend s Hb Hp Hm H10 H0p H0i Hs Hf; [lia|]. cbn [loop].
  unfold grep_chunk at 1. destruct (decide (m = 1023)%nat) as [->|Hm1].
  { destruct (read_none s fd) as (s1 & E & Ho). exists s1. rewrite leading_long by lia.
    change (Z.of_nat BUF - Z.of_nat 1023 - 1) with 0. cbn [ubind call run]. rewrite E. cbn. rewrite app_nil_r. auto. }
  destruct (read_answer s fd (Z.of_nat BUF - Z.of_nat m - 1)) as (bytes & s1 & E & Ei & Hle & Hend & Ho); [unfold BUF in *; lia|].
  cbn [ubind call]. cbn [run]. rewrite E. cbn [fst snd]. destruct bytes as [|c bytes].
  { cbn. rewrite (Hend eq_refl). cbn. exists s1. rewrite app_nil_r. auto. }
  rewrite Nat2Z.id. remember (c :: bytes) as chunk eqn:Ech. assert (Hne : (0 < length chunk)%nat) by (subst chunk; cbn; lia). clear Ech Hend.
  destruct (Z.leb_spec (Z.of_nat (length chunk)) 0) as [|_]; [lia|].
  rewrite Ei in H0i, Hf |- *. rewrite (splice_chunk _ pend) by (done || unfold BUF in *; lia).
  destruct (grep_lines pattern (Datatypes.S BUF) 0 ((pend ++ chunk) ++ 0 :: drop (m + length chunk + 1) buf)
    (pend ++ chunk) (drop (m + length chunk + 1) buf) s1 eq_refl) as (b2 & s2 & E2 & L2 & D2 & O2 & O2' & I2).
  { rewrite elem_of_app in *. tauto. } { rewrite length_app. unfold BUF in *. lia. }
  assert (El : lines_of [] (pend ++ chunk) = lines_of pend chunk) by (rewrite lines_of_app, lines_of_line by done; symmetry; apply surjective_pairing).
  cbn zeta in E2, D2. rewrite El in E2, D2, O2. set (rest := snd (lines_of pend chunk)) in *.
  rewrite run_bind, (run_bind_ret _ _ _ _ _ E2). cbn [run].
  assert (Hlr : (length rest <= m + length chunk)%nat).
  { apply (f_equal length) in D2. rewrite length_drop, L2, !length_app in D2. cbn in D2. lia. }
  rewrite length_app, Hm in D2 |- *. cbn [Nat.add] in D2 |- *.
  replace (m + length chunk - (m + length chunk - length rest))%nat with (length rest) by lia.
  rewrite D2, take_app_length. rewrite lines_of_app. fold rest. cbn [fst].
  rewrite leading_app by (apply lines_of_short; unfold BUF in *; lia).
  destruct (IH (length rest) (splice b2 0 rest) rest s2) as (s3 & E3 & O3 & O3').
  - unfold splice. rewrite take_0. cbn [app]. rewrite length_app, length_drop, L2.
    rewrite !length_app. cbn [length]. rewrite length_drop. unfold BUF in *. lia.
  - unfold splice. rewrite take_0. cbn [app]. apply take_app_length.
  - done.
  - by apply lines_of_rest.
  - intros Hx%lines_of_incl. rewrite elem_of_app in *. tauto.
  - rewrite I2. intros Hx. apply H0i. rewrite elem_of_app. auto.
  - unfold BUF in *. lia.
  - rewrite I2. rewrite length_app in Hf. lia.
  - exists s3. split; [done|]. rewrite O3, O2, I2, Ho. unfold printed. rewrite map_app, concat_app, app_assoc. split; [done|].
    intros fd' Hfd. by rewrite O3', O2', Ho.
Qed.
End GrepLoop.

(** C37. [grep] prints the lines of its input that match, in order, and nothing else,
    however the kernel cuts the input into reads, up to the first line of more than 1022
    characters.  There it stops: the line fills the buffer, and the [read] of the 0 bytes that are
    left looks like the end of the input.  For an input without nul bytes, and more fuel
    than it has bytes, it returns having written exactly the matching lines before
    that one that end in a newline. *)
Theorem grep_correct {S : Type} `{ReadNone S} (fuel : nat) (pattern : list Z) (fd : Z) (s : S) :
  0 ∉ input s fd -> (length (input s fd) < fuel)%nat ->
  exists s', run (grep fuel pattern fd) s = (Returned tt, s') /\
    output s' 1 = output s 1 ++ printed pattern (leading 1022 (fst (lines_of [] (input s fd)))) /\
    (forall fd', fd' <> 1 -> output s' fd' = output s fd').
Proof.
  intros H0i Hf. apply grep_loop; try done; try apply not_elem_of_nil. unfold BUF. lia.
Qed.

Lemma grep_correct_witness :
  output (snd (run (grep 100 (bytes_of "^b.*r$") 0) (mk_fakeos 3 (bytes_of "foo" ++ [10] ++ bytes_of "bar" ++ [10] ++ bytes_of "br") []))) 1
  = bytes_of "bar" ++ [10].
Proof.
  destruct (grep_correct 100 (bytes_of "^b.*r$") 0
    (mk_fakeos 3 (bytes_of "foo" ++ [10] ++ bytes_of "bar" ++ [10] ++ bytes_of "br") [])) as (s' & E & O & _).
  - apply (bool_decide_unpack _). reflexivity.
  - apply (bool_decide_unpack _). reflexivity.
  - rewrite E. exact O.
Defined.
