(* ===== verification/Utils.v ===== *)
(** * The small user programs

    user/cat.c, echo.c, wc.c, ls.c, kill.c, ln.c, mkdir.c, rm.c, zombie.c and init.c.
    Each [main] takes the argument vector; [fuel] bounds the iterations of a loop that
    reads until the end of its input, or for ever.  [cat] is proved to copy its input
    and [wc] to count lines, words and characters, however [read] cuts the input. *)
From stdpp Require Import gmap list strings.
From S2P Require Import Prelude Kstring Abi User UserLib.

(** A format that ends in a newline. *)
Definition ln (s : string) : list Z := bytes_of s ++ [10].
Definition S_ (s : list Z) : Uprintf.uarg := Uprintf.Astr (Some s).

Module Cat.
Definition BUF : Z := 512.

Definition cat (fuel : nat) (fd : Z) : prog unit :=
  loop fuel (fun _ : unit =>
    r <- call (Read fd BUF) ;;
    let '(n, bytes) := r in
    if n >? 0 then
      w <- call (Write 1 bytes) ;;
      if negb (w =? n) then Uprintf.fprintf 2 (ln "cat: write error") [] ;;; Exit 1 else Ret (inl tt)
    else if n <? 0 then Uprintf.fprintf 2 (ln "cat: read error") [] ;;; Exit 1
    else Ret (inr tt)) tt.

Fixpoint files (fuel : nat) (l : list (list Z)) : prog unit :=
  match l with
  | [] => Exit 0
  | f :: l =>
      fd <- call (Open f 0) ;;
      if fd <? 0 then Uprintf.fprintf 2 (ln "cat: cannot open %s") [S_ f] ;;; Exit 1
      else cat fuel fd ;;; call (Close fd) ;;; files fuel l
  end.

Definition main (fuel : nat) (argv : list (list Z)) : prog unit :=
  match tail argv with
  | [] => cat fuel 0 ;;; Exit 0
  | l => files fuel l
  end.
End Cat.

Module Echo.
Fixpoint words (l : list (list Z)) : prog unit :=
  match l with
  | [] => Exit 0
  | a :: l =>
      call (Write 1 a) ;;;
      call (Write 1 (match l with [] => [10] | _ => [32] end)) ;;;
      words l
  end.
Definition main (argv : list (list Z)) : prog unit := words (tail argv).
End Echo.

Module Wc.
Definition BUF : Z := 512.

(** The counters [l], [w], [c] and the flag [inword]. *)
Record counts := mk_counts { c_l : Z; c_w : Z; c_c : Z; c_in : bool }.

(** [" \r\t\n\v"] *)
Definition spaces : list Z := [32; 13; 9; 10; 11].

Definition wc_char (k : counts) (b : Z) : counts :=
  let c := i32 (c_c k + 1) in
  let l := if b =? 10 then i32 (c_l k + 1) else c_l k in
  match Ulib.strchr spaces b with
  | Some _ => mk_counts l (c_w k) c false
  | None => if negb (c_in k) then mk_counts l (i32 (c_w k + 1)) c true else mk_counts l (c_w k) c true
  end.

Definition wc (fuel : nat) (fd : Z) (name : list Z) : prog unit :=
  k <- loop fuel (fun k =>
    r <- call (Read fd BUF) ;;
    let '(n, bytes) := r in
    if n >? 0 then Ret (inl (fold_left wc_char bytes k))
    else if n <? 0 then Uprintf.printf (ln "wc: read error") [] ;;; Exit 1
    else Ret (inr k)) (mk_counts 0 0 0 false) ;;
  Uprintf.printf (ln "%d %d %d %s") [Uprintf.Aval (c_l k); Uprintf.Aval (c_w k); Uprintf.Aval (c_c k); S_ name].

Fixpoint files (fuel : nat) (l : list (list Z)) : prog unit :=
  match l with
  | [] => Exit 0
  | f :: l =>
      fd <- call (Open f 0) ;;
      if fd <? 0 then Uprintf.printf (ln "wc: cannot open %s") [S_ f] ;;; Exit 1
      else wc fuel fd f ;;; call (Close fd) ;;; files fuel l
  end.

Definition main (fuel : nat) (argv : list (list Z)) : prog unit :=
  match tail argv with
  | [] => wc fuel 0 [] ;;; Exit 0
  | l => files fuel l
  end.
End Wc.

Module Ls.
(** The characters after the last ['/'] of the reversed path. *)
Fixpoint last_elem (rpath : list Z) : list Z :=
  match rpath with
  | [] => []
  | c :: rpath => if c =? 47 then [] else c :: last_elem rpath
  end.

Definition fmtname (path : list Z) : list Z :=
  let p := rev (last_elem (rev path)) in
  if Ulib.strlen p >=? DIRSIZ then p
  else p ++ replicate (Z.to_nat (DIRSIZ - Ulib.strlen p)) 32.

Definition A_ (v : Z) : Uprintf.uarg := Uprintf.Aval v.

Definition ls_dir (fuel : nat) (path : list Z) (fd : Z) : prog unit :=
  loop fuel (fun _ : unit =>
    r <- call (Read fd DIRENT_SIZE) ;;
    let '(n, de) := r in
    if negb (n =? DIRENT_SIZE) then Ret (inr tt) else
    if de_inum de =? 0 then Ret (inl tt) else
    (* [p[DIRSIZ] = 0] ends a name of [DIRSIZ] characters *)
    let buf := path ++ [47] ++ until_nul (de_name de) in
    st <- Ulib.stat buf ;;
    if fst st <? 0 then Uprintf.printf (ln "ls: cannot stat %s") [S_ buf] ;;; Ret (inl tt) else
    let st := snd st in
    Uprintf.printf (ln "%s %d %d %d") [S_ (fmtname buf); A_ (st_type st); A_ (st_ino st); A_ (st_size st)] ;;;
    Ret (inl tt)) tt.

Definition ls (fuel : nat) (path : list Z) : prog unit :=
  fd <- call (Open path 0) ;;
  if fd <? 0 then Uprintf.fprintf 2 (ln "ls: cannot open %s") [S_ path] else
  r <- call (Fstat fd) ;;
  if fst r <? 0 then
    Uprintf.fprintf 2 (ln "ls: cannot stat %s") [S_ path] ;;; call (Close fd) ;;; Ret tt
  else
    let st := snd r in
    (if st_type st =? T_FILE then
       Uprintf.printf (ln "%s %d %d %l") [S_ (fmtname path); A_ (st_type st); A_ (st_ino st); A_ (st_size st)]
     else if st_type st =? T_DIR then
       if Ulib.strlen path + 1 + DIRSIZ + 1 >? 512 then Uprintf.printf (ln "ls: path too long") []
       else ls_dir fuel path fd
     else Ret tt) ;;;
    call (Close fd) ;;; Ret tt.

Definition main (fuel : nat) (argv : list (list Z)) : prog unit :=
  match tail argv with
  | [] => ls fuel (bytes_of ".") ;;; Exit 0
  | l => ueach l (ls fuel) ;;; Exit 0
  end.
End Ls.

Module Kill.
Definition main (argv : list (list Z)) : prog unit :=
  match tail argv with
  | [] => Uprintf.fprintf 2 (ln "usage: kill pid...") [] ;;; Exit 1
  | l => ueach l (fun a => call (User.Kill (Ulib.atoi a)) ;;; Ret tt) ;;; Exit 0
  end.
End Kill.

Module Ln.
Definition main (argv : list (list Z)) : prog unit :=
  match argv with
  | [_; old; new] =>
      r <- call (Link old new) ;;
      uwhen (r <? 0) (Uprintf.fprintf 2 (ln "link %s %s: failed") [S_ old; S_ new]) ;;;
      Exit 0
  | _ => Uprintf.fprintf 2 (ln "Usage: ln old new") [] ;;; Exit 1
  end.
End Ln.

Module Mkdir.
Fixpoint each (l : list (list Z)) : prog unit :=
  match l with
  | [] => Exit 0
  | a :: l =>
      r <- call (User.Mkdir a) ;;
      if r <? 0 then Uprintf.fprintf 2 (ln "mkdir: %s failed to create") [S_ a] ;;; Exit 0 else each l
  end.
Definition main (argv : list (list Z)) : prog unit :=
  match tail argv with
  | [] => Uprintf.fprintf 2 (ln "Usage: mkdir files...") [] ;;; Exit 1
  | l => each l
  end.
End Mkdir.

Module Rm.
Fixpoint each (l : list (list Z)) : prog unit :=
  match l with
  | [] => Exit 0
  | a :: l =>
      r <- call (Unlink a) ;;
      if r <? 0 then Uprintf.fprintf 2 (ln "rm: %s failed to delete") [S_ a] ;;; Exit 0 else each l
  end.
Definition main (argv : list (list Z)) : prog unit :=
  match tail argv with
  | [] => Uprintf.fprintf 2 (ln "Usage: rm files...") [] ;;; Exit 1
  | l => each l
  end.
End Rm.

Module Zombie.
Definition main : prog unit :=
  r <- call Fork ;;
  uwhen (r >? 0) (call (Sleep 5) ;;; Ret tt) ;;;
  Exit 0.
End Zombie.

Module Init.
(** The inner loop: wait for the shell. *)
Definition wait_shell (fuel : nat) (pid : Z) : prog unit :=
  loop fuel (fun _ : unit =>
    r <- call Wait ;;
    let wpid := fst r in
    if wpid =? pid then Ret (inr tt)
    else if wpid <? 0 then Uprintf.printf (ln "init: wait returned an error") [] ;;; Exit 1
    else Ret (inl tt)) tt.

Definition start_sh (fuel : nat) : prog unit :=
  Uprintf.printf (ln "init: starting sh") [] ;;;
  pid <- call Fork ;;
  if pid <? 0 then Uprintf.printf (ln "init: fork failed") [] ;;; Exit 1
  else if pid =? 0 then
    call (Exec (bytes_of "sh") [bytes_of "sh"]) ;;;
    Uprintf.printf (ln "init: exec sh failed") [] ;;; Exit 1
  else wait_shell fuel pid.

Definition main (fuel : nat) : prog unit :=
  fd <- call (Open (bytes_of "console") O_RDWR) ;;
  uwhen (fd <? 0)
    (call (Mknod (bytes_of "console") CONSOLE 0) ;;;
     call (Open (bytes_of "console") O_RDWR) ;;; Ret tt) ;;;
  call (Dup 0) ;;;
  call (Dup 0) ;;;
  loop fuel (fun _ : unit => start_sh fuel ;;; Ret (inl tt)) tt.
End Init.

(** ** Theorems *)

Section Cat.
Context {S : Type} `{FileIO S}.

Lemma cat_loop fd fuel : forall s,
  (length (input s fd) < fuel)%nat ->
  exists s', run (Cat.cat fuel fd) s = (Returned tt, s') /\ output s' 1 = output s 1 ++ input s fd /\
    (forall fd', fd' <> 1 -> output s' fd' = output s fd').
Proof.
  unfold Cat.cat. induction fuel as [|fuel IH]; intros s Hf; [lia|]. cbn [loop].
  destruct (read_answer s fd Cat.BUF) as (bytes & s1 & E & Ei & Hle & Hend & Ho); [done|].
  rewrite run_bind, (run_call _ _ _ _ _ E). destruct bytes as [|b bytes].
  { change (Z.of_nat (length []) >? 0) with false. change (Z.of_nat (length []) <? 0) with false. cbn [run].
    exists s1. rewrite (Hend eq_refl), app_nil_r. auto. }
  remember (b :: bytes) as chunk eqn:Ec. assert (Hne : (0 < length chunk)%nat) by (subst; cbn; lia). clear Ec Hend.
  rewrite Z.gtb_ltb. destruct (Z.ltb_spec 0 (Z.of_nat (length chunk))); [|lia].
  destruct (write_answer s1 1 chunk) as (s2 & E2 & O1 & O2 & I). rewrite (run_call _ _ _ _ _ E2), Z.eqb_refl. cbn [negb run].
  rewrite Ei in Hf |- *. rewrite length_app in Hf. destruct (IH s2) as (s3 & E3 & O3 & O3'); [rewrite I; lia|].
  exists s3. split; [done|]. rewrite O3, O1, I, Ho, app_assoc. split; [done|]. intros fd' Hfd. by rewrite O3', O2, Ho.
Qed.
End Cat.

(** [cat] copies its input to the standard output unchanged, whatever the sizes of
    the reads, and writes nothing else. *)
Theorem cat_correct {S : Type} `{FileIO S} (fuel : nat) (fd : Z) (s : S) :
  (length (input s fd) < fuel)%nat ->
  exists s', run (Cat.cat fuel fd) s = (Returned tt, s') /\ output s' 1 = output s 1 ++ input s fd /\
    (forall fd', fd' <> 1 -> output s' fd' = output s fd').
Proof. apply cat_loop. Qed.

Lemma cat_correct_witness :
  output (snd (run (Cat.cat 10 0) (mk_fakeos 2 [1; 2; 3; 4; 5; 6; 7] []))) 1 = [1; 2; 3; 4; 5; 6; 7].
Proof.
  destruct (cat_correct 10 0 (mk_fakeos 2 [1; 2; 3; 4; 5; 6; 7] [])) as (s' & E & O & _); [cbn; lia|].
  rewrite E. exact O.
Defined.

(** What [wc] is to count: newlines, maximal runs of characters that are not space. *)
Definition is_space (b : Z) : bool := bool_decide (b ∈ Wc.spaces).
Definition lines (text : list Z) : nat := length (filter (fun b => b = 10) text).

(** The fields of the text between characters that are space. *)
Fixpoint fields (cur text : list Z) : list (list Z) :=
  match text with
  | [] => [cur]
  | b :: text => if is_space b then cur :: fields [] text else fields (cur ++ [b]) text
  end.
Definition words (text : list Z) : nat := length (filter (fun f => f <> []) (fields [] text)).

Lemma lines_cons b text : lines (b :: text) = ((if Z.eqb b 10 then 1 else 0) + lines text)%nat.
Proof.
  unfold lines. destruct (Z.eqb_spec b 10); [rewrite filter_cons_True by done|rewrite filter_cons_False by done]; done.
Qed.

Lemma wc_char_step k b :
  0 <= Wc.c_l k < 2 ^ 31 - 1 -> 0 <= Wc.c_w k < 2 ^ 31 - 1 -> 0 <= Wc.c_c k < 2 ^ 31 - 1 ->
  Wc.wc_char k b =
    if is_space b then Wc.mk_counts (if b =? 10 then Wc.c_l k + 1 else Wc.c_l k) (Wc.c_w k) (Wc.c_c k + 1) false
    else Wc.mk_counts (if b =? 10 then Wc.c_l k + 1 else Wc.c_l k) (if Wc.c_in k then Wc.c_w k else Wc.c_w k + 1) (Wc.c_c k + 1) true.
Proof.
  intros. unfold Wc.wc_char. rewrite !i32_id by lia. unfold is_space. rewrite <- strchr_in.
  destruct (Ulib.strchr Wc.spaces b); [done|]. by destruct (Wc.c_in k).
Qed.

(** The state machine counts a word when it starts; [cur] is the field it is in. *)
Lemma wc_fold text : forall k cur,
  Wc.c_in k = negb (bool_decide (cur = [])) ->
  0 <= Wc.c_l k -> 0 <= Wc.c_w k -> 0 <= Wc.c_c k ->
  Wc.c_l k + Z.of_nat (length text) < 2 ^ 31 -> Wc.c_w k + Z.of_nat (length text) < 2 ^ 31 ->
  Wc.c_c k + Z.of_nat (length text) < 2 ^ 31 ->
  let k' := fold_left Wc.wc_char text k in
  Wc.c_l k' = Wc.c_l k + Z.of_nat (lines text) /\ Wc.c_c k' = Wc.c_c k + Z.of_nat (length text) /\
  Wc.c_w k' + (if Wc.c_in k then 1 else 0) =
    Wc.c_w k + Z.of_nat (length (filter (fun f => f <> []) (fields cur text))).
Proof.
  induction text as [|b text IH]; intros k cur Hin Hl Hw Hc Bl Bw Bc; cbn zeta.
  { cbn [fold_left fields lines filter]. rewrite Hin. case_bool_decide as E; cbn [negb].
    - rewrite filter_cons_False by tauto. cbn. unfold lines. cbn. lia.
    - rewrite filter_cons_True by done. cbn. unfold lines. cbn. lia. }
  cbn [fold_left]. cbn [length] in *. rewrite Nat2Z.inj_succ in *. rewrite lines_cons, wc_char_step by lia. cbn [fields].
  set (l := if b =? 10 then Wc.c_l k + 1 else Wc.c_l k).
  assert (Hlb : Wc.c_l k <= l <= Wc.c_l k + 1 /\ l + Z.of_nat (lines text) =
    Wc.c_l k + Z.of_nat ((if Z.eqb b 10 then 1 else 0) + lines text)) by (subst l; destruct (b =? 10); lia).
  destruct Hlb as [Hlb <-]. clearbody l. destruct (is_space b).
  - destruct (IH (Wc.mk_counts l (Wc.c_w k) (Wc.c_c k + 1) false) []) as (I1 & I2 & I3);
      cbn [Wc.c_in Wc.c_l Wc.c_w Wc.c_c] in *; try done; try lia.
    split; [done|]. split; [lia|]. rewrite Hin. case_bool_decide as E; cbn [negb].
    + rewrite filter_cons_False by tauto. lia.
    + rewrite filter_cons_True by done. cbn [length]. lia.
  - destruct (IH (Wc.mk_counts l (if Wc.c_in k then Wc.c_w k else Wc.c_w k + 1) (Wc.c_c k + 1) true) (cur ++ [b]))
      as (I1 & I2 & I3); cbn [Wc.c_in Wc.c_l Wc.c_w Wc.c_c] in *; try (destruct (Wc.c_in k); lia).
    { rewrite bool_decide_eq_false_2; [done|]. by destruct cur. }
Qed.

Section Wc.
Context {S : Type} `{FileIO S}.

Lemma wc_loop fd fuel : forall k s,
  (length (input s fd) < fuel)%nat ->
  exists s', run (loop fuel (fun k =>
      r <- call (Read fd Wc.BUF) ;;
      let '(n, bytes) := r in
      if n >? 0 then Ret (inl (fold_left Wc.wc_char bytes k))
      else if n <? 0 then Uprintf.printf (ln "wc: read error") [] ;;; Exit 1
      else Ret (inr k)) k) s = (Returned (fold_left Wc.wc_char (input s fd) k), s') /\
    (forall fd', output s' fd' = output s fd').
Proof.
  induction fuel as [|fuel IH]; intros k s Hf; [lia|]. cbn [loop].
  destruct (read_answer s fd Wc.BUF) as (bytes & s1 & E & Ei & Hle & Hend & Ho); [done|].
  rewrite run_bind, (run_call _ _ _ _ _ E). destruct bytes as [|b bytes].
  { change (Z.of_nat (length []) >? 0) with false. change (Z.of_nat (length []) <? 0) with false. cbn [run].
    exists s1. by rewrite (Hend eq_refl). }
  remember (b :: bytes) as chunk eqn:Ec. assert (Hne : (0 < length chunk)%nat) by (subst; cbn; lia). clear Ec Hend.
  rewrite Z.gtb_ltb. destruct (Z.ltb_spec 0 (Z.of_nat (length chunk))); [|lia]. cbn [run].
  rewrite Ei in Hf |- *. rewrite length_app in Hf. rewrite fold_left_app.
  destruct (IH (fold_left Wc.wc_char chunk k) s1) as (s2 & E2 & O2); [lia|].
  exists s2. split; [done|]. intros fd'. by rewrite O2, Ho.
Qed.
End Wc.

Definition decimal (n : nat) : list Z := Uprintf.int_chars (Z.of_nat n) 10 true.

Lemma words_bound text : forall cur,
  (length (filter (fun f => f <> []) (fields cur text)) <= length text + (if bool_decide (cur = []) then 0 else 1))%nat.
Proof.
  induction text as [|b text IH]; intros cur; cbn [fields length].
  { case_bool_decide; [rewrite filter_cons_False by tauto|rewrite filter_cons_True by done]; cbn; lia. }
  destruct (is_space b).
  - specialize (IH []). rewrite bool_decide_eq_true_2 in IH by done.
    case_bool_decide; [rewrite filter_cons_False by tauto|rewrite filter_cons_True by done]; cbn [length]; lia.
  - specialize (IH (cur ++ [b])). rewrite bool_decide_eq_false_2 in IH by (by destruct cur). lia.
Qed.

Lemma format_wc a b c n :
  format (ln "%d %d %d %s") false [Uprintf.Aval a; Uprintf.Aval b; Uprintf.Aval c; S_ n] =
  Some (Uprintf.int_chars (i32 a) 10 true ++ [32] ++ Uprintf.int_chars (i32 b) 10 true ++ [32] ++
        Uprintf.int_chars (i32 c) 10 true ++ [32] ++ n ++ [10]).
Proof. reflexivity. Qed.

(** [wc] prints the number of newlines, of words (maximal runs of characters other
    than blank, tab, carriage return, newline and vertical tab) and of characters of
    its input, whatever the sizes of the reads; a word cut by the end of a read is
    counted once. *)
Theorem wc_correct {S : Type} `{FileIO S} (fuel : nat) (fd : Z) (name : list Z) (s : S) :
  let text := input s fd in
  (length text < fuel)%nat -> Z.of_nat (length text) < 2 ^ 31 ->
  exists s', run (Wc.wc fuel fd name) s = (Returned tt, s') /\
    output s' 1 = output s 1 ++ map u8 (decimal (lines text) ++ [32] ++ decimal (words text) ++ [32] ++
                                        decimal (length text) ++ [32] ++ name ++ [10]) /\
    (forall fd', fd' <> 1 -> output s' fd' = output s fd').
Proof.
  intros text Hf Hb. unfold Wc.wc. destruct (wc_loop fd fuel (Wc.mk_counts 0 0 0 false) s Hf) as (s1 & E & Ho).
  rewrite (run_bind_ret _ _ _ _ _ E). fold text in E |- *.
  destruct (wc_fold text (Wc.mk_counts 0 0 0 false) []) as (K1 & K2 & K3); cbn [Wc.c_in Wc.c_l Wc.c_w Wc.c_c]; try done.
  cbn [Wc.c_in Wc.c_l Wc.c_w Wc.c_c] in K1, K2, K3. fold (words text) in K3. rewrite Z.add_0_r in K3. rewrite K1, K2, K3, !Z.add_0_l.
  assert (Hl : Z.of_nat (lines text) <= Z.of_nat (length text)) by (unfold lines; pose proof (length_filter (fun b => b = 10) text); lia).
  pose proof (words_bound text []) as Hw. fold (words text) in Hw. rewrite bool_decide_eq_true_2 in Hw by done.
  destruct (writes_vprintf 1 (ln "%d %d %d %s") false
    [Uprintf.Aval (Z.of_nat (lines text)); Uprintf.Aval (Z.of_nat (words text)); Uprintf.Aval (Z.of_nat (length text)); S_ name]
    (decimal (lines text) ++ [32] ++ decimal (words text) ++ [32] ++ decimal (length text) ++ [32] ++ name ++ [10]))
    with (s := s1) as ([] & s2 & E2 & O1 & O2 & _).
  { rewrite format_wc. do 3 rewrite i32_id by lia. done. }
  exists s2. split; [done|]. rewrite O1, Ho. split; [done|]. intros fd' Hne. by rewrite O2, Ho.
Qed.

Lemma wc_correct_witness :
  output (snd (run (Wc.wc 40 0 (bytes_of "f")) (mk_fakeos 4 (bytes_of "one  two" ++ [10] ++ bytes_of " three" ++ [9; 10]) []))) 1
  = bytes_of "2 3 17 f" ++ [10].
Proof.
  destruct (wc_correct 40 0 (bytes_of "f") (mk_fakeos 4 (bytes_of "one  two" ++ [10] ++ bytes_of " three" ++ [9; 10]) []))
    as (s' & E & O & _).
  - apply (bool_decide_unpack _). reflexivity.
  - apply (bool_decide_unpack _). reflexivity.
  - rewrite E. exact O.
Defined.
