(* ===== verification/Gallery.v ===== *)
(** * user/gallery.c: the picture viewer

    The pixels are in the program's heap, three bytes each; [pa] and [pb] are the two
    buffers [imgread] gets from [sbrk].  The flips are proved to mirror the picture,
    [draw] to stay on the screen, and the rotation to write outside its buffer. *)
From stdpp Require Import gmap list strings.
From S2P Require Import Prelude Kstring Abi User UserLib.

(** struct Pixel; [char] is unsigned on this machine. *)
Record Pixel := mk_pixel { px_b : Z; px_g : Z; px_r : Z }.

(** The global variables; [g_img_pixels] is [img.pixels]. *)
Record gallery := mk_gallery {
  g_heap : mem;
  g_fh : list Z;
  g_ih : list Z;
  g_width : Z;
  g_height : Z;
  g_pixels : Z;
  g_fd : Z;
  g_pa : Z;
  g_pb : Z;
  g_a : bool;
  g_xpos : Z;
  g_ypos : Z;
  g_zoom : Z
}.
Definition set_g_heap v g := mk_gallery v (g_fh g) (g_ih g) (g_width g) (g_height g) (g_pixels g) (g_fd g) (g_pa g) (g_pb g) (g_a g) (g_xpos g) (g_ypos g) (g_zoom g).
Definition set_g_headers fh ih g := mk_gallery (g_heap g) fh ih (g_width g) (g_height g) (g_pixels g) (g_fd g) (g_pa g) (g_pb g) (g_a g) (g_xpos g) (g_ypos g) (g_zoom g).
Definition set_g_size w h g := mk_gallery (g_heap g) (g_fh g) (g_ih g) w h (g_pixels g) (g_fd g) (g_pa g) (g_pb g) (g_a g) (g_xpos g) (g_ypos g) (g_zoom g).
Definition set_g_pixels v g := mk_gallery (g_heap g) (g_fh g) (g_ih g) (g_width g) (g_height g) v (g_fd g) (g_pa g) (g_pb g) (g_a g) (g_xpos g) (g_ypos g) (g_zoom g).
Definition set_g_fd v g := mk_gallery (g_heap g) (g_fh g) (g_ih g) (g_width g) (g_height g) (g_pixels g) v (g_pa g) (g_pb g) (g_a g) (g_xpos g) (g_ypos g) (g_zoom g).
Definition set_g_bufs pa pb g := mk_gallery (g_heap g) (g_fh g) (g_ih g) (g_width g) (g_height g) (g_pixels g) (g_fd g) pa pb (g_a g) (g_xpos g) (g_ypos g) (g_zoom g).
Definition set_g_a v g := mk_gallery (g_heap g) (g_fh g) (g_ih g) (g_width g) (g_height g) (g_pixels g) (g_fd g) (g_pa g) (g_pb g) v (g_xpos g) (g_ypos g) (g_zoom g).
Definition set_g_view x y z g := mk_gallery (g_heap g) (g_fh g) (g_ih g) (g_width g) (g_height g) (g_pixels g) (g_fd g) (g_pa g) (g_pb g) (g_a g) x y z.

(** The pixel at an address. *)
Definition pget (m : mem) (a : Z) : Pixel := mk_pixel (mget m a) (mget m (a + 1)) (mget m (a + 2)).
Definition pset (m : mem) (a : Z) (p : Pixel) : mem :=
  mset (mset (mset m a (px_b p)) (a + 1) (px_g p)) (a + 2) (px_r p).
#[global] Arguments pget : simpl never.
#[global] Arguments pset : simpl never.

(** [for (i = i0; n more times; i++) body(i)]. *)
Fixpoint upto {A} (n : nat) (i : Z) (body : Z -> A -> prog A) (x : A) : prog A :=
  match n with
  | O => Ret x
  | S n => y <- body i x ;; upto n (i + 1) body y
  end.

Definition nl : list Z := [10].

(** A row of the file, and its padding, is read into the picture; the rows are stored
    from the last one on. *)
Definition read_row (i : Z) (g : gallery) : prog gallery :=
  let y := g_height g - 1 - i in
  r <- call (Read (g_fd g) (g_width g * 3)) ;;
  let g := set_g_heap (mwrite (g_heap g) (g_pixels g + 3 * (y * g_width g)) (snd r)) g in
  let bad := Uprintf.printf (bytes_of "Invalid bitmap" ++ nl) [] ;;; call (Close (g_fd g)) ;;; Exit 0 in
  if fst r =? -1 then bad else
  r <- call (Read (g_fd g) (Z.rem (g_width g) 4)) ;;
  if fst r =? -1 then bad else Ret g.

Definition imgread (filename : list Z) (g : gallery) : prog gallery :=
  fd <- call (Open filename O_RDONLY) ;;
  let g := set_g_fd fd g in
  if fd =? -1 then Uprintf.printf (bytes_of "Invalid file" ++ nl) [] ;;; Exit 0 else
  let bad := Uprintf.printf (bytes_of "Invalid bitmap headers" ++ nl) [] ;;; call (Close fd) ;;; Exit 0 in
  r <- call (Read fd 14) ;;
  let g := set_g_headers (splice (g_fh g) 0 (snd r)) (g_ih g) g in
  if fst r =? -1 then bad else
  r <- call (Read fd 40) ;;
  let g := set_g_headers (g_fh g) (splice (g_ih g) 0 (snd r)) g in
  if fst r =? -1 then bad else
  let g := set_g_size (i32 (get_u32 (g_ih g) 4)) (i32 (get_u32 (g_ih g) 8)) g in
  let size := i32 (i32 (g_width g * g_height g) * 3) in
  pa <- call (Sbrk size) ;;
  pb <- call (Sbrk size) ;;
  let g := set_g_pixels pa (set_g_bufs pa pb g) in
  upto (Z.to_nat (g_height g)) 0 read_row g.

Definition outside (g : gallery) (x y : Z) : bool :=
  (x <? 0) || (x >=? g_width g) || (y <? 0) || (y >=? g_height g).

Definition addr (g : gallery) (x y : Z) : Z := g_pixels g + 3 * (y * g_width g + x).

Definition set_pixel (g : gallery) (x y : Z) (p : Pixel) : prog gallery :=
  if outside g x y then Uprintf.printf (bytes_of "set_pixel error" ++ nl) [] ;;; Exit 0
  else Ret (set_g_heap (pset (g_heap g) (addr g x y) p) g).

Definition get_pixel (g : gallery) (x y : Z) : Pixel :=
  if outside g x y then mk_pixel 0 0 0 else pget (g_heap g) (addr g x y).

Definition hflip_step (y x : Z) (g : gallery) : prog gallery :=
  let temp := get_pixel g x y in
  g <- set_pixel g x y (get_pixel g (g_width g - x - 1) y) ;;
  set_pixel g (g_width g - x - 1) y temp.

Definition hflip (g : gallery) : prog gallery :=
  let mid := Z.quot (g_width g) 2 in
  upto (Z.to_nat (g_height g)) 0 (fun y => upto (Z.to_nat mid) 0 (hflip_step y)) g.

Definition vflip_step (x y : Z) (g : gallery) : prog gallery :=
  let temp := get_pixel g x y in
  g <- set_pixel g x y (get_pixel g x (g_height g - y - 1)) ;;
  set_pixel g x (g_height g - y - 1) temp.

Definition vflip (g : gallery) : prog gallery :=
  let mid := Z.quot (g_height g) 2 in
  upto (Z.to_nat (g_width g)) 0 (fun x => upto (Z.to_nat mid) 0 (vflip_step x)) g.

(** [new_pixels[i * height + height - j + 1] = get_pixel(i, j)] *)
Definition rrotate_step (new i j : Z) (g : gallery) : prog gallery :=
  Ret (set_g_heap (pset (g_heap g) (new + 3 * (i * g_height g + g_height g - j + 1)) (get_pixel g i j)) g).

Definition rrotate (g : gallery) : prog gallery :=
  let new := if g_a g then g_pb g else g_pa g in
  let g := set_g_a (negb (g_a g)) g in
  g <- upto (Z.to_nat (g_width g)) 0 (fun i => upto (Z.to_nat (g_height g)) 0 (rrotate_step new i)) g ;;
  Ret (set_g_size (g_height g) (g_width g) (set_g_pixels new g)).

Definition lrotate (g : gallery) : prog gallery := upto 3 0 (fun _ g => rrotate g) g.

Definition WIDTH : Z := 320.
Definition HEIGHT : Z := 200.

(** The square of the screen that shows the pixel [(i, j)] of the view. *)
Definition draw_square (g : gallery) (i j : Z) : prog unit :=
  let p := get_pixel g (i32 (g_xpos g + i)) (i32 (g_ypos g + j)) in
  let zoom := g_zoom g in
  upto (Z.to_nat zoom) 0 (fun k => upto (Z.to_nat zoom) 0 (fun l _ =>
    call (Setpixel (i * zoom + k) (j * zoom + l) (px_r p) (px_g p) (px_b p)) ;;; Ret tt)) tt.

Definition draw (g : gallery) : prog unit :=
  let xmax := Z.quot WIDTH (g_zoom g) in
  let ymax := Z.quot HEIGHT (g_zoom g) in
  upto (Z.to_nat xmax) 0 (fun i => upto (Z.to_nat ymax) 0 (fun j _ => draw_square g i j)) tt.

Definition testcolors : prog unit :=
  upto (Z.to_nat WIDTH) 0 (fun i => upto (Z.to_nat HEIGHT) 0 (fun j _ =>
    call (Setpixel i j i j (Z.rem (i + j * (1 - 2 * Z.rem j 2)) 256)) ;;; Ret tt)) tt.

Definition pan : Z := 8.

(** What a key does to the picture and the view, and what is printed. *)
Definition key (filename : list Z) (msg : Z) (g : gallery) : prog gallery :=
  let say s := Uprintf.printf (bytes_of s ++ nl) [] in
  let view x y z := Ret (set_g_view x y z g) in
  let x := g_xpos g in let y := g_ypos g in let z := g_zoom g in
  let shown (p : prog gallery) := g <- p ;; draw g ;;; Ret g in
  if msg =? 114 then say "Resetting" ;;; shown (imgread filename (set_g_view 0 0 1 g))
  else if msg =? 104 then say "Flipping horizontally" ;;; shown (hflip g)
  else if msg =? 118 then say "Flipping vertically" ;;; shown (vflip g)
  else if msg =? 105 then say "Zooming in" ;;; shown (view x y (i32 (z * 2)))
  else if msg =? 111 then
    if z >? 1 then say "Zooming out" ;;; shown (view x y (Z.quot z 2)) else Ret g
  else if msg =? 0x41 then say "Panning up" ;;; shown (view x (i32 (y - pan)) z)
  else if msg =? 0x42 then say "Panning down" ;;; shown (view x (i32 (y + pan)) z)
  else if msg =? 0x43 then say "Panning right" ;;; shown (view (i32 (x + pan)) y z)
  else if msg =? 0x44 then say "Panning left" ;;; shown (view (i32 (x - pan)) y z)
  else if msg =? 100 then say "Rotating left" ;;; shown (lrotate g)
  else if msg =? 102 then say "Rotating right" ;;; shown (rrotate g)
  else Ret g.

Definition eventloop (fuel : nat) (filename : list Z) (g : gallery) : prog gallery :=
  call (Listenmsgs 1) ;;;
  g <- loop fuel (fun g =>
    msg <- call Getmsg ;;
    let msg := u8 msg in
    if msg =? 0 then Ret (inl g) else
    g <- key filename msg g ;;
    Ret (if msg =? 120 then inr g else inl g)) g ;;
  call (Listenmsgs 0) ;;;
  Ret g.

Definition help : list Z :=
  nl ++ nl ++ bytes_of "Gallery" ++ nl ++
  bytes_of "     x: exit" ++ nl ++
  bytes_of "     r: reset view" ++ nl ++
  bytes_of "     h: flip horizontally" ++ nl ++
  bytes_of "     v: flip vertically" ++ nl ++
  bytes_of "     i: zoom in" ++ nl ++
  bytes_of "     o: zoom out" ++ nl ++
  bytes_of "     d: rotate left" ++ nl ++
  bytes_of "     f: rotate right" ++ nl ++
  bytes_of "     up, down, left, right arrows: pan" ++ nl ++
  bytes_of "     " ++ nl.

Definition gallery_init : gallery :=
  mk_gallery ∅ (replicate 14 0) (replicate 40 0) 0 0 0 0 0 0 true 0 0 1.

Definition main (fuel : nat) (argv : list (list Z)) : prog unit :=
  match argv with
  | [_; filename] =>
      g <- imgread filename gallery_init ;;
      Uprintf.printf (bytes_of "%s") [Uprintf.Astr (Some help)] ;;;
      draw g ;;;
      g <- eventloop fuel filename g ;;
      call (Close (g_fd g)) ;;;
      Exit 0
  | _ => testcolors ;;; Uprintf.printf (bytes_of "Usage: gallery [filename]" ++ nl) [] ;;; Exit 0
  end.

(** ** The flips *)

Definition bytes_px (p : Pixel) : Prop := is_byte (px_b p) /\ is_byte (px_g p) /\ is_byte (px_r p).

Lemma pget_bytes m a : bytes_px (pget m a).
Proof. repeat split; apply mget_byte. Qed.

Lemma get_pixel_bytes g x y : bytes_px (get_pixel g x y).
Proof. unfold get_pixel. destruct (outside g x y); [by repeat split|apply pget_bytes]. Qed.

Lemma pget_pset_eq m a p : bytes_px p -> pget (pset m a p) a = p.
Proof.
  intros (H1 & H2 & H3). unfold pget, pset. rewrite !mget_mset, !Z.eqb_refl.
  destruct p as [b gr r]. cbn [px_b px_g px_r] in *. zcase; try lia. by rewrite !u8_id.
Qed.

Lemma pget_pset_ne m a p b : b + 3 <= a \/ a + 3 <= b -> pget (pset m a p) b = pget m b.
Proof. intros Hab. unfold pget, pset. rewrite !mget_mset. by zcase; try lia. Qed.

(** [g'] differs from [g] in the heap only. *)
Definition same_shape (g g' : gallery) : Prop := g' = set_g_heap (g_heap g') g.

Lemma same_shape_refl g : same_shape g g.
Proof. by destruct g. Qed.
Lemma same_shape_trans g1 g2 g3 : same_shape g1 g2 -> same_shape g2 g3 -> same_shape g1 g3.
Proof. unfold same_shape. intros -> ->. done. Qed.
Lemma same_shape_geom g g' : same_shape g g' ->
  g_width g' = g_width g /\ g_height g' = g_height g /\ g_pixels g' = g_pixels g.
Proof. by intros ->. Qed.

(** [g'] differs from [g] in the bytes of the picture only. *)
Definition within (g g' : gallery) : Prop :=
  same_shape g g' /\
  forall a, a < g_pixels g \/ g_pixels g + 3 * (g_width g * g_height g) <= a -> mget (g_heap g') a = mget (g_heap g) a.

Lemma within_refl g : within g g.
Proof. split; [apply same_shape_refl|done]. Qed.
Lemma within_trans g1 g2 g3 : within g1 g2 -> within g2 g3 -> within g1 g3.
Proof.
  intros [S1 H1] [S2 H2]. split; [by eapply same_shape_trans|]. intros a Ha.
  destruct (same_shape_geom _ _ S1) as (Ew & Eh & Ep). rewrite H2, H1; [done|done|by rewrite Ew, Eh, Ep].
Qed.
Lemma within_geom g g' : within g g' ->
  g_width g' = g_width g /\ g_height g' = g_height g /\ g_pixels g' = g_pixels g.
Proof. intros [S _]. by apply same_shape_geom. Qed.

Definition inside (g : gallery) (x y : Z) : Prop := 0 <= x < g_width g /\ 0 <= y < g_height g.

Lemma outside_inside g x y : inside g x y -> outside g x y = false.
Proof. unfold inside, outside. lia. Qed.

Lemma addr_inj g x y x' y' : inside g x y -> inside g x' y' -> (x, y) <> (x', y') ->
  addr g x y + 3 <= addr g x' y' \/ addr g x' y' + 3 <= addr g x y.
Proof.
  unfold inside, addr. intros [Hx Hy] [Hx' Hy'] Hne. destruct (Z.eq_dec y y') as [->|].
  - assert (x <> x') by congruence. lia.
  - assert (y < y' \/ y' < y) as [] by lia; nia.
Qed.

Lemma mget_pset_ne m a p b : b < a \/ a + 3 <= b -> mget (pset m a p) b = mget m b.
Proof. intros Hab. unfold pset. rewrite !mget_mset. by zcase; try lia. Qed.

Lemma set_pixel_spec g x y p :
  inside g x y -> bytes_px p -> exists g', set_pixel g x y p = Ret g' /\ within g g' /\
    forall c r, inside g c r -> get_pixel g' c r = if decide ((c, r) = (x, y)) then p else get_pixel g c r.
Proof.
  intros Hin Hp. unfold set_pixel. rewrite outside_inside by done.
  eexists. split; [done|]. split.
  { split; [done|]. intros a Ha. cbn [g_heap set_g_heap]. apply mget_pset_ne. unfold inside, addr in *. nia. }
  intros c r Hc. unfold get_pixel.
  change (outside (set_g_heap ?h g)) with (outside g). change (addr (set_g_heap ?h g)) with (addr g).
  rewrite outside_inside by done. cbn [g_heap set_g_heap]. case_decide as E.
  - injection E as -> ->. by apply pget_pset_eq.
  - apply pget_pset_ne, addr_inj; done.
Qed.

(** Both flips exchange, in each line of the picture, position [k] with [N - 1 - k]:
    [tr] tells columns ([vflip]) from rows ([hflip]). *)
Section Mirror.
Variable tr : bool.
Definition gp (g : gallery) (o k : Z) : Pixel := if tr then get_pixel g o k else get_pixel g k o.
Definition sp (g : gallery) (o k : Z) (p : Pixel) : prog gallery := if tr then set_pixel g o k p else set_pixel g k o p.
Definition inner (g : gallery) : Z := if tr then g_height g else g_width g.
Definition outer (g : gallery) : Z := if tr then g_width g else g_height g.
Definition mirror_step (o k : Z) (g : gallery) : prog gallery :=
  let temp := gp g o k in
  g <- sp g o k (gp g o (inner g - k - 1)) ;;
  sp g o (inner g - k - 1) temp.

Lemma sp_spec g o k p :
  0 <= o < outer g -> 0 <= k < inner g -> bytes_px p -> exists g', sp g o k p = Ret g' /\ within g g' /\
    forall o' k', 0 <= o' < outer g -> 0 <= k' < inner g ->
    gp g' o' k' = if decide ((o', k') = (o, k)) then p else gp g o' k'.
Proof.
  unfold sp, gp, inner, outer. intros Ho Hk Hp. destruct tr.
  - destruct (set_pixel_spec g o k p) as (g' & E & Hs & Hg); [by split|done|].
    exists g'. split; [done|]. split; [done|]. intros o' k' Ho' Hk'. by apply Hg.
  - destruct (set_pixel_spec g k o p) as (g' & E & Hs & Hg); [by split|done|].
    exists g'. split; [done|]. split; [done|]. intros o' k' Ho' Hk'. rewrite Hg by (by split).
    repeat case_decide; congruence.
Qed.

Lemma shape_extent g g' : within g g' -> inner g' = inner g /\ outer g' = outer g.
Proof. intros Hs%within_geom. unfold inner, outer. destruct tr; tauto. Qed.

Lemma gp_bytes g o k : bytes_px (gp g o k).
Proof. unfold gp. destruct tr; apply get_pixel_bytes. Qed.

Lemma mirror_step_spec g o k :
  0 <= o < outer g -> 0 <= k < inner g - k - 1 -> exists g', mirror_step o k g = Ret g' /\ within g g' /\
    forall o' k', 0 <= o' < outer g -> 0 <= k' < inner g ->
    gp g' o' k' = if (o' =? o) && ((k' =? k) || (k' =? inner g - k - 1)) then gp g o (inner g - 1 - k') else gp g o' k'.
Proof.
  intros Ho Hk. unfold mirror_step.
  destruct (sp_spec g o k (gp g o (inner g - k - 1))) as (g1 & E1 & S1 & G1); [done|lia|apply gp_bytes|].
  rewrite E1. cbn [ubind]. destruct (shape_extent _ _ S1) as [I1 O1]. rewrite I1.
  destruct (sp_spec g1 o (inner g - k - 1) (gp g o k)) as (g2 & E2 & S2 & G2); [lia|lia|apply gp_bytes|].
  exists g2. split; [done|]. split; [by eapply within_trans|]. intros o' k' Ho' Hk'.
  rewrite G2, G1 by lia. destruct (Z.eqb_spec o' o) as [->|Hne]; cbn [andb].
  - destruct (Z.eqb_spec k' (inner g - k - 1)) as [->|Hk2]; [rewrite decide_True by done|rewrite decide_False by congruence].
    + rewrite orb_true_r. f_equal. lia.
    + destruct (Z.eqb_spec k' k) as [->|]; [rewrite decide_True by done; cbn; f_equal; lia|by rewrite decide_False by congruence].
  - by rewrite !decide_False by congruence.
Qed.

Lemma mirror_line o n : forall k g,
  0 <= o < outer g -> 0 <= k -> 2 * (k + Z.of_nat n) <= inner g ->
  exists g', upto n k (mirror_step o) g = Ret g' /\ within g g' /\
    forall o' k', 0 <= o' < outer g -> 0 <= k' < inner g ->
    gp g' o' k' = if (o' =? o) && ((k <=? k') && (k' <? k + Z.of_nat n) || (inner g - k - Z.of_nat n <=? k') && (k' <? inner g - k))
                  then gp g o (inner g - 1 - k') else gp g o' k'.
Proof.
  induction n as [|n IH]; intros k g Ho Hk Hn; cbn [upto].
  { exists g. split; [done|]. split; [apply within_refl|]. intros o' k' _ _. by zcase; try lia. }
  destruct (mirror_step_spec g o k) as (g1 & E1 & S1 & G1); [done|lia|]. rewrite E1. cbn [ubind].
  destruct (shape_extent _ _ S1) as [I1 O1].
  destruct (IH (k + 1) g1) as (g2 & E2 & S2 & G2); [lia|lia|lia|].
  exists g2. split; [done|]. split; [by eapply within_trans|]. intros o' k' Ho' Hk'.
  rewrite G2, I1 by lia. destruct (Z.eqb_spec o' o) as [->|Hne]; cbn [andb].
  - rewrite !G1 by lia. rewrite Z.eqb_refl. cbn [andb]. zcase; try lia; try done; f_equal; lia.
  - rewrite G1 by lia. by destruct (Z.eqb_spec o' o).
Qed.

Lemma mirror_all n : forall o g,
  0 <= o -> o + Z.of_nat n <= outer g -> 0 <= inner g ->
  exists g', upto n o (fun o => upto (Z.to_nat (Z.quot (inner g) 2)) 0 (mirror_step o)) g = Ret g' /\ within g g' /\
    forall o' k', 0 <= o' < outer g -> 0 <= k' < inner g ->
    gp g' o' k' = if (o <=? o') && (o' <? o + Z.of_nat n) then gp g o' (inner g - 1 - k') else gp g o' k'.
Proof.
  induction n as [|n IH]; intros o g Ho Hn Hi; cbn [upto].
  { exists g. split; [done|]. split; [apply within_refl|]. intros o' k' _ _. by zcase; try lia. }
  rewrite Z.quot_div_nonneg in * by lia.
  destruct (mirror_line o (Z.to_nat (inner g / 2)) 0 g) as (g1 & E1 & S1 & G1); [lia|lia|dlia|].
  rewrite E1. cbn [ubind]. destruct (shape_extent _ _ S1) as [I1 O1].
  destruct (IH (o + 1) g1) as (g2 & E2 & S2 & G2); [lia|lia|lia|]. rewrite I1, Z.quot_div_nonneg in E2 by lia.
  exists g2. split; [done|]. split; [by eapply within_trans|]. intros o' k' Ho' Hk'.
  rewrite G2, I1 by lia. rewrite !G1 by lia. rewrite Z2Nat.id by dlia.
  destruct (Z.eqb_spec o' o) as [->|Hne]; cbn [andb].
  - zcase; try lia; try done; try (f_equal; dlia); dlia.
  - by zcase; try lia.
Qed.
End Mirror.

Lemma flip_involutive (f : gallery -> prog gallery) (mx my : gallery -> Z -> Z) :
  (forall g, 0 <= g_width g -> 0 <= g_height g -> exists g', f g = Ret g' /\ within g g' /\
     forall x y, inside g x y -> get_pixel g' x y = get_pixel g (mx g x) (my g y)) ->
  (forall g x y, inside g x y -> inside g (mx g x) (my g y) /\ mx g (mx g x) = x /\ my g (my g y) = y) ->
  (forall g g', within g g' -> mx g' = mx g /\ my g' = my g) ->
  forall g, 0 <= g_width g -> 0 <= g_height g ->
  exists g' g'', f g = Ret g' /\ f g' = Ret g'' /\ within g g' /\ within g g'' /\
    (forall x y, inside g x y -> get_pixel g' x y = get_pixel g (mx g x) (my g y)) /\
    (forall x y, inside g x y -> get_pixel g'' x y = get_pixel g x y).
Proof.
  intros Hf Hm Hs g Hw Hh. destruct (Hf g Hw Hh) as (g' & E & S & G).
  destruct (within_geom _ _ S) as (Ew & Eh & _). destruct (Hf g') as (g'' & E' & S' & G'); [lia|lia|].
  destruct (Hs _ _ S) as [Ex Ey]. exists g', g''. do 3 (split; [done|]). split; [by eapply within_trans|].
  split; [done|]. intros x y Hin. destruct (Hm g x y Hin) as (Hin' & Mx & My).
  rewrite G' by (unfold inside in *; lia). rewrite Ex, Ey, G, Mx, My by done. done.
Qed.

(** C38. [hflip] returns the picture mirrored left to right and [vflip] top to bottom,
    for any size, odd ones included, and neither changes a byte outside of the picture;
    doing either twice restores every pixel. *)
Theorem flips_mirror (g : gallery) :
  0 <= g_width g -> 0 <= g_height g ->
  (exists g' g'', hflip g = Ret g' /\ hflip g' = Ret g'' /\ within g g' /\ within g g'' /\
    (forall x y, inside g x y -> get_pixel g' x y = get_pixel g (g_width g - 1 - x) y) /\
    (forall x y, inside g x y -> get_pixel g'' x y = get_pixel g x y)) /\
  (exists g' g'', vflip g = Ret g' /\ vflip g' = Ret g'' /\ within g g' /\ within g g'' /\
    (forall x y, inside g x y -> get_pixel g' x y = get_pixel g x (g_height g - 1 - y)) /\
    (forall x y, inside g x y -> get_pixel g'' x y = get_pixel g x y)).
Proof.
  intros Hw Hh. split.
  - apply (flip_involutive hflip (fun g x => g_width g - 1 - x) (fun _ y => y)); try done.
    + intros g0 H1 H2. destruct (mirror_all false (Z.to_nat (g_height g0)) 0 g0) as (g' & E & S & G); [lia|cbn;lia|done|].
      exists g'. split; [done|]. split; [done|]. intros x y [Hx Hy].
      specialize (G y x Hy Hx). cbn in G. rewrite G. zcase; try lia. done.
    + intros g0 x y [Hx Hy]. split; [split; lia|]. split; lia.
    + by intros g0 g1 (-> & _)%within_geom.
  - apply (flip_involutive vflip (fun _ x => x) (fun g y => g_height g - 1 - y)); try done.
    + intros g0 H1 H2. destruct (mirror_all true (Z.to_nat (g_width g0)) 0 g0) as (g' & E & S & G); [lia|cbn;lia|done|].
      exists g'. split; [done|]. split; [done|]. intros x y [Hx Hy].
      specialize (G x y Hx Hy). cbn in G. rewrite G. zcase; try lia. done.
    + intros g0 x y [Hx Hy]. split; [split; lia|]. split; lia.
    + by intros g0 g1 (_ & -> & _)%within_geom.
Qed.

(** ** The rotation *)

Definition slot (new h i j : Z) : Z := new + 3 * (i * h + h - j + 1).

(** What [rrotate] has stored when it is at [(i, j)]: nothing of the picture it reads
    has changed. *)
Lemma rrotate_column new i n : forall j g,
  0 <= j -> j + Z.of_nat n <= g_height g -> 0 <= i < g_width g ->
  g_pixels g + 3 * (g_width g * g_height g) <= new ->
  exists g', upto n j (rrotate_step new i) g = Ret g' /\ same_shape g g' /\
    (forall j', j <= j' < j + Z.of_nat n -> pget (g_heap g') (slot new (g_height g) i j') = get_pixel g i j') /\
    (forall a, a + 3 <= slot new (g_height g) i (j + Z.of_nat n - 1) \/ slot new (g_height g) i j + 3 <= a \/ n = O ->
       pget (g_heap g') a = pget (g_heap g) a).
Proof.
  induction n as [|n IH]; intros j g Hj Hn Hi Hnew; cbn [upto].
  { exists g. split; [done|]. split; [apply same_shape_refl|]. split; [lia|done]. }
  unfold rrotate_step at 1. cbn [ubind]. set (g1 := set_g_heap _ g).
  assert (S1 : same_shape g g1) by done.
  assert (P1 : forall a, a + 3 <= slot new (g_height g) i j \/ slot new (g_height g) i j + 3 <= a ->
    pget (g_heap g1) a = pget (g_heap g) a) by (intros a Ha; by apply pget_pset_ne).
  assert (G1 : forall y, 0 <= y < g_height g -> get_pixel g1 i y = get_pixel g i y).
  { intros y Hy. unfold get_pixel. change (outside g1) with (outside g). rewrite outside_inside by done.
    change (addr g1) with (addr g). apply P1. left. unfold addr, slot. nia. }
  destruct (IH (j + 1) g1) as (g2 & E2 & S2 & G2 & P2); [lia|cbn; lia|done|done|].
  change (g_height g1) with (g_height g) in *.
  exists g2. split; [done|]. split; [by apply (same_shape_trans g g1 g2)|]. split.
  - intros j' Hj'. destruct (decide (j' = j)) as [->|].
    + rewrite P2. { apply pget_pset_eq, get_pixel_bytes. }
      destruct n; [by right; right|right; left]. unfold slot. lia.
    + rewrite G2 by lia. apply G1. lia.
  - intros a Ha. assert (Hlast : j + 1 + Z.of_nat n - 1 = j + Z.of_nat (S n) - 1) by lia. rewrite P2, P1; [done| |].
    + destruct Ha as [Ha|[Ha|]]; [left|by right|done]. unfold slot in *. lia.
    + destruct n; [by right; right|]. rewrite Hlast. destruct Ha as [Ha|[Ha|]]; [by left| |done].
      right; left. unfold slot in *. lia.
Qed.

Lemma rrotate_columns new n : forall i g,
  0 <= i -> i + Z.of_nat n <= g_width g -> 0 < g_height g ->
  g_pixels g + 3 * (g_width g * g_height g) <= new ->
  exists g', upto n i (fun i => upto (Z.to_nat (g_height g)) 0 (rrotate_step new i)) g = Ret g' /\ same_shape g g' /\
    (forall i' j', i <= i' < i + Z.of_nat n -> 0 <= j' < g_height g ->
       pget (g_heap g') (slot new (g_height g) i' j') = get_pixel g i' j') /\
    (forall a, a + 3 <= slot new (g_height g) i (g_height g - 1) -> pget (g_heap g') a = pget (g_heap g) a).
Proof.
  induction n as [|n IH]; intros i g Hi Hn Hh Hnew; cbn [upto].
  { exists g. split; [done|]. split; [apply same_shape_refl|]. split; [lia|done]. }
  destruct (rrotate_column new i (Z.to_nat (g_height g)) 0 g) as (g1 & E1 & S1 & G1 & P1); [lia|lia|lia|done|].
  rewrite E1. cbn [ubind]. destruct (same_shape_geom _ _ S1) as (Ew & Eh & Ep).
  rewrite Z2Nat.id, Z.add_0_l in G1, P1 by lia.
  assert (Hr : forall x y, i <= x < g_width g -> 0 <= y < g_height g -> get_pixel g1 x y = get_pixel g x y).
  { intros x y Hx Hy. unfold get_pixel, addr. rewrite !outside_inside by (split; lia). rewrite Ew, Ep.
    apply P1. left. unfold slot. nia. }
  destruct (IH (i + 1) g1) as (g2 & E2 & S2 & G2 & P2); [lia|lia|lia|by rewrite Ew, Eh, Ep|].
  rewrite Eh in E2, G2, P2. exists g2. split; [done|]. split; [by apply (same_shape_trans g g1 g2)|]. split.
  - intros i' j' Hi' Hj'. destruct (decide (i' = i)) as [->|].
    + rewrite P2; [by apply G1|]. unfold slot. nia.
    + rewrite G2 by lia. apply Hr; lia.
  - intros a Ha. rewrite P2, P1; [done|by left|]. unfold slot in *. nia.
Qed.

(** C39. The first rotation stores the pixel [(i, j)] two slots after the place where the
    rotated picture has it: the picture it leaves shows it two positions later, and
    the pixel of the upper right corner is written past the end of the buffer, which
    has [width * height] pixels. *)
Theorem rrotate_overruns (g : gallery) :
  g_a g = true -> g_pixels g = g_pa g -> g_pb g = g_pa g + 3 * (g_width g * g_height g) ->
  0 < g_width g -> 0 < g_height g ->
  exists g', rrotate g = Ret g' /\
    g_width g' = g_height g /\ g_height g' = g_width g /\ g_pixels g' = g_pb g /\
    (forall i j, inside g i j -> pget (g_heap g') (addr g' (g_height g - 1 - j) i + 3 * 2) = get_pixel g i j) /\
    pget (g_heap g') (g_pb g + 3 * (g_width g * g_height g) + 3) = get_pixel g (g_width g - 1) 0.
Proof.
  intros Ha Hp Hb Hw Hh. unfold rrotate. rewrite Ha. cbn [negb].
  destruct (rrotate_columns (g_pb g) (Z.to_nat (g_width g)) 0 (set_g_a false g)) as (g1 & E1 & S1 & G1 & _);
    cbn; [lia|lia|done|lia|].
  change (upto ?n 0 ?b (set_g_a false g)) with (upto n 0 b (set_g_a false g)) in E1. cbn [g_width g_height set_g_a] in E1.
  rewrite E1. cbn [ubind]. destruct (same_shape_geom _ _ S1) as (Ew & Eh & _). cbn in Ew, Eh.
  eexists. split; [done|]. cbn [g_width g_height g_pixels set_g_size set_g_pixels g_heap].
  split; [done|]. split; [done|]. split; [done|]. cbn in G1. split.
  - intros i j [Hi Hj]. unfold addr. cbn [g_pixels g_width set_g_size set_g_pixels]. rewrite Eh.
    change (get_pixel g i j) with (get_pixel (set_g_a false g) i j). rewrite <- G1 by lia. f_equal. unfold slot. lia.
  - change (get_pixel g ?i ?j) with (get_pixel (set_g_a false g) i j). rewrite <- G1 by lia. f_equal. unfold slot. lia.
Qed.

(** ** Drawing *)

(** The screen as [setpixel] changes it. *)
Definition screen : Type := Z -> Z -> option Pixel.

#[global] Instance screen_os : OS screen := fun X c s =>
  match c in sys X return X * screen with
  | Setpixel x y r g b => (0, fun x' y' => if (x' =? x) && (y' =? y) then Some (mk_pixel b g r) else s x' y')
  | Wait => ((-1, 0), s)
  | Pipe => ((-1, (0, 0)), s)
  | Read _ _ => ((-1, []), s)
  | Fstat _ => ((-1, Ulib.stat_zero), s)
  | Listenmsgs _ => (tt, s)
  | Load _ => (None, s)
  | Store _ _ => (false, s)
  | Fork | Write _ _ | Close _ | Kill _ | Exec _ _ | Open _ _ | Mknod _ _ _ | Unlink _ | Link _ _ | Mkdir _
  | Chdir _ | Dup _ | Getpid | Sbrk _ | Sleep _ | Uptime | Getmsg | Ecall _ _ => (-1, s)
  end.

(** [p] gives the positions of [A], and no others, the colours of [f]. *)
Definition paints (A : Z -> Z -> Prop) (f : Z -> Z -> Pixel) (p : prog unit) : Prop :=
  forall s : screen, exists s', run p s = (Returned tt, s') /\
    forall x y, (A x y -> s' x y = Some (f x y)) /\ (~ A x y -> s' x y = s x y).

Lemma paints_iff A A' f p : (forall x y, A x y <-> A' x y) -> paints A f p -> paints A' f p.
Proof. intros HA Hp s. destruct (Hp s) as (s' & E & Hs). exists s'. split; [done|]. intros x y. rewrite <- HA. apply Hs. Qed.

Lemma paints_upto (A : Z -> Z -> Z -> Prop) f body n : forall i,
  (forall k x y, Decision (A k x y)) ->
  (forall k, i <= k < i + Z.of_nat n -> paints (A k) f (body k tt)) ->
  paints (fun x y => exists k, i <= k < i + Z.of_nat n /\ A k x y) f (upto n i body tt).
Proof.
  induction n as [|n IH]; intros i Hd Hb s; cbn [upto].
  { exists s. split; [done|]. intros x y. split; [|done]. intros (k & Hk & _). lia. }
  destruct (Hb i ltac:(lia) s) as (s1 & E1 & H1). rewrite (run_bind_ret _ _ _ _ _ E1).
  destruct (IH (i + 1) Hd (fun k Hk => Hb k ltac:(lia)) s1) as (s2 & E2 & H2). exists s2. split; [done|].
  intros x y. destruct (H1 x y) as [H1a H1b]. destruct (H2 x y) as [H2a H2b]. split.
  - intros (k & Hk & HA). assert (Hex : (exists k, i + 1 <= k < i + 1 + Z.of_nat n /\ A k x y) \/ ~ exists k, i + 1 <= k < i + 1 + Z.of_nat n /\ A k x y).
    { clear - Hd. destruct (decide (Exists (fun k => A (i + 1 + Z.of_nat k) x y) (seq 0 n))) as [H|H].
      - left. apply Exists_exists in H as (k & Hk & HA). apply elem_of_seq in Hk. exists (i + 1 + Z.of_nat k). split; [lia|done].
      - right. intros (k & Hk & HA). apply H, Exists_exists. exists (Z.to_nat (k - i - 1)).
        rewrite elem_of_seq. split; [lia|]. by replace (i + 1 + Z.of_nat (Z.to_nat (k - i - 1))) with k by lia. }
    destruct Hex as [Hex|Hex]; [by apply H2a|]. rewrite H2b by done. apply H1a.
    destruct (decide (k = i)) as [->|]; [done|]. destruct Hex. exists k. split; [lia|done].
  - intros Hno. rewrite H2b, H1b; [done| |].
    + intros HA. apply Hno. exists i. split; [lia|done].
    + intros (k & Hk & HA). apply Hno. exists k. split; [lia|done].
Qed.

(** The colour the screen position [(x, y)] shows. *)
Definition view (g : gallery) (x y : Z) : Pixel :=
  get_pixel g (i32 (g_xpos g + x / g_zoom g)) (i32 (g_ypos g + y / g_zoom g)).

Lemma paints_square g i j :
  0 < g_zoom g -> 0 <= i -> 0 <= j ->
  paints (fun x y => i * g_zoom g <= x < (i + 1) * g_zoom g /\ j * g_zoom g <= y < (j + 1) * g_zoom g) (view g) (draw_square g i j).
Proof.
  intros Hz Hi Hj. unfold draw_square. set (z := g_zoom g) in *.
  eapply paints_iff; [|apply (paints_upto (fun k x y => x = i * z + k /\ j * z <= y < (j + 1) * z)); [apply _|]].
  { intros x y. rewrite Z2Nat.id by lia. split; [intros (k & Hk & -> & Hy); lia|]. intros [Hx Hy]. exists (x - i * z). lia. }
  intros k Hk. rewrite Z2Nat.id in Hk by lia.
  eapply paints_iff; [|apply (paints_upto (fun l x y => x = i * z + k /\ y = j * z + l)); [apply _|]].
  { intros x y. rewrite Z2Nat.id by lia. split; [intros (l & Hl & -> & ->); lia|]. intros [-> Hy]. exists (y - j * z). lia. }
  intros l Hl. rewrite Z2Nat.id in Hl by lia. intros s. eexists. split; [done|]. intros x y. unfold answer, screen_os. cbn [snd]. split.
  - intros [-> ->]. rewrite !Z.eqb_refl. cbn [andb]. unfold view. fold z.
    rewrite !(Z.div_add_l _ z) by lia. rewrite !(Z.div_small _ z), !Z.add_0_r by lia.
    by destruct (get_pixel g _ _).
  - intros Hno. destruct (Z.eqb_spec x (i * z + k)) as [->|]; [|done].
    destruct (Z.eqb_spec y (j * z + l)) as [->|]; [|done]. by destruct Hno.
Qed.

Lemma cells z n x : 0 < z -> 0 <= n -> (exists k, 0 <= k < 0 + n /\ k * z <= x < (k + 1) * z) <-> 0 <= x < n * z.
Proof.
  intros Hz Hn. split; [intros (k & Hk & Hx); nia|]. intros Hx. exists (x / z).
  pose proof (Z.div_mod x z ltac:(lia)). pose proof (Z.mod_pos_bound x z Hz). split; [|nia].
  split; [apply Z.div_pos; lia|]. apply Z.div_lt_upper_bound; lia.
Qed.

(** [draw] paints the part of the screen made of whole squares, nothing outside the
    screen, and every position of it with the pixel of the picture it stands for at
    the current position and zoom (black outside the picture). *)
Theorem draw_correct (g : gallery) :
  0 < g_zoom g ->
  let xmax := Z.quot WIDTH (g_zoom g) in let ymax := Z.quot HEIGHT (g_zoom g) in
  xmax * g_zoom g <= WIDTH /\ ymax * g_zoom g <= HEIGHT /\
  paints (fun x y => 0 <= x < xmax * g_zoom g /\ 0 <= y < ymax * g_zoom g) (view g) (draw g).
Proof.
  intros Hz. cbn zeta. unfold draw. set (z := g_zoom g) in *.
  rewrite !(Z.quot_div_nonneg _ z) by (unfold WIDTH, HEIGHT; lia).
  assert (H1 : 0 <= WIDTH / z) by (apply Z.div_pos; unfold WIDTH; lia).
  assert (H2 : 0 <= HEIGHT / z) by (apply Z.div_pos; unfold HEIGHT; lia).
  split; [rewrite Z.mul_comm; by apply Z.mul_div_le|]. split; [rewrite Z.mul_comm; by apply Z.mul_div_le|].
  generalize dependent (WIDTH / z). generalize dependent (HEIGHT / z). intros ymax Hy xmax Hx.
  eapply paints_iff; [|apply (paints_upto (fun i x y => i * z <= x < (i + 1) * z /\ 0 <= y < ymax * z)); [apply _|]].
  { intros x y. rewrite Z2Nat.id, <- (cells z xmax x) by lia. split; [intros (k & H3 & H4 & H5)|intros ((k & H3 & H4) & H5)]; eauto. }
  intros i Hi. eapply paints_iff; [|apply (paints_upto (fun j x y => i * z <= x < (i + 1) * z /\ j * z <= y < (j + 1) * z)); [apply _|]].
  { intros x y. rewrite Z2Nat.id, <- (cells z ymax y) by lia. split; [intros (k & H3 & H4 & H5)|intros (H4 & k & H3 & H5)]; eauto. }
  intros j Hj. by apply paints_square; lia.
Qed.

(** A picture of two by one pixels with its second buffer behind the first. *)
Definition two_pixels : gallery :=
  mk_gallery (mwrite ∅ 0x1000 [1; 2; 3; 4; 5; 6]) [] [] 2 1 0x1000 3 0x1000 0x1006 true 0 0 4.

Lemma flips_mirror_witness :
  exists g' g'', hflip two_pixels = Ret g' /\ hflip g' = Ret g'' /\ get_pixel g' 0 0 = mk_pixel 4 5 6 /\ get_pixel g'' 0 0 = mk_pixel 1 2 3.
Proof.
  destruct (flips_mirror two_pixels) as [(g' & g'' & E & E' & _ & _ & G & G') _]; [done|done|].
  exists g', g''. rewrite G, G' by done. done.
Defined.

Lemma rrotate_overruns_witness :
  exists g', rrotate two_pixels = Ret g' /\ pget (g_heap g') (0x1006 + 9) = mk_pixel 4 5 6.
Proof.
  destruct (rrotate_overruns two_pixels) as (g' & E & _ & _ & _ & _ & G); try done.
  exists g'. split; [done|]. etrans; [exact G|]. reflexivity.
Defined.

Lemma draw_correct_witness :
  exists s : screen, run (draw two_pixels) (fun _ _ => None) = (Returned tt, s) /\ s 5 2 = Some (mk_pixel 4 5 6) /\ s 320 0 = None.
Proof.
  destruct (draw_correct two_pixels) as (_ & _ & P); [done|]. destruct (P (fun _ _ => None)) as (s & E & Hs).
  exists s. split; [exact E|]. split.
  - rewrite (proj1 (Hs 5 2)); [reflexivity|]. apply (bool_decide_unpack _). reflexivity.
  - apply (Hs 320 0). apply (bool_decide_unpack _). reflexivity.
Defined.
