(* ===== verification/Umalloc.v ===== *)
(** * user/umalloc.c: the allocator of Kernighan and Ritchie

    Headers are two words in the memory of the program, the free blocks a ring in the
    order of their addresses that starts at [base].  The theorem follows any client
    from the start of the program: blocks are disjoint and keep their bytes, every call
    returns, and a block that was freed is joined with its neighbours.  For requests of
    almost 4 GB the size given to [sbrk] wraps around. *)
From stdpp Require Import gmap list strings.
From S2P Require Import Prelude Kstring User UserLib.

(** The kernel's [sbrk]: it returns the old end of the program's memory, which it grows
    in place, or -1; a program has less than 2 GB. *)
Class Heap (St : Type) `{OS St} := {
  brk : St -> Z;
  sbrk_answer : forall s n, 0 < n < 2 ^ 31 -> exists r s', answer _ (Sbrk n) s = (r, s') /\
    ((r = -1 /\ brk s' = brk s) \/ (r = brk s /\ brk s' = brk s + n /\ brk s' < 2 ^ 31))
}.

Section Code.
(** The address of the static [base]. *)
Variable base : Z.

(** The memory of the program, and the static [freep]. *)
Record ust := mk_ust { u_mem : mem; u_freep : Z }.

(** [union header] at address [p]: [s.ptr] in its first eight bytes, [s.size] in the
    next four; [p + n] on pointers to it. *)
Definition sizeof_Header : Z := 16.
Definition hptr (m : mem) (p : Z) : Z := load64 m p.
Definition hsize (m : mem) (p : Z) : Z := load32 m (p + 8).
Definition set_hptr (m : mem) (p v : Z) : mem := store64 m p v.
Definition set_hsize (m : mem) (p v : Z) : mem := store32 m (p + 8) v.
Definition hadd (p n : Z) : Z := u64 (p + sizeof_Header * n).

(** The loop of [free]: the free block after which [bp] belongs. *)
Fixpoint free_search (fuel : nat) (m : mem) (bp p : Z) : option Z :=
  if (bp >? p) && (bp <? hptr m p) then Some p
  else if (p >=? hptr m p) && ((bp >? p) || (bp <? hptr m p)) then Some p
  else match fuel with
       | O => None
       | S fuel => free_search fuel m bp (hptr m p)
       end.

(** The rest of [free]. *)
Definition free_insert (m : mem) (bp p : Z) : mem :=
  let m :=
    if hadd bp (hsize m bp) =? hptr m p then
      let m := set_hsize m bp (u32 (hsize m bp + hsize m (hptr m p))) in
      set_hptr m bp (hptr m (hptr m p))
    else set_hptr m bp (hptr m p) in
  if hadd p (hsize m p) =? bp then
    let m := set_hsize m p (u32 (hsize m p + hsize m bp)) in
    set_hptr m p (hptr m bp)
  else set_hptr m p bp.

Definition free (fuel : nat) (ap : Z) (u : ust) : prog ust :=
  let bp := hadd ap (-1) in
  match free_search fuel (u_mem u) bp (u_freep u) with
  | None => More
  | Some p => Ret (mk_ust (free_insert (u_mem u) bp p) p)
  end.

(** [sbrk] takes an [int]. *)
Definition morecore (fuel : nat) (nu : Z) (u : ust) : prog (Z * ust) :=
  let nu := if nu <? 4096 then 4096 else nu in
  p <- call (Sbrk (i32 (nu * sizeof_Header))) ;;
  if u64 p =? u64 (-1) then Ret (0, u) else
  let hp := p in
  u <- free fuel (hadd hp 1) (mk_ust (set_hsize (u_mem u) hp nu) (u_freep u)) ;;
  Ret (u_freep u, u).

(** Taking [nunits] from the block [p] that follows [prevp]. *)
Definition malloc_take (m : mem) (nunits prevp p : Z) : mem * Z :=
  if hsize m p =? nunits then (set_hptr m prevp (hptr m p), p)
  else
    let m := set_hsize m p (u32 (hsize m p - nunits)) in
    let p := hadd p (hsize m p) in
    (set_hsize m p nunits, p).

(** The loop of [malloc], with its state [prevp] and [p]. *)
Definition malloc_body (fuel : nat) (nunits : Z) (s : ust * Z * Z) : prog (ust * Z * Z + Z * ust) :=
  let '(u, prevp, p) := s in
  if hsize (u_mem u) p >=? nunits then
    let '(m, p) := malloc_take (u_mem u) nunits prevp p in
    Ret (inr (hadd p 1, mk_ust m prevp))
  else if p =? u_freep u then
    r <- morecore fuel nunits u ;;
    let '(p, u) := r in
    if p =? 0 then Ret (inr (0, u)) else Ret (inl (u, p, hptr (u_mem u) p))
  else Ret (inl (u, p, hptr (u_mem u) p)).

Definition units (nbytes : Z) : Z := u32 ((nbytes + sizeof_Header - 1) / sizeof_Header + 1).

Definition malloc_init (u : ust) : ust :=
  if u_freep u =? 0 then mk_ust (set_hsize (set_hptr (u_mem u) base base) base 0) base else u.

Definition malloc (fuel : nat) (nbytes : Z) (u : ust) : prog (Z * ust) :=
  let nunits := units nbytes in
  let u := malloc_init u in
  loop fuel (malloc_body fuel nunits) (u, u_freep u, hptr (u_mem u) (u_freep u)).
End Code.

(** ** Headers in memory *)

Lemma load32_bound m a : 0 <= load32 m a < 2 ^ 32.
Proof. unfold load32. pose proof (le_val_bound _ (mread_byte m a 4)) as H. rewrite length_mread in H. exact H. Qed.

Lemma load32_ext m m' a :
  (forall i, 0 <= i < 4 -> mget m (a + i) = mget m' (a + i)) -> load32 m a = load32 m' a.
Proof. intros H. unfold load32. f_equal. apply mread_ext. intros i Hi. apply H. lia. Qed.

Lemma load32_store32 m a v : load32 (store32 m a v) a = u32 v.
Proof.
  unfold load32, store32. pose proof (mread_mwrite_same m a _ (le_bytes_byte 4 v)) as H.
  rewrite length_le_bytes in H. rewrite H, le_val_le_bytes. done.
Qed.

Lemma mget_store32_out m a v b : b < a \/ a + 4 <= b -> mget (store32 m a v) b = mget m b.
Proof. intros H. apply mget_mwrite_out. rewrite length_le_bytes. lia. Qed.

(** [m'] differs from [m] only in the header at [p]. *)
Definition only_header (p : Z) (m m' : mem) : Prop := forall a, a < p \/ p + 16 <= a -> mget m' a = mget m a.

Lemma only_header_trans p m m1 m2 : only_header p m m1 -> only_header p m1 m2 -> only_header p m m2.
Proof. intros H1 H2 a Ha. by rewrite H2, H1. Qed.

Lemma only_hptr p m v : only_header p m (set_hptr m p v).
Proof. intros a Ha. unfold set_hptr. apply mget_store64_out. lia. Qed.

Lemma only_hsize p m v : only_header p m (set_hsize m p v).
Proof. intros a Ha. unfold set_hsize. apply mget_store32_out. lia. Qed.

Lemma only_header_get p m m' q : only_header p m m' -> q + 16 <= p \/ p + 16 <= q -> hptr m' q = hptr m q /\ hsize m' q = hsize m q.
Proof. intros H Hq. split; [apply load64_ext|apply load32_ext]; intros i Hi; apply H; lia. Qed.

Lemma hptr_set_hptr m p v : 0 <= v < 2 ^ 64 -> hptr (set_hptr m p v) p = v.
Proof. intros H. unfold hptr, set_hptr. rewrite load64_store64. by apply Z.mod_small. Qed.

Lemma hsize_set_hsize m p v : 0 <= v < 2 ^ 32 -> hsize (set_hsize m p v) p = v.
Proof. intros H. unfold hsize, set_hsize. rewrite load32_store32. by apply Z.mod_small. Qed.

Lemma hptr_set_hsize m p v : hptr (set_hsize m p v) p = hptr m p.
Proof. apply load64_ext. intros i Hi. unfold set_hsize. apply mget_store32_out. lia. Qed.

Lemma hsize_set_hptr m p v : hsize (set_hptr m p v) p = hsize m p.
Proof. apply load32_ext. intros i Hi. unfold set_hptr. apply mget_store64_out. lia. Qed.

Lemma hsize_ext m m' p : (forall z, p + 8 <= z < p + 12 -> mget m z = mget m' z) -> hsize m p = hsize m' p.
Proof. intros H. apply load32_ext. intros i Hi. apply H. lia. Qed.

#[local] Opaque hptr hsize set_hptr set_hsize.

(** ** The ring of free blocks *)

(** Starting at the header [p], the blocks [l] with their sizes, and then [e]. *)
Fixpoint chain (m : mem) (p : Z) (l : list (Z * Z)) (e : Z) : Prop :=
  match l with
  | [] => hptr m p = e
  | x :: l => hptr m p = x.1 /\ hsize m x.1 = x.2 /\ chain m x.1 l e
  end.

(** The addresses are aligned and ascend from [lo], the blocks do not touch, and end at
    most at [hi]. *)
Fixpoint ascends (lo : Z) (l : list (Z * Z)) (hi : Z) : Prop :=
  match l with
  | [] => True
  | x :: l => lo < x.1 /\ (0 < x.2 /\ x.1 mod 16 = 0) /\ x.1 + 16 * x.2 <= hi /\ ascends (x.1 + 16 * x.2) l hi
  end.

(** The last header of [p] and [l], and the end of its block when [p]'s ends at [lo]. *)
Fixpoint final (p : Z) (l : list (Z * Z)) : Z := match l with [] => p | x :: l => final x.1 l end.
Fixpoint ending (lo : Z) (l : list (Z * Z)) : Z := match l with [] => lo | x :: l => ending (x.1 + 16 * x.2) l end.

Lemma chain_app m p l1 x l2 e : chain m p (l1 ++ x :: l2) e <-> chain m p l1 x.1 /\ hsize m x.1 = x.2 /\ chain m x.1 l2 e.
Proof. revert p. induction l1 as [|y l1 IH]; intros p; cbn [app chain]; [done|]. rewrite IH. naive_solver. Qed.

Lemma ascends_app lo l1 l2 hi : ascends lo (l1 ++ l2) hi <-> ascends lo l1 hi /\ ascends (ending lo l1) l2 hi.
Proof. revert lo. induction l1 as [|y l1 IH]; intros lo; cbn [app ascends ending]; [naive_solver|]. rewrite IH. naive_solver. Qed.

Lemma ascends_in lo l hi x : ascends lo l hi -> x ∈ l -> lo < x.1 /\ (0 < x.2 /\ x.1 mod 16 = 0) /\ x.1 + 16 * x.2 <= hi.
Proof.
  revert lo. induction l as [|y l IH]; intros lo H; [by intros []%not_elem_of_nil|].
  destruct H as (H1 & H2 & H3 & H). intros [->|Hx]%elem_of_cons; [done|]. destruct (IH _ H Hx) as (? & ? & ?). lia.
Qed.

Lemma ascends_mono lo l hi hi' : ascends lo l hi -> hi <= hi' -> ascends lo l hi'.
Proof. revert lo. induction l as [|y l IH]; intros lo H Hh; [done|]. destruct H as (? & ? & ? & H). cbn. naive_solver lia. Qed.

Lemma ending_ge lo l hi : ascends lo l hi -> lo <= ending lo l.
Proof. revert lo. induction l as [|y l IH]; intros lo H; cbn; [lia|]. destruct H as (? & ? & ? & H). apply IH in H; lia. Qed.

Lemma ascends_nodup lo l hi : ascends lo l hi -> NoDup l.*1.
Proof.
  revert lo. induction l as [|y l IH]; intros lo H; [constructor|]. destruct H as (H1 & H2 & H3 & H). constructor; [|by eapply IH].
  intros (x & E & Hx)%list_elem_of_fmap. destruct (ascends_in _ _ _ x H Hx). lia.
Qed.

(** Every block of a prefix ends before the prefix does. *)
Lemma ending_max lo l hi x : ascends lo l hi -> x ∈ l -> x.1 + 16 * x.2 <= ending lo l.
Proof.
  revert lo. induction l as [|y l IH]; intros lo H; [by intros []%not_elem_of_nil|].
  destruct H as (H1 & H2 & H3 & H). cbn [ending]. intros [->|Hx]%elem_of_cons; [|by apply IH].
  pose proof (ending_ge _ _ _ H). lia.
Qed.

(** Only the blocks of [l] and what the first header points to matter. *)
Lemma chain_head m m' p p' l e :
  chain m p l e -> hptr m' p' = hptr m p ->
  (forall q, q ∈ l.*1 -> hptr m' q = hptr m q /\ hsize m' q = hsize m q) -> chain m' p' l e.
Proof.
  revert p p'. induction l as [|x l IH]; intros p p' H Hp Hf; cbn [chain] in *; [congruence|].
  destruct H as (H1 & H2 & H). destruct (Hf x.1) as [Hx1 Hx2]; [cbn; left|]. split; [congruence|]. split; [congruence|].
  apply (IH x.1); [done|done|]. intros q Hq. apply Hf. cbn. by right.
Qed.

Lemma chain_above m m' p p' l e b lo hi :
  chain m p l e -> ascends lo l hi -> b + 16 <= lo + 1 -> only_header b m m' -> hptr m' p' = hptr m p -> chain m' p' l e.
Proof.
  intros H Ha Hb Ho Hp. apply (chain_head m m' p); [done|done|]. intros q (x & -> & Hx)%list_elem_of_fmap.
  destruct (ascends_in _ _ _ x Ha Hx). apply (only_header_get b); [done|]. lia.
Qed.

Lemma final_snoc p l x : final p (l ++ [x]) = x.1.
Proof. revert p. induction l as [|y l IH]; intros p; cbn; auto. Qed.

Lemma ending_snoc lo l x : ending lo (l ++ [x]) = x.1 + 16 * x.2.
Proof. revert lo. induction l as [|y l IH]; intros lo; cbn; auto. Qed.

Lemma final_ending p lo l hi : ascends lo l hi -> p + 16 <= lo + 1 -> final p l + 16 <= ending lo l + 1.
Proof.
  revert p lo. induction l as [|x l IH]; intros p lo H Hp; cbn; [lia|]. destruct H as (? & ? & ? & H). apply (IH _ _ H). lia.
Qed.

(** The last header changes. *)
Lemma chain_snoc m m' p l x e v k lo hi :
  chain m p (l ++ [x]) e -> ascends lo (l ++ [x]) hi -> p + 16 <= lo + 1 -> only_header x.1 m m' ->
  hptr m' x.1 = v -> hsize m' x.1 = k -> chain m' p (l ++ [(x.1, k)]) v.
Proof.
  intros H Ha Hp Ho Hv Hk. rewrite chain_app in *. destruct H as (H & _ & _). split; [|done].
  apply ascends_app in Ha as [Ha Hx].
  assert (Hf : forall q, q = p \/ q ∈ l.*1 -> hptr m' q = hptr m q /\ hsize m' q = hsize m q); [intros q Hq|apply (chain_head m m' p); auto; by apply Hf; left].
  apply (only_header_get x.1); [done|]. left. destruct Hx as [Hx _]. destruct Hq as [->|Hq].
  - pose proof (ending_ge _ _ _ Ha). lia.
  - apply list_elem_of_fmap in Hq as (y & -> & Hy). destruct (ascends_in _ _ _ y Ha Hy) as (? & ? & ?).
    pose proof (ending_max _ _ _ y Ha Hy). lia.
Qed.

(** The addresses of a block and of a list of blocks. *)
Definition inside (a : Z) (x : Z * Z) : Prop := x.1 <= a < x.1 + 16 * x.2.
Definition owned (l : list (Z * Z)) (a : Z) : Prop := exists x, x ∈ l /\ inside a x.

Lemma owned_cons x l a : owned (x :: l) a <-> inside a x \/ owned l a.
Proof. unfold owned. setoid_rewrite elem_of_cons. naive_solver. Qed.

Lemma owned_app l1 l2 a : owned (l1 ++ l2) a <-> owned l1 a \/ owned l2 a.
Proof. unfold owned. setoid_rewrite elem_of_app. naive_solver. Qed.

Lemma owned_nil a : ~ owned [] a.
Proof. by intros (x & []%not_elem_of_nil & _). Qed.

Section Ring.
Variables (base lo : Z).
Hypothesis Hbase : 0 < base /\ base + 16 <= lo.

(** [free_insert] before the block [l2] of the ring. *)
Definition join_right (m : mem) (bp p : Z) : mem :=
  if hadd bp (hsize m bp) =? hptr m p then
    let m := set_hsize m bp (u32 (hsize m bp + hsize m (hptr m p))) in
    set_hptr m bp (hptr m (hptr m p))
  else set_hptr m bp (hptr m p).

Definition join_left (m : mem) (bp p : Z) : mem :=
  if hadd p (hsize m p) =? bp then
    let m := set_hsize m p (u32 (hsize m p + hsize m bp)) in
    set_hptr m p (hptr m bp)
  else set_hptr m p bp.

Lemma free_insert_eq m bp p : free_insert m bp p = join_left (join_right m bp p) bp p.
Proof. done. Qed.

Lemma hadd_eq p n : 0 <= p + 16 * n < 2 ^ 64 -> hadd p n = p + 16 * n.
Proof. intros H. unfold hadd, sizeof_Header, u64. by apply Z.mod_small. Qed.

Lemma join_right_spec m bp n p l2 top :
  chain m p l2 base -> hsize m bp = n -> lo <= bp -> 0 < n -> bp + 16 * n <= top < 2 ^ 32 ->
  ascends (bp + 16 * n - 1) l2 top -> p + 16 <= bp ->
  exists n' l2', only_header bp m (join_right m bp p) /\ hsize (join_right m bp p) bp = n' /\
    chain (join_right m bp p) bp l2' base /\ n <= n' /\ bp + 16 * n' <= top /\ ascends (bp + 16 * n') l2' top /\
    forall a, owned ((bp, n') :: l2') a <-> inside a (bp, n) \/ owned l2 a.
Proof.
  intros Hc Hn Hlo Hpos Htop Ha Hp. unfold join_right. rewrite Hn, hadd_eq by lia.
  destruct l2 as [|[a k] l2]; cbn [chain fst snd] in Hc.
  - rewrite Hc. rewrite (proj2 (Z.eqb_neq _ _)) by lia. exists n, []. rewrite hsize_set_hptr. cbn [chain].
    rewrite hptr_set_hptr by lia. repeat split; try done; try lia; [apply only_hptr| |]; rewrite owned_cons; tauto.
  - destruct Hc as (Hp' & Hk & Hc). cbn [ascends fst snd] in Ha. destruct Ha as (A1 & A2 & A3 & A4). rewrite Hp'.
    destruct (Z.eqb_spec (bp + 16 * n) a) as [Ea|Hne].
    + set (m1 := set_hsize m bp (u32 (n + hsize m a))).
      assert (O1 : only_header bp m m1) by apply only_hsize.
      rewrite (proj1 (only_header_get bp m m1 p O1 ltac:(lia))), Hp', (proj1 (only_header_get bp m m1 a O1 ltac:(lia))).
      assert (O2 : only_header bp m (set_hptr m1 bp (hptr m a))) by (eapply only_header_trans; [exact O1|apply only_hptr]).
      exists (n + k), l2. rewrite hsize_set_hptr. unfold m1 at 2. rewrite Hk, hsize_set_hsize; unfold u32; rewrite Z.mod_small by lia; [|lia].
      split; [done|]. split; [done|]. split; [|repeat split; try lia].
      * eapply (chain_above m _ a _ _ _ bp); [done|exact A4|lia|done|]. apply hptr_set_hptr. apply load64_bound.
      * by replace (bp + 16 * (n + k)) with (a + 16 * k) by lia.
      * rewrite !owned_cons. unfold inside. cbn. intros [|]; [|tauto]. destruct (Z.lt_ge_cases a0 a); [left|right; left]; lia.
      * rewrite !owned_cons. unfold inside. cbn. intros [|[|]]; [left; lia..|tauto].
    + exists n, ((a, k) :: l2). rewrite hsize_set_hptr. assert (O1 : only_header bp m (set_hptr m bp a)) by apply only_hptr.
      split; [done|]. split; [done|]. split; [|split; [lia|]; split; [lia|]; split; [cbn; naive_solver lia|]].
      * cbn [chain fst snd]. destruct (only_header_get bp m _ a O1 ltac:(lia)) as [F1 F2]. rewrite hptr_set_hptr by lia.
        split; [done|]. split; [congruence|]. by apply (chain_above m _ a _ _ _ bp _ top Hc A4 ltac:(lia)).
      * intros a0. by rewrite (owned_cons (bp, n)).
Qed.

(** [l1] ends with [p], the block of [bp] and [l2] follow. *)
Lemma join_left_spec m bp n l1 l2 e top :
  chain m base l1 e -> hsize m base = 0 -> hsize m bp = n -> chain m bp l2 base -> lo <= bp /\ bp mod 16 = 0 -> 0 < n ->
  bp + 16 * n <= top < 2 ^ 32 -> ascends (lo - 1) l1 top -> ending (lo - 1) l1 <= bp -> ascends (bp + 16 * n) l2 top ->
  let p := final base l1 in let m' := join_left m bp p in
  exists l, only_header p m m' /\ chain m' base l base /\ hsize m' base = 0 /\ p ∈ base :: l.*1 /\ ascends (lo - 1) l top /\
    forall a, owned l a <-> owned l1 a \/ inside a (bp, n) \/ owned l2 a.
Proof.
  intros H1 Hb Hn H2 Hlo Hpos Htop A1 Ae A2. cbn zeta. unfold join_left.
  destruct l1 as [|[q k] l1 _] using rev_ind.
  - cbn [final]. rewrite Hb, hadd_eq by lia. rewrite (proj2 (Z.eqb_neq _ _)) by lia.
    assert (O : only_header base m (set_hptr m base bp)) by apply only_hptr. exists ((bp, n) :: l2).
    destruct (only_header_get base m _ bp O ltac:(lia)) as [F1 F2]. cbn [chain fst snd].
    rewrite hptr_set_hptr, hsize_set_hptr by lia. split; [done|]. split; [|split; [done|split; [left|split]]].
    + split; [done|]. split; [congruence|]. by apply (chain_above m _ bp _ _ _ base _ top H2 A2 ltac:(lia)).
    + cbn. repeat split; try done; lia.
    + intros a. rewrite owned_cons. pose proof (owned_nil a). tauto.
  - rewrite final_snoc. rewrite ending_snoc in Ae. cbn [fst snd] in *. pose proof (proj1 (chain_app _ _ _ _ _ _) H1) as (H1a & Hk & H1b).
    cbn [fst snd] in *. destruct (ascends_in _ _ _ (q, k) A1) as (B1 & B2 & B3); [apply elem_of_app; right; left|]. cbn [fst snd] in *.
    rewrite Hk, hadd_eq by lia. destruct (Z.eqb_spec (q + 16 * k) bp) as [Eb|Hne].
    + set (m1 := set_hsize m q (u32 (k + hsize m bp))).
      assert (O1 : only_header q m m1) by apply only_hsize.
      rewrite (proj1 (only_header_get q m m1 bp O1 ltac:(lia))). set (m2 := set_hptr m1 q (hptr m bp)).
      assert (O2 : only_header q m m2) by (eapply only_header_trans; [exact O1|apply only_hptr]).
      assert (Hs : hsize m2 q = k + n).
      { unfold m2. rewrite hsize_set_hptr. unfold m1. rewrite Hn, hsize_set_hsize; unfold u32; rewrite Z.mod_small; lia. }
      assert (Hq : hptr m2 q = hptr m bp) by apply hptr_set_hptr, load64_bound.
      exists (l1 ++ (q, k + n) :: l2). split; [done|]. rewrite fmap_app, chain_app. split; [|split; [|split; [|split]]].
      * split; [|split; [done|by apply (chain_above m _ bp _ _ _ q _ top H2 A2 ltac:(lia))]].
        apply (chain_snoc m m2 _ _ _ _ (hptr m bp) (k + n) _ _ H1 A1 ltac:(lia) O2) in Hq; [|done]. by apply chain_app in Hq as [Hq _].
      * by rewrite (proj2 (only_header_get q m m2 base O2 ltac:(lia))).
      * right. apply elem_of_app. right. left.
      * apply ascends_app in A1 as [A1 A3]. apply ascends_app. split; [done|]. cbn [ascends fst snd] in *.
        repeat split; try lia. by replace (q + 16 * (k + n)) with (bp + 16 * n) by lia.
      * intros a. rewrite !owned_app, !owned_cons. unfold inside. cbn. pose proof (owned_nil a).
        destruct (Z.lt_ge_cases a bp); intuition lia.
    + set (m2 := set_hptr m q bp). assert (O2 : only_header q m m2) by apply only_hptr.
      destruct (only_header_get q m m2 bp O2 ltac:(lia)) as [F1 F2].
      assert (Hq : hptr m2 q = bp) by (apply hptr_set_hptr; lia).
      exists (l1 ++ (q, k) :: (bp, n) :: l2). split; [done|]. rewrite fmap_app, chain_app. split; [|split; [|split; [|split]]].
      * cbn [chain fst snd]. rewrite F2, Hn. apply (chain_above m m2 bp bp _ _ q (bp + 16 * n) top) in H2; [|done|lia|done|done].
        apply (chain_snoc m m2 _ _ _ _ bp k _ _ H1 A1 ltac:(lia) O2) in Hq as Hq'; [|by rewrite <- Hk; apply hsize_set_hptr].
        apply chain_app in Hq' as (? & ? & ?). done.
      * by rewrite (proj2 (only_header_get q m m2 base O2 ltac:(lia))).
      * right. apply elem_of_app. right. left.
      * apply ascends_app in A1 as [A1 A3]. apply ascends_app. split; [done|]. cbn [ascends fst snd] in *. repeat split; try done; lia.
      * intros a. rewrite !owned_app, !owned_cons. pose proof (owned_nil a). tauto.
Qed.

(** ** The search of free *)

(** The pointers lead from [p] through [l]. *)
Fixpoint path (m : mem) (p : Z) (l : list Z) : Prop :=
  match l with
  | [] => True
  | a :: l => hptr m p = a /\ path m a l
  end.

Lemma path_app m p l1 x l2 : path m p (l1 ++ x :: l2) <-> path m p (l1 ++ [x]) /\ path m x l2.
Proof. revert p. induction l1 as [|y l1 IH]; intros p; cbn [app path]; [tauto|]. rewrite IH. tauto. Qed.

Lemma chain_path m p l e : chain m p l e -> path m p (l.*1 ++ [e]).
Proof. revert p. induction l as [|x l IH]; intros p; cbn; [done|]. intros (H1 & _ & H). auto. Qed.

(** Once round the ring. *)
Lemma ring_path m fl f :
  chain m base fl base -> f ∈ base :: fl.*1 -> exists l, path m f (l ++ [f]) /\ f :: l ≡ₚ base :: fl.*1.
Proof.
  intros H%chain_path [->|Hf]%elem_of_cons; [by exists fl.*1|].
  apply list_elem_of_split in Hf as (l1 & l2 & E). rewrite E in *. exists (l2 ++ base :: l1).
  rewrite <- app_assoc in H. cbn [app] in H. apply path_app in H as [H1 H2]. split.
  - rewrite <- app_assoc. cbn [app]. apply path_app. by split.
  - rewrite !app_comm_cons. rewrite (Permutation_app_comm (f :: l2)). done.
Qed.

Definition stops (m : mem) (bp p : Z) : Prop :=
  p < bp < hptr m p \/ (hptr m p <= p /\ (p < bp \/ bp < hptr m p)).

Lemma free_search_path m bp l : forall p fuel,
  path m p l -> (exists x, x ∈ p :: l /\ stops m bp x) -> (length l <= fuel)%nat ->
  exists x, x ∈ p :: l /\ stops m bp x /\ free_search fuel m bp p = Some x.
Proof.
  assert (D : forall p fuel, stops m bp p -> free_search fuel m bp p = Some p).
  { intros p fuel H. unfold stops in H. destruct fuel; cbn [free_search]; zcase; cbn; try done; lia. }
  assert (N : forall p fuel, ~ stops m bp p -> free_search (S fuel) m bp p = free_search fuel m bp (hptr m p)).
  { intros p fuel H. unfold stops in H. cbn [free_search]. zcase; cbn; try done; exfalso; apply H; lia. }
  assert (Dec : forall p, Decision (stops m bp p)) by (intros p; unfold stops; apply _).
  induction l as [|y l IH]; intros p fuel Hp (x & Hx & Hs) Hl; destruct (decide (stops m bp p)) as [Hy|Hn].
  1, 3: exists p; split; [left|]; auto.
  - apply list_elem_of_singleton in Hx. congruence.
  - destruct Hp as [Ep Hp], fuel as [|fuel]; [cbn in Hl; lia|]. rewrite N, Ep by done.
    apply elem_of_cons in Hx as [->|Hx]; [done|]. destruct (IH y fuel Hp) as (z & Hz & Hzs & E); [by exists x|cbn in Hl; lia|].
    exists z. split; [by right|done].
Qed.

Lemma split_at x l p : x ∈ p :: l.*1 -> exists l1 l2, l = l1 ++ l2 /\ x = final p l1.
Proof.
  revert p. induction l as [|y l IH]; intros p [->|Hx]%elem_of_cons; try by exists [], [].
  - by apply not_elem_of_nil in Hx.
  - by exists [], (y :: l).
  - destruct (IH y.1 Hx) as (l1 & l2 & -> & ->). by exists (y :: l1), l2.
Qed.

Lemma chain_split m p l1 l2 e : chain m p (l1 ++ l2) e -> (exists e', chain m p l1 e') /\ chain m (final p l1) l2 e.
Proof.
  revert p. induction l1 as [|y l1 IH]; intros p; cbn [app chain final]; [by eauto|].
  intros (H1 & H2 & H). apply IH in H as [[e' H] H']. eauto.
Qed.

(** Where an address above [base] belongs. *)
Lemma place bp l p : p < bp -> bp ∉ l.*1 ->
  exists l1 l2, l = l1 ++ l2 /\ final p l1 < bp /\ match l2 with [] => True | x :: _ => bp < x.1 end.
Proof.
  revert p. induction l as [|y l IH]; intros p Hp Hn; [by exists [], []|].
  cbn in Hn. apply not_elem_of_cons in Hn as [Hne Hn]. destruct (Z.lt_ge_cases bp y.1); [by exists [], (y :: l)|].
  destruct (IH y.1 ltac:(lia) Hn) as (l1 & l2 & -> & ? & ?). by exists (y :: l1), l2.
Qed.

(** ** The heap *)

(** The heap is [lo, top): each of its addresses is in a free block, of the list [fl], or
    in an allocated one, of the map [lv] from addresses to sizes, and in no other. *)
Record rep (u : ust) (top : Z) (fl : list (Z * Z)) (lv : gmap Z Z) : Prop := {
  r_top : lo <= top < 2 ^ 31 /\ top mod 16 = 0;
  r_chain : chain (u_mem u) base fl base;
  r_base : hsize (u_mem u) base = 0;
  r_freep : u_freep u ∈ base :: fl.*1;
  r_asc : ascends (lo - 1) fl top;
  r_live : forall a n, lv !! a = Some n -> (lo <= a /\ a mod 16 = 0) /\ 0 < n /\ a + 16 * n <= top /\ hsize (u_mem u) a = n;
  r_disj : forall a n b k z, lv !! a = Some n -> lv !! b = Some k -> inside z (a, n) -> inside z (b, k) -> a = b;
  r_apart : forall a n z, lv !! a = Some n -> inside z (a, n) -> ~ owned fl z;
  r_cover : forall z, lo <= z < top -> owned fl z \/ exists a n, lv !! a = Some n /\ inside z (a, n)
}.

(** The allocated blocks are untouched. *)
Definition frame (m m' : mem) (lv : gmap Z Z) : Prop :=
  forall a n z, lv !! a = Some n -> inside z (a, n) -> mget m' z = mget m z.

Lemma frame_hsize m m' lv a n : frame m m' lv -> lv !! a = Some n -> 0 < n -> hsize m' a = hsize m a.
Proof. intros H Ha Hn. apply hsize_ext. intros z Hz. apply (H a n); [done|]. unfold inside. cbn. lia. Qed.

Lemma frame_header m m' lv p : only_header p m m' -> (forall a n z, lv !! a = Some n -> inside z (a, n) -> ~ p <= z < p + 16) -> frame m m' lv.
Proof. intros H Hp a n z Ha Hz. apply H. specialize (Hp a n z Ha Hz). lia. Qed.

Lemma frame_trans m1 m2 m3 lv : frame m1 m2 lv -> frame m2 m3 lv -> frame m1 m3 lv.
Proof. intros H1 H2 a n z Ha Hz. by rewrite (H2 a n z Ha Hz), (H1 a n z Ha Hz). Qed.

(** Headers of the ring are not in an allocated block. *)
Lemma rep_ring_apart u top fl lv p a n z :
  rep u top fl lv -> p ∈ base :: fl.*1 -> lv !! a = Some n -> inside z (a, n) -> ~ p <= z < p + 16.
Proof.
  intros H [->|Hp]%elem_of_cons Ha Hz Hi.
  - destruct (r_live _ _ _ _ H a n Ha). unfold inside in Hz. cbn in Hz. lia.
  - apply list_elem_of_fmap in Hp as (x & -> & Hx). apply (r_apart _ _ _ _ H a n z Ha Hz). exists x. split; [done|].
    destruct (ascends_in _ _ _ _ (r_asc _ _ _ _ H) Hx) as (? & ? & ?). unfold inside. lia.
Qed.

(** The predecessor of an allocated block. *)
Lemma rep_stops u top fl lv bp n x :
  rep u top fl lv -> lv !! bp = Some n -> x ∈ base :: fl.*1 -> stops (u_mem u) bp x ->
  exists l1 l2, fl = l1 ++ l2 /\ x = final base l1 /\ x + 16 <= bp /\ ending (lo - 1) l1 <= bp /\ ascends (bp + 16 * n - 1) l2 top.
Proof.
  intros H Hbp Hx Hs. destruct (split_at x fl base Hx) as (l1 & l2 & E & Ex). exists l1, l2. split; [done|]. split; [done|].
  destruct (r_live _ _ _ _ H bp n Hbp) as (? & ? & ? & ?). pose proof (r_asc _ _ _ _ H) as Ha. pose proof (r_chain _ _ _ _ H) as Hc.
  pose proof (r_apart _ _ _ _ H bp n) as Hap. rewrite E in Ha, Hc, Hap. apply chain_split in Hc as [_ Hc]. rewrite <- Ex in Hc.
  apply ascends_app in Ha as [A1 A2]. destruct Hbase as [Hb0 Hb1].
  pose proof (final_ending base _ _ _ A1 ltac:(lia)) as Hf. rewrite <- Ex in Hf.
  assert (Hbx : base <= x).
  { apply elem_of_cons in Hx as [->|Hx]; [done|]. apply list_elem_of_fmap in Hx as (y & -> & Hy).
    destruct (ascends_in _ _ _ y (r_asc _ _ _ _ H) Hy). lia. }
  assert (Hlt : x < bp).
  { unfold stops in Hs. destruct l2 as [|y l2]; cbn [chain] in Hc; [rewrite Hc in Hs; lia|].
    destruct Hc as [Hc _], A2 as [A2 _]. rewrite Hc in Hs. lia. }
  split; [|split].
  - destruct l1 as [|[q k] l1 _] using rev_ind; [cbn in Ex; lia|]. rewrite final_snoc in Ex. cbn in Ex.
    destruct (ascends_in _ _ _ (q, k) A1) as (? & ? & ?); [apply elem_of_app; right; left|]. cbn in *.
    destruct (Z.lt_ge_cases bp (q + 16)); [|lia]. exfalso. apply (Hap bp Hbp); [unfold inside; cbn; lia|].
    rewrite !owned_app, owned_cons. left. right. left. unfold inside. cbn. lia.
  - destruct l1 as [|[q k] l1 _] using rev_ind; [cbn; lia|]. rewrite final_snoc in Ex. rewrite ending_snoc. cbn in *.
    destruct (Z.lt_ge_cases bp (q + 16 * k)); [|lia]. exfalso. apply (Hap bp Hbp); [unfold inside; cbn; lia|].
    rewrite !owned_app, owned_cons. left. right. left. unfold inside. cbn. lia.
  - destruct l2 as [|[a k] l2]; [done|]. cbn [chain ascends fst snd] in *. destruct Hc as [Hc _], A2 as (? & ? & ? & ?). repeat split; try done; try lia.
    unfold stops in Hs. rewrite Hc in Hs. destruct (Z.lt_ge_cases a (bp + 16 * n)); [|lia]. exfalso. apply (Hap a Hbp); [unfold inside; cbn; lia|].
    rewrite owned_app, owned_cons. right. left. unfold inside. cbn. lia.
Qed.

Lemma path_prefix m p l1 l2 : path m p (l1 ++ l2) -> path m p l1.
Proof. revert p. induction l1 as [|y l1 IH]; intros p; cbn; [done|]. intros [? ?]. eauto. Qed.

Lemma rep_search u top fl lv bp n fuel :
  rep u top fl lv -> lv !! bp = Some n -> (length fl <= fuel)%nat ->
  exists x, free_search fuel (u_mem u) bp (u_freep u) = Some x /\ x ∈ base :: fl.*1 /\ stops (u_mem u) bp x.
Proof.
  intros H Hbp Hfuel. destruct (ring_path _ _ _ (r_chain _ _ _ _ H) (r_freep _ _ _ _ H)) as (l & Hl%path_prefix & Hp).
  destruct (free_search_path (u_mem u) bp l (u_freep u) fuel Hl) as (x & Hx & Hs & E).
  - destruct (r_live _ _ _ _ H bp n Hbp) as (? & ? & ? & ?). pose proof (r_asc _ _ _ _ H) as Ha.
    destruct (place bp fl base) as (l1 & l2 & E & H4 & H5); [lia| |].
    { intros (y & Ey & Hy)%list_elem_of_fmap. apply (r_apart _ _ _ _ H bp n bp Hbp); [unfold inside; cbn; lia|]. exists y. split; [done|].
      destruct (ascends_in _ _ _ y Ha Hy). unfold inside. lia. }
    exists (final base l1). split.
    + rewrite Hp, E. clear. destruct l1 as [|y l1 _] using rev_ind; [left|]. right. rewrite final_snoc, !fmap_app. apply elem_of_app. left.
      apply elem_of_app. right. left.
    + pose proof (r_chain _ _ _ _ H) as Hc. rewrite E in Hc, Ha. apply chain_split in Hc as [_ Hc]. apply ascends_app in Ha as [A1 A2].
      unfold stops. destruct l2 as [|y l2]; cbn [chain] in Hc; [|destruct Hc as [Hc _]; rewrite Hc; lia]. rewrite Hc.
      right. split; [|lia]. destruct l1 as [|y l1 _] using rev_ind; [done|]. rewrite final_snoc.
      destruct (ascends_in _ _ _ y A1); [apply elem_of_app; right; left|]. lia.
  - apply Permutation_length in Hp. cbn in Hp. rewrite length_fmap in Hp. lia.
  - exists x. by rewrite <- Hp.
Qed.

(** A block moves from the allocated to the free ones. *)
Lemma rep_freed u u' top fl fl' lv bp n :
  rep u top fl lv -> lv !! bp = Some n -> chain (u_mem u') base fl' base -> hsize (u_mem u') base = 0 ->
  u_freep u' ∈ base :: fl'.*1 -> ascends (lo - 1) fl' top -> (forall a, owned fl' a <-> owned fl a \/ inside a (bp, n)) ->
  frame (u_mem u) (u_mem u') (delete bp lv) -> rep u' top fl' (delete bp lv).
Proof.
  intros H Hbp C Hb Hin Ha Hall Hfr. split; try done; [apply (r_top _ _ _ _ H)|..].
  - intros a k Hak. pose proof Hak as [_ Hak']%lookup_delete_Some. destruct (r_live _ _ _ _ H a k Hak') as (? & ? & ? & E).
    do 3 (split; [done|]). by rewrite (frame_hsize _ _ _ a k Hfr).
  - intros a k b j z [_ ?]%lookup_delete_Some [_ ?]%lookup_delete_Some. by apply (r_disj _ _ _ _ H).
  - intros a k z [Hne Hak]%lookup_delete_Some Hz. rewrite Hall. intros [Ho|Hi]; [by apply (r_apart _ _ _ _ H a k z)|].
    apply Hne. by apply (r_disj _ _ _ _ H bp n a k z).
  - intros z Hz. rewrite Hall. destruct (r_cover _ _ _ _ H z Hz) as [Ho|(a & k & Hak & Hi)]; [by auto|].
    destruct (decide (a = bp)) as [->|Hne]; [left; right; congruence|]. right. exists a, k. by rewrite lookup_delete_ne.
Qed.

Lemma free_rep u top fl lv bp n fuel :
  rep u top fl lv -> lv !! bp = Some n -> (length fl <= fuel)%nat ->
  exists u' fl', free fuel (bp + 16) u = Ret u' /\ rep u' top fl' (delete bp lv) /\ frame (u_mem u) (u_mem u') (delete bp lv) /\
    forall a, owned fl' a <-> owned fl a \/ inside a (bp, n).
Proof.
  intros H Hbp Hfuel. destruct (r_live _ _ _ _ H bp n Hbp) as ([Hlo Hal] & Hpos & Hend & Hsz).
  pose proof (r_top _ _ _ _ H) as Ht. unfold free.
  replace (hadd (bp + 16) (-1)) with bp by (rewrite hadd_eq; lia).
  destruct (rep_search u top fl lv bp n fuel H Hbp Hfuel) as (x & -> & Hx & Hs).
  destruct (rep_stops u top fl lv bp n x H Hbp Hx Hs) as (l1 & l2 & E & Ex & Hx16 & He & A2).
  pose proof (r_chain _ _ _ _ H) as Hc. pose proof (r_asc _ _ _ _ H) as Ha. rewrite E in Hc, Ha.
  apply chain_split in Hc as [[e Hc1] Hc2]. rewrite <- Ex in Hc2. apply ascends_app in Ha as [A1 _].
  destruct (join_right_spec (u_mem u) bp n x l2 top Hc2 Hsz Hlo Hpos ltac:(lia) A2 Hx16) as (n' & l2' & O1 & Hn' & Hc2' & Hle & Hend' & A2' & Hown).
  set (m1 := join_right (u_mem u) bp x) in *.
  assert (Hf1 : chain m1 base l1 e).
  { apply (chain_head (u_mem u) m1 base); [done| |].
    - apply (only_header_get bp _ _ _ O1). lia.
    - intros q (y & -> & Hy)%list_elem_of_fmap. apply (only_header_get bp _ _ _ O1).
      destruct (ascends_in _ _ _ y A1 Hy). pose proof (ending_max _ _ _ y A1 Hy). lia. }
  assert (Hb1 : hsize m1 base = 0) by (rewrite (proj2 (only_header_get bp _ _ base O1 ltac:(lia))); apply (r_base _ _ _ _ H)).
  destruct (join_left_spec m1 bp n' l1 l2' e top Hf1 Hb1 Hn' Hc2' ltac:(done) ltac:(lia) ltac:(lia) A1 He A2') as (fl' & O2 & C & Hb & Hin & Ha' & Hown').
  rewrite <- Ex in *. eexists _, fl'. split; [reflexivity|]. rewrite free_insert_eq. cbn [u_mem].
  assert (Hall : forall a, owned fl' a <-> owned fl a \/ inside a (bp, n)).
  { intros a. rewrite Hown', E, owned_app. specialize (Hown a). rewrite owned_cons in Hown. tauto. }
  assert (Hfr : frame (u_mem u) (join_left m1 bp x) (delete bp lv)).
  { apply (frame_trans _ m1).
    - apply (frame_header _ _ _ bp O1). intros a k z [Hne Hak]%lookup_delete_Some Hz Hi. apply Hne.
      apply (r_disj _ _ _ _ H bp n a k z); [done|done| |done]. unfold inside. cbn. lia.
    - apply (frame_header _ _ _ x O2). intros a k z [_ Hak]%lookup_delete_Some Hz. by apply (rep_ring_apart u top fl lv x a k z H). }
  split; [|done]. by apply (rep_freed u _ top fl fl' lv bp n).
Qed.

(** ** More memory *)

Lemma rep_grow u top fl lv nu :
  rep u top fl lv -> 0 < nu -> top + 16 * nu < 2 ^ 31 ->
  let u' := mk_ust (set_hsize (u_mem u) top nu) (u_freep u) in
  rep u' (top + 16 * nu) fl (<[top := nu]> lv) /\ frame (u_mem u) (u_mem u') lv /\ lv !! top = None.
Proof.
  intros H Hnu Hend u'. destruct (r_top _ _ _ _ H) as [Ht Hal]. pose proof (r_asc _ _ _ _ H) as Ha.
  assert (O : only_header top (u_mem u) (u_mem u')) by apply only_hsize.
  assert (Hin : forall a n, lv !! a = Some n -> a <> top /\ a + 16 * n <= top /\ 0 < n).
  { intros a n Hn. destruct (r_live _ _ _ _ H a n Hn) as (? & ? & ? & ?). lia. }
  assert (Hnone : lv !! top = None) by (destruct (lv !! top) eqn:E; [|done]; by destruct (Hin _ _ E)).
  assert (Hfr : frame (u_mem u) (u_mem u') lv).
  { apply (frame_header _ _ _ top O). intros a n z Hn [_ Hz]. cbn in Hz. destruct (Hin a n Hn). lia. }
  split; [|done]. split.
  - split; [lia|]. dlia.
  - apply (chain_head (u_mem u) _ base); [apply (r_chain _ _ _ _ H)|apply (only_header_get top _ _ base O); lia|].
    intros q (y & -> & Hy)%list_elem_of_fmap. apply (only_header_get top _ _ _ O). destruct (ascends_in _ _ _ y Ha Hy). lia.
  - rewrite (proj2 (only_header_get top _ _ base O ltac:(lia))). apply (r_base _ _ _ _ H).
  - apply (r_freep _ _ _ _ H).
  - apply (ascends_mono _ _ _ _ Ha). lia.
  - intros a n [[<- <-]|[Hne Hn]]%lookup_insert_Some.
    + repeat split; try done; try lia. unfold u'. cbn [u_mem]. apply hsize_set_hsize. lia.
    + destruct (r_live _ _ _ _ H a n Hn) as (? & ? & ? & ?). repeat split; try tauto; try lia. by rewrite (frame_hsize _ _ _ a n Hfr).
  - intros a n b k z [[<- <-]|[Hne Hn]]%lookup_insert_Some [[<- <-]|[Hne' Hk]]%lookup_insert_Some; unfold inside; cbn; try done.
    + destruct (Hin b k Hk). lia.
    + destruct (Hin a n Hn). lia.
    + by apply (r_disj _ _ _ _ H a n b k z).
  - intros a n z [[<- <-]|[Hne Hn]]%lookup_insert_Some Hz; [|by apply (r_apart _ _ _ _ H a n z)].
    intros (y & Hy & Hi). destruct (ascends_in _ _ _ y Ha Hy). unfold inside in *. cbn in *. lia.
  - intros z Hz. destruct (Z.lt_ge_cases z top).
    + destruct (r_cover _ _ _ _ H z ltac:(lia)) as [|(a & n & Hn & Hi)]; [by left|]. right. exists a, n. split; [|done].
      rewrite lookup_insert_ne; [done|]. by destruct (Hin a n Hn).
    + right. exists top, nu. rewrite lookup_insert_eq. split; [done|]. unfold inside. cbn. lia.
Qed.

(** ** Taking a block *)

Lemma chain_cat m p l1 l2 e e' : chain m p l1 e' -> chain m (final p l1) l2 e -> chain m p (l1 ++ l2) e.
Proof. revert p. induction l1 as [|x l1 IH]; intros p; cbn [app chain final]; [done|]. intros (H1 & H2 & H) H'. auto. Qed.

Lemma chain_far m m' b p l e :
  only_header b m m' -> (forall q, q ∈ p :: l.*1 -> q + 16 <= b \/ b + 16 <= q) -> chain m p l e -> chain m' p l e.
Proof.
  intros O Hq H. apply (chain_head m m' p); [done|apply (only_header_get b _ _ _ O), Hq; left|].
  intros q Hin. apply (only_header_get b _ _ _ O), Hq. by right.
Qed.

(** [b] is above the blocks [l] and [p]. *)
Lemma chain_below m m' b p l e lo' hi :
  only_header b m m' -> ascends lo' l hi -> p + 16 <= lo' + 1 -> ending lo' l < b -> chain m p l e -> chain m' p l e.
Proof.
  intros O Ha Hp Hb. apply (chain_far _ _ b); [done|]. intros q [->|Hq]%elem_of_cons; left.
  - pose proof (ending_ge _ _ _ Ha). lia.
  - apply list_elem_of_fmap in Hq as (y & -> & Hy). destruct (ascends_in _ _ _ y Ha Hy). pose proof (ending_max _ _ _ y Ha Hy). lia.
Qed.

(** A part of a free block becomes an allocated block. *)
Lemma rep_taken u u' top fl fl' lv p n :
  rep u top fl lv -> chain (u_mem u') base fl' base -> hsize (u_mem u') base = 0 -> u_freep u' ∈ base :: fl'.*1 ->
  ascends (lo - 1) fl' top -> (forall a, owned fl a <-> owned fl' a \/ inside a (p, n)) ->
  (forall a, inside a (p, n) -> ~ owned fl' a) -> (lo <= p /\ p mod 16 = 0) /\ 0 < n /\ p + 16 * n <= top ->
  hsize (u_mem u') p = n -> frame (u_mem u) (u_mem u') lv -> rep u' top fl' (<[p := n]> lv) /\ lv !! p = None.
Proof.
  intros H C Hb Hin Ha Hall Hno Hp Hs Hfr.
  assert (Hx : forall a k z, lv !! a = Some k -> inside z (a, k) -> ~ inside z (p, n)).
  { intros a k z Hk Hz Hi. apply (r_apart _ _ _ _ H a k z Hk Hz). rewrite Hall. by right. }
  assert (Hnone : lv !! p = None).
  { destruct (lv !! p) as [k|] eqn:E; [|done]. destruct (r_live _ _ _ _ H p k E) as (? & ? & ? & ?).
    destruct (Hx p k p E); unfold inside; cbn; lia. }
  split; [|done]. split; try done; [apply (r_top _ _ _ _ H)|..].
  - intros a k [[<- <-]|[Hne Hk]]%lookup_insert_Some; [by destruct Hp as (? & ? & ?)|].
    destruct (r_live _ _ _ _ H a k Hk) as (? & ? & ? & E). do 3 (split; [done|]). by rewrite (frame_hsize _ _ _ a k Hfr).
  - intros a k b j z [[<- <-]|[Hne Hk]]%lookup_insert_Some [[<- <-]|[Hne' Hj]]%lookup_insert_Some Hz Hz'; try done.
    + by destruct (Hx b j z Hj).
    + by destruct (Hx a k z Hk).
    + by apply (r_disj _ _ _ _ H a k b j z).
  - intros a k z [[<- <-]|[Hne Hk]]%lookup_insert_Some Hz; [by apply Hno|]. intros Ho. apply (r_apart _ _ _ _ H a k z Hk Hz), Hall. by left.
  - intros z Hz. destruct (r_cover _ _ _ _ H z Hz) as [[Ho|Hi]%Hall|(a & k & Hk & Hi)]; [by left|right; exists p, n; by rewrite lookup_insert_eq|].
    right. exists a, k. rewrite lookup_insert_ne; [done|]. intros <-. congruence.
Qed.

(** The ring around the free block [p]. *)
Record at_block (u : ust) (top prev p k : Z) (l1 l2 : list (Z * Z)) : Prop := {
  ab_prev : prev = final base l1 /\ prev + 16 <= p;
  ab_before : (exists e, chain (u_mem u) base l1 e) /\ ascends (lo - 1) l1 top /\ ending (lo - 1) l1 < p;
  ab_after : chain (u_mem u) p l2 base /\ ascends (p + 16 * k) l2 top;
  ab_block : hsize (u_mem u) p = k /\ 0 < k /\ p mod 16 = 0 /\ lo <= p /\ p + 16 * k <= top
}.

Lemma rep_at u top fl lv prev p n :
  rep u top fl lv -> 0 < n -> prev ∈ base :: fl.*1 -> hptr (u_mem u) prev = p -> n <= hsize (u_mem u) p ->
  exists l1 k l2, fl = l1 ++ (p, k) :: l2 /\ at_block u top prev p k l1 l2 /\ n <= k.
Proof.
  intros H Hn Hprev Hp Hle. destruct (split_at prev fl base Hprev) as (l1 & l2 & E & Ex).
  pose proof (r_chain _ _ _ _ H) as Hc. pose proof (r_asc _ _ _ _ H) as Ha. rewrite E in Hc, Ha.
  apply chain_split in Hc as [Hc1 Hc2]. rewrite <- Ex in Hc2. apply ascends_app in Ha as [A1 A2].
  destruct l2 as [|[p0 k] l2]; [cbn in Hc2; rewrite Hp in Hc2; rewrite Hc2, (r_base _ _ _ _ H) in Hle; lia|].
  destruct Hc2 as (Hp0 & Hk & Hc2). cbn [fst snd] in *. assert (p0 = p) as -> by congruence.
  destruct A2 as (B1 & [B2 B3] & B4 & A2). cbn [fst snd] in *. pose proof (final_ending base _ _ _ A1 ltac:(lia)) as Hf. rewrite <- Ex in Hf.
  pose proof (ending_ge _ _ _ A1). exists l1, k, l2. split; [done|]. split; [|lia]. split; try done; [split; [done|lia]|].
  repeat split; try done; lia.
Qed.

Lemma take_exact u top fl lv prev p l1 l2 n :
  rep u top fl lv -> fl = l1 ++ (p, n) :: l2 -> prev ∈ base :: fl.*1 -> at_block u top prev p n l1 l2 ->
  let m' := set_hptr (u_mem u) prev (hptr (u_mem u) p) in
  rep (mk_ust m' prev) top (l1 ++ l2) (<[p := n]> lv) /\ lv !! p = None /\ frame (u_mem u) m' lv.
Proof.
  intros H E Hprev [[Ex Hf] ([e Hc1] & A1 & B1) [Hc2 A2] (Hk & B2 & B3 & B4 & B5)] m'.
  assert (O : only_header prev (u_mem u) m') by apply only_hptr.
  assert (Hq : hptr m' prev = hptr (u_mem u) p) by apply hptr_set_hptr, load64_bound.
  assert (Hsz : hsize m' prev = hsize (u_mem u) prev) by apply hsize_set_hptr.
  assert (Hfr : frame (u_mem u) m' lv).
  { apply (frame_header _ _ _ prev O). intros a j z Ha Hz. by apply (rep_ring_apart u top fl lv prev a j z H). }
  assert (Hc1' : exists e', chain m' base l1 e' /\ hsize m' base = 0 /\ prev ∈ base :: l1.*1).
  { destruct l1 as [|[q j] l1 _] using rev_ind.
    - cbn in *. subst prev. exists (hptr m' base). rewrite Hsz. split; [done|]. split; [apply (r_base _ _ _ _ H)|left].
    - rewrite final_snoc in Ex. cbn in Ex. subst prev. exists (hptr (u_mem u) p).
      pose proof (proj1 (chain_app _ _ _ _ _ _) Hc1) as (_ & Hj & _). split; [|split].
      + apply (chain_snoc (u_mem u) m' _ _ (q, j) e _ j (lo - 1) top); try done; [lia|]. cbn. by rewrite Hsz.
      + destruct (ascends_in _ _ _ (q, j) A1) as (? & ? & ?); [apply elem_of_app; right; left|]. cbn in *.
        rewrite (proj2 (only_header_get q _ _ base O ltac:(lia))). apply (r_base _ _ _ _ H).
      + right. rewrite fmap_app. apply elem_of_app. right. left. }
  destruct Hc1' as (e' & Hc1' & Hb & Hin).
  enough (Hr : rep (mk_ust m' prev) top (l1 ++ l2) (<[p := n]> lv) /\ lv !! p = None) by (by destruct Hr).
  apply (rep_taken u _ top fl); try done; cbn [u_mem u_freep].
  - apply (chain_cat _ _ _ _ _ e' Hc1'). rewrite <- Ex. apply (chain_above (u_mem u) _ p _ _ _ prev _ top Hc2 A2 ltac:(lia) O Hq).
  - rewrite fmap_app, app_comm_cons. apply elem_of_app. by left.
  - apply ascends_app. split; [done|]. clear - A2 B1 B2. destruct l2 as [|y l2]; cbn in *; [done|]. destruct A2 as (? & ? & ? & ?). repeat split; try tauto; lia.
  - intros a. rewrite E, !owned_app, owned_cons. tauto.
  - intros a Hi. rewrite owned_app. unfold inside in Hi. cbn in Hi. intros [(y & Hy & Hz)|(y & Hy & Hz)]; unfold inside in Hz.
    + pose proof (ending_max _ _ _ y A1 Hy). lia.
    + destruct (ascends_in _ _ _ y A2 Hy). lia.
  - rewrite (proj2 (only_header_get prev _ _ p O ltac:(lia))). done.
Qed.

Lemma take_split u top fl lv prev p l1 l2 k n :
  rep u top fl lv -> fl = l1 ++ (p, k) :: l2 -> prev ∈ base :: fl.*1 -> at_block u top prev p k l1 l2 -> 0 < n < k ->
  let m1 := set_hsize (u_mem u) p (k - n) in let p' := p + 16 * (k - n) in let m' := set_hsize m1 p' n in
  hsize m1 p = k - n /\ rep (mk_ust m' prev) top (l1 ++ (p, k - n) :: l2) (<[p' := n]> lv) /\ lv !! p' = None /\ frame (u_mem u) m' lv.
Proof.
  intros H E Hprev [[Ex Hf] ([e Hc1] & A1 & B1) [Hc2 A2] (Hk & B2 & B3 & B4 & B5)] Hn m1 p' m'.
  destruct (r_top _ _ _ _ H) as [Htop _]. assert (O1 : only_header p (u_mem u) m1) by apply only_hsize.
  assert (O2 : only_header p' m1 m') by apply only_hsize.
  assert (Hs1 : hsize m1 p = k - n) by (apply hsize_set_hsize; lia). assert (Hp1 : hptr m1 p = hptr (u_mem u) p) by apply hptr_set_hsize.
  destruct (only_header_get p' m1 m' p O2 ltac:(lia)) as [Hp2 Hs2].
  assert (Hfr : frame (u_mem u) m' lv).
  { assert (Hown : forall a j z, lv !! a = Some j -> inside z (a, j) -> ~ p <= z < p + 16 * k).
    { intros a j z Hj Hz Hi. apply (r_apart _ _ _ _ H a j z Hj Hz). rewrite E, owned_app, owned_cons. right. by left. }
    apply (frame_trans _ m1); [apply (frame_header _ _ _ p O1)|apply (frame_header _ _ _ p' O2)]; intros a j z Hj Hz; specialize (Hown a j z Hj Hz); lia. }
  split; [done|]. enough (Hr : rep (mk_ust m' prev) top (l1 ++ (p, k - n) :: l2) (<[p' := n]> lv) /\ lv !! p' = None) by (by destruct Hr).
  apply (rep_taken u _ top fl); try done; cbn [u_mem u_freep].
  - apply chain_app. cbn [fst snd]. split; [|split].
    + apply (chain_below m1 m' p' base l1 p (lo - 1) top O2 A1 ltac:(lia) ltac:(lia)).
      apply (chain_below (u_mem u) m1 p base l1 p (lo - 1) top O1 A1 ltac:(lia) ltac:(lia)).
      pose proof (r_chain _ _ _ _ H) as Hc. rewrite E in Hc. apply chain_app in Hc. apply Hc.
    + congruence.
    + apply (chain_above m1 m' p p l2 base p' (p + 16 * k) top); try done; [|lia].
      apply (chain_above (u_mem u) m1 p p l2 base p (p + 16 * k) top); try done. lia.
  - rewrite (proj2 (only_header_get p' m1 m' base O2 ltac:(lia))), (proj2 (only_header_get p _ m1 base O1 ltac:(lia))). apply (r_base _ _ _ _ H).
  - rewrite E, fmap_app in Hprev. rewrite fmap_app. done.
  - apply ascends_app. split; [done|]. cbn [ascends fst snd]. repeat split; try done; try lia.
    clear - A2 Hn. destruct l2 as [|y l2]; cbn in *; [done|]. destruct A2 as (? & ? & ? & ?). repeat split; try tauto; lia.
  - intros a. rewrite E, !owned_app, !owned_cons. unfold inside. cbn. destruct (Z.lt_ge_cases a p'); intuition lia.
  - intros a Hi. rewrite owned_app, owned_cons. unfold inside in *. cbn in *. intros [(y & Hy & Hz)|[?|(y & Hy & Hz)]]; unfold inside in *; [|lia|].
    + pose proof (ending_max _ _ _ y A1 Hy). lia.
    + destruct (ascends_in _ _ _ y A2 Hy). lia.
  - repeat split; try lia. dlia.
  - apply hsize_set_hsize. lia.
Qed.

Lemma take_rep u top fl lv prev p n :
  rep u top fl lv -> 0 < n -> prev ∈ base :: fl.*1 -> hptr (u_mem u) prev = p -> n <= hsize (u_mem u) p ->
  exists m' p' fl', malloc_take (u_mem u) n prev p = (m', p') /\ rep (mk_ust m' prev) top fl' (<[p' := n]> lv) /\
    lv !! p' = None /\ frame (u_mem u) m' lv.
Proof.
  intros H Hn Hprev Hp Hle. destruct (rep_at u top fl lv prev p n H Hn Hprev Hp Hle) as (l1 & k & l2 & E & Hat & Hk).
  destruct (ab_block _ _ _ _ _ _ _ Hat) as (Hs & B2 & B3 & B4 & B5). destruct (r_top _ _ _ _ H) as [Htop _].
  unfold malloc_take. rewrite Hs. destruct (Z.eqb_spec k n) as [->|Hne].
  - eexists _, p, (l1 ++ l2). split; [reflexivity|]. by apply (take_exact u top fl).
  - replace (u32 (k - n)) with (k - n) by (symmetry; apply Z.mod_small; lia).
    destruct (take_split u top fl lv prev p l1 l2 k n H E Hprev Hat ltac:(lia)) as [Hs' Hr].
    rewrite Hs', hadd_eq by lia. by eexists _, _, _.
Qed.

(** ** How many free blocks there are *)

Lemma ascends_gap lo' l hi x : ascends lo' l hi -> x ∈ l -> ~ owned l (x.1 + 16 * x.2).
Proof.
  revert lo'. induction l as [|y l IH]; intros lo' H; [by intros []%not_elem_of_nil|].
  destruct H as (H1 & H2 & H3 & H). rewrite owned_cons. intros [->|Hx]%elem_of_cons [Hi|Ho].
  - unfold inside in Hi. lia.
  - destruct Ho as (z & Hz & Hi). destruct (ascends_in _ _ _ z H Hz). unfold inside in Hi. lia.
  - destruct (ascends_in _ _ _ x H Hx). unfold inside in Hi. lia.
  - by apply (IH _ H Hx).
Qed.

(** A range of free addresses lies in one block. *)
Lemma owned_block lo' l hi p n :
  ascends lo' l hi -> 0 < n -> (forall a, p <= a < p + 16 * n -> owned l a) -> exists x, x ∈ l /\ x.1 <= p /\ p + 16 * n <= x.1 + 16 * x.2.
Proof.
  intros H Hn Ho. destruct (Ho p ltac:(lia)) as (x & Hx & Hi). exists x. split; [done|]. unfold inside in Hi. split; [lia|].
  destruct (Z.le_gt_cases (p + 16 * n) (x.1 + 16 * x.2)); [done|]. exfalso. apply (ascends_gap _ _ _ x H Hx), Ho. lia.
Qed.

Definition ends (l : list (Z * Z)) : list Z := map (fun x => x.1 + 16 * x.2) l.

Lemma ends_nodup lo' l hi : ascends lo' l hi -> NoDup (ends l).
Proof.
  revert lo'. induction l as [|y l IH]; intros lo' H; [constructor|]. destruct H as (H1 & H2 & H3 & H). constructor; [|by eapply IH].
  intros (x & E & Hx)%list_elem_of_fmap. destruct (ascends_in _ _ _ x H Hx). lia.
Qed.

(** After every free block but the last there is an allocated one. *)
Lemma few_free u top fl lv : rep u top fl lv -> (length fl <= S (size lv))%nat.
Proof.
  intros H. pose proof (r_asc _ _ _ _ H) as Ha.
  assert (Hsub : (list_to_set (ends fl) : gset Z) ⊆ {[top]} ∪ dom lv).
  { intros e. rewrite elem_of_list_to_set, elem_of_union, elem_of_singleton, elem_of_dom. intros (x & -> & Hx)%list_elem_of_fmap.
    destruct (ascends_in _ _ _ x Ha Hx) as (? & ? & ?). set (e := x.1 + 16 * x.2) in *. destruct (decide (e = top)) as [|Htop]; [by left|right].
    destruct (r_cover _ _ _ _ H e ltac:(lia)) as [Ho|(a & n & Hn & Hi)]; [by destruct (ascends_gap _ _ _ x Ha Hx)|].
    destruct (decide (a = e)) as [<-|Hne]; [by exists n|]. exfalso. apply (r_apart _ _ _ _ H a n (e - 1) Hn); [unfold inside in *; cbn in *; lia|].
    exists x. split; [done|]. unfold inside. lia. }
  apply subseteq_size in Hsub. rewrite (size_list_to_set (C := gset Z) _ (ends_nodup _ _ _ Ha)) in Hsub. unfold ends in Hsub. rewrite length_map in Hsub.
  rewrite <- size_dom. pose proof (size_union_le {[top]} (dom lv)) as Hu. rewrite size_singleton in Hu. lia.
Qed.

(** ** The loop of malloc *)

Section Run.
Context {St : Type} `{Heap St}.

(** Once round the ring: a block is found, or all are too small. *)
Lemma malloc_walk fuel n u s : forall l prev k,
  path (u_mem u) prev (l ++ [u_freep u]) -> u_freep u ∉ l ->
  (exists q, q ∈ prev :: l /\ n <= hsize (u_mem u) (hptr (u_mem u) q) /\
     loop (S (length l + k)%nat) (malloc_body fuel n) (u, prev, hptr (u_mem u) prev) =
       let '(m, p) := malloc_take (u_mem u) n q (hptr (u_mem u) q) in Ret (hadd p 1, mk_ust m q)) \/
  ((forall q, q ∈ prev :: l -> hsize (u_mem u) (hptr (u_mem u) q) < n) /\
     run (loop (S (length l + k)%nat) (malloc_body fuel n) (u, prev, hptr (u_mem u) prev)) s =
       run (r <- morecore fuel n u ;;
            let '(p, u) := r in
            if p =? 0 then Ret (0, u) else loop k (malloc_body fuel n) (u, p, hptr (u_mem u) p)) s).
Proof.
  assert (T : forall prev k, n <= hsize (u_mem u) (hptr (u_mem u) prev) ->
    loop (S k) (malloc_body fuel n) (u, prev, hptr (u_mem u) prev) =
    let '(m, p) := malloc_take (u_mem u) n prev (hptr (u_mem u) prev) in Ret (hadd p 1, mk_ust m prev)).
  { intros prev k Hn. cbn [loop malloc_body]. rewrite Z.geb_leb, (proj2 (Z.leb_le _ _)) by done. by destruct (malloc_take _ _ _ _). }
  induction l as [|y l IH]; intros prev k Hp Hf; cbn [app path] in Hp; destruct Hp as [Ep Hp];
    (destruct (Z.le_gt_cases n (hsize (u_mem u) (hptr (u_mem u) prev))) as [Hle|Hgt]; [left; exists prev; split; [left|]; by auto|]).
  - right. split; [by intros q ->%list_elem_of_singleton|]. cbn [length Nat.add loop malloc_body].
    rewrite Z.geb_leb, (proj2 (Z.leb_gt _ _)), Ep, Z.eqb_refl by done. rewrite !run_bind.
    destruct (run (morecore fuel n u) s) as [[[p u']| | |] s']; try done. by destruct (p =? 0).
  - apply not_elem_of_cons in Hf as [Hne Hf]. destruct (IH y k Hp Hf) as [(q & Hq & Hs & E)|[Hall E]].
    + left. exists q. split; [by right|]. split; [done|]. rewrite <- E. cbn [length Nat.add]. remember (length l + k)%nat as j.
      cbn [loop]. cbn [malloc_body]. rewrite Z.geb_leb, (proj2 (Z.leb_gt _ _)), Ep, (proj2 (Z.eqb_neq _ _)) by done. done.
    + right. split; [intros q [->|Hq]%elem_of_cons; auto|]. rewrite <- E. cbn [length Nat.add]. remember (length l + k)%nat as j.
      cbn [loop]. cbn [malloc_body]. rewrite Z.geb_leb, (proj2 (Z.leb_gt _ _)), Ep, (proj2 (Z.eqb_neq _ _)) by done. done.
Qed.

Lemma ring_member u top fl lv x : rep u top fl lv -> x ∈ fl ->
  hsize (u_mem u) x.1 = x.2 /\ exists q, q ∈ base :: fl.*1 /\ hptr (u_mem u) q = x.1.
Proof.
  intros Hr Hx. apply list_elem_of_split in Hx as (l1 & l2 & E). pose proof (r_chain _ _ _ _ Hr) as Hc.
  rewrite E in *. pose proof (proj1 (chain_app _ _ _ _ _ _) Hc) as (_ & Hs & _). split; [done|].
  apply chain_split in Hc as [_ [Hc _]]. exists (final base l1). split; [|done].
  destruct l1 as [|y l1 _] using rev_ind; [left|]. rewrite final_snoc, !fmap_app. right. apply elem_of_app. left. apply elem_of_app. right. left.
Qed.

Lemma morecore_rep fuel n u s fl lv :
  rep u (brk s) fl lv -> 0 < n <= 2 ^ 27 - 1 -> (length fl <= fuel)%nat ->
  exists s', brk s <= brk s' /\
    ((run (morecore fuel n u) s = (Returned (0, u), s') /\ brk s' = brk s /\ exists k, answer _ (Sbrk k) s = (-1, s')) \/
     (exists u' fl', run (morecore fuel n u) s = (Returned (u_freep u', u'), s') /\ rep u' (brk s') fl' lv /\
        frame (u_mem u) (u_mem u') lv /\ exists x, x ∈ fl' /\ n <= x.2)).
Proof.
  intros Hr Hn Hfuel. unfold morecore. set (nu := if n <? 4096 then 4096 else n).
  assert (Hnu : n <= nu /\ 4096 <= nu <= 2 ^ 27 - 1) by (unfold nu; zcase; lia).
  replace (i32 (nu * sizeof_Header)) with (16 * nu) by (unfold sizeof_Header, i32; rewrite Z.mod_small; lia).
  destruct (r_top _ _ _ _ Hr) as [Htop _].
  destruct (sbrk_answer s (16 * nu) ltac:(lia)) as (r & s' & Ea & [[-> Eb]|(-> & Eb & Hlt)]); rewrite (run_call _ _ _ _ _ Ea).
  - exists s'. split; [lia|]. left. split; [done|]. split; [done|]. by exists (16 * nu).
  - exists s'. split; [lia|]. right. change (u64 (-1)) with (2 ^ 64 - 1). unfold u64 at 1. rewrite Z.mod_small, (proj2 (Z.eqb_neq _ _)) by lia.
    rewrite hadd_eq by lia. replace (brk s + 16 * 1) with (brk s + 16) by lia.
    destruct (rep_grow u (brk s) fl lv nu Hr ltac:(lia) ltac:(lia)) as (Hr1 & Hf1 & Hnone).
    destruct (free_rep _ _ _ _ (brk s) nu fuel Hr1 (lookup_insert_eq _ _ _) Hfuel) as (u' & fl' & Ef & Hr2 & Hf2 & Hown).
    rewrite Ef. rewrite delete_insert_id in Hr2, Hf2 by done. exists u', fl'. split; [done|]. rewrite Eb. split; [done|].
    split; [by eapply frame_trans|]. destruct (owned_block _ _ _ (brk s) nu (r_asc _ _ _ _ Hr2)) as (x & Hx & ? & ?); [lia| |].
    + intros a Ha. apply Hown. by right.
    + exists x. split; [done|lia].
Qed.

(** The result of [malloc], when blocks of [lv] are allocated. *)
Definition malloc_post (n : Z) (u : ust) (s : St) (lv : gmap Z Z) (o : outcome (Z * ust) * St) : Prop :=
  exists p u' s', o = (Returned (p, u'), s') /\
    ((p = 0 /\ u' = u /\ brk s' = brk s /\ exists k, answer _ (Sbrk k) s = (-1, s')) \/
     (exists bp fl', p = bp + 16 /\ rep u' (brk s') fl' (<[bp := n]> lv) /\ lv !! bp = None /\ frame (u_mem u) (u_mem u') lv)).

Lemma malloc_take_post n u s s0 u0 fl lv q :
  rep u (brk s) fl lv -> 0 < n -> q ∈ base :: fl.*1 -> n <= hsize (u_mem u) (hptr (u_mem u) q) -> frame (u_mem u0) (u_mem u) lv ->
  malloc_post n u0 s0 lv (run (let '(m, p) := malloc_take (u_mem u) n q (hptr (u_mem u) q) in Ret (hadd p 1, mk_ust m q)) s).
Proof.
  intros Hr Hn Hq Hs Hf. destruct (take_rep u (brk s) fl lv q _ n Hr Hn Hq eq_refl Hs) as (m' & p' & fl' & -> & Hr' & Hnone & Hf').
  eexists _, _, s. split; [reflexivity|]. right. exists p', fl'. destruct (r_live _ _ _ _ Hr' p' n (lookup_insert_eq _ _ _)) as (? & ? & ? & ?).
  destruct (r_top _ _ _ _ Hr). rewrite hadd_eq by lia. split; [lia|]. split; [done|]. split; [done|]. by eapply frame_trans.
Qed.

Lemma ring_walk u top fl lv : rep u top fl lv ->
  exists l, path (u_mem u) (u_freep u) (l ++ [u_freep u]) /\ u_freep u ∉ l /\ length l = length fl /\
    forall q, q ∈ u_freep u :: l <-> q ∈ base :: fl.*1.
Proof.
  intros Hr. destruct (ring_path _ _ _ (r_chain _ _ _ _ Hr) (r_freep _ _ _ _ Hr)) as (l & Hl & Hp). exists l. split; [done|].
  assert (Hnd : NoDup (base :: fl.*1)).
  { pose proof (r_asc _ _ _ _ Hr) as Ha. constructor; [|by eapply ascends_nodup]. intros (x & E & Hx)%list_elem_of_fmap.
    destruct (ascends_in _ _ _ x Ha Hx). lia. }
  rewrite <- Hp in Hnd. apply NoDup_cons in Hnd as [Hn _]. split; [done|]. apply Permutation_length in Hp as Hlen. cbn in Hlen. rewrite length_fmap in Hlen.
  split; [lia|]. intros q. by rewrite Hp.
Qed.

Lemma malloc_loop_rep fuel n u s fl lv :
  rep u (brk s) fl lv -> 0 < n <= 2 ^ 27 - 1 -> (2 * size lv + 4 <= fuel)%nat ->
  malloc_post n u s lv (run (loop fuel (malloc_body fuel n) (u, u_freep u, hptr (u_mem u) (u_freep u))) s).
Proof.
  intros Hr Hn Hfuel. pose proof (few_free _ _ _ _ Hr) as Hfew.
  destruct (ring_walk _ _ _ _ Hr) as (l & Hl & Hnf & Hlen & Hq).
  destruct (malloc_walk fuel n u s l (u_freep u) (fuel - S (length l)) Hl Hnf) as [(q & Hin & Hs & E)|[_ E]];
    replace (S (length l + (fuel - S (length l)))) with fuel in E by lia; rewrite E; clear E.
  { apply (malloc_take_post n u s s u fl lv q Hr ltac:(lia)); [by apply Hq|done|done]. }
  destruct (morecore_rep fuel n u s fl lv Hr Hn ltac:(lia)) as (s' & Hs' & [(E & Eb & Ek)|(u' & fl' & E & Hr' & Hf & x & Hx & Hxn)]);
    rewrite (run_bind_ret _ _ _ _ _ E).
  { exists 0, u, s'. split; [done|]. by left. }
  assert (Hne : u_freep u' <> 0).
  { pose proof (r_freep _ _ _ _ Hr') as [->|Hp]%elem_of_cons; [lia|]. apply list_elem_of_fmap in Hp as (y & -> & Hy).
    destruct (ascends_in _ _ _ y (r_asc _ _ _ _ Hr') Hy). lia. }
  rewrite (proj2 (Z.eqb_neq _ _)) by done. pose proof (few_free _ _ _ _ Hr') as Hfew'.
  destruct (ring_walk _ _ _ _ Hr') as (l' & Hl' & Hnf' & Hlen' & Hq').
  destruct (malloc_walk fuel n u' s' l' (u_freep u') (fuel - S (length l) - S (length l')) Hl' Hnf') as [(q & Hin & Hs & E')|[Hall _]].
  - replace (S (length l' + (fuel - S (length l) - S (length l')))) with (fuel - S (length l))%nat in E' by lia. rewrite E'.
    apply (malloc_take_post n u' s' s u fl' lv q Hr' ltac:(lia)); [by apply Hq'|done|done].
  - exfalso. destruct (ring_member _ _ _ _ x Hr' Hx) as [Hsz (q & Hq0 & Hqx)]. specialize (Hall q (proj2 (Hq' q) Hq0)). rewrite Hqx, Hsz in Hall. lia.
Qed.

Lemma units_eq n : 0 <= n <= 2 ^ 30 -> units n = (n + 15) / 16 + 1 /\ 0 < units n <= 2 ^ 27 - 1 /\ n + 16 <= 16 * units n.
Proof.
  intros Hn. assert (E : units n = (n + 15) / 16 + 1).
  { unfold units, sizeof_Header, u32. replace (n + 16 - 1) with (n + 15) by lia. apply Z.mod_small. dlia. }
  rewrite E. split; [done|]. dlia.
Qed.

Lemma rep_init u : lo < 2 ^ 31 -> lo mod 16 = 0 -> rep (mk_ust (set_hsize (set_hptr (u_mem u) base base) base 0) base) lo [] ∅.
Proof.
  intros Hlo Hal. split; cbn; try done; try lia.
  - rewrite hptr_set_hsize. apply hptr_set_hptr. lia.
  - by apply hsize_set_hsize.
  - left.
Qed.

(** ** Clients *)

(** The pointers a client has been given and not freed, with the sizes it asked for. *)
Definition blocks (bl : gmap Z Z) : gmap Z Z := kmap (fun p => p - 16) (units <$> bl).

#[local] Instance minus16_inj : Inj (=) (=) (fun p => p - 16).
Proof. intros p q E. lia. Qed.

Lemma blocks_insert bl p n : blocks (<[p := n]> bl) = <[p - 16 := units n]> (blocks bl).
Proof. unfold blocks. by rewrite fmap_insert, (kmap_insert (fun p => p - 16)). Qed.

Lemma blocks_delete bl p : blocks (delete p bl) = delete (p - 16) (blocks bl).
Proof. unfold blocks. by rewrite fmap_delete, (kmap_delete (fun p => p - 16)). Qed.

Lemma blocks_lookup bl p n : bl !! p = Some n -> blocks bl !! (p - 16) = Some (units n).
Proof. intros E. unfold blocks. rewrite (lookup_kmap (fun p => p - 16)), lookup_fmap, E. done. Qed.

Lemma blocks_none bl a : blocks bl !! a = None -> bl !! (a + 16) = None.
Proof.
  intros E. destruct (bl !! (a + 16)) as [n|] eqn:En; [|done]. apply blocks_lookup in En.
  replace (a + 16 - 16) with a in En by lia. congruence.
Qed.

Lemma blocks_size bl : size (blocks bl) = size bl.
Proof.
  induction bl as [|p n bl Hp IH] using map_ind; [done|]. rewrite blocks_insert, !map_size_insert_None; [by rewrite IH|done|].
  unfold blocks. by rewrite (lookup_kmap (fun p => p - 16)), lookup_fmap, Hp.
Qed.

(** A client from the start of the program on: it allocates, frees what it has, writes
    to its blocks, and otherwise leaves the end of its memory alone. *)
Inductive reach : ust -> St -> gmap Z Z -> Prop :=
| R_start m s : brk s = lo -> reach (mk_ust m 0) s ∅
| R_malloc u s bl fuel n p u' s' :
    reach u s bl -> 0 <= n <= 2 ^ 30 -> run (malloc base fuel n u) s = (Returned (p, u'), s') ->
    (2 * size bl + 4 <= fuel)%nat -> reach u' s' (if p =? 0 then bl else <[p := n]> bl)
| R_free u s bl fuel p n u' :
    reach u s bl -> bl !! p = Some n -> free fuel p u = Ret u' -> (size bl + 1 <= fuel)%nat -> reach u' s (delete p bl)
| R_store u s bl p n i v :
    reach u s bl -> bl !! p = Some n -> 0 <= i < n -> reach (mk_ust (mset (u_mem u) (p + i) v) (u_freep u)) s bl
| R_other u s s' bl : reach u s bl -> brk s' = brk s -> reach u s' bl.

(** The bytes of the blocks of [bl] are the same. *)
Definition same_data (bl : gmap Z Z) (m m' : mem) : Prop :=
  forall q k i, bl !! q = Some k -> 0 <= i < k -> mget m' (q + i) = mget m (q + i).

Definition state_ok (u : ust) (s : St) (bl : gmap Z Z) : Prop :=
  (forall p n, bl !! p = Some n -> 0 <= n <= 2 ^ 30) /\
  ((u_freep u = 0 /\ bl = ∅ /\ brk s = lo) \/ exists fl, rep u (brk s) fl (blocks bl)).
Hypothesis Hlo : lo < 2 ^ 31 /\ lo mod 16 = 0.

Lemma frame_data bl m m' : (forall p n, bl !! p = Some n -> 0 <= n <= 2 ^ 30) -> frame m m' (blocks bl) -> same_data bl m m'.
Proof.
  intros Hb Hf q k i Hq Hi. destruct (units_eq k (Hb q k Hq)) as (? & ? & ?).
  apply (Hf (q - 16) (units k)); [by apply blocks_lookup|]. unfold inside. cbn. lia.
Qed.

(** [malloc] in any state of the client. *)
Lemma malloc_ok fuel n u s bl :
  state_ok u s bl -> 0 <= n <= 2 ^ 30 -> (2 * size bl + 4 <= fuel)%nat ->
  exists p u' s', run (malloc base fuel n u) s = (Returned (p, u'), s') /\ same_data bl (u_mem u) (u_mem u') /\
    ((p = 0 /\ (exists k, answer _ (Sbrk k) s = (-1, s')) /\ state_ok u' s' bl) \/
     (p <> 0 /\ bl !! p = None /\ state_ok u' s' (<[p := n]> bl))).
Proof.
  intros [Hb Hst] Hn Hfuel. destruct (units_eq n Hn) as (En & Hun & _).
  assert (Hr : exists fl, rep (malloc_init base u) (brk s) fl (blocks bl) /\ frame (u_mem u) (u_mem (malloc_init base u)) (blocks bl)).
  { unfold malloc_init. destruct Hst as [(-> & -> & ->)|[fl Hr]].
    - exists []. split; [apply rep_init; tauto|]. intros a k z Ha. discriminate Ha.
    - exists fl. rewrite (proj2 (Z.eqb_neq _ _)); [done|]. pose proof (r_freep _ _ _ _ Hr) as [->|Hp]%elem_of_cons; [lia|].
      apply list_elem_of_fmap in Hp as (y & -> & Hy). destruct (ascends_in _ _ _ y (r_asc _ _ _ _ Hr) Hy). lia. }
  destruct Hr as (fl & Hr & Hf0). unfold malloc.
  destruct (malloc_loop_rep fuel (units n) _ s fl (blocks bl) Hr Hun) as (p & u' & s' & -> & Hc); [by rewrite blocks_size|].
  exists p, u', s'. split; [done|]. destruct Hc as [(-> & -> & Eb & Hk)|(bp & fl' & -> & Hr' & Hnone & Hf)].
  - split; [by apply frame_data|]. left. split; [done|]. split; [done|]. split; [done|]. right. exists fl. by rewrite Eb.
  - split; [apply frame_data; [done|by eapply frame_trans]|]. right. destruct (r_live _ _ _ _ Hr' bp (units n) (lookup_insert_eq _ _ _)) as (? & ? & ? & ?).
    split; [lia|]. split; [by apply blocks_none|]. split.
    + intros q k [[<- <-]|[_ Hq]]%lookup_insert_Some; eauto.
    + right. exists fl'. rewrite blocks_insert. by replace (bp + 16 - 16) with bp by lia.
Qed.

Lemma free_ok fuel p n u s bl :
  state_ok u s bl -> bl !! p = Some n -> (size bl + 1 <= fuel)%nat ->
  exists u', free fuel p u = Ret u' /\ same_data (delete p bl) (u_mem u) (u_mem u') /\ state_ok u' s (delete p bl).
Proof.
  intros [Hb [(_ & -> & _)|[fl Hr]]] Hp Hfuel; [done|]. pose proof (few_free _ _ _ _ Hr) as Hfew. rewrite blocks_size in Hfew.
  destruct (free_rep u (brk s) fl (blocks bl) (p - 16) (units n) fuel Hr) as (u' & fl' & E & Hr' & Hf & _); [by apply blocks_lookup|lia|].
  replace (p - 16 + 16) with p in E by lia. rewrite <- blocks_delete in *. exists u'. split; [done|].
  assert (Hb' : forall q k, delete p bl !! q = Some k -> 0 <= k <= 2 ^ 30) by (intros q k [_ Hq]%lookup_delete_Some; eauto).
  split; [by apply frame_data|]. split; [done|]. right. by exists fl'.
Qed.

Lemma store_ok p n i v u s bl :
  state_ok u s bl -> bl !! p = Some n -> 0 <= i < n -> state_ok (mk_ust (mset (u_mem u) (p + i) v) (u_freep u)) s bl.
Proof.
  intros [Hb [(_ & -> & _)|[fl Hr]]] Hp Hi; [done|]. split; [done|]. right. exists fl. destruct (units_eq n (Hb p n Hp)) as (_ & Hu & Hle).
  pose proof (blocks_lookup _ _ _ Hp) as Hp'. destruct (r_live _ _ _ _ Hr _ _ Hp') as (? & ? & ? & ?).
  assert (Hz : inside (p + i) (p - 16, units n)) by (unfold inside; cbn; lia).
  assert (Hh : forall q, ~ q <= p + i < q + 16 -> hptr (mset (u_mem u) (p + i) v) q = hptr (u_mem u) q /\ hsize (mset (u_mem u) (p + i) v) q = hsize (u_mem u) q).
  { intros q Hq. split; [apply load64_ext|apply hsize_ext]; intros z Hz'; rewrite mget_mset; by rewrite (proj2 (Z.eqb_neq _ _)) by lia. }
  assert (Hring : forall q, q ∈ base :: fl.*1 -> ~ q <= p + i < q + 16) by (intros q Hq; by apply (rep_ring_apart _ _ _ _ q _ _ _ Hr Hq Hp')).
  destruct Hr as [R1 R2 R3 R4 R5 R6 R7 R8 R9]. split; try done; cbn [u_mem u_freep].
  - apply (chain_head (u_mem u) _ base); [done|apply Hh, Hring; left|]. intros q Hq. apply Hh, Hring. by right.
  - rewrite (proj2 (Hh base (Hring base ltac:(left)))). done.
  - intros a k Ha. destruct (R6 a k Ha) as (? & ? & ? & Ek). do 3 (split; [done|]). rewrite <- Ek. apply hsize_ext. intros z Hz'.
    rewrite mget_mset, (proj2 (Z.eqb_neq _ _)); [done|]. intros ->.
    assert (a = p - 16) by (apply (R7 a k (p - 16) (units n) (p + i)); [done|done|unfold inside; cbn; lia|done]). lia.
Qed.

Lemma reach_ok u s bl : reach u s bl -> state_ok u s bl.
Proof.
  induction 1 as [m s Hs|u s bl fuel n p u' s' _ IH Hn E Hfuel|u s bl fuel p n u' _ IH Hp E Hfuel|u s bl p n i v _ IH Hp Hi|u s s' bl _ IH E].
  - split; [by intros p n Hp|]. by left.
  - destruct (malloc_ok fuel n u s bl IH Hn Hfuel) as (p0 & u0 & s0 & E0 & _ & Hc). rewrite E in E0. injection E0 as <- <- <-.
    destruct Hc as [(-> & _ & Hc)|(Hp & _ & Hc)]; [done|]. by rewrite (proj2 (Z.eqb_neq _ _)).
  - destruct (free_ok fuel p n u s bl IH Hp Hfuel) as (u0 & E0 & _ & Hc). rewrite E in E0. by injection E0 as <-.
  - by apply (store_ok p n).
  - destruct IH as [Hb Hc]. split; [done|]. by rewrite E.
Qed.

(** With nothing allocated the heap is one free block. *)
Lemma rep_all_free u top fl : rep u top fl ∅ -> lo < top -> fl = [(lo, (top - lo) / 16)].
Proof.
  intros Hr Ht. pose proof (r_asc _ _ _ _ Hr) as Ha. destruct (r_top _ _ _ _ Hr) as [_ Hal].
  assert (Hn : 16 * ((top - lo) / 16) = top - lo) by dlia.
  destruct (owned_block _ _ _ lo ((top - lo) / 16) Ha) as ([a k] & Hx & Hx1 & Hx2); [lia| |].
  - intros a Hai. destruct (r_cover _ _ _ _ Hr a ltac:(lia)) as [|(b & j & Hb & _)]; [done|discriminate Hb].
  - cbn in *. destruct (ascends_in _ _ _ _ Ha Hx) as (? & ? & ?). cbn in *.
    apply list_elem_of_split in Hx as (l1 & l2 & ->). apply ascends_app in Ha as [A1 (B1 & B2 & B3 & A2)]. cbn in *.
    destruct l1 as [|y l1]; [|destruct A1 as (? & ? & ? & A1); pose proof (ending_ge _ _ _ A1); cbn in *; lia].
    destruct l2 as [|y l2]; [|destruct A2 as (? & ? & ? & A2); lia]. cbn. do 2 f_equal; lia.
Qed.

Lemma state_ok_blocks u s bl : state_ok u s bl ->
  (forall p n, bl !! p = Some n -> lo + 16 <= p /\ p mod 16 = 0 /\ p + n <= brk s) /\
  (forall p n q k, bl !! p = Some n -> bl !! q = Some k -> p <> q -> p + n <= q \/ q + k <= p).
Proof.
  intros [Hb [(_ & -> & _)|[fl Hr]]]; [by split|].
  assert (Hl : forall p n, bl !! p = Some n -> blocks bl !! (p - 16) = Some (units n) /\ lo + 16 <= p /\ p mod 16 = 0 /\
    p + 16 * units n <= brk s + 16 /\ n + 16 <= 16 * units n /\ 0 < units n).
  { intros p n Hp. destruct (units_eq n (Hb p n Hp)) as (_ & ? & ?). pose proof (blocks_lookup _ _ _ Hp) as Hp'.
    destruct (r_live _ _ _ _ Hr _ _ Hp') as (? & ? & ? & ?). split; [done|]. split; [lia|]. split; [dlia|]. lia. }
  split.
  - intros p n Hp. destruct (Hl p n Hp) as (_ & ? & ? & ? & ? & ?). split; [lia|]. split; [done|lia].
  - intros p n q k Hp Hq Hne. destruct (Hl p n Hp) as (Hp' & ? & ? & ? & ? & ?), (Hl q k Hq) as (Hq' & ? & ? & ? & ? & ?).
    destruct (Z.lt_ge_cases p q); [left|right].
    + destruct (Z.le_gt_cases (p + n) q); [done|]. assert (p - 16 = q - 16); [|lia].
      apply (r_disj _ _ _ _ Hr _ _ _ _ (q - 16) Hp' Hq'); unfold inside; cbn; lia.
    + destruct (Z.le_gt_cases (q + k) p); [done|]. assert (p - 16 = q - 16); [|lia].
      apply (r_disj _ _ _ _ Hr _ _ _ _ (p - 16) Hp' Hq'); unfold inside; cbn; lia.
Qed.
End Run.
End Ring.

(** C12. The allocator is safe for every client and keeps the heap in one piece.  In every
    state a client can reach from the start of the program by allocating up to 1 GB at a
    time, freeing its blocks and writing to them, its blocks are aligned, inside the
    program's memory and disjoint; [malloc] returns, with a new block or, only when the
    kernel refuses more memory, with 0; [free] of a block returns; neither changes a byte
    of the other blocks; and when everything was freed the free list is one block, all of
    the heap.  Twice the number of blocks plus 4 steps are enough for [malloc]. *)
Theorem malloc_free_safe {St : Type} `{Heap St} (base lo : Z) (u : ust) (s : St) (bl : gmap Z Z) :
  0 < base -> base + 16 <= lo -> lo < 2 ^ 31 -> lo mod 16 = 0 -> reach base lo u s bl ->
  (forall p n, bl !! p = Some n -> lo + 16 <= p /\ p mod 16 = 0 /\ p + n <= brk s) /\
  (forall p n q k, bl !! p = Some n -> bl !! q = Some k -> p <> q -> p + n <= q \/ q + k <= p) /\
  (forall fuel n, 0 <= n <= 2 ^ 30 -> (2 * size bl + 4 <= fuel)%nat ->
     exists p u' s', run (malloc base fuel n u) s = (Returned (p, u'), s') /\ same_data bl (u_mem u) (u_mem u') /\
       ((p = 0 /\ exists k, answer _ (Sbrk k) s = (-1, s')) \/ (p <> 0 /\ bl !! p = None))) /\
  (forall fuel p n, bl !! p = Some n -> (size bl + 1 <= fuel)%nat ->
     exists u', free fuel p u = Ret u' /\ same_data (delete p bl) (u_mem u) (u_mem u')) /\
  (bl = ∅ -> lo < brk s ->
     hptr (u_mem u) base = lo /\ hsize (u_mem u) lo = (brk s - lo) / 16 /\ hptr (u_mem u) lo = base).
Proof.
  intros Hb1 Hb2 Hl1 Hl2 Hr. apply (reach_ok base lo (conj Hb1 Hb2) (conj Hl1 Hl2)) in Hr as Hok.
  destruct (state_ok_blocks base lo u s bl Hok) as [H1 H2]. split; [done|]. split; [done|]. split; [|split].
  - intros fuel n Hn Hf. destruct (malloc_ok base lo (conj Hb1 Hb2) (conj Hl1 Hl2) fuel n u s bl Hok Hn Hf) as (p & u' & s' & E & Hd & Hc).
    exists p, u', s'. split; [done|]. split; [done|]. destruct Hc as [(? & ? & _)|(? & ? & _)]; auto.
  - intros fuel p n Hp Hf. destruct (free_ok base lo (conj Hb1 Hb2) fuel p n u s bl Hok Hp Hf) as (u' & E & Hd & _). by exists u'.
  - intros -> Ht. destruct Hok as [_ [(_ & _ & E)|[fl Hrep]]]; [lia|]. change (blocks ∅) with (∅ : gmap Z Z) in Hrep.
    pose proof (rep_all_free base lo (conj Hl1 Hl2) u (brk s) fl Hrep Ht) as ->. by destruct (r_chain _ _ _ _ _ _ Hrep) as (? & ? & ?).
Qed.

(** ** A heap with one free block *)

(** [free] when the free list is empty. *)
Lemma free_first base fuel m bp n :
  0 < base -> base + 16 <= bp < 2 ^ 32 -> 0 <= n < 2 ^ 32 -> hptr m base = base -> hsize m base = 0 -> hsize m bp = n ->
  exists m', free fuel (bp + 16) (mk_ust m base) = Ret (mk_ust m' base) /\ hptr m' base = bp /\ hsize m' bp = n.
Proof.
  intros Hb Hbp Hn Hp Hs Hsz. unfold free. rewrite hadd_eq by lia. replace (bp + 16 * -1 + 16) with bp by lia.
  replace (bp + 16 + 16 * -1) with bp by lia. cbn [u_mem u_freep].
  assert (E : free_search fuel m bp base = Some base).
  { destruct fuel; cbn [free_search]; rewrite Hp; zcase; try done; lia. }
  rewrite E. eexists. split; [reflexivity|]. rewrite free_insert_eq. set (m1 := set_hptr m bp base).
  assert (E1 : join_right m bp base = m1).
  { unfold join_right. by rewrite Hsz, hadd_eq, Hp, (proj2 (Z.eqb_neq _ _)) by lia. }
  rewrite E1. unfold join_left. assert (O1 : only_header bp m m1) by apply only_hptr.
  rewrite (proj2 (only_header_get bp m m1 base O1 ltac:(lia))), Hs, hadd_eq, (proj2 (Z.eqb_neq _ _)) by lia.
  set (m2 := set_hptr m1 base bp). assert (O2 : only_header base m1 m2) by apply only_hptr.
  split; [apply hptr_set_hptr; lia|]. rewrite (proj2 (only_header_get base m1 m2 bp O2 ltac:(lia))). unfold m1. by rewrite hsize_set_hptr.
Qed.

(** The free list is the block at [lo] of [k] units. *)
Record single (base lo k : Z) (u : ust) : Prop := {
  sg_freep : u_freep u = base;
  sg_block : hptr (u_mem u) base = lo;
  sg_size : hsize (u_mem u) lo = k
}.

(** A request that leaves a part of the block is served without the kernel. *)
Lemma loop_single base lo k fuel fuel' n u :
  0 < base -> base + 16 <= lo -> lo + 16 * k < 2 ^ 32 -> 0 < n < k -> single base lo k u ->
  exists m', loop (S fuel) (malloc_body fuel' n) (u, base, lo) = Ret (lo + 16 * (k - n) + 16, mk_ust m' base) /\
    single base lo (k - n) (mk_ust m' base).
Proof.
  intros Hb Hl Hk Hn [Hf Hp Hs].
  cbn [loop malloc_body]. unfold malloc_take. rewrite Hs, Z.geb_leb, (proj2 (Z.leb_le _ _)), (proj2 (Z.eqb_neq _ _)) by lia.
  unfold u32. rewrite Z.mod_small by lia. set (m1 := set_hsize (u_mem u) lo (k - n)).
  assert (S1 : hsize m1 lo = k - n) by (apply hsize_set_hsize; lia). rewrite S1, (hadd_eq lo), hadd_eq by lia. cbn [ubind].
  assert (O1 : only_header lo (u_mem u) m1) by apply only_hsize.
  set (p := lo + 16 * (k - n)). assert (O2 : only_header p m1 (set_hsize m1 p n)) by apply only_hsize.
  eexists. split; [reflexivity|]. split; cbn [u_mem u_freep]; [done|..].
  - by rewrite (proj1 (only_header_get _ _ _ base O2 ltac:(lia))), (proj1 (only_header_get _ _ _ base O1 ltac:(lia))).
  - by rewrite (proj2 (only_header_get _ _ _ lo O2 ltac:(lia))).
Qed.

Lemma malloc_single base lo k fuel n u :
  0 < base -> base + 16 <= lo -> lo + 16 * k < 2 ^ 32 -> 0 < units n < k -> single base lo k u ->
  exists m', malloc base (S fuel) n u = Ret (lo + 16 * (k - units n) + 16, mk_ust m' base) /\
    single base lo (k - units n) (mk_ust m' base).
Proof.
  intros Hb Hl Hk Hn Hs. unfold malloc, malloc_init. rewrite (sg_freep _ _ _ _ Hs), (proj2 (Z.eqb_neq _ _)) by lia.
  rewrite (sg_freep _ _ _ _ Hs), (sg_block _ _ _ _ Hs). by apply loop_single.
Qed.

(** The first request of at most 64 kB: the kernel is asked for 64 kB, and the answer decides. *)
Lemma malloc_first {St : Type} `{Heap St} base fuel n m (s s' : St) r :
  0 < base -> base + 16 <= brk s < 2 ^ 31 -> 0 < units n < 4096 -> answer _ (Sbrk 65536) s = (r, s') ->
  (r = -1 /\ exists u', run (malloc base (S (S fuel)) n (mk_ust m 0)) s = (Returned (0, u'), s')) \/
  (r <> -1 /\ brk s + 65536 < 2 ^ 31 /\ exists m',
     run (malloc base (S (S fuel)) n (mk_ust m 0)) s = (Returned (brk s + 16 * (4096 - units n) + 16, mk_ust m' base), s') /\
     single base (brk s) (4096 - units n) (mk_ust m' base)).
Proof.
  intros Hb Hs Hn Ha. unfold malloc, malloc_init. cbn [u_freep u_mem Z.eqb].
  set (m0 := set_hsize (set_hptr m base base) base 0).
  assert (Hp0 : hptr m0 base = base) by (unfold m0; rewrite hptr_set_hsize; apply hptr_set_hptr; lia).
  assert (Hs0 : hsize m0 base = 0) by (by apply hsize_set_hsize).
  destruct (malloc_walk (S (S fuel)) (units n) (mk_ust m0 base) s [] base (S fuel)) as [(q & Hq & Hle & _)|[_ E]]; [done|apply not_elem_of_nil| |].
  { apply list_elem_of_singleton in Hq as ->. cbn [u_mem] in Hle. rewrite Hp0, Hs0 in Hle. lia. }
  cbn [length Nat.add u_mem] in E. rewrite E. clear E.
  unfold morecore. rewrite (proj2 (Z.ltb_lt _ _)) by lia. cbv zeta. change (i32 (4096 * sizeof_Header)) with 65536.
  rewrite !run_bind. cbn [run call]. rewrite Ha. cbn [fst snd run u_mem u_freep].
  destruct (sbrk_answer s 65536 ltac:(lia)) as (r0 & s0 & E & Hr). rewrite Ha in E. injection E as <- <-.
  destruct Hr as [[-> _]|(-> & E' & Hlt)]; [left; split; [done|]; by eexists|right; split; [lia|]; split; [lia|]].
  change (u64 (-1)) with (2 ^ 64 - 1). unfold u64 at 1. rewrite Z.mod_small, (proj2 (Z.eqb_neq _ _)), hadd_eq by lia.
  set (m1 := set_hsize m0 (brk s) 4096). assert (O1 : only_header (brk s) m0 m1) by apply only_hsize.
  destruct (only_header_get _ _ _ base O1 ltac:(lia)) as [F1 F2].
  destruct (free_first base (S (S fuel)) m1 (brk s) 4096) as (m2 & E & Hp2 & Hs2); [done|lia|lia|congruence|congruence|by apply hsize_set_hsize|].
  replace (brk s + 16 * 1) with (brk s + 16) by lia. rewrite E. cbn [run ubind u_freep u_mem]. rewrite (proj2 (Z.eqb_neq _ _)) by lia.
  destruct (loop_single base (brk s) 4096 fuel (S (S fuel)) (units n) (mk_ust m2 base)) as (m' & E2 & Hg); try done; try lia.
  rewrite Hp2, E2. by exists m'.
Qed.

(** ** Requests of almost 4 GB *)

Lemma units_wrap n : 2 ^ 32 - 15 <= n < 2 ^ 32 -> units n = 2 ^ 28 + 1.
Proof. intros H. unfold units, sizeof_Header, u32. rewrite Z.mod_small; dlia. Qed.

(** C13. The size that [morecore] gives to [sbrk], an [int], wraps around: asked for at least
    2^32 - 15 bytes, [malloc] gets 16 bytes from the kernel and returns a block whose header
    says that it has 2^28 + 1 units. *)
Theorem malloc_wraps {St : Type} `{Heap St} (base n : Z) (m : mem) (s s' : St) :
  0 < base -> base + 16 <= brk s < 2 ^ 31 -> 2 ^ 32 - 15 <= n < 2 ^ 32 -> answer _ (Sbrk 16) s = (brk s, s') ->
  exists u', run (malloc base 2 n (mk_ust m 0)) s = (Returned (brk s + 16, u'), s') /\
    hsize (u_mem u') (brk s) = 2 ^ 28 + 1.
Proof.
  intros Hb Hs Hn Ha. unfold malloc, malloc_init. rewrite (units_wrap n Hn). cbn [u_freep u_mem Z.eqb].
  set (m0 := set_hsize (set_hptr m base base) base 0).
  assert (Hp0 : hptr m0 base = base) by (unfold m0; rewrite hptr_set_hsize; apply hptr_set_hptr; lia).
  assert (Hs0 : hsize m0 base = 0) by (by apply hsize_set_hsize).
  destruct (malloc_walk 2 (2 ^ 28 + 1) (mk_ust m0 base) s [] base 1) as [(q & Hq & Hle & _)|[_ E]]; [done|apply not_elem_of_nil| |].
  { apply list_elem_of_singleton in Hq as ->. cbn [u_mem] in Hle. rewrite Hp0, Hs0 in Hle. lia. }
  cbn [length Nat.add u_mem] in E. rewrite E. clear E.
  unfold morecore. change (2 ^ 28 + 1 <? 4096) with false. cbv iota zeta. change (i32 ((2 ^ 28 + 1) * sizeof_Header)) with 16.
  rewrite !run_bind. cbn [run call]. rewrite Ha. cbn [fst snd run u_mem u_freep].
  change (u64 (-1)) with (2 ^ 64 - 1). unfold u64 at 1. rewrite Z.mod_small, (proj2 (Z.eqb_neq _ _)), hadd_eq by lia.
  set (m1 := set_hsize m0 (brk s) (2 ^ 28 + 1)). assert (O1 : only_header (brk s) m0 m1) by apply only_hsize.
  destruct (only_header_get _ _ _ base O1 ltac:(lia)) as [F1 F2].
  destruct (free_first base 2 m1 (brk s) (2 ^ 28 + 1)) as (m2 & E & Hp2 & Hs2); [done|lia|lia|congruence|congruence|by apply hsize_set_hsize|].
  replace (brk s + 16 * 1) with (brk s + 16) by lia. rewrite E. cbn [run ubind u_freep u_mem].
  rewrite (proj2 (Z.eqb_neq _ _)) by lia. cbn [loop malloc_body u_mem u_freep]. rewrite Hp2.
  unfold malloc_take. rewrite Hs2, Z.geb_leb, Z.leb_refl, Z.eqb_refl. cbn [ubind run]. rewrite hadd_eq by lia.
  eexists. split; [reflexivity|]. cbn [u_mem]. rewrite <- Hs2. apply (only_header_get base m2 _ (brk s) (only_hptr _ _ _)). lia.
Qed.

(** ** A kernel with 256 kB for the program *)

#[global] Instance heapos : OS Z := fun X c s =>
  match c in sys X return X * Z with
  | Sbrk n => if s + n <? 2 ^ 18 then (s, s + n) else (-1, s)
  | Wait => ((-1, 0), s)
  | Pipe => ((-1, (0, 0)), s)
  | Fstat _ => ((-1, Ulib.stat_zero), s)
  | Listenmsgs _ => (tt, s)
  | Load _ => (None, s)
  | Store _ _ => (false, s)
  | Read _ _ => ((-1, []), s)
  | Write _ _ | Fork | Close _ | Kill _ | Exec _ _ | Open _ _ | Mknod _ _ _ | Unlink _ | Link _ _ | Mkdir _ | Chdir _
  | Dup _ | Getpid | Sleep _ | Uptime | Setpixel _ _ _ _ _ | Getmsg | Ecall _ _ => (-1, s)
  end.

#[global] Program Instance heapos_heap : Heap Z := {| brk s := s |}.
Next Obligation.
  intros s n Hn. cbn. destruct (Z.ltb_spec (s + n) (2 ^ 18)); eexists _, _; (split; [done|]); [right|left]; lia.
Qed.

Definition u_start : ust := mk_ust ∅ 0.
Definition u_one : ust :=
  match run (malloc 1024 4 100 u_start) 4096 with (Returned (_, u), _) => u | _ => u_start end.
Definition u_none : ust := match free 4 69520 u_one with Ret u => u | _ => u_start end.

Lemma u_none_reach : reach 1024 4096 u_none (4096 + 65536) ∅.
Proof.
  change (∅ : gmap Z Z) with (delete 69520 (if 69520 =? 0 then ∅ else <[69520 := 100]> ∅ : gmap Z Z)).
  eapply (R_free _ _ u_one _ _ 4 69520 100); [|done|by vm_compute|by vm_compute; lia].
  eapply (R_malloc _ _ u_start 4096 _ 4 100 69520); [by apply R_start|lia|by vm_compute|by vm_compute; lia].
Qed.

Lemma malloc_free_safe_witness :
  hptr (u_mem u_none) 1024 = 4096 /\ hsize (u_mem u_none) 4096 = 4096 /\
  exists p u' s', run (malloc 1024 4 1000 u_none) (4096 + 65536) = (Returned (p, u'), s').
Proof.
  destruct (malloc_free_safe 1024 4096 u_none (4096 + 65536) ∅ ltac:(lia) ltac:(lia) ltac:(lia) eq_refl u_none_reach) as (_ & _ & Hm & _ & Hf).
  destruct (Hf eq_refl ltac:(cbn; lia)) as (H1 & H2 & _). split; [exact H1|]. split; [exact H2|].
  destruct (Hm 4%nat 1000 ltac:(lia) ltac:(vm_compute; lia)) as (p & u' & s' & E & _). exists p, u', s'. exact E.
Defined.

Lemma malloc_wraps_witness :
  exists u', run (malloc 1024 2 (2 ^ 32 - 1) u_start) 4096 = (Returned (4096 + 16, u'), 4112) /\ hsize (u_mem u') 4096 = 2 ^ 28 + 1.
Proof.
  destruct (malloc_wraps 1024 (2 ^ 32 - 1) ∅ 4096 4112) as (u' & E & Hs); [lia|cbn; lia|lia|reflexivity|].
  exists u'. split; [exact E|exact Hs].
Defined.
