(* ===== verification/Sh.v ===== *)
(** * user/sh.c: the shell

    The parser works on the line in place: a word is a pair of positions, and
    [nulterminate] ends the words by storing nuls in the line.  Commands are trees of
    such words; every node is a block of the heap, which its constructor gets from
    [malloc] and clears.  What is stored in the block afterwards is the node of the tree.
    The parser is proved to end on every line, to invert a printer of
    command trees, and [runcmd] never to return. *)
From stdpp Require Import gmap list strings.
From S2P Require Import Prelude Kstring Abi User UserLib Umalloc.

Definition MAXARGS : nat := 10.

(** struct cmd and its variants; [W] is the type of words: positions while parsing. *)
Inductive cmd (W : Type) : Type :=
| EXEC (argv : list W)
| REDIR (c : cmd W) (file : W) (mode fd : Z)
| PIPE (left right : cmd W)
| LIST (left right : cmd W)
| BACK (c : cmd W).
Arguments EXEC {W} argv.
Arguments REDIR {W} c file mode fd.
Arguments PIPE {W} left right.
Arguments LIST {W} left right.
Arguments BACK {W} c.

(** A word from [q] up to [eq]. *)
Definition span : Type := nat * nat.

(** [" \t\r\n\v"] and ["<|>&;()"]. *)
Definition whitespace : list Z := [32; 9; 13; 10; 11].
Definition symbols : list Z := [60; 124; 62; 38; 59; 40; 41].

Definition in_set (set : list Z) (c : Z) : bool :=
  match Ulib.strchr set c with Some _ => true | None => false end.

(** The result of a parsing function: the value and the new position, a call of
    [panic], not enough fuel, or a constructor that allocates [size] bytes and the
    result after it. *)
Inductive parsed (A : Type) : Type := POk (a : A) (s : nat) | PPanic (msg : string) | PMore | PAlloc (size : Z) (p : parsed A).
Arguments POk {A} a s.
Arguments PPanic {A} msg.
Arguments PMore {A}.
Arguments PAlloc {A} size p.

Fixpoint pbind {A B} (p : parsed A) (f : A -> nat -> parsed B) : parsed B :=
  match p with
  | POk a s => f a s
  | PPanic msg => PPanic msg
  | PMore => PMore
  | PAlloc size p => PAlloc size (pbind p f)
  end.

(** The sizes of the structures: an [int] takes 8 bytes before a pointer. *)
Definition sizeof_execcmd : Z := 8 + 8 * Z.of_nat MAXARGS + 8 * Z.of_nat MAXARGS.
Definition sizeof_redircmd : Z := 8 + 8 + 8 + 8 + 4 + 4.
Definition sizeof_pipecmd : Z := 8 + 8 + 8.
Definition sizeof_listcmd : Z := 8 + 8 + 8.
Definition sizeof_backcmd : Z := 8 + 8.

(** A redirection: the file, the mode and the descriptor. *)
Definition redir : Type := span * Z * Z.

(** The constructors, called at position [s] of the line.  The words of an [execcmd] are stored
    while [parseredirs] wraps it, so redirections are collected in the order
    in which they are wrapped around the command. *)
Definition execcmd (s : nat) : parsed unit := PAlloc sizeof_execcmd (POk tt s).
Definition redircmd (subcmd : list redir) (file : span) (mode fd : Z) (s : nat) : parsed (list redir) :=
  PAlloc sizeof_redircmd (POk (subcmd ++ [(file, mode, fd)]) s).
Definition pipecmd (left right : cmd span) (s : nat) : parsed (cmd span) := PAlloc sizeof_pipecmd (POk (PIPE left right) s).
Definition listcmd (left right : cmd span) (s : nat) : parsed (cmd span) := PAlloc sizeof_listcmd (POk (LIST left right) s).
Definition backcmd (subcmd : cmd span) (s : nat) : parsed (cmd span) := PAlloc sizeof_backcmd (POk (BACK subcmd) s).

(** The command inside its redirections. *)
Definition wrap (c : cmd span) (rs : list redir) : cmd span :=
  fold_left (fun c '(file, mode, fd) => REDIR c file mode fd) rs c.

Section Parser.
(** The line and the position [es] of its end. *)
Variable buf : list Z.
Variable es : nat.

(** [*s] *)
Definition char_at (s : nat) : Z := default 0 (buf !! s).

(** [while(s < es && f( *s )) s++]; [n] is [es - s]. *)
Fixpoint skip (f : Z -> bool) (n : nat) (s : nat) : nat :=
  match n with
  | O => s
  | S n => if f (char_at s) then skip f n (S s) else s
  end.
Definition skip_ws (s : nat) : nat := skip (in_set whitespace) (es - s) s.
Definition skip_word (s : nat) : nat :=
  skip (fun c => negb (in_set whitespace c) && negb (in_set symbols c)) (es - s) s.

(** The token, its span and the position after it; ['a'] is 97, ['+'] is 43. *)
Definition gettoken (s : nat) : Z * span * nat :=
  let s := skip_ws s in
  let q := s in
  let c := char_at s in
  let '(ret, s) :=
    if c =? 0 then (c, s)
    else if in_set [124; 40; 41; 59; 38; 60] c then (c, S s)
    else if c =? 62 then if char_at (S s) =? 62 then (43, S (S s)) else (c, S s)
    else (97, skip_word s) in
  (ret, (q, s), skip_ws s).

Definition peek (s : nat) (toks : list Z) : bool * nat :=
  let s := skip_ws s in
  (negb (char_at s =? 0) && in_set toks (char_at s), s).

(** The redirections met by [parseredirs]. *)
Fixpoint parseredirs (fuel : nat) (acc : list redir) (s : nat) : parsed (list redir) :=
  match fuel with
  | O => PMore
  | S fuel =>
      let '(b, s) := peek s [60; 62] in
      if negb b then POk acc s else
      let '(tok, _, s) := gettoken s in
      let '(tok2, w, s) := gettoken s in
      if negb (tok2 =? 97) then PPanic "missing file for redirection" else
      pbind (if tok =? 60 then redircmd acc w O_RDONLY 0 s
             else if tok =? 62 then redircmd acc w (Z.lor (Z.lor O_WRONLY O_CREATE) O_TRUNC) 1 s
             else if tok =? 43 then redircmd acc w (Z.lor O_WRONLY O_CREATE) 1 s
             else POk acc s)
        (parseredirs fuel)
  end.

(** The loop of [parseexec]: the words and the redirections so far. *)
Fixpoint parseargs (fuel : nat) (argv : list span) (rs : list redir) (s : nat) : parsed (list span * list redir) :=
  match fuel with
  | O => PMore
  | S fuel =>
      let '(b, s) := peek s [124; 41; 38; 59] in
      if b then POk (argv, rs) s else
      let '(tok, w, s) := gettoken s in
      if tok =? 0 then POk (argv, rs) s else
      if negb (tok =? 97) then PPanic "syntax" else
      let argv := argv ++ [w] in
      if Nat.leb MAXARGS (length argv) then PPanic "too many args" else
      pbind (parseredirs (S es) rs s) (parseargs fuel argv)
  end.

(** [while(peek(ps, es, "&"))] *)
Fixpoint parsebacks (fuel : nat) (c : cmd span) (s : nat) : parsed (cmd span) :=
  match fuel with
  | O => PMore
  | S fuel =>
      let '(b, s) := peek s [38] in
      if b then let '(_, _, s) := gettoken s in pbind (backcmd c s) (parsebacks fuel) else POk c s
  end.

Fixpoint parseline (fuel : nat) (s : nat) : parsed (cmd span) :=
  match fuel with
  | O => PMore
  | S fuel =>
      pbind (parsepipe fuel s) (fun c s =>
      pbind (parsebacks (S es) c s) (fun c s =>
      let '(b, s) := peek s [59] in
      if b then
        let '(_, _, s) := gettoken s in
        pbind (parseline fuel s) (listcmd c)
      else POk c s))
  end
with parsepipe (fuel : nat) (s : nat) : parsed (cmd span) :=
  match fuel with
  | O => PMore
  | S fuel =>
      pbind (parseexec fuel s) (fun c s =>
      let '(b, s) := peek s [124] in
      if b then
        let '(_, _, s) := gettoken s in
        pbind (parsepipe fuel s) (pipecmd c)
      else POk c s)
  end
with parseexec (fuel : nat) (s : nat) : parsed (cmd span) :=
  match fuel with
  | O => PMore
  | S fuel =>
      let '(b, s) := peek s [40] in
      if b then parseblock fuel s else
      pbind (execcmd s) (fun _ s =>
      pbind (parseredirs (S es) [] s) (fun rs s =>
      pbind (parseargs (S es) [] rs s) (fun a s =>
      POk (wrap (EXEC (fst a)) (snd a)) s)))
  end
with parseblock (fuel : nat) (s : nat) : parsed (cmd span) :=
  match fuel with
  | O => PMore
  | S fuel =>
      let '(b, s) := peek s [40] in
      if negb b then PPanic "parseblock" else
      let '(_, _, s) := gettoken s in
      pbind (parseline fuel s) (fun c s =>
      let '(b, s) := peek s [41] in
      if negb b then PPanic "syntax - missing )" else
      let '(_, _, s) := gettoken s in
      pbind (parseredirs (S es) [] s) (fun rs s =>
      POk (wrap c rs) s))
  end.
End Parser.

(** [nulterminate]: [*eargv[i] = 0] and [*efile = 0]. *)
Fixpoint nulterminate (c : cmd span) (buf : list Z) : list Z :=
  match c with
  | EXEC argv => fold_left (fun b w => <[snd w := 0]> b) argv buf
  | REDIR c w _ _ => <[snd w := 0]> (nulterminate c buf)
  | PIPE l r => nulterminate r (nulterminate l buf)
  | LIST l r => nulterminate r (nulterminate l buf)
  | BACK c => nulterminate c buf
  end.

(** Every call of the parser consumes a character or goes down one of the four
    levels of the grammar. *)
Definition parse_fuel (es : nat) : nat := 4 * S es.

(** The string a word is for the system calls. *)
Definition word_at (buf : list Z) (w : span) : list Z := until_nul (drop (fst w) buf).

Fixpoint cmd_map {V W} (f : V -> W) (c : cmd V) : cmd W :=
  match c with
  | EXEC argv => EXEC (map f argv)
  | REDIR c file mode fd => REDIR (cmd_map f c) (f file) mode fd
  | PIPE l r => PIPE (cmd_map f l) (cmd_map f r)
  | LIST l r => LIST (cmd_map f l) (cmd_map f r)
  | BACK c => BACK (cmd_map f c)
  end.

(** ** Running commands *)

Definition nl : list Z := [10].
Definition sh_panic {A} (s : string) : prog A :=
  Uprintf.fprintf 2 (bytes_of "%s" ++ nl) [Uprintf.Astr (Some (bytes_of s))] ;;; Exit 1.

Definition fork1 : prog Z :=
  pid <- call Fork ;;
  if pid =? -1 then sh_panic "fork" else Ret pid.

Fixpoint runcmd (c : cmd (list Z)) : prog unit :=
  match c with
  | EXEC argv =>
      match argv with
      | [] => Exit 1
      | a0 :: _ =>
          call (Exec a0 argv) ;;;
          Uprintf.fprintf 2 (bytes_of "exec %s failed" ++ nl) [Uprintf.Astr (Some a0)] ;;;
          Exit 0
      end
  | REDIR c file mode fd =>
      call (Close fd) ;;;
      r <- call (Open file mode) ;;
      if r <? 0 then Uprintf.fprintf 2 (bytes_of "open %s failed" ++ nl) [Uprintf.Astr (Some file)] ;;; Exit 1
      else runcmd c ;;; Exit 0
  | LIST lc rc =>
      pid <- fork1 ;;
      uwhen (pid =? 0) (runcmd lc) ;;;
      call Wait ;;;
      runcmd rc ;;;
      Exit 0
  | PIPE lc rc =>
      r <- call Pipe ;;
      let '(r, (p0, p1)) := r in
      if r <? 0 then sh_panic "pipe" else
      pid <- fork1 ;;
      uwhen (pid =? 0)
        (call (Close 1) ;;; call (Dup p1) ;;; call (Close p0) ;;; call (Close p1) ;;; runcmd lc) ;;;
      pid <- fork1 ;;
      uwhen (pid =? 0)
        (call (Close 0) ;;; call (Dup p0) ;;; call (Close p0) ;;; call (Close p1) ;;; runcmd rc) ;;;
      call (Close p0) ;;;
      call (Close p1) ;;;
      call Wait ;;;
      call Wait ;;;
      Exit 0
  | BACK c =>
      pid <- fork1 ;;
      uwhen (pid =? 0) (runcmd c) ;;;
      Exit 0
  end.

Definition NBUF_ : Z := 100.

(** The line after [gets], in a buffer of [nbuf] bytes; [None] at the end of the input. *)
Definition getcmd (nbuf : Z) : prog (option (list Z)) :=
  Uprintf.fprintf 2 (bytes_of "$ ") [] ;;;
  line <- Ulib.gets nbuf ;;
  let buf := line ++ replicate (Z.to_nat nbuf - length line) 0 in
  Ret (if default 0 (head buf) =? 0 then None else Some buf).

Section Build.
(** The address of the allocator's static [base], and the fuel of its loops. *)
Variables (base : Z) (mfuel : nat).

(** What the constructors begin with: [malloc] and [memset], which stores through a null
    pointer when [malloc] fails. *)
Definition construct (size : Z) (u : ust) : prog ust :=
  r <- malloc base mfuel size u ;;
  let '(p, u) := r in
  if p =? 0 then Fault else Ret (mk_ust (memset (u_mem u) p 0 size) (u_freep u)).

(** The parser with the calls of its constructors. *)
Fixpoint build {A} (p : parsed A) (u : ust) : prog (A * nat) :=
  match p with
  | POk a s => Ret (a, s)
  | PPanic msg => sh_panic msg
  | PMore => More
  | PAlloc size p => u <- construct size u ;; build p u
  end.

(** The tree, and the line in which its words end in nuls. *)
Definition parsecmd (buf : list Z) (u : ust) : prog (cmd span * list Z) :=
  let es := length (until_nul buf) in
  r <- build (parseline buf es (parse_fuel es) 0) u ;;
  let '(c, s) := r in
  let '(_, s) := peek buf es s [] in
  if negb (Nat.eqb s es) then
    Uprintf.fprintf 2 (bytes_of "leftovers: %s" ++ nl) [Uprintf.Astr (Some (until_nul (drop s buf)))] ;;;
    sh_panic "syntax"
  else Ret (c, nulterminate c buf).

(** [runcmd(parsecmd(buf))] *)
Definition run_line (buf : list Z) (u : ust) : prog unit :=
  r <- parsecmd buf u ;;
  let '(c, buf) := r in
  runcmd (cmd_map (word_at buf) c).
End Build.

(** [cd ] is 99, 100, 32. *)
Definition is_cd (buf : list Z) : bool := bool_decide (take 3 buf = [99; 100; 32]).

(** The loop that opens the three standard descriptors. *)
Definition open_console (fuel : nat) : prog unit :=
  loop fuel (fun _ : unit =>
    fd <- call (Open (bytes_of "console") O_RDWR) ;;
    if fd <? 0 then Ret (inr tt)
    else if fd >=? 3 then call (Close fd) ;;; Ret (inr tt)
    else Ret (inl tt)) tt.

(** The shell itself allocates nothing, so its children find the heap as it was at the start. *)
Definition main (base : Z) (mfuel fuel : nat) : prog unit :=
  open_console fuel ;;;
  loop fuel (fun _ : unit =>
    r <- getcmd NBUF_ ;;
    match r with
    | None => Ret (inr tt)
    | Some buf =>
        if is_cd buf then
          let buf := <[(length (until_nul buf) - 1)%nat := 0]> buf in
          let dir := until_nul (drop 3 buf) in
          r <- call (Chdir dir) ;;
          uwhen (r <? 0) (Uprintf.fprintf 2 (bytes_of "cannot cd %s" ++ nl) [Uprintf.Astr (Some dir)]) ;;;
          Ret (inl tt)
        else
          pid <- fork1 ;;
          uwhen (pid =? 0) (run_line base mfuel buf (mk_ust ∅ 0)) ;;;
          call Wait ;;;
          Ret (inl tt)
    end) tt ;;;
  Exit 0.

(** ** The parser ends *)

Lemma in_set_false set c : in_set set c = false <-> c ∉ set.
Proof. unfold in_set. rewrite strchr_in. apply bool_decide_eq_false. Qed.
Lemma in_set_true set c : in_set set c = true <-> c ∈ set.
Proof. unfold in_set. rewrite strchr_in. apply bool_decide_eq_true. Qed.

Section Termination.
Variable buf : list Z.
Variable es : nat.

Lemma skip_bounds f n : forall s, (s <= skip buf f n s <= s + n)%nat.
Proof. induction n as [|n IH]; intros s; cbn [skip]; [lia|]. destruct (f _); [|lia]. specialize (IH (S s)). lia. Qed.

Lemma skip_ws_bounds s : (s <= es)%nat -> (s <= skip_ws buf es s <= es)%nat.
Proof. intros Hs. unfold skip_ws. pose proof (skip_bounds (in_set whitespace) (es - s) s). lia. Qed.

Lemma skip_word_bounds s : (s <= es)%nat -> (s <= skip_word buf es s <= es)%nat.
Proof.
  intros Hs. unfold skip_word.
  pose proof (skip_bounds (fun c => negb (in_set whitespace c) && negb (in_set symbols c)) (es - s) s). lia.
Qed.

Lemma skip_stop f n : forall s, (skip buf f n s < s + n)%nat -> f (char_at buf (skip buf f n s)) = false.
Proof.
  induction n as [|n IH]; intros s Hlt; cbn [skip] in *; [lia|].
  destruct (f (char_at buf s)) eqn:E; [|done]. apply IH. lia.
Qed.

Lemma skip_none f n s : f (char_at buf s) = false -> skip buf f n s = s.
Proof. intros E. destruct n; cbn [skip]; [done|]. by rewrite E. Qed.

Hypothesis Hes : char_at buf es = 0.

Lemma skip_ws_stop s : (s <= es)%nat -> in_set whitespace (char_at buf (skip_ws buf es s)) = false.
Proof.
  intros Hs. pose proof (skip_ws_bounds s Hs). destruct (decide (skip_ws buf es s = es)) as [->|]; [by rewrite Hes|].
  unfold skip_ws in *. apply skip_stop. lia.
Qed.

Lemma skip_ws_idem s : (s <= es)%nat -> skip_ws buf es (skip_ws buf es s) = skip_ws buf es s.
Proof. intros Hs. unfold skip_ws at 1. by apply skip_none, skip_ws_stop. Qed.

Lemma nonzero_lt s : (s <= es)%nat -> char_at buf s <> 0 -> (s < es)%nat.
Proof. intros Hs Hc. destruct (decide (s = es)) as [->|]; [done|lia]. Qed.

Lemma gettoken_bounds s tok q e s' :
  gettoken buf es s = (tok, (q, e), s') -> (s <= es)%nat ->
  q = skip_ws buf es s /\ s' = skip_ws buf es e /\ (s <= q)%nat /\ (q <= e)%nat /\ (e <= s')%nat /\ (s' <= es)%nat /\
  (char_at buf q <> 0 -> (q < e)%nat).
Proof.
  intros Hg Hs. revert Hg. unfold gettoken. pose proof (skip_ws_bounds s Hs) as Hq. pose proof (skip_ws_stop s Hs) as Hw.
  set (q0 := skip_ws buf es s) in *. cbn zeta.
  assert (Hgo : forall t e0, (q0 <= e0 <= es)%nat -> (char_at buf q0 <> 0 -> (q0 < e0)%nat) ->
    (t, (q0, e0), skip_ws buf es e0) = (tok, (q, e), s') ->
    q = q0 /\ s' = skip_ws buf es e /\ (s <= q)%nat /\ (q <= e)%nat /\ (e <= s')%nat /\ (s' <= es)%nat /\
    (char_at buf q <> 0 -> (q < e)%nat)).
  { intros t e0 He0 Hp [= <- <- <- <-]. pose proof (skip_ws_bounds e0 ltac:(lia)). repeat split; (lia || done). }
  destruct (Z.eqb_spec (char_at buf q0) 0) as [E0|E0]; [apply Hgo; [lia|done]|].
  pose proof (nonzero_lt q0 ltac:(lia) E0). destruct (in_set [124; 40; 41; 59; 38; 60] (char_at buf q0)) eqn:Ei; [apply Hgo; lia|].
  destruct (Z.eqb_spec (char_at buf q0) 62) as [E1|E1].
  - destruct (Z.eqb_spec (char_at buf (S q0)) 62) as [E2|E2]; [|apply Hgo; lia].
    assert (S q0 < es)%nat by (apply nonzero_lt; [lia|by rewrite E2]). apply Hgo; lia.
  - pose proof (skip_word_bounds q0 ltac:(lia)). apply Hgo; [lia|]. intros _.
    unfold skip_word. replace (es - q0)%nat with (S (es - S q0)) by lia. cbn [skip]. rewrite Hw.
    replace (in_set symbols (char_at buf q0)) with false; cbn [negb andb]; [|].
    + pose proof (skip_bounds (fun c => negb (in_set whitespace c) && negb (in_set symbols c)) (es - S q0) (S q0)). lia.
    + symmetry. apply in_set_false. apply in_set_false in Ei. revert Ei. unfold symbols.
      rewrite !not_elem_of_cons. tauto.
Qed.

Lemma peek_bounds s toks b s' :
  peek buf es s toks = (b, s') -> (s <= es)%nat ->
  s' = skip_ws buf es s /\ (s <= s' <= es)%nat /\ (b = true -> char_at buf s' <> 0 /\ in_set toks (char_at buf s') = true).
Proof.
  intros [= <- <-] Hs. split; [done|]. split; [by apply skip_ws_bounds|]. rewrite andb_true_iff, negb_true_iff, Z.eqb_neq. done.
Qed.

(** After a successful [peek], [gettoken] consumes the token. *)
Lemma peek_gettoken s toks s1 tok q e s2 :
  peek buf es s toks = (true, s1) -> gettoken buf es s1 = (tok, (q, e), s2) -> (s <= es)%nat -> (s < s2 <= es)%nat.
Proof.
  intros Hp Hg Hs. destruct (peek_bounds _ _ _ _ Hp Hs) as (-> & Hb & Hc). destruct Hc as [Hc _]; [done|].
  destruct (gettoken_bounds _ _ _ _ _ Hg ltac:(lia)) as (-> & _ & H1 & H2 & H3 & H4 & H5).
  rewrite skip_ws_idem in * by done. specialize (H5 Hc). lia.
Qed.

(** The result is not the lack of fuel, the position has not moved back, and with [b] blocks
    to begin with and two more for every character up to the new position, no
    block is lacking; the blocks are at most those of [execcmd]. *)
Fixpoint fine {A} (s : nat) (b : Z) (p : parsed A) : Prop :=
  match p with
  | POk _ s' => (s <= s' <= es)%nat /\ 0 <= b + 2 * Z.of_nat s'
  | PPanic _ => 0 <= b + 2 * Z.of_nat es
  | PMore => False
  | PAlloc size p => 0 < size <= sizeof_execcmd /\ fine s (b - 1) p
  end.

Lemma fine_mono {A} (p : parsed A) : forall s s1 b b1, fine s1 b1 p -> (s <= s1)%nat -> b1 <= b -> fine s b p.
Proof.
  induction p as [a s'| | |z p IH]; cbn; intros s s1 b b1 H Hs Hb; [lia|lia|done|].
  destruct H as [Hz H]. split; [done|]. eapply IH; [exact H|done|lia].
Qed.

Lemma fine_bind {A B} s s1 b b1 (p : parsed A) (f : A -> nat -> parsed B) :
  fine s1 b1 p -> b1 <= b -> (forall a s2, (s1 <= s2 <= es)%nat -> fine s (b - b1 - 2 * Z.of_nat s2) (f a s2)) -> fine s b (pbind p f).
Proof.
  revert b b1. induction p as [a s2| | |z p IH]; cbn [fine pbind]; intros b b1 H Hb Hf; [|lia|done|].
  - apply (fine_mono _ s s b (b - b1 - 2 * Z.of_nat s2)); [apply Hf, H|lia|lia].
  - destruct H as [Hz H]. split; [done|]. apply (IH _ _ H); [lia|]. intros a s2 Hs2.
    by replace (b - 1 - (b1 - 1)) with (b - b1) by lia; apply Hf.
Qed.

Lemma parseredirs_fine fuel : forall acc s, (s <= es)%nat -> (es - s < fuel)%nat -> fine s (- 2 * Z.of_nat s) (parseredirs buf es fuel acc s).
Proof.
  induction fuel as [|fuel IH]; intros acc s Hs Hf; [lia|]. cbn [parseredirs].
  destruct (peek buf es s _) as [[] s1] eqn:Ep; cbn [negb].
  2: { destruct (peek_bounds _ _ _ _ Ep Hs) as (_ & Hb & _). cbn. lia. }
  destruct (gettoken buf es s1) as [[tok [q e]] s2] eqn:Eg.
  destruct (peek_gettoken _ _ _ _ _ _ _ Ep Eg Hs) as [H1 H2].
  destruct (gettoken buf es s2) as [[tok2 [q2 e2]] s3] eqn:Eg2.
  destruct (gettoken_bounds _ _ _ _ _ Eg2 H2) as (_ & _ & H3 & H4 & H5 & H6 & _).
  destruct (tok2 =? 97); cbn [negb]; [|cbn; lia].
  assert (Hgo : forall acc b, - 2 * Z.of_nat s3 <= b -> fine s b (parseredirs buf es fuel acc s3)).
  { intros acc' b Hb. eapply fine_mono; [apply IH; lia|lia|lia]. }
  destruct (tok =? 60); [|destruct (tok =? 62); [|destruct (tok =? 43)]]; cbn [pbind redircmd fine];
    try (split; [by vm_compute|]); apply Hgo; lia.
Qed.

Lemma parsebacks_fine fuel : forall c s, (s <= es)%nat -> (es - s < fuel)%nat -> fine s (- 2 * Z.of_nat s) (parsebacks buf es fuel c s).
Proof.
  induction fuel as [|fuel IH]; intros c s Hs Hf; [lia|]. cbn [parsebacks].
  destruct (peek buf es s _) as [[] s1] eqn:Ep.
  2: { destruct (peek_bounds _ _ _ _ Ep Hs) as (_ & Hb & _). cbn. lia. }
  destruct (gettoken buf es s1) as [[tok [q e]] s2] eqn:Eg.
  destruct (peek_gettoken _ _ _ _ _ _ _ Ep Eg Hs) as [H1 H2].
  cbn [backcmd pbind fine]. split; [by vm_compute|]. eapply fine_mono; [apply IH; lia|lia|lia].
Qed.

Lemma parseargs_fine fuel : forall argv rs s, (s <= es)%nat -> (es - s < fuel)%nat ->
  fine s (- 2 * Z.of_nat s) (parseargs buf es fuel argv rs s).
Proof.
  induction fuel as [|fuel IH]; intros argv rs s Hs Hf; [lia|]. cbn [parseargs].
  destruct (peek buf es s _) as [[] s1] eqn:Ep; destruct (peek_bounds _ _ _ _ Ep Hs) as (E1 & Hb & _); [cbn; lia|].
  destruct (gettoken buf es s1) as [[tok [q e]] s2] eqn:Eg.
  destruct (gettoken_bounds _ _ _ _ _ Eg ltac:(lia)) as (E2 & _ & H3 & H4 & H5 & H6 & H7).
  destruct (Z.eqb_spec tok 0) as [|Htok]; [cbn; lia|]. destruct (tok =? 97); cbn [negb]; [|cbn; lia].
  destruct (Nat.leb _ _); [cbn; lia|]. assert (Hlt : (q < e)%nat).
  { apply H7. intros E0. apply Htok. unfold gettoken in Eg. rewrite <- E2, E0 in Eg. cbn in Eg. congruence. }
  eapply fine_bind; [apply parseredirs_fine; lia|lia|]. intros rs' s3 H8.
  eapply fine_mono; [apply IH; lia|lia|lia].
Qed.

(** The equations of the four parsers. *)
Lemma parseline_S fuel s : parseline buf es (S fuel) s =
  pbind (parsepipe buf es fuel s) (fun c s =>
  pbind (parsebacks buf es (S es) c s) (fun c s =>
  let '(b, s) := peek buf es s [59] in
  if b then
    let '(_, _, s) := gettoken buf es s in
    pbind (parseline buf es fuel s) (listcmd c)
  else POk c s)).
Proof. reflexivity. Qed.
Lemma parsepipe_S fuel s : parsepipe buf es (S fuel) s =
  pbind (parseexec buf es fuel s) (fun c s =>
  let '(b, s) := peek buf es s [124] in
  if b then
    let '(_, _, s) := gettoken buf es s in
    pbind (parsepipe buf es fuel s) (pipecmd c)
  else POk c s).
Proof. reflexivity. Qed.
Lemma parseexec_S fuel s : parseexec buf es (S fuel) s =
  let '(b, s) := peek buf es s [40] in
  if b then parseblock buf es fuel s else
  PAlloc sizeof_execcmd (pbind (parseredirs buf es (S es) [] s) (fun rs s =>
  pbind (parseargs buf es (S es) [] rs s) (fun a s =>
  POk (wrap (EXEC (fst a)) (snd a)) s))).
Proof. reflexivity. Qed.
Lemma parseblock_S fuel s : parseblock buf es (S fuel) s =
  let '(b, s) := peek buf es s [40] in
  if negb b then PPanic "parseblock" else
  let '(_, _, s) := gettoken buf es s in
  pbind (parseline buf es fuel s) (fun c s =>
  let '(b, s) := peek buf es s [41] in
  if negb b then PPanic "syntax - missing )" else
  let '(_, _, s) := gettoken buf es s in
  pbind (parseredirs buf es (S es) [] s) (fun rs s => POk (wrap c rs) s)).
Proof. reflexivity. Qed.

Lemma parser_fine fuel : forall s, (s <= es)%nat ->
  ((4 * (es - s) + 4 <= fuel)%nat -> fine s (1 - 2 * Z.of_nat s) (parseline buf es fuel s)) /\
  ((4 * (es - s) + 3 <= fuel)%nat -> fine s (1 - 2 * Z.of_nat s) (parsepipe buf es fuel s)) /\
  ((4 * (es - s) + 2 <= fuel)%nat -> fine s (1 - 2 * Z.of_nat s) (parseexec buf es fuel s)) /\
  ((4 * (es - s) + 1 <= fuel)%nat -> fine s (1 - 2 * Z.of_nat s) (parseblock buf es fuel s)).
Proof.
  induction fuel as [|fuel IH]; intros s Hs; [lia|]. repeat split; intros Hf.
  - rewrite parseline_S. eapply fine_bind; [apply IH; lia|lia|]. intros c s1 H1.
    eapply fine_bind; [apply parsebacks_fine; lia|lia|]. intros c2 s2 H2.
    destruct (peek buf es s2 _) as [[] s3] eqn:Ep; destruct (peek_bounds _ _ _ _ Ep ltac:(lia)) as (_ & Hb & _); [|cbn; lia].
    destruct (gettoken buf es s3) as [[tok [q e]] s4] eqn:Eg.
    destruct (peek_gettoken _ _ _ _ _ _ _ Ep Eg ltac:(lia)) as [H3 H4].
    eapply fine_bind; [apply IH; lia|lia|]. intros c3 s5 H5. split; [by vm_compute|]. cbn [fine]. lia.
  - rewrite parsepipe_S. eapply fine_bind; [apply IH; lia|lia|]. intros c s1 H1.
    destruct (peek buf es s1 _) as [[] s3] eqn:Ep; destruct (peek_bounds _ _ _ _ Ep ltac:(lia)) as (_ & Hb & _); [|cbn; lia].
    destruct (gettoken buf es s3) as [[tok [q e]] s4] eqn:Eg.
    destruct (peek_gettoken _ _ _ _ _ _ _ Ep Eg ltac:(lia)) as [H3 H4].
    eapply fine_bind; [apply IH; lia|lia|]. intros c3 s5 H5. split; [by vm_compute|]. cbn [fine]. lia.
  - rewrite parseexec_S. destruct (peek buf es s _) as [[] s1] eqn:Ep; destruct (peek_bounds _ _ _ _ Ep Hs) as (_ & Hb & _).
    + destruct (IH s1 ltac:(lia)) as (_ & _ & _ & H). eapply fine_mono; [apply H; lia|lia|lia].
    + split; [by vm_compute|]. eapply fine_bind; [apply parseredirs_fine; lia|lia|]. intros rs s2 H2.
      eapply fine_bind; [apply parseargs_fine; lia|lia|]. intros; cbn; lia.
  - rewrite parseblock_S. destruct (peek buf es s _) as [[] s1] eqn:Ep; cbn [negb]; [|cbn; lia].
    destruct (gettoken buf es s1) as [[tok [q e]] s2] eqn:Eg.
    destruct (peek_gettoken _ _ _ _ _ _ _ Ep Eg Hs) as [H1 H2].
    eapply fine_bind; [apply IH; lia|lia|]. intros c s3 H3.
    destruct (peek buf es s3 _) as [[] s4] eqn:Ep2; cbn [negb]; [|cbn; lia].
    destruct (gettoken buf es s4) as [[tok2 [q2 e2]] s5] eqn:Eg2.
    destruct (peek_gettoken _ _ _ _ _ _ _ Ep2 Eg2 ltac:(lia)) as [H4 H5].
    eapply fine_bind; [apply parseredirs_fine; lia|lia|]. intros; cbn; lia.
Qed.

(** The first thing the parser does is to construct an [execcmd]. *)
Definition starts {A} (p : parsed A) : Prop := exists p', p = PAlloc sizeof_execcmd p'.

Lemma starts_bind {A B} (p : parsed A) (f : A -> nat -> parsed B) : starts p -> starts (pbind p f).
Proof. intros [p' ->]. by eexists. Qed.

Lemma parser_starts fuel : forall s, (s <= es)%nat ->
  ((4 * (es - s) + 4 <= fuel)%nat -> starts (parseline buf es fuel s)) /\
  ((4 * (es - s) + 3 <= fuel)%nat -> starts (parsepipe buf es fuel s)) /\
  ((4 * (es - s) + 2 <= fuel)%nat -> starts (parseexec buf es fuel s)).
Proof.
  induction fuel as [fuel IH] using (well_founded_induction lt_wf). intros s Hs. destruct fuel as [|fuel]; [lia|]. repeat split; intros Hf.
  - rewrite parseline_S. apply starts_bind, IH; lia.
  - rewrite parsepipe_S. apply starts_bind, IH; lia.
  - rewrite parseexec_S. destruct (peek buf es s _) as [[] s1] eqn:Ep; [|by eexists].
    destruct (peek_bounds _ _ _ _ Ep Hs) as (-> & Hb & Hc). destruct fuel as [|fuel]; [lia|]. rewrite parseblock_S.
    unfold peek at 1. rewrite skip_ws_idem by done. unfold peek in Ep. injection Ep as ->. cbn [negb].
    destruct (gettoken buf es _) as [[tok [q e]] s2] eqn:Eg.
    destruct (peek_gettoken s [40] (skip_ws buf es s) tok q e s2) as [H1 H2]; [unfold peek|done|done|apply starts_bind, IH; lia].
    destruct (Hc eq_refl) as [C1 C2]. by rewrite (proj2 (Z.eqb_neq _ _) C1), C2.
Qed.
End Termination.

Lemma char_at_end buf : char_at buf (length (until_nul buf)) = 0.
Proof.
  unfold char_at. induction buf as [|c buf IH]; [done|]. cbn [until_nul].
  destruct (Z.eqb_spec c 0) as [->|]; [done|]. cbn. exact IH.
Qed.

(** The parser on a whole line, of a length that [main] can read. *)
Lemma parseline_line buf : (length (until_nul buf) < 100)%nat ->
  exists p, parseline buf (length (until_nul buf)) (parse_fuel (length (until_nul buf))) 0 = PAlloc sizeof_execcmd p /\
    fine (length (until_nul buf)) 0 0 p.
Proof.
  intros Hl. set (es := length (until_nul buf)) in *.
  destruct (parser_starts buf es (char_at_end buf) (parse_fuel es) 0) as [[p E] _]; [lia|unfold parse_fuel; lia|].
  destruct (parser_fine buf es (char_at_end buf) (parse_fuel es) 0) as [H _]; [lia|]. specialize (H ltac:(unfold parse_fuel; lia)).
  rewrite E in H. exists p. split; [done|]. by destruct H.
Qed.

Section Exits.
Context {S : Type} `{OS S}.

(** Whatever the kernel answers, the program returns, or exits. *)
Definition returns {A} (p : prog A) : Prop := forall s, exists a s', run p s = (Returned a, s').
Definition exits {A} (p : prog A) : Prop := forall s, exists n s', run p s = (Exited n, s').

Lemma returns_ret {A} (a : A) : returns (Ret a).
Proof. intros s. by exists a, s. Qed.
Lemma returns_call {X A} (c : sys X) (f : X -> prog A) : (forall x, returns (f x)) -> returns (ubind (call c) f).
Proof. intros Hf s. cbn. destruct (answer X c s) as [x s']. apply Hf. Qed.
Lemma returns_bind {A B} (p : prog A) (f : A -> prog B) : returns p -> (forall a, returns (f a)) -> returns (ubind p f).
Proof. intros Hp Hf s. destruct (Hp s) as (a & s' & E). rewrite (run_bind_ret _ _ _ _ _ E). apply Hf. Qed.
Lemma exits_exit {A} n : exits (@Exit A n).
Proof. intros s. by exists n, s. Qed.
Lemma exits_call {X A} (c : sys X) (f : X -> prog A) : (forall x, exits (f x)) -> exits (ubind (call c) f).
Proof. intros Hf s. cbn. destruct (answer X c s) as [x s']. apply Hf. Qed.
Lemma exits_bind {A B} (p : prog A) (f : A -> prog B) : returns p -> (forall a, exits (f a)) -> exits (ubind p f).
Proof. intros Hp Hf s. destruct (Hp s) as (a & s' & E). rewrite (run_bind_ret _ _ _ _ _ E). apply Hf. Qed.
Lemma exits_now {A B} (p : prog A) (f : A -> prog B) : exits p -> exits (ubind p f).
Proof. intros Hp s. destruct (Hp s) as (n & s' & E). exists n, s'. by rewrite run_bind, E. Qed.
Lemma exits_when b (p : prog unit) {A} (q : prog A) : exits p -> exits q -> exits (uwhen b p ;;; q).
Proof. intros Hp Hq. destruct b; [by apply exits_now|apply exits_bind; [apply returns_ret|done]]. Qed.

Lemma returns_putcs fd cs : returns (ueach cs (Uprintf.putc fd)).
Proof.
  induction cs as [|c cs IH]; [apply returns_ret|]. cbn [ueach]. apply returns_bind; [|done].
  apply returns_call. intros. apply returns_ret.
Qed.

(** A format with its arguments. *)
Lemma returns_vprintf fd fmt : forall pct ap l, format fmt pct ap = Some l -> returns (Uprintf.vprintf fd fmt pct ap).
Proof.
  assert (Hputc : forall c, returns (Uprintf.putc fd c)) by (intros; apply returns_call; intros; apply returns_ret).
  induction fmt as [|c fmt IH]; intros pct ap l Hf; [apply returns_ret|].
  cbn [format Uprintf.vprintf] in *.
  assert (Hnext : forall p ap' (F : list Z -> list Z), option_map F (format fmt p ap') = Some l ->
    returns (Uprintf.vprintf fd fmt p ap')).
  { intros p ap' F E. destruct (format fmt p ap') as [l'|] eqn:E'; [|done]. by apply (IH p ap' l'). }
  destruct pct; cbn [negb] in *.
  2: { destruct (c =? 37); [by eapply IH|]. apply returns_bind; [done|]. intros _. by eapply Hnext. }
  destruct (c =? 100); [|destruct (c =? 108); [|destruct (c =? 120); [|destruct (c =? 112)]]].
  1-3: destruct ap as [|[v|] ap]; try done; apply returns_bind; [apply returns_putcs|]; intros _; by eapply Hnext.
  { destruct ap as [|[v|] ap]; try done. apply returns_bind; [|intros _; by eapply Hnext].
    unfold Uprintf.printptr. do 2 (apply returns_bind; [done|]; intros _). apply returns_putcs. }
  destruct (c =? 115); [|destruct (c =? 99); [|destruct (c =? 37)]].
  - destruct ap as [|[v|x] ap]; try done. apply returns_bind; [apply returns_putcs|]. intros _. by eapply Hnext.
  - destruct ap as [|[v|x] ap]; try done. apply returns_bind; [done|]. intros _. by eapply Hnext.
  - apply returns_bind; [done|]. intros _. by eapply Hnext.
  - do 2 (apply returns_bind; [done|]; intros _). by eapply Hnext.
Qed.

Lemma exits_panic {A} s : exits (@sh_panic A s).
Proof. apply exits_bind; [|intros; apply exits_exit]. by eapply returns_vprintf. Qed.

Lemma exits_fork1 {A} (f : Z -> prog A) : (forall pid, exits (f pid)) -> exits (ubind fork1 f).
Proof.
  intros Hf s. rewrite run_bind. unfold fork1. destruct (answer Z Fork s) as [pid s'] eqn:E.
  rewrite (run_call _ _ _ _ _ E). destruct (pid =? -1); [|apply Hf].
  destruct (exits_panic (A := Z) "fork" s') as (n & s'' & E'). rewrite E'. by exists n, s''.
Qed.

Lemma runcmd_exits c : exits (runcmd c).
Proof.
  induction c as [argv|c IH file mode fd|lc IHl rc IHr|lc IHl rc IHr|c IH]; cbn [runcmd].
  - destruct argv as [|a0 argv]; [apply exits_exit|]. apply exits_call. intros _.
    apply exits_bind; [by eapply returns_vprintf|intros; apply exits_exit].
  - apply exits_call. intros _. apply exits_call. intros r. destruct (r <? 0); [|by apply exits_now].
    apply exits_bind; [by eapply returns_vprintf|intros; apply exits_exit].
  - apply exits_call. intros (r & p0 & p1). destruct (r <? 0); [apply exits_panic|].
    apply exits_fork1. intros pid. apply exits_when; [by do 4 (apply exits_call; intros _)|].
    apply exits_fork1. intros pid2. apply exits_when; [by do 4 (apply exits_call; intros _)|].
    do 4 (apply exits_call; intros _). apply exits_exit.
  - apply exits_fork1. intros pid. apply exits_when; [done|]. apply exits_call. intros _. by apply exits_now.
  - apply exits_fork1. intros pid. apply exits_when; [done|]. apply exits_exit.
Qed.
End Exits.

(** ** The heap of the parser *)

Lemma fine_credit {A} es (p : parsed A) : forall s b, fine es s b p -> 0 <= b + 2 * Z.of_nat es.
Proof.
  induction p as [a s'| | |z p IH]; cbn; intros s b H; [lia|done|done|]. destruct H as [_ H%IH]. lia.
Qed.

Lemma units_small z : 0 < z <= sizeof_execcmd -> 0 < units z <= 12 /\ z <= 16 * (units z - 1).
Proof.
  intros [H1 H2]. change sizeof_execcmd with 168 in H2. unfold units, sizeof_Header, u32. rewrite Z.mod_small by dlia. dlia.
Qed.

(** Clearing a block leaves the free list alone. *)
Lemma single_memset base lo k u p z :
  base + 16 <= lo -> lo + 16 <= p -> 0 < z -> single base lo k u -> single base lo k (mk_ust (memset (u_mem u) p 0 z) (u_freep u)).
Proof.
  intros Hb Hp Hz [H1 H2 H3].
  assert (Hm : forall a, a < p -> mget (memset (u_mem u) p 0 z) a = mget (u_mem u) a).
  { intros a Ha. rewrite mget_memset, (proj2 (Z.leb_gt _ _)) by lia. done. }
  split; cbn [u_mem u_freep]; [done|rewrite <- H2; apply load64_ext|rewrite <- H3; apply load32_ext]; intros i Hi; apply Hm; lia.
Qed.

Section Build.
Variables (base lo : Z) (mfuel : nat).
Hypothesis Hbase : 0 < base /\ base + 16 <= lo.

(** A constructor with enough of the free block left. *)
Lemma construct_single z k u :
  0 < z <= sizeof_execcmd -> 12 < k -> lo + 16 * k < 2 ^ 32 -> single base lo k u ->
  exists u' k', construct base (S mfuel) z u = Ret u' /\ single base lo k' u' /\ k - 12 <= k' <= k.
Proof.
  intros Hz Hk Hlo Hs. destruct (units_small z Hz) as [Hu _].
  destruct (malloc_single base lo k mfuel z u) as (m' & E & Hs'); try lia; [done|]. unfold construct. rewrite E. cbn [ubind].
  rewrite (proj2 (Z.eqb_neq _ _)) by lia. eexists _, (k - units z). split; [reflexivity|]. split; [|lia].
  by apply (single_memset base lo _ (mk_ust m' base)); try lia.
Qed.

(** The rest of the parser needs nothing from the kernel. *)
Lemma build_single {A} es (p : parsed A) : forall s b k u,
  fine es s b p -> 12 * (b + 2 * Z.of_nat es) < k -> lo + 16 * k < 2 ^ 32 -> single base lo k u ->
  (exists a s', build base (S mfuel) p u = Ret (a, s')) \/ exists msg, build base (S mfuel) p u = sh_panic msg.
Proof.
  induction p as [a s'|msg| |z p IH]; intros s b k u Hf Hk Hlo Hs; cbn [build]; [eauto|eauto|done|].
  destruct Hf as [Hz Hf]. pose proof (fine_credit _ _ _ _ Hf).
  destruct (construct_single z k u) as (u' & k' & -> & Hs' & Hk'); [done|lia|done|done|]. cbn [ubind].
  apply (IH s (b - 1) k'); [done|lia|lia|done].
Qed.
End Build.

(** The child ends as the parser does, or exits after it. *)
Lemma run_line_run {S : Type} `{OS S} base mfuel buf u s :
  let es := length (until_nul buf) in
  match run (build base mfuel (parseline buf es (parse_fuel es) 0) u) s with
  | (Faulted, s') => run (run_line base mfuel buf u) s = (Faulted, s')
  | (OutOfFuel, _) => True
  | _ => exists n s', run (run_line base mfuel buf u) s = (Exited n, s')
  end.
Proof.
  cbn zeta. unfold run_line, parsecmd. rewrite !run_bind. destruct (run (build _ _ _ _) s) as [[[c n]|n| |] s1]; [|eauto|done|done].
  destruct (peek _ _ n []) as [b s2]. destruct (negb _); [|apply runcmd_exits].
  assert (E : exits (Uprintf.fprintf 2 (bytes_of "leftovers: %s" ++ nl) [Uprintf.Astr (Some (until_nul (drop s2 buf)))] ;;;
    @sh_panic (cmd span * list Z) "syntax")) by (apply exits_bind; [by eapply returns_vprintf|intros _; apply exits_panic]).
  destruct (E s1) as (k & s' & ->). eauto.
Qed.



(** ** Printing and parsing *)

Definition wordchar (c : Z) : bool := negb (c =? 0) && negb (in_set whitespace c) && negb (in_set symbols c).
(** A word ends before a blank or a symbol. *)
Definition plain (c : Z) : bool := negb (in_set whitespace c) && negb (in_set symbols c).
Definition word (w : list Z) : Prop := w <> [] /\ Forall (fun c => wordchar c = true) w.

(** The operator of a redirection. *)
Definition redir_op (mode fd : Z) : list Z :=
  if fd =? 0 then [60] else if mode =? Z.lor O_WRONLY O_CREATE then [62; 62] else [62].

Fixpoint print_cmd (c : cmd (list Z)) : list Z :=
  let block c := [40] ++ print_cmd c ++ [41] in
  match c with
  | EXEC argv => concat (map (fun w => w ++ [32]) argv)
  | REDIR c file mode fd => block c ++ redir_op mode fd ++ file
  | PIPE l r => block l ++ [124] ++ block r
  | LIST l r => block l ++ [59] ++ block r
  | BACK c => block c ++ [38]
  end.

(** The commands the syntax can express. *)
Fixpoint wf_cmd (c : cmd (list Z)) : Prop :=
  match c with
  | EXEC argv => Forall word argv /\ (length argv < MAXARGS)%nat
  | REDIR c file mode fd =>
      wf_cmd c /\ word file /\
      ((mode, fd) = (O_RDONLY, 0) \/ (mode, fd) = (Z.lor (Z.lor O_WRONLY O_CREATE) O_TRUNC, 1) \/
       (mode, fd) = (Z.lor O_WRONLY O_CREATE, 1))
  | PIPE l r | LIST l r => wf_cmd l /\ wf_cmd r
  | BACK c => wf_cmd c
  end.

(** The blocks of the nodes of a command, parts first: the order in which the parser
    constructs them. *)
Fixpoint nodes {W} (c : cmd W) : list Z :=
  match c with
  | EXEC _ => [sizeof_execcmd]
  | REDIR c _ _ _ => nodes c ++ [sizeof_redircmd]
  | PIPE l r => nodes l ++ nodes r ++ [sizeof_pipecmd]
  | LIST l r => nodes l ++ nodes r ++ [sizeof_listcmd]
  | BACK c => nodes c ++ [sizeof_backcmd]
  end.

Definition palloc {A} (l : list Z) (p : parsed A) : parsed A := foldr PAlloc p l.

Lemma palloc_bind {A B} l (p : parsed A) (f : A -> nat -> parsed B) : pbind (palloc l p) f = palloc l (pbind p f).
Proof. unfold palloc. induction l as [|z l IH]; cbn; [done|]. by rewrite IH. Qed.

Lemma palloc_app {A} l l' (p : parsed A) : palloc (l ++ l') p = palloc l (palloc l' p).
Proof. apply foldr_app. Qed.

Section Roundtrip.
Variable text junk : list Z.
Let buf : list Z := text ++ 0 :: junk.
Let es : nat := length text.

(** The rest of the line at [s]. *)
Definition at_ (s : nat) (x : list Z) : Prop := (s <= es)%nat /\ drop s text = x.

Lemma at_app s a x : at_ s (a ++ x) -> at_ (s + length a) x.
Proof.
  intros [Hs E]. split.
  - apply (f_equal length) in E. rewrite length_drop, length_app in E. unfold es in *. lia.
  - by rewrite <- drop_drop, E, drop_app_length.
Qed.

Lemma at_cons s c x : at_ s (c :: x) -> at_ (S s) x.
Proof. intros H. replace (S s) with (s + length [c])%nat by (cbn; lia). by apply at_app. Qed.

Lemma at_char s x : at_ s x -> char_at buf s = default 0 (head x).
Proof.
  intros [Hs E]. unfold char_at, buf. destruct x as [|c x].
  - assert (s = es) as -> by (apply (f_equal length) in E; rewrite length_drop in E; cbn in E; unfold es in *; lia).
    unfold es. by rewrite list_lookup_middle.
  - rewrite lookup_app_l.
    + rewrite <- (Nat.add_0_r s), <- lookup_drop, E. done.
    + apply (f_equal length) in E. rewrite length_drop in E. cbn in E. lia.
Qed.

Lemma at_len s x : at_ s x -> (s + length x = es)%nat.
Proof. intros [Hs E]. apply (f_equal length) in E. rewrite length_drop in E. unfold es in *. lia. Qed.

(** Where a run of characters of a class ends. *)
Definition stops (f : Z -> bool) (x : list Z) : Prop := match x with [] => True | c :: _ => f c = false end.

Lemma skip_run f w : forall n s x,
  at_ s (w ++ x) -> Forall (fun c => f c = true) w -> stops f x -> n = (es - s)%nat -> skip buf f n s = (s + length w)%nat.
Proof.
  induction w as [|c w IH]; intros n s x Hat Hw Hx ->.
  - cbn [length]. rewrite Nat.add_0_r. destruct x as [|c x]; cbn in Hat.
    + apply at_len in Hat. cbn in Hat. by replace (es - s)%nat with 0%nat by lia.
    + apply skip_none. by rewrite (at_char _ _ Hat).
  - pose proof (at_len _ _ Hat) as Hl. cbn in Hl. replace (es - s)%nat with (S (es - S s)) by lia. cbn [skip].
    inversion Hw; subst. rewrite (at_char _ _ Hat). cbn [app head default from_option id]. rewrite H1.
    rewrite (IH _ _ x); [cbn; lia|by apply (at_cons _ c)|done|done|done].
Qed.

Definition is_ws : Z -> bool := in_set whitespace.
Lemma skip_ws_here s x : at_ s x -> stops is_ws x -> skip_ws buf es s = s.
Proof. intros Hat Hx. unfold skip_ws. rewrite (skip_run _ [] _ _ x); cbn; auto. Qed.

Lemma skip_ws_blank s x : at_ s (32 :: x) -> stops is_ws x -> skip_ws buf es s = S s.
Proof.
  intros Hat Hx. unfold skip_ws. rewrite (skip_run _ [32] _ _ x); try done; [cbn; lia|]. by repeat constructor.
Qed.

Lemma peek_here s x toks : at_ s x -> stops is_ws x ->
  peek buf es s toks = (match x with [] => false | c :: _ => negb (c =? 0) && in_set toks c end, s).
Proof.
  intros Hat Hx. unfold peek. rewrite (skip_ws_here s x) by done. rewrite (at_char _ _ Hat). by destruct x.
Qed.

(** A token of one character other than [>]. *)
Lemma gettoken_sym s c x : at_ s (c :: x) -> stops is_ws x -> in_set [124; 40; 41; 59; 38; 60] c = true ->
  gettoken buf es s = (c, (s, S s), S s).
Proof.
  intros Hat Hx Hc. unfold gettoken. assert (is_ws c = false /\ c <> 0) as [Hw H0].
  { apply in_set_true in Hc. rewrite !elem_of_cons, elem_of_nil in Hc. by repeat destruct Hc as [->|Hc]. }
  rewrite (skip_ws_here s (c :: x)) by done. rewrite (at_char _ _ Hat). cbn [head default from_option id].
  destruct (Z.eqb_spec c 0); [done|]. rewrite Hc, (skip_ws_here (S s) x); [done|by apply (at_cons _ c)|done].
Qed.

Lemma wordchar_cases c : wordchar c = true -> c <> 0 /\ is_ws c = false /\ in_set symbols c = false.
Proof. unfold wordchar, is_ws. rewrite !andb_true_iff, !negb_true_iff, Z.eqb_neq. tauto. Qed.

(** A word, and the blank after it if there is one. *)
Lemma gettoken_word s w x : at_ s (w ++ x) -> word w -> stops plain x ->
  gettoken buf es s = (97, (s, (s + length w)%nat), skip_ws buf es (s + length w)).
Proof.
  intros Hat [Hne Hw] Hx. destruct w as [|c w]; [done|]. pose proof Hw as Hw'. inversion Hw' as [|? ? Hc _]; subst.
  destruct (wordchar_cases c Hc) as (H0 & H1 & H2). unfold gettoken. cbn [app] in Hat.
  rewrite (skip_ws_here s (c :: w ++ x)) by done. rewrite (at_char _ _ Hat). cbn [head default from_option id].
  destruct (Z.eqb_spec c 0); [done|].
  assert (Hs : in_set [124; 40; 41; 59; 38; 60] c = false /\ c <> 62).
  { apply in_set_false in H2. unfold symbols in H2. rewrite !not_elem_of_cons in H2.
    split; [apply in_set_false; rewrite !not_elem_of_cons; tauto|tauto]. }
  destruct Hs as [-> Hs]. destruct (Z.eqb_spec c 62); [done|].
  assert (skip_word buf es s = (s + length (c :: w))%nat) as ->; [|done].
  unfold skip_word. apply (skip_run plain (c :: w) _ _ x); [done| |done|done].
  eapply Forall_impl; [exact Hw|]. unfold plain. cbn. intros d (_ & H3 & H4)%wordchar_cases. unfold is_ws in H3. by rewrite H3, H4.
Qed.

(** A word with its string. *)
Definition tok (w : span) (str : list Z) : Prop :=
  word str /\ snd w = (fst w + length str)%nat /\ exists x, at_ (fst w) (str ++ x) /\ stops plain x.

Inductive rep : cmd span -> cmd (list Z) -> Prop :=
| rep_exec ws argv : Forall2 tok ws argv -> rep (EXEC ws) (EXEC argv)
| rep_redir c t w file mode fd : rep c t -> tok w file -> rep (REDIR c w mode fd) (REDIR t file mode fd)
| rep_pipe l r tl tr : rep l tl -> rep r tr -> rep (PIPE l r) (PIPE tl tr)
| rep_list l r tl tr : rep l tl -> rep r tr -> rep (LIST l r) (LIST tl tr)
| rep_back c t : rep c t -> rep (BACK c) (BACK t).

(** What follows a command inside a block or at the end of the line. *)
Definition closes (x : list Z) : Prop := match x with [] => True | c :: _ => c = 41 end.

Lemma closes_stops x : closes x -> stops is_ws x /\ stops plain x.
Proof. destruct x as [|c x]; cbn; [done|]. by intros ->. Qed.

Lemma parseredirs_none n acc s x : at_ s x -> stops is_ws x -> stops (in_set [60; 62]) x ->
  parseredirs buf es (S n) acc s = POk acc s.
Proof.
  intros Hat Hx Hr. cbn [parseredirs]. rewrite (peek_here s x) by done. destruct x as [|c x]; [done|].
  cbn in Hr. by rewrite Hr, andb_false_r.
Qed.

Lemma parseargs_words argv : forall fuel acc s x,
  at_ s (concat (map (fun w => w ++ [32]) argv) ++ x) -> closes x -> Forall word argv ->
  (length acc + length argv < MAXARGS)%nat -> (length argv < fuel)%nat ->
  exists ws, Forall2 tok ws argv /\
    parseargs buf es fuel acc [] s = POk (acc ++ ws, []) (s + length (concat (map (fun w => w ++ [32]) argv))).
Proof.
  induction argv as [|w argv IH]; intros fuel acc s x Hat Hx Hw Hl Hf; (destruct fuel as [|fuel]; [cbn in Hf; lia|]);
    cbn [parseargs map concat].
  - exists []. split; [constructor|]. cbn [map concat app length] in Hat |- *. rewrite app_nil_r, Nat.add_0_r.
    rewrite (peek_here s x) by (try done; by apply closes_stops). destruct x as [|c x]; [|by rewrite Hx].
    assert (gettoken buf es s = (0, (s, s), s)) as ->; [|done].
    unfold gettoken. rewrite (skip_ws_here s []) by done. rewrite (at_char _ _ Hat). cbn [head default from_option id Z.eqb].
    by rewrite (skip_ws_here s []).
  - inversion Hw as [|? ? Hww Hw']; subst. cbn [map concat] in Hat. rewrite <- !app_assoc in Hat.
    destruct w as [|c w]; [by destruct Hww|]. destruct Hww as [Hne Hcs]. pose proof Hcs as Hcs'. inversion Hcs' as [|? ? Hc _]; subst.
    destruct (wordchar_cases c Hc) as (H0 & H1 & H2).
    set (tail := concat (map (fun w => w ++ [32]) argv) ++ x) in *. cbn [app] in Hat.
    rewrite (peek_here s (c :: w ++ 32 :: tail)) by done.
    replace (in_set [124; 41; 38; 59] c) with false.
    2: { symmetry. apply in_set_false. apply in_set_false in H2. unfold symbols in H2. rewrite !not_elem_of_cons in *. tauto. }
    rewrite andb_false_r. rewrite (gettoken_word s (c :: w) (32 :: tail)) by done. cbn [Z.eqb negb Pos.eqb].
    replace (Nat.leb _ _) with false by (symmetry; apply Nat.leb_gt; rewrite length_app; cbn in Hl |- *; lia).
    pose proof Hat as Hat0. apply (at_app s (c :: w)) in Hat.
    assert (Htail : stops is_ws tail /\ stops (in_set [60; 62]) tail).
    { subst tail. destruct argv as [|w2 argv]; [cbn; split; [by apply closes_stops|]; destruct x; [done|]; by rewrite Hx|].
      inversion Hw' as [|? ? [Hn2 Hc2] _]; subst. destruct w2 as [|d w2]; [done|]. inversion Hc2 as [|? ? Hd _]; subst.
      destruct (wordchar_cases d Hd) as (_ & D1 & D2). cbn. split; [done|]. apply in_set_false. apply in_set_false in D2.
      unfold symbols in D2. rewrite !not_elem_of_cons in *. split; [tauto|]. split; [tauto|]. apply not_elem_of_nil. }
    destruct Htail as [T1 T2]. rewrite (skip_ws_blank _ tail) by done. apply at_cons in Hat.
    rewrite (parseredirs_none es [] _ tail) by done. cbn [pbind].
    destruct (IH fuel (acc ++ [(s, (s + length (c :: w))%nat)]) (S (s + length (c :: w))) x) as (ws & Hws & E).
    { exact Hat. } { done. } { done. } { rewrite length_app. cbn in Hl |- *. lia. } { cbn in Hf. lia. }
    exists ((s, (s + length (c :: w))%nat) :: ws). split.
    + constructor; [|done]. split; [by split|]. split; [done|]. exists (32 :: tail). split; [|done].
      exact Hat0.
    + etrans; [exact E|]. rewrite <- app_assoc. cbn [app]. f_equal. cbn [length]. rewrite !length_app. cbn [length]. lia.
Qed.

Lemma print_head t y : wf_cmd t -> stops is_ws y -> stops is_ws (print_cmd t ++ y).
Proof.
  destruct t as [[|w argv]| | | |]; try done. intros [Hw _] Hy. inversion Hw as [|? ? [Hne Hcs] _]; subst.
  destruct w as [|c w]; [done|]. inversion Hcs as [|? ? Hc _]; subst. cbn. by apply wordchar_cases.
Qed.

(** What the parser is to do with the printed form of [t]. *)
Definition parses (t : cmd (list Z)) : Prop :=
  forall fuel s x, at_ s (print_cmd t ++ x) -> closes x -> (4 * length (print_cmd t) + 4 <= fuel)%nat ->
  exists c, rep c t /\ parseline buf es fuel s = palloc (nodes t) (POk c (s + length (print_cmd t))).

Definition block (t : cmd (list Z)) : list Z := [40] ++ print_cmd t ++ [41].

Lemma parse_block t fuel s x :
  wf_cmd t -> parses t -> at_ s (block t ++ x) -> stops is_ws x -> (4 * length (print_cmd t) + 6 <= fuel)%nat ->
  exists c, rep c t /\ parseexec buf es fuel s =
    palloc (nodes t) (pbind (parseredirs buf es (S es) [] (s + length (block t))) (fun rs s => POk (wrap c rs) s)).
Proof.
  intros Hwf IH Hat Hx Hf. destruct fuel as [|[|fuel]]; [lia|lia|]. unfold block in Hat. rewrite <- !app_assoc in Hat. cbn [app] in Hat.
  rewrite parseexec_S, (peek_here s _ [40] Hat) by done. change (negb (40 =? 0) && in_set [40] 40) with true. cbn iota.
  rewrite parseblock_S, (peek_here s _ [40] Hat) by done. change (negb (40 =? 0) && in_set [40] 40) with true. cbn [negb].
  rewrite (gettoken_sym s 40 _ Hat) by (done || by apply print_head). apply at_cons in Hat.
  destruct (IH fuel (S s) (41 :: x) Hat) as (c & Hc & ->); [done|lia|]. exists c. split; [done|]. rewrite palloc_bind. cbn [pbind].
  apply at_app in Hat. rewrite (peek_here _ _ [41] Hat) by done. change (negb (41 =? 0) && in_set [41] 41) with true. cbn [negb].
  rewrite (gettoken_sym _ 41 _ Hat) by done. unfold block. rewrite !length_app. cbn [length].
  by replace (s + (1 + (length (print_cmd t) + 1)))%nat with (S (S s + length (print_cmd t))) by lia.
Qed.

(** A block that no redirection follows. *)
Lemma parse_plain_block t fuel s x :
  wf_cmd t -> parses t -> at_ s (block t ++ x) -> stops is_ws x -> stops (in_set [60; 62]) x ->
  (4 * length (print_cmd t) + 6 <= fuel)%nat ->
  exists c, rep c t /\ parseexec buf es fuel s = palloc (nodes t) (POk c (s + length (block t))).
Proof.
  intros Hwf IH Hat Hx Hr Hf. destruct (parse_block t fuel s x) as (c & Hc & E); try done. exists c. split; [done|].
  rewrite E, (parseredirs_none _ _ _ x); [done|by apply at_app|done|done].
Qed.

(** Around a pipeline: no [&] and no [;] follows. *)
Lemma parseline_closed fuel s l c s1 x :
  parsepipe buf es fuel s = palloc l (POk c s1) -> at_ s1 x -> closes x -> parseline buf es (S fuel) s = palloc l (POk c s1).
Proof.
  intros E Hat Hx. rewrite parseline_S, E, palloc_bind. cbn [pbind parsebacks]. destruct (closes_stops x Hx) as [H1 _].
  rewrite (peek_here s1 x) by done. assert (Hn : forall toks, in_set toks 41 = false ->
    match x with [] => false | c :: _ => negb (c =? 0) && in_set toks c end = false).
  { intros toks Ht. destruct x as [|d x]; [done|]. rewrite Hx, Ht. done. }
  rewrite Hn by done. cbn [pbind]. rewrite (peek_here s1 x) by done. by rewrite Hn.
Qed.

Lemma parsepipe_closed fuel s l c s1 x :
  parseexec buf es fuel s = palloc l (POk c s1) -> at_ s1 x -> stops is_ws x -> stops (in_set [124]) x ->
  parsepipe buf es (S fuel) s = palloc l (POk c s1).
Proof.
  intros E Hat Hx Hp. rewrite parsepipe_S, E, palloc_bind. cbn [pbind]. rewrite (peek_here s1 x) by done.
  destruct x as [|d x]; [done|]. cbn in Hp. by rewrite Hp, andb_false_r.
Qed.

Lemma closes_set x set : closes x -> in_set set 41 = false -> stops (in_set set) x.
Proof. destruct x as [|c x]; [done|]. by intros ->. Qed.

Lemma parses_exec argv : wf_cmd (EXEC argv) -> parses (EXEC argv).
Proof.
  intros [Hw Hl] fuel s x Hat Hx Hf. destruct fuel as [|[|[|fuel]]]; try lia. cbn [print_cmd] in *.
  destruct (closes_stops x Hx) as [Hx1 _]. pose proof (print_head (EXEC argv) x (conj Hw Hl) Hx1) as Hh. cbn [print_cmd] in Hh.
  set (body := concat (map (fun w => w ++ [32]) argv)) in *.
  assert (Hfst : forall set, in_set set 41 = false -> (forall c, c ∈ set -> wordchar c = false) -> stops (in_set set) (body ++ x)).
  { intros set H41 Hset. subst body. destruct argv as [|w argv]; [by apply closes_set|].
    inversion Hw as [|? ? [Hne Hcs] _]; subst. destruct w as [|c w]; [done|]. inversion Hcs as [|? ? Hc _]; subst. cbn.
    apply in_set_false. intros Hin%Hset. congruence. }
  assert (Hcases : forall c, c ∈ [60; 62] \/ c ∈ [40] -> wordchar c = false).
  { intros c. rewrite !elem_of_cons, elem_of_nil. intros Hc. by repeat destruct Hc as [Hc|Hc]; subst. }
  assert (Hlen : (length argv <= length body)%nat).
  { subst body. clear. induction argv as [|w argv IH]; cbn; [lia|]. rewrite !length_app. cbn. lia. }
  pose proof (at_len _ _ Hat) as Hes. rewrite length_app in Hes.
  destruct (parseargs_words argv (S es) [] s x Hat Hx Hw) as (ws & Hws & E); [cbn; lia|lia|]. fold body in E.
  exists (EXEC ws). split; [by constructor|]. apply at_app in Hat as Hat'.
  apply (parseline_closed _ _ _ _ _ x); [|done|done].
  apply (parsepipe_closed _ _ _ _ _ x); [|done|done|by apply closes_set].
  rewrite parseexec_S, (peek_here s _ _ Hat Hh).
  assert (match body ++ x with [] => false | c :: _ => negb (c =? 0) && in_set [40] c end = false) as ->.
  { pose proof (Hfst [40] eq_refl ltac:(auto)) as H4. destruct (body ++ x); [done|]. cbn in H4. by rewrite H4, andb_false_r. }
  rewrite (parseredirs_none _ _ _ _ Hat Hh) by (apply Hfst; [done|auto]). cbn [pbind]. by rewrite E.
Qed.

Lemma parses_pipe l r : wf_cmd (PIPE l r) -> parses l -> parses r -> parses (PIPE l r).
Proof.
  intros [Hwl Hwr] Hl Hr fuel s x Hat Hx Hf. cbn [print_cmd] in *. fold (block l) (block r) in *.
  rewrite !length_app in Hf |- *. cbn [length] in Hf |- *. destruct fuel as [|[|fuel]]; try lia. rewrite <- app_assoc in Hat.
  destruct (closes_stops x Hx) as [Hx1 _].
  destruct (parse_plain_block l fuel s ([124] ++ block r ++ x)) as (cl & Hcl & El); try done; [unfold block in Hf; rewrite !length_app in Hf; lia|].
  apply at_app in Hat. cbn [app] in Hat. apply at_cons in Hat as Hat2. apply at_app in Hat2 as Hat3.
  destruct fuel as [|fuel]; [unfold block in Hf; rewrite !length_app in Hf; cbn in Hf; lia|].
  destruct (parse_plain_block r fuel (S (s + length (block l))) x) as (cr & Hcr & Er); try done; [by apply closes_set|unfold block in Hf; rewrite !length_app in Hf; cbn in Hf; lia|].
  exists (PIPE cl cr). split; [by constructor|].
  replace (s + (length (block l) + (1 + length (block r))))%nat with (S (s + length (block l)) + length (block r))%nat by lia.
  apply (parseline_closed _ _ _ _ _ x); [|done|done]. rewrite parsepipe_S, El, palloc_bind. cbn [pbind].
  rewrite (peek_here _ _ [124] Hat) by done. change (negb (124 =? 0) && in_set [124] 124) with true. cbn iota.
  rewrite (gettoken_sym _ 124 _ Hat) by done. rewrite (parsepipe_closed _ _ _ _ _ x Er Hat3 Hx1) by (by apply closes_set).
  rewrite palloc_bind. cbn [nodes]. by rewrite !palloc_app.
Qed.

Lemma parses_list l r : wf_cmd (LIST l r) -> parses l -> parses r -> parses (LIST l r).
Proof.
  intros [Hwl Hwr] Hl Hr fuel s x Hat Hx Hf. cbn [print_cmd] in *. fold (block l) (block r) in *.
  assert (Hf2 : (4 * (length (print_cmd l) + length (print_cmd r)) + 20 <= fuel)%nat).
  { revert Hf. unfold block. rewrite !length_app. cbn [length]. lia. }
  rewrite !length_app. cbn [length]. destruct fuel as [|[|[|fuel]]]; try lia. rewrite <- app_assoc in Hat.
  destruct (closes_stops x Hx) as [Hx1 _].
  destruct (parse_plain_block l (S fuel) s ([59] ++ block r ++ x)) as (cl & Hcl & El); try done; [lia|].
  apply at_app in Hat. cbn [app] in Hat. apply at_cons in Hat as Hat2. apply at_app in Hat2 as Hat3.
  destruct (parse_plain_block r fuel (S (s + length (block l))) x) as (cr & Hcr & Er); try done; [by apply closes_set|lia|].
  exists (LIST cl cr). split; [by constructor|].
  replace (s + (length (block l) + (1 + length (block r))))%nat with (S (s + length (block l)) + length (block r))%nat by lia.
  rewrite parseline_S, (parsepipe_closed _ _ _ _ _ _ El Hat), palloc_bind by done. cbn [pbind parsebacks].
  rewrite (peek_here _ _ [38] Hat) by done. change (negb (59 =? 0) && in_set [38] 59) with false. cbn [pbind].
  rewrite (peek_here _ _ [59] Hat) by done. change (negb (59 =? 0) && in_set [59] 59) with true. cbn iota.
  rewrite (gettoken_sym _ 59 _ Hat) by done.
  rewrite (parseline_closed (S fuel) _ _ cr _ x (parsepipe_closed _ _ _ _ _ x Er Hat3 Hx1 (closes_set x [124] Hx eq_refl)) Hat3 Hx).
  rewrite palloc_bind. cbn [nodes]. by rewrite !palloc_app.
Qed.

Lemma parsebacks_one n c s x : at_ s (38 :: x) -> stops is_ws x -> stops (in_set [38]) x -> (2 <= n)%nat ->
  parsebacks buf es n c s = PAlloc sizeof_backcmd (POk (BACK c) (S s)).
Proof.
  intros Hat Hx Hb Hn. destruct n as [|[|n]]; [lia|lia|]. cbn [parsebacks]. rewrite (peek_here _ _ [38] Hat) by done.
  change (negb (38 =? 0) && in_set [38] 38) with true. cbn iota. rewrite (gettoken_sym _ 38 _ Hat) by done.
  apply at_cons in Hat. cbn [backcmd pbind]. rewrite (peek_here _ x) by done. destruct x as [|d x]; [done|]. cbn in Hb. by rewrite Hb, andb_false_r.
Qed.

Lemma parses_back t : wf_cmd (BACK t) -> parses t -> parses (BACK t).
Proof.
  intros Hw Ht fuel s x Hat Hx Hf. cbn [print_cmd] in *. fold (block t) in *.
  rewrite length_app. cbn [length]. assert (Hf2 : (4 * length (print_cmd t) + 12 <= fuel)%nat).
  { revert Hf. unfold block. rewrite !length_app. cbn [length]. lia. }
  destruct fuel as [|[|fuel]]; try lia. rewrite <- app_assoc in Hat. destruct (closes_stops x Hx) as [Hx1 _].
  destruct (parse_plain_block t fuel s ([38] ++ x)) as (c & Hc & E); try done; [lia|].
  exists (BACK c). split; [by constructor|]. apply at_app in Hat. apply at_cons in Hat as Hat2.
  rewrite parseline_S, (parsepipe_closed _ _ _ _ _ _ E Hat), palloc_bind by done. cbn [pbind nodes]. rewrite palloc_app. f_equal.
  pose proof (at_len _ _ Hat) as Hes. cbn in Hes. rewrite (parsebacks_one _ c _ x) by (done || by apply closes_set || lia).
  cbn [pbind]. rewrite (peek_here _ x) by done. replace (match x with [] => _ | _ => _ end) with false.
  - cbn. do 2 f_equal. lia.
  - destruct x as [|d x]; [done|]. by rewrite Hx.
Qed.

Lemma gettoken_gt s x : at_ s (62 :: x) -> stops is_ws x -> stops (in_set [62]) x -> gettoken buf es s = (62, (s, S s), S s).
Proof.
  intros Hat Hx Hn. unfold gettoken. rewrite (skip_ws_here s (62 :: x)) by done. rewrite (at_char _ _ Hat).
  apply at_cons in Hat as Hat2. cbn [head default from_option id]. change (62 =? 0) with false.
  change (in_set [124; 40; 41; 59; 38; 60] 62) with false. change (62 =? 62) with true. cbn iota.
  rewrite (at_char _ _ Hat2). replace (default 0 (head x) =? 62) with false; [by rewrite (skip_ws_here (S s) x)|].
  destruct x as [|c x]; [done|]. cbn in Hn |- *. apply in_set_false in Hn. rewrite not_elem_of_cons in Hn. lia.
Qed.

Lemma gettoken_gtgt s x : at_ s (62 :: 62 :: x) -> stops is_ws x -> gettoken buf es s = (43, (s, S (S s)), S (S s)).
Proof.
  intros Hat Hx. unfold gettoken. rewrite (skip_ws_here s (62 :: 62 :: x)) by done. rewrite (at_char _ _ Hat).
  apply at_cons in Hat as Hat2. apply at_cons in Hat2 as Hat3. cbn [head default from_option id]. change (62 =? 0) with false.
  change (in_set [124; 40; 41; 59; 38; 60] 62) with false. change (62 =? 62) with true. cbn iota.
  rewrite (at_char _ _ Hat2). change (default 0 (head (62 :: x)) =? 62) with true. cbn iota. by rewrite (skip_ws_here _ x).
Qed.

(** One redirection, after which nothing is redirected. *)
Lemma parseredirs_one n s mode fd file x :
  at_ s (redir_op mode fd ++ file ++ x) -> word file -> closes x -> (2 <= n)%nat ->
  ((mode, fd) = (O_RDONLY, 0) \/ (mode, fd) = (Z.lor (Z.lor O_WRONLY O_CREATE) O_TRUNC, 1) \/
   (mode, fd) = (Z.lor O_WRONLY O_CREATE, 1)) ->
  exists w, tok w file /\
    parseredirs buf es n [] s = PAlloc sizeof_redircmd (POk [(w, mode, fd)] (s + length (redir_op mode fd ++ file))).
Proof.
  intros Hat Hw Hx Hn Hm. destruct n as [|[|n]]; [lia|lia|]. destruct (closes_stops x Hx) as [Hx1 Hx2].
  assert (Hfile : forall y, stops is_ws (file ++ y) /\ stops (in_set [62]) (file ++ y)).
  { intros y. destruct Hw as [Hne Hcs]. destruct file as [|c file]; [done|]. inversion Hcs as [|? ? Hc _]; subst.
    destruct (wordchar_cases c Hc) as (_ & H1 & H2). split; [done|]. cbn. apply in_set_false. apply in_set_false in H2.
    unfold symbols in H2. rewrite !not_elem_of_cons in *. split; [tauto|apply not_elem_of_nil]. }
  destruct (Hfile x) as [F1 F2]. apply at_app in Hat as Hat2. apply at_app in Hat2 as Hat3.
  set (s1 := (s + length (redir_op mode fd))%nat) in *.
  exists (s1, (s1 + length file)%nat). split.
  { split; [done|]. split; [done|]. by exists x. }
  assert (Hg : exists t y, redir_op mode fd ++ file ++ x = t :: y /\ (t = 60 \/ t = 62)).
  { unfold redir_op. destruct (fd =? 0); [eauto|]. destruct (mode =? _); cbn; eauto. }
  assert (Ht : gettoken buf es s = (if fd =? 0 then 60 else if mode =? Z.lor O_WRONLY O_CREATE then 43 else 62, (s, s1), s1)).
  { unfold s1, redir_op in *. destruct (fd =? 0); [|destruct (mode =? _)]; cbn [length app] in *.
    - rewrite (gettoken_sym s 60 (file ++ x)) by done. by rewrite Nat.add_1_r.
    - rewrite (gettoken_gtgt s (file ++ x)) by done. by replace (s + 2)%nat with (S (S s)) by lia.
    - rewrite (gettoken_gt s (file ++ x)) by done. by rewrite Nat.add_1_r. }
  cbn [parseredirs]. destruct Hg as (t & y & Eg & Ht2). rewrite Eg in Hat.
  rewrite (peek_here _ _ _ Hat) by (by destruct Ht2; subst).
  replace (negb (t =? 0) && in_set [60; 62] t) with true by (by destruct Ht2; subst). cbn [negb].
  rewrite Ht, (gettoken_word s1 file x) by done. change (97 =? 97) with true. cbn [negb].
  rewrite (skip_ws_here _ x) by done.
  match goal with |- pbind ?p _ = _ => replace p with (redircmd [] (s1, (s1 + length file)%nat) mode fd (s1 + length file)) end.
  2: { destruct Hm as [[= -> ->]|[[= -> ->]|[= -> ->]]]; reflexivity. }
  cbn [redircmd pbind app]. rewrite (peek_here _ x) by done.
  replace (match x with [] => _ | _ => _ end) with false by (destruct x as [|d x]; [done|]; by rewrite Hx).
  cbn [negb]. unfold s1. by rewrite length_app, Nat.add_assoc.
Qed.

Lemma parses_redir t file mode fd : wf_cmd (REDIR t file mode fd) -> parses t -> parses (REDIR t file mode fd).
Proof.
  intros (Hw & Hfile & Hm) Ht fuel s x Hat Hx Hf. cbn [print_cmd] in *. fold (block t) in *.
  assert (Hf2 : (4 * length (print_cmd t) + 12 <= fuel)%nat).
  { revert Hf. unfold block. rewrite !length_app. cbn [length]. lia. }
  rewrite <- !app_assoc in Hat. destruct fuel as [|[|fuel]]; try lia. destruct (closes_stops x Hx) as [Hx1 _].
  destruct (parse_block t fuel s (redir_op mode fd ++ file ++ x)) as (c & Hc & E); try done.
  { unfold redir_op. by destruct (fd =? 0); [|destruct (mode =? _)]. } { lia. }
  pose proof (at_len _ _ Hat) as Hes. rewrite !length_app in Hes. apply at_app in Hat.
  destruct (parseredirs_one (S es) (s + length (block t)) mode fd file x) as (w & Hw2 & Er); try done.
  { unfold block in Hes. cbn in Hes. lia. }
  exists (REDIR c w mode fd). split; [by constructor|]. rewrite Er in E. cbn [pbind wrap fold_left] in E.
  change (PAlloc sizeof_redircmd ?p) with (palloc [sizeof_redircmd] p) in E. rewrite <- palloc_app in E.
  rewrite <- Nat.add_assoc, <- length_app in E. rewrite app_assoc in Hat. apply at_app in Hat.
  rewrite <- Nat.add_assoc, <- length_app in Hat.
  apply (parseline_closed _ _ _ _ _ x); [|done|done]. apply (parsepipe_closed _ _ _ _ _ x); [done|done|done|by apply closes_set].
Qed.

Lemma print_parses t : wf_cmd t -> parses t.
Proof.
  induction t as [argv|t IH file mode fd|l IHl r IHr|l IHl r IHr|t IH]; intros Hw.
  - by apply parses_exec.
  - apply parses_redir; [done|]. apply IH, Hw.
  - apply parses_pipe; [done|apply IHl, Hw|apply IHr, Hw].
  - apply parses_list; [done|apply IHl, Hw|apply IHr, Hw].
  - apply parses_back; [done|]. apply IH, Hw.
Qed.

(** Positions at which no word has a character. *)
Definition stop_pos (i : nat) : Prop := i = es \/ exists c, text !! i = Some c /\ plain c = false.

(** The line with nuls stored at some of these positions. *)
Definition nulled (b : list Z) : Prop :=
  length b = length buf /\ forall i, b !! i = buf !! i \/ (b !! i = Some 0 /\ stop_pos i).

Lemma tok_end w str : tok w str -> stop_pos (snd w) /\ (snd w < length buf)%nat.
Proof.
  intros (_ & -> & x & Hat & Hx). apply at_app in Hat. destruct Hat as [Hle Hat]. split.
  - destruct x as [|c x]; [left|right].
    + apply (f_equal length) in Hat. rewrite length_drop in Hat. cbn in Hat. unfold es in *. lia.
    + exists c. split; [|done]. by rewrite <- (Nat.add_0_r (_ + _)), <- lookup_drop, Hat.
  - unfold buf, es in *. rewrite length_app. cbn. lia.
Qed.

Lemma nulled_insert b i : nulled b -> stop_pos i -> (i < length buf)%nat -> nulled (<[i := 0]> b).
Proof.
  intros [Hl Hb] Hi Hlt. split; [by rewrite length_insert|]. intros j. destruct (decide (j = i)) as [->|Hne].
  - right. rewrite list_lookup_insert_eq by lia. done.
  - rewrite list_lookup_insert_ne by done. apply Hb.
Qed.

Lemma insert_keeps b i e : b !! e = Some 0 -> (<[i := 0]> b : list Z) !! e = Some 0.
Proof.
  intros He. destruct (decide (i = e)) as [->|]; [|by rewrite list_lookup_insert_ne].
  apply list_lookup_insert_eq. by eapply lookup_lt_Some.
Qed.

Fixpoint ends (c : cmd span) : list nat :=
  match c with
  | EXEC argv => map snd argv
  | REDIR c w _ _ => snd w :: ends c
  | PIPE l r | LIST l r => ends l ++ ends r
  | BACK c => ends c
  end.

Lemma nulterminate_keeps c : forall b e, b !! e = Some 0 -> nulterminate c b !! e = Some 0.
Proof.
  induction c as [argv|c IH w mode fd|l IHl r IHr|l IHl r IHr|c IH]; intros b e He; cbn [nulterminate]; auto using insert_keeps.
  revert b He. induction argv as [|w argv IH]; intros b He; cbn [fold_left]; [done|]. by apply IH, insert_keeps.
Qed.

Lemma nulterminate_spec c t : rep c t -> forall b, nulled b ->
  nulled (nulterminate c b) /\ Forall (fun e => nulterminate c b !! e = Some 0) (ends c).
Proof.
  induction 1 as [ws argv Hws|c t w file mode fd Hr IH Hw|l r tl tr Hl IHl Hr IHr|l r tl tr Hl IHl Hr IHr|c t Hr IH];
    intros b Hb; cbn [nulterminate ends].
  - revert b Hb. induction Hws as [|w str ws argv Hw Hws IH]; intros b Hb; cbn [fold_left map]; [by split|].
    destruct (tok_end _ _ Hw) as [He Hlt]. pose proof (nulled_insert _ _ Hb He Hlt) as Hb1.
    destruct (IH _ Hb1) as [I1 I2]. split; [done|]. constructor; [|done].
    change (nulterminate (EXEC ws) (<[snd w := 0]> b) !! snd w = Some 0). apply nulterminate_keeps, list_lookup_insert_eq.
    destruct Hb as [-> _]. done.
  - destruct (tok_end _ _ Hw) as [He Hlt]. destruct (IH b Hb) as [I1 I2]. split; [by apply nulled_insert|]. constructor.
    + apply list_lookup_insert_eq. destruct I1 as [-> _]. done.
    + eapply Forall_impl; [exact I2|]. cbn. intros e. apply insert_keeps.
  - destruct (IHl b Hb) as [I1 I2]. destruct (IHr _ I1) as [I3 I4]. split; [done|]. apply Forall_app. split; [|done].
    eapply Forall_impl; [exact I2|]. cbn. intros e. apply nulterminate_keeps.
  - destruct (IHl b Hb) as [I1 I2]. destruct (IHr _ I1) as [I3 I4]. split; [done|]. apply Forall_app. split; [|done].
    eapply Forall_impl; [exact I2|]. cbn. intros e. apply nulterminate_keeps.
  - by apply IH.
Qed.

Lemma until_nul_at str : forall (b : list Z) q,
  (forall i c, str !! i = Some c -> b !! (q + i)%nat = Some c) -> b !! (q + length str)%nat = Some 0 -> 0 ∉ str ->
  until_nul (drop q b) = str.
Proof.
  induction str as [|c str IH]; intros b q Hs He H0.
  - cbn in He. rewrite Nat.add_0_r in He. by rewrite (drop_S _ _ _ He).
  - assert (Hc : b !! q = Some c) by (rewrite <- (Nat.add_0_r q); by apply Hs).
    rewrite (drop_S _ _ _ Hc). cbn [until_nul]. apply not_elem_of_cons in H0 as [H0 H0'].
    destruct (Z.eqb_spec c 0); [congruence|]. f_equal. apply IH; [|by rewrite Nat.add_succ_l, <- Nat.add_succ_r|done].
    intros i d Hd. rewrite Nat.add_succ_l, <- Nat.add_succ_r. by apply Hs.
Qed.

Lemma word_at_tok b w str : nulled b -> tok w str -> b !! snd w = Some 0 -> word_at b w = str.
Proof.
  intros [Hl Hb] ([Hne Hcs] & Ee & x & Hat & Hx) He. unfold word_at. rewrite Ee in He.
  assert (Hstr : forall i c, str !! i = Some c -> wordchar c = true) by (intros i c Hi; by apply (Forall_lookup_1 _ _ _ _ Hcs Hi)).
  apply until_nul_at; [|done|].
  - intros i c Hi. pose proof (wordchar_cases c (Hstr i c Hi)) as (_ & H1 & H2).
    assert (Ht : text !! (fst w + i)%nat = Some c).
    { destruct Hat as [_ Hat]. rewrite <- lookup_drop, Hat. by apply lookup_app_l_Some. }
    destruct (Hb (fst w + i)%nat) as [E|[_ [E|(d & Hd & Hp)]]].
    + rewrite E. unfold buf. by apply lookup_app_l_Some.
    + apply lookup_lt_Some in Ht. unfold es in E. lia.
    + exfalso. rewrite Ht in Hd. injection Hd as <-. unfold plain in Hp. unfold is_ws in H1. by rewrite H1, H2 in Hp.
  - intros H0. apply list_elem_of_lookup in H0 as [i Hi]. by apply Hstr in Hi.
Qed.

Lemma rep_words c t b : rep c t -> nulled b -> Forall (fun e => b !! e = Some 0) (ends c) -> cmd_map (word_at b) c = t.
Proof.
  intros Hr Hb. induction Hr as [ws argv Hws|c t w file mode fd Hr IH Hw|l r tl tr Hl IHl Hr IHr|l r tl tr Hl IHl Hr IHr|c t Hr IH];
    cbn [ends cmd_map]; intros He.
  - f_equal. induction Hws as [|w str ws argv Hw Hws IH]; [done|]. cbn [map] in *. inversion He; subst.
    f_equal; [by apply word_at_tok|by apply IH].
  - inversion He; subst. f_equal; [by apply IH|by apply word_at_tok].
  - apply Forall_app in He as [He1 He2]. f_equal; auto.
  - apply Forall_app in He as [He1 He2]. f_equal; auto.
  - f_equal; auto.
Qed.
End Roundtrip.

Lemma print_nonul t : wf_cmd t -> 0 ∉ print_cmd t.
Proof.
  assert (Hword : forall w, word w -> 0 ∉ w).
  { intros w [_ Hw] H0. apply list_elem_of_lookup in H0 as [i Hi]. by apply (Forall_lookup_1 _ _ _ _ Hw) in Hi. }
  induction t as [argv|t IH file mode fd|l IHl r IHr|l IHl r IHr|t IH]; cbn [wf_cmd print_cmd].
  - intros [Hw _]. induction Hw as [|w argv Hw _ IH]; cbn; [apply not_elem_of_nil|].
    rewrite !elem_of_app, elem_of_cons, elem_of_nil. apply Hword in Hw. intros [[?|[?|?]]|?]; (done || lia).
  - intros (Ht & Hf & _). apply IH in Ht. apply Hword in Hf. rewrite !elem_of_app, !elem_of_cons, elem_of_nil.
    unfold redir_op. destruct (fd =? 0); [|destruct (mode =? _)]; rewrite ?elem_of_cons, ?elem_of_nil; intuition lia.
  - intros [Hl Hr]. apply IHl in Hl. apply IHr in Hr. rewrite !elem_of_app, !elem_of_cons, elem_of_nil. intuition lia.
  - intros [Hl Hr]. apply IHl in Hl. apply IHr in Hr. rewrite !elem_of_app, !elem_of_cons, elem_of_nil. intuition lia.
  - intros Ht. apply IH in Ht. rewrite !elem_of_app, !elem_of_cons, elem_of_nil. intuition lia.
Qed.

(** The blocks of a list of nodes. *)
Fixpoint construct_all (base : Z) (mfuel : nat) (sizes : list Z) (u : ust) : prog ust :=
  match sizes with
  | [] => Ret u
  | z :: sizes => u <- construct base mfuel z u ;; construct_all base mfuel sizes u
  end.

Lemma run_palloc {S : Type} `{OS S} {A} base mfuel l (p : parsed A) : forall u s,
  run (build base mfuel (palloc l p) u) s = run (u' <- construct_all base mfuel l u ;; build base mfuel p u') s.
Proof.
  induction l as [|z l IH]; intros u s; [done|]. cbn [palloc foldr build construct_all]. rewrite !run_bind.
  destruct (run (construct base mfuel z u) s) as [[u'| | |] s']; try done. by rewrite <- run_bind, <- IH.
Qed.

(** C32. The parser inverts printing: the line that spells a command out, with a block of
    parentheses around every part, is parsed to that command, words, redirections,
    pipes, lists and background marks included, and after the nuls are stored in the
    line each word reads as it was written.  All it does besides is to construct the nodes of
    that command, one block of the right size for each. *)
Theorem parsecmd_print {S : Type} `{OS S} (t : cmd (list Z)) (junk : list Z) (base : Z) (mfuel : nat) (u : ust) :
  wf_cmd t ->
  exists c buf, cmd_map (word_at buf) c = t /\ forall s,
    run (parsecmd base mfuel (print_cmd t ++ 0 :: junk) u) s = run (construct_all base mfuel (nodes t) u ;;; Ret (c, buf)) s.
Proof.
  intros Hw. unfold parsecmd. rewrite until_nul_app by (by apply print_nonul). set (text := print_cmd t).
  assert (Hat : at_ text 0 (print_cmd t ++ [])) by (split; [lia|by rewrite app_nil_r]).
  destruct (print_parses text junk t Hw (parse_fuel (length text)) 0%nat [] Hat) as (c & Hc & ->); [done|unfold parse_fuel; fold text; lia|].
  assert (Hb : nulled text junk (text ++ 0 :: junk)) by (split; [done|by left]).
  destruct (nulterminate_spec text junk c t Hc _ Hb) as [N1 N2].
  exists c, (nulterminate c (text ++ 0 :: junk)). split; [by apply (rep_words text junk)|]. intros s.
  rewrite run_bind, run_palloc, !run_bind. destruct (run (construct_all _ _ _ _) s) as [[u'| | |] s']; try done. cbn [build run].
  apply at_app in Hat. rewrite (peek_here text junk _ [] [] Hat) by done. fold text. by rewrite Nat.add_0_l, Nat.eqb_refl.
Qed.

(** The parser in a fresh heap. *)
Lemma parsecmd_print_witness :
  let t := PIPE (EXEC [bytes_of "echo"; bytes_of "hi"]) (REDIR (EXEC [bytes_of "wc"]) (bytes_of "out") 0x601 1) in
  exists c buf, cmd_map (word_at buf) c = t /\
    run (parsecmd 1024 2 (print_cmd t ++ [0; 0]) (mk_ust ∅ 0)) 4096 =
      run (construct_all 1024 2 [168; 168; 40; 24] (mk_ust ∅ 0) ;;; Ret (c, buf)) 4096.
Proof.
  intros t. destruct (parsecmd_print (S := Z) t [0] 1024 2 (mk_ust ∅ 0)) as (c & buf & H1 & H2); [|exists c, buf; split; [exact H1|exact (H2 4096)]].
  assert (Hw : forall s, forallb wordchar (bytes_of s) && negb (bool_decide (bytes_of s = [])) = true -> word (bytes_of s)).
  { intros s [H1 H2]%andb_true_iff. apply negb_true_iff, bool_decide_eq_false in H2. split; [done|].
    apply Forall_forall. intros x Hx. rewrite forallb_forall in H1. apply H1. by apply list_elem_of_In. }
  subst t. cbn [wf_cmd]. split; [split|split; [split|split; [by apply Hw|by right; left]]].
  - constructor; [by apply Hw|]. constructor; [by apply Hw|constructor].
  - apply Nat.ltb_lt. reflexivity.
  - constructor; [by apply Hw|constructor].
  - apply Nat.ltb_lt. reflexivity.
Defined.
