(* ===== verification/Mkfs.v ===== *)
(** * mkfs/mkfs.c: building the file system image

    The image is a map from sectors to blocks; [die] and a failed [assert] end the
    program.  What the host gives mkfs, the names on its command line and what its
    reads of the files return, is the argument of [main]. *)
From stdpp Require Import gmap list strings.
From S2P Require Import Prelude Kstring Abi Machine.

Definition NINODES : Z := 200.
Definition nbitmap : Z := FSSIZE / (BSIZE * 8) + 1.
Definition ninodeblocks : Z := NINODES / IPB + 1.
Definition nlog : Z := LOGSIZE.
Definition nmeta : Z := 2 + nlog + ninodeblocks + nbitmap.
Definition nblocks : Z := FSSIZE - nmeta.

(** The bytes of [x] in little-endian order, as the host, which is little-endian,
    reads them. *)
Definition xshort (x : Z) : Z := le_val [u8 x; u8 (Z.shiftr x 8)].
Definition xint (x : Z) : Z := le_val [u8 x; u8 (Z.shiftr x 8); u8 (Z.shiftr x 16); u8 (Z.shiftr x 24)].

Record image := mk_image {
  im_disk : gmap Z (list Z);
  im_freeinode : Z;
  im_freeblock : Z
}.
Definition set_im_disk v r := mk_image v (im_freeinode r) (im_freeblock r).
Definition set_im_freeinode v r := mk_image (im_disk r) v (im_freeblock r).
Definition set_im_freeblock v r := mk_image (im_disk r) (im_freeinode r) v.

Definition sb : superblock :=
  mk_superblock FSMAGIC (xint FSSIZE) (xint nblocks) (xint NINODES) (xint nlog) (xint 2) (xint (2 + nlog)) (xint (2 + nlog + ninodeblocks)).

Definition zeroes : list Z := replicate (Z.to_nat BSIZE) 0.

Definition wsect (sec : Z) (data : list Z) (im : image) : image := set_im_disk (<[sec := data]> (im_disk im)) im.
Definition rsect (sec : Z) (im : image) : list Z := default zeroes (im_disk im !! sec).

Definition dinode_off (inum : Z) : nat := Z.to_nat (DINODE_SIZE * (inum mod IPB)).

Definition winode (inum : Z) (ip : dinode) (im : image) : image :=
  let bn := IBLOCK inum sb in
  wsect bn (splice (rsect bn im) (dinode_off inum) (encode_dinode ip)) im.

Definition rinode (inum : Z) (im : image) : dinode := decode_dinode (rsect (IBLOCK inum sb) im) (dinode_off inum).

Definition ialloc (type : Z) (im : image) : Z * image :=
  let inum := im_freeinode im in
  let im := set_im_freeinode (u32 (inum + 1)) im in
  (inum, winode inum (mk_dinode (i16 (xshort type)) 0 0 (xshort 1) (xint 0) (replicate 13 0)) im).

(** [buf[i/8] = buf[i/8] | (0x1 << (i%8))] for [i < used]. *)
Fixpoint mark_used (n : nat) (i : Z) (buf : list Z) : list Z :=
  match n with
  | O => buf
  | S n => mark_used n (i + 1) (zset buf (i / 8) (u8 (Z.lor (zget buf (i / 8)) (Z.shiftl 1 (i mod 8)))))
  end.

(** [None] is a failed [assert]. *)
Definition balloc (used : Z) (im : image) : option image :=
  if used <? BSIZE * 8 then Some (wsect (sb_bmapstart sb) (mark_used (Z.to_nat used) 0 zeroes) im) else None.

Definition alloc_block (im : image) : Z * image :=
  (im_freeblock im, set_im_freeblock (u32 (im_freeblock im + 1)) im).

(** The block of the file with number [fbn]: found, or allocated. *)
Definition block_for (fbn : Z) (din : dinode) (im : image) : Z * dinode * image :=
  let set_addr i v := mk_dinode (di_type din) (di_major din) (di_minor din) (di_nlink din) (di_size din) (zset (di_addrs din) i v) in
  if fbn <? NDIRECT then
    if xint (zget (di_addrs din) fbn) =? 0 then
      let '(b, im) := alloc_block im in
      (xint (xint b), set_addr fbn (xint b), im)
    else (xint (zget (di_addrs din) fbn), din, im)
  else
    let '(din, im) :=
      if xint (zget (di_addrs din) NDIRECT) =? 0 then
        let '(b, im) := alloc_block im in (set_addr NDIRECT (xint b), im)
      else (din, im) in
    let ind := xint (zget (di_addrs din) NDIRECT) in
    let off := Z.to_nat (4 * (fbn - NDIRECT)) in
    let indirect := rsect ind im in
    if get_u32 indirect off =? 0 then
      let '(b, im) := alloc_block im in
      let indirect := splice indirect off (le_bytes 4 (xint b)) in
      (xint (get_u32 indirect off), din, wsect ind indirect im)
    else (xint (get_u32 indirect off), din, im).

(** The loop of [iappend]; at least one byte is consumed in each iteration. *)
Fixpoint iappend_loop (fuel : nat) (p : list Z) (off : Z) (din : dinode) (im : image) : option (Z * dinode * image) :=
  if Z.of_nat (length p) <=? 0 then Some (off, din, im) else
  match fuel with
  | O => None
  | S fuel =>
      let fbn := off / BSIZE in
      if negb (fbn <? MAXFILE) then None else
      let '(x, din, im) := block_for fbn din im in
      let n1 := Z.min (Z.of_nat (length p)) ((fbn + 1) * BSIZE - off) in
      let buf := splice (rsect x im) (Z.to_nat (off - fbn * BSIZE)) (take (Z.to_nat n1) p) in
      iappend_loop fuel (drop (Z.to_nat n1) p) (off + n1) din (wsect x buf im)
  end.

Definition iappend (inum : Z) (p : list Z) (im : image) : option image :=
  let din := rinode inum im in
  match iappend_loop (length p) p (xint (di_size din)) din im with
  | None => None
  | Some (off, din, im) =>
      Some (winode inum (mk_dinode (di_type din) (di_major din) (di_minor din) (di_nlink din) (xint off) (di_addrs din)) im)
  end.

(** A directory entry; [name] is padded with zeros, or cut, to [DIRSIZ]. *)
Definition dirent_bytes (inum : Z) (name : list Z) : list Z :=
  le_bytes 2 (xshort inum) ++ take 14 (name ++ replicate 14 0).

(** The name in the image: without [user/] and without a leading [_]. *)
Definition shortname (arg : list Z) : list Z :=
  let s := if bool_decide (take 5 arg = bytes_of "user/") then drop 5 arg else arg in
  match s with
  | c :: s' => if c =? 95 then s' else s
  | [] => s
  end.

Definition has_slash (arg : list Z) : bool :=
  bool_decide (47 ∈ (if bool_decide (take 5 arg = bytes_of "user/") then drop 5 arg else arg)).

Fixpoint append_chunks (inum : Z) (chunks : list (list Z)) (im : image) : option image :=
  match chunks with
  | [] => Some im
  | c :: chunks => match iappend inum c im with Some im => append_chunks inum chunks im | None => None end
  end.

(** The files: the argument and what the reads of the host file return. *)
Fixpoint add_files (rootino : Z) (files : list (list Z * list (list Z))) (im : image) : option image :=
  match files with
  | [] => Some im
  | (arg, chunks) :: files =>
      if has_slash arg then None else
      let '(inum, im) := ialloc T_FILE im in
      match iappend rootino (dirent_bytes inum (shortname arg)) im with
      | None => None
      | Some im => match append_chunks inum chunks im with Some im => add_files rootino files im | None => None end
      end
  end.

Definition superblock_bytes : list Z :=
  concat (map (le_bytes 4) [sb_magic sb; sb_size sb; sb_nblocks sb; sb_ninodes sb; sb_nlog sb; sb_logstart sb; sb_inodestart sb; sb_bmapstart sb]).

Fixpoint zero_disk (n : nat) (i : Z) (im : image) : image :=
  match n with
  | O => im
  | S n => zero_disk n (i + 1) (wsect i zeroes im)
  end.

(** [main], from the opened image on. *)
Definition mkfs (files : list (list Z * list (list Z))) : option image :=
  let im := zero_disk (Z.to_nat FSSIZE) 0 (mk_image ∅ 1 nmeta) in
  let im := wsect 1 (splice zeroes 0 superblock_bytes) im in
  let '(rootino, im) := ialloc T_DIR im in
  if negb (rootino =? ROOTINO) then None else
  match iappend rootino (dirent_bytes rootino (bytes_of ".")) im with
  | None => None
  | Some im =>
      match iappend rootino (dirent_bytes rootino (bytes_of "..")) im with
      | None => None
      | Some im =>
          match add_files rootino files im with
          | None => None
          | Some im =>
              let din := rinode rootino im in
              let off := u32 ((xint (di_size din) / BSIZE + 1) * BSIZE) in
              let im := winode rootino (mk_dinode (di_type din) (di_major din) (di_minor din) (di_nlink din) (xint off) (di_addrs din)) im in
              balloc (im_freeblock im) im
          end
      end
  end.
