(* ===== verification/FsBitmap.v ===== *)
(** * The free map: balloc and bfree of kernel/fs.c with the map mkfs writes

    A block of the free map as a set of bits.  The search of [balloc] finds the first
    free block, allocating and freeing change one bit, and the map that mkfs writes
    marks exactly the blocks it has used. *)
From stdpp Require Import gmap list strings.
From S2P Require Import Prelude Kstring Abi Machine Spinlock Kalloc Vm Proc Sleeplock Virtio Bio Log Fs Mkfs.

(** The block with bit [bi] is in use. *)
Definition used_bit (data : list Z) (bi : Z) : bool := Z.testbit (zget data (bi / 8)) (bi mod 8).

Lemma testbit_one k i : 0 <= k -> 0 <= i -> Z.testbit (Z.shiftl 1 k) i = (i =? k).
Proof.
  intros Hk Hi. rewrite Z.shiftl_spec by done. destruct (Z.eqb_spec i k) as [->|]; [by rewrite Z.sub_diag|].
  destruct (Z.lt_ge_cases (i - k) 0); [by apply Z.testbit_neg_r|]. apply Z.bits_above_log2; cbn; lia.
Qed.

Lemma land_bit x k : 0 <= k -> (Z.land x (Z.shiftl 1 k) =? 0) = negb (Z.testbit x k).
Proof.
  intros Hk. assert (E : Z.land x (Z.shiftl 1 k) = if Z.testbit x k then Z.shiftl 1 k else 0).
  { apply Z.bits_inj'. intros i Hi. rewrite Z.land_spec, testbit_one by done.
    destruct (Z.eqb_spec i k) as [->|Hne].
    - destruct (Z.testbit x k); [by rewrite testbit_one, Z.eqb_refl|by rewrite Z.bits_0].
    - rewrite andb_false_r. destruct (Z.testbit x k); [|by rewrite Z.bits_0]. rewrite testbit_one by done. by destruct (Z.eqb_spec i k). }
  rewrite E. destruct (Z.testbit x k); [|done]. rewrite Z.shiftl_1_l. apply Z.eqb_neq. pose proof (Z.pow_pos_nonneg 2 k). lia.
Qed.

Lemma used_bit_land data bi : (Z.land (zget data (bi / 8)) (Z.shiftl 1 (bi mod 8)) =? 0) = negb (used_bit data bi).
Proof. apply land_bit. apply Z.mod_pos_bound. lia. Qed.

(** Where two bits are: in the same byte they differ in the position. *)
Lemma bit_place b c : 0 <= b -> 0 <= c -> b / 8 = c / 8 -> (b =? c) = (b mod 8 =? c mod 8).
Proof. intros Hb Hc E. destruct (Z.eqb_spec b c), (Z.eqb_spec (b mod 8) (c mod 8)); dlia. Qed.

Lemma used_bit_zset data b v c :
  0 <= b < 8 * Z.of_nat (length data) -> 0 <= c ->
  used_bit (zset data (b / 8) v) c = if c / 8 =? b / 8 then Z.testbit v (c mod 8) else used_bit data c.
Proof.
  intros Hb Hc. unfold used_bit. destruct (Z.eqb_spec (c / 8) (b / 8)) as [E|E].
  - rewrite E, zget_zset_eq; [done|]. split; [apply Z.div_pos; lia|]. apply Z.div_lt_upper_bound; lia.
  - rewrite zget_zset_ne; [done| | |congruence]; apply Z.div_pos; lia.
Qed.

Lemma used_set_used data b c :
  0 <= b < 8 * Z.of_nat (length data) -> 0 <= c -> used_bit (set_used data b) c = (c =? b) || used_bit data c.
Proof.
  intros Hb Hc. unfold set_used. rewrite used_bit_zset by done.
  assert (Hm : forall x, 0 <= x mod 8) by (intros; apply Z.mod_pos_bound; lia).
  destruct (Z.eqb_spec (c / 8) (b / 8)) as [E|E].
  - rewrite Z.lor_spec, testbit_one, (bit_place c b) by (done || lia). rewrite orb_comm. f_equal. unfold used_bit. by rewrite E.
  - destruct (Z.eqb_spec c b) as [->|]; [done|]. done.
Qed.

Lemma used_set_free data b c :
  0 <= b < 8 * Z.of_nat (length data) -> 0 <= c -> used_bit (set_free data b) c = negb (c =? b) && used_bit data c.
Proof.
  intros Hb Hc. unfold set_free. rewrite used_bit_zset by done.
  assert (Hm : forall x, 0 <= x mod 8 < 8) by (intros; apply Z.mod_pos_bound; lia).
  destruct (Z.eqb_spec (c / 8) (b / 8)) as [E|E].
  - rewrite Z.land_spec. unfold u8. rewrite Z.mod_pow2_bits_low by (specialize (Hm c); lia).
    rewrite Z.lnot_spec, testbit_one, (bit_place c b) by (done || lia || apply Hm). rewrite andb_comm. f_equal. unfold used_bit. by rewrite E.
  - destruct (Z.eqb_spec c b) as [->|]; [done|]. done.
Qed.

Lemma find_clear_spec data b size n : forall bi, 0 <= bi ->
  match find_clear n data b bi size with
  | Some c => bi <= c < bi + Z.of_nat n /\ b + c < size /\ used_bit data c = false /\ (forall d, bi <= d < c -> used_bit data d = true)
  | None => forall d, bi <= d < bi + Z.of_nat n -> b + d < size -> used_bit data d = true
  end.
Proof.
  induction n as [|n IH]; intros bi Hbi; cbn [find_clear]; [lia|].
  destruct (Z.ltb_spec (b + bi) size); cbn [negb]; [|lia]. rewrite used_bit_land.
  destruct (used_bit data bi) eqn:E; cbn [negb]; [|repeat split; (done || lia)].
  specialize (IH (bi + 1) ltac:(lia)). destruct (find_clear n data b (bi + 1) size) as [c|].
  - destruct IH as (H1 & H2 & H3 & H4). split; [lia|]. split; [done|]. split; [done|].
    intros d Hd. destruct (Z.eq_dec d bi) as [->|]; [done|]. apply H4. lia.
  - intros d Hd Hs. destruct (Z.eq_dec d bi) as [->|]; [done|]. apply IH; lia.
Qed.

(** Allocation and freeing of a block, on the free map: the search of [balloc] returns
    the lowest free block below [size], if there is one and only then; marking it changes
    no other bit; and freeing it afterwards gives the map that was there before. *)
Theorem bitmap_alloc_free (data : list Z) (b size : Z) :
  Z.of_nat (length data) = BSIZE ->
  match find_clear (Z.to_nat BPB) data b 0 size with
  | Some bi =>
      0 <= bi < BPB /\ b + bi < size /\ used_bit data bi = false /\
      (forall d, 0 <= d < bi -> used_bit data d = true) /\
      (forall d, 0 <= d -> used_bit (set_used data bi) d = (d =? bi) || used_bit data d) /\
      (forall d, 0 <= d -> used_bit (set_free (set_used data bi) bi) d = used_bit data d)
  | None => forall d, 0 <= d < BPB -> b + d < size -> used_bit data d = true
  end.
Proof.
  intros Hl. pose proof (find_clear_spec data b size (Z.to_nat BPB) 0 ltac:(lia)) as H.
  rewrite Z2Nat.id, Z.add_0_l in H by done. destruct (find_clear _ _ _ _ _) as [bi|]; [|done].
  destruct H as (H1 & H2 & H3 & H4). assert (Hbi : 0 <= bi < 8 * Z.of_nat (length data)) by (rewrite Hl; unfold BPB in H1; lia).
  split; [done|]. split; [done|]. split; [done|]. split; [done|]. split; intros d Hd; [by apply used_set_used|].
  rewrite used_set_free by (unfold set_used; rewrite ?length_zset; done). rewrite used_set_used by done.
  destruct (Z.eqb_spec d bi) as [->|]; [by rewrite H3|done].
Qed.

Lemma bitmap_alloc_free_witness :
  find_clear (Z.to_nat BPB) (255 :: 1 :: replicate 1022 0) 0 0 1000 = Some 9 /\
  used_bit (set_free (set_used (255 :: 1 :: replicate 1022 0) 9) 9) 10 = false.
Proof.
  assert (E : find_clear (Z.to_nat BPB) (255 :: 1 :: replicate 1022 0) 0 0 1000 = Some 9) by (by vm_compute).
  split; [exact E|]. pose proof (bitmap_alloc_free (255 :: 1 :: replicate 1022 0) 0 1000 ltac:(reflexivity)) as H.
  rewrite E in H. destruct H as (_ & _ & _ & _ & _ & H). rewrite H by lia. reflexivity.
Defined.

(** ** The map of mkfs *)

Lemma mark_used_spec n : forall i data c,
  0 <= i -> i + Z.of_nat n <= 8 * Z.of_nat (length data) -> Forall is_byte data -> 0 <= c ->
  used_bit (mark_used n i data) c = (i <=? c) && (c <? i + Z.of_nat n) || used_bit data c.
Proof.
  induction n as [|n IH]; intros i data c Hi Hn Hb Hc; cbn [mark_used]; [by zcase; try lia|].
  assert (Hx : is_byte (zget data (i / 8))).
  { unfold zget. destruct (data !! _) as [x|] eqn:E; [|by cbn]. by apply (Forall_lookup_1 _ _ _ _ Hb E). }
  assert (Hm : 0 <= i mod 8 < 8) by (apply Z.mod_pos_bound; lia).
  assert (Hlor : u8 (Z.lor (zget data (i / 8)) (Z.shiftl 1 (i mod 8))) = Z.lor (zget data (i / 8)) (Z.shiftl 1 (i mod 8))).
  { apply u8_id. unfold is_byte in *. split; [apply Z.lor_nonneg; rewrite Z.shiftl_nonneg; lia|].
    change 256 with (2 ^ 8). apply Z.log2_lt_cancel. rewrite Z.log2_pow2, Z.log2_lor by (rewrite ?Z.shiftl_nonneg; lia).
    apply Z.max_lub_lt; [|rewrite Z.shiftl_1_l, Z.log2_pow2; lia].
    destruct (Z.eq_dec (zget data (i / 8)) 0) as [->|]; [done|]. apply Z.log2_lt_pow2; lia. }
  rewrite Hlor. fold (set_used data i). rewrite IH; [|lia|unfold set_used; rewrite length_zset; lia| |done].
  - rewrite used_set_used by lia. zcase; try lia; try done; by rewrite ?orb_true_r.
  - unfold set_used, zset. apply Forall_insert; [done|]. rewrite <- Hlor. apply u8_is_byte.
Qed.

(** C31. mkfs and the kernel agree on the free map: after mkfs marked the first [used]
    blocks, [balloc] finds them, and only them, in use, so that the first block the
    kernel allocates is block [used]. *)
Theorem mkfs_bitmap_agrees (used : Z) (im : image) :
  0 <= used < FSSIZE ->
  exists im', Mkfs.balloc used im = Some im' /\
    let data := rsect (BBLOCK 0 sb) im' in
    (forall b, 0 <= b < FSSIZE -> BBLOCK b sb = BBLOCK 0 sb /\ used_bit data b = (b <? used)) /\
    find_clear (Z.to_nat BPB) data 0 0 (sb_size sb) = Some used.
Proof.
  intros Hu. unfold Mkfs.balloc. destruct (Z.ltb_spec used (BSIZE * 8)); [|unfold FSSIZE, BSIZE in *; lia].
  eexists. split; [done|]. assert (Eb : rsect (BBLOCK 0 sb) (wsect (sb_bmapstart sb) (mark_used (Z.to_nat used) 0 zeroes) im)
    = mark_used (Z.to_nat used) 0 zeroes).
  { change (BBLOCK 0 sb) with (sb_bmapstart sb). unfold rsect, wsect, set_im_disk. cbn [im_disk]. by rewrite lookup_insert_eq. }
  cbn zeta. rewrite Eb. set (data := mark_used _ _ _).
  assert (Hd : forall b, 0 <= b -> used_bit data b = (b <? used)).
  { intros b Hb. unfold data. rewrite mark_used_spec; [|lia| | |done].
    - rewrite Z2Nat.id by lia. assert (used_bit zeroes b = false) as ->.
      { unfold used_bit, zget, zeroes. assert (default 0 (replicate (Z.to_nat BSIZE) 0 !! Z.to_nat (b / 8)) = 0) as ->; [|apply Z.bits_0].
        destruct (replicate _ _ !! _) as [x|] eqn:E; [|done]. by apply lookup_replicate in E as [-> _]. }
      zcase; try lia; done.
    - rewrite Z2Nat.id by lia. unfold zeroes. rewrite length_replicate. unfold BSIZE in *. lia.
    - unfold zeroes. apply Forall_replicate. by split. }
  split.
  - intros b Hb. split; [|apply Hd; lia]. unfold BBLOCK. rewrite !Z.div_small by (unfold FSSIZE, BPB, BSIZE in *; lia). done.
  - pose proof (find_clear_spec data 0 (sb_size sb) (Z.to_nat BPB) 0 ltac:(lia)) as Hf.
    change (sb_size sb) with 1000 in *. unfold FSSIZE in Hu. destruct (find_clear _ _ _ _ _) as [c|].
    + destruct Hf as (H1 & H2 & H3 & H4). rewrite Hd in H3 by lia. f_equal. destruct (Z.lt_trichotomy c used) as [|[|]]; [lia|done|].
      specialize (H4 used ltac:(lia)). rewrite Hd in H4 by lia. lia.
    + specialize (Hf used). rewrite Hd, Z.ltb_irrefl in Hf by lia. assert (false = true); [|done].
      apply Hf; [|lia]. rewrite Z2Nat.id by done. unfold BPB, BSIZE. lia.
Qed.

Lemma mkfs_bitmap_agrees_witness :
  exists im', Mkfs.balloc 60 (mk_image ∅ 1 60) = Some im' /\ find_clear (Z.to_nat BPB) (rsect (BBLOCK 0 sb) im') 0 0 (sb_size sb) = Some 60.
Proof.
  destruct (mkfs_bitmap_agrees 60 (mk_image ∅ 1 60)) as (im' & E & _ & H); [unfold FSSIZE; lia|]. by exists im'.
Defined.
