(* ===== verification/Wp.v ===== *)
(** * Weakest preconditions for kernel code that sleeps

    [wp stuck R C Q r] holds of an outcome [r] when it does not panic, ends in states
    that satisfy [Q], and whenever it gives up the CPU the state satisfies [C], before
    and after the rest of the system has run.  [R] is what the rest of the system may do
    in between, and there must be something it can do; [stuck] says whether the code may
    also wait for ever.  [C] is what must hold when the machine stops at that moment. *)
From stdpp Require Import gmap list strings.
From S2P Require Import Prelude.

Fixpoint wp {S A} (stuck : Prop) (R : S -> S -> Prop) (C : S -> Prop) (Q : A -> S -> Prop) (r : res S A) : Prop :=
  match r with
  | Ok a s => Q a s
  | Panic _ => False
  | Hang => stuck
  | Swtch s k => C s /\ (exists s', R s s') /\ forall s', R s s' -> C s' /\ wp stuck R C Q (k s')
  end.

Section Wp.
Context {S : Type} (stuck : Prop) (R : S -> S -> Prop) (C : S -> Prop).

Lemma wp_mono {A} (Q Q' : A -> S -> Prop) r :
  wp stuck R C Q r -> (forall a s, Q a s -> Q' a s) -> wp stuck R C Q' r.
Proof.
  intros Hr HQ. induction r as [a s| | |s k IH]; cbn in *; [by apply HQ|done|done|].
  destruct Hr as (HC & He & Hk). split; [done|]. split; [done|]. intros s' Hs. destruct (Hk s' Hs) as [HC' Hr]. split; [done|]. by apply IH.
Qed.

Lemma wp_res_bind {A B} (Q : B -> S -> Prop) (r : res S A) (f : A -> M S B) :
  wp stuck R C (fun a s => wp stuck R C Q (f a s)) r -> wp stuck R C Q (res_bind r f).
Proof.
  intros Hr. induction r as [a s| | |s k IH]; cbn in *; [done|done|done|].
  destruct Hr as (HC & He & Hk). split; [done|]. split; [done|]. intros s' Hs. destruct (Hk s' Hs) as [HC' Hr]. split; [done|]. by apply IH.
Qed.

Lemma wp_bind {A B} (Q : B -> S -> Prop) (m : M S A) (f : A -> M S B) s :
  wp stuck R C (fun a s => wp stuck R C Q (f a s)) (m s) -> wp stuck R C Q (bind m f s).
Proof. apply wp_res_bind. Qed.

(** A call by its specification. *)
Lemma wp_call {A B} (P : A -> S -> Prop) (Q : B -> S -> Prop) (m : M S A) (f : A -> M S B) s :
  wp stuck R C P (m s) -> (forall a s', P a s' -> wp stuck R C Q (f a s')) -> wp stuck R C Q (bind m f s).
Proof. intros Hm Hf. apply wp_bind. eapply wp_mono; [exact Hm|done]. Qed.

Lemma wp_ok {A} (Q : A -> S -> Prop) (r : res S A) a s : r = Ok a s -> Q a s -> wp stuck R C Q r.
Proof. intros ->. done. Qed.

(** The end of a call that leaves the outcome known. *)
Lemma wp_bind_ok {A B} (Q : B -> S -> Prop) (m : M S A) (f : A -> M S B) s a s' :
  m s = Ok a s' -> wp stuck R C Q (f a s') -> wp stuck R C Q (bind m f s).
Proof. intros E H. by rewrite (bind_ok _ _ _ _ _ E). Qed.

(** A loop over [l] with an invariant on the number of elements done. *)
Lemma wp_each {X} (I : nat -> S -> Prop) (body : X -> M S unit) (l : list X) s :
  (forall i x s, l !! i = Some x -> I i s -> wp stuck R C (fun _ => I (i + 1)%nat) (body x s)) ->
  I 0%nat s -> wp stuck R C (fun _ => I (length l)) (each l body s).
Proof.
  revert I s. induction l as [|x l IH]; intros I s Hb Hs; [done|]. cbn [each]. apply wp_bind.
  eapply wp_mono; [by apply (Hb 0%nat)|]. intros [] s' Hs'.
  apply (IH (fun i => I (Datatypes.S i))); [|done]. intros i y t Hy Ht. by apply (Hb (Datatypes.S i)).
Qed.
End Wp.

(** A weaker condition for crashes, and the same steps of the others in other words. *)
Lemma wp_weaken {S A} (stuck : Prop) (R R' : S -> S -> Prop) (C C' : S -> Prop) (Q : A -> S -> Prop) r :
  (forall s s', R s s' <-> R' s s') -> (forall s, C s -> C' s) -> wp stuck R C Q r -> wp stuck R' C' Q r.
Proof.
  intros HR HC Hr. induction r as [a s| | |s k IH]; cbn in *; [done|done|done|].
  destruct Hr as (Hc & (s1 & He) & Hk). split; [by apply HC|]. split; [exists s1; by apply HR|].
  intros s' Hs%HR. destruct (Hk s' Hs) as [Hc' Hr]. split; [by apply HC|]. by apply IH.
Qed.

(** ** Code of a part of the state *)

(** The rest of the system does [R] to the part and leaves the other parts. *)
Definition sub_rel {T S} `{Sub T S} (R : T -> T -> Prop) (s s' : S) : Prop :=
  R (sub_get s) (sub_get s') /\ s' = sub_set (sub_get s') s.

Lemma wp_lift {T S A} `{Sub T S} (stuck : Prop) (R : T -> T -> Prop) (C : T -> Prop) (Q : A -> T -> Prop) (m : M T A) (s : S) :
  wp stuck R C Q (m (sub_get s)) ->
  wp stuck (sub_rel R) (fun s => C (sub_get s)) (fun a s' => exists t, s' = sub_set t s /\ Q a t) (lift m s).
Proof.
  unfold lift. generalize (m (sub_get s)). intros r. clear m. revert s.
  induction r as [a t| | |t k IH]; intros s Hr; cbn in *; [by exists t|done|done|].
  destruct Hr as (HC & (t' & He) & Hk). rewrite sub_get_set. split; [done|].
  split; [exists (sub_set t' (sub_set t s)); split; by rewrite !sub_get_set|]. intros s' [HR E]. rewrite sub_get_set in HR.
  destruct (Hk _ HR) as [HC' Hr]. split; [done|]. eapply wp_mono; [by apply IH|].
  intros a s2 (t2 & -> & HQ). exists t2. split; [|done]. rewrite E, sub_set_set, sub_set_set. done.
Qed.
