(* ===== verification/BioList.v ===== *)
(** * The list of buffers of kernel/bio.c

    The buffers are linked through [prev] and [next] in the order of their last use.
    [links bufs c] says that consecutive elements of [c] are linked; the ring of the
    cache is [HEAD], the buffers, and [HEAD] again.  The two searches of [bget] visit
    the ring in its two directions and [brelse] moves a buffer to its front. *)
From stdpp Require Import gmap list strings.
From S2P Require Import Prelude Kstring Abi Machine Spinlock Kalloc Vm Proc Sleeplock Virtio Bio.

(** ** Arrays of buffers *)

Definition gb (bufs : list buf) (i : nat) : buf := default buf_zero (bufs !! i).
Definition ub (i : nat) (f : buf -> buf) (bufs : list buf) : list buf := <[i := f (gb bufs i)]> bufs.

Lemma length_ub i f bufs : length (ub i f bufs) = length bufs.
Proof. apply length_insert. Qed.
Lemma gb_ub_eq i f bufs : (i < length bufs)%nat -> gb (ub i f bufs) i = f (gb bufs i).
Proof. intros H. unfold gb at 1, ub. by rewrite list_lookup_insert_eq. Qed.
Lemma gb_ub_ne i j f bufs : i <> j -> gb (ub i f bufs) j = gb bufs j.
Proof. intros H. unfold gb, ub. by rewrite list_lookup_insert_ne. Qed.

(** Everything but the links. *)
Definition core (x : buf) : buf := set_buf_prev 0 (set_buf_next 0 x).

Lemma core_ub i f bufs j : (forall x, core (f x) = core x) -> core (gb (ub i f bufs) j) = core (gb bufs j).
Proof.
  intros H. destruct (decide (i = j)) as [->|]; [|by rewrite gb_ub_ne].
  destruct (decide (j < length bufs)%nat); [by rewrite gb_ub_eq|]. unfold ub. by rewrite list_insert_ge by lia.
Qed.

(** ** Links *)

Fixpoint links (bufs : list buf) (c : list nat) : Prop :=
  match c with
  | x :: (y :: _) as c' => buf_next (gb bufs x) = y /\ buf_prev (gb bufs y) = x /\ links bufs c'
  | _ => True
  end.

Lemma links_app bufs c1 x c2 : links bufs (c1 ++ x :: c2) <-> links bufs (c1 ++ [x]) /\ links bufs (x :: c2).
Proof.
  induction c1 as [|y c1 IH]; [cbn; naive_solver|]. destruct c1 as [|z c1]; [cbn; naive_solver|].
  cbn [app links] in *. naive_solver.
Qed.

Lemma links_two bufs c1 x y c2 :
  links bufs (c1 ++ x :: y :: c2) <->
  links bufs (c1 ++ [x]) /\ (buf_next (gb bufs x) = y /\ buf_prev (gb bufs y) = x) /\ links bufs (y :: c2).
Proof. rewrite links_app. cbn [links]. naive_solver. Qed.

(** The links of [c] are in [next] of its elements but the last, and in [prev] of its
    elements but the first. *)
Lemma links_mono bufs bufs' c a b l l' :
  links bufs c -> c = l ++ [b] -> c = a :: l' ->
  (forall x, x ∈ l -> buf_next (gb bufs' x) = buf_next (gb bufs x)) ->
  (forall y, y ∈ l' -> buf_prev (gb bufs' y) = buf_prev (gb bufs y)) -> links bufs' c.
Proof.
  revert l a l'. induction c as [|x c IH]; intros l a l' Hc E1 E2 Hn Hp; [done|].
  destruct c as [|y c]; [done|]. destruct Hc as (H1 & H2 & Hc). injection E2 as -> <-.
  destruct l as [|x l]; [done|]. injection E1 as <- E1. cbn [links].
  rewrite Hn, Hp by constructor. split; [done|]. split; [done|].
  apply (IH l y c); [done|done|done| |]; intros z Hz; [apply Hn|apply Hp]; by constructor.
Qed.

(** The ring with the buffers in the order [l], the one used last first. *)
Record ring (bufs : list buf) (l : list nat) : Prop := {
  ring_len : length bufs = S HEAD;
  ring_perm : l ≡ₚ seq 0 HEAD;
  ring_links : links bufs (HEAD :: l ++ [HEAD])
}.

Lemma ring_nodup bufs l : ring bufs l -> NoDup l /\ HEAD ∉ l /\ forall b, b ∈ l <-> (b < HEAD)%nat.
Proof.
  intros [_ Hp _]. assert (H : forall b, b ∈ l <-> (b < HEAD)%nat) by (intros b; rewrite Hp, elem_of_seq; lia).
  split; [rewrite Hp; apply NoDup_seq|]. split; [|done]. rewrite H. lia.
Qed.

(** ** The searches of bget *)

Definition first_of (l : list nat) : nat := default HEAD (head l).

Definition cached (bufs : list buf) (dev blockno : Z) (b : nat) : bool :=
  (buf_dev (gb bufs b) =? dev) && (buf_blockno (gb bufs b) =? blockno).
Definition unused (bufs : list buf) (b : nat) : bool := buf_refcnt (gb bufs b) =? 0.

Lemma bget_cached_eq dev blockno s l : forall n x,
  links (b_bufs s) (x :: l ++ [HEAD]) -> HEAD ∉ l -> (length l <= n)%nat ->
  bget_cached n (first_of l) dev blockno s = Ok (find (cached (b_bufs s) dev blockno) l) s.
Proof.
  induction l as [|y l IH]; intros n x Hl Hh Hn.
  - cbn [first_of default head find]. destruct n; cbn [bget_cached]; by rewrite decide_True.
  - apply not_elem_of_cons in Hh as [Hy Hh]. destruct n as [|n]; [cbn in Hn; lia|]. change (first_of (y :: l)) with y. cbn [bget_cached find].
    rewrite decide_False by done. unfold buf_get. mgo. change (get_buf s y) with (gb (b_bufs s) y). unfold cached at 1.
    destruct (_ && _); [done|]. assert (E : buf_next (gb (b_bufs s) y) = first_of l).
    { destruct Hl as (_ & _ & Hl). destruct l; cbn in Hl; naive_solver. }
    rewrite E. apply (IH n y); [by destruct Hl as (_ & _ & Hl)|done|cbn in Hn; lia].
Qed.

Lemma bget_unused_eq s l : forall n y,
  links (b_bufs s) (HEAD :: l ++ [y]) -> HEAD ∉ l -> (length l <= n)%nat ->
  bget_unused n (buf_prev (gb (b_bufs s) y)) s = Ok (find (unused (b_bufs s)) (rev l)) s.
Proof.
  induction l as [|x l IH] using rev_ind; intros n y Hl Hh Hn.
  - cbn in Hl. destruct Hl as (_ & -> & _). destruct n; cbn [bget_unused]; by rewrite decide_True.
  - rewrite <- app_assoc in Hl. change (HEAD :: l ++ [x] ++ [y]) with ((HEAD :: l) ++ x :: y :: []) in Hl.
    apply links_two in Hl as (Hl & [_ ->] & _). rewrite not_elem_of_app, list_elem_of_singleton in Hh. destruct Hh as [Hh Hx].
    rewrite length_app in Hn. destruct n as [|n]; [cbn in Hn; lia|]. cbn [bget_unused]. rewrite decide_False by done.
    rewrite rev_app_distr. cbn [rev app find]. unfold buf_get. mgo. change (get_buf s x) with (gb (b_bufs s) x).
    unfold unused at 1. destruct (_ =? 0); [done|]. apply IH; [done|done|cbn in Hn; lia].
Qed.

(** ** brelse *)

Definition unlink (b : nat) (bufs : list buf) : list buf :=
  let bufs := ub (buf_next (gb bufs b)) (set_buf_prev (buf_prev (gb bufs b))) bufs in
  ub (buf_prev (gb bufs b)) (set_buf_next (buf_next (gb bufs b))) bufs.
Definition push_front (b : nat) (bufs : list buf) : list buf :=
  let bufs := ub b (set_buf_next (buf_next (gb bufs HEAD))) bufs in
  let bufs := ub b (set_buf_prev HEAD) bufs in
  let bufs := ub (buf_next (gb bufs HEAD)) (set_buf_prev b) bufs in
  ub HEAD (set_buf_next b) bufs.

Lemma brelse_move_eq b s : brelse_move b s = Ok tt (set_b_bufs (push_front b (unlink b (b_bufs s))) s).
Proof. reflexivity. Qed.

Lemma core_set_prev v x : core (set_buf_prev v x) = core x.
Proof. done. Qed.
Lemma core_set_next v x : core (set_buf_next v x) = core x.
Proof. done. Qed.

Lemma core_move b bufs j : core (gb (push_front b (unlink b bufs)) j) = core (gb bufs j).
Proof. unfold push_front, unlink. by rewrite !core_ub by (intros; apply core_set_prev || apply core_set_next). Qed.

Lemma length_move b bufs : length (push_front b (unlink b bufs)) = length bufs.
Proof. unfold push_front, unlink. by rewrite !length_ub. Qed.

Lemma unlink_ring c1 pv b nx c2 l1 l2 bufs :
  length bufs = S HEAD -> c1 ++ [pv] = HEAD :: l1 -> nx :: c2 = l2 ++ [HEAD] ->
  NoDup (l1 ++ b :: l2) -> (forall x, x ∈ l1 ++ b :: l2 -> (x < HEAD)%nat) ->
  links bufs (c1 ++ pv :: b :: nx :: c2) -> links (unlink b bufs) (c1 ++ pv :: nx :: c2).
Proof.
  intros Hlen E1 E2 Hnd Hlt Hl. apply NoDup_app in Hnd as (N1 & Nd & N2). apply NoDup_cons in N2 as [Nb N2].
  apply links_two in Hl as (L1 & [Hpb Hbp] & L2). destruct L2 as (Hbn & Hnb & L2).
  assert (Hpv : pv ∈ HEAD :: l1) by (rewrite <- E1; set_solver). assert (Hnx : nx ∈ l2 ++ [HEAD]) by (rewrite <- E2; set_solver).
  assert (HA : forall x, x ∈ l1 -> (x < HEAD)%nat) by (intros; apply Hlt; set_solver).
  assert (HB : forall x, x ∈ l2 -> (x < HEAD)%nat) by (intros; apply Hlt; set_solver).
  assert (HC : (b < HEAD)%nat) by (apply Hlt; set_solver).
  assert (Nc : NoDup (c1 ++ [pv])). { rewrite E1. apply NoDup_cons. split; [|done]. intros H. apply HA in H. lia. }
  assert (Nc' : NoDup (nx :: c2)).
  { rewrite E2. apply NoDup_app. split; [done|]. split; [|apply NoDup_singleton]. intros x Hx H. apply HB in Hx. set_solver by lia. }
  assert (Hpl : (pv < length bufs)%nat) by (apply elem_of_cons in Hpv as [->|H]; [lia|apply HA in H; lia]).
  assert (Hnl : (nx < length bufs)%nat) by (apply elem_of_app in Hnx as [H|H]; [apply HB in H; lia|set_solver by lia]).
  assert (Hnb1 : nx <> b). { intros ->. apply elem_of_app in Hnx as [H|H]; [done|]. apply list_elem_of_singleton in H. lia. }
  unfold unlink. rewrite Hbn, Hbp. rewrite (gb_ub_ne nx b) by done. rewrite Hbn, Hbp.
  set (bufs2 := ub pv _ _).
  assert (Fn : forall x, x <> pv -> buf_next (gb bufs2 x) = buf_next (gb bufs x)).
  { intros x Hx. unfold bufs2. rewrite gb_ub_ne by done. destruct (decide (nx = x)) as [->|]; [by rewrite gb_ub_eq|by rewrite gb_ub_ne]. }
  assert (Fp : forall x, x <> nx -> buf_prev (gb bufs2 x) = buf_prev (gb bufs x)).
  { intros x Hx. unfold bufs2. destruct (decide (pv = x)) as [->|].
    - rewrite gb_ub_eq by (by rewrite length_ub). cbn. by rewrite gb_ub_ne.
    - by rewrite !gb_ub_ne. }
  apply links_two. split; [|split].
  - apply (links_mono bufs bufs2 _ HEAD pv c1 l1); [done|done|done| |].
    + intros x Hx. apply Fn. intros ->. apply NoDup_app in Nc as (_ & Nc & _). apply (Nc pv); set_solver.
    + intros y Hy. apply Fp. intros ->. apply elem_of_app in Hnx as [H|H]; [apply (Nd nx); set_solver|].
      apply list_elem_of_singleton in H as ->. apply HA in Hy. lia.
  - unfold bufs2. rewrite gb_ub_eq by (by rewrite length_ub). split; [done|].
    destruct (decide (pv = nx)) as [->|]; [rewrite gb_ub_eq by (by rewrite length_ub); cbn; by rewrite gb_ub_eq|].
    rewrite gb_ub_ne by done. by rewrite gb_ub_eq.
  - apply (links_mono bufs bufs2 _ nx HEAD l2 c2); [done|done|done| |].
    + intros x Hx. apply Fn. intros ->. apply elem_of_cons in Hpv as [->|H]; [apply HB in Hx; lia|apply (Nd pv); set_solver].
    + intros y Hy. apply Fp. intros ->. apply NoDup_cons in Nc' as [Nc' _]. done.
Qed.

Lemma push_front_links b rest bufs :
  length bufs = S HEAD -> NoDup (b :: rest) -> (forall x, x ∈ b :: rest -> (x < HEAD)%nat) ->
  links bufs (HEAD :: rest ++ [HEAD]) -> links (push_front b bufs) (HEAD :: b :: rest ++ [HEAD]).
Proof.
  intros Hlen Hnd Hlt Hl. apply NoDup_cons in Hnd as [Hb Hnd].
  assert (Hbl : (b < HEAD)%nat) by (apply Hlt; set_solver).
  assert (HA : forall x, x ∈ rest -> (x < HEAD)%nat) by (intros; apply Hlt; set_solver).
  destruct (rest ++ [HEAD]) as [|f c3] eqn:Ec; [by destruct rest|]. destruct Hl as (Hf & Hfp & Hl).
  assert (Hfm : f ∈ rest ++ [HEAD]) by (rewrite Ec; set_solver).
  assert (Hfl : (f < length bufs)%nat) by (apply elem_of_app in Hfm as [H|H]; [apply HA in H; lia|set_solver by lia]).
  assert (Hfb : f <> b). { intros ->. apply elem_of_app in Hfm as [H|H]; [done|]. apply list_elem_of_singleton in H. lia. }
  assert (Nf : f ∉ c3).
  { assert (N : NoDup (rest ++ [HEAD])). { apply NoDup_app. split; [done|]. split; [|apply NoDup_singleton].
      intros x Hx H. apply HA in Hx. set_solver by lia. } rewrite Ec in N. by apply NoDup_cons in N as [N _]. }
  unfold push_front. rewrite !(gb_ub_ne b HEAD) by lia. rewrite Hf. set (bufs4 := ub b _ (ub b _ _)).
  assert (L4 : length bufs4 = S HEAD) by (unfold bufs4; by rewrite !length_ub).
  assert (G4 : gb bufs4 b = set_buf_prev HEAD (set_buf_next f (gb bufs b))).
  { unfold bufs4. rewrite gb_ub_eq by (rewrite length_ub; lia). by rewrite gb_ub_eq by lia. }
  assert (G4' : forall x, x <> b -> gb bufs4 x = gb bufs x) by (intros; unfold bufs4; by rewrite !gb_ub_ne).
  set (bufs6 := ub HEAD _ _).
  assert (Fn : forall x, x <> HEAD -> buf_next (gb bufs6 x) = buf_next (gb bufs4 x)).
  { intros x Hx. unfold bufs6. rewrite gb_ub_ne by done. destruct (decide (f = x)) as [->|]; [by rewrite gb_ub_eq by lia|by rewrite gb_ub_ne]. }
  assert (Fp : forall x, buf_prev (gb bufs6 x) = if decide (x = f) then b else buf_prev (gb bufs4 x)).
  { intros x. unfold bufs6. destruct (decide (HEAD = x)) as [<-|].
    - rewrite gb_ub_eq by (rewrite length_ub; lia). cbn. destruct (decide (HEAD = f)) as [<-|]; [by rewrite gb_ub_eq by lia|by rewrite gb_ub_ne].
    - rewrite gb_ub_ne by done. destruct (decide (x = f)) as [->|]; [by rewrite gb_ub_eq by lia|by rewrite gb_ub_ne]. }
  change (links bufs6 ([HEAD] ++ b :: f :: c3)). apply links_two. split; [|split].
  { cbn. rewrite Fp, decide_False by done. rewrite G4. split; [|done]. unfold bufs6. by rewrite gb_ub_eq by (rewrite length_ub; lia). }
  { rewrite Fn, G4, Fp, decide_True by (done || lia). done. }
  apply (links_mono bufs bufs6 _ f HEAD rest c3); [done|by rewrite <- Ec|done| |].
  - intros x Hx. rewrite Fn by (intros ->; apply HA in Hx; lia). by rewrite G4' by (intros ->; done).
  - intros y Hy. rewrite Fp, decide_False by (intros ->; done). rewrite G4'; [done|]. intros ->.
    assert (H : b ∈ rest ++ [HEAD]) by (rewrite Ec; set_solver). apply elem_of_app in H as [H|H]; [done|].
    apply list_elem_of_singleton in H. lia.
Qed.

Lemma snoc_cases {A} (x : A) (l : list A) : exists l' y, x :: l = l' ++ [y].
Proof. destruct (exists_last (l := x :: l)) as (l' & y & E); [done|]. by exists l', y. Qed.

(** Releasing the last reference to [b] makes it the buffer used last. *)
Lemma move_ring b l1 l2 bufs :
  ring bufs (l1 ++ b :: l2) -> ring (push_front b (unlink b bufs)) (b :: l1 ++ l2).
Proof.
  intros Hr. destruct (ring_nodup _ _ Hr) as (Hnd & _ & Hin). destruct Hr as [Hlen Hp Hl].
  assert (Hp' : b :: l1 ++ l2 ≡ₚ l1 ++ b :: l2) by (by rewrite Permutation_middle).
  assert (Hlt : forall x, x ∈ l1 ++ b :: l2 -> (x < HEAD)%nat) by (intros x; apply Hin).
  split; [by rewrite length_move|by rewrite Hp'|].
  apply push_front_links; [unfold unlink; by rewrite !length_ub|by rewrite Hp'|by intros x; rewrite Hp'; apply Hlt|].
  destruct (snoc_cases HEAD l1) as (c1 & pv & E1).
  destruct (l2 ++ [HEAD]) as [|nx c2] eqn:E2; [by destruct l2|].
  assert (H : links (unlink b bufs) (c1 ++ pv :: nx :: c2)).
  { apply (unlink_ring c1 pv b nx c2 l1 l2); [done|done|done|done|done|].
    change (c1 ++ pv :: b :: nx :: c2) with (c1 ++ [pv] ++ b :: nx :: c2). rewrite app_assoc, <- E1, <- E2.
    cbn [app] in *. by rewrite <- app_assoc in Hl. }
  change (c1 ++ pv :: nx :: c2) with (c1 ++ [pv] ++ nx :: c2) in H. rewrite app_assoc, <- E1, <- E2 in H.
  cbn [app] in *. by rewrite <- app_assoc.
Qed.
