(* ===== verification/BlockEnv.v ===== *)
(** * The block layer and its surroundings

    The machine as a process that uses the disk finds it, the contents of the disk, and
    what the rest of the system, the disk included, may do while the process sleeps. *)
From stdpp Require Import gmap list strings.
From S2P Require Import Prelude Kstring Abi Machine Spinlock Kalloc Vm Proc Sched Sleeplock Virtio Bio Wp BioList.

(** ** The machine *)

(** The spin locks of bio.c, virtio_disk.c and log.c, that of the table of inodes and those
    of the inodes. *)
Definition block_lock (l : lockid) : Prop :=
  l = Lk_bcache \/ l = Lk_vdisk \/ l = Lk_log \/ (exists i, (i < HEAD)%nat /\ l = Lk_buf i) \/ l = Lk_itable \/
  (exists i, (i < Z.to_nat NINODE)%nat /\ l = Lk_inode i).

Lemma block_lock_proc l q : block_lock l -> l <> Lk_proc q.
Proof. intros [->|[->|[->|[(i & _ & ->)|[->|(i & _ & ->)]]]]]; done. Qed.

Section Calm.
(** The process and its pid. *)
Variables (p : nat) (pid : Z).

(** The hart runs process [p], which holds no lock; no other hart holds a lock of the
    block layer, of the inodes or of a process. *)
Record calm (m : machine) : Prop := {
  ca_depth : h_noff (m_hart m) = 0;
  ca_proc : h_proc (m_hart m) = Some p;
  ca_len : length (m_procs m) = Z.to_nat NPROC;
  ca_bound : (p < Z.to_nat NPROC)%nat;
  ca_procs : forall q, (q < Z.to_nat NPROC)%nat -> unlocked (Lk_proc q) m;
  ca_locks : forall l, block_lock l -> unlocked l m;
  ca_pid : p_pid (get_proc m p) = pid
}.

Lemma calm_ok m : calm m -> hart_ok m.
Proof. intros [H]. split; rewrite H; lia. Qed.

Lemma calm_settle m : calm m -> calm (settle m).
Proof.
  intros [H1 H2 H3 H4 H5 H6 H7]. split; try done; [|by rewrite h_proc_settle].
  unfold settle, with_hart, cpu_settle. cbn. by rewrite H1.
Qed.

Lemma calm_procs m procs :
  calm m -> length procs = length (m_procs m) -> p_pid (default proc_zero (procs !! p)) = pid -> calm (set_m_procs procs m).
Proof. intros [H1 H2 H3 H4 H5 H6 H7] Hl Hp. split; try done. cbn. lia. Qed.

Lemma calm_upd m f : calm m -> (forall x, p_pid (f x) = p_pid x) -> calm (upd_proc p f m).
Proof.
  intros Hm Hf. destruct (Hm) as [H1 H2 H3 H4 H5 H6 H7]. split; try done; [by rewrite length_upd_proc|].
  rewrite get_upd_proc_eq by lia. by rewrite Hf.
Qed.

Lemma calm_restore m ie : calm m -> calm (with_hart (restore_intr ie) m).
Proof. intros [H1 H2 H3 H4 H5 H6 H7]. by split. Qed.

Lemma calm_sched m l : calm m -> block_lock l -> sched_ok (hold l m).
Proof.
  intros Hm Hl. destruct (Hm) as [H1 H2 H3 H4 H5 H6 H7].
  apply sched_ok_hold; [|by intros q; apply block_lock_proc]. split; [by apply calm_ok|done|].
  intros q Hq _. apply H5. lia.
Qed.

Lemma calm_acquire m l : calm m -> block_lock l -> acquire l m = Ok tt (hold l m).
Proof. intros Hm Hl. apply acquire_ok, (ca_locks m Hm l Hl). Qed.

Lemma calm_release m l : calm m -> block_lock l -> release l (hold l m) = Ok tt (settle m).
Proof. intros Hm Hl. apply release_hold; [by apply calm_ok|apply (ca_locks m Hm l Hl)]. Qed.

Lemma calm_curproc m l : calm m -> curproc (hold l m) = Ok p (hold l m).
Proof.
  intros Hm. rewrite (curproc_eq (hold l m) p); [|by apply hart_ok_hold, calm_ok|apply (ca_proc m Hm)].
  rewrite settle_hold; [done|]. rewrite (ca_depth m Hm). lia.
Qed.

Lemma calm_wakeup m l ch : calm m -> block_lock l -> exists m', wakeup ch (hold l m) = Ok tt (hold l m') /\ calm m'.
Proof.
  intros Hm Hl. destruct (wakeup_procs ch (hold l m) (calm_sched m l Hm Hl)) as (procs & E & Hlen & Hp).
  exists (set_m_procs procs m). rewrite hold_procs, settle_hold in E by (cbn; rewrite (ca_depth m Hm); lia). split; [done|].
  apply calm_procs; [done|done|]. rewrite Hp by (cbn; rewrite (ca_len m Hm); apply (ca_bound m Hm)).
  unfold wake. rewrite decide_True; [apply (ca_pid m Hm)|]. cbn. by rewrite (ca_proc m Hm).
Qed.

Lemma calm_can_sleep m l : calm m -> block_lock l -> can_sleep p l m.
Proof.
  intros Hm Hl. destruct (Hm) as [H1 H2 H3 H4 H5 H6 H7]. split; try done; [lia|by apply block_lock_proc|by apply H6|by apply H5].
Qed.

(** [sleep] inside the critical section of [l], as the rest of the system sees it. *)
Lemma calm_sleep m l ch :
  calm m -> block_lock l ->
  exists m1 resume, sleep ch l (hold l m) = Swtch (hold (Lk_proc p) m1) resume /\
    forall m', calm m' -> exists m2, resume (hold (Lk_proc p) m') = Ok tt (hold l m2) /\ calm m2.
Proof.
  intros Hm Hl. destruct (sleep_spec ch p l m (calm_can_sleep m l Hm Hl)) as (resume & E & Hr).
  eexists _, resume. split; [exact E|]. intros m' Hm'. eexists. split; [apply Hr; by apply calm_can_sleep|].
  apply calm_upd; [|done]. by apply calm_restore.
Qed.
End Calm.

(** ** The disk *)

Section Disk.
(** The contents of the disk, by sector, before the writes of [b_writes]. *)
Variable d0 : Z -> list Z.

Definition disk_at (ws : list (Z * list Z)) (sector : Z) : list Z :=
  fold_left (fun d w => if w.1 =? sector then w.2 else d) ws (d0 sector).

(** A block is two sectors. *)
Definition dblock (ws : list (Z * list Z)) (bn : Z) : list Z := disk_at ws (2 * bn).

Lemma dblock_write ws bn v bn' :
  dblock (ws ++ [(2 * bn, v)]) bn' = if bn' =? bn then v else dblock ws bn'.
Proof.
  unfold dblock, disk_at. rewrite fold_left_app. cbn [fold_left fst snd].
  destruct (Z.eqb_spec bn' bn) as [->|]; [by rewrite Z.eqb_refl|]. by rewrite (proj2 (Z.eqb_neq _ _)) by lia.
Qed.

Lemma disk_at_length ws bn v :
  (forall sec, Z.of_nat (length (disk_at ws sec)) = BSIZE) -> Z.of_nat (length v) = BSIZE ->
  forall sec, Z.of_nat (length (disk_at (ws ++ [(bn, v)]) sec)) = BSIZE.
Proof. intros H Hv sec. unfold disk_at. rewrite fold_left_app. cbn. destruct (bn =? sec); [done|]. apply H. Qed.

(** ** The cache *)

(** The device whose blocks are considered. *)
Variable dev : Z.

(** A buffer that nobody refers to is unlocked and, when it is valid, holds what is on
    the disk; no block is in two buffers. *)
Record cwf (bufs : list buf) (ws : list (Z * list Z)) : Prop := {
  cw_ring : exists l, ring bufs l;
  cw_len : forall i, (i < HEAD)%nat -> Z.of_nat (length (buf_data (gb bufs i))) = BSIZE;
  cw_refs : forall i, (i < HEAD)%nat -> 0 <= buf_refcnt (gb bufs i) < 2 ^ 31;
  cw_uniq : forall i j, (i < HEAD)%nat -> (j < HEAD)%nat -> buf_dev (gb bufs i) = dev -> buf_dev (gb bufs j) = dev ->
    buf_blockno (gb bufs i) = buf_blockno (gb bufs j) -> i = j;
  cw_free : forall i, (i < HEAD)%nat -> buf_refcnt (gb bufs i) = 0 -> sl_locked (buf_lock (gb bufs i)) = 0 /\
    (buf_dev (gb bufs i) = dev -> buf_valid (gb bufs i) <> 0 -> buf_data (gb bufs i) = dblock ws (buf_blockno (gb bufs i)));
  cw_disk : forall sec, Z.of_nat (length (disk_at ws sec)) = BSIZE
}.

Lemma cwf_length bufs ws : cwf bufs ws -> length bufs = S HEAD.
Proof. intros H. destruct (cw_ring _ _ H) as [l Hl]. apply (ring_len _ _ Hl). Qed.

(** A change of buffer [b] that keeps the links. *)
Lemma cwf_set b f bufs ws :
  cwf bufs ws -> (b < HEAD)%nat ->
  (forall x, buf_prev (f x) = buf_prev x /\ buf_next (f x) = buf_next x) ->
  Z.of_nat (length (buf_data (f (gb bufs b)))) = BSIZE -> 0 <= buf_refcnt (f (gb bufs b)) < 2 ^ 31 ->
  (buf_dev (f (gb bufs b)) = dev -> forall j, (j < HEAD)%nat -> j <> b -> buf_dev (gb bufs j) = dev ->
     buf_blockno (gb bufs j) <> buf_blockno (f (gb bufs b))) ->
  (buf_refcnt (f (gb bufs b)) = 0 -> sl_locked (buf_lock (f (gb bufs b))) = 0 /\
     (buf_dev (f (gb bufs b)) = dev -> buf_valid (f (gb bufs b)) <> 0 ->
      buf_data (f (gb bufs b)) = dblock ws (buf_blockno (f (gb bufs b))))) ->
  cwf (ub b f bufs) ws.
Proof.
  intros H Hb Hlk Hlen Href Hu Hz. pose proof (cwf_length _ _ H) as Hl.
  assert (G : forall i, gb (ub b f bufs) i = if decide (i = b) then f (gb bufs b) else gb bufs i).
  { intros i. destruct (decide (i = b)) as [->|]; [by rewrite gb_ub_eq by lia|by rewrite gb_ub_ne]. }
  destruct H as [[l Hr] H2 H3 H4 H5 H6]. split.
  - exists l. destruct Hr as [R1 R2 R3]. split; [by rewrite length_ub|done|].
    apply (links_mono bufs (ub b f bufs) _ HEAD HEAD (HEAD :: l) (l ++ [HEAD])); [done|done|done| |];
      intros x _; rewrite G; destruct (decide _) as [->|]; try done; apply Hlk.
  - intros i Hi. rewrite G. destruct (decide _); auto.
  - intros i Hi. rewrite G. destruct (decide _); auto.
  - intros i j Hi Hj. rewrite !G. destruct (decide (i = b)) as [->|], (decide (j = b)) as [->|]; try done; intros D1 D2 E.
    + by destruct (Hu D1 j Hj).
    + by destruct (Hu D2 i Hi).
    + by apply H4.
  - intros i Hi. rewrite G. destruct (decide _); [done|]. by apply H5.
  - done.
Qed.

(** Moving a buffer in the ring. *)
Lemma cwf_move b bufs ws : cwf bufs ws -> (b < HEAD)%nat -> cwf (push_front b (unlink b bufs)) ws.
Proof.
  intros [[l Hr] H2 H3 H4 H5 H6] Hb.
  assert (F : forall i, core (gb (push_front b (unlink b bufs)) i) = core (gb bufs i)) by (intros; apply core_move).
  assert (Fd : forall A (g : buf -> A), (forall x, g (core x) = g x) -> forall i, g (gb (push_front b (unlink b bufs)) i) = g (gb bufs i)).
  { intros A g Hg i. by rewrite <- Hg, F, Hg. }
  split.
  - destruct (ring_nodup _ _ Hr) as (_ & _ & Hin). apply Hin in Hb. apply list_elem_of_split in Hb as (l1 & l2 & ->).
    exists (b :: l1 ++ l2). by apply move_ring.
  - intros i Hi. rewrite (Fd _ buf_data) by done. auto.
  - intros i Hi. rewrite (Fd _ buf_refcnt) by done. auto.
  - intros i j Hi Hj. rewrite !(Fd _ buf_dev), !(Fd _ buf_blockno) by done. auto.
  - intros i Hi. rewrite (Fd _ buf_refcnt), (Fd _ buf_lock), (Fd _ buf_dev), (Fd _ buf_valid), (Fd _ buf_data), (Fd _ buf_blockno) by done. auto.
  - done.
Qed.

(** ** The device *)

(** The request whose first descriptor is [i], as the device reads it: a header, the
    data, and a status byte that the device writes. *)
Definition request (d : vdisk) (i : nat) : option (bool * Z * nat) :=
  let x := get_desc d i in
  let y := get_desc d (vd_next x) in
  let z := get_desc d (vd_next y) in
  match vd_addr x, vd_addr y, vd_addr z with
  | Dma_op j, Dma_data b, Dma_status _ =>
      let req := default (mk_req 0 0 0) (d_ops d !! j) in
      let write := req_type req =? VIRTIO_BLK_T_OUT in
      if (vd_len x =? 16) && (vd_flags x =? VRING_DESC_F_NEXT) && (vd_len y =? BSIZE) &&
         (vd_flags y =? (if write then VRING_DESC_F_NEXT else Z.lor VRING_DESC_F_WRITE VRING_DESC_F_NEXT)) &&
         (vd_len z =? 1) && (vd_flags z =? VRING_DESC_F_WRITE) && (write || (req_type req =? VIRTIO_BLK_T_IN))
      then Some (write, req_sector req, b) else None
  | _, _, _ => None
  end.

(** The request the driver made available last. *)
Definition last_request (d : vdisk) : option (bool * Z * nat) :=
  d_avail_ring d !! Z.to_nat (u16 (d_avail_idx d - 1) mod Z.of_nat NUM) ≫= request d.

(** The buffer and the writes after the request was served. *)
Definition served_buf (ws : list (Z * list Z)) (write : bool) (sector : Z) (x : buf) : buf :=
  set_buf_disk 0 (if write then x else set_buf_data (disk_at ws sector) x).
Definition served_ws (ws : list (Z * list Z)) (write : bool) (sector : Z) (x : buf) : list (Z * list Z) :=
  if write then ws ++ [(sector, buf_data x)] else ws.

(** Other processes have the cache in order, have no references to buffers, and have
    left the buffers others refer to alone, but for the links. *)
Definition keeps (bufs bufs' : list buf) (b : nat) : Prop :=
  forall i, (i < HEAD)%nat -> i <> b ->
    if decide (buf_refcnt (gb bufs i) = 0) then buf_refcnt (gb bufs' i) = 0 else core (gb bufs' i) = core (gb bufs i).

Variables (p : nat) (pid : Z).
(** May the process be resumed although its request was not served?  [kill] does that. *)
Variable spurious : Prop.

(** What may happen between [s], in which the process sleeps until its request is
    served, and [s'], in which it is resumed. *)
Record env (s s' : bst) : Prop := {
  en_calm : exists m, b_m s' = hold (Lk_proc p) m /\ calm p pid m;
  en_cache : cwf (b_bufs s') (b_writes s');
  en_free : d_free (b_vd s') = d_free (b_vd s);
  en_size : length (d_desc (b_vd s')) = length (d_desc (b_vd s)) /\ length (d_info (b_vd s')) = length (d_info (b_vd s)) /\
            length (d_ops (b_vd s')) = length (d_ops (b_vd s)) /\ length (d_avail_ring (b_vd s')) = length (d_avail_ring (b_vd s));
  en_desc : forall i, is_free (b_vd s) i = false -> get_desc (b_vd s') i = get_desc (b_vd s) i;
  en_served : exists write sector b, last_request (b_vd s) = Some (write, sector, b) /\ keeps (b_bufs s) (b_bufs s') b /\
    ((core (gb (b_bufs s') b) = core (served_buf (b_writes s) write sector (gb (b_bufs s) b)) /\
      b_writes s' = served_ws (b_writes s) write sector (gb (b_bufs s) b)) \/
     (spurious /\ core (gb (b_bufs s') b) = core (gb (b_bufs s) b) /\ b_writes s' = b_writes s /\ b_vd s' = b_vd s))
}.
End Disk.
