(* ===== verification/VirtioSpec.v ===== *)
(** * The disk driver: virtio_disk_rw reads and writes a block *)
From stdpp Require Import gmap list strings.
From S2P Require Import Prelude Kstring Abi Machine Spinlock Kalloc Vm Proc Sched Sleeplock Virtio Bio Wp BioList BlockEnv.

Lemma bst_lift {A} (x : M machine A) m m' a bufs vd rg ws :
  x m = Ok a m' -> lift x (mk_bst m bufs vd rg ws) = Ok a (mk_bst m' bufs vd rg ws).
Proof. intros E. unfold lift. cbn. by rewrite E. Qed.

(** No request is in flight. *)
Record vd_idle (d : vdisk) : Prop := {
  vi_free : d_free d = replicate NUM true;
  vi_desc : length (d_desc d) = NUM;
  vi_info : length (d_info d) = NUM;
  vi_ops : length (d_ops d) = NUM;
  vi_ring : length (d_avail_ring d) = NUM
}.

(** Three descriptors are taken. *)
Definition three_taken : list bool := replicate 3 false ++ replicate 5 true.

Lemma alloc3_eq n m bufs vd rg ws :
  d_free vd = replicate NUM true ->
  alloc3_loop (S n) (mk_bst m bufs vd rg ws) = Ok (0%nat, 1%nat, 2%nat) (mk_bst m bufs (set_d_free three_taken vd) rg ws).
Proof. intros E. destruct vd. cbn in E. subst. reflexivity. Qed.

(** The request that [virtio_format] lays out in the first three descriptors. *)
Definition submit (b : nat) (write : bool) (sector : Z) (d : vdisk) : vdisk :=
  let d := set_d_ops (<[0%nat := mk_req (if write then VIRTIO_BLK_T_OUT else VIRTIO_BLK_T_IN) 0 sector]> (d_ops d)) d in
  let d := set_desc 0 (mk_desc (Dma_op 0) 16 VRING_DESC_F_NEXT 1) d in
  let d := set_desc 1 (mk_desc (Dma_data b) BSIZE (Z.lor (if write then 0 else VRING_DESC_F_WRITE) VRING_DESC_F_NEXT) 2) d in
  let d := set_info_status 0 0xff d in
  let d := set_desc 2 (mk_desc (Dma_status 0) 1 VRING_DESC_F_WRITE 0) d in
  let d := set_info_b 0 (Some b) d in
  let d := set_d_avail_ring (<[Z.to_nat (d_avail_idx d mod Z.of_nat NUM) := 0%nat]> (d_avail_ring d)) d in
  set_d_avail_idx (u16 (d_avail_idx d + 1)) d.

Lemma virtio_format_eq b write sector m bufs vd rg ws :
  virtio_format b write sector 0 1 2 (mk_bst m bufs vd rg ws) =
  Ok tt (mk_bst m (ub b (set_buf_disk 1) bufs) (submit b write sector vd) (<[VIRTIO_MMIO_QUEUE_NOTIFY := u32 0]> rg) ws).
Proof. reflexivity. Qed.

Lemma get_submit_desc b write sector d i :
  length (d_desc d) = NUM ->
  get_desc (submit b write sector d) i =
  match i with
  | 0%nat => mk_desc (Dma_op 0) 16 VRING_DESC_F_NEXT 1
  | 1%nat => mk_desc (Dma_data b) BSIZE (Z.lor (if write then 0 else VRING_DESC_F_WRITE) VRING_DESC_F_NEXT) 2
  | 2%nat => mk_desc (Dma_status 0) 1 VRING_DESC_F_WRITE 0
  | _ => get_desc d i
  end.
Proof.
  intros Hl. unfold get_desc, submit, set_desc, set_info_b, set_info_status. cbn [d_desc set_d_desc set_d_ops set_d_info set_d_avail_ring set_d_avail_idx].
  destruct d as [[|x0 [|x1 [|x2 l]]] ai ar ui ur fr uj inf ops]; cbn in *; try (unfold NUM in Hl; lia).
  destruct i as [|[|[|i]]]; reflexivity.
Qed.

Lemma last_request_submit b write sector d :
  length (d_desc d) = NUM -> length (d_ops d) = NUM -> length (d_avail_ring d) = NUM ->
  last_request (submit b write sector d) = Some (write, sector, b).
Proof.
  intros Hd Ho Hr. unfold last_request.
  assert (Ei : Z.to_nat (u16 (d_avail_idx (submit b write sector d) - 1) mod Z.of_nat NUM) = Z.to_nat (d_avail_idx d mod Z.of_nat NUM)).
  { cbn. unfold u16. rewrite Zminus_mod_idemp_l, Z.add_simpl_r. f_equal.
    change (2 ^ 16) with (8 * 8192). rewrite Z.rem_mul_r by lia. change (Z.of_nat NUM) with 8.
    rewrite (Z.mul_comm 8), Z.mod_add, Z.mod_mod by lia. done. }
  assert (Er : d_avail_ring (submit b write sector d) = <[Z.to_nat (d_avail_idx d mod Z.of_nat NUM) := 0%nat]> (d_avail_ring d)) by reflexivity.
  assert (Eo : d_ops (submit b write sector d) = <[0%nat := mk_req (if write then VIRTIO_BLK_T_OUT else VIRTIO_BLK_T_IN) 0 sector]> (d_ops d)) by reflexivity.
  rewrite Ei, Er, list_lookup_insert_eq.
  2:{ rewrite Hr. pose proof (Z.mod_pos_bound (d_avail_idx d) 8). unfold NUM. change (Z.of_nat 8) with 8. lia. }
  cbn [mbind option_bind]. unfold request. rewrite !get_submit_desc by done. cbn [vd_next vd_addr vd_len vd_flags].
  rewrite Eo, list_lookup_insert_eq by (unfold NUM in Ho; lia). by destruct write.
Qed.

(** ** Taking the descriptors back *)

(** The chain of the three descriptors, in whatever state the other ones are. *)
Record chained (d : vdisk) : Prop := {
  ch_free : d_free d = three_taken;
  ch_desc : length (d_desc d) = NUM;
  ch_info : length (d_info d) = NUM;
  ch_ops : length (d_ops d) = NUM;
  ch_ring : length (d_avail_ring d) = NUM;
  ch_0 : Z.land (vd_flags (get_desc d 0)) VRING_DESC_F_NEXT <> 0 /\ vd_next (get_desc d 0) = 1%nat;
  ch_1 : Z.land (vd_flags (get_desc d 1)) VRING_DESC_F_NEXT <> 0 /\ vd_next (get_desc d 1) = 2%nat;
  ch_2 : Z.land (vd_flags (get_desc d 2)) VRING_DESC_F_NEXT = 0
}.

Lemma chained_submit b write sector d :
  vd_idle d -> chained (submit b write sector (set_d_free three_taken d)).
Proof.
  intros [H1 H2 H3 H4 H5].
  split; try (cbn; rewrite ?length_insert, ?length_alter; done); rewrite get_submit_desc by done; [split; done|split; [by destruct write|done]|done].
Qed.

Section Driver.
Variables (d0 : Z -> list Z) (dev : Z) (p : nat) (pid : Z) (spurious : Prop).
Notation calm := (calm p pid).

Lemma free_desc_eq i m bufs vd rg ws :
  calm m -> (i < NUM)%nat -> is_free vd i = false ->
  exists m', calm m' /\ free_desc i (mk_bst (hold Lk_vdisk m) bufs vd rg ws) =
    Ok tt (mk_bst (hold Lk_vdisk m') bufs (set_d_free (<[i := true]> (d_free vd)) (set_desc i desc_zero vd)) rg ws).
Proof.
  intros Hm Hi Hf. destruct (calm_wakeup p pid m Lk_vdisk (Some Ch_disk_free) Hm) as (m' & E & Hm'); [by right; left|].
  exists m'. split; [done|]. unfold free_desc. rewrite (proj2 (Nat.leb_gt _ _)) by done. unfold vd_get. mgo. cbn [b_vd]. rewrite Hf.
  unfold vd_upd. mgo. apply bst_lift. exact E.
Qed.

Lemma free_chain_eq m bufs vd rg ws :
  calm m -> chained vd ->
  exists m' vd', calm m' /\ vd_idle vd' /\
    free_chain NUM 0 (mk_bst (hold Lk_vdisk m) bufs vd rg ws) = Ok tt (mk_bst (hold Lk_vdisk m') bufs vd' rg ws).
Proof.
  intros Hm [H1 H2 H3 H4 H5 [F0 N0] [F1 N1] F2].
  assert (D : forall i j (d : vdisk), i <> j -> get_desc (set_d_free (<[i := true]> (d_free d)) (set_desc i desc_zero d)) j = get_desc d j).
  { intros i j d Hij. unfold get_desc. cbn. by rewrite list_lookup_insert_ne. }
  unfold NUM. cbn [free_chain]. unfold vd_get. mgo. cbn [b_vd].
  destruct (free_desc_eq 0 m bufs vd rg ws Hm) as (m1 & Hm1 & E1); [unfold NUM; lia|unfold is_free; by rewrite H1|].
  rewrite (bind_ok _ _ _ _ _ E1). rewrite (proj2 (Z.eqb_neq _ _) F0), N0. mgo. cbn [b_vd]. rewrite D by done. set (vd1 := set_d_free _ _).
  destruct (free_desc_eq 1 m1 bufs vd1 rg ws Hm1) as (m2 & Hm2 & E2); [unfold NUM; lia|unfold is_free, vd1; cbn; by rewrite H1|].
  rewrite (bind_ok _ _ _ _ _ E2). rewrite (proj2 (Z.eqb_neq _ _) F1), N1. mgo. cbn [b_vd]. unfold vd1. rewrite !D by done. fold vd1. set (vd2 := set_d_free _ _).
  destruct (free_desc_eq 2 m2 bufs vd2 rg ws Hm2) as (m3 & Hm3 & E3); [unfold NUM; lia|unfold is_free, vd2, vd1; cbn; by rewrite H1|].
  rewrite (bind_ok _ _ _ _ _ E3). rewrite F2. exists m3. eexists. split; [done|]. split; [|reflexivity].
  split; cbn; rewrite ?length_insert; try done. by rewrite H1.
Qed.

(** ** The transfer *)

(** When the machine may stop with the writes [ws] done. *)
Variable crash : list (Z * list Z) -> Prop.
Notation wp := (wp spurious (env d0 dev p pid spurious) (fun s => crash (b_writes s))).
Notation cwf := (cwf d0 dev).

(** Buffer [b] holds block [bn] and has references. *)
Record busy (bufs : list buf) (b : nat) (bn : Z) : Prop := {
  bu_lt : (b < HEAD)%nat;
  bu_dev : buf_dev (gb bufs b) = dev;
  bu_bn : buf_blockno (gb bufs b) = bn;
  bu_ref : buf_refcnt (gb bufs b) <> 0
}.

(** The cache is in order when the request was served. *)
Lemma cwf_served bufs ws b bn write :
  cwf bufs ws -> busy bufs b bn ->
  cwf (ub b (served_buf d0 ws write (2 * bn)) bufs) (served_ws ws write (2 * bn) (gb bufs b)).
Proof.
  intros H [H1 H2 H3 H4]. assert (Hx : cwf (ub b (served_buf d0 ws write (2 * bn)) bufs) ws).
  { apply cwf_set; [done|done|by intros x; destruct write| | | |]; unfold served_buf.
    - destruct write; cbn; [apply (cw_len _ _ _ _ H); done|apply (cw_disk _ _ _ _ H)].
    - destruct write; apply (cw_refs _ _ _ _ H b H1).
    - intros _ j Hj Hne Hd E. apply Hne. apply (cw_uniq _ _ _ _ H); try done. by destruct write.
    - by destruct write. }
  destruct write; [|done]. cbn [served_ws]. destruct Hx as [X1 X2 X3 X4 X5 X6]. split; try done.
  - intros i Hi E. destruct (X5 i Hi E) as [Y1 Y2]. split; [done|]. intros D V. rewrite (Y2 D V), dblock_write.
    destruct (Z.eqb_spec (buf_blockno (gb (ub b (served_buf d0 ws true (2 * bn)) bufs) i)) bn) as [Eb|]; [|done].
    exfalso. assert (Hib : i = b).
    { apply X4; try done; rewrite gb_ub_eq by (rewrite (cwf_length _ _ _ _ H); lia); cbn; congruence. }
    subst i. rewrite gb_ub_eq in E by (rewrite (cwf_length _ _ _ _ H); lia). done.
  - apply disk_at_length; [done|]. by apply (cw_len _ _ _ _ H).
Qed.

(** While the request is in flight. *)
Record waiting (b : nat) (write : bool) (bn : Z) (ws : list (Z * list Z)) (x : buf) (bufs : list buf) (vd : vdisk) : Prop := {
  wa_cache : cwf bufs ws;
  wa_busy : busy bufs b bn;
  wa_disk : buf_disk (gb bufs b) = 1;
  wa_buf : core (gb bufs b) = core (set_buf_disk 1 x);
  wa_req : last_request vd = Some (write, 2 * bn, b);
  wa_chain : chained vd
}.

(** After [wait_disk]. *)
Record done_ (b : nat) (write : bool) (bn : Z) (ws : list (Z * list Z)) (x : buf) (bufs bufs' : list buf) (vd' : vdisk) : Prop := {
  do_cache : cwf bufs' (served_ws ws write (2 * bn) x);
  do_buf : core (gb bufs' b) = core (served_buf d0 ws write (2 * bn) x);
  do_keeps : keeps bufs bufs' b;
  do_chain : chained vd'
}.

Lemma keeps_trans bufs1 bufs2 bufs3 b : keeps bufs1 bufs2 b -> keeps bufs2 bufs3 b -> keeps bufs1 bufs3 b.
Proof.
  intros H1 H2 i Hi Hne. specialize (H1 i Hi Hne). specialize (H2 i Hi Hne).
  destruct (decide (buf_refcnt (gb bufs1 i) = 0)) as [E|E].
  - by rewrite decide_True in H2.
  - rewrite decide_False in H2; [congruence|]. intros E2. apply E.
    change (buf_refcnt (gb bufs1 i)) with (buf_refcnt (core (gb bufs1 i))). by rewrite <- H1.
Qed.

Lemma keeps_refl bufs b : keeps bufs bufs b.
Proof. intros i _ _. by destruct (decide _). Qed.

Lemma core_eq {A} (g : buf -> A) x y : (forall z, g (core z) = g z) -> core x = core y -> g x = g y.
Proof. intros Hg E. by rewrite <- (Hg x), E, Hg. Qed.

Lemma chained_env s s' : env d0 dev p pid spurious s s' -> chained (b_vd s) -> chained (b_vd s').
Proof.
  intros He [C1 C2 C3 C4 C5 C6 C7 C8]. destruct (en_size _ _ _ _ _ _ _ He) as (S1 & S2 & S3 & S4).
  pose proof (en_desc _ _ _ _ _ _ _ He) as Hd.
  split; [by rewrite (en_free _ _ _ _ _ _ _ He)|congruence..| | |];
    rewrite Hd by (unfold is_free; by rewrite C1); done.
Qed.

(** The system can serve the request. *)
Lemma env_exists m1 bufs vd rg ws b write bn m :
  calm m -> cwf bufs ws -> busy bufs b bn -> last_request vd = Some (write, 2 * bn, b) ->
  exists s', env d0 dev p pid spurious (mk_bst m1 bufs vd rg ws) s'.
Proof.
  intros Hm Hc Hb Hr.
  exists (mk_bst (hold (Lk_proc p) m) (ub b (served_buf d0 ws write (2 * bn)) bufs) vd rg (served_ws ws write (2 * bn) (gb bufs b))).
  split; cbn; [by exists m|by apply cwf_served|done|done|done|].
  exists write, (2 * bn), b. split; [done|]. split.
  - intros i Hi Hne. rewrite gb_ub_ne by done. by destruct (decide _).
  - left. rewrite gb_ub_eq; [done|]. rewrite (cwf_length _ _ _ _ Hc). destruct Hb. lia.
Qed.

Lemma wait_disk_done fuel b s : buf_disk (get_buf s b) = 0 -> wait_disk fuel b s = Ok tt s.
Proof. intros E. destruct fuel; cbn [wait_disk]; unfold buf_get; mgo; by rewrite E. Qed.

Lemma wait_disk_wp b write bn ws x bufs0 : forall fuel m bufs vd rg,
  calm m -> waiting b write bn ws x bufs vd -> keeps bufs0 bufs b ->
  crash ws -> crash (served_ws ws write (2 * bn) x) -> (fuel = 0%nat -> spurious) ->
  wp (fun _ s' => exists m' bufs' vd' rg', s' = mk_bst (hold Lk_vdisk m') bufs' vd' rg' (served_ws ws write (2 * bn) x) /\
        calm m' /\ done_ b write bn ws x bufs0 bufs' vd')
     (wait_disk fuel b (mk_bst (hold Lk_vdisk m) bufs vd rg ws)).
Proof.
  induction fuel as [|fuel IH]; intros m bufs vd rg Hm [W1 W2 W3 W4 W5 W6] Hk Hc Hc' Hf; cbn [wait_disk];
    unfold buf_get; mgo; change (get_buf (mk_bst _ bufs _ _ _) b) with (gb bufs b); rewrite W3; cbn [Z.eqb negb]; [by apply Hf|].
  destruct (calm_sleep p pid m Lk_vdisk (Ch_disk_buf b) Hm) as (m1 & resume & E & Hres); [by right; left|].
  apply wp_bind. unfold lift at 1. cbn [sub_get sub_machine_bst b_m]. rewrite E. cbn [res_lift Wp.wp]. split; [done|].
  split; [by apply (env_exists _ _ _ _ _ b write bn m)|]. intros s' He.
  destruct (en_calm _ _ _ _ _ _ _ He) as (m' & Em & Hm'). destruct (Hres m' Hm') as (m2 & E2 & Hm2).
  destruct (en_served _ _ _ _ _ _ _ He) as (w & sec & b' & Er & Hke & Hs). cbn in Er. rewrite W5 in Er. injection Er as <- <- <-.
  pose proof (chained_env _ _ He W6) as Hch. pose proof (en_cache _ _ _ _ _ _ _ He) as Hcw.
  destruct s' as [ms bufs' vd' rg' ws']. cbn in Em, Hke, Hs, Hch, Hcw |- *. subst ms. rewrite E2. cbn [res_lift Wp.wp].
  assert (Hk' : keeps bufs0 bufs' b) by (by eapply keeps_trans).
  destruct Hs as [[Hb ->]|(Hsp & Hb & -> & ->)].
  - assert (Ed : buf_data (gb bufs b) = buf_data x) by (by apply (core_eq buf_data _ (set_buf_disk 1 x))).
    assert (Ews : served_ws ws write (2 * bn) (gb bufs b) = served_ws ws write (2 * bn) x) by (unfold served_ws; by rewrite Ed).
    rewrite Ews. split; [done|].
    assert (Ez : buf_disk (gb bufs' b) = 0) by (by rewrite (core_eq buf_disk _ _ (fun _ => eq_refl) Hb)).
    eapply wp_ok; [apply (wait_disk_done fuel b (mk_bst (hold Lk_vdisk m2) bufs' vd' rg' _) Ez)|].
    eexists m2, bufs', vd', rg'. split; [done|]. split; [done|]. split; [by rewrite <- Ews| |done|done].
    rewrite Hb. unfold served_buf. apply (f_equal (set_buf_disk 0)) in W4. destruct write; [done|].
    by apply (f_equal (set_buf_data (disk_at d0 ws (2 * bn)))) in W4.
  - split; [done|]. apply IH; try done. cbn [b_bufs b_vd]. split; try done.
    + destruct W2 as [B1 B2 B3 B4]. split; [done|..].
      * by rewrite (core_eq buf_dev _ _ (fun _ => eq_refl) Hb).
      * by rewrite (core_eq buf_blockno _ _ (fun _ => eq_refl) Hb).
      * by rewrite (core_eq buf_refcnt _ _ (fun _ => eq_refl) Hb).
    + by rewrite (core_eq buf_disk _ _ (fun _ => eq_refl) Hb).
    + by rewrite Hb.
Qed.

(** [virtio_disk_rw] of a buffer that is referred to: the block is on the disk, or in
    the buffer, and the driver is idle again.  The machine may stop at any time. *)
Lemma virtio_disk_rw_wp fuel b write bn ws m bufs vd rg :
  calm m -> cwf bufs ws -> busy bufs b bn -> 0 <= bn < 2 ^ 31 -> vd_idle vd -> (0 < fuel)%nat ->
  crash ws -> crash (served_ws ws write (2 * bn) (gb bufs b)) ->
  wp (fun _ s' => exists m' bufs' vd' rg', s' = mk_bst m' bufs' vd' rg' (served_ws ws write (2 * bn) (gb bufs b)) /\
        calm m' /\ vd_idle vd' /\ cwf bufs' (served_ws ws write (2 * bn) (gb bufs b)) /\
        core (gb bufs' b) = core (served_buf d0 ws write (2 * bn) (gb bufs b)) /\ keeps bufs bufs' b)
     (virtio_disk_rw fuel b write (mk_bst m bufs vd rg ws)).
Proof.
  intros Hm Hc Hb Hbn Hvd Hf Hcr Hcr'. unfold virtio_disk_rw, buf_get. mgo.
  change (get_buf (mk_bst m bufs vd rg ws) b) with (gb bufs b). rewrite (bu_bn _ _ _ Hb).
  replace (u32 (bn * (BSIZE / 512))) with (2 * bn) by (unfold u32; change (BSIZE / 512) with 2; rewrite Z.mod_small; lia).
  assert (Hlk : block_lock Lk_vdisk) by (by right; left).
  eapply wp_bind_ok; [by apply bst_lift, (calm_acquire p pid)|]. destruct fuel as [|fuel]; [lia|].
  eapply wp_bind_ok; [apply alloc3_eq, (vi_free _ Hvd)|]. cbn beta iota.
  eapply wp_bind_ok; [apply virtio_format_eq|].
  pose proof (cwf_length _ _ _ _ Hc) as Hlen. pose proof (bu_lt _ _ _ Hb) as Hblt.
  assert (Gb : gb (ub b (set_buf_disk 1) bufs) b = set_buf_disk 1 (gb bufs b)) by (apply gb_ub_eq; lia).
  eapply wp_call.
  - apply (wait_disk_wp b write bn ws (gb bufs b) bufs); try done; [|by intros i Hi Hne; rewrite gb_ub_ne by done; destruct (decide _)].
    split; rewrite ?Gb; try done.
    + apply cwf_set; try done; [by apply (cw_len _ _ _ _ Hc)|by apply (cw_refs _ _ _ _ Hc)| |].
      * intros D j Hj Hne Hd E. apply Hne. by apply (cw_uniq _ _ _ _ Hc).
      * intros E. by destruct (bu_ref _ _ _ Hb).
    + destruct Hb as [B1 B2 B3 B4]. by split; rewrite ?Gb.
    + destruct Hvd as [V1 V2 V3 V4 V5]. by apply last_request_submit.
    + by apply chained_submit.
  - intros [] s' (m' & bufs' & vd' & rg' & -> & Hm' & [D1 D2 D3 D4]). unfold vd_upd. mgo. cbn [b_vd b_m b_bufs b_regs b_writes set_b_vd].
    destruct (free_chain_eq m' bufs' (set_info_b 0 None vd') rg' (served_ws ws write (2 * bn) (gb bufs b)) Hm') as (m2 & vd2 & Hm2 & Hvd2 & E2).
    { destruct D4 as [C1 C2 C3 C4 C5 C6 C7 C8]. split; try done. cbn. by rewrite length_alter. }
    eapply wp_bind_ok; [exact E2|]. eapply wp_ok; [by apply bst_lift, (calm_release p pid)|].
    eexists _, bufs', vd2, rg'. split; [done|]. split; [by apply calm_settle|]. done.
Qed.
End Driver.
