(* ===== verification/BioSpec.v ===== *)
(** * The buffer cache as a map from block numbers to blocks

    [brep s G ws] describes the block layer between two operations of a process: [G] maps
    the numbers of the blocks that have references to their buffer, the number of
    references, whether the process has locked the buffer, and the data in it; [ws] are
    the writes the disk has seen.  The operations of bio.c change [G] and [ws] as
    their comments say. *)
From stdpp Require Import gmap list strings.
From S2P Require Import Prelude Kstring Abi Machine Spinlock Kalloc Vm Proc Sched Sleeplock Virtio Bio Wp BioList BlockEnv VirtioSpec.

Record entry := mk_entry { e_buf : nat; e_refs : Z; e_held : bool; e_data : list Z }.

(** Buffer [x] is as the entry of block [bn] says. *)
Record holds (dev pid bn : Z) (e : entry) (x : buf) : Prop := {
  ho_dev : buf_dev x = dev;
  ho_bn : buf_blockno x = bn;
  ho_valid : buf_valid x <> 0;
  ho_refs : buf_refcnt x = e_refs e /\ 0 < e_refs e;
  ho_data : buf_data x = e_data e;
  ho_lock : sl_locked (buf_lock x) = (if e_held e then 1 else 0) /\ (e_held e = true -> sl_pid (buf_lock x) = pid)
}.

Lemma holds_core dev pid bn e x y : core x = core y -> holds dev pid bn e x -> holds dev pid bn e y.
Proof.
  intros E [H1 H2 H3 H4 H5 H6]. split.
  - by rewrite <- (core_eq buf_dev x y).
  - by rewrite <- (core_eq buf_blockno x y).
  - by rewrite <- (core_eq buf_valid x y).
  - by rewrite <- (core_eq buf_refcnt x y).
  - by rewrite <- (core_eq buf_data x y).
  - by rewrite <- (core_eq buf_lock x y).
Qed.

Record arep (dev pid : Z) (bufs : list buf) (G : gmap Z entry) : Prop := {
  ar_entry : forall bn e, G !! bn = Some e -> (e_buf e < HEAD)%nat /\ holds dev pid bn e (gb bufs (e_buf e));
  ar_refs : forall i, (i < HEAD)%nat -> buf_refcnt (gb bufs i) <> 0 -> exists e, G !! buf_blockno (gb bufs i) = Some e /\ e_buf e = i
}.

Section Arep.
Variables (dev pid : Z).
Notation arep := (arep dev pid).

(** A change of buffer [b], the only one that can hold [bn]. *)
Lemma arep_insert bufs bufs' G b bn e :
  arep bufs G -> (b < HEAD)%nat ->
  (buf_refcnt (gb bufs b) = 0 /\ G !! bn = None \/ exists e0, G !! bn = Some e0 /\ e_buf e0 = b) ->
  keeps bufs bufs' b -> e_buf e = b -> holds dev pid bn e (gb bufs' b) ->
  arep bufs' (<[bn := e]> G).
Proof.
  intros [H1 H2] Hb Hfree Hk Eb Hh. split.
  - intros bn' e' He. apply lookup_insert_Some in He as [[<- <-]|[Hne He]]; [by rewrite Eb|].
    destruct (H1 bn' e' He) as [Hlt Hx]. split; [done|]. apply holds_core with (gb bufs (e_buf e')); [|done].
    destruct (decide (e_buf e' = b)) as [E|E].
    + exfalso. destruct Hfree as [[Hz _]|(e0 & He0 & Eb0)].
      * destruct Hx as [_ _ _ [X1 X2] _ _]. rewrite E in X1. lia.
      * destruct (H1 bn e0 He0) as [_ Hx0]. rewrite Eb0, <- E in Hx0.
        apply Hne. by rewrite <- (ho_bn _ _ _ _ _ Hx), <- (ho_bn _ _ _ _ _ Hx0).
    + specialize (Hk _ Hlt E). rewrite decide_False in Hk; [done|]. destruct Hx as [_ _ _ [X1 X2] _ _]. lia.
  - intros i Hi Hr. destruct (decide (i = b)) as [->|Hne].
    + exists e. by rewrite (ho_bn _ _ _ _ _ Hh), lookup_insert_eq.
    + specialize (Hk i Hi Hne). destruct (decide _) as [|Hr0]; [done|].
      destruct (H2 i Hi Hr0) as (e' & He' & Ei). exists e'. rewrite (core_eq buf_blockno _ _ (fun _ => eq_refl) Hk). split; [|done].
      rewrite lookup_insert_ne; [done|]. intros ->. destruct Hfree as [[_ Hn]|(e0 & He0 & Eb0)]; congruence.
Qed.

Lemma arep_delete bufs bufs' G b bn e :
  arep bufs G -> G !! bn = Some e -> e_buf e = b -> keeps bufs bufs' b -> buf_refcnt (gb bufs' b) = 0 -> arep bufs' (delete bn G).
Proof.
  intros [H1 H2] Hg Eb Hk Hz. split.
  - intros bn' e' He. apply lookup_delete_Some in He as [Hne He]. destruct (H1 bn' e' He) as [Hlt Hx]. split; [done|].
    apply holds_core with (gb bufs (e_buf e')); [|done].
    assert (E : e_buf e' <> b).
    { intros E. destruct (H1 bn e Hg) as [_ Hx0]. rewrite Eb, <- E in Hx0. apply Hne.
      by rewrite <- (ho_bn _ _ _ _ _ Hx), <- (ho_bn _ _ _ _ _ Hx0). }
    specialize (Hk _ Hlt E). rewrite decide_False in Hk; [done|]. destruct Hx as [_ _ _ [X1 X2] _ _]. lia.
  - intros i Hi Hr. destruct (decide (i = b)) as [->|Hne]; [done|].
    specialize (Hk i Hi Hne). destruct (decide _) as [|Hr0]; [done|].
    destruct (H2 i Hi Hr0) as (e' & He' & Ei). exists e'. rewrite (core_eq buf_blockno _ _ (fun _ => eq_refl) Hk). split; [|done].
    rewrite lookup_delete_ne; [done|]. intros ->. congruence.
Qed.

(** With fewer entries than buffers, a buffer has no references. *)
Lemma arep_room bufs G : arep bufs G -> (size G < HEAD)%nat -> exists i, (i < HEAD)%nat /\ buf_refcnt (gb bufs i) = 0.
Proof.
  intros [_ H2] Hs. destruct (decide (Exists (fun i => buf_refcnt (gb bufs i) = 0) (seq 0 HEAD))) as [He|He].
  - apply Exists_exists in He as (i & Hi & E). apply elem_of_seq in Hi. exists i. split; [lia|done].
  - exfalso. apply not_Exists_Forall in He; [|tc_solve]. rewrite Forall_forall in He.
    assert (Hn : forall i, (i < HEAD)%nat -> buf_refcnt (gb bufs i) <> 0) by (intros i Hi; apply He, elem_of_seq; lia).
    set (l := (fun i => buf_blockno (gb bufs i)) <$> seq 0 HEAD).
    assert (Hnd : NoDup l).
    { apply NoDup_fmap_2_strong; [|apply NoDup_seq]. intros i j Hi Hj E. apply elem_of_seq in Hi, Hj.
      destruct (H2 i ltac:(lia) (Hn i ltac:(lia))) as (e1 & E1 & <-). destruct (H2 j ltac:(lia) (Hn j ltac:(lia))) as (e2 & E2 & <-). congruence. }
    assert (Hsub : list_to_set (C := gset Z) l ⊆ dom G).
    { intros bn Hbn. apply elem_of_list_to_set in Hbn. apply list_elem_of_fmap in Hbn as (i & -> & Hi). apply elem_of_seq in Hi.
      destruct (H2 i ltac:(lia) (Hn i ltac:(lia))) as (e1 & E1 & _). apply elem_of_dom. eauto. }
    apply subseteq_size in Hsub. rewrite size_list_to_set, size_dom in Hsub by done. unfold l in Hsub. rewrite length_fmap, length_seq in Hsub. lia.
Qed.
End Arep.

Section Bio.
Variables (d0 : Z -> list Z) (dev : Z) (p : nat) (pid : Z) (spurious : Prop) (crash : list (Z * list Z) -> Prop).
Notation calm := (calm p pid).
Notation cwf := (cwf d0 dev).
Notation arep := (arep dev pid).
Notation wp := (wp spurious (env d0 dev p pid spurious) (fun s => crash (b_writes s))).

(** ** Sleep locks of buffers *)

Definition lock_taken (x : buf) : buf := set_buf_lock (set_sl_pid pid (set_sl_locked 1 (buf_lock x))) x.
Definition lock_left (x : buf) : buf := set_buf_lock (set_sl_pid 0 (set_sl_locked 0 (buf_lock x))) x.

Lemma ub_ub i f g bufs : (i < length bufs)%nat -> ub i f (ub i g bufs) = ub i (fun x => f (g x)) bufs.
Proof. intros H. unfold ub at 1. rewrite gb_ub_eq by done. unfold ub. by rewrite list_insert_insert_eq. Qed.

Lemma buf_lock_block i : (i < HEAD)%nat -> block_lock (Lk_buf i).
Proof. intros H. do 3 right. left. eauto. Qed.

Lemma acquiresleep_eq fuel i m bufs vd rg ws :
  calm m -> (i < HEAD)%nat -> length bufs = S HEAD -> sl_locked (buf_lock (gb bufs i)) = 0 ->
  acquiresleep fuel (buf_sl i) (mk_bst m bufs vd rg ws) = Ok tt (mk_bst (settle m) (ub i lock_taken bufs) vd rg ws).
Proof.
  intros Hm Hi Hl Hu. unfold acquiresleep. cbn [buf_sl sl_lk]. pose proof (buf_lock_block i Hi) as Hb.
  erewrite bind_ok by (by apply bst_lift, (calm_acquire p pid)).
  assert (E : acquiresleep_loop fuel (buf_sl i) (mk_bst (hold (Lk_buf i) m) bufs vd rg ws) = Ok tt (mk_bst (hold (Lk_buf i) m) bufs vd rg ws)).
  { destruct fuel; cbn [acquiresleep_loop]; mgo; cbn; change (get_buf (mk_bst _ bufs vd rg ws) i) with (gb bufs i); by rewrite Hu. }
  erewrite bind_ok by exact E. unfold sl_upd. mgo. cbn [buf_sl sl_set sl_get].
  change (upd_buf i ?f (mk_bst ?a bufs vd rg ws)) with (mk_bst a (ub i f bufs) vd rg ws).
  erewrite bind_ok by (by apply bst_lift, (calm_curproc p pid)).
  erewrite bind_ok by (apply bst_lift; reflexivity). mgo. rewrite get_proc_hold, (ca_pid _ _ _ Hm).
  change (upd_buf i ?f (mk_bst ?a ?bs vd rg ws)) with (mk_bst a (ub i f bs) vd rg ws).
  change (get_buf (mk_bst _ ?bs vd rg ws) i) with (gb bs i).
  erewrite bst_lift by (by apply (calm_release p pid)). f_equal. f_equal.
  rewrite gb_ub_eq by lia. rewrite ub_ub by lia. unfold ub, lock_taken. done.
Qed.

Lemma releasesleep_eq i m bufs vd rg ws :
  calm m -> (i < HEAD)%nat -> length bufs = S HEAD ->
  exists m', calm m' /\ releasesleep (buf_sl i) (mk_bst m bufs vd rg ws) = Ok tt (mk_bst m' (ub i lock_left bufs) vd rg ws).
Proof.
  intros Hm Hi Hl. pose proof (buf_lock_block i Hi) as Hb.
  destruct (calm_wakeup p pid m (Lk_buf i) (Some (Ch_sleep_buf i)) Hm Hb) as (m' & E & Hm').
  exists (settle m'). split; [by apply calm_settle|]. unfold releasesleep. cbn [buf_sl sl_lk sl_chan].
  erewrite bind_ok by (by apply bst_lift, (calm_acquire p pid)). unfold sl_upd. mgo. cbn [buf_sl sl_set sl_get].
  change (upd_buf i ?f (mk_bst ?a ?bs vd rg ws)) with (mk_bst a (ub i f bs) vd rg ws).
  change (upd_buf i ?f (mk_bst ?a ?bs vd rg ws)) with (mk_bst a (ub i f bs) vd rg ws).
  change (get_buf (mk_bst _ ?bs vd rg ws) i) with (gb bs i).
  erewrite bind_ok by (apply bst_lift, E). erewrite bst_lift by (by apply (calm_release p pid)). f_equal. f_equal.
  rewrite gb_ub_eq by lia. rewrite ub_ub by lia. unfold ub, lock_left. done.
Qed.

Lemma holdingsleep_eq i m bufs vd rg ws :
  calm m -> (i < HEAD)%nat -> sl_locked (buf_lock (gb bufs i)) = 1 -> sl_pid (buf_lock (gb bufs i)) = pid ->
  holdingsleep (buf_sl i) (mk_bst m bufs vd rg ws) = Ok true (mk_bst (settle m) bufs vd rg ws).
Proof.
  intros Hm Hi H1 H2. unfold holdingsleep. cbn [buf_sl sl_lk]. pose proof (buf_lock_block i Hi) as Hb.
  erewrite bind_ok by (by apply bst_lift, (calm_acquire p pid)). mgo.
  change (sl_get (buf_sl i) (mk_bst _ bufs vd rg ws)) with (buf_lock (gb bufs i)). rewrite H1, H2. cbn [Z.eqb].
  erewrite bind_ok.
  2: { erewrite bind_ok by (by apply bst_lift, (calm_curproc p pid)).
       erewrite bind_ok by (apply bst_lift; reflexivity). rewrite get_proc_hold, (ca_pid _ _ _ Hm), Z.eqb_refl. reflexivity. }
  by erewrite bind_ok by (by apply bst_lift, (calm_release p pid)).
Qed.

(** ** Critical sections of the cache *)

Lemma bcache_block : block_lock Lk_bcache.
Proof. by left. Qed.

(** A change of one buffer under the lock of the cache. *)
Lemma bcache_section b f m bufs vd rg ws :
  calm m ->
  (lift (acquire Lk_bcache) ;;; buf_set b f ;;; lift (release Lk_bcache)) (mk_bst m bufs vd rg ws) =
  Ok tt (mk_bst (settle m) (ub b f bufs) vd rg ws).
Proof.
  intros Hm. erewrite bind_ok by (by apply bst_lift, (calm_acquire p pid _ _ Hm bcache_block)). unfold buf_set. mgo.
  change (upd_buf b ?f (mk_bst ?a ?bs vd rg ws)) with (mk_bst a (ub b f bs) vd rg ws).
  by erewrite bst_lift by (by apply (calm_release p pid _ _ Hm bcache_block)).
Qed.

(** ** bget *)

Definition refs_of (G : gmap Z entry) (bn : Z) : Z := from_option e_refs 0 (G !! bn).
Definition view (G : gmap Z entry) (ws : list (Z * list Z)) (bn : Z) : list Z := from_option e_data (dblock d0 ws bn) (G !! bn).

(** [bn] is not locked, and there is a buffer for it. *)
Definition can_get (G : gmap Z entry) (bn : Z) : Prop :=
  match G !! bn with Some e => e_held e = false /\ e_refs e + 1 < 2 ^ 31 | None => (size G < HEAD)%nat end.

(** Buffer [b] after [bget]. *)
Record got (bufs bufs' : list buf) (G : gmap Z entry) (ws : list (Z * list Z)) (bn : Z) (b : nat) : Prop := {
  go_cache : cwf bufs' ws;
  go_lt : (b < HEAD)%nat;
  go_keeps : keeps bufs bufs' b;
  go_owner : buf_refcnt (gb bufs b) = 0 /\ G !! bn = None \/ exists e, G !! bn = Some e /\ e_buf e = b;
  go_dev : buf_dev (gb bufs' b) = dev;
  go_bn : buf_blockno (gb bufs' b) = bn;
  go_refs : buf_refcnt (gb bufs' b) = refs_of G bn + 1;
  go_lock : sl_locked (buf_lock (gb bufs' b)) = 1 /\ sl_pid (buf_lock (gb bufs' b)) = pid;
  go_data : buf_valid (gb bufs' b) <> 0 -> buf_data (gb bufs' b) = view G ws bn;
  go_none : buf_valid (gb bufs' b) = 0 -> G !! bn = None
}.

(** The buffer with the block. *)
Lemma owner_of bufs G ws bn b :
  cwf bufs ws -> arep bufs G -> (b < HEAD)%nat -> buf_dev (gb bufs b) = dev -> buf_blockno (gb bufs b) = bn ->
  (buf_refcnt (gb bufs b) = 0 /\ G !! bn = None) \/ exists e, G !! bn = Some e /\ e_buf e = b /\ holds dev pid bn e (gb bufs b).
Proof.
  intros Hc [H1 H2] Hb Hd Hn. destruct (Z.eq_dec (buf_refcnt (gb bufs b)) 0) as [E|E].
  - left. split; [done|]. destruct (G !! bn) as [e|] eqn:Eg; [|done]. exfalso.
    destruct (H1 bn e Eg) as [Hlt [X1 X2 _ [X3 X4] _ _]].
    assert (e_buf e = b) as Eb by (apply (cw_uniq _ _ _ _ Hc); congruence). rewrite Eb in X3. lia.
  - right. destruct (H2 b Hb E) as (e & Eg & Eb). rewrite Hn in Eg. exists e. destruct (H1 bn e Eg) as [_ Hx]. by rewrite Eb in Hx.
Qed.

Lemma keeps_ub b f bufs : keeps bufs (ub b f bufs) b.
Proof. intros i Hi Hne. rewrite gb_ub_ne by done. by destruct (decide _). Qed.

(** A change that makes [b] hold block [bn] for this process. *)
Lemma got_ub bufs G ws bn b f :
  cwf bufs ws -> (b < HEAD)%nat ->
  (buf_refcnt (gb bufs b) = 0 /\ G !! bn = None \/ exists e, G !! bn = Some e /\ e_buf e = b) ->
  (forall x, buf_prev (f x) = buf_prev x /\ buf_next (f x) = buf_next x) -> buf_data (f (gb bufs b)) = buf_data (gb bufs b) ->
  buf_dev (f (gb bufs b)) = dev -> buf_blockno (f (gb bufs b)) = bn ->
  (forall j, (j < HEAD)%nat -> j <> b -> buf_dev (gb bufs j) = dev -> buf_blockno (gb bufs j) <> bn) ->
  buf_refcnt (f (gb bufs b)) = refs_of G bn + 1 -> 0 < refs_of G bn + 1 < 2 ^ 31 ->
  (buf_valid (f (gb bufs b)) <> 0 -> buf_data (gb bufs b) = view G ws bn) ->
  (buf_valid (f (gb bufs b)) = 0 -> G !! bn = None) ->
  got bufs (ub b (fun x => lock_taken (f x)) bufs) G ws bn b.
Proof.
  intros Hc Hb Ho Hl Hd Hdev Hbn Hu Hr Hr' Hv Hn. pose proof (cwf_length _ _ _ _ Hc) as Hlen.
  assert (Eb : gb (ub b (fun x => lock_taken (f x)) bufs) b = lock_taken (f (gb bufs b))) by (apply gb_ub_eq; lia).
  split; rewrite ?Eb; try done.
  - apply cwf_set; cbn [lock_taken set_buf_lock buf_prev buf_next buf_data buf_refcnt buf_dev buf_blockno]; try done.
    + rewrite Hd. by apply (cw_len _ _ _ _ Hc).
    + rewrite Hr. lia.
    + intros _ j Hj Hne Hdj. rewrite Hbn. by apply Hu.
    + rewrite Hr. lia.
  - apply keeps_ub.
  - cbn. intros Hv'. rewrite Hd. by apply Hv.
Qed.

Lemma find_rev_some {A} (f : A -> bool) l x : x ∈ l -> f x = true -> exists y, find f (rev l) = Some y /\ y ∈ l /\ f y = true.
Proof.
  intros Hx Hf. destruct (find f (rev l)) as [y|] eqn:E.
  - exists y. apply find_some in E as [H1 H2]. split; [done|]. split; [|done]. by apply list_elem_of_In, in_rev.
  - exfalso. pose proof (find_none f (rev l) E x) as H. rewrite H in Hf; [done|]. apply in_rev. rewrite rev_involutive. by apply list_elem_of_In.
Qed.

(** The buffer of a block that can be had. *)
Lemma cached_facts bufs G ws bn b : cwf bufs ws -> arep bufs G -> can_get G bn -> (b < HEAD)%nat -> buf_dev (gb bufs b) = dev -> buf_blockno (gb bufs b) = bn ->
  buf_refcnt (gb bufs b) = refs_of G bn /\ 0 <= refs_of G bn /\ refs_of G bn + 1 < 2 ^ 31 /\ sl_locked (buf_lock (gb bufs b)) = 0 /\
  (buf_valid (gb bufs b) <> 0 -> buf_data (gb bufs b) = view G ws bn) /\ (buf_valid (gb bufs b) = 0 -> G !! bn = None).
Proof.
  intros Hc Ha Hg Hb Hd Hbn. pose proof (owner_of bufs G ws bn b Hc Ha Hb Hd Hbn) as Ho. unfold refs_of, view, can_get in *.
  destruct Ho as [[Hz Hn]|(e & He & Eb & [X1 X2 X3 [X4 X5] X6 [X7 _]])].
  - rewrite Hn. cbn. destruct (cw_free _ _ _ _ Hc b Hb Hz) as [Y1 Y2]. rewrite Hbn in Y2. repeat split; try lia; auto.
  - rewrite He in *. destruct Hg as [Hg1 Hg2]. rewrite Hg1 in X7. cbn. repeat split; try lia; auto.
Qed.

(** When no buffer has the block, one is unused. *)
Lemma uncached_facts bufs G bn l : arep bufs G -> can_get G bn -> (forall j, j ∈ l <-> (j < HEAD)%nat) -> find (cached bufs dev bn) l = None ->
  (forall j, (j < HEAD)%nat -> buf_dev (gb bufs j) = dev -> buf_blockno (gb bufs j) <> bn) /\ G !! bn = None /\
  exists b, find (unused bufs) (rev l) = Some b /\ (b < HEAD)%nat /\ buf_refcnt (gb bufs b) = 0.
Proof.
  intros Ha Hg Hin Efind. assert (Hno : forall j, (j < HEAD)%nat -> buf_dev (gb bufs j) = dev -> buf_blockno (gb bufs j) <> bn).
  { intros j Hj Hd Hb. apply Hin in Hj. pose proof (find_none _ _ Efind j) as H. unfold cached in H. rewrite Hd, Hb, !Z.eqb_refl in H.
    discriminate H. by apply list_elem_of_In. }
  assert (Hgn : G !! bn = None).
  { destruct (G !! bn) as [e|] eqn:Eg; [|done]. destruct (ar_entry _ _ _ _ Ha bn e Eg) as [Hlt [X1 X2 _ _ _ _]]. by destruct (Hno _ Hlt X1). }
  split; [done|]. split; [done|]. unfold can_get in Hg. rewrite Hgn in Hg. destruct (arep_room _ _ _ _ Ha Hg) as (i & Hi & Hz).
  destruct (find_rev_some (unused bufs) l i) as (b & Efu & Hb & Hub); [by apply Hin|unfold unused; by rewrite Hz|]. exists b. split; [done|]. split; [by apply Hin|by apply Z.eqb_eq].
Qed.

Lemma bget_eq fuel m bufs vd rg ws G bn :
  calm m -> cwf bufs ws -> arep bufs G -> can_get G bn ->
  exists b m' bufs', bget fuel dev bn (mk_bst m bufs vd rg ws) = Ok b (mk_bst m' bufs' vd rg ws) /\ calm m' /\ got bufs bufs' G ws bn b.
Proof.
  intros Hm Hc Ha Hg. pose proof (cwf_length _ _ _ _ Hc) as Hlen. destruct (cw_ring _ _ _ _ Hc) as [l Hr].
  destruct (ring_nodup _ _ Hr) as (Hnd & Hh & Hin). pose proof (ring_links _ _ Hr) as Hl.
  assert (Hll : (length l <= Z.to_nat NBUF)%nat) by (rewrite (ring_perm _ _ Hr), length_seq; done).
  unfold bget. erewrite bind_ok by (by apply bst_lift, (calm_acquire p pid _ _ Hm bcache_block)).
  unfold buf_get. mgo. change (get_buf (mk_bst _ bufs vd rg ws) ?i) with (gb bufs i).
  assert (Ef : buf_next (gb bufs HEAD) = first_of l) by (destruct l; cbn in Hl; naive_solver). rewrite Ef.
  erewrite bind_ok by (by apply (bget_cached_eq dev bn (mk_bst _ bufs vd rg ws) l _ HEAD)). cbn [b_bufs].
  destruct (find (cached bufs dev bn) l) as [b|] eqn:Efind.
  - apply find_some in Efind as [Hb Hcb]. apply list_elem_of_In, Hin in Hb. unfold cached in Hcb.
    apply andb_true_iff in Hcb as [Hd Hbn]. apply Z.eqb_eq in Hd, Hbn.
    assert (Ho := owner_of bufs G ws bn b Hc Ha Hb Hd Hbn). destruct (cached_facts bufs G ws bn b Hc Ha Hg Hb Hd Hbn) as (X1 & X2 & X3 & X4 & X5 & X6). unfold buf_set. mgo.
    change (upd_buf b ?f (mk_bst ?a ?bs vd rg ws)) with (mk_bst a (ub b f bs) vd rg ws).
    erewrite bind_ok by (apply bst_lift, (calm_release p pid _ _ Hm bcache_block)).
    erewrite bind_ok.
    2:{ apply acquiresleep_eq; [by apply calm_settle|done|by rewrite length_ub|]. by rewrite gb_ub_eq by lia. }
    rewrite ub_ub by lia. eexists b, _, _. split; [reflexivity|]. split; [by apply calm_settle, calm_settle|].
    apply (got_ub bufs G ws bn b (fun x => set_buf_refcnt (u32 (buf_refcnt x + 1)) x)); try done.
    + destruct Ho as [?|(e & ? & ? & _)]; eauto.
    + intros j Hj Hne Hdj E. apply Hne. apply (cw_uniq _ _ _ _ Hc); congruence.
    + cbn. rewrite X1. unfold u32. rewrite Z.mod_small by lia. done.
    + lia.
  - destruct (uncached_facts bufs G bn l Ha Hg Hin Efind) as (Hno & Hgn & b & Efu & Hb & Hub). mgo. change (get_buf (mk_bst _ bufs vd rg ws) ?i) with (gb bufs i).
    erewrite bind_ok by (apply (bget_unused_eq (mk_bst _ bufs vd rg ws) l (Z.to_nat NBUF) HEAD); done). cbn [b_bufs]. rewrite Efu.
    unfold buf_set. mgo. change (upd_buf b ?f (mk_bst ?a ?bs vd rg ws)) with (mk_bst a (ub b f bs) vd rg ws).
    do 3 change (upd_buf b ?f (mk_bst ?a ?bs vd rg ws)) with (mk_bst a (ub b f bs) vd rg ws).
    erewrite bind_ok by (apply bst_lift, (calm_release p pid _ _ Hm bcache_block)).
    rewrite !ub_ub by (rewrite ?length_ub; lia).
    erewrite bind_ok.
    2:{ apply acquiresleep_eq; [by apply calm_settle|done|by rewrite length_ub|]. rewrite gb_ub_eq by lia.
        apply (cw_free _ _ _ _ Hc b Hb Hub). }
    rewrite ub_ub by lia. eexists b, _, _. split; [reflexivity|]. split; [by apply calm_settle, calm_settle|].
    apply (got_ub bufs G ws bn b (fun x => set_buf_refcnt 1 (set_buf_valid 0 (set_buf_blockno bn (set_buf_dev dev x))))); try done; auto.
    + cbn. unfold refs_of. by rewrite Hgn.
    + unfold refs_of. rewrite Hgn. cbn. lia.
Qed.

(** ** The block layer between two operations *)

Record brep (s : bst) (G : gmap Z entry) (ws : list (Z * list Z)) : Prop := {
  br_calm : calm (b_m s);
  br_cache : cwf (b_bufs s) ws;
  br_rep : arep (b_bufs s) G;
  br_idle : vd_idle (b_vd s);
  br_ws : b_writes s = ws
}.

Lemma refs_of_pos bufs G bn : arep bufs G -> 0 < refs_of G bn + 1.
Proof.
  intros Ha. unfold refs_of. destruct (G !! bn) as [e|] eqn:Eg; cbn; [|lia].
  destruct (ar_entry _ _ _ _ Ha bn e Eg) as [_ [_ _ _ [_ X] _ _]]. lia.
Qed.

Lemma bread_end bufs bufs1 bufs2 G ws bn b m vd rg e :
  arep bufs G -> got bufs bufs1 G ws bn b -> keeps bufs1 bufs2 b -> cwf bufs2 ws -> e_buf e = b ->
  holds dev pid bn e (gb bufs2 b) -> calm m -> vd_idle vd -> brep (mk_bst m bufs2 vd rg ws) (<[bn := e]> G) ws.
Proof.
  intros Ha [G1 G2 G3 G4 _ _ _ _ _ _] Hk Hc Eb Hh Hm Hi. split; cbn; try done.
  apply (arep_insert dev pid bufs bufs2 G b bn e); try done. by eapply keeps_trans.
Qed.

Lemma bread_wp fuel s G ws bn :
  brep s G ws -> can_get G bn -> 0 <= bn < 2 ^ 31 -> (0 < fuel)%nat -> crash ws ->
  wp (fun b s' => brep s' (<[bn := mk_entry b (refs_of G bn + 1) true (view G ws bn)]> G) ws) (bread fuel dev bn s).
Proof.
  intros [Hm Hc Ha Hi Hw] Hg Hbn Hf Hcr. destruct s as [m bufs vd rg ws']. cbn in *. subst ws'.
  destruct (bget_eq fuel m bufs vd rg ws G bn Hm Hc Ha Hg) as (b & m1 & bufs1 & E & Hm1 & Hgot). unfold bread.
  eapply wp_bind_ok; [exact E|]. unfold buf_get. mgo. change (get_buf (mk_bst _ bufs1 vd rg ws) b) with (gb bufs1 b).
  pose proof (go_refs _ _ _ _ _ _ Hgot) as Hrefs.
  assert (Hpos : 0 < refs_of G bn + 1) by (by apply refs_of_pos with bufs).
  destruct (Z.eqb_spec (buf_valid (gb bufs1 b)) 0) as [Hv|Hv]; cbn [when].
  - assert (Hv' : view G ws bn = disk_at d0 ws (2 * bn)) by (unfold view; by rewrite (go_none _ _ _ _ _ _ Hgot Hv)).
    apply wp_bind. eapply wp_call.
    + eapply (virtio_disk_rw_wp d0 dev p pid spurious crash fuel b false bn); try done; [apply (go_cache _ _ _ _ _ _ Hgot)|].
      destruct Hgot as [_ G2 _ _ G5 G6 _ _ _ _]. split; try done. lia.
    + intros [] s' (m2 & bufs2 & vd2 & rg2 & -> & Hm2 & Hi2 & Hc2 & Hb2 & Hk2). unfold buf_set, modify, ret. cbn [Wp.wp].
      change (upd_buf b ?f (mk_bst ?a ?bs vd2 rg2 _)) with (mk_bst a (ub b f bs) vd2 rg2 ws). cbn [served_ws] in *.
      pose proof (cwf_length _ _ _ _ Hc2) as Hlen. pose proof (go_lt _ _ _ _ _ _ Hgot) as Hlt.
      assert (Hh : holds dev pid bn (mk_entry b (refs_of G bn + 1) true (view G ws bn)) (gb (ub b (set_buf_valid 1) bufs2) b)).
      { rewrite gb_ub_eq by lia. apply holds_core with (set_buf_valid 1 (served_buf d0 ws false (2 * bn) (gb bufs1 b))).
        - apply (f_equal (set_buf_valid 1)) in Hb2. by symmetry.
        - destruct Hgot as [_ _ _ _ G5 G6 G7 [G8 G9] _ _]. by split. }
      eapply bread_end; try done.
      * eapply keeps_trans; [exact Hk2|apply keeps_ub].
      * rewrite gb_ub_eq in Hh by lia. destruct Hh as [X1 X2 _ [X3 _] _ _].
        apply cwf_set; try done; [by apply (cw_len _ _ _ _ Hc2)|by apply (cw_refs _ _ _ _ Hc2)| |].
        -- intros _ j Hj Hne Hd E2. apply Hne. apply (cw_uniq _ _ _ _ Hc2); done.
        -- cbn in X3. cbn. lia.
  - mgo. cbn [Wp.wp ret]. eapply bread_end; try done; [apply keeps_refl|apply (go_cache _ _ _ _ _ _ Hgot)|].
    pose proof (go_data _ _ _ _ _ _ Hgot Hv) as Hd. destruct Hgot as [_ _ _ _ G5 G6 G7 [G8 G9] _ _]. by split.
Qed.

(** ** Blocks that have references *)

Lemma brep_entry s G ws bn e : brep s G ws -> G !! bn = Some e -> (e_buf e < HEAD)%nat /\ holds dev pid bn e (get_buf s (e_buf e)).
Proof. intros H. apply (ar_entry _ _ _ _ (br_rep _ _ _ H)). Qed.

(** A change of the buffer of block [bn]. *)
Lemma brep_upd m m' bufs vd rg ws G bn e e' f :
  brep (mk_bst m bufs vd rg ws) G ws -> G !! bn = Some e -> calm m' -> e_buf e' = e_buf e ->
  (forall x, buf_prev (f x) = buf_prev x /\ buf_next (f x) = buf_next x) ->
  holds dev pid bn e' (f (gb bufs (e_buf e))) -> Z.of_nat (length (e_data e')) = BSIZE -> e_refs e' < 2 ^ 31 ->
  brep (mk_bst m' (ub (e_buf e) f bufs) vd rg ws) (<[bn := e']> G) ws.
Proof.
  intros [Hm Hc Ha Hi Hw] Hg Hm' Eb Hl Hh Hd Hr. cbn in *. destruct (ar_entry _ _ _ _ Ha bn e Hg) as [Hlt Hx].
  pose proof (cwf_length _ _ _ _ Hc) as Hlen. destruct Hh as [X1 X2 X3 [X4 X5] X6 X7]. split; cbn; try done.
  - apply cwf_set; try done; [by rewrite X6|rewrite X4; lia| |lia].
    intros _ j Hj Hne Hdj E. apply Hne. destruct Hx as [Y1 Y2 _ _ _ _]. apply (cw_uniq _ _ _ _ Hc); congruence.
  - apply (arep_insert dev pid bufs _ G (e_buf e) bn e'); try done; [by right; exists e|apply keeps_ub|]. by rewrite gb_ub_eq by lia.
Qed.

Lemma brep_data_length s G ws bn e : brep s G ws -> G !! bn = Some e -> Z.of_nat (length (e_data e)) = BSIZE /\ 0 < e_refs e < 2 ^ 31.
Proof.
  intros [Hm Hc Ha Hi Hw] Hg. destruct (ar_entry _ _ _ _ Ha bn e Hg) as [Hlt [_ _ _ [X1 X2] X3 _]].
  pose proof (cw_len _ _ _ _ Hc _ Hlt). pose proof (cw_refs _ _ _ _ Hc _ Hlt). rewrite X3 in *. split; [done|lia].
Qed.

(** The process changes the data of a buffer it has locked. *)
Lemma brep_set_data s G ws bn e v :
  brep s G ws -> G !! bn = Some e -> Z.of_nat (length v) = BSIZE ->
  brep (upd_buf (e_buf e) (set_buf_data v) s) (<[bn := mk_entry (e_buf e) (e_refs e) (e_held e) v]> G) ws.
Proof.
  intros H Hg Hv. destruct (brep_data_length _ _ _ _ _ H Hg) as [_ Hr]. destruct (brep_entry _ _ _ _ _ H Hg) as [_ Hx].
  destruct s as [m bufs vd rg ws']. pose proof (br_ws _ _ _ H) as E. cbn in E. subst ws'.
  apply (brep_upd m m bufs vd rg ws G bn e); try done; [by apply br_calm in H| |cbn; lia].
  destruct Hx as [X1 X2 X3 X4 X5 X6]. by split.
Qed.

Lemma bwrite_wp fuel s G ws bn e :
  brep s G ws -> G !! bn = Some e -> e_held e = true -> 0 <= bn < 2 ^ 31 -> (0 < fuel)%nat ->
  crash ws -> crash (ws ++ [(2 * bn, e_data e)]) ->
  wp (fun _ s' => brep s' G (ws ++ [(2 * bn, e_data e)])) (bwrite fuel (e_buf e) s).
Proof.
  intros H Hg He Hbn Hf Hcr Hcr'. destruct (brep_entry _ _ _ _ _ H Hg) as [Hlt Hx].
  destruct H as [Hm Hc Ha Hi Hw]. destruct s as [m bufs vd rg ws']. cbn in *. subst ws'.
  change (get_buf (mk_bst m bufs vd rg ws) (e_buf e)) with (gb bufs (e_buf e)) in Hx.
  pose proof (ho_lock _ _ _ _ _ Hx) as [L1 L2]. rewrite He in L1. specialize (L2 He).
  unfold bwrite. eapply wp_bind_ok; [by apply holdingsleep_eq|]. cbn [negb].
  assert (Ed : served_ws ws true (2 * bn) (gb bufs (e_buf e)) = ws ++ [(2 * bn, e_data e)]).
  { unfold served_ws. by rewrite (ho_data _ _ _ _ _ Hx). }
  eapply wp_mono.
  - apply (virtio_disk_rw_wp d0 dev p pid spurious crash fuel (e_buf e) true bn); try done; [by apply calm_settle| |by rewrite Ed].
    destruct Hx as [X1 X2 _ [X3 X4] _ _]. split; try done. lia.
  - intros [] s' (m2 & bufs2 & vd2 & rg2 & -> & Hm2 & Hi2 & Hc2 & Hb2 & Hk2). rewrite Ed in *. split; cbn; try done.
    rewrite <- (insert_id G bn e Hg). apply (arep_insert dev pid bufs bufs2 G (e_buf e) bn e); try done; [by right; exists e|].
    apply holds_core with (served_buf d0 ws true (2 * bn) (gb bufs (e_buf e))); [done|]. destruct Hx as [X1 X2 X3 X4 X5 X6]. by split.
Qed.

Definition pinned (G : gmap Z entry) (bn : Z) (e : entry) (k : Z) : gmap Z entry :=
  <[bn := mk_entry (e_buf e) (e_refs e + k) (e_held e) (e_data e)]> G.

Lemma bpin_eq s G ws bn e :
  brep s G ws -> G !! bn = Some e -> e_refs e + 1 < 2 ^ 31 ->
  exists s', bpin (e_buf e) s = Ok tt s' /\ brep s' (pinned G bn e 1) ws.
Proof.
  intros H Hg Hr. destruct (brep_data_length _ _ _ _ _ H Hg) as [Hd Hr']. destruct (brep_entry _ _ _ _ _ H Hg) as [_ Hx].
  destruct s as [m bufs vd rg ws']. pose proof (br_ws _ _ _ H) as E. cbn in E. subst ws'. pose proof (br_calm _ _ _ H) as Hm. cbn in Hm.
  eexists. split; [by apply bcache_section|]. apply (brep_upd m _ bufs vd rg ws G bn e); try done; [by apply calm_settle|].
  destruct Hx as [X1 X2 X3 [X4 X5] X6 X7]. split; try done. cbn. change (get_buf (mk_bst m bufs vd rg ws) (e_buf e)) with (gb bufs (e_buf e)) in X4.
  rewrite X4. unfold u32. rewrite Z.mod_small by lia. lia.
Qed.

Lemma bunpin_eq s G ws bn e :
  brep s G ws -> G !! bn = Some e -> 1 < e_refs e ->
  exists s', bunpin (e_buf e) s = Ok tt s' /\ brep s' (pinned G bn e (-1)) ws.
Proof.
  intros H Hg Hr. destruct (brep_data_length _ _ _ _ _ H Hg) as [Hd Hr']. destruct (brep_entry _ _ _ _ _ H Hg) as [_ Hx].
  destruct s as [m bufs vd rg ws']. pose proof (br_ws _ _ _ H) as E. cbn in E. subst ws'. pose proof (br_calm _ _ _ H) as Hm. cbn in Hm.
  eexists. split; [by apply bcache_section|]. apply (brep_upd m _ bufs vd rg ws G bn e); try done; [by apply calm_settle| |cbn; lia].
  destruct Hx as [X1 X2 X3 [X4 X5] X6 X7]. split; try done. cbn. change (get_buf (mk_bst m bufs vd rg ws) (e_buf e)) with (gb bufs (e_buf e)) in X4.
  rewrite X4. unfold u32. rewrite Z.mod_small by lia. lia.
Qed.

(** ** brelse *)

(** The block after the process has let go of it. *)
Definition released (G : gmap Z entry) (bn : Z) (e : entry) : gmap Z entry :=
  if e_refs e =? 1 then delete bn G else <[bn := mk_entry (e_buf e) (e_refs e - 1) false (e_data e)]> G.

Lemma brelse_eq s G ws bn e :
  brep s G ws -> G !! bn = Some e -> e_held e = true -> (e_refs e = 1 -> e_data e = dblock d0 ws bn) ->
  exists s', brelse (e_buf e) s = Ok tt s' /\ brep s' (released G bn e) ws.
Proof.
  intros H Hg He Hz. destruct (brep_data_length _ _ _ _ _ H Hg) as [Hd Hr]. destruct (brep_entry _ _ _ _ _ H Hg) as [Hlt Hx].
  destruct s as [m bufs vd rg ws']. pose proof (br_ws _ _ _ H) as E. cbn in E. subst ws'. pose proof (br_calm _ _ _ H) as Hm. cbn in Hm.
  change (get_buf (mk_bst m bufs vd rg ws) (e_buf e)) with (gb bufs (e_buf e)) in Hx. set (b := e_buf e) in *.
  pose proof (ho_lock _ _ _ _ _ Hx) as [L1 L2]. rewrite He in L1. specialize (L2 He).
  unfold brelse. erewrite bind_ok by (by apply holdingsleep_eq). cbn [negb].
  pose proof (cwf_length _ _ _ _ (br_cache _ _ _ H)) as Hlen. cbn in Hlen.
  destruct (releasesleep_eq b (settle m) bufs vd rg ws) as (m1 & Hm1 & E1); [by apply calm_settle|done|done|].
  erewrite bind_ok by exact E1. erewrite bind_ok by (by apply bst_lift, (calm_acquire p pid _ _ Hm1 bcache_block)).
  unfold buf_set, buf_get. mgo. change (upd_buf b ?f (mk_bst ?a ?bs vd rg ws)) with (mk_bst a (ub b f bs) vd rg ws).
  rewrite ub_ub by lia. change (get_buf (mk_bst _ ?bs vd rg ws) b) with (gb bs b). rewrite gb_ub_eq by lia.
  cbn [buf_refcnt set_buf_refcnt lock_left set_buf_lock]. destruct (ho_refs _ _ _ _ _ Hx) as [X4 _]. rewrite X4.
  replace (u32 (e_refs e - 1)) with (e_refs e - 1) by (unfold u32; rewrite Z.mod_small; lia).
  set (f := fun x => set_buf_refcnt _ (lock_left x)). unfold released.
  destruct (Z.eqb_spec (e_refs e) 1) as [E0|E0].
  - rewrite E0. cbn [Z.sub Z.eqb when Z.add Z.opp Z.pos_sub]. erewrite bind_ok by apply brelse_move_eq. cbn [b_bufs set_b_bufs b_m b_vd b_regs b_writes].
    eexists. split; [by apply bst_lift, (calm_release p pid _ _ Hm1 bcache_block)|].
    assert (Ef : buf_refcnt (f (gb bufs b)) = 0) by (cbn; rewrite X4, E0; reflexivity).
    destruct H as [_ Hc Ha Hi _]. cbn in Hc, Ha, Hi. destruct Hx as [Y1 Y2 Y3 _ Y6 _]. split; cbn; try done; [by apply calm_settle| |].
    + apply cwf_move; [|done]. apply cwf_set; try done; [by rewrite <- Y6 in Hd|by rewrite Ef| |].
      * intros _ j Hj Hne Hdj E. apply Hne. by apply (cw_uniq _ _ _ _ Hc).
      * intros _. split; [done|]. intros _ _. cbn. rewrite Y6, Y2. by apply Hz.
    + apply (arep_delete dev pid bufs _ G b bn e); try done.
      * intros i Hi' Hne. rewrite (core_eq buf_refcnt _ _ (fun _ => eq_refl) (core_move b (ub b f bufs) i)), core_move, gb_ub_ne by done. by destruct (decide _).
      * by rewrite (core_eq buf_refcnt _ _ (fun _ => eq_refl) (core_move b (ub b f bufs) b)), gb_ub_eq by lia.
  - rewrite (proj2 (Z.eqb_neq _ 0)) by lia. unfold when. mgo. eexists.
    split; [by apply bst_lift, (calm_release p pid _ _ Hm1 bcache_block)|].
    apply (brep_upd m _ bufs vd rg ws G bn e); try done; [by apply calm_settle| |cbn; lia].
    destruct Hx as [Y1 Y2 Y3 _ Y6 _]. split; try done. cbn. fold b. rewrite X4. unfold u32. rewrite Z.mod_small by lia. lia.
Qed.
End Bio.
