(* ===== verification/LogSpec.v ===== *)
(** * Crash safety of the log of kernel/log.c

    A transaction is a set of blocks in the buffer cache that differ from the disk.
    [commit] writes them so that, whenever the machine stops, running
    [recover_from_log] on what is then on the disk gives either all of the transaction or
    none of it; and [recover_from_log] may itself be interrupted any number of times.

    The proofs are about an interface [Blocks] of the block layer, which the buffer cache
    and the disk driver implement. *)
From stdpp Require Import gmap list strings.
From S2P Require Import Prelude Kstring Abi Machine Spinlock Kalloc Vm Proc Sched Sleeplock Virtio Bio Log Wp BioList BlockEnv VirtioSpec BioSpec.

(** ** What the log needs of the block layer *)

Class Blocks (fuel : nat) (dev : Z) (d0 : Z -> list Z) (stuck : Prop) (envr : bst -> bst -> Prop)
    (rep : bst -> gmap Z entry -> list (Z * list Z) -> Prop) : Prop := {
  blk_writes : forall s G ws, rep s G ws -> b_writes s = ws;
  blk_disk : forall s G ws bn, rep s G ws -> Z.of_nat (length (dblock d0 ws bn)) = BSIZE;
  blk_entry : forall s G ws bn e, rep s G ws -> G !! bn = Some e ->
    buf_data (get_buf s (e_buf e)) = e_data e /\ Z.of_nat (length (e_data e)) = BSIZE;
  blk_set : forall s G ws bn e v, rep s G ws -> G !! bn = Some e -> Z.of_nat (length v) = BSIZE ->
    rep (upd_buf (e_buf e) (set_buf_data v) s) (<[bn := mk_entry (e_buf e) (e_refs e) (e_held e) v]> G) ws;
  blk_bread : forall crash s G ws bn, rep s G ws -> can_get G bn -> 0 <= bn < 2 ^ 31 -> crash ws ->
    wp stuck envr (fun s => crash (b_writes s))
      (fun b s' => rep s' (<[bn := mk_entry b (refs_of G bn + 1) true (view d0 G ws bn)]> G) ws) (bread fuel dev bn s);
  blk_bwrite : forall crash s G ws bn e, rep s G ws -> G !! bn = Some e -> e_held e = true -> 0 <= bn < 2 ^ 31 ->
    crash ws -> crash (ws ++ [(2 * bn, e_data e)]) ->
    wp stuck envr (fun s => crash (b_writes s)) (fun _ s' => rep s' G (ws ++ [(2 * bn, e_data e)])) (bwrite fuel (e_buf e) s);
  blk_brelse : forall s G ws bn e, rep s G ws -> G !! bn = Some e -> e_held e = true ->
    (e_refs e = 1 -> e_data e = dblock d0 ws bn) -> exists s', brelse (e_buf e) s = Ok tt s' /\ rep s' (released G bn e) ws;
  blk_bunpin : forall s G ws bn e, rep s G ws -> G !! bn = Some e -> 1 < e_refs e ->
    exists s', bunpin (e_buf e) s = Ok tt s' /\ rep s' (pinned G bn e (-1)) ws
}.

#[global] Instance bio_blocks fuel d0 dev p pid spurious :
  Blocks (S fuel) dev d0 spurious (env d0 dev p pid spurious) (brep d0 dev p pid).
Proof.
  split.
  - intros s G ws H. apply (br_ws _ _ _ _ _ _ _ H).
  - intros s G ws bn H. apply (cw_disk _ _ _ _ (br_cache _ _ _ _ _ _ _ H)).
  - intros s G ws bn e H Hg. destruct (brep_entry _ _ _ _ _ _ _ _ _ H Hg) as [_ Hx].
    split; [apply (ho_data _ _ _ _ _ Hx)|by apply (brep_data_length _ _ _ _ _ _ _ _ _ H Hg)].
  - intros s G ws bn e v H Hg Hv. by apply brep_set_data.
  - intros crash s G ws bn H Hg Hbn Hc. apply bread_wp; try done. lia.
  - intros crash s G ws bn e H Hg He Hbn Hc Hc'. apply bwrite_wp; try done. lia.
  - intros s G ws bn e H Hg He Hz. by apply brelse_eq.
  - intros s G ws bn e H Hg Hr. by apply bunpin_eq.
Qed.

Lemma HEAD_eq : HEAD = 30%nat.
Proof. reflexivity. Qed.
Lemma LOGSIZE_eq : LOGSIZE = 30.
Proof. reflexivity. Qed.

(** ** The header block *)

Lemma i32_u32 v : i32 (v mod 2 ^ 32) = i32 v.
Proof. unfold i32. by rewrite Zplus_mod_idemp_l. Qed.

Lemma i32_small v : 0 <= v < 2 ^ 31 -> i32 v = v.
Proof. intros H. unfold i32. rewrite Z.mod_small; lia. Qed.

Lemma length_set_hd data i v : (4 * i + 4 <= length data)%nat -> length (set_hd_int data i v) = length data.
Proof. intros H. unfold set_hd_int. rewrite !length_app, length_take, length_le_bytes, length_drop. lia. Qed.

Lemma hd_int_set data i v j :
  (4 * i + 4 <= length data)%nat -> hd_int (set_hd_int data i v) j = if decide (i = j) then i32 v else hd_int data j.
Proof.
  intros Hi. unfold hd_int, set_hd_int. assert (Hl : length (take (4 * i) data) = (4 * i)%nat) by (rewrite length_take; lia).
  destruct (decide (i = j)) as [<-|Hne].
  - rewrite drop_app_length' by done. rewrite take_app_le by (rewrite length_le_bytes; lia).
    rewrite take_ge by (rewrite length_le_bytes; lia). rewrite le_val_le_bytes. change (8 * Z.of_nat 4) with 32. apply i32_u32.
  - f_equal. f_equal. destruct (decide (j < i)%nat) as [Hlt|Hge].
    + rewrite drop_app_le by lia. rewrite take_app_le by (rewrite length_drop, length_take; lia).
      rewrite skipn_firstn_comm, take_take. f_equal. lia.
    + rewrite drop_app_ge by lia. rewrite Hl. rewrite drop_app_ge by (rewrite length_le_bytes; lia).
      rewrite length_le_bytes, drop_drop. f_equal. f_equal. lia.
Qed.

(** The header of a transaction with the blocks [bns], written over [data]. *)
Fixpoint put_blocks (data : list Z) (i : nat) (bns : list Z) : list Z :=
  match bns with
  | [] => data
  | bn :: bns => put_blocks (set_hd_int data (S i) bn) (S i) bns
  end.

Lemma put_blocks_snoc data i bns bn : put_blocks data i (bns ++ [bn]) = set_hd_int (put_blocks data i bns) (S (i + length bns)) bn.
Proof.
  revert data i. induction bns as [|b bns IH]; intros data i; cbn [put_blocks app length]; [by rewrite Nat.add_0_r|].
  rewrite IH. f_equal. lia.
Qed.

Lemma length_put_blocks data i bns : (4 * (i + length bns + 1) <= length data)%nat -> length (put_blocks data i bns) = length data.
Proof.
  revert data i. induction bns as [|b bns IH]; intros data i H; [done|]. cbn [put_blocks length] in *.
  rewrite IH; rewrite length_set_hd; lia.
Qed.

Lemma hd_put_blocks data bns : forall i j,
  (4 * (i + length bns + 1) <= length data)%nat ->
  hd_int (put_blocks data i bns) j =
  if decide (i < j <= i + length bns)%nat then i32 (zget bns (Z.of_nat (j - S i))) else hd_int data j.
Proof.
  revert data. induction bns as [|b bns IH]; intros data i j H; cbn [put_blocks length] in *; [by rewrite decide_False by lia|].
  rewrite IH by (rewrite length_set_hd; lia). rewrite hd_int_set by lia.
  destruct (decide (S i = j)) as [<-|Hne].
  - rewrite decide_False, decide_True by lia. replace (S i - S i)%nat with 0%nat by lia. done.
  - destruct (decide (S i < j <= S i + length bns)%nat).
    + rewrite decide_True by lia. unfold zget. rewrite !Nat2Z.id. replace (j - S i)%nat with (S (j - S (S i))) by lia. done.
    + by rewrite decide_False by lia.
Qed.

(** What the log on the disk [D] records: the blocks of the header at [st]. *)
Definition logged (hdr : list Z) : list Z :=
  map (fun i => u32 (hd_int hdr (S i))) (seq 0 (Z.to_nat (hd_int hdr 0))).

(** The contents of block [bn] once the log was copied to its place. *)
Definition recovered (st : Z) (D : Z -> list Z) (bn : Z) : list Z :=
  match list_find (fun b => b = bn) (logged (D st)) with
  | Some (i, _) => D (st + 1 + Z.of_nat i)
  | None => D bn
  end.

(** ** The operations of the block layer, as the log calls them *)

Section Log.
Context (fuel : nat) (dev : Z) (d0 : Z -> list Z) (stuck : Prop) (envr : bst -> bst -> Prop).
Context (rep : bst -> gmap Z entry -> list (Z * list Z) -> Prop) `{!Blocks fuel dev d0 stuck envr rep}.

Definition lrep (s : lst) (lg : log) (G : gmap Z entry) (ws : list (Z * list Z)) : Prop := rep (l_b s) G ws /\ l_log s = lg.

Notation lwp crash := (wp stuck (sub_rel envr) (fun s : lst => crash (b_writes (l_b s)))).

Section Rules.
Variable crash : list (Z * list Z) -> Prop.

(** What [lift] leaves of a specification. *)
Lemma l_call {A B} (P : A -> bst -> Prop) (Q : B -> lst -> Prop) (m : M bst A) (f : A -> M lst B) s :
  wp stuck envr (fun s => crash (b_writes s)) P (m (l_b s)) ->
  (forall a s', P a (l_b s') -> l_log s' = l_log s -> lwp crash Q (f a s')) -> lwp crash Q (bind (lift m) f s).
Proof.
  intros Hm Hf. eapply wp_call; [exact (wp_lift (S := lst) stuck envr (fun s => crash (b_writes s)) P m s Hm)|].
  intros a s' (t & -> & HP). by apply Hf.
Qed.

Lemma l_ok {A B} (Q : B -> lst -> Prop) (m : M bst A) (f : A -> M lst B) s a t :
  m (l_b s) = Ok a t -> lwp crash Q (f a (set_l_b t s)) -> lwp crash Q (bind (lift m) f s).
Proof. intros E Hf. eapply wp_bind_ok; [|exact Hf]. unfold lift. cbn. by rewrite E. Qed.

Lemma l_bread {B} (Q : B -> lst -> Prop) (f : nat -> M lst B) s lg G ws bn :
  lrep s lg G ws -> can_get G bn -> 0 <= bn < 2 ^ 31 -> crash ws ->
  (forall b s', lrep s' lg (<[bn := mk_entry b (refs_of G bn + 1) true (view d0 G ws bn)]> G) ws -> lwp crash Q (f b s')) ->
  lwp crash Q (bind (lift (bread fuel dev bn)) f s).
Proof.
  intros [Hr Hl] Hg Hbn Hc Hf. eapply l_call; [by apply blk_bread|]. intros b s' Hs Hl'. apply Hf. split; [done|]. by rewrite Hl'.
Qed.

Lemma l_bwrite {B} (Q : B -> lst -> Prop) (f : unit -> M lst B) s lg G ws bn e b :
  lrep s lg G ws -> G !! bn = Some e -> e_buf e = b -> e_held e = true -> 0 <= bn < 2 ^ 31 ->
  crash ws -> crash (ws ++ [(2 * bn, e_data e)]) ->
  (forall s', lrep s' lg G (ws ++ [(2 * bn, e_data e)]) -> lwp crash Q (f tt s')) ->
  lwp crash Q (bind (lift (bwrite fuel b)) f s).
Proof.
  intros [Hr Hl] Hg <- He Hbn Hc Hc' Hf. eapply l_call; [by eapply blk_bwrite|]. intros [] s' Hs Hl'. apply Hf. split; [done|]. by rewrite Hl'.
Qed.

Lemma l_brelse {B} (Q : B -> lst -> Prop) (f : unit -> M lst B) s lg G ws bn e b :
  lrep s lg G ws -> G !! bn = Some e -> e_buf e = b -> e_held e = true -> (e_refs e = 1 -> e_data e = dblock d0 ws bn) ->
  (forall s', lrep s' lg (released G bn e) ws -> lwp crash Q (f tt s')) ->
  lwp crash Q (bind (lift (brelse b)) f s).
Proof.
  intros [Hr Hl] Hg <- He Hz Hf. destruct (blk_brelse _ _ _ _ _ Hr Hg He Hz) as (t & E & Ht). eapply l_ok; [exact E|]. by apply Hf.
Qed.

(** A [brelse] at the end. *)
Lemma l_brelse_last s lg G ws bn e b :
  lrep s lg G ws -> G !! bn = Some e -> e_buf e = b -> e_held e = true -> (e_refs e = 1 -> e_data e = dblock d0 ws bn) ->
  lwp crash (fun _ s' => lrep s' lg (released G bn e) ws) (lift (brelse b) s).
Proof.
  intros [Hr Hl] Hg <- He Hz. destruct (blk_brelse _ _ _ _ _ Hr Hg He Hz) as (t & E & Ht).
  eapply wp_ok; [unfold lift; cbn; rewrite E; reflexivity|]. done.
Qed.

Lemma l_bunpin {B} (Q : B -> lst -> Prop) (f : unit -> M lst B) s lg G ws bn e b :
  lrep s lg G ws -> G !! bn = Some e -> e_buf e = b -> 1 < e_refs e ->
  (forall s', lrep s' lg (pinned G bn e (-1)) ws -> lwp crash Q (f tt s')) ->
  lwp crash Q (bind (lift (bunpin b)) f s).
Proof.
  intros [Hr Hl] Hg <- Hz Hf. destruct (blk_bunpin _ _ _ _ _ Hr Hg Hz) as (t & E & Ht). eapply l_ok; [exact E|]. by apply Hf.
Qed.

Lemma l_data {B} (Q : B -> lst -> Prop) (f : list Z -> M lst B) s lg G ws bn e b :
  lrep s lg G ws -> G !! bn = Some e -> e_buf e = b -> lwp crash Q (f (e_data e) s) ->
  lwp crash Q (bind (lift (buf_get b buf_data)) f s).
Proof.
  intros [Hr Hl] Hg <- Hf. destruct (blk_entry _ _ _ _ _ Hr Hg) as [Ed _].
  eapply l_ok; [reflexivity|]. rewrite Ed. by destruct s.
Qed.

Lemma l_set {B} (Q : B -> lst -> Prop) (f : unit -> M lst B) s lg G ws bn e b g v :
  lrep s lg G ws -> G !! bn = Some e -> e_buf e = b ->
  (forall x, buf_data x = e_data e -> g x = set_buf_data v x) -> Z.of_nat (length v) = BSIZE ->
  (forall s', lrep s' lg (<[bn := mk_entry b (e_refs e) (e_held e) v]> G) ws -> lwp crash Q (f tt s')) ->
  lwp crash Q (bind (lift (buf_set b g)) f s).
Proof.
  intros [Hr Hl] Hg <- Hgv Hv Hf. destruct (blk_entry _ _ _ _ _ Hr Hg) as [Ed _].
  eapply l_ok; [reflexivity|]. apply Hf. split; [|done]. cbn [l_b set_l_b].
  assert (E : upd_buf (e_buf e) g (l_b s) = upd_buf (e_buf e) (set_buf_data v) (l_b s)) by (unfold upd_buf; by rewrite Hgv).
  rewrite E. by eapply blk_set.
Qed.
(** A change of the data at the end. *)
Lemma l_set_last s lg G ws bn e b g v :
  lrep s lg G ws -> G !! bn = Some e -> e_buf e = b ->
  (forall x, buf_data x = e_data e -> g x = set_buf_data v x) -> Z.of_nat (length v) = BSIZE ->
  lwp crash (fun _ s' => lrep s' lg (<[bn := mk_entry b (e_refs e) (e_held e) v]> G) ws) (lift (buf_set b g) s).
Proof.
  intros [Hr Hl] Hg <- Hgv Hv. destruct (blk_entry _ _ _ _ _ Hr Hg) as [Ed _]. split; [|done]. cbn.
  assert (E : upd_buf (e_buf e) g (l_b s) = upd_buf (e_buf e) (set_buf_data v) (l_b s)) by (unfold upd_buf; by rewrite Hgv).
  rewrite E. by eapply blk_set.
Qed.
End Rules.

(** ** The transaction *)

(** Where the log starts: the header, then the other blocks of the log, [LOGSIZE] in all. *)
Variable st : Z.
Hypothesis st_range : 0 <= st /\ st + LOGSIZE + 1 < 2 ^ 31.

(** A block outside the log. *)
Definition home (bn : Z) : Prop := 0 <= bn < 2 ^ 31 /\ ~ (st <= bn < st + LOGSIZE).

(** The log in memory lists the blocks [bns]. *)
Record log_lists (lg : log) (bns : list Z) : Prop := {
  ll_dev : lg_dev lg = dev;
  ll_start : lg_start lg = st;
  ll_n : lg_n lg = Z.of_nat (length bns);
  ll_block : forall i bn, bns !! i = Some bn -> zget (lg_block lg) (Z.of_nat i) = bn
}.

Ltac lk := repeat first [ rewrite lookup_insert_eq | rewrite lookup_insert_ne by congruence | rewrite lookup_delete_eq | rewrite lookup_delete_ne by congruence ].

Lemma log_block_eq k : (S k < Z.to_nat LOGSIZE)%nat -> u32 (st + Z.of_nat k + 1) = st + 1 + Z.of_nat k.
Proof. intros H. unfold u32. unfold LOGSIZE in *. rewrite Z.mod_small; lia. Qed.

Lemma home_u32 bn : home bn -> u32 bn = bn.
Proof. intros [H _]. unfold u32. rewrite Z.mod_small; lia. Qed.

Lemma can_get_fresh G bn : G !! bn = None -> (size G < HEAD)%nat -> can_get G bn.
Proof. intros E H. unfold can_get. by rewrite E. Qed.

(** One block is copied from the log to its place; [rec] says that nothing is pinned. *)
Lemma install_body crash (rec : bool) s lg bns G ws k bn :
  lrep s lg G ws -> log_lists lg bns -> bns !! k = Some bn -> home bn -> (S k < Z.to_nat LOGSIZE)%nat ->
  G !! (st + 1 + Z.of_nat k) = None -> (size G + (if rec then 1 else 0) < HEAD)%nat ->
  (if rec then G !! bn = None else exists b v, G !! bn = Some (mk_entry b 1 false v)) ->
  crash ws -> crash (ws ++ [(2 * bn, dblock d0 ws (st + 1 + Z.of_nat k))]) ->
  lwp crash (fun _ s' => lrep s' lg (delete bn G) (ws ++ [(2 * bn, dblock d0 ws (st + 1 + Z.of_nat k))]))
    (install_trans_body fuel rec k s).
Proof.
  intros Hs Hll Hbn Hhome Hk Hlb Hsz Hrec Hc Hc'. set (lb := st + 1 + Z.of_nat k) in *.
  assert (Hlbr : 0 <= lb < 2 ^ 31) by (unfold lb, LOGSIZE in *; lia).
  assert (Hne : lb <> bn) by (destruct Hhome as [_ Hh]; unfold lb, LOGSIZE in *; lia).
  unfold install_trans_body, log_get. mgo. rewrite (proj2 Hs), (ll_dev _ _ Hll), (ll_start _ _ Hll), (ll_block _ _ Hll _ _ Hbn).
  rewrite log_block_eq, home_u32 by done. fold lb.
  eapply l_bread; [exact Hs|by apply can_get_fresh; [|lia]|done|done|]. intros b1 s1 H1.
  assert (Er : refs_of G lb = 0) by (unfold refs_of; by rewrite Hlb).
  assert (Ev : view d0 G ws lb = dblock d0 ws lb) by (unfold view; by rewrite Hlb). rewrite Er, Ev in H1.
  eapply l_bread; [exact H1| |apply Hhome|done|].
  { unfold can_get. lk. destruct rec; [rewrite Hrec; rewrite map_size_insert_None by done; lia|].
    destruct Hrec as (b & v & ->). cbn. lia. }
  intros b2 s2 H2.
  assert (Er2 : refs_of (<[lb := mk_entry b1 (0 + 1) true (dblock d0 ws lb)]> G) bn = if rec then 0 else 1).
  { unfold refs_of. lk. destruct rec; [by rewrite Hrec|]. by destruct Hrec as (b & v & ->). }
  rewrite Er2 in H2.
  eapply (l_data crash _ _ s2 lg _ ws lb); [exact H2|lk; reflexivity|done|]. cbn [e_data].
  eapply (l_set crash _ _ s2 lg _ ws bn); [exact H2|lk; reflexivity|done|intros; reflexivity|by apply (blk_disk _ _ _ _ (proj1 Hs))|].
  cbn [e_refs e_held]. intros s3 H3. rewrite insert_insert_eq in H3.
  eapply (l_bwrite crash _ _ s3 lg _ ws bn); [exact H3|lk; reflexivity|done|done|apply Hhome|done|done|]. cbn [e_data]. intros s4 H4.
  set (ws' := ws ++ _) in *. assert (D1 : dblock d0 ws' bn = dblock d0 ws lb) by (unfold ws'; by rewrite dblock_write, Z.eqb_refl).
  assert (D2 : dblock d0 ws' lb = dblock d0 ws lb) by (unfold ws'; rewrite dblock_write; by rewrite (proj2 (Z.eqb_neq _ _)) by done).
  assert (Hend : forall s5, lrep s5 lg (<[bn := mk_entry b2 1 true (dblock d0 ws lb)]> (<[lb := mk_entry b1 (0 + 1) true (dblock d0 ws lb)]> G)) ws' ->
    lwp crash (fun _ s' => lrep s' lg (delete bn G) ws') ((lift (brelse b1) ;;; lift (brelse b2)) s5)).
  { intros s5 H5. eapply (l_brelse crash _ _ s5 lg _ ws' lb); [exact H5|lk; reflexivity|done|done|by rewrite D2|]. intros s6 H6.
    unfold released in H6. cbn [e_refs Z.eqb Z.add] in H6. change (Pos.eqb 1 1) with true in H6. cbn iota in H6.
    eapply wp_mono; [eapply (l_brelse_last crash s6 lg _ ws' bn); [exact H6|lk; reflexivity|done|done|by rewrite D1]|].
    intros [] s7 H7. unfold released in H7. cbn [e_refs Z.eqb] in H7. change (Pos.eqb 1 1) with true in H7. cbn iota in H7.
    replace (delete bn G) with (delete bn (delete lb (<[bn := mk_entry b2 1 true (dblock d0 ws lb)]> (<[lb := mk_entry b1 (0 + 1) true (dblock d0 ws lb)]> G)))); [done|].
    apply map_eq. intros j. destruct (decide (j = bn)) as [->|]; lk; [done|]. destruct (decide (j = lb)) as [->|]; lk; done. }
  destruct rec; cbn [negb when].
  - mgo. by apply Hend.
  - eapply (l_bunpin crash _ _ s4 lg _ ws' bn); [exact H4|lk; reflexivity|done|cbn; lia|]. intros s5 H5. unfold pinned in H5. rewrite insert_insert_eq in H5. by apply Hend.
Qed.

(** The blocks of [l] are pinned, once each, and there are no other references. *)
Definition pins (G : gmap Z entry) (l : list Z) : Prop :=
  forall bn, if decide (bn ∈ l) then exists b v, G !! bn = Some (mk_entry b 1 false v) else G !! bn = None.

Lemma pins_in G l bn : pins G l -> bn ∈ l -> exists b v, G !! bn = Some (mk_entry b 1 false v).
Proof. intros H Hin. specialize (H bn). by rewrite decide_True in H. Qed.

Lemma pins_out G l bn : pins G l -> bn ∉ l -> G !! bn = None.
Proof. intros H Hin. specialize (H bn). by rewrite decide_False in H. Qed.

Lemma pins_size G l : pins G l -> NoDup l -> size G = length l.
Proof.
  intros H Hnd. rewrite <- size_dom, <- (size_list_to_set (C := gset Z) l Hnd). f_equal. apply set_eq. intros bn.
  rewrite elem_of_dom, elem_of_list_to_set. specialize (H bn). destruct (decide (bn ∈ l)) as [Hi|Hi].
  - destruct H as (b & v & ->). by split; [|eauto].
  - rewrite H. split; [by intros [? ?]|done].
Qed.

Lemma pins_nil_empty G : pins G [] -> G = ∅.
Proof. intros H. apply map_eq. intros bn. rewrite lookup_empty. apply (pins_out G [] bn H). set_solver. Qed.

(** Pinned blocks that also hold the data of [T]. *)
Definition tx (G : gmap Z entry) (T : gmap Z (list Z)) (bns : list Z) : Prop :=
  pins G bns /\ forall bn e, G !! bn = Some e -> T !! bn = Some (e_data e).

Lemma write_log_body_wp crash s lg bns G T ws k bn v :
  lrep s lg G ws -> tx G T bns -> NoDup bns -> (length bns < HEAD)%nat -> Forall home bns -> log_lists lg bns ->
  bns !! k = Some bn -> T !! bn = Some v ->
  crash ws -> crash (ws ++ [(2 * (st + 1 + Z.of_nat k), v)]) ->
  lwp crash (fun _ s' => exists G', lrep s' lg G' (ws ++ [(2 * (st + 1 + Z.of_nat k), v)]) /\ tx G' T bns) (write_log_body fuel k s).
Proof.
  intros Hs [Hp Ht] Hnd Hlen Hh Hll Hbn HT Hc Hc'. set (lb := st + 1 + Z.of_nat k) in *.
  assert (Hk : (S k < Z.to_nat LOGSIZE)%nat) by (apply lookup_lt_Some in Hbn; unfold HEAD, NBUF, LOGSIZE in *; lia).
  assert (Hin : bn ∈ bns) by (by apply list_elem_of_lookup_2 in Hbn).
  assert (Hhome : home bn) by (by rewrite Forall_forall in Hh; apply Hh).
  assert (Hlbr : 0 <= lb < 2 ^ 31) by (unfold lb, LOGSIZE in *; lia).
  assert (Hnl : lb ∉ bns). { intros Hi. rewrite Forall_forall in Hh. destruct (Hh _ Hi) as [_ X]. unfold lb, LOGSIZE in *; lia. }
  assert (Hne : lb <> bn) by (intros ->; done). destruct (pins_in _ _ _ Hp Hin) as (b & v' & Eg).
  assert (v' = v) as -> by (specialize (Ht bn _ Eg); cbn in Ht; congruence).
  pose proof (pins_out _ _ _ Hp Hnl) as Hlb. pose proof (pins_size _ _ Hp Hnd) as Hsz.
  unfold write_log_body, log_get. mgo. rewrite (proj2 Hs), (ll_dev _ _ Hll), (ll_start _ _ Hll), (ll_block _ _ Hll _ _ Hbn).
  rewrite log_block_eq, home_u32 by done. fold lb.
  eapply l_bread; [exact Hs|by apply can_get_fresh; [|lia]|done|done|]. intros b1 s1 H1.
  assert (Er : refs_of G lb = 0) by (unfold refs_of; by rewrite Hlb). rewrite Er in H1. change (0 + 1) with 1 in H1.
  eapply l_bread; [exact H1|unfold can_get; lk; rewrite Eg; cbn; lia|apply Hhome|done|]. intros b2 s2 H2.
  assert (Er2 : forall e, refs_of (<[lb := e]> G) bn = 1 /\ view d0 (<[lb := e]> G) ws bn = v).
  { intros e. unfold refs_of, view. lk. by rewrite Eg. }
  rewrite (proj1 (Er2 _)), (proj2 (Er2 _)) in H2. change (1 + 1) with 2 in H2.
  eapply (l_data crash _ _ s2 lg _ ws bn); [exact H2|lk; reflexivity|done|]. cbn [e_data].
  eapply (l_set crash _ _ s2 lg _ ws lb); [exact H2|lk; reflexivity|done|intros; reflexivity|apply (blk_entry _ _ _ _ _ (proj1 Hs) Eg)|].
  cbn [e_refs e_held]. intros s3 H3.
  eapply (l_bwrite crash _ _ s3 lg _ ws lb); [exact H3|lk; reflexivity|done|done|done|done|done|]. cbn [e_data]. intros s4 H4.
  set (ws' := ws ++ _) in *. assert (D2 : dblock d0 ws' lb = v) by (unfold ws'; by rewrite dblock_write, Z.eqb_refl).
  eapply (l_brelse crash _ _ s4 lg _ ws' bn); [exact H4|lk; reflexivity|done|done|cbn; lia|]. intros s5 H5.
  eapply wp_mono; [eapply (l_brelse_last crash s5 lg _ ws' lb); [exact H5|unfold released; cbn; lk; reflexivity|done|done|by rewrite D2]|].
  intros [] s6 H6. eexists. split; [exact H6|]. unfold released. cbn. split.
  - intros j. destruct (decide (j ∈ bns)) as [Hj|Hj].
    + destruct (decide (j = bn)) as [->|]; lk; [eauto|]. destruct (decide (j = lb)) as [->|]; [done|]. lk. by apply (pins_in _ _ _ Hp).
    + destruct (decide (j = lb)) as [->|]; lk; [done|]. destruct (decide (j = bn)) as [->|]; [done|]. lk. by apply (pins_out _ _ _ Hp).
  - intros j e. destruct (decide (j = lb)) as [->|]; lk; [done|]. destruct (decide (j = bn)) as [->|]; lk; [by intros [= <-]|]. apply Ht.
Qed.

(** The header block for [bns], written over [data]. *)
Definition header (data : list Z) (bns : list Z) : list Z := put_blocks (set_hd_int data 0 (Z.of_nat (length bns))) 0 bns.

Lemma length_header data bns :
  Z.of_nat (length data) = BSIZE -> (length bns < HEAD)%nat -> Z.of_nat (length (header data bns)) = BSIZE.
Proof.
  unfold BSIZE. rewrite HEAD_eq. intros Hd Hn. unfold header. rewrite length_put_blocks, length_set_hd; rewrite ?length_set_hd; lia.
Qed.

Lemma write_head_wp crash s lg bns G ws :
  lrep s lg G ws -> G !! st = None -> (size G < HEAD)%nat -> log_lists lg bns -> (length bns < HEAD)%nat ->
  crash ws -> crash (ws ++ [(2 * st, header (dblock d0 ws st) bns)]) ->
  lwp crash (fun _ s' => lrep s' lg G (ws ++ [(2 * st, header (dblock d0 ws st) bns)])) (write_head fuel s).
Proof.
  intros Hs Hg Hsz Hll Hlen Hc Hc'. assert (Hr : 0 <= st < 2 ^ 31) by (pose proof LOGSIZE_eq; lia).
  pose proof (blk_disk _ _ _ st (proj1 Hs)) as Hd. set (data := dblock d0 ws st) in *.
  unfold write_head, log_get. mgo. rewrite (proj2 Hs), (ll_dev _ _ Hll), (ll_start _ _ Hll), (ll_n _ _ Hll), Nat2Z.id.
  replace (u32 st) with st by (unfold u32; rewrite Z.mod_small; lia).
  eapply l_bread; [exact Hs|by apply can_get_fresh|done|done|]. intros b s1 H1.
  assert (Er : refs_of G st = 0) by (unfold refs_of; by rewrite Hg).
  assert (Ev : view d0 G ws st = data) by (unfold view; by rewrite Hg). rewrite Er, Ev in H1. change (0 + 1) with 1 in H1.
  assert (Hl0 : Z.of_nat (length (set_hd_int data 0 (Z.of_nat (length bns)))) = BSIZE) by (rewrite length_set_hd; [done|unfold BSIZE in Hd; lia]).
  eapply (l_set crash _ _ s1 lg _ ws st _ b _ (set_hd_int data 0 (Z.of_nat (length bns)))); [exact H1|lk; reflexivity|done|by intros x ->|done|].
  cbn [e_refs e_held]. intros s2 H2. rewrite insert_insert_eq in H2.
  pose (I := fun (k : nat) (s : lst) => lrep s lg (<[st := mk_entry b 1 true (put_blocks (set_hd_int data 0 (Z.of_nat (length bns))) 0 (take k bns))]> G) ws).
  eapply wp_call.
  - apply (wp_each stuck (sub_rel envr) _ I); [|exact H2]. intros i x s3 Hi HI. unfold I in *. apply lookup_seq in Hi as [-> Hi].
    destruct (lookup_lt_is_Some_2 bns i Hi) as [bn Hbn].
    eapply wp_mono.
    + eapply (l_set_last crash s3 lg _ ws st _ b _ (set_hd_int (put_blocks (set_hd_int data 0 (Z.of_nat (length bns))) 0 (take i bns)) (S (0 + i)) bn));
        [exact HI|lk; reflexivity|done|intros y ->; change (0 + i)%nat with i; by rewrite (ll_block _ _ Hll _ _ Hbn)|].
      assert (length (put_blocks (set_hd_int data 0 (Z.of_nat (length bns))) 0 (take i bns)) = 1024%nat) as El.
      { rewrite length_put_blocks; rewrite ?length_take; pose proof HEAD_eq; unfold BSIZE in *; lia. }
      rewrite length_set_hd; rewrite El; pose proof HEAD_eq; unfold BSIZE in *; lia.
    + intros [] s4 H4. cbn [e_refs e_held] in H4. rewrite insert_insert_eq in H4. replace (i + 1)%nat with (S i) by lia.
      rewrite (take_S_r bns i bn Hbn), put_blocks_snoc. replace (length (take i bns)) with i by (rewrite length_take; lia). exact H4.
  - intros [] s3 HI. unfold I in HI. rewrite length_seq, take_ge in HI by lia. fold (header data bns) in HI.
    eapply (l_bwrite crash _ _ s3 lg _ ws st); [exact HI|lk; reflexivity|done|done|done|done|done|]. cbn [e_data]. intros s4 H4.
    eapply wp_mono; [eapply (l_brelse_last crash s4 lg _ _ st); [exact H4|lk; reflexivity|done|done|]|].
    + intros _. cbn. by rewrite dblock_write, Z.eqb_refl.
    + intros [] s5 H5. unfold released in H5. cbn [e_refs Z.eqb] in H5. change (Pos.eqb 1 1) with true in H5. cbn iota in H5.
      rewrite delete_insert_eq, delete_id in H5 by done. exact H5.
Qed.

(** ** What the header means *)

Lemma logged_header data bns :
  Z.of_nat (length data) = BSIZE -> (length bns < HEAD)%nat -> Forall home bns -> logged (header data bns) = bns.
Proof.
  unfold BSIZE. intros Hd Hn Hh. unfold logged, header. rewrite HEAD_eq in Hn.
  assert (E : forall j, hd_int (put_blocks (set_hd_int data 0 (Z.of_nat (length bns))) 0 bns) j =
    if decide (0 < j <= 0 + length bns)%nat then i32 (zget bns (Z.of_nat (j - 1))) else hd_int (set_hd_int data 0 (Z.of_nat (length bns))) j).
  { intros j. apply hd_put_blocks. rewrite length_set_hd; lia. }
  rewrite E, decide_False by lia. rewrite hd_int_set, decide_True by lia. rewrite i32_small by lia. rewrite Nat2Z.id.
  apply list_eq. intros i. destruct (decide (i < length bns)%nat) as [Hi|Hi].
  - destruct (lookup_lt_is_Some_2 bns i Hi) as [bn Hbn]. rewrite Hbn. 
    rewrite list_lookup_fmap, lookup_seq_lt by done. cbn [fmap option_fmap option_map]. rewrite E, decide_True by lia.
    replace (S (0 + i) - 1)%nat with i by lia. unfold zget. rewrite Nat2Z.id, Hbn. cbn [default]. rewrite Forall_lookup in Hh.
    pose proof (Hh i bn Hbn) as Hb. rewrite i32_small by apply Hb. f_equal. by apply home_u32.
  - rewrite (lookup_ge_None_2 bns) by lia. apply lookup_ge_None_2. rewrite length_map, length_seq. lia.
Qed.

Lemma logged_empty hdr : hd_int hdr 0 = 0 -> logged hdr = [].
Proof. intros E. unfold logged. by rewrite E. Qed.

(** ** The phases of a commit

    The transaction [T] gives the blocks [bns] their new contents; before it the disk
    has seen the writes [ws]. *)

Section Transaction.
Variables (T : gmap Z (list Z)) (bns : list Z) (ws : list (Z * list Z)).
Hypothesis bns_nodup : NoDup bns.
Hypothesis bns_home : Forall home bns.
Hypothesis bns_few : (length bns < HEAD)%nat.
Hypothesis bns_dom : forall bn, bn ∈ bns <-> is_Some (T !! bn).

Definition new (bn : Z) : list Z := default (dblock d0 ws bn) (T !! bn).

Lemma bns_lookup i bn : bns !! i = Some bn -> home bn /\ (i < 29)%nat /\ exists v, T !! bn = Some v /\ new bn = v.
Proof.
  intros Hi. split; [by rewrite Forall_lookup in bns_home; apply (bns_home i)|].
  split; [apply lookup_lt_Some in Hi; pose proof HEAD_eq; lia|].
  destruct (proj1 (bns_dom bn)) as [v Hv]; [by apply list_elem_of_lookup_2 in Hi|]. exists v. unfold new. by rewrite Hv.
Qed.

Lemma new_other bn : bn ∉ bns -> new bn = dblock d0 ws bn.
Proof. intros H. unfold new. destruct (T !! bn) eqn:E; [|done]. exfalso. apply H, bns_dom. by rewrite E. Qed.

(** The first [k] blocks are in the log. *)
Record copied (k : nat) (ws' : list (Z * list Z)) : Prop := {
  co_log : forall i bn, (i < k)%nat -> bns !! i = Some bn -> dblock d0 ws' (st + 1 + Z.of_nat i) = new bn;
  co_rest : forall bn, ~ (st < bn < st + LOGSIZE) -> dblock d0 ws' bn = dblock d0 ws bn
}.

(** The header is on the disk, and the first [k] blocks are in their place. *)
Record installed (k : nat) (ws' : list (Z * list Z)) : Prop := {
  in_hdr : logged (dblock d0 ws' st) = bns;
  in_log : forall i bn, bns !! i = Some bn -> dblock d0 ws' (st + 1 + Z.of_nat i) = new bn;
  in_home : forall bn, home bn -> dblock d0 ws' bn = if decide (bn ∈ take k bns) then new bn else dblock d0 ws bn
}.

Lemma copied_step k ws' bn :
  copied k ws' -> bns !! k = Some bn -> copied (k + 1) (ws' ++ [(2 * (st + 1 + Z.of_nat k), new bn)]).
Proof.
  intros [H1 H2] Hk. destruct (bns_lookup k bn Hk) as (_ & Hlt & _). pose proof LOGSIZE_eq. split.
  - intros i b Hi Hb. rewrite dblock_write. destruct (Z.eqb_spec (st + 1 + Z.of_nat i) (st + 1 + Z.of_nat k)) as [E|E].
    + assert (i = k) as -> by lia. congruence.
    + apply H1; [lia|done].
  - intros b Hb. rewrite dblock_write. rewrite (proj2 (Z.eqb_neq _ _)) by lia. by apply H2.
Qed.

Lemma installed_header ws' :
  Z.of_nat (length (dblock d0 ws' st)) = BSIZE -> copied (length bns) ws' ->
  installed 0 (ws' ++ [(2 * st, header (dblock d0 ws' st) bns)]).
Proof.
  intros Hl [H1 H2]. pose proof LOGSIZE_eq. split.
  - rewrite dblock_write, Z.eqb_refl. by apply logged_header.
  - intros i bn Hi. rewrite dblock_write, (proj2 (Z.eqb_neq _ _)) by lia. apply H1; [by apply lookup_lt_Some in Hi|done].
  - intros bn [Hr Hh]. rewrite take_0, decide_False by set_solver. rewrite dblock_write, (proj2 (Z.eqb_neq _ _)) by lia. apply H2. lia.
Qed.

Lemma installed_step k ws' bn :
  installed k ws' -> bns !! k = Some bn -> installed (k + 1) (ws' ++ [(2 * bn, dblock d0 ws' (st + 1 + Z.of_nat k))]).
Proof.
  intros [H1 H2 H3] Hk. destruct (bns_lookup k bn Hk) as ([_ Hh] & Hlt & _). pose proof LOGSIZE_eq. split.
  - rewrite dblock_write, (proj2 (Z.eqb_neq _ _)) by lia. done.
  - intros i b Hi. destruct (bns_lookup i b Hi) as (_ & Hlt' & _). rewrite dblock_write, (proj2 (Z.eqb_neq _ _)) by lia. by apply H2.
  - intros b Hb. rewrite dblock_write. replace (k + 1)%nat with (S k) by lia. rewrite (take_S_r bns k bn Hk).
    destruct (Z.eqb_spec b bn) as [->|Hne]; [rewrite decide_True by set_solver; by apply H2|].
    rewrite H3 by done. apply decide_ext. set_solver.
Qed.

(** What recovery makes of the disk. *)
Lemma recovered_empty D bn : hd_int (D st) 0 = 0 -> recovered st D bn = D bn.
Proof. intros E. unfold recovered. by rewrite logged_empty. Qed.

Lemma recovered_copied k ws' bn :
  hd_int (dblock d0 ws st) 0 = 0 -> copied k ws' -> home bn -> recovered st (dblock d0 ws') bn = dblock d0 ws bn.
Proof.
  intros E [H1 H2] [Hr Hh]. pose proof LOGSIZE_eq. rewrite recovered_empty by (rewrite H2 by lia; done). apply H2. lia.
Qed.

Lemma recovered_installed k ws' bn : installed k ws' -> home bn -> recovered st (dblock d0 ws') bn = new bn.
Proof.
  intros [H1 H2 H3] Hb. unfold recovered. rewrite H1. destruct (list_find _ bns) as [[i b]|] eqn:E.
  - apply list_find_Some in E as (Hi & -> & _). by apply H2.
  - apply list_find_None in E. rewrite Forall_forall in E. assert (Hn : bn ∉ bns) by (intros Hin; by apply (E bn Hin)).
    rewrite H3 by done. rewrite new_other by done. rewrite decide_False; [done|].
    intros Hin. apply Hn. by apply elem_of_take in Hin as (i & Hi & _); apply list_elem_of_lookup_2 in Hi.
Qed.

Lemma installed_all ws' bn : installed (length bns) ws' -> home bn -> dblock d0 ws' bn = new bn.
Proof.
  intros [_ _ H3] Hb. rewrite H3 by done. rewrite take_ge by lia. destruct (decide (bn ∈ bns)); [done|]. by rewrite new_other.
Qed.

(** All or nothing. *)
Definition atomic (ws' : list (Z * list Z)) : Prop :=
  (forall bn, home bn -> recovered st (dblock d0 ws') bn = dblock d0 ws bn) \/
  (forall bn, home bn -> recovered st (dblock d0 ws') bn = new bn).

Lemma write_log_wp crash s lg G :
  lrep s lg G ws -> tx G T bns -> log_lists lg bns -> (forall k ws', copied k ws' -> crash ws') ->
  lwp crash (fun _ s' => exists G' ws', lrep s' lg G' ws' /\ tx G' T bns /\ copied (length bns) ws') (write_log fuel s).
Proof.
  intros Hs Ht Hll Hc. unfold write_log, log_get. mgo. rewrite (proj2 Hs), (ll_n _ _ Hll), Nat2Z.id.
  pose (I := fun (k : nat) (s : lst) => exists G' ws', lrep s lg G' ws' /\ tx G' T bns /\ copied k ws').
  assert (H0 : I 0%nat s) by (exists G, ws; split; [done|]; split; [done|]; split; [lia|done]).
  eapply wp_mono; [apply (wp_each stuck (sub_rel envr) _ I _ (seq 0 (length bns)) s)|intros [] s'; unfold I; by rewrite length_seq]; [|done].
  intros i x s1 Hi (G1 & ws1 & H1 & T1 & C1). apply lookup_seq in Hi as [-> Hi]. destruct (lookup_lt_is_Some_2 bns i Hi) as [bn Hbn].
  destruct (bns_lookup i bn Hbn) as (_ & _ & v & Hv & Ev). pose proof (copied_step _ _ _ C1 Hbn) as C2. rewrite Ev in C2.
  eapply wp_mono; [by apply (write_log_body_wp crash s1 lg bns G1 T ws1 i bn v); eauto|].
  intros [] s2 (G2 & H2 & T2). exists G2. eexists. split; [exact H2|]. done.
Qed.

Lemma install_wp crash (rec : bool) s lg G ws1 :
  lrep s lg G ws1 -> pins G (if rec then [] else bns) -> log_lists lg bns -> installed 0 ws1 ->
  (forall k ws', installed k ws' -> crash ws') ->
  lwp crash (fun _ s' => exists ws', lrep s' lg ∅ ws' /\ installed (length bns) ws') (install_trans fuel rec s).
Proof.
  intros Hs Hp Hll H0 Hc. unfold install_trans, log_get. mgo. rewrite (proj2 Hs), (ll_n _ _ Hll), Nat2Z.id.
  pose (I := fun (k : nat) (s : lst) => exists G' ws', lrep s lg G' ws' /\ pins G' (if rec then [] else drop k bns) /\ installed k ws').
  eapply wp_mono; [apply (wp_each stuck (sub_rel envr) _ I _ (seq 0 (length bns)) s)|].
  - intros i x s1 Hi (G1 & ws2 & H1 & P1 & C1). apply lookup_seq in Hi as [-> Hi]. destruct (lookup_lt_is_Some_2 bns i Hi) as [bn Hbn].
    destruct (bns_lookup i bn Hbn) as (Hh & Hlt & _). pose proof (installed_step _ _ _ C1 Hbn) as C2.
    assert (Hd : drop i bns = bn :: drop (S i) bns) by (by apply drop_S).
    assert (Hnd : NoDup (drop i bns)) by (eapply sublist_NoDup; [done|]; apply sublist_drop).
    eapply wp_mono; [apply (install_body crash rec s1 lg bns G1 ws2 i bn); try done; eauto|].
    + rewrite LOGSIZE_eq. lia.
    + apply (pins_out _ _ _ P1). destruct rec; [set_solver|]. intros Hin. assert (Hin' : st + 1 + Z.of_nat i ∈ bns).
      { rewrite <- (take_drop i bns). set_solver. }
      rewrite Forall_forall in bns_home. destruct (bns_home _ Hin') as [_ X]. pose proof LOGSIZE_eq. lia.
    + pose proof HEAD_eq. rewrite (pins_size _ _ P1) by (by destruct rec; [apply NoDup_nil|]). destruct rec; cbn [length]; [lia|]. rewrite length_drop. lia.
    + destruct rec; [apply (pins_out _ _ _ P1); set_solver|]. apply (pins_in _ _ _ P1). rewrite Hd. set_solver.
    + intros [] s2 H2. eexists _, _. split; [exact H2|]. split; [|done]. replace (i + 1)%nat with (S i) by lia. intros j.
      specialize (P1 j). destruct rec.
      * rewrite decide_False in * by set_solver. destruct (decide (j = bn)) as [->|]; lk; done.
      * rewrite Hd in P1, Hnd. apply NoDup_cons in Hnd as [Hn _].
        destruct (decide (j = bn)) as [->|Hne]; [rewrite decide_False by done; by lk|]. lk.
        destruct (decide (j ∈ bn :: drop (S i) bns)) as [Hj|Hj]; [rewrite decide_True by set_solver|rewrite decide_False by set_solver]; done.
  - exists G, ws1. split; [done|]. by rewrite drop_0.
  - intros [] s' (G1 & ws2 & H1 & P1 & C1). rewrite length_seq in *. exists ws2. split; [|done].
    rewrite drop_ge in P1 by lia. rewrite (pins_nil_empty G1) in H1; [done|]. by destruct rec.
Qed.

(** Clearing the header of a log whose blocks are all in place. *)
Lemma clear_head_wp crash s lg ws1 :
  lrep s lg ∅ ws1 -> lg_dev lg = dev -> lg_start lg = st -> installed (length bns) ws1 ->
  crash ws1 ->
  (forall ws', (forall bn, home bn -> dblock d0 ws' bn = new bn) -> hd_int (dblock d0 ws' st) 0 = 0 -> crash ws') ->
  lwp crash (fun _ s' => exists ws', lrep s' (set_lg_n 0 lg) ∅ ws' /\ hd_int (dblock d0 ws' st) 0 = 0 /\ forall bn, home bn -> dblock d0 ws' bn = new bn)
    ((log_upd (set_lg_n 0) ;;; write_head fuel) s).
Proof.
  intros [Hr Hl] Hd Hst Hi Hc Hc'. unfold log_upd. mgo. rewrite Hl.
  pose proof (blk_disk _ _ _ st Hr) as Hlen. set (hdr := header (dblock d0 ws1 st) []).
  assert (Hh : hd_int hdr 0 = 0). { unfold hdr, header, put_blocks. rewrite hd_int_set by (unfold BSIZE in Hlen; lia). done. }
  assert (Hn : forall bn, home bn -> dblock d0 (ws1 ++ [(2 * st, hdr)]) bn = new bn).
  { intros bn Hb. rewrite dblock_write, (proj2 (Z.eqb_neq _ _)) by (destruct Hb; pose proof LOGSIZE_eq; lia). by apply installed_all. }
  assert (Hz : hd_int (dblock d0 (ws1 ++ [(2 * st, hdr)]) st) 0 = 0) by (by rewrite dblock_write, Z.eqb_refl).
  eapply wp_mono; [apply (write_head_wp crash _ (set_lg_n 0 lg) [] ∅ ws1)|]; [by split|done|rewrite map_size_empty; pose proof HEAD_eq; lia|by split|pose proof HEAD_eq; cbn; lia|done|by apply Hc'|].
  intros [] s' Hs'. by exists (ws1 ++ [(2 * st, hdr)]).
Qed.

Lemma commit_wp s lg G :
  lrep s lg G ws -> tx G T bns -> log_lists lg bns -> hd_int (dblock d0 ws st) 0 = 0 ->
  lwp atomic (fun _ s' => exists ws', lrep s' (set_lg_n 0 lg) ∅ ws' /\ hd_int (dblock d0 ws' st) 0 = 0 /\ forall bn, home bn -> dblock d0 ws' bn = new bn)
    (commit fuel s).
Proof.
  intros Hs Ht Hll Hh. unfold commit, log_get. mgo. rewrite (proj2 Hs), (ll_n _ _ Hll).
  destruct (Z.gtb_spec (Z.of_nat (length bns)) 0) as [Hn|Hn]; cbn [when].
  - eapply wp_call; [apply (write_log_wp atomic s lg G); try done; intros k ws' Hw; left; intros bn Hb; by apply (recovered_copied k)|].
    intros [] s1 (G1 & ws1 & H1 & T1 & C1). pose proof (blk_disk _ _ _ st (proj1 H1)) as Hlen.
    pose proof (installed_header _ Hlen C1) as I0. assert (Hgst : G1 !! st = None).
    { apply (pins_out _ _ _ (proj1 T1)). intros Hin. rewrite Forall_forall in bns_home. destruct (bns_home _ Hin) as [_ X]. pose proof LOGSIZE_eq. lia. }
    eapply wp_call; [apply (write_head_wp atomic s1 lg bns G1 ws1); try done|].
    + by rewrite (pins_size _ _ (proj1 T1) bns_nodup).
    + left. intros bn Hb. by apply (recovered_copied (length bns)).
    + right. intros bn Hb. by apply (recovered_installed 0).
    + intros [] s2 H2. eapply wp_call; [apply (install_wp atomic false s2 lg G1 _ H2 (proj1 T1) Hll I0)|].
      * intros k ws' Hk. right. intros bn Hb. by apply (recovered_installed k).
      * intros [] s3 (ws3 & H3 & C3). apply (clear_head_wp atomic s3 lg ws3 H3 (ll_dev _ _ Hll) (ll_start _ _ Hll) C3).
        -- right. intros bn Hb. by apply (recovered_installed (length bns)).
        -- intros ws' Hw Hz. right. intros bn Hb. rewrite recovered_empty by done. by apply Hw.
  - assert (Eb : bns = []) by (apply length_zero_iff_nil; lia). exists ws. split; [|split; [done|]].
    + rewrite Eb in Ht, Hll. rewrite (pins_nil_empty G (proj1 Ht)) in Hs. destruct Hs as [Hr Hl]. split; [done|]. rewrite Hl.
      pose proof (ll_n _ _ Hll) as E. destruct lg. cbn in *. by subst.
    + intros bn Hb. symmetry. apply new_other. rewrite Eb. set_solver.
Qed.
End Transaction.

(** ** Recovery *)

(** A header as [commit] writes it. *)
Record header_ok (hdr : list Z) : Prop := {
  hk_n : 0 <= hd_int hdr 0 < Z.of_nat HEAD;
  hk_home : forall i, Z.of_nat i < hd_int hdr 0 -> home (hd_int hdr (S i));
  hk_nodup : NoDup (logged hdr)
}.

Lemma logged_lookup hdr i :
  header_ok hdr -> Z.of_nat i < hd_int hdr 0 -> logged hdr !! i = Some (hd_int hdr (S i)).
Proof.
  intros Hk Hi. unfold logged. rewrite list_lookup_fmap, lookup_seq_lt by lia. cbn. f_equal. apply home_u32. by apply (hk_home _ Hk).
Qed.

Lemma length_logged hdr : header_ok hdr -> Z.of_nat (length (logged hdr)) = hd_int hdr 0.
Proof. intros Hk. unfold logged. rewrite length_map, length_seq. destruct (hk_n _ Hk). lia. Qed.

Lemma logged_home hdr : header_ok hdr -> Forall home (logged hdr).
Proof.
  intros Hk. apply Forall_lookup. intros i bn Hi. assert (Hlt : Z.of_nat i < hd_int hdr 0).
  { rewrite <- (length_logged _ Hk). apply lookup_lt_Some in Hi. lia. }
  rewrite (logged_lookup _ _ Hk Hlt) in Hi. injection Hi as <-. by apply (hk_home _ Hk).
Qed.

(** The transaction that the log on the disk [D] holds. *)
Definition log_tx (D : Z -> list Z) : gmap Z (list Z) :=
  list_to_map (imap (fun i bn => (bn, D (st + 1 + Z.of_nat i))) (logged (D st))).

Lemma log_tx_lookup D i bn : NoDup (logged (D st)) -> logged (D st) !! i = Some bn -> log_tx D !! bn = Some (D (st + 1 + Z.of_nat i)).
Proof.
  intros Hnd Hi. unfold log_tx. apply elem_of_list_to_map_1.
  - rewrite fmap_imap. replace (imap _ (logged (D st))) with (logged (D st)); [done|].
    clear. generalize (logged (D st)). intros l. rewrite <- (list_fmap_id l) at 1. rewrite <- imap_const. done.
  - apply list_elem_of_lookup. exists i. by rewrite list_lookup_imap, Hi.
Qed.

Lemma log_tx_dom D bn : NoDup (logged (D st)) -> bn ∈ logged (D st) <-> is_Some (log_tx D !! bn).
Proof.
  intros Hnd. split.
  - intros Hin. apply list_elem_of_lookup in Hin as [i Hi]. by rewrite (log_tx_lookup D i bn).
  - intros [v Hv]. apply elem_of_list_to_map_2 in Hv. apply list_elem_of_lookup in Hv as [i Hi].
    rewrite list_lookup_imap in Hi. destruct (logged (D st) !! i) as [b|] eqn:E; [|done]. injection Hi as -> <-. by apply list_elem_of_lookup_2 in E.
Qed.

Lemma new_recovered ws bn : NoDup (logged (dblock d0 ws st)) -> new (log_tx (dblock d0 ws)) ws bn = recovered st (dblock d0 ws) bn.
Proof.
  intros Hnd. unfold new, recovered. destruct (list_find _ _) as [[i b]|] eqn:E.
  - apply list_find_Some in E as (Hi & -> & _). by rewrite (log_tx_lookup _ i bn).
  - apply list_find_None in E. rewrite Forall_forall in E.
    destruct (log_tx (dblock d0 ws) !! bn) eqn:El; [|done]. exfalso. apply (E bn); [|done]. apply log_tx_dom; [done|]. by rewrite El.
Qed.

Lemma read_head_wp crash s lg ws :
  lrep s lg ∅ ws -> lg_dev lg = dev -> lg_start lg = st -> Z.of_nat (length (lg_block lg)) = LOGSIZE -> header_ok (dblock d0 ws st) -> crash ws ->
  lwp crash (fun _ s' => exists lg', lrep s' lg' ∅ ws /\ log_lists lg' (logged (dblock d0 ws st))) (read_head fuel s).
Proof.
  intros Hs Hd Hst Hlen Hk Hc. assert (Hr : 0 <= st < 2 ^ 31) by (pose proof LOGSIZE_eq; lia). set (hdr := dblock d0 ws st) in *.
  unfold read_head, log_get. mgo. rewrite (proj2 Hs), Hd, Hst. replace (u32 st) with st by (unfold u32; rewrite Z.mod_small; lia).
  eapply l_bread; [exact Hs|apply can_get_fresh; [done|rewrite map_size_empty; pose proof HEAD_eq; lia]|done|done|]. intros b s1 H1.
  change (refs_of ∅ st + 1) with 1 in H1. change (view d0 ∅ ws st) with hdr in H1.
  eapply (l_data crash _ _ s1 lg _ ws st); [exact H1|lk; reflexivity|done|]. cbn [e_data].
  unfold log_upd at 1. mgo. destruct H1 as [H1 L1]. rewrite L1.
  assert (Hn : lg_n (l_log (set_l_log (set_lg_n (hd_int hdr 0) lg) s1)) = hd_int hdr 0) by done. rewrite Hn.
  pose (I := fun (k : nat) (s : lst) => rep (l_b s) (<[st := mk_entry b 1 true hdr]> ∅) ws /\
    exists blk, l_log s = set_lg_block blk (set_lg_n (hd_int hdr 0) lg) /\ length blk = length (lg_block lg) /\
      forall i, (i < k)%nat -> zget blk (Z.of_nat i) = hd_int hdr (S i)).
  eapply wp_call; [apply (wp_each stuck (sub_rel envr) _ I)|].
  - intros i x s2 Hi (H2 & blk & L2 & Hl2 & Hb2). apply lookup_seq in Hi as [-> Hi]. unfold log_upd, modify. cbn [Wp.wp]. split; [done|].
    rewrite L2. eexists. cbn [lg_block set_lg_block l_log set_l_log]. split; [reflexivity|]. split; [by rewrite length_zset|].
    intros j Hj. destruct (decide (j = i)) as [->|Hne].
    + rewrite zget_zset_eq; [done|]. destruct (hk_n _ Hk). pose proof HEAD_eq. pose proof LOGSIZE_eq. lia.
    + rewrite zget_zset_ne by lia. apply Hb2. lia.
  - split; [done|]. exists (lg_block lg). split; [by destruct lg|]. split; [done|]. lia.
  - intros [] s2 (H2 & blk & L2 & Hl2 & Hb2). rewrite length_seq in Hb2.
    eapply wp_mono; [eapply (l_brelse_last crash s2 _ _ ws st); [by split|lk; reflexivity|done|done|done]|].
    intros [] s3 [H3 L3]. eexists. unfold released in H3. cbn [e_refs] in H3. change (1 =? 1) with true in H3. cbn iota in H3.
    rewrite delete_insert_eq, delete_empty in H3. split; [split; [exact H3|exact L3]|]. split; cbn; try done.
    + by rewrite length_logged.
    + intros i bn Hi. assert (Hlt : Z.of_nat i < hd_int hdr 0) by (rewrite <- (length_logged _ Hk); apply lookup_lt_Some in Hi; lia).
      rewrite (logged_lookup _ _ Hk Hlt) in Hi. injection Hi as <-. apply Hb2. lia.
Qed.

Lemma recover_wp s lg ws :
  lrep s lg ∅ ws -> lg_dev lg = dev -> lg_start lg = st -> Z.of_nat (length (lg_block lg)) = LOGSIZE -> header_ok (dblock d0 ws st) ->
  let same ws' := forall bn, home bn -> recovered st (dblock d0 ws') bn = recovered st (dblock d0 ws) bn in
  lwp same (fun _ s' => exists lg' ws', lrep s' lg' ∅ ws' /\ lg_n lg' = 0 /\ hd_int (dblock d0 ws' st) 0 = 0 /\
      forall bn, home bn -> dblock d0 ws' bn = recovered st (dblock d0 ws) bn)
    (recover_from_log fuel s).
Proof.
  intros Hs Hd Hst Hlen Hk same. unfold recover_from_log. set (D := dblock d0 ws).
  pose proof (hk_nodup _ Hk) as Hnd. pose proof (logged_home _ Hk) as Hhome.
  assert (Hfew : (length (logged (D st)) < HEAD)%nat) by (pose proof (length_logged _ Hk) as X; destruct (hk_n _ Hk); unfold D; lia).
  assert (Hdom : forall bn, bn ∈ logged (D st) <-> is_Some (log_tx D !! bn)) by (intros; by apply log_tx_dom).
  assert (Hnew : forall bn, new (log_tx D) ws bn = recovered st D bn) by (intros; by apply new_recovered).
  eapply wp_call; [by apply (read_head_wp same s lg ws)|]. intros [] s1 (lg1 & H1 & Hll).
  assert (I0 : installed (log_tx D) (logged (D st)) ws 0 ws).
  { split; [done| |intros bn _; rewrite take_0; by rewrite decide_False by set_solver].
    intros i bn Hi. unfold new. by rewrite (log_tx_lookup D i bn). }
  eapply wp_call; [apply (install_wp (log_tx D) (logged (D st)) ws Hnd Hhome Hfew Hdom same true s1 lg1 ∅ ws H1); try done|].
  - intros k ws' Hi bn Hb. rewrite (recovered_installed (log_tx D) (logged (D st)) ws Hdom k ws' bn Hi Hb). apply Hnew.
  - intros [] s2 (ws2 & H2 & I2).
    eapply wp_mono; [apply (clear_head_wp (log_tx D) (logged (D st)) ws Hfew Hdom same s2 lg1 ws2 H2 (ll_dev _ _ Hll) (ll_start _ _ Hll) I2)|].
    + intros bn Hb. rewrite (recovered_installed (log_tx D) (logged (D st)) ws Hdom _ ws2 bn I2 Hb). apply Hnew.
    + intros ws' Hw Hz bn Hb. rewrite recovered_empty by done. rewrite Hw by done. apply Hnew.
    + intros [] s3 (ws3 & H3 & Z3 & N3). exists (set_lg_n 0 lg1), ws3. split; [done|]. split; [done|]. split; [done|].
      intros bn Hb. rewrite N3 by done. apply Hnew.
Qed.
End Log.
