(* ===== verification/LogCrash.v ===== *)
(** * Crash safety of end_op and of recovery

    The theorems of LogSpec.v for the buffer cache and the disk driver, and for the
    whole of [end_op]. *)
From stdpp Require Import gmap list strings.
From S2P Require Import Prelude Kstring Abi Machine Spinlock Kalloc Vm Proc Sched Sleeplock Virtio Bio Log Wp BioList BlockEnv VirtioSpec BioSpec LogSpec.

Lemma lst_lift {A} (x : M machine A) m m' a bufs vd rg ws lg :
  x m = Ok a m' -> lift x (mk_lst (mk_bst m bufs vd rg ws) lg) = Ok a (mk_lst (mk_bst m' bufs vd rg ws) lg).
Proof. intros E. unfold lift. cbn. by rewrite E. Qed.

Lemma log_lock_block : block_lock Lk_log.
Proof. by right; right; left. Qed.

(** [end_op] of the last operation of a transaction that wrote the blocks [bns], to
    which [T] gives their new contents: they are in the cache, pinned, and the log on the
    disk is empty. *)
Record end_op_ready (d0 : Z -> list Z) (dev st : Z) (p : nat) (pid : Z) (T : gmap Z (list Z)) (bns : list Z)
    (ws : list (Z * list Z)) (s : lst) : Prop := {
  er_log : 0 <= st /\ st + LOGSIZE + 1 < 2 ^ 31;
  er_nodup : NoDup bns;
  er_home : Forall (home st) bns;
  er_few : Z.of_nat (length bns) < NBUF;
  er_dom : forall bn, bn ∈ bns <-> is_Some (T !! bn);
  er_rep : exists G, brep d0 dev p pid (l_b s) G ws /\ tx G T bns;
  er_lists : log_lists dev st (l_log s) bns;
  er_clear : hd_int (dblock d0 ws st) 0 = 0;
  er_last : lg_outstanding (l_log s) = 1 /\ lg_committing (l_log s) = 0
}.

(** The transaction is on the disk, the log is empty and the cache holds no references. *)
Definition closed (lg : log) : log := mk_log (lg_start lg) (lg_size lg) 0 0 (lg_dev lg) 0 (lg_block lg).
Definition committed (d0 : Z -> list Z) (dev st : Z) (p : nat) (pid : Z) (T : gmap Z (list Z)) (ws : list (Z * list Z)) (lg : log) (s : lst) : Prop :=
  exists ws', brep d0 dev p pid (l_b s) ∅ ws' /\ hd_int (dblock d0 ws' st) 0 = 0 /\ l_log s = closed lg /\
    forall bn, home st bn -> dblock d0 ws' bn = default (dblock d0 ws bn) (T !! bn).

Section EndOp.
Variables (fuel : nat) (d0 : Z -> list Z) (dev st : Z) (p : nat) (pid : Z) (spurious : Prop).
Notation lwp C := (wp spurious (sub_rel (env d0 dev p pid spurious)) (fun s : lst => C (b_writes (l_b s)))).

(** A critical section of the log's lock that changes only the log. *)
Lemma enter_log s G ws : brep d0 dev p pid (l_b s) G ws ->
  exists m bufs vd rg, s = mk_lst (mk_bst m bufs vd rg ws) (l_log s) /\ calm p pid m /\
    lift (acquire Lk_log) s = Ok tt (mk_lst (mk_bst (hold Lk_log m) bufs vd rg ws) (l_log s)) /\
    forall lg, lift (release Lk_log) (mk_lst (mk_bst (hold Lk_log m) bufs vd rg ws) lg) = Ok tt (mk_lst (mk_bst (settle m) bufs vd rg ws) lg) /\
      brep d0 dev p pid (mk_bst (settle m) bufs vd rg ws) G ws.
Proof.
  intros [H1 H2 H3 H4 H5]. destruct s as [[m bufs vd rg ws'] lg]. cbn in *. subst ws'. exists m, bufs, vd, rg.
  split; [done|]. split; [done|]. split; [by apply lst_lift, (calm_acquire p pid _ _ H1 log_lock_block)|].
  intros lg'. split; [by apply lst_lift, (calm_release p pid _ _ H1 log_lock_block)|]. split; try done. by apply calm_settle.
Qed.

Lemma leave_commit s lg T ws ws' :
  lrep (brep d0 dev p pid) s lg ∅ ws' -> lg_n lg = 0 -> lg_outstanding lg = 0 -> hd_int (dblock d0 ws' st) 0 = 0 ->
  (forall bn, home st bn -> dblock d0 ws' bn = default (dblock d0 ws bn) (T !! bn)) ->
  lwp (atomic d0 st T ws) (fun _ => committed d0 dev st p pid T ws lg)
    ((lift (acquire Lk_log) ;;; log_upd (set_lg_committing 0) ;;; lift (wakeup (Some Ch_log)) ;;; lift (release Lk_log)) s).
Proof.
  intros [Hr Hl] Hn Ho Hz Hd. destruct (enter_log s ∅ ws' Hr) as (m & bufs & vd & rg & Es & Hm & Ea & _).
  eapply wp_bind_ok; [exact Ea|]. unfold log_upd. mgo. cbn [set_l_log l_b l_log].
  destruct (calm_wakeup p pid m Lk_log (Some Ch_log) Hm log_lock_block) as (m' & Ew & Hm').
  eapply wp_bind_ok; [apply lst_lift, Ew|].
  eapply wp_ok; [by apply lst_lift, (calm_release p pid _ _ Hm' log_lock_block)|]. exists ws'. cbn. rewrite Hl.
  split; [|split; [done|]; split; [|done]; unfold closed, set_lg_committing; by rewrite Hn, Ho]. rewrite Es in Hr. destruct Hr as [_ H2 H3 H4 H5]. split; try done. by apply calm_settle.
Qed.

Lemma end_op_wp T bns ws s :
  end_op_ready d0 dev st p pid T bns ws s ->
  lwp (atomic d0 st T ws) (fun _ => committed d0 dev st p pid T ws (l_log s)) (log_end_op (S fuel) s).
Proof.
  intros [E1 E2 E3 E4 E5 (G & Hr & Ht) E7 E8 [E9 E10]]. unfold log_end_op.
  destruct (enter_log s G ws Hr) as (m & bufs & vd & rg & Es & Hm & Ea & Hrel).
  eapply wp_bind_ok; [exact Ea|]. unfold log_upd, log_get. mgo. cbn [set_l_log l_b l_log lg_committing set_lg_outstanding lg_outstanding].
  rewrite E9, E10. change (1 - 1) with 0. cbn [Z.eqb negb]. mgo. cbn [set_l_log l_b l_log].
  set (lg := set_lg_committing 1 (set_lg_outstanding 0 (l_log s))). destruct (Hrel lg) as [Er Hr'].
  eapply wp_bind_ok; [exact Er|]. cbn [when].
  eapply wp_call; [eapply (commit_wp (S fuel) dev d0 spurious _ (brep d0 dev p pid) st E1 T bns ws E2 E3)|].
  - change (Z.of_nat (length bns) < 30) in E4. pose proof HEAD_eq. lia.
  - done.
  - by split.
  - done.
  - destruct E7 as [L1 L2 L3 L4]. by split.
  - done.
  - intros [] s' (ws' & H1 & H2 & H3). by apply (leave_commit s' _ T ws ws' H1).
Qed.
End EndOp.

(** C6. The end of a transaction is atomic with respect to crashes.  Whenever the process
    that runs [end_op] waits for the disk, the machine may stop: with what the disk then
    holds, recovery restores either the file system as it was before the transaction or
    as it is after it, for all blocks together.  When [end_op] returns, the transaction is
    on the disk and the log is empty.  Meanwhile other processes may use the cache; with
    [spurious] the process may also be woken before its request was served, and then
    running out of fuel is allowed; without it [end_op] returns. *)
Theorem end_op_crash_safe (fuel : nat) (d0 : Z -> list Z) (dev st : Z) (p : nat) (pid : Z) (spurious : Prop)
    (T : gmap Z (list Z)) (bns : list Z) (ws : list (Z * list Z)) (s : lst) :
  end_op_ready d0 dev st p pid T bns ws s ->
  wp spurious (sub_rel (env d0 dev p pid spurious))
    (fun s' => (forall bn, home st bn -> recovered st (dblock d0 (b_writes (l_b s'))) bn = dblock d0 ws bn) \/
               (forall bn, home st bn -> recovered st (dblock d0 (b_writes (l_b s'))) bn = default (dblock d0 ws bn) (T !! bn)))
    (fun _ => committed d0 dev st p pid T ws (l_log s)) (log_end_op (S fuel) s).
Proof. apply end_op_wp. Qed.

(** C7. Recovery is idempotent and may be interrupted.  [recover_from_log], run on a disk
    whose log was written by a commit, keeps what the log and the disk together mean at
    every moment at which the machine may stop, and when it returns every block has its
    recovered contents and the log is empty. *)
Theorem recover_crash_safe (fuel : nat) (d0 : Z -> list Z) (dev st : Z) (p : nat) (pid : Z) (spurious : Prop)
    (ws : list (Z * list Z)) (s : lst) :
  0 <= st /\ st + LOGSIZE + 1 < 2 ^ 31 -> brep d0 dev p pid (l_b s) ∅ ws ->
  lg_dev (l_log s) = dev /\ lg_start (l_log s) = st /\ Z.of_nat (length (lg_block (l_log s))) = LOGSIZE ->
  header_ok st (dblock d0 ws st) ->
  wp spurious (sub_rel (env d0 dev p pid spurious))
    (fun s' => forall bn, home st bn -> recovered st (dblock d0 (b_writes (l_b s'))) bn = recovered st (dblock d0 ws) bn)
    (fun _ s' => exists ws', brep d0 dev p pid (l_b s') ∅ ws' /\ lg_n (l_log s') = 0 /\ hd_int (dblock d0 ws' st) 0 = 0 /\
       forall bn, home st bn -> dblock d0 ws' bn = recovered st (dblock d0 ws) bn)
    (recover_from_log (S fuel) s).
Proof.
  intros Hst Hr (Hd & Hs & Hl) Hk. eapply wp_mono; [by apply (recover_wp (S fuel) dev d0 spurious _ (brep d0 dev p pid) st Hst s (l_log s) ws)|].
  intros [] s' (lg' & ws' & [H1 H2] & H3 & H4 & H5). exists ws'. by rewrite H2.
Qed.

(** ** A system with one transaction to commit *)

Definition demo_locks : list lockid := Lk_bcache :: Lk_vdisk :: Lk_log :: Lk_itable :: map Lk_buf (seq 0 HEAD) ++ map Lk_inode (seq 0 (Z.to_nat NINODE)) ++ proc_locks.
Definition demo_machine : machine :=
  mk_machine (mk_hart 0 2 0 0 (Some 0%nat)) (free_locks demo_locks) ∅ 0
    (set_p_pid 1 (set_p_state RUNNING proc_zero) :: replicate 63 proc_zero) (Some 0%nat) 2 0.

(** [first] in buffer 0, the other buffers never used, linked in the order of their indices. *)
Definition demo_bufs (first : buf) : list buf :=
  imap (fun i x => set_buf_prev ((i + HEAD) mod S HEAD) (set_buf_next (S i mod S HEAD) x)) (first :: replicate HEAD buf_zero).
Definition demo_vdisk : vdisk :=
  mk_vdisk (replicate NUM desc_zero) 0 (replicate NUM 0%nat) 0 (replicate NUM 0%nat) (replicate NUM true) 0
    (replicate NUM (None, 0)) (replicate NUM (mk_req 0 0 0)).
Definition demo (first : buf) (lg : log) : lst := mk_lst (mk_bst demo_machine (demo_bufs first) demo_vdisk ∅ []) lg.
Definition demo_disk (sector : Z) : list Z := replicate 1024 0.

Lemma demo_calm : calm 0 1 demo_machine.
Proof.
  assert (H : forall l, l ∈ demo_locks -> unlocked l demo_machine) by (intros l Hl; by eapply free_locks_unlocked).
  split; try reflexivity; [vm_compute; lia| |].
  - intros q Hq. apply H. unfold demo_locks. do 4 right. apply elem_of_app. right. apply elem_of_app. right. by apply proc_lock_elem.
  - intros l [->|[->|[->|[(i & Hi & ->)|[->|(i & Hi & ->)]]]]]; apply H; [left|right; left|right; right; left| |do 3 right; left|]; unfold demo_locks.
    + do 4 right. apply elem_of_app. left. apply list_elem_of_fmap. exists i. split; [done|]. apply elem_of_seq. lia.
    + do 4 right. apply elem_of_app. right. apply elem_of_app. left. apply list_elem_of_fmap. exists i. split; [done|]. apply elem_of_seq. lia.
Qed.

Lemma demo_idle : vd_idle demo_vdisk.
Proof. by split. Qed.

Lemma demo_core first i : (i < HEAD)%nat -> core (gb (demo_bufs first) i) = core (if decide (i = 0%nat) then first else buf_zero).
Proof.
  intros Hi. unfold gb, demo_bufs. rewrite list_lookup_imap. destruct i as [|i]; [done|].
  change ((first :: replicate HEAD buf_zero) !! S i) with (replicate HEAD buf_zero !! i). by rewrite lookup_replicate_2 by lia.
Qed.

(** What [first] has to satisfy. *)
Record demo_first (first : buf) : Prop := {
  df_len : length (buf_data first) = 1024%nat;
  df_refs : 0 <= buf_refcnt first <= 1;
  df_unlocked : sl_locked (buf_lock first) = 0;
  df_clean : buf_refcnt first = 0 -> buf_valid first = 0
}.

Lemma demo_get {A} (g : buf -> A) first i :
  (forall x, g (core x) = g x) -> (i < HEAD)%nat ->
  g (gb (demo_bufs first) i) = g (if decide (i = 0%nat) then first else buf_zero).
Proof. intros Hg Hi. by rewrite <- Hg, demo_core, Hg. Qed.

Lemma demo_cwf d0 first : (forall sec, length (d0 sec) = 1024%nat) -> demo_first first -> cwf d0 1 (demo_bufs first) [].
Proof.
  intros Hd [F1 F2 F3 F4]. split.
  - exists (seq 0 HEAD). split; [reflexivity|done|]. by repeat split.
  - intros i Hi. rewrite (demo_get buf_data) by done. destruct (decide _); [rewrite F1|]; reflexivity.
  - intros i Hi. rewrite (demo_get buf_refcnt) by done. destruct (decide _); cbn; lia.
  - intros i j Hi Hj. rewrite !(demo_get buf_dev) by done. destruct (decide (i = 0%nat)), (decide (j = 0%nat)); try discriminate. lia.
  - intros i Hi. rewrite (demo_get buf_refcnt), (demo_get buf_lock), (demo_get buf_dev), (demo_get buf_valid) by done.
    destruct (decide _); [|done]. intros Hz. split; [done|]. by rewrite (F4 Hz).
  - intros sec. unfold disk_at. cbn [fold_left]. by rewrite Hd.
Qed.

(** A transaction that wrote sevens to block 40. *)
Definition sevens : list Z := replicate 1024 7.
Definition demo_T : gmap Z (list Z) := {[40 := sevens]}.
Definition demo_tx : lst :=
  demo (mk_buf 1 0 1 40 (mk_sleeplock 0 "buffer" 0) 1 0 0 sevens) (mk_log 2 30 1 0 1 1 (40 :: replicate 29 0)).

Lemma demo_tx_ready : end_op_ready demo_disk 1 2 0 1 demo_T [40] [] demo_tx.
Proof.
  split; try done.
  - repeat constructor. set_solver.
  - apply Forall_singleton. unfold home, LOGSIZE, MAXOPBLOCKS. lia.
  - intros bn. unfold demo_T. rewrite list_elem_of_singleton, lookup_singleton_is_Some. naive_solver.
  - exists {[40 := mk_entry 0 1 false sevens]}. split; [split; [exact demo_calm|by apply demo_cwf| |exact demo_idle|reflexivity]|split].
    + split; cbn [l_b demo_tx demo b_bufs].
      * intros bn e [<- <-]%lookup_singleton_Some. split; [rewrite HEAD_eq; cbn; lia|]. by split.
      * intros i Hi Hn. exists (mk_entry 0 1 false sevens). destruct i as [|i]; [by rewrite lookup_singleton_eq|].
        exfalso. apply Hn. by rewrite (demo_get buf_refcnt) by done.
    + intros bn. destruct (decide _) as [->%list_elem_of_singleton|Hne].
      * exists 0%nat, sevens. by rewrite lookup_singleton_eq.
      * apply lookup_singleton_ne. set_solver.
    + intros bn e [<- <-]%lookup_singleton_Some. unfold demo_T. by rewrite lookup_singleton_eq.
  - split; try reflexivity. intros [|i] bn [=]; done.
Qed.

Lemma end_op_crash_safe_witness :
  wp False (sub_rel (env demo_disk 1 0 1 False))
    (fun s' => (forall bn, home 2 bn -> recovered 2 (dblock demo_disk (b_writes (l_b s'))) bn = demo_disk bn) \/
               (forall bn, home 2 bn -> recovered 2 (dblock demo_disk (b_writes (l_b s'))) bn = default (demo_disk bn) (demo_T !! bn)))
    (fun _ => committed demo_disk 1 2 0 1 demo_T [] (l_log demo_tx)) (log_end_op 1 demo_tx).
Proof. exact (end_op_crash_safe 0 demo_disk 1 2 0 1 False demo_T [40] [] demo_tx demo_tx_ready). Defined.

(** A machine that boots from a disk whose log holds that transaction. *)
Definition logged_disk (sector : Z) : list Z :=
  if sector =? 2 * 2 then header (replicate 1024 0) [40] else if sector =? 2 * 3 then sevens else replicate 1024 0.
Definition demo_boot : lst := demo buf_zero (mk_log 2 30 0 0 1 0 (replicate 30 0)).

Lemma demo_boot_rep d0 : (forall sec, length (d0 sec) = 1024%nat) -> brep d0 1 0 1 (l_b demo_boot) ∅ [].
Proof.
  intros Hd. split; [exact demo_calm| | |exact demo_idle|reflexivity].
  - by apply demo_cwf.
  - split; [done|]. intros i Hi []. cbn [l_b demo_boot demo b_bufs]. rewrite (demo_get buf_refcnt) by done. by destruct (decide _).
Qed.

Lemma demo_header : header_ok 2 (logged_disk (2 * 2)).
Proof.
  split; [by vm_compute| |]; change (hd_int (logged_disk (2 * 2)) 0) with 1.
  - intros [|i] Hi; [|lia]. change (hd_int (logged_disk (2 * 2)) 1) with 40. unfold home, LOGSIZE, MAXOPBLOCKS. lia.
  - change (logged (logged_disk (2 * 2))) with [40]. apply NoDup_singleton.
Qed.

Lemma recover_crash_safe_witness :
  recovered 2 (dblock logged_disk []) 40 = sevens /\
  wp False (sub_rel (env logged_disk 1 0 1 False))
    (fun s' => forall bn, home 2 bn -> recovered 2 (dblock logged_disk (b_writes (l_b s'))) bn = recovered 2 (dblock logged_disk []) bn)
    (fun _ s' => exists ws', brep logged_disk 1 0 1 (l_b s') ∅ ws' /\ lg_n (l_log s') = 0 /\ hd_int (dblock logged_disk ws' 2) 0 = 0 /\
       forall bn, home 2 bn -> dblock logged_disk ws' bn = recovered 2 (dblock logged_disk []) bn)
    (recover_from_log 1 demo_boot).
Proof.
  split; [reflexivity|].
  apply (recover_crash_safe 0 logged_disk 1 2 0 1 False [] demo_boot); [by vm_compute| |done|exact demo_header].
  apply demo_boot_rep. intros sec. unfold logged_disk. by repeat destruct (_ =? _).
Defined.
