(* ===== verification/SchedLive.v ===== *)
(** * The scheduler gives every runnable process the CPU

    [scheduler] of kernel/proc.c as a loop that never ends: as long as the threads it
    switches to give the CPU back, each pass over the process table is completed, and
    each process that is runnable when the pass begins is switched to in it. *)
From stdpp Require Import gmap list strings.
From S2P Require Import Prelude Kstring Abi Machine Spinlock Kalloc Vm Proc Sched Sleeplock Virtio Bio Log Fs Console Pipe File Sysfile Syscall Trap.

(** The hart holds no lock and nobody holds the lock of a process. *)
Record idle (m : machine) : Prop := {
  id_depth : h_noff (m_hart m) = 0;
  id_len : length (m_procs m) = Z.to_nat NPROC;
  id_locks : forall q, (q < Z.to_nat NPROC)%nat -> unlocked (Lk_proc q) m
}.

Lemma idle_ok m : idle m -> hart_ok m.
Proof. intros [H]. split; rewrite H; lia. Qed.

Lemma idle_settle m : idle m -> idle (settle m).
Proof.
  intros [H1 H2 H3]. split; [|done|].
  - unfold settle, with_hart, cpu_settle. cbn. by rewrite H1.
  - intros q Hq. by apply unlocked_settle, H3.
Qed.

Lemma idle_cpu_proc c m : idle m -> idle (with_hart (set_h_proc c) m).
Proof. intros [H1 H2 H3]. by split. Qed.

Lemma hold_cpu_proc l c m : with_hart (set_h_proc c) (hold l m) = hold l (with_hart (set_h_proc c) m).
Proof. destruct m as [[]]. unfold hold, with_hart, cpu_push. cbn. by destruct (_ =? _). Qed.

Lemma hold_upd_proc l p f m : upd_proc p f (hold l m) = hold l (upd_proc p f m).
Proof. reflexivity. Qed.

Definition runnable (s : sys) (p : nat) : Prop := p_state (get_proc (k_machine (sy_k s)) p) = RUNNABLE.
#[global] Instance runnable_dec s p : Decision (runnable s p).
Proof. unfold runnable. apply _. Defined.

Definition with_machine (f : machine -> machine) (s : sys) : sys :=
  mk_sys (set_k_machine (f (k_machine (sy_k s))) (sy_k s)) (sy_threads s).

Lemma k_machine_with f s : k_machine (sy_k (with_machine f s)) = f (k_machine (sy_k s)).
Proof. by destruct s as [[[[[]]]]]. Qed.

Lemma own_step_lift (x : M machine unit) s f :
  x (k_machine (sy_k s)) = Ok tt (f (k_machine (sy_k s))) -> own_step (lift x) s = Back (with_machine f s).
Proof. intros E. unfold own_step, lift. change (sub_get (sy_k s)) with (k_machine (sy_k s)). by rewrite E. Qed.

Lemma set_cpu_proc_eq c s : own_step (set_cpu_proc c) s = Back (with_machine (with_hart (set_h_proc c)) s).
Proof. by apply (own_step_lift _ s (with_hart (set_h_proc c))). Qed.

Lemma with_machine_with f g s : with_machine g (with_machine f s) = with_machine (fun m => g (f m)) s.
Proof. by destruct s as [[[[[]]]]]. Qed.

Lemma own_step_modify f g s : own_step (lift (modify f) ;;; lift (modify g)) s = Back (with_machine (fun m => g (f m)) s).
Proof. by destruct s as [[[[[]]]]]. Qed.

Section Scheduler.
Variables (fuel : nat) (kend trampoline uservec usertrap_addr kernelvec forkret_addr : Z) (pad : list Z).
Variables (user : nat -> kst -> kst) (sched_ra : Z) (n : nat).
Notation swtch_to := (swtch_to fuel kend trampoline uservec usertrap_addr kernelvec forkret_addr pad user sched_ra n).
Notation schedule_one := (schedule_one fuel kend trampoline uservec usertrap_addr kernelvec forkret_addr pad user sched_ra n).
Notation schedule_round := (schedule_round fuel kend trampoline uservec usertrap_addr kernelvec forkret_addr pad user sched_ra n).
Notation scheduler_loop rounds := (scheduler_loop fuel kend trampoline uservec usertrap_addr kernelvec forkret_addr pad user sched_ra rounds n).
Notation scheduler rounds := (scheduler fuel kend trampoline uservec usertrap_addr kernelvec forkret_addr pad user sched_ra rounds n).

(** The system when the CPU is given to [p]. *)
Definition dispatch (p : nat) (s : sys) : sys :=
  with_machine (fun m => hold (Lk_proc p) (with_hart (set_h_proc (Some p)) (upd_proc p (set_p_state RUNNING) m))) s.

(** [p] has given the CPU back: as the comments of [scheduler] and [sched] ask for, it
    holds its own lock and no other; runnable processes have been left runnable. *)
Definition gives_back (p : nat) (s s' : sys) : Prop :=
  (exists m, k_machine (sy_k s') = hold (Lk_proc p) m /\ idle m) /\
  forall q, q <> p -> runnable s q -> runnable s' q.

(** [s'] is the system after [p] gave the CPU back in [s]: the hart runs no process and the
    lock of [p] is released, nothing else is changed. *)
Definition returned (p : nat) (s s' : sys) : Prop :=
  exists m, k_machine (sy_k s) = hold (Lk_proc p) m /\ s' = with_machine (fun _ => settle (with_hart (set_h_proc None) m)) s.

(** The processes of [l] give the CPU back when it is their turn. *)
Fixpoint cooperative (l : list nat) (s : sys) : Prop :=
  match l with
  | [] => True
  | p :: l =>
      (runnable s p -> exists s', swtch_to p (dispatch p s) = Back s' /\ gives_back p s s') /\
      (forall s', schedule_one p s = Back s' -> cooperative l s')
  end.

Lemma release_back p m s : k_machine (sy_k s) = hold (Lk_proc p) m -> (p < Z.to_nat NPROC)%nat -> idle m ->
  own_step (lift (release (Lk_proc p))) s = Back (with_machine (fun _ => settle m) s).
Proof.
  intros E Hp Hm. apply (own_step_lift _ s (fun _ => settle m)). rewrite E.
  apply release_hold; [by apply idle_ok|]. by apply (id_locks _ Hm).
Qed.

Lemma schedule_one_ok p s :
  idle (k_machine (sy_k s)) -> (p < Z.to_nat NPROC)%nat ->
  (runnable s p -> exists s', swtch_to p (dispatch p s) = Back s' /\ gives_back p s s') ->
  exists s', schedule_one p s = Back s' /\ idle (k_machine (sy_k s')) /\ (forall q, q <> p -> runnable s q -> runnable s' q) /\
    if decide (runnable s p) then exists s1, swtch_to p (dispatch p s) = Back s1 /\ returned p s1 s'
    else s' = with_machine settle s.
Proof.
  intros Hm Hp Hc. unfold Trap.schedule_one.
  rewrite (own_step_lift _ s (hold (Lk_proc p))) by (apply acquire_ok, (id_locks _ Hm p Hp)). cbn [obind].
  rewrite k_machine_with. change (get_proc (hold (Lk_proc p) ?m)) with (get_proc m). change (decide (p_state (get_proc (k_machine (sy_k s)) p) = RUNNABLE)) with (decide (runnable s p)). destruct (decide (runnable s p)) as [Hr|Hr].
  - destruct (Hc Hr) as (s2 & E2 & (m2 & Em & Hm2) & Hq).
    unfold proc_set, set_cpu_proc at 1. rewrite own_step_modify, with_machine_with.
    change (with_machine _ s) with (with_machine (fun m => with_hart (set_h_proc (Some p)) (hold (Lk_proc p) (upd_proc p (set_p_state RUNNING) m))) s).
    assert (Ed : with_machine (fun m => with_hart (set_h_proc (Some p)) (hold (Lk_proc p) (upd_proc p (set_p_state RUNNING) m))) s = dispatch p s)
      by (unfold dispatch, with_machine; by rewrite hold_cpu_proc).
    rewrite Ed. cbn [obind]. rewrite E2. cbn [obind]. rewrite set_cpu_proc_eq. cbn [obind].
    rewrite (release_back p (with_hart (set_h_proc None) m2)); [|by rewrite k_machine_with, Em, hold_cpu_proc|done|by apply idle_cpu_proc].
    eexists. split; [reflexivity|]. rewrite with_machine_with, k_machine_with. split; [by apply idle_settle, idle_cpu_proc|].
    split; [|exists s2; split; [done|]; by exists m2].
    intros q Hne Hqr. specialize (Hq q Hne Hqr). unfold runnable in *. rewrite k_machine_with. by rewrite Em in Hq.
  - cbn [obind]. rewrite (release_back p (k_machine (sy_k s))); [|apply k_machine_with|done|done].
    eexists. split; [reflexivity|]. rewrite with_machine_with, k_machine_with. split; [by apply idle_settle|].
    split; [intros q _ Hq; unfold runnable; by rewrite k_machine_with|done].
Qed.

(** A pass over the processes [l]. *)
Lemma schedule_round_ok l : forall s,
  idle (k_machine (sy_k s)) -> Forall (fun p => (p < Z.to_nat NPROC)%nat) l -> NoDup l -> cooperative l s ->
  exists s', schedule_round l s = Back s' /\ idle (k_machine (sy_k s')) /\
    (forall q, q ∉ l -> runnable s q -> runnable s' q) /\
    forall l1 p l2, l = l1 ++ p :: l2 -> runnable s p ->
      exists s0 s1 s2, schedule_round l1 s = Back s0 /\ runnable s0 p /\ swtch_to p (dispatch p s0) = Back s1 /\
        returned p s1 s2 /\ schedule_round (l1 ++ [p]) s = Back s2.
Proof.
  induction l as [|p l IH]; intros s Hm Hl Hnd Hc.
  { exists s. do 3 (split; [done|]). by intros [|? ?] ? ? ?. }
  destruct Hc as [Hp Hc]. inversion_clear Hl as [|? ? Hlt Hl']. inversion_clear Hnd as [|? ? Hnp Hnd'].
  destruct (schedule_one_ok p s Hm Hlt Hp) as (s1 & E1 & Hm1 & Hq1 & Hback).
  destruct (IH s1 Hm1 Hl' Hnd' (Hc s1 E1)) as (s' & E & Hm' & Hq' & Hrun).
  exists s'. split; [cbn [Trap.schedule_round]; by rewrite E1|]. split; [done|]. split.
  - intros q [Hne Hni]%not_elem_of_cons Hr. auto.
  - intros [|p' l1] q l2 [= <- E2] Hr.
    + rewrite decide_True in Hback by done. destruct Hback as (s2 & E3 & Hret). exists s, s2, s1. do 4 (split; [done|]).
      cbn [app Trap.schedule_round]. by rewrite E1.
    + destruct (Hrun l1 q l2 E2) as (s0 & s2 & s3 & H1 & H2 & H3 & H4 & H5).
      { apply Hq1; [|done]. intros ->. apply Hnp. rewrite E2. apply elem_of_app. right. left. }
      exists s0, s2, s3. cbn [app Trap.schedule_round]. by rewrite E1.
Qed.

(** The start of a pass. *)
Definition enable (s : sys) : sys := with_machine (with_hart (fun h => set_h_sstatus (Z.lor (h_sstatus h) SSTATUS_SIE) h)) s.

Lemma scheduler_S rounds s :
  scheduler (S rounds) s = obind (scheduler rounds s) (fun s => schedule_round proc_table (enable s)).
Proof.
  unfold Trap.scheduler. rewrite set_cpu_proc_eq. cbn [obind]. generalize (with_machine (with_hart (set_h_proc None)) s). clear s.
  induction rounds as [|rounds IH]; intros s.
  - cbn [Trap.scheduler_loop obind]. change (own_step (lift intr_on) s) with (Back (enable s)). cbn [obind]. by destruct (schedule_round _ _).
  - change (scheduler_loop (S (S rounds)) s) with
      (obind (own_step (lift intr_on) s) (fun s => obind (schedule_round proc_table s) (fun s => scheduler_loop (S rounds) s))).
    cbn [Trap.scheduler_loop]. change (own_step (lift intr_on) s) with (Back (enable s)). cbn [obind].
    destruct (schedule_round proc_table (enable s)) as [s'| |]; [|done|done]. cbn [obind]. apply IH.
Qed.

Lemma pass_ok s : idle (k_machine (sy_k s)) -> cooperative proc_table (enable s) ->
  exists s', schedule_round proc_table (enable s) = Back s' /\ idle (k_machine (sy_k s')) /\
    forall p, (p < Z.to_nat NPROC)%nat -> runnable s p ->
      exists s0 s1 s2, schedule_round (seq 0 p) (enable s) = Back s0 /\ runnable s0 p /\ swtch_to p (dispatch p s0) = Back s1 /\
        returned p s1 s2 /\ schedule_round (seq 0 (S p)) (enable s) = Back s2.
Proof.
  intros Hm Hc. destruct (schedule_round_ok proc_table (enable s)) as (s' & E & Hm' & _ & Hrun); [| |apply NoDup_seq|done|].
  - unfold enable. rewrite k_machine_with. by destruct Hm as [? ? ?].
  - apply Forall_forall. intros p Hp%elem_of_seq. lia.
  - exists s'. split; [done|]. split; [done|]. intros p Hp Hr. rewrite seq_S.
    apply (Hrun (seq 0 p) p (seq (S p) (Z.to_nat NPROC - S p))); [|unfold runnable, enable in *; by rewrite k_machine_with].
    unfold proc_table. replace (Z.to_nat NPROC) with (p + S (Z.to_nat NPROC - S p))%nat at 1 by lia. by rewrite seq_app.
Qed.

Lemma scheduler_ok s :
  idle (k_machine (sy_k s)) ->
  (forall rounds s', scheduler rounds s = Back s' -> cooperative proc_table (enable s')) ->
  forall rounds, exists s', scheduler rounds s = Back s' /\ idle (k_machine (sy_k s')).
Proof.
  intros Hm Hc. induction rounds as [|rounds (s' & E & Hm')].
  - unfold Trap.scheduler. rewrite set_cpu_proc_eq. eexists. split; [reflexivity|]. rewrite k_machine_with. by apply idle_cpu_proc.
  - rewrite scheduler_S, E. cbn [obind]. destruct (pass_ok s' Hm' (Hc _ _ E)) as (s'' & E' & Hm'' & _). by exists s''.
Qed.
End Scheduler.


(** ** A system with one process, which goes to sleep when it runs *)

Definition sleepy : thread := fun k => Swtch (set_k_machine (upd_proc 0 (set_p_state SLEEPING) (k_machine k)) k) (fun _ => Hang).

Definition live_machine : machine :=
  mk_machine (mk_hart 0 2 0 0 None) (free_locks proc_locks) ∅ 0 (set_p_state RUNNABLE proc_zero :: replicate 63 proc_zero) None 2 0.
Definition live_sys : sys :=
  mk_sys (mk_kst (mk_fss (mk_lst (mk_bst live_machine [] (mk_vdisk [] 0 [] 0 [] [] 0 [] []) ∅ []) (mk_log 0 0 0 0 0 0 [])) []
                    (mk_superblock 0 0 0 0 0 0 0 0))
            (mk_con [] [] 0 0 [] 0 0 [] 0 0 0 [] 0 0 0) ∅ [] [] (mk_csr 0 0 0 0 0 0) 0 0 0) {[0%nat := sleepy]}.

Section Live.
Variables (fuel : nat) (kend trampoline uservec usertrap_addr kernelvec : Z) (pad : list Z).
Variables (user : nat -> kst -> kst) (n : nat).
Notation fork := 1.
Notation ra := 2.

(** Only process 0 can be runnable, and then its thread is [sleepy]. *)
Definition one_sleepy (s : sys) : Prop :=
  forall p, runnable s p -> p = 0%nat /\ sy_threads s !! 0%nat = Some sleepy /\ ctx_ra (p_context (get_proc (k_machine (sy_k s)) 0)) <> fork.

Lemma sleepy_back s : idle (k_machine (sy_k s)) -> one_sleepy s -> runnable s 0 ->
  exists s', swtch_to fuel kend trampoline uservec usertrap_addr kernelvec fork pad user ra n 0 (dispatch 0 s) = Back s' /\ gives_back 0 s s' /\
    forall p, ~ runnable s' p.
Proof.
  intros Hm Ho Hr. destruct (Ho 0%nat Hr) as (_ & Ht & Hc). set (m := k_machine (sy_k s)) in *.
  set (m1 := with_hart (set_h_proc (Some 0%nat)) (upd_proc 0 (set_p_state RUNNING) m)).
  assert (Hlen : (0 < length (m_procs m))%nat) by (rewrite (id_len _ Hm); by vm_compute; lia).
  assert (Hg : forall q, get_proc m1 q = if decide (q = 0%nat) then set_p_state RUNNING (get_proc m 0) else get_proc m q).
  { intros q. change (get_proc m1 q) with (get_proc (upd_proc 0 (set_p_state RUNNING) m) q). destruct (decide (q = 0%nat)) as [->|Hne].
    - by rewrite get_upd_proc_eq.
    - by rewrite get_upd_proc_ne. }
  unfold swtch_to. assert (Em : k_machine (sy_k (dispatch 0 s)) = hold (Lk_proc 0) m1) by apply k_machine_with. rewrite Em.
  change (get_proc (hold (Lk_proc 0) m1) 0) with (get_proc m1 0). rewrite Hg, decide_True by done. cbn [p_context set_p_state].
  rewrite (proj2 (Z.eqb_neq _ _)) by done. change (sy_threads (dispatch 0 s)) with (sy_threads s).
  match goal with |- context [match ?x with Some _ => _ | None => _ end] => replace x with (Some sleepy) by (symmetry; exact Ht) end.
  assert (Hk : forall m k, k_machine (set_k_machine m k) = m) by (by intros ? [[[[]]]]).
  eexists. split; [destruct n; reflexivity|]. unfold gives_back, runnable. cbn [sy_k]. rewrite !Hk, Em, !hold_upd_proc.
  set (f := fun x => set_p_context (set_ra ra (p_context x)) x). set (m2 := upd_proc 0 f (upd_proc 0 (set_p_state SLEEPING) m1)).
  assert (Hg2 : forall q, get_proc m2 q = if decide (q = 0%nat) then f (set_p_state SLEEPING (get_proc m1 0)) else get_proc m1 q).
  { assert (Hl1 : (0 < length (m_procs m1))%nat) by (by rewrite (length_upd_proc 0 _ m : length (m_procs m1) = _)).
    intros q. unfold m2. destruct (decide (q = 0%nat)) as [->|Hne]; [|by rewrite !get_upd_proc_ne].
    rewrite get_upd_proc_eq by (by rewrite length_upd_proc). by rewrite get_upd_proc_eq. }
  split; [split|].
  - exists m2. split; [done|]. destruct Hm as [I1 I2 I3]. split; [done| |done]. unfold m2. rewrite !length_upd_proc. exact (eq_trans (length_upd_proc 0 _ m) I2).
  - intros q Hne Hq. change (p_state (get_proc m2 q) = RUNNABLE). rewrite Hg2, decide_False, Hg, decide_False by done. done.
  - intros p Hp. change (p_state (get_proc m2 p) = RUNNABLE) in Hp. rewrite Hg2 in Hp. destruct (decide _) as [->|Hne]; [done|].
    rewrite Hg, decide_False in Hp by done. by destruct (Ho p Hp).
Qed.

Notation schedule_one := (schedule_one fuel kend trampoline uservec usertrap_addr kernelvec fork pad user ra n).
Notation schedule_round := (schedule_round fuel kend trampoline uservec usertrap_addr kernelvec fork pad user ra n).
Notation scheduler rounds := (scheduler fuel kend trampoline uservec usertrap_addr kernelvec fork pad user ra rounds n).
Notation cooperative := (cooperative fuel kend trampoline uservec usertrap_addr kernelvec fork pad user ra n).

Lemma sleepy_one p s : idle (k_machine (sy_k s)) -> one_sleepy s -> (p < Z.to_nat NPROC)%nat ->
  (runnable s p -> exists s', swtch_to fuel kend trampoline uservec usertrap_addr kernelvec fork pad user ra n p (dispatch p s) = Back s' /\ gives_back p s s') /\
  exists s', schedule_one p s = Back s' /\ idle (k_machine (sy_k s')) /\ one_sleepy s'.
Proof.
  intros Hm Ho Hp.
  assert (Hb : runnable s p -> exists s', swtch_to fuel kend trampoline uservec usertrap_addr kernelvec fork pad user ra n p (dispatch p s) = Back s' /\
    gives_back p s s' /\ forall q, ~ runnable s' q).
  { intros Hr. destruct (Ho p Hr) as (-> & _). by apply sleepy_back. }
  assert (Hc : runnable s p -> exists s', swtch_to fuel kend trampoline uservec usertrap_addr kernelvec fork pad user ra n p (dispatch p s) = Back s' /\ gives_back p s s').
  { intros Hr. destruct (Hb Hr) as (s' & ? & ? & _). eauto. }
  split; [done|]. destruct (schedule_one_ok _ _ _ _ _ _ _ _ _ _ _ p s Hm Hp Hc) as (s' & E & Hm' & _ & Hs').
  exists s'. split; [done|]. split; [done|]. unfold one_sleepy, runnable.
  destruct (decide (runnable s p)) as [Hr|Hr]; [|subst s'; by rewrite k_machine_with].
  destruct Hs' as (s1 & E1 & m & Em & ->). destruct (Hb Hr) as (s2 & E2 & _ & Hn). assert (s2 = s1) as -> by congruence.
  intros q Hq. destruct (Hn q). unfold runnable. rewrite Em. by rewrite k_machine_with in Hq.
Qed.

Lemma sleepy_cooperative l : Forall (fun p => (p < Z.to_nat NPROC)%nat) l -> forall s,
  idle (k_machine (sy_k s)) -> one_sleepy s -> cooperative l s /\
  forall s', schedule_round l s = Back s' -> idle (k_machine (sy_k s')) /\ one_sleepy s'.
Proof.
  induction 1 as [|p l Hp _ IH]; intros s Hm Ho; [split; [done|]; by intros ? [= <-]|].
  destruct (sleepy_one p s Hm Ho Hp) as (Hc & s1 & E1 & Hm1 & Ho1). destruct (IH s1 Hm1 Ho1) as [Hc1 Hr1]. split.
  - split; [done|]. intros s' E. by assert (s' = s1) as -> by congruence.
  - intros s'. cbn [Trap.schedule_round]. rewrite E1. apply Hr1.
Qed.

Lemma sleepy_pass s : idle (k_machine (sy_k s)) -> one_sleepy s -> cooperative proc_table (enable s) /\
  forall s', schedule_round proc_table (enable s) = Back s' -> idle (k_machine (sy_k s')) /\ one_sleepy s'.
Proof.
  intros Hm Ho. apply sleepy_cooperative.
  - apply Forall_forall. intros p Hp%elem_of_seq. lia.
  - unfold enable. rewrite k_machine_with. by destruct Hm as [? ? ?].
  - unfold one_sleepy, runnable, enable. rewrite k_machine_with. exact Ho.
Qed.

Lemma live_idle : idle (k_machine (sy_k live_sys)).
Proof. split; [done|done|]. intros q Hq. eapply free_locks_unlocked; [reflexivity|]. by apply proc_lock_elem. Qed.

Lemma live_ok rounds s' : scheduler rounds live_sys = Back s' -> idle (k_machine (sy_k s')) /\ one_sleepy s'.
Proof.
  revert s'. induction rounds as [|rounds IH]; intros s'.
  - unfold Trap.scheduler. rewrite set_cpu_proc_eq. cbn [obind Trap.scheduler_loop]. intros [= <-]. split; [rewrite k_machine_with; apply idle_cpu_proc, live_idle|].
    intros [|p] Hr; [by repeat split|]. exfalso. unfold runnable in Hr. rewrite k_machine_with in Hr.
    change (p_state (default proc_zero (replicate 63 proc_zero !! p)) = RUNNABLE) in Hr.
    destruct (replicate 63 proc_zero !! p) as [x|] eqn:E; [|done]. apply lookup_replicate in E as [-> _]. done.
  - rewrite scheduler_S. destruct (scheduler rounds live_sys) as [s1| |]; cbn [obind]; [|done|done]. destruct (IH s1 eq_refl) as [Hm Ho].
    by apply sleepy_pass.
Qed.
End Live.

