(* ===== verification/LogWrite.v ===== *)
(** * log_write and begin_op of kernel/log.c

    How a block gets into the transaction: [log_write] lists it once and pins its buffer,
    so that the cache keeps it until the commit. *)
From stdpp Require Import gmap list strings.
From S2P Require Import Prelude Kstring Abi Machine Spinlock Kalloc Vm Proc Sched Sleeplock Virtio Bio Log Wp BioList BlockEnv VirtioSpec BioSpec LogSpec LogCrash.

(** The index that [log_write] finds: of the block, or the number of blocks. *)
Lemma log_absorb_eq blocks bns bn : forall i,
  (forall j b, bns !! j = Some b -> zget blocks (Z.of_nat (i + j)) = b /\ 0 <= b < 2 ^ 31) ->
  log_absorb blocks (length bns) i bn = (i + from_option fst (length bns) (list_find (fun b => b = bn) bns))%nat.
Proof.
  induction bns as [|b bns IH]; intros i H; cbn [length log_absorb list_find]; [cbn; lia|].
  destruct (H 0%nat b eq_refl) as [Hb Hr]. rewrite Nat.add_0_r in Hb. rewrite Hb. unfold u32. rewrite Z.mod_small by lia.
  destruct (Z.eqb_spec b bn) as [->|Hne]; [rewrite decide_True by done; cbn; lia|]. rewrite decide_False by done.
  rewrite IH; [|intros j b' Hj; replace (S i + j)%nat with (i + S j)%nat by lia; by apply (H (S j))].
  destruct (list_find _ bns) as [[k x]|]; cbn; lia.
Qed.

(** The log's record while [k] operations are under way. *)
Record log_shared (k : Z) (lg : log) (bns : list Z) : Prop := {
  lo_outstanding : lg_outstanding lg = k;
  lo_committing : lg_committing lg = 0;
  lo_size : lg_size lg = LOGSIZE;
  lo_blocks : Z.of_nat (length (lg_block lg)) = LOGSIZE;
  lo_room : Z.of_nat (length bns) < LOGSIZE
}.
Notation log_open := (log_shared 1).

Lemma lst_blift {A} (x : M bst A) b b' a lg : x b = Ok a b' -> lift x (mk_lst b lg) = Ok a (mk_lst b' lg).
Proof. intros E. unfold lift. cbn. by rewrite E. Qed.

Section LogWrite.
Variables (d0 : Z -> list Z) (dev st : Z) (p : nat) (pid : Z).
Notation calm := (calm p pid).
Notation brep := (brep d0 dev p pid).

(** [bpin] inside the critical section of the log. *)
Lemma bpin_held b m bufs vd rg ws :
  calm m -> bpin b (mk_bst (hold Lk_log m) bufs vd rg ws) =
    Ok tt (mk_bst (hold Lk_log m) (ub b (fun x => set_buf_refcnt (u32 (buf_refcnt x + 1)) x) bufs) vd rg ws).
Proof.
  intros Hm. pose proof (ca_depth _ _ _ Hm) as Hd. assert (Hu : unlocked Lk_bcache (hold Lk_log m)).
  { apply unlocked_hold; [done|]. apply (ca_locks _ _ _ Hm), bcache_block. }
  unfold bpin. erewrite bind_ok by (by apply bst_lift, acquire_ok). unfold buf_set. mgo.
  change (upd_buf b ?f (mk_bst ?a ?bs vd rg ws)) with (mk_bst a (ub b f bs) vd rg ws).
  erewrite bst_lift; [reflexivity|]. rewrite release_hold; [|by eapply hart_ok_hold, calm_ok|done].
  by rewrite settle_hold by lia.
Qed.

(** [log_write] on the buffer of block [bn]. *)
Lemma log_write_eq {k} s G ws bns bn e : 1 <= k ->
  brep (l_b s) G ws -> G !! bn = Some e -> e_refs e + 1 < 2 ^ 31 ->
  log_lists dev st (l_log s) bns -> log_shared k (l_log s) bns -> Forall (home st) bns -> home st bn ->
  Z.of_nat (length bns) < LOGSIZE - 1 ->
  exists s', log_write (e_buf e) s = Ok tt s' /\
    (if decide (bn ∈ bns) then brep (l_b s') G ws /\ log_lists dev st (l_log s') bns /\ log_shared k (l_log s') bns
     else brep (l_b s') (pinned G bn e 1) ws /\ log_lists dev st (l_log s') (bns ++ [bn]) /\ log_shared k (l_log s') (bns ++ [bn])).
Proof.
  intros Hk Hr Hg Hrefs Hl Ho Hh Hbn Hn. destruct s as [[m bufs vd rg ws'] lg]. cbn [l_b l_log] in *.
  pose proof (br_ws _ _ _ _ _ _ _ Hr) as E. cbn in E. subst ws'. pose proof (br_calm _ _ _ _ _ _ _ Hr) as Hm. cbn in Hm.
  destruct (brep_entry _ _ _ _ _ _ _ _ _ Hr Hg) as [_ Hx]. change (get_buf _ (e_buf e)) with (gb bufs (e_buf e)) in Hx.
  destruct Hl as [L1 L2 L3 L4], Ho as [O1 O2 O3 O4 O5].
  unfold log_write. erewrite bind_ok by (by apply lst_lift, (calm_acquire p pid _ _ Hm log_lock_block)). unfold log_get, log_upd. mgo.
  cbn [l_log]. rewrite L3, O3, !Z.geb_leb, !(proj2 (Z.leb_gt _ _)), (proj2 (Z.ltb_ge _ _)) by lia. cbn [orb].
  rewrite (bind_ok _ _ _ bn (mk_lst (mk_bst (hold Lk_log m) bufs vd rg ws) lg)).
  2:{ apply lst_blift. unfold buf_get, reads. by rewrite <- (ho_bn _ _ _ _ _ Hx). }
  rewrite Nat2Z.id, (log_absorb_eq _ bns bn 0).
  2:{ intros j b Hj. rewrite Nat.add_0_l. split; [by apply L4|]. apply (Forall_lookup_1 _ _ _ _ Hh Hj). }
  rewrite Nat.add_0_l, i32_small by apply Hbn. mgo. cbn [l_log set_l_log l_b].
  destruct (list_find (fun b => b = bn) bns) as [[i b]|] eqn:Ef; cbn [from_option fst].
  - apply list_find_Some in Ef as (Hi & -> & _). pose proof (lookup_lt_Some _ _ _ Hi).
    rewrite (proj2 (Z.eqb_neq _ _)) by lia. unfold when. mgo.
    eexists. split; [by apply lst_lift, (calm_release p pid _ _ Hm log_lock_block)|].
    rewrite decide_True by (by eapply list_elem_of_lookup_2). cbn [l_b l_log].
    split; [destruct Hr as [_ H2 H3 H4 H5]; split; try done; by apply calm_settle|]. split; split; try done.
    + intros j b Hj. cbn. destruct (decide (i = j)) as [<-|Hne].
      * rewrite zget_zset_eq by lia. congruence.
      * rewrite zget_zset_ne by lia. by apply L4.
    + cbn. by rewrite length_zset.
  - apply list_find_None in Ef. rewrite Z.eqb_refl. unfold when.
    assert (Hnin : bn ∉ bns) by (intros Hin; by apply (proj1 (Forall_forall _ _) Ef bn Hin)).
    erewrite bind_ok by (erewrite bind_ok by (by apply lst_blift, (bpin_held _ _ _ _ _ _ Hm)); reflexivity).
    cbn [set_l_log l_b l_log]. eexists. split; [by apply lst_lift, (calm_release p pid _ _ Hm log_lock_block)|].
    rewrite decide_False by done. cbn [l_b l_log]. split; [|split; split; cbn; try done].
    + apply (brep_upd d0 dev p pid m _ bufs vd rg ws G bn e); try done; [by apply calm_settle| |by apply (brep_data_length _ _ _ _ _ _ _ _ _ Hr Hg)].
      destruct Hx as [X1 X2 X3 [X4 X5] X6 X7]. split; try done. cbn. rewrite X4. unfold u32. rewrite Z.mod_small by lia. lia.
    + rewrite length_app, L3. cbn. lia.
    + intros j b Hj. apply lookup_app_Some in Hj as [Hj|[Hge Hj]].
      * pose proof (lookup_lt_Some _ _ _ Hj). rewrite zget_zset_ne by lia. by apply L4.
      * apply list_lookup_singleton_Some in Hj as [Ej <-]. replace j with (length bns) by lia. apply zget_zset_eq. lia.
    + by rewrite length_zset.
    + rewrite length_app. cbn. lia.
Qed.

(** [begin_op] when the reservations leave room for one more operation, and when they do not. *)
Lemma begin_op_admits fuel k s G ws bns :
  brep (l_b s) G ws -> log_lists dev st (l_log s) bns -> log_shared k (l_log s) bns ->
  Z.of_nat (length bns) + (k + 1) * MAXOPBLOCKS <= LOGSIZE ->
  exists s', log_begin_op fuel s = Ok tt s' /\ brep (l_b s') G ws /\ log_lists dev st (l_log s') bns /\ log_shared (k + 1) (l_log s') bns.
Proof.
  intros Hr [L1 L2 L3 L4] [O1 O2 O3 O4 O5] Hn. destruct (enter_log d0 dev p pid s G ws Hr) as (m & bufs & vd & rg & _ & _ & Ea & Hrel).
  destruct (Hrel (set_lg_outstanding (lg_outstanding (l_log s) + 1) (l_log s))) as [Er Hr'].
  exists (mk_lst (mk_bst (settle m) bufs vd rg ws) (set_lg_outstanding (lg_outstanding (l_log s) + 1) (l_log s))). split.
  - unfold log_begin_op. rewrite (bind_ok _ _ _ _ _ Ea). destruct fuel; cbn [begin_op_loop]; unfold log_get, log_upd; mgo; cbn [l_log];
      rewrite O1, O2, L3, Z.gtb_ltb, (proj2 (Z.ltb_ge _ _)) by done; cbn [Z.eqb negb orb]; mgo; cbn [l_log set_l_log l_b]; rewrite O1 in Er |- *; exact Er.
  - split; [done|]. split; split; try done. cbn. by rewrite O1.
Qed.

Lemma begin_op_waits fuel k s G ws bns :
  brep (l_b s) G ws -> log_lists dev st (l_log s) bns -> log_shared k (l_log s) bns ->
  LOGSIZE < Z.of_nat (length bns) + (k + 1) * MAXOPBLOCKS ->
  exists s' resume, log_begin_op (S fuel) s = Swtch s' resume /\ l_log s' = l_log s.
Proof.
  intros Hr [L1 L2 L3 L4] [O1 O2 O3 O4 O5] Hn. destruct (enter_log d0 dev p pid s G ws Hr) as (m & bufs & vd & rg & _ & Hm & Ea & _).
  destruct (calm_sleep p pid m Lk_log Ch_log Hm log_lock_block) as (m1 & resume & Es & _).
  unfold log_begin_op. rewrite (bind_ok _ _ _ _ _ Ea). cbn [begin_op_loop]. unfold log_get. mgo. cbn [l_log].
  rewrite O1, O2, L3, Z.gtb_ltb, (proj2 (Z.ltb_lt _ _)) by done. cbn [Z.eqb negb orb]. unfold bind, lift. cbn. rewrite Es. cbn.
  do 2 eexists. done.
Qed.

(** [log_write] of buffers of different blocks. *)
Lemma log_writes k ws es : forall s G bns, 1 <= k ->
  brep (l_b s) G ws -> log_lists dev st (l_log s) bns -> log_shared k (l_log s) bns -> Forall (home st) bns -> NoDup (bns ++ es.*1) ->
  Forall (fun x => home st x.1 /\ G !! x.1 = Some x.2 /\ e_refs x.2 + 1 < 2 ^ 31) es -> Z.of_nat (length bns + length es) <= LOGSIZE - 1 ->
  exists s' G', each (map (fun x => e_buf x.2) es) log_write s = Ok tt s' /\
    brep (l_b s') G' ws /\ log_lists dev st (l_log s') (bns ++ es.*1) /\ log_shared k (l_log s') (bns ++ es.*1).
Proof.
  induction es as [|[bn e] es IH]; intros s G bns Hk Hr Hl Ho Hh Hnd Hes Hn.
  { exists s, G. by rewrite app_nil_r. }
  inversion Hes as [|? ? (Hbn & Hg & Hrefs) Hes']; subst. cbn [fst snd] in *. cbn [length fmap list_fmap map each fst] in *.
  assert (Hnin : bn ∉ bns) by (apply NoDup_app in Hnd as (_ & Hd & _); intros Hin; apply (Hd bn Hin); left).
  destruct (log_write_eq s G ws bns bn e Hk Hr Hg Hrefs Hl Ho Hh Hbn ltac:(lia)) as (s1 & E1 & H1). rewrite decide_False in H1 by done.
  destruct H1 as (Hr1 & Hl1 & Ho1). rewrite cons_middle, app_assoc in Hnd |- *. erewrite bind_ok by exact E1.
  apply (IH s1 (pinned G bn e 1)); try done; [by apply Forall_app; split; [|apply Forall_singleton]| |rewrite length_app; cbn; lia].
  apply NoDup_app in Hnd as (_ & Hd & _). apply Forall_forall. intros [bn' e'] Hin. rewrite Forall_forall in Hes'. destruct (Hes' _ Hin) as (H1 & H2 & H3).
  split; [done|]. split; [|done]. unfold pinned. rewrite lookup_insert_ne; [done|]. cbn. intros <-. apply (Hd bn); [apply elem_of_app; right; left|].
  apply list_elem_of_fmap. by exists (bn, e').
Qed.
End LogWrite.

(** C14. The reservations of [begin_op] and the room of [log_write] do not fit together.  Of an
    empty log [begin_op] gives three operations their [MAXOPBLOCKS] blocks, which are all of
    [LOGSIZE], and lets a fourth one wait.  But the log of the file system has [LOGSIZE] blocks
    with its header: when the three have written all but one of the blocks they reserved,
    every further [log_write] panics, even one of a block that the transaction has already. *)
Theorem log_overcommits (fuel : nat) (d0 : Z -> list Z) (dev st : Z) (p : nat) (pid : Z) (G : gmap Z entry) (ws : list (Z * list Z)) (s : lst)
    (es : list (Z * entry)) :
  brep d0 dev p pid (l_b s) G ws -> log_lists dev st (l_log s) [] -> log_shared 0 (l_log s) [] ->
  NoDup es.*1 -> Forall (fun x => home st x.1 /\ G !! x.1 = Some x.2 /\ e_refs x.2 + 1 < 2 ^ 31) es -> Z.of_nat (length es) = LOGSIZE - 1 ->
  exists s3 s4, (log_begin_op fuel ;;; log_begin_op fuel ;;; log_begin_op fuel) s = Ok tt s3 /\
    lg_outstanding (l_log s3) * MAXOPBLOCKS = LOGSIZE /\
    (exists s' resume, log_begin_op (S fuel) s3 = Swtch s' resume /\ l_log s' = l_log s3) /\
    each (map (fun x => e_buf x.2) es) log_write s3 = Ok tt s4 /\
    forall b, log_write b s4 = Panic "too big a transaction".
Proof.
  intros Hr Hl Ho Hnd Hes Hlen. destruct (begin_op_admits d0 dev st p pid fuel 0 s G ws [] Hr Hl Ho) as (s1 & E1 & Hr1 & Hl1 & Ho1); [by vm_compute|].
  destruct (begin_op_admits d0 dev st p pid fuel 1 s1 G ws [] Hr1 Hl1 Ho1) as (s2 & E2 & Hr2 & Hl2 & Ho2); [by vm_compute|].
  destruct (begin_op_admits d0 dev st p pid fuel 2 s2 G ws [] Hr2 Hl2 Ho2) as (s3 & E3 & Hr3 & Hl3 & Ho3); [by vm_compute|].
  destruct (log_writes d0 dev st p pid 3 ws es s3 G [] ltac:(done) Hr3 Hl3 Ho3 (Forall_nil_2 _) Hnd Hes) as (s4 & G' & E4 & Hr4 & Hl4 & Ho4); [cbn; lia|].
  exists s3, s4. split; [by rewrite (bind_ok _ _ _ _ _ E1), (bind_ok _ _ _ _ _ E2)|]. split; [by rewrite (lo_outstanding _ _ _ Ho3)|].
  split; [apply (begin_op_waits d0 dev st p pid fuel 3 s3 G ws []); try done; by vm_compute|]. split; [done|]. intros b.
  destruct (enter_log d0 dev p pid s4 G' ws Hr4) as (m & bufs & vd & rg & _ & _ & Ea & _). destruct Hl4 as [_ _ L3 _].
  unfold log_write. rewrite (bind_ok _ _ _ _ _ Ea). unfold log_get. mgo. cbn [l_log].
  rewrite (lo_size _ _ _ Ho4), L3, !Z.geb_leb, (proj2 (Z.leb_le (LOGSIZE - 1) _)), orb_true_r; [done|]. cbn. rewrite length_fmap. lia.
Qed.

(** ** A cache of 29 blocks *)

(** Block 46 + i in buffer i, and one unused buffer. *)
Definition full_buf (i : nat) : buf := mk_buf 1 0 1 (46 + Z.of_nat i) (mk_sleeplock 0 "buffer" 0) 1 0 0 sevens.
Definition full_bufs : list buf :=
  imap (fun i x => set_buf_prev ((i + HEAD) mod S HEAD) (set_buf_next (S i mod S HEAD) x)) (map full_buf (seq 0 29) ++ [buf_zero; buf_zero]).
Definition full_entries : list (Z * entry) := map (fun i => (46 + Z.of_nat i, mk_entry i 1 false sevens)) (seq 0 29).
Definition full_log : lst := mk_lst (mk_bst demo_machine full_bufs demo_vdisk ∅ []) (mk_log 2 30 0 0 1 0 (replicate 30 0)).

Lemma full_lookup i : (i < HEAD)%nat -> (map full_buf (seq 0 29) ++ [buf_zero; buf_zero]) !! i = Some (if decide (i < 29)%nat then full_buf i else buf_zero).
Proof.
  intros Hi. rewrite HEAD_eq in Hi. destruct (decide (i < 29)%nat) as [Hlt|Hge].
  - rewrite lookup_app_l by (by rewrite length_map, length_seq). change (map full_buf) with (fmap (M := list) full_buf). by rewrite list_lookup_fmap, lookup_seq_lt.
  - rewrite lookup_app_r by (rewrite length_map, length_seq; lia). rewrite length_map, length_seq. by replace (i - 29)%nat with 0%nat by lia.
Qed.

Lemma full_core i : (i < HEAD)%nat -> core (gb full_bufs i) = core (if decide (i < 29)%nat then full_buf i else buf_zero).
Proof. intros Hi. unfold gb, full_bufs. rewrite list_lookup_imap, full_lookup by done. done. Qed.

Lemma full_get {A} (g : buf -> A) i : (forall x, g (core x) = g x) -> (i < HEAD)%nat ->
  g (gb full_bufs i) = g (if decide (i < 29)%nat then full_buf i else buf_zero).
Proof. intros Hg Hi. by rewrite <- Hg, full_core, Hg. Qed.

Lemma full_entry bn e : (list_to_map full_entries : gmap Z entry) !! bn = Some e <-> exists i, (i < 29)%nat /\ bn = 46 + Z.of_nat i /\ e = mk_entry i 1 false sevens.
Proof.
  rewrite <- elem_of_list_to_map; [|apply (bool_decide_unpack _); by vm_compute]. unfold full_entries. rewrite list_elem_of_fmap. split.
  - intros (i & [= -> ->] & Hi%elem_of_seq). exists i. split; [lia|done].
  - intros (i & Hi & -> & ->). exists i. split; [done|]. apply elem_of_seq. lia.
Qed.

Lemma full_cwf : cwf demo_disk 1 full_bufs [].
Proof.
  split.
  - exists (seq 0 HEAD). split; [reflexivity|done|]. by repeat split.
  - intros i Hi. rewrite (full_get buf_data) by done. by destruct (decide _).
  - intros i Hi. rewrite (full_get buf_refcnt) by done. destruct (decide _); cbn; lia.
  - intros i j Hi Hj. rewrite !(full_get buf_dev), !(full_get buf_blockno) by done. destruct (decide (i < 29)%nat), (decide (j < 29)%nat); try discriminate. cbn. lia.
  - intros i Hi. rewrite (full_get buf_refcnt), (full_get buf_lock), (full_get buf_dev), (full_get buf_valid) by done. by destruct (decide _).
  - done.
Qed.

Lemma full_rep : brep demo_disk 1 0 1 (l_b full_log) (list_to_map full_entries) [].
Proof.
  split; [exact demo_calm|exact full_cwf| |exact demo_idle|reflexivity]. split; cbn [l_b full_log b_bufs].
  - intros bn e (i & Hi & -> & ->)%full_entry. cbn [e_buf]. assert (Hh : (i < HEAD)%nat) by (rewrite HEAD_eq; lia). split; [done|].
    apply (holds_core _ _ _ _ (full_buf i)); [|by split]. rewrite (full_get core) by done. by rewrite decide_True.
  - intros i Hi. rewrite (full_get buf_refcnt), (full_get buf_blockno) by done. destruct (decide _) as [Hlt|]; [|done]. intros _.
    eexists. split; [apply full_entry; by exists i|done].
Qed.

Lemma log_overcommits_witness :
  exists s3 s4, (log_begin_op 1 ;;; log_begin_op 1 ;;; log_begin_op 1) full_log = Ok tt s3 /\
    (exists s' resume, log_begin_op 2 s3 = Swtch s' resume) /\
    each (map (fun x => e_buf x.2) full_entries) log_write s3 = Ok tt s4 /\ log_write 0 s4 = Panic "too big a transaction".
Proof.
  destruct (log_overcommits 1 demo_disk 1 2 0 1 (list_to_map full_entries) [] full_log full_entries full_rep) as (s3 & s4 & E1 & _ & (s' & r & E2 & _) & E3 & E4).
  - by split.
  - by split.
  - apply (bool_decide_unpack _). by vm_compute.
  - apply Forall_forall. intros x (i & -> & Hi%elem_of_seq)%list_elem_of_fmap. cbn [fst snd e_refs]. split; [unfold home, LOGSIZE, MAXOPBLOCKS; lia|].
    split; [|lia]. apply full_entry. exists i. split; [lia|done].
  - reflexivity.
  - exists s3, s4. split; [exact E1|]. split; [exists s', r; exact E2|]. split; [exact E3|]. exact (E4 0%nat).
Defined.
