(* ===== verification/FsTx.v ===== *)
(** * The file system inside a transaction

    Between [begin_op] and [end_op] the code of kernel/fs.c works on the disk as the
    cache shows it: the blocks written so far are pinned in the cache and listed in the
    log, and nothing is written to the disk.  Each call of [bread], [log_write] and
    [brelse] is one step on this view. *)
From stdpp Require Import gmap list strings.
From S2P Require Import Prelude Kstring Abi Machine Spinlock Kalloc Vm Proc Sched Sleeplock Virtio Bio Log Fs Wp BioList BlockEnv VirtioSpec BioSpec LogSpec LogCrash LogWrite.

(** The disk as the process sees it, the blocks that were written, the buffers it holds,
    the table of inodes and the superblock in memory. *)
Record view_ := mk_view { v_disk : Z -> list Z; v_log : list Z; v_held : gmap Z nat; v_inodes : list inode; v_sb : superblock }.

Definition set_block (D : Z -> list Z) (bn : Z) (v : list Z) : Z -> list Z := fun b => if b =? bn then v else D b.
Definition put (bn : Z) (v : list Z) (a : view_) : view_ := mk_view (set_block (v_disk a) bn v) (v_log a) (v_held a) (v_inodes a) (v_sb a).
Definition listed (bn : Z) (a : view_) : view_ :=
  mk_view (v_disk a) (if decide (bn ∈ v_log a) then v_log a else v_log a ++ [bn]) (v_held a) (v_inodes a) (v_sb a).
Definition taking (bn : Z) (b : nat) (a : view_) : view_ := mk_view (v_disk a) (v_log a) (<[bn := b]> (v_held a)) (v_inodes a) (v_sb a).
Definition dropped (bn : Z) (a : view_) : view_ := mk_view (v_disk a) (v_log a) (delete bn (v_held a)) (v_inodes a) (v_sb a).
Definition with_inodes (l : list inode) (a : view_) : view_ := mk_view (v_disk a) (v_log a) (v_held a) l (v_sb a).

Section Tx.
Variables (fuel : nat) (d0 : Z -> list Z) (dev st : Z) (p : nat) (pid : Z) (spurious : Prop) (ws : list (Z * list Z)).
Notation brep := (brep d0 dev p pid).

(** The cache has the blocks of the transaction, pinned, and those the process holds. *)
Definition in_cache (a : view_) (G : gmap Z entry) : Prop :=
  forall bn, match v_held a !! bn with
             | Some b => G !! bn = Some (mk_entry b (if decide (bn ∈ v_log a) then 2 else 1) true (v_disk a bn))
             | None => if decide (bn ∈ v_log a) then exists b, G !! bn = Some (mk_entry b 1 false (v_disk a bn))
                       else G !! bn = None /\ v_disk a bn = dblock d0 ws bn
             end.

Record txn (s : fss) (a : view_) : Prop := {
  t_rep : exists G, brep (l_b (fs_l s)) G ws /\ in_cache a G;
  t_lists : log_lists dev st (l_log (fs_l s)) (v_log a);
  t_open : log_open (l_log (fs_l s)) (v_log a);
  t_nodup : NoDup (v_log a);
  t_home : Forall (home st) (v_log a);
  t_inodes : fs_itable s = v_inodes a;
  t_sb : fs_sb s = v_sb a
}.

(** Nothing is written to the disk while the process waits. *)
Notation twp := (wp spurious (sub_rel (env d0 dev p pid spurious)) (fun s : fss => b_writes (l_b (fs_l s)) = ws)).

Lemma in_cache_size a G : in_cache a G -> NoDup (v_log a) -> (size G <= length (v_log a) + size (v_held a))%nat.
Proof.
  intros H Hnd. rewrite <- size_dom, <- (size_list_to_set (C := gset Z) _ Hnd), <- (size_dom (v_held a)).
  etrans; [|apply size_union_le]. apply subseteq_size. intros bn. rewrite elem_of_union, elem_of_list_to_set, !elem_of_dom.
  intros [e He]. specialize (H bn). destruct (v_held a !! bn); [by right|]. destruct (decide _) as [Hi|]; [by left|]. destruct H. congruence.
Qed.

(** Changes of the view and of the cache. *)
Lemma in_cache_hold a G bn b :
  in_cache a G -> v_held a !! bn = None -> in_cache (taking bn b a) (<[bn := mk_entry b (refs_of G bn + 1) true (view d0 G ws bn)]> G).
Proof.
  intros H Hn bn'. cbn. destruct (decide (bn' = bn)) as [->|Hne].
  - rewrite !lookup_insert_eq. specialize (H bn). rewrite Hn in H. unfold refs_of, view. destruct (decide (bn ∈ v_log a)).
    + destruct H as [b' ->]. done.
    + destruct H as [-> ->]. done.
  - rewrite !lookup_insert_ne by done. apply H.
Qed.

Lemma in_cache_drop a G bn b e :
  in_cache a G -> v_held a !! bn = Some b -> G !! bn = Some e -> bn ∈ v_log a \/ v_disk a bn = dblock d0 ws bn ->
  in_cache (dropped bn a) (released G bn e).
Proof.
  intros H Hb Hg Hc bn'. cbn. unfold released. pose proof (H bn) as Hbn. rewrite Hb, Hg in Hbn. injection Hbn as ->. cbn [e_refs e_buf e_data].
  destruct (decide (bn' = bn)) as [->|Hne].
  - rewrite lookup_delete_eq. destruct (decide (bn ∈ v_log a)) as [Hi|Hi]; cbn.
    + exists b. by rewrite lookup_insert_eq.
    + rewrite lookup_delete_eq. split; [done|]. by destruct Hc.
  - rewrite lookup_delete_ne by done. destruct (decide (bn ∈ v_log a)); cbn; [rewrite lookup_insert_ne by done|rewrite lookup_delete_ne by done]; apply H.
Qed.

Lemma in_cache_put a G bn b e v :
  in_cache a G -> v_held a !! bn = Some b -> G !! bn = Some e -> in_cache (put bn v a) (<[bn := mk_entry (e_buf e) (e_refs e) (e_held e) v]> G).
Proof.
  intros H Hb Hg bn'. cbn. unfold set_block. pose proof (H bn) as Hbn. rewrite Hb, Hg in Hbn. injection Hbn as ->.
  destruct (Z.eqb_spec bn' bn) as [->|Hne]; [by rewrite Hb, lookup_insert_eq|]. rewrite lookup_insert_ne by done. apply H.
Qed.

Lemma in_cache_list a G bn b e :
  in_cache a G -> v_held a !! bn = Some b -> G !! bn = Some e ->
  in_cache (listed bn a) (if decide (bn ∈ v_log a) then G else pinned G bn e 1).
Proof.
  intros H Hb Hg bn'. cbn. pose proof (H bn) as Hbn. rewrite Hb, Hg in Hbn. injection Hbn as ->.
  destruct (decide (bn ∈ v_log a)) as [Hi|Hi]; [apply H|]. unfold pinned. cbn [e_buf e_refs e_held e_data].
  destruct (decide (bn' = bn)) as [->|Hne].
  - rewrite Hb, lookup_insert_eq. rewrite decide_True by (apply elem_of_app; right; left). done.
  - rewrite lookup_insert_ne by done. specialize (H bn'). assert (E : bn' ∈ v_log a ++ [bn] <-> bn' ∈ v_log a) by set_solver.
    destruct (v_held a !! bn') as [b'|]; destruct (decide (bn' ∈ v_log a)), (decide (bn' ∈ v_log a ++ [bn])); tauto.
Qed.

(** ** The steps *)

Lemma t_bread {B} (Q : B -> fss -> Prop) (f : nat -> M fss B) s a bn :
  txn s a -> v_held a !! bn = None -> 0 <= bn < 2 ^ 31 -> (length (v_log a) + size (v_held a) < HEAD)%nat ->
  (forall b s', txn s' (taking bn b a) -> twp Q (f b s')) ->
  twp Q (bind (fs_bread (S fuel) dev bn) f s).
Proof.
  intros [(G & Hr & Hc) H2 H3 H4 H5 H6 H7] Hn Hbn Hroom Hf. unfold fs_bread.
  assert (Hg : can_get G bn).
  { unfold can_get. pose proof (Hc bn) as Hcb. rewrite Hn in Hcb. destruct (decide (bn ∈ v_log a)).
    - destruct Hcb as [b ->]. cbn. lia.
    - destruct Hcb as [-> _]. pose proof (in_cache_size a G Hc H4). lia. }
  eapply wp_call; [exact (wp_lift (S := fss) spurious _ (fun s => b_writes s = ws) _ (bread (S fuel) dev bn) s
    (blk_bread (fun w => w = ws) (l_b (fs_l s)) G ws bn Hr Hg Hbn eq_refl))|].
  intros b s' (t & -> & Ht). apply Hf. split; try done. eexists. split; [exact Ht|]. by apply in_cache_hold.
Qed.

Lemma t_brelse s a bn b :
  txn s a -> v_held a !! bn = Some b -> bn ∈ v_log a \/ v_disk a bn = dblock d0 ws bn ->
  exists s', fs_brelse b s = Ok tt s' /\ txn s' (dropped bn a).
Proof.
  intros [(G & Hr & Hc) H2 H3 H4 H5 H6 H7] Hb Hd. pose proof (Hc bn) as Hg. rewrite Hb in Hg. set (e := mk_entry _ _ _ _) in Hg.
  destruct (brelse_eq d0 dev p pid (l_b (fs_l s)) G ws bn e Hr Hg eq_refl) as (t & E & Ht).
  { unfold e. cbn. destruct Hd as [Hi|Hd]; [by rewrite decide_True|]. done. }
  eexists. split; [unfold fs_brelse, lift; cbn; change (e_buf e) with b in E; rewrite E; reflexivity|].
  split; try done. exists (released G bn e). split; [done|]. by apply (in_cache_drop a G bn b).
Qed.

(** The data of a buffer the process holds. *)
Lemma t_data s a bn b : txn s a -> v_held a !! bn = Some b ->
  buf_data (get_buf (l_b (fs_l s)) b) = v_disk a bn /\ Z.of_nat (length (v_disk a bn)) = BSIZE.
Proof.
  intros [(G & Hr & Hc) _ _ _ _ _ _] Hb. pose proof (Hc bn) as Hg. rewrite Hb in Hg.
  destruct (blk_entry (fuel := S fuel) (stuck := spurious) (envr := env d0 dev p pid spurious) _ _ _ _ _ Hr Hg) as [E L]. done.
Qed.

Lemma t_bdata s a bn b : txn s a -> v_held a !! bn = Some b -> bdata b s = Ok (v_disk a bn) s.
Proof.
  intros Hs Hb. destruct (t_data s a bn b Hs Hb) as [E _]. unfold bdata, lift, buf_get, reads. cbn. rewrite E. by destruct s as [[[]]].
Qed.

Lemma t_set s a bn b g v :
  txn s a -> v_held a !! bn = Some b -> (forall x, buf_data x = v_disk a bn -> g x = set_buf_data v x) -> Z.of_nat (length v) = BSIZE ->
  exists s', lift (buf_set b g) s = Ok tt s' /\ txn s' (put bn v a).
Proof.
  intros Hs Hb Hg Hv. destruct (t_data s a bn b Hs Hb) as [Ed _]. destruct Hs as [(G & Hr & Hc) H2 H3 H4 H5 H6 H7].
  eexists. split; [unfold lift; cbn; reflexivity|]. split; try done. pose proof (Hc bn) as Hgb. rewrite Hb in Hgb. set (e := mk_entry _ _ _ _) in Hgb.
  exists (<[bn := mk_entry (e_buf e) (e_refs e) (e_held e) v]> G). split; [|by apply (in_cache_put a G bn b)]. cbn [fs_l l_b set_fs_l set_l_b sub_set sub_bst_fss].
  replace (upd_buf b g (l_b (fs_l s))) with (upd_buf b (set_buf_data v) (l_b (fs_l s))) by (unfold upd_buf; by rewrite Hg).
  by apply (brep_set_data d0 dev p pid _ G ws bn e).
Qed.

Lemma t_log_write s a bn b :
  txn s a -> v_held a !! bn = Some b -> home st bn -> Z.of_nat (length (v_log a)) < LOGSIZE - 1 ->
  exists s', fs_log_write b s = Ok tt s' /\ txn s' (listed bn a).
Proof.
  intros [(G & Hr & Hc) H2 H3 H4 H5 H6 H7] Hb Hh Hn. pose proof (Hc bn) as Hg. rewrite Hb in Hg. set (e := mk_entry _ _ _ _) in Hg.
  destruct (log_write_eq d0 dev st p pid (fs_l s) G ws (v_log a) bn e ltac:(done) Hr Hg) as (t & E & Ht); try done.
  { unfold e. cbn. destruct (decide _); lia. }
  eexists. split; [unfold fs_log_write, lift; cbn; change (e_buf e) with b in E; rewrite E; reflexivity|].
  pose proof (in_cache_list a G bn b e Hc Hb Hg) as Hc'. unfold listed in *.
  destruct (decide (bn ∈ v_log a)) as [Hi|Hi]; destruct Ht as (T1 & T2 & T3); split; try done; cbn; eauto.
  - apply NoDup_app. split; [done|]. split; [|apply NoDup_singleton]. intros x Hx ->%list_elem_of_singleton. done.
  - apply Forall_app. split; [done|]. by apply Forall_singleton.
Qed.
End Tx.
