(* ===== verification/FsAlloc.v ===== *)
(** * Allocating blocks: bzero, balloc and bfree of kernel/fs.c

    On the view of a transaction: [balloc] takes the lowest block that the free map shows
    as free, marks it and fills it with zeros; [bfree] clears its mark. *)
From stdpp Require Import gmap list strings.
From S2P Require Import Prelude Kstring Abi Machine Spinlock Kalloc Vm Proc Sched Sleeplock Virtio Bio Log Fs Wp BioList BlockEnv VirtioSpec BioSpec LogSpec LogCrash LogWrite FsTx FsBitmap.

(** The block [b] is marked in the free map of the disk [D]. *)
Definition used (D : Z -> list Z) (sb : superblock) (b : Z) : bool := used_bit (D (BBLOCK b sb)) (b mod BPB).

(** The parts of the disk: the log at [st] and the free map come before [ds], where the
    data blocks begin. *)
Record layout (st ds : Z) (sb : superblock) : Prop := {
  ly_log : 0 <= st /\ st + LOGSIZE <= ds;
  ly_size : ds <= sb_size sb < 2 ^ 31;
  ly_map : 0 <= sb_bmapstart sb /\ (sb_size sb - 1) / BPB + sb_bmapstart sb < ds;
  ly_apart : st + LOGSIZE <= sb_bmapstart sb
}.

Lemma layout_map st ds sb b : layout st ds sb -> 0 <= b < sb_size sb ->
  BBLOCK b sb = b / BPB + sb_bmapstart sb /\ home st (BBLOCK b sb) /\ BBLOCK b sb < ds.
Proof.
  intros [[L1 L2] L3 [L4 L5] L6] Hb. assert (Hd : 0 <= b / BPB <= (sb_size sb - 1) / BPB).
  { split; [apply Z.div_pos; [lia|done]|]. apply Z.div_le_mono; [done|lia]. }
  assert (E : BBLOCK b sb = b / BPB + sb_bmapstart sb) by (unfold BBLOCK, u32; apply Z.mod_small; lia).
  rewrite E. split; [done|]. split; [|lia]. pose proof LOGSIZE_eq. unfold home. lia.
Qed.

Lemma layout_data st ds sb b : layout st ds sb -> ds <= b < sb_size sb -> home st b.
Proof. intros [[L1 L2] L3 [L4 L5] L6] Hb. pose proof LOGSIZE_eq. unfold home. lia. Qed.

(** The view after block [c] was allocated, or freed. *)
Definition zeros : list Z := replicate (Z.to_nat BSIZE) 0.
Definition marked (c : Z) (a : view_) : view_ :=
  let bb := BBLOCK c (v_sb a) in listed bb (put bb (set_used (v_disk a bb) (c mod BPB)) a).
Definition allocated (c : Z) (a : view_) : view_ := listed c (put c zeros (marked c a)).
Definition freed (c : Z) (a : view_) : view_ :=
  let bb := BBLOCK c (v_sb a) in listed bb (put bb (set_free (v_disk a bb) (c mod BPB)) a).


Lemma used_set D sb c d v st ds :
  layout st ds sb -> 0 <= c < sb_size sb -> 0 <= d < sb_size sb ->
  used (set_block D (BBLOCK c sb) v) sb d = if d / BPB =? c / BPB then used_bit v (d mod BPB) else used D sb d.
Proof.
  intros Hl Hc Hd. destruct (layout_map _ _ _ c Hl Hc) as (Ec & _), (layout_map _ _ _ d Hl Hd) as (Ed & _).
  unfold used, set_block. rewrite Ec, Ed. destruct (Z.eqb_spec (d / BPB) (c / BPB)) as [->|Hne]; [by rewrite Z.eqb_refl|].
  by rewrite (proj2 (Z.eqb_neq _ _)) by lia.
Qed.

Lemma same_block c d : d / BPB = c / BPB -> (d mod BPB =? c mod BPB) = (d =? c).
Proof.
  intros E. destruct (Z.eqb_spec d c) as [->|Hne]; [apply Z.eqb_refl|]. apply Z.eqb_neq. intros Em. apply Hne.
  rewrite (Z.div_mod d BPB), (Z.div_mod c BPB) by done. by rewrite E, Em.
Qed.

Lemma mod_range c : 0 <= c mod BPB < 8 * BSIZE.
Proof. change (8 * BSIZE) with BPB. by apply Z.mod_pos_bound. Qed.

Lemma within_map_block b : b mod BPB = 0 -> forall d, 0 <= d < BPB -> (b + d) / BPB = b / BPB /\ (b + d) mod BPB = d.
Proof.
  intros Hm d Hd. rewrite (Z.div_mod b BPB), Hm, Z.add_0_r, (Z.add_comm _ d), (Z.mul_comm BPB) by done.
  rewrite Z.div_add, Z.mod_add, Z.div_small, Z.mod_small, Z.div_mul by (done || lia). split; [lia|done].
Qed.

(** Marking and unmarking a block in the map. *)
Lemma used_mark D sb c d st ds :
  layout st ds sb -> 0 <= c < sb_size sb -> 0 <= d < sb_size sb -> Z.of_nat (length (D (BBLOCK c sb))) = BSIZE ->
  used (set_block D (BBLOCK c sb) (set_used (D (BBLOCK c sb)) (c mod BPB))) sb d = (d =? c) || used D sb d.
Proof.
  intros Hl Hc Hd Hlen. rewrite (used_set _ _ c d _ st ds) by done. pose proof (mod_range c). pose proof (mod_range d).
  destruct (Z.eqb_spec (d / BPB) (c / BPB)) as [E|E].
  - rewrite used_set_used by lia. rewrite (same_block c d E). unfold used.
    destruct (layout_map _ _ _ c Hl Hc) as (Ec & _), (layout_map _ _ _ d Hl Hd) as (Ed & _). by rewrite Ec, Ed, E.
  - rewrite (proj2 (Z.eqb_neq d c)) by congruence. done.
Qed.

Lemma used_unmark D sb c d st ds :
  layout st ds sb -> 0 <= c < sb_size sb -> 0 <= d < sb_size sb -> Z.of_nat (length (D (BBLOCK c sb))) = BSIZE ->
  used (set_block D (BBLOCK c sb) (set_free (D (BBLOCK c sb)) (c mod BPB))) sb d = negb (d =? c) && used D sb d.
Proof.
  intros Hl Hc Hd Hlen. rewrite (used_set _ _ c d _ st ds) by done. pose proof (mod_range c). pose proof (mod_range d).
  destruct (Z.eqb_spec (d / BPB) (c / BPB)) as [E|E].
  - rewrite used_set_free by lia. rewrite (same_block c d E). unfold used.
    destruct (layout_map _ _ _ c Hl Hc) as (Ec & _), (layout_map _ _ _ d Hl Hd) as (Ed & _). by rewrite Ec, Ed, E.
  - rewrite (proj2 (Z.eqb_neq d c)) by congruence. done.
Qed.

(** ** Steps on the view that come in pairs *)

Lemma dropped_taking bn b a : v_held a !! bn = None -> dropped bn (taking bn b a) = a.
Proof. intros H. unfold dropped, taking. cbn. rewrite delete_insert_id by done. by destruct a. Qed.

Lemma dropped_put bn v b a : v_held a !! bn = None -> dropped bn (listed bn (put bn v (taking bn b a))) = listed bn (put bn v a).
Proof. intros H. unfold dropped, listed, put, taking. cbn. by rewrite delete_insert_id. Qed.

Lemma listed_in bn a : bn ∈ v_log (listed bn a).
Proof. cbn. destruct (decide _); [done|]. apply elem_of_app. right. left. Qed.

Lemma listed_length bn a : (length (v_log (listed bn a)) <= S (length (v_log a)))%nat.
Proof. cbn. destruct (decide _); [lia|]. rewrite length_app. cbn. lia. Qed.

Section Alloc.
Variables (fuel : nat) (d0 : Z -> list Z) (dev st ds : Z) (p : nat) (pid : Z) (spurious : Prop) (ws : list (Z * list Z)).
Notation txn := (txn d0 dev st p pid ws).
Notation twp := (wp spurious (sub_rel (env d0 dev p pid spurious)) (fun s : fss => b_writes (l_b (fs_l s)) = ws)).

(** There is room in the log and in the cache for [k] more blocks. *)
Definition room (k : nat) (a : view_) : Prop := (length (v_log a) + size (v_held a) + k < HEAD)%nat.

Lemma room_listed k bn v a : room (S k) a -> room k (listed bn (put bn v a)).
Proof. unfold room. pose proof (listed_length bn (put bn v a)) as H. cbn [v_held listed put v_log] in *. lia. Qed.

(** A block is released as it was read. *)
Lemma t_release s a s1 bn b :
  txn s a -> v_held a !! bn = None -> txn s1 (taking bn b a) -> exists s2, fs_brelse b s1 = Ok tt s2 /\ txn s2 a.
Proof.
  intros Hs Hn H1. destruct (t_brelse d0 dev st p pid ws s1 _ bn b H1) as (s2 & E2 & H2); [apply lookup_insert_eq| |].
  { destruct Hs as [(G & _ & Hc) _ _ _ _ _ _]. specialize (Hc bn). rewrite Hn in Hc. cbn. destruct (decide _); [by left|right]. by destruct Hc. }
  exists s2. by rewrite dropped_taking in H2.
Qed.

(** A block is changed, logged and released. *)
Lemma t_update s a bn b g v :
  txn s (taking bn b a) -> v_held a !! bn = None -> home st bn -> room 1 a ->
  (forall x, buf_data x = v_disk a bn -> g x = set_buf_data v x) -> Z.of_nat (length v) = BSIZE ->
  exists s1 s2 s3, lift (buf_set b g) s = Ok tt s1 /\ fs_log_write b s1 = Ok tt s2 /\ fs_brelse b s2 = Ok tt s3 /\
    txn s3 (listed bn (put bn v a)).
Proof.
  intros H1 Hn Hh Hr Hg Hv. unfold room in Hr. pose proof HEAD_eq. pose proof LOGSIZE_eq.
  destruct (t_set fuel d0 dev st p pid spurious ws s _ bn b g v H1) as (s2 & E2 & H2); [apply lookup_insert_eq|done|done|].
  destruct (t_log_write d0 dev st p pid ws s2 _ bn b H2) as (s3 & E3 & H3); [apply lookup_insert_eq|done|cbn; lia|].
  destruct (t_brelse d0 dev st p pid ws s3 _ bn b H3) as (s4 & E4 & H4); [apply lookup_insert_eq|left; apply listed_in|].
  exists s2, s3, s4. do 3 (split; [done|]). by rewrite dropped_put in H4.
Qed.

Lemma bzero_wp s a c :
  txn s a -> v_held a !! c = None -> home st c -> room 1 a ->
  twp (fun _ s' => txn s' (listed c (put c zeros a))) (bzero (S fuel) dev c s).
Proof.
  intros Hs Hn Hh Hr. unfold bzero. eapply t_bread; [exact Hs|done|apply Hh|unfold room in Hr; lia|]. intros b s1 H1.
  destruct (t_update s1 a c b (set_buf_data zeros) zeros H1) as (s2 & s3 & s4 & E2 & E3 & E4 & H4); try done.
  eapply wp_bind_ok; [exact E2|]. eapply wp_bind_ok; [exact E3|]. by eapply wp_ok; [exact E4|].
Qed.

(** What allocation relies on: the blocks before [ds] are marked, and so are those the
    process holds. *)
Record alloc_ok (a : view_) : Prop := {
  ao_layout : layout st ds (v_sb a);
  ao_meta : forall b, 0 <= b < ds -> used (v_disk a) (v_sb a) b = true;
  ao_held : forall bn b, v_held a !! bn = Some b -> ds <= bn < sb_size (v_sb a) /\ used (v_disk a) (v_sb a) bn = true
}.

(** The lowest free block. *)
Definition lowest (a : view_) (c : Z) : Prop :=
  0 <= c < sb_size (v_sb a) /\ used (v_disk a) (v_sb a) c = false /\ forall d, 0 <= d < c -> used (v_disk a) (v_sb a) d = true.

Lemma lowest_data a c : alloc_ok a -> lowest a c -> ds <= c < sb_size (v_sb a) /\ v_held a !! c = None.
Proof.
  intros Ha (H1 & H2 & H3). assert (Hc : ds <= c).
  { destruct (Z.le_gt_cases ds c); [done|]. rewrite (ao_meta a Ha) in H2 by lia. done. }
  split; [lia|]. destruct (v_held a !! c) eqn:E; [|done]. destruct (ao_held a Ha _ _ E). congruence.
Qed.

Lemma map_not_held a c : alloc_ok a -> 0 <= c < sb_size (v_sb a) -> v_held a !! BBLOCK c (v_sb a) = None.
Proof.
  intros Ha Hc. destruct (layout_map _ _ _ c (ao_layout a Ha) Hc) as (_ & _ & Hlt).
  destruct (v_held a !! _) eqn:E; [|done]. destruct (ao_held a Ha _ _ E). lia.
Qed.

(** The part of [balloc_loop] after the search. *)
Lemma balloc_take s a bp c :
  txn s (taking (BBLOCK c (v_sb a)) bp a) -> alloc_ok a -> lowest a c -> room 2 a ->
  twp (fun r s' => r = c /\ txn s' (allocated c a))
    ((set_bdata bp (set_used (v_disk a (BBLOCK c (v_sb a))) (c mod BPB)) ;;; fs_log_write bp ;;; fs_brelse bp ;;; bzero (S fuel) dev c ;;; ret c) s).
Proof.
  intros H1 Ha Hlow Hr. destruct (lowest_data a c Ha Hlow) as [Hc Hnc]. set (bb := BBLOCK c (v_sb a)) in *.
  pose proof HEAD_eq. pose proof LOGSIZE_eq. unfold room in Hr.
  destruct (layout_map _ _ _ c (ao_layout a Ha) ltac:(apply Hlow)) as (_ & Hbb & Hlt). fold bb in Hbb, Hlt.
  pose proof (map_not_held a c Ha ltac:(apply Hlow)) as Hnb. fold bb in Hnb.
  destruct (t_data fuel d0 dev st p pid spurious ws s _ bb bp H1) as [_ Hlen]; [apply lookup_insert_eq|].
  destruct (t_update s a bb bp (set_buf_data (set_used (v_disk a bb) (c mod BPB))) (set_used (v_disk a bb) (c mod BPB)) H1)
    as (s2 & s3 & s4 & E2 & E3 & E4 & H4); try done; [unfold room; lia|unfold set_used; by rewrite length_zset|].
  eapply wp_bind_ok; [exact E2|]. eapply wp_bind_ok; [exact E3|]. eapply wp_bind_ok; [exact E4|]. change (listed bb _) with (marked c a) in H4.
  eapply wp_call; [eapply (bzero_wp s4 (marked c a) c H4)|].
  - done.
  - by apply (layout_data st ds (v_sb a)), Hc; apply Ha.
  - by apply room_listed.
  - intros [] s5 H5. by split.
Qed.

Lemma balloc_loop_wp n : forall s a b,
  txn s a -> alloc_ok a -> room 2 a -> 0 <= b -> b mod BPB = 0 -> sb_size (v_sb a) <= b + Z.of_nat n * BPB ->
  (forall d, 0 <= d < b -> d < sb_size (v_sb a) -> used (v_disk a) (v_sb a) d = true) ->
  (exists c, 0 <= c < sb_size (v_sb a) /\ used (v_disk a) (v_sb a) c = false) ->
  twp (fun c s' => lowest a c /\ txn s' (allocated c a)) (balloc_loop (S fuel) n dev b s).
Proof.
  assert (HB : 0 < BPB) by done. induction n as [|n IH]; intros s a b Hs Ha Hr Hb Hm Hn Hused (c & Hc & Hfree).
  { rewrite Hused in Hfree by lia. done. }
  assert (Hlt : b < sb_size (v_sb a)) by (destruct (Z.lt_ge_cases c b); [rewrite Hused in Hfree by lia; done|lia]).
  cbn [balloc_loop]. unfold sb_get. mgo. rewrite (t_sb _ _ _ _ _ _ _ _ Hs), (proj2 (Z.ltb_lt _ _)) by done. cbn [negb].
  assert (Hnb := map_not_held a b Ha ltac:(lia)).
  destruct (layout_map _ _ _ b (ao_layout a Ha) ltac:(lia)) as (Ebb & [Hbr _] & _).
  eapply t_bread; [exact Hs|done|done|unfold room in Hr; lia|]. intros bp s1 H1.
  eapply wp_bind_ok; [apply (t_bdata fuel d0 dev st p pid spurious ws s1 _ (BBLOCK b (v_sb a)) bp H1), lookup_insert_eq|]. cbn [taking v_disk].
  pose proof (find_clear_spec (v_disk a (BBLOCK b (v_sb a))) b (sb_size (v_sb a)) (Z.to_nat BPB) 0 ltac:(lia)) as Hfind.
  rewrite Z2Nat.id, Z.add_0_l in Hfind by done.
  pose proof (within_map_block b Hm) as Hin.
  assert (Hu : forall d, 0 <= d < BPB -> b + d < sb_size (v_sb a) -> used (v_disk a) (v_sb a) (b + d) = used_bit (v_disk a (BBLOCK b (v_sb a))) d).
  { intros d Hd Hs'. destruct (Hin d Hd) as [E1 E2]. unfold used. rewrite E2.
    destruct (layout_map _ _ _ (b + d) (ao_layout a Ha) ltac:(lia)) as (-> & _). by rewrite Ebb, E1. }
  destruct (find_clear _ _ _ _ _) as [bi|].
  - destruct Hfind as (F1 & F2 & F3 & F4). destruct (Hin bi F1) as [E1 E2].
    assert (Eb : BBLOCK b (v_sb a) = BBLOCK (b + bi) (v_sb a)).
    { destruct (layout_map _ _ _ (b + bi) (ao_layout a Ha) ltac:(lia)) as (-> & _). by rewrite Ebb, E1. }
    assert (Hlow : lowest a (b + bi)).
    { split; [lia|]. split; [by rewrite Hu|]. intros d Hd. destruct (Z.lt_ge_cases d b) as [|Hge]; [by apply Hused; lia|].
      replace d with (b + (d - b)) by lia. rewrite Hu by lia. apply F4. lia. }
    rewrite Eb in *. pose proof (balloc_take s1 a bp (b + bi) H1 Ha Hlow Hr) as T. rewrite E2 in T.
    eapply wp_mono; [exact T|]. intros r s' [-> H']. by split.
  - destruct (t_release s a s1 (BBLOCK b (v_sb a)) bp Hs Hnb H1) as (s2 & E2 & H2).
    eapply wp_bind_ok; [exact E2|]. apply IH; try done; [lia| |lia| |by exists c].
    + rewrite Z.add_mod, Hm, Z.mod_same by done. done.
    + intros d Hd Hs'. destruct (Z.lt_ge_cases d b); [by apply Hused; lia|]. replace d with (b + (d - b)) by lia.
      rewrite Hu by lia. apply Hfind; lia.
Qed.

(** [balloc] takes the lowest free block. *)
Lemma balloc_wp s a :
  txn s a -> alloc_ok a -> room 2 a -> (exists c, 0 <= c < sb_size (v_sb a) /\ used (v_disk a) (v_sb a) c = false) ->
  twp (fun c s' => lowest a c /\ txn s' (allocated c a)) (balloc (S fuel) dev s).
Proof.
  intros Hs Ha Hr Hf. unfold balloc, sb_get. mgo. rewrite (t_sb _ _ _ _ _ _ _ _ Hs).
  assert (Hsz : 0 <= sb_size (v_sb a)) by (destruct Hf as (c & ? & _); lia).
  apply balloc_loop_wp; try done; [|intros; lia]. rewrite Nat2Z.inj_succ, Z2Nat.id by (by apply Z.div_pos).
  pose proof (Z.mul_succ_div_gt (sb_size (v_sb a)) BPB ltac:(done)). lia.
Qed.

Lemma bfree_wp s a c :
  txn s a -> alloc_ok a -> room 1 a -> 0 <= c < sb_size (v_sb a) -> used (v_disk a) (v_sb a) c = true ->
  twp (fun _ s' => txn s' (freed c a)) (bfree (S fuel) dev c s).
Proof.
  intros Hs Ha Hr Hc Hu. unfold bfree, sb_get. mgo. rewrite (t_sb _ _ _ _ _ _ _ _ Hs). set (bb := BBLOCK c (v_sb a)).
  pose proof (map_not_held a c Ha Hc) as Hnb. fold bb in Hnb. pose proof HEAD_eq. unfold room in Hr.
  destruct (layout_map _ _ _ c (ao_layout a Ha) Hc) as (_ & Hbb & _). fold bb in Hbb.
  eapply t_bread; [exact Hs|done|apply Hbb|lia|]. intros bp s1 H1.
  eapply wp_bind_ok; [apply (t_bdata fuel d0 dev st p pid spurious ws s1 _ bb bp H1), lookup_insert_eq|]. cbn [taking v_disk].
  destruct (t_data fuel d0 dev st p pid spurious ws s1 _ bb bp H1) as [_ Hlen]; [apply lookup_insert_eq|].
  unfold used in Hu. fold bb in Hu. rewrite used_bit_land, Hu. cbn [negb].
  destruct (t_update s1 a bb bp (set_buf_data (set_free (v_disk a bb) (c mod BPB))) (set_free (v_disk a bb) (c mod BPB)) H1)
    as (s2 & s3 & s4 & E2 & E3 & E4 & H4); try done; [unfold set_free; by rewrite length_zset|].
  eapply wp_bind_ok; [exact E2|]. eapply wp_bind_ok; [exact E3|]. by eapply wp_ok; [exact E4|].
Qed.
End Alloc.
