(* ===== verification/FsFile.v ===== *)
(** * The contents of files: bmap, readi and writei of kernel/fs.c

    A file is a sequence of bytes: its blocks are the entries ("slots") of the inode and
    of its indirect block.  On the view of a transaction [bmap] finds or allocates a block
    without changing the bytes, [readi] returns the bytes and [writei] replaces them, and
    the blocks of the other files stay as they are. *)
From stdpp Require Import gmap list strings.
From S2P Require Import Prelude Kstring Abi Machine Spinlock Kalloc Vm Proc Sched Sleeplock UserMem Virtio Bio Log Fs Wp BioList BlockEnv VirtioSpec BioSpec LogSpec LogCrash LogWrite FsTx FsBitmap FsAlloc.

(** The addresses of a file, in one numbering: the direct blocks, the indirect block and
    the entries of the indirect block. *)
Definition NSLOT : Z := NDIRECT + 1 + NINDIRECT.
Definition slot (D : Z -> list Z) (x : inode) (k : Z) : Z :=
  if k <=? NDIRECT then zget (i_addrs x) k
  else if zget (i_addrs x) NDIRECT =? 0 then 0
  else get_u32 (D (zget (i_addrs x) NDIRECT)) (Z.to_nat (4 * (k - NDIRECT - 1))).

(** The slot of block [bn] of the file, and what the file has there; a block that was
    never allocated reads as zeros. *)
Definition idx (bn : Z) : Z := if bn <? NDIRECT then bn else bn + 1.
Definition fblock (D : Z -> list Z) (x : inode) (bn : Z) : list Z :=
  let b := slot D x (idx bn) in if b =? 0 then zeros else D b.
Definition fbyte (D : Z -> list Z) (x : inode) (i : Z) : Z := zget (fblock D x (i / BSIZE)) (i mod BSIZE).

Definition inode_at (a : view_) (ip : nat) : inode := default inode_zero (v_inodes a !! ip).
Notation vslot a ip := (slot (v_disk a) (inode_at a ip)).
Notation vbyte a ip := (fbyte (v_disk a) (inode_at a ip)).

Lemma slot_direct D x k : k <= NDIRECT -> slot D x k = zget (i_addrs x) k.
Proof. intros H. unfold slot. by rewrite (proj2 (Z.leb_le _ _)). Qed.

Lemma slot_indirect D x k : NDIRECT < k ->
  slot D x k = if slot D x NDIRECT =? 0 then 0 else get_u32 (D (slot D x NDIRECT)) (Z.to_nat (4 * (k - NDIRECT - 1))).
Proof. intros H. rewrite (slot_direct D x NDIRECT) by lia. unfold slot. by rewrite (proj2 (Z.leb_gt _ _)). Qed.

(** The slots depend on the addresses and on the indirect block only. *)
Lemma slot_ext D D' x x' k :
  i_addrs x' = i_addrs x -> (slot D x NDIRECT <> 0 -> D' (slot D x NDIRECT) = D (slot D x NDIRECT)) -> slot D' x' k = slot D x k.
Proof.
  intros E H. destruct (Z.le_gt_cases k NDIRECT) as [Hk|Hk]; [by rewrite !slot_direct, E by done|].
  rewrite (slot_indirect D' x' k), (slot_indirect D x k) by done. rewrite !(slot_direct _ _ NDIRECT), E in * by lia.
  destruct (Z.eqb_spec (zget (i_addrs x) NDIRECT) 0); [done|]. by rewrite H.
Qed.

Lemma get_u32_zeros k : get_u32 zeros k = 0.
Proof.
  unfold get_u32, zeros. rewrite drop_replicate, take_replicate. generalize (4 `min` (Z.to_nat BSIZE - k))%nat as n.
  induction n as [|n IH]; [done|]. cbn. by rewrite IH.
Qed.

Lemma get_u32_splice_eq data k v : (k + 4 <= length data)%nat -> 0 <= v < 2 ^ 32 -> get_u32 (splice data k (le_bytes 4 v)) k = v.
Proof.
  intros Hk Hv. unfold get_u32. pose proof (splice_in data k (le_bytes 4 v) 0 4 ltac:(lia) ltac:(by rewrite length_le_bytes)) as E.
  rewrite Nat.add_0_r in E. rewrite E, drop_0, take_ge by (by rewrite length_le_bytes). rewrite le_val_le_bytes. by apply Z.mod_small.
Qed.

Lemma get_u32_splice_ne data k j v : (k + 4 <= length data)%nat -> (j + 4 <= k \/ k + 4 <= j)%nat ->
  get_u32 (splice data k (le_bytes 4 v)) j = get_u32 data j.
Proof. intros Hk Hj. unfold get_u32. by rewrite splice_out by (rewrite length_le_bytes; lia). Qed.

Section File.
Variables (fuel : nat) (d0 : Z -> list Z) (dev st ds : Z) (p : nat) (pid : Z) (spurious : Prop) (ws : list (Z * list Z)) (ip : nat).
Notation txn := (txn d0 dev st p pid ws).
Notation twp := (wp spurious (sub_rel (env d0 dev p pid spurious)) (fun s : fss => b_writes (l_b (fs_l s)) = ws)).
Notation alloc_ok := (alloc_ok st ds).
Hypothesis Hds : 0 < ds.

(** An inode whose blocks are its own: they lie in the data area, are marked in the map
    and differ from each other. *)
Record file_ok (a : view_) : Prop := {
  fo_ip : (ip < length (v_inodes a))%nat;
  fo_dev : i_dev (inode_at a ip) = dev;
  fo_addrs : length (i_addrs (inode_at a ip)) = 13%nat;
  fo_slot : forall k, 0 <= k < NSLOT -> vslot a ip k <> 0 -> ds <= vslot a ip k < sb_size (v_sb a) /\ used (v_disk a) (v_sb a) (vslot a ip k) = true;
  fo_inj : forall j k, 0 <= j < NSLOT -> 0 <= k < NSLOT -> vslot a ip j <> 0 -> vslot a ip j = vslot a ip k -> j = k
}.

(** The blocks of the free map. *)
Definition map_block (sb : superblock) (b : Z) : Prop := exists c, 0 <= c < sb_size sb /\ b = BBLOCK c sb.

Definition owned (a : view_) (b : Z) : Prop := b <> 0 /\ exists k, 0 <= k < NSLOT /\ vslot a ip k = b.

(** From [a] to [a'] the bytes of the file became [f]: new blocks were taken from those
    that were free, other blocks were not changed, and what was logged belongs to the free
    map or to the slots [ks]. *)
Record ext (ks : list Z) (f : Z -> Z) (a a' : view_) : Prop := {
  x_sb : v_sb a' = v_sb a;
  x_held : v_held a' = v_held a;
  x_inodes : exists l, v_inodes a' = <[ip := set_i_addrs l (inode_at a ip)]> (v_inodes a);
  x_used : forall b, 0 <= b < sb_size (v_sb a) -> used (v_disk a) (v_sb a) b = true -> used (v_disk a') (v_sb a) b = true;
  x_slot : forall k, 0 <= k < NSLOT -> vslot a ip k <> 0 -> vslot a' ip k = vslot a ip k;
  x_new : forall k, 0 <= k < NSLOT -> vslot a ip k = 0 -> vslot a' ip k <> 0 -> used (v_disk a) (v_sb a) (vslot a' ip k) = false;
  x_frame : forall b, ~ map_block (v_sb a) b -> ~ owned a b -> ~ (ds <= b < sb_size (v_sb a) /\ used (v_disk a) (v_sb a) b = false) ->
    v_disk a' b = v_disk a b;
  x_byte : forall i, 0 <= i < MAXFILE * BSIZE -> vbyte a' ip i = f i;
  x_log : forall b, b ∈ v_log a' -> b ∈ v_log a \/ map_block (v_sb a) b \/ exists k, k ∈ ks /\ 0 <= k < NSLOT /\ b = vslot a' ip k /\ b <> 0;
  x_log_mono : forall b, b ∈ v_log a -> b ∈ v_log a'
}.

Lemma inode_at_get s a : txn s a -> get_inode s ip = inode_at a ip.
Proof. intros Hs. unfold get_inode, inode_at. by rewrite (t_inodes _ _ _ _ _ _ _ _ Hs). Qed.

(** The inode after the step: only its addresses may differ. *)
Lemma x_inode ks f a a' : file_ok a -> ext ks f a a' -> exists l, inode_at a' ip = set_i_addrs l (inode_at a ip).
Proof.
  intros Hf He. destruct (x_inodes _ _ _ _ He) as [l E]. exists l. unfold inode_at at 1. rewrite E.
  by rewrite list_lookup_insert_eq by apply Hf.
Qed.

Lemma ext_owned ks f a a' b : ext ks f a a' -> owned a' b -> owned a b \/ used (v_disk a) (v_sb a) b = false.
Proof.
  intros He (Hb & k & Hk & <-). destruct (Z.eq_dec (vslot a ip k) 0) as [E|E].
  - right. by apply (x_new _ _ _ _ He).
  - left. split; [done|]. exists k. split; [done|]. symmetry. by apply (x_slot _ _ _ _ He).
Qed.

Lemma same_inodes a : file_ok a -> v_inodes a = <[ip := set_i_addrs (i_addrs (inode_at a ip)) (inode_at a ip)]> (v_inodes a).
Proof.
  intros Hf. replace (set_i_addrs _ _) with (inode_at a ip) by (by destruct (inode_at a ip)). symmetry. apply list_insert_id.
  unfold inode_at. by destruct (lookup_lt_is_Some_2 _ _ (fo_ip _ Hf)) as [x ->].
Qed.

Lemma ext_refl a f : (forall i, 0 <= i < MAXFILE * BSIZE -> f i = vbyte a ip i) -> file_ok a -> ext [] f a a.
Proof.
  intros Hfb Hf. split; try done; [|by intros; by rewrite Hfb|by left]. exists (i_addrs (inode_at a ip)).
  by apply same_inodes.
Qed.

Lemma ext_trans ks ks' f g a a' a'' :
  file_ok a -> file_ok a' -> file_ok a'' -> ext ks f a a' -> ext ks' g a' a'' -> ext (ks ++ ks') g a a''.
Proof.
  intros Hf Hf' Hf'' H1 H2. pose proof (x_sb _ _ _ _ H1) as Hsb. pose proof (x_sb _ _ _ _ H2) as Hsb'.
  assert (Hfree : forall b, 0 <= b < sb_size (v_sb a) -> used (v_disk a') (v_sb a) b = false -> used (v_disk a) (v_sb a) b = false).
  { intros b Hb Hu. destruct (used (v_disk a) (v_sb a) b) eqn:E; [|done]. rewrite (x_used _ _ _ _ H1) in Hu; done. }
  split.
  - by rewrite (x_sb _ _ _ _ H2).
  - by rewrite (x_held _ _ _ _ H2), (x_held _ _ _ _ H1).
  - destruct (x_inodes _ _ _ _ H1) as [l1 E1], (x_inodes _ _ _ _ H2) as [l2 E2], (x_inode _ _ _ _ Hf H1) as [l3 E3].
    exists l2. by rewrite E2, E1, list_insert_insert_eq, E3.
  - intros b Hb Hu. rewrite <- Hsb. apply (x_used _ _ _ _ H2); rewrite Hsb; [done|]. by apply (x_used _ _ _ _ H1).
  - intros k Hk Hn. pose proof (x_slot _ _ _ _ H1 k Hk Hn) as E. rewrite (x_slot _ _ _ _ H2); congruence.
  - intros k Hk Hz Hn. destruct (Z.eq_dec (vslot a' ip k) 0) as [E|E].
    + pose proof (x_new _ _ _ _ H2 k Hk E Hn) as Hu. rewrite Hsb in Hu. apply Hfree; [|done].
      destruct (fo_slot _ Hf'' k Hk Hn) as [Hr _]. rewrite Hsb', Hsb in Hr. lia.
    + rewrite (x_slot _ _ _ _ H2 k Hk E). by apply (x_new _ _ _ _ H1).
  - intros b Hm Ho Hfr. rewrite (x_frame _ _ _ _ H2), (x_frame _ _ _ _ H1); try done; rewrite ?Hsb; try done.
    + intros Ho'. destruct (ext_owned _ _ _ _ _ H1 Ho') as [|Hu]; [done|]. apply Hfr. split; [|done].
      destruct Ho' as (Hn & k & Hk & E). destruct (fo_slot _ Hf' k Hk) as [Hr _]; [congruence|]. by rewrite E, Hsb in Hr.
    + intros [Hb Hu]. apply Hfr. split; [done|]. apply Hfree; [lia|done].
  - apply (x_byte _ _ _ _ H2).
  - intros b Hb. destruct (x_log _ _ _ _ H2 b Hb) as [H|[H|(k & Hk & Hr & -> & Hn)]].
    + destruct (x_log _ _ _ _ H1 b H) as [H'|[H'|(k & Hk & Hr & -> & Hn)]]; [by left|by right; left|]. right. right. exists k.
      split; [apply elem_of_app; by left|]. split; [done|]. split; [|done]. symmetry. by apply (x_slot _ _ _ _ H2).
    + right. left. by rewrite <- Hsb.
    + right. right. exists k. split; [apply elem_of_app; by right|done].
  - intros b Hb. by apply (x_log_mono _ _ _ _ H2), (x_log_mono _ _ _ _ H1).
Qed.

(** ** Taking a block for a slot *)

(** What [balloc] does to the view. *)
Lemma allocated_disk a c b : alloc_ok a -> lowest a c ->
  v_disk (allocated c a) b = if b =? c then zeros else if b =? BBLOCK c (v_sb a) then set_used (v_disk a (BBLOCK c (v_sb a))) (c mod BPB) else v_disk a b.
Proof. done. Qed.

Lemma allocated_used a c d : alloc_ok a -> lowest a c -> Z.of_nat (length (v_disk a (BBLOCK c (v_sb a)))) = BSIZE -> 0 <= d < sb_size (v_sb a) ->
  used (v_disk (allocated c a)) (v_sb a) d = (d =? c) || used (v_disk a) (v_sb a) d.
Proof.
  intros Ha Hl Hlen Hd. destruct (lowest_data st ds a c Ha Hl) as [Hc _]. destruct (layout_map _ _ _ d (ao_layout _ _ _ Ha) Hd) as (_ & _ & Hlt).
  rewrite <- (used_mark _ _ c d st ds); try done; [|apply Ha|apply Hl]. unfold used. f_equal. cbn. unfold set_block at 1.
  by rewrite (proj2 (Z.eqb_neq _ _)) by lia.
Qed.

(** The slot [k], empty before, has the new block [c]. *)
Record fills (k c : Z) (a a' : view_) : Prop := {
  fl_sb : v_sb a' = v_sb a;
  fl_held : v_held a' = v_held a;
  fl_inodes : exists l, v_inodes a' = <[ip := set_i_addrs l (inode_at a ip)]> (v_inodes a) /\ length l = 13%nat;
  fl_slot : forall j, 0 <= j < NSLOT -> vslot a' ip j = if j =? k then c else vslot a ip j;
  fl_used : forall d, 0 <= d < sb_size (v_sb a) -> used (v_disk a') (v_sb a) d = (d =? c) || used (v_disk a) (v_sb a) d;
  fl_disk : forall b, b <> c -> b <> BBLOCK c (v_sb a) -> (NDIRECT < k -> b <> vslot a ip NDIRECT) -> v_disk a' b = v_disk a b;
  fl_new : v_disk a' c = zeros;
  fl_log : forall b, b ∈ v_log a' <-> b ∈ v_log a \/ b = BBLOCK c (v_sb a) \/ b = c \/ (NDIRECT < k /\ b = vslot a ip NDIRECT)
}.

Lemma idx_range bn : 0 <= bn < MAXFILE -> 0 <= idx bn < NSLOT /\ idx bn <> NDIRECT.
Proof. intros H. change MAXFILE with 268 in H. change NSLOT with 269. unfold idx. change NDIRECT with 12. destruct (Z.ltb_spec bn 12); lia. Qed.

Lemma fblock_fills k c a a' bn : file_ok a -> alloc_ok a -> lowest a c -> vslot a ip k = 0 -> fills k c a a' -> 0 <= bn < MAXFILE ->
  fblock (v_disk a') (inode_at a' ip) bn = fblock (v_disk a) (inode_at a ip) bn.
Proof.
  intros Hf Ha Hl Hk H Hbn. destruct (idx_range bn Hbn) as [Hi Hne]. destruct (lowest_data st ds a c Ha Hl) as [Hc _].
  unfold fblock. rewrite (fl_slot _ _ _ _ H) by done. destruct (Z.eqb_spec (idx bn) k) as [->|Hjk].
  - rewrite (proj2 (Z.eqb_neq c 0)) by lia. rewrite Hk, (fl_new _ _ _ _ H). done.
  - destruct (Z.eqb_spec (vslot a ip (idx bn)) 0) as [|Hnz]; [done|]. destruct (fo_slot _ Hf _ Hi Hnz) as [Hr Hu].
    destruct (layout_map _ _ _ c (ao_layout _ _ _ Ha) ltac:(apply Hl)) as (_ & _ & Hlt).
    apply (fl_disk _ _ _ _ H); [|lia|].
    + intros E. rewrite E in Hu. destruct Hl as (_ & Hfr & _). congruence.
    + intros _ E. apply Hne. by apply (fo_inj _ Hf).
Qed.

(** The parts of the next lemma. *)
Lemma fills_used k c a a' d : fills k c a a' -> 0 <= d < sb_size (v_sb a) -> used (v_disk a) (v_sb a) d = true -> used (v_disk a') (v_sb a) d = true.
Proof. intros H Hd Hu. rewrite (fl_used _ _ _ _ H), Hu by done. apply orb_true_r. Qed.

Lemma fills_file k c a a' : file_ok a -> alloc_ok a -> lowest a c -> fills k c a a' -> file_ok a'.
Proof.
  intros Hf Ha Hl H. destruct (lowest_data st ds a c Ha Hl) as [Hc _]. pose proof Hl as (_ & Hfree & _).
  pose proof (fl_sb _ _ _ _ H) as Hsb. destruct (fl_inodes _ _ _ _ H) as (l & El & Hlen).
  assert (Ex : inode_at a' ip = set_i_addrs l (inode_at a ip)) by (unfold inode_at at 1; rewrite El; by rewrite list_lookup_insert_eq by apply Hf).
  assert (Hnc : forall j, 0 <= j < NSLOT -> vslot a ip j <> 0 -> vslot a ip j <> c).
  { intros j Hj Hnz E. destruct (fo_slot _ Hf j Hj Hnz) as [_ Hu]. congruence. }
  split.
  - rewrite El, length_insert. apply Hf.
  - rewrite Ex. apply Hf.
  - by rewrite Ex.
  - intros j Hj. rewrite (fl_slot _ _ _ _ H), Hsb by done. destruct (Z.eqb_spec j k) as [->|Hne]; intros Hnz.
    + split; [done|]. rewrite (fl_used _ _ _ _ H) by lia. by rewrite Z.eqb_refl.
    + destruct (fo_slot _ Hf j Hj Hnz) as [Hr Hu]. split; [done|]. apply (fills_used k c a); [done|lia|done].
  - intros i j Hi Hj. rewrite !(fl_slot _ _ _ _ H) by done.
    destruct (Z.eqb_spec i k) as [->|], (Z.eqb_spec j k) as [->|]; intros Hnz E; try done.
    + symmetry in E. exfalso. apply (Hnc j Hj); congruence.
    + exfalso. by apply (Hnc i Hi).
    + by apply (fo_inj _ Hf).
Qed.

Lemma fills_alloc k c a a' : alloc_ok a -> fills k c a a' -> alloc_ok a'.
Proof.
  intros [A1 A2 A3] H. pose proof (fl_sb _ _ _ _ H) as Hsb. split; rewrite ?Hsb, ?(fl_held _ _ _ _ H); [done| |].
  - intros b Hb. apply (fills_used k c a); [done|pose proof (ly_size _ _ _ A1); lia|by apply A2].
  - intros bn b E. destruct (A3 bn b E) as [Hr Hu]. split; [done|]. apply (fills_used k c a); [done|lia|done].
Qed.

Lemma fills_ext k c a a' :
  file_ok a -> alloc_ok a -> lowest a c -> 0 <= k < NSLOT -> vslot a ip k = 0 -> (NDIRECT < k -> vslot a ip NDIRECT <> 0) -> fills k c a a' ->
  ext [k; NDIRECT] (vbyte a ip) a a'.
Proof.
  intros Hf Ha Hl Hk Hz Hind H. destruct (lowest_data st ds a c Ha Hl) as [Hc _]. pose proof Hl as (_ & Hfree & _). split.
  - apply (fl_sb _ _ _ _ H).
  - apply (fl_held _ _ _ _ H).
  - destruct (fl_inodes _ _ _ _ H) as (l & El & _). by exists l.
  - intros b Hb. by apply (fills_used k c).
  - intros j Hj Hnz. rewrite (fl_slot _ _ _ _ H) by done. destruct (Z.eqb_spec j k) as [->|]; [congruence|done].
  - intros j Hj Hz' Hnz. rewrite (fl_slot _ _ _ _ H) in * by done. destruct (Z.eqb_spec j k) as [->|]; [done|congruence].
  - intros b Hm Ho Hfr. apply (fl_disk _ _ _ _ H).
    + intros ->. by apply Hfr.
    + intros ->. apply Hm. exists c. split; [lia|done].
    + intros Hkk ->. apply Ho. split; [by apply Hind|]. by exists NDIRECT.
  - intros i Hi. unfold fbyte. rewrite (fblock_fills k c a a'); try done. change (MAXFILE * BSIZE) with 274432 in Hi. change MAXFILE with 268.
    change BSIZE with 1024. dlia.
  - intros b Hb. apply (fl_log _ _ _ _ H) in Hb as [Hb|[->|[->|[Hkk ->]]]]; [by left| | |].
    + right. left. exists c. split; [lia|done].
    + right. right. exists k. split; [left|]. split; [done|]. rewrite (fl_slot _ _ _ _ H), Z.eqb_refl by done. split; [done|lia].
    + right. right. exists NDIRECT. split; [right; left|]. split; [done|]. rewrite (fl_slot _ _ _ _ H) by done.
      rewrite (proj2 (Z.eqb_neq _ _)) by lia. split; [done|by apply Hind].
  - intros b Hb. apply (fl_log _ _ _ _ H). by left.
Qed.

Lemma elem_listed b bn a : b ∈ v_log (listed bn a) <-> b ∈ v_log a \/ b = bn.
Proof.
  cbn. destruct (decide (bn ∈ v_log a)) as [Hi|Hi]; [|by rewrite elem_of_app, list_elem_of_singleton].
  split; [by left|]. by intros [H| ->].
Qed.

Definition with_addr (k c : Z) (a : view_) : view_ :=
  with_inodes (<[ip := set_i_addrs (zset (i_addrs (inode_at a ip)) k c) (inode_at a ip)]> (v_inodes a)) a.

Lemma fills_direct k c a : file_ok a -> alloc_ok a -> lowest a c -> Z.of_nat (length (v_disk a (BBLOCK c (v_sb a)))) = BSIZE ->
  0 <= k <= NDIRECT -> vslot a ip k = 0 -> fills k c a (with_addr k c (allocated c a)).
Proof.
  intros Hf Ha Hl Hlen Hk Hz. destruct (lowest_data st ds a c Ha Hl) as [Hc _]. destruct (layout_map _ _ _ c (ao_layout _ _ _ Ha) ltac:(apply Hl)) as (_ & _ & Hlt).
  assert (Ex : inode_at (with_addr k c (allocated c a)) ip = set_i_addrs (zset (i_addrs (inode_at a ip)) k c) (inode_at a ip)).
  { unfold inode_at at 1. cbn. by rewrite list_lookup_insert_eq by apply Hf. }
  assert (Hl13 : Z.of_nat (length (i_addrs (inode_at a ip))) = NDIRECT + 1) by (by rewrite (fo_addrs _ Hf)).
  split; try done.
  - eexists. split; [reflexivity|]. rewrite length_zset. apply Hf.
  - intros j Hj. rewrite Ex. destruct (Z.le_gt_cases j NDIRECT) as [Hle|Hgt].
    + rewrite !slot_direct by done. cbn [i_addrs set_i_addrs]. destruct (Z.eqb_spec j k) as [->|]; [apply zget_zset_eq; lia|apply zget_zset_ne; lia].
    + rewrite (proj2 (Z.eqb_neq j k)) by lia. rewrite !(slot_indirect _ _ j) by done. rewrite !(slot_direct _ _ NDIRECT) by lia.
      cbn [i_addrs set_i_addrs]. destruct (Z.eq_dec k NDIRECT) as [->|Hne].
      * rewrite slot_direct in Hz by lia. rewrite Hz, Z.eqb_refl, zget_zset_eq by lia. rewrite (proj2 (Z.eqb_neq c 0)) by lia.
        cbn. unfold set_block. rewrite Z.eqb_refl. apply get_u32_zeros.
      * rewrite zget_zset_ne by lia. destruct (Z.eqb_spec (zget (i_addrs (inode_at a ip)) NDIRECT) 0) as [|Hnz]; [done|].
        rewrite <- (slot_direct (v_disk a)) in * by lia. destruct (fo_slot _ Hf NDIRECT) as [Hr Hu]; [done|done|].
        change (v_disk (with_addr k c (allocated c a))) with (v_disk (allocated c a)). rewrite allocated_disk by done.
        rewrite (proj2 (Z.eqb_neq _ c)), (proj2 (Z.eqb_neq _ (BBLOCK c _))); [done|lia|]. intros E. rewrite E in Hu. destruct Hl as (_ & Hfr & _). congruence.
  - intros d Hd. by apply allocated_used.
  - intros b Hb1 Hb2 _. change (v_disk (with_addr k c (allocated c a))) with (v_disk (allocated c a)). rewrite allocated_disk by done.
    by rewrite (proj2 (Z.eqb_neq b c)), (proj2 (Z.eqb_neq b _)).
  - change (v_disk (with_addr k c (allocated c a))) with (v_disk (allocated c a)). rewrite allocated_disk by done. by rewrite Z.eqb_refl.
  - intros b. change (v_log (with_addr k c (allocated c a))) with (v_log (allocated c a)). unfold allocated, marked. rewrite elem_listed.
    change (v_log (put c ?v ?x)) with (v_log x). rewrite elem_listed. cbn. assert (~ NDIRECT < k) by lia. tauto.
Qed.

Definition ind_off (k : Z) : nat := Z.to_nat (4 * (k - NDIRECT - 1)).

Lemma fills_indirect k c ind a : file_ok a -> alloc_ok a -> lowest a c -> (forall b, Z.of_nat (length (v_disk a b)) = BSIZE) ->
  NDIRECT < k < NSLOT -> vslot a ip k = 0 -> vslot a ip NDIRECT = ind -> ind <> 0 ->
  fills k c a (listed ind (put ind (splice (v_disk a ind) (ind_off k) (le_bytes 4 c)) (allocated c a))).
Proof.
  intros Hf Ha Hl Hlen Hk Hz Hi Hnz. destruct (lowest_data st ds a c Ha Hl) as [Hc _]. destruct (layout_map _ _ _ c (ao_layout _ _ _ Ha) ltac:(apply Hl)) as (_ & _ & Hlt).
  pose proof (ly_size _ _ _ (ao_layout _ _ _ Ha)) as Hsz. pose proof Hl as (_ & Hfree & _).
  destruct (fo_slot _ Hf NDIRECT) as [Hir Hiu]; [done|congruence|]. rewrite Hi in Hir, Hiu. assert (Hci : ind <> c) by congruence.
  set (a' := listed _ _). assert (Ex : inode_at a' ip = inode_at a ip) by done.
  assert (Ed : forall b, v_disk a' b = if b =? ind then splice (v_disk a ind) (ind_off k) (le_bytes 4 c) else v_disk (allocated c a) b) by done.
  split; try done.
  - exists (i_addrs (inode_at a ip)). split; [|apply Hf].
    change (v_inodes a') with (v_inodes a). by apply same_inodes.
  - intros j Hj. rewrite Ex. destruct (Z.le_gt_cases j NDIRECT) as [Hle|Hgt].
    + rewrite !slot_direct by done. by rewrite (proj2 (Z.eqb_neq j k)) by lia.
    + rewrite !(slot_indirect _ _ j) by done. change (slot (v_disk a') (inode_at a ip) NDIRECT) with (vslot a ip NDIRECT). rewrite Hi.
      rewrite (proj2 (Z.eqb_neq ind 0)) by done. rewrite Ed, Z.eqb_refl. pose proof (Hlen ind) as Hli. change BSIZE with 1024 in Hli.
      change NSLOT with 269 in *. change NDIRECT with 12 in *. unfold ind_off. change NDIRECT with 12. destruct (Z.eqb_spec j k) as [->|].
      * apply get_u32_splice_eq; lia.
      * apply get_u32_splice_ne; lia.
  - intros d Hd. unfold used. destruct (layout_map _ _ _ d (ao_layout _ _ _ Ha) Hd) as (_ & _ & Hltd). rewrite Ed, (proj2 (Z.eqb_neq _ _)) by lia.
    by apply allocated_used.
  - intros b Hb1 Hb2 Hb3. rewrite Ed, (proj2 (Z.eqb_neq b ind)) by (rewrite <- Hi; apply Hb3; lia). rewrite allocated_disk by done.
    by rewrite (proj2 (Z.eqb_neq b c)), (proj2 (Z.eqb_neq b _)).
  - rewrite Ed, (proj2 (Z.eqb_neq c ind)), allocated_disk by done. by rewrite Z.eqb_refl.
  - intros b. unfold a'. rewrite elem_listed. change (v_log (put ?b ?v ?x)) with (v_log x). unfold allocated, marked. rewrite elem_listed.
    change (v_log (put c ?v ?x)) with (v_log x). rewrite elem_listed, Hi. cbn. assert (NDIRECT < k) by lia. tauto.
Qed.

(** ** Room *)

(** There are [n] free blocks. *)
Definition spare (n : nat) (a : view_) : Prop :=
  exists l, NoDup l /\ length l = n /\ Forall (fun c => 0 <= c < sb_size (v_sb a) /\ used (v_disk a) (v_sb a) c = false) l.

Lemma spare_free n a : spare (S n) a -> exists c, 0 <= c < sb_size (v_sb a) /\ used (v_disk a) (v_sb a) c = false.
Proof. intros ([|c l] & _ & Hl & H); [done|]. apply Forall_cons in H as [H _]. by exists c. Qed.

Lemma spare_le m n a : (m <= n)%nat -> spare n a -> spare m a.
Proof.
  intros Hm (l & Hn & Hl & H). exists (take m l). split; [by eapply sublist_NoDup; [|apply sublist_take]|].
  split; [rewrite length_take; lia|]. by apply Forall_take.
Qed.

Lemma spare_fills n k c a a' : spare (S n) a -> fills k c a a' -> spare n a'.
Proof.
  intros (l & Hnd & Hl & H) Hf. assert (exists l', NoDup l' /\ length l' = n /\ c ∉ l' /\ l' ⊆ l) as (l' & L1 & L2 & L3 & L4).
  { destruct (decide (c ∈ l)) as [(l1 & l2 & ->)%list_elem_of_split|Hn].
    - exists (l1 ++ l2). rewrite length_app in *. cbn in Hl. apply NoDup_app in Hnd as (N1 & N2 & [N3 N4]%NoDup_cons).
      split; [apply NoDup_app; set_solver|]. split; [lia|]. set_solver.
    - destruct l as [|x l]; [done|]. apply NoDup_cons in Hnd as [_ Hnd]. exists l. cbn in Hl. split; [done|]. split; [lia|]. set_solver. }
  exists l'. split; [done|]. split; [done|]. rewrite Forall_forall in *. intros d Hd. destruct (H d (L4 d Hd)) as [H1 H2].
  rewrite (fl_sb _ _ _ _ Hf). split; [done|]. rewrite (fl_used _ _ _ _ Hf), H2 by done. rewrite orb_false_r. apply Z.eqb_neq. set_solver.
Qed.

Lemma ext_log_length ks f a a' :
  alloc_ok a -> sb_size (v_sb a) <= BPB -> ext ks f a a' -> NoDup (v_log a') -> (length (v_log a') <= length (v_log a) + 1 + length ks)%nat.
Proof.
  intros Ha Hone He Hnd. transitivity (length (v_log a ++ [BBLOCK 0 (v_sb a)] ++ map (fun k => vslot a' ip k) ks)).
  - apply submseteq_length, NoDup_submseteq; [done|]. intros b Hb. rewrite !elem_of_app, list_elem_of_singleton, list_elem_of_fmap.
    destruct (x_log _ _ _ _ He b Hb) as [H|[(c & Hc & ->)|(k & Hk & _ & -> & _)]]; [by left| |].
    + right. left. unfold BBLOCK. by rewrite Z.div_small by lia.
    + right. right. by exists k.
  - rewrite !length_app, length_map. cbn. lia.
Qed.

Lemma ext_mono ks ks' f a a' : (forall k, k ∈ ks -> k ∈ ks') -> ext ks f a a' -> ext ks' f a a'.
Proof.
  intros Hk [E1 E2 E3 E4 E5 E6 E7 E8 E9 E10]. split; try done. intros b Hb.
  destruct (E9 b Hb) as [?|[?|(k & ? & ?)]]; [by left|by right; left|]. right. right. exists k. split; [by apply Hk|done].
Qed.

Lemma ext_fun ks f g a a' : (forall i, 0 <= i < MAXFILE * BSIZE -> g i = f i) -> ext ks f a a' -> ext ks g a a'.
Proof. intros Hg [E1 E2 E3 E4 E5 E6 E7 E8 E9 E10]. split; try done. intros i Hi. by rewrite E8, Hg. Qed.

(** ** bmap *)

(** The slot [k] was in use, or got a block. *)
Definition took (k : Z) (a a' : view_) : Prop :=
  (vslot a ip k <> 0 /\ a' = a) \/ (vslot a ip k = 0 /\ exists c, lowest a c /\ fills k c a a').

Definition empty (k : Z) (a : view_) : nat := if vslot a ip k =? 0 then 1 else 0.

Lemma took_ok k a a' :
  file_ok a -> alloc_ok a -> 0 <= k < NSLOT -> (NDIRECT < k -> vslot a ip NDIRECT <> 0) -> took k a a' ->
  file_ok a' /\ alloc_ok a' /\ ext [k; NDIRECT] (vbyte a ip) a a'.
Proof.
  intros Hf Ha Hk Hind [[Hn ->]|(Hz & c & Hl & H)].
  - split; [done|]. split; [done|]. apply (ext_mono []); [by intros ? ?%elem_of_nil|]. by apply ext_refl.
  - split; [by apply (fills_file k c a)|]. split; [by apply (fills_alloc k c a)|]. by apply (fills_ext k c).
Qed.

Lemma took_slot k a a' j : alloc_ok a -> took k a a' -> 0 <= j < NSLOT -> if decide (j = k) then vslot a' ip j <> 0 else vslot a' ip j = vslot a ip j.
Proof.
  intros Ha [[Hn ->]|(Hz & c & Hl & H)] Hj; [by case_decide; subst|]. rewrite (fl_slot _ _ _ _ H) by done.
  destruct (lowest_data st ds a c Ha Hl). case_decide as E; [subst; rewrite Z.eqb_refl; lia|]. by rewrite (proj2 (Z.eqb_neq j k)).
Qed.

Lemma took_spare k a a' n : took k a a' -> spare (n + empty k a) a -> spare n a'.
Proof.
  unfold empty. intros [[Hn ->]|(Hz & c & Hl & H)].
  - rewrite (proj2 (Z.eqb_neq _ _)), Nat.add_0_r by done. done.
  - rewrite Hz, Z.eqb_refl, Nat.add_1_r. intros Hs. by apply (spare_fills n k c a).
Qed.

Lemma t_len s a bn : txn s a -> Z.of_nat (length (v_disk a bn)) = BSIZE.
Proof.
  intros [(G & Hr & Hc) _ _ _ _ _ _]. specialize (Hc bn). destruct (v_held a !! bn) as [b|].
  - apply (brep_data_length _ _ _ _ _ _ _ _ _ Hr Hc).
  - destruct (decide (bn ∈ v_log a)); [destruct Hc as [b Hc]; apply (brep_data_length _ _ _ _ _ _ _ _ _ Hr Hc)|].
    destruct Hc as [_ ->]. apply Hr.
Qed.

Lemma t_with_addr s a k c : txn s a -> txn (upd_inode ip (fun x => set_i_addrs (zset (i_addrs x) k c) x) s) (with_addr k c a).
Proof.
  intros Hs. pose proof (inode_at_get s a Hs) as Ex. destruct Hs as [H1 H2 H3 H4 H5 H6 H7]. split; try done.
  cbn. by rewrite Ex, H6.
Qed.

(** The slots of the inode itself. *)
Lemma direct_wp s a k :
  txn s a -> alloc_ok a -> file_ok a -> 0 <= k <= NDIRECT -> room 2 a -> spare (empty k a) a ->
  twp (fun r s' => exists a', txn s' a' /\ took k a a' /\ r = vslot a' ip k)
    ((let addr := zget (i_addrs (inode_at a ip)) k in
      if negb (addr =? 0) then ret addr else
      addr <- balloc (S fuel) dev ;;
      inode_set ip (fun x => set_i_addrs (zset (i_addrs x) k addr) x) ;;;
      ret addr) s).
Proof.
  intros Hs Ha Hf Hk Hr Hsp. cbn zeta. rewrite <- (slot_direct (v_disk a)) by lia. unfold empty in Hsp.
  destruct (Z.eqb_spec (vslot a ip k) 0) as [Hz|Hnz]; cbn [negb].
  - eapply wp_call; [apply (balloc_wp fuel d0 dev st ds); try done; by eapply spare_free|]. intros c s1 [Hl H1].
    eapply wp_bind_ok; [reflexivity|]. cbn. exists (with_addr k c (allocated c a)). assert (Hfl := fills_direct k c a Hf Ha Hl (t_len s a _ Hs) Hk Hz).
    split; [by apply t_with_addr|]. split; [right; split; [done|]; by exists c|].
    rewrite (fl_slot _ _ _ _ Hfl), Z.eqb_refl; [done|]. change NSLOT with 269. change NDIRECT with 12 in Hk. lia.
  - cbn. exists a. split; [done|]. split; [by left|done].
Qed.

(** The entries of the indirect block. *)
Lemma indirect_wp s a k ind :
  txn s a -> alloc_ok a -> file_ok a -> NDIRECT < k < NSLOT -> vslot a ip NDIRECT = ind -> ind <> 0 -> v_held a !! ind = None ->
  room 4 a -> spare (empty k a) a ->
  twp (fun r s' => exists a', txn s' a' /\ took k a a' /\ r = vslot a' ip k)
    ((bp <- fs_bread (S fuel) dev ind ;;
      data <- bdata bp ;;
      addr <- (let addr := get_u32 data (ind_off k) in
               if negb (addr =? 0) then ret addr else
               addr <- balloc (S fuel) dev ;;
               lift (buf_set bp (fun b => set_buf_data (splice (buf_data b) (ind_off k) (le_bytes 4 addr)) b)) ;;;
               fs_log_write bp ;;;
               ret addr) ;;
      fs_brelse bp ;;;
      ret addr) s).
Proof.
  intros Hs Ha Hf Hk Hi Hnz Hnh Hr Hsp. destruct (fo_slot _ Hf NDIRECT) as [Hir Hiu]; [done|congruence|]. rewrite Hi in Hir, Hiu.
  pose proof HEAD_eq as HH. unfold room in Hr. pose proof (layout_data _ _ _ _ (ao_layout _ _ _ Ha) Hir) as Hhome.
  eapply t_bread; [exact Hs|done|apply Hhome|lia|]. intros bp s1 H1.
  eapply wp_bind_ok; [apply (t_bdata fuel d0 dev st p pid spurious ws s1 _ ind bp H1), lookup_insert_eq|]. cbn [taking v_disk]. cbn zeta.
  assert (Eslot : vslot a ip k = get_u32 (v_disk a ind) (ind_off k)).
  { rewrite slot_indirect, Hi by lia. by rewrite (proj2 (Z.eqb_neq _ _)). }
  rewrite <- Eslot. unfold empty in Hsp. destruct (Z.eqb_spec (vslot a ip k) 0) as [Hz|Hnz']; cbn [negb].
  - assert (Ha1 : alloc_ok (taking ind bp a)).
    { destruct Ha as [A1 A2 A3]. split; [done|done|]. intros bn b. cbn. intros [[<- <-]|[Hne E]]%lookup_insert_Some; [done|by apply (A3 bn b)]. }
    apply wp_bind. eapply wp_call; [apply (balloc_wp fuel d0 dev st ds _ _ _ _ _ (taking ind bp a)); try done|].
    + unfold room. cbn. rewrite map_size_insert_None by done. lia.
    + by eapply spare_free.
    + intros c s2 [Hl H2]. change (lowest (taking ind bp a) c) with (lowest a c) in Hl.
      change (allocated c (taking ind bp a)) with (taking ind bp (allocated c a)) in H2.
      pose proof (fills_indirect k c ind a Hf Ha Hl (fun b => t_len s a b Hs) Hk Hz Hi Hnz) as Hfl.
      destruct (lowest_data st ds a c Ha Hl) as [Hc _]. destruct (layout_map _ _ _ c (ao_layout _ _ _ Ha) ltac:(apply Hl)) as (_ & _ & Hlt).
      assert (Ed : v_disk (allocated c a) ind = v_disk a ind).
      { rewrite allocated_disk, (proj2 (Z.eqb_neq ind c)), (proj2 (Z.eqb_neq ind _)) by (done || lia || (intros ->; destruct Hl as (_ & ? & _); congruence)). done. }
      destruct (t_update fuel d0 dev st p pid spurious ws s2 (allocated c a) ind bp (fun b => set_buf_data (splice (buf_data b) (ind_off k) (le_bytes 4 c)) b)
        (splice (v_disk a ind) (ind_off k) (le_bytes 4 c)) H2) as (s3 & s4 & s5 & E3 & E4 & E5 & H5); try done.
      * by apply room_listed, room_listed; unfold room; lia.
      * intros x Hx. by rewrite Hx, Ed.
      * pose proof (t_len s a ind Hs) as Hli. rewrite length_splice; [done|]. rewrite length_le_bytes. unfold ind_off.
        change BSIZE with 1024 in Hli. change NSLOT with 269 in Hk. change NDIRECT with 12 in *. lia.
      * eapply wp_bind_ok; [exact E3|]. eapply wp_bind_ok; [exact E4|]. cbn. eapply wp_bind_ok; [exact E5|].
        eexists. split; [exact H5|]. split; [right; split; [done|]; by exists c|]. rewrite (fl_slot _ _ _ _ Hfl), Z.eqb_refl by (change NDIRECT with 12 in Hk; lia). done.
  - eapply wp_bind_ok; [reflexivity|]. destruct (t_release d0 dev st p pid ws s a s1 ind bp Hs Hnh H1) as (s2 & E2 & H2).
    eapply wp_bind_ok; [exact E2|]. exists a. split; [done|]. split; [by left|done].
Qed.

(** The free blocks that [bmap] may need for block [bn]. *)
Definition needs (bn : Z) (a : view_) : nat := empty (idx bn) a + (if bn <? NDIRECT then 0 else empty NDIRECT a).

(** [bmap] finds the block of the file, or takes one, without changing the bytes. *)
Lemma bmap_wp s a bn n :
  txn s a -> alloc_ok a -> file_ok a -> sb_size (v_sb a) <= BPB -> v_held a = ∅ -> 0 <= bn < MAXFILE -> room 7 a -> spare (n + needs bn a) a ->
  twp (fun r s' => exists a', txn s' a' /\ alloc_ok a' /\ file_ok a' /\ ext [idx bn; NDIRECT] (vbyte a ip) a a' /\
         r = vslot a' ip (idx bn) /\ r <> 0 /\ spare n a' /\
         (forall j, 0 <= j < NSLOT -> j <> idx bn -> j <> NDIRECT \/ bn < NDIRECT -> vslot a' ip j = vslot a ip j))
    (bmap (S fuel) ip bn s).
Proof.
  intros Hs Ha Hf Hone Hh Hbn Hr Hsp. unfold bmap, inode_get. mgo. rewrite (inode_at_get s a Hs), (fo_dev _ Hf). destruct (idx_range bn Hbn) as [Hi Hine].
  unfold needs, room in *. destruct (Z.ltb_spec bn NDIRECT) as [Hlt|Hge].
  - assert (Ei : idx bn = bn) by (unfold idx; by rewrite (proj2 (Z.ltb_lt _ _))). rewrite Ei in *.
    eapply wp_mono; [apply (direct_wp s a bn); try done; [lia|unfold room; lia|eapply spare_le; [|exact Hsp]; lia]|]. intros r s' (a' & H' & Ht & ->).
    destruct (took_ok bn a a' Hf Ha Hi ltac:(lia) Ht) as (Hf' & Ha' & He). pose proof (took_slot bn a a' bn Ha Ht Hi) as Hn. rewrite decide_True in Hn by done.
    exists a'. repeat (split; [done|]). split; [by eapply took_spare; [exact Ht|]; rewrite Nat.add_0_r in Hsp|].
    intros j Hj Hne _. pose proof (took_slot bn a a' j Ha Ht Hj) as E. by rewrite decide_False in E.
  - assert (Ei : idx bn = bn + 1) by (unfold idx; by rewrite (proj2 (Z.ltb_ge _ _))). rewrite (proj2 (Z.ltb_lt _ _)) by (unfold MAXFILE in Hbn; lia).
    eapply wp_call; [apply (direct_wp s a NDIRECT); try done; [unfold room; lia|eapply spare_le; [|exact Hsp]; lia]|]. intros r s1 (a1 & H1 & Ht & ->).
    destruct (took_ok NDIRECT a a1 Hf Ha ltac:(done) ltac:(lia) Ht) as (Hf1 & Ha1 & He1). pose proof (took_slot NDIRECT a a1 NDIRECT Ha Ht ltac:(done)) as Hn.
    rewrite decide_True in Hn by done. pose proof (took_slot NDIRECT a a1 (idx bn) Ha Ht Hi) as Hsl. rewrite decide_False in Hsl by done.
    assert (Hsp1 : spare (n + empty (idx bn) a1) a1).
    { eapply took_spare; [exact Ht|]. unfold empty at 1. rewrite Hsl. by rewrite Nat.add_assoc in Hsp. }
    assert (Hr1 : room 4 a1).
    { pose proof (ext_log_length _ _ _ _ Ha Hone He1 (t_nodup _ _ _ _ _ _ _ _ H1)). unfold room. rewrite (x_held _ _ _ _ He1). cbn [length] in *. lia. }
    replace (Z.to_nat (4 * (bn - NDIRECT))) with (ind_off (idx bn)) by (unfold ind_off; f_equal; lia).
    eapply wp_mono; [apply (indirect_wp s1 a1 (idx bn)); try done; [lia|by rewrite (x_held _ _ _ _ He1), Hh|eapply spare_le; [|exact Hsp1]; lia]|].
    intros r s' (a' & H' & Ht' & ->). destruct (took_ok (idx bn) a1 a' Hf1 Ha1 Hi ltac:(done) Ht') as (Hf' & Ha' & He).
    pose proof (took_slot (idx bn) a1 a' (idx bn) Ha1 Ht' Hi) as Hn'. rewrite decide_True in Hn' by done.
    exists a'. do 3 (split; [done|]). split.
    { apply (ext_mono ([NDIRECT; NDIRECT] ++ [idx bn; NDIRECT])); [set_solver|]. apply (ext_trans _ _ (vbyte a ip) _ a a1 a'); try done.
      apply (ext_fun _ (vbyte a1 ip)); [|done]. intros i Hi'. symmetry. by apply (x_byte _ _ _ _ He1). }
    do 2 (split; [done|]). split; [by eapply took_spare|]. intros j Hj Hne Hor.
    pose proof (took_slot (idx bn) a1 a' j Ha1 Ht' Hj) as E. rewrite decide_False in E by done.
    pose proof (took_slot NDIRECT a a1 j Ha Ht Hj) as E'. rewrite decide_False in E' by lia. congruence.
Qed.
End File.
