(* ===== verification/FsRw.v ===== *)
(** * Reading and writing files: readi and writei of kernel/fs.c

    [readi] returns the bytes of the file and [writei] replaces them, for transfers to and
    from the kernel's memory; a write that ends its transaction is atomic with respect to
    crashes. *)
From stdpp Require Import gmap list strings.
From S2P Require Import Prelude Kstring Abi Machine Spinlock Kalloc Vm Proc Sched Sleeplock UserMem Virtio Bio Log Fs Wp BioList BlockEnv VirtioSpec BioSpec LogSpec LogCrash LogWrite FsTx FsBitmap FsAlloc FsFile.

(** The bytes [off .. off + m) of a file whose bytes are [f]. *)
Definition bytes_at (f : Z -> Z) (off m : Z) : list Z := map f (seqZ off m).

Lemma bytes_at_app f off m m' : 0 <= m -> 0 <= m' -> bytes_at f off (m + m') = bytes_at f off m ++ bytes_at f (off + m) m'.
Proof. intros H H'. unfold bytes_at. by rewrite seqZ_app, map_app by lia. Qed.

(** A piece of a block. *)
Lemma piece_bytes l f o off m :
  0 <= o -> 0 <= m -> o + m <= Z.of_nat (length l) -> (forall i, 0 <= i < m -> f (off + i) = zget l (o + i)) ->
  take (Z.to_nat m) (drop (Z.to_nat o) l) = bytes_at f off m.
Proof.
  intros Ho Hm Hl Hf. apply list_eq. intros i. unfold bytes_at. rewrite list_lookup_fmap. destruct (decide (i < Z.to_nat m)%nat) as [Hi|Hi].
  - rewrite lookup_take_lt, lookup_drop, lookup_seqZ_lt by lia. cbn. rewrite Hf by lia. unfold zget.
    replace (Z.to_nat (o + Z.of_nat i)) with (Z.to_nat o + i)%nat by lia.
    destruct (lookup_lt_is_Some_2 l (Z.to_nat o + i) ltac:(lia)) as [x ->]. done.
  - rewrite lookup_take_ge, lookup_seqZ_ge by lia. done.
Qed.

Lemma block_split i : 0 <= i -> i = BSIZE * (i / BSIZE) + i mod BSIZE /\ 0 <= i mod BSIZE < BSIZE /\ 0 <= i / BSIZE.
Proof. intros H. change BSIZE with 1024. dlia. Qed.

(** A piece that stays in one block, and what comes after it. *)
Lemma same_chunk off i : 0 <= off -> 0 <= i < BSIZE - off mod BSIZE -> (off + i) / BSIZE = off / BSIZE /\ (off + i) mod BSIZE = off mod BSIZE + i.
Proof. change BSIZE with 1024. intros Ho Hi. dlia. Qed.

Lemma next_chunk off n k : 0 <= off -> let m := Z.min n (BSIZE - off mod BSIZE) in
  0 < n -> off mod BSIZE + n <= Z.of_nat (S k) * BSIZE -> 0 < n - m -> (off + m) mod BSIZE + (n - m) <= Z.of_nat k * BSIZE.
Proof. change BSIZE with 1024. intros Ho m Hn Hk Hm. assert (E : (off + m) mod 1024 = 0) by (unfold m in *; dlia). dlia. Qed.

(** The bytes [f] with [bytes] stored at [off]. *)
Definition over (f : Z -> Z) (off : Z) (bytes : list Z) : Z -> Z :=
  fun i => if (off <=? i) && (i <? off + Z.of_nat (length bytes)) then zget bytes (i - off) else f i.

Lemma zget_splice l o c j : 0 <= j -> (o + length c <= length l)%nat ->
  zget (splice l o c) j = if (Z.of_nat o <=? j) && (j <? Z.of_nat o + Z.of_nat (length c)) then zget c (j - Z.of_nat o) else zget l j.
Proof.
  intros Hj Hl. unfold splice, zget. destruct (Z.leb_spec (Z.of_nat o) j) as [H1|H1]; cbn [andb].
  - rewrite lookup_app_r by (rewrite length_take; lia). rewrite length_take, Nat.min_l by lia.
    destruct (Z.ltb_spec j (Z.of_nat o + Z.of_nat (length c))) as [H2|H2].
    + rewrite lookup_app_l by lia. do 2 f_equal. lia.
    + rewrite lookup_app_r, lookup_drop by lia. do 2 f_equal. lia.
  - rewrite lookup_app_l by (rewrite length_take; lia). by rewrite lookup_take_lt by lia.
Qed.

(** One round of a write: the piece of one block, then the rest. *)
Lemma over_round f l off bytes m i :
  0 <= off -> 0 <= i -> 0 <= m <= Z.of_nat (length bytes) -> m <= BSIZE - off mod BSIZE -> Z.of_nat (length l) = BSIZE ->
  (i / BSIZE = off / BSIZE -> f i = zget l (i mod BSIZE)) ->
  over (fun i => if i / BSIZE =? off / BSIZE then zget (splice l (Z.to_nat (off mod BSIZE)) (take (Z.to_nat m) bytes)) (i mod BSIZE) else f i)
    (off + m) (drop (Z.to_nat m) bytes) i = over f off bytes i.
Proof.
  intros Ho Hi Hm Hmb Hl Hf. destruct (block_split off Ho) as (Eo & Hom & _), (block_split i Hi) as (Ei & Him & _). unfold over.
  rewrite length_drop, Nat2Z.inj_sub, Z2Nat.id by lia. rewrite zget_splice by (rewrite ?length_take; lia).
  rewrite length_take, Nat.min_l, !Z2Nat.id by lia. assert (HB : 0 < BSIZE) by done.
  assert (Hd : i / BSIZE = off / BSIZE -> i - off = i mod BSIZE - off mod BSIZE) by (intros E; rewrite E in Ei; lia).
  destruct (Z.leb_spec (off + m) i), (Z.leb_spec off i), (Z.ltb_spec i (off + m + (Z.of_nat (length bytes) - m))), (Z.ltb_spec i (off + Z.of_nat (length bytes)));
    cbn [andb]; try lia.
  - rewrite zget_drop by lia. f_equal. lia.
  - destruct (Z.eqb_spec (i / BSIZE) (off / BSIZE)) as [E|E]; [|done]. rewrite (Hf E).
    rewrite (proj2 (Z.ltb_ge (i mod BSIZE) _)) by lia. by rewrite andb_false_r.
  - assert (E : i / BSIZE = off / BSIZE) by nia. rewrite E, Z.eqb_refl. specialize (Hd E).
    rewrite (proj2 (Z.leb_le _ _)), (proj2 (Z.ltb_lt _ _)) by lia. cbn [andb]. rewrite zget_take by lia. f_equal. lia.
  - destruct (Z.eqb_spec (i / BSIZE) (off / BSIZE)) as [E|E]; [|done]. rewrite (Hf E). by rewrite (proj2 (Z.leb_gt _ _)) by lia.
Qed.

Lemma dinode_off_fits inum : 0 <= inum -> (dinode_off inum + 64 <= Z.to_nat BSIZE)%nat.
Proof. intros H. unfold dinode_off, IPB, DINODE_SIZE. change BSIZE with 1024. change (1024 / 64) with 16. dlia. Qed.

(** Inodes of one block do not overlap. *)
Lemma inodes_apart sb i j : 0 <= i < 2 ^ 32 -> 0 <= j < 2 ^ 32 -> i <> j -> IBLOCK i sb = IBLOCK j sb ->
  (dinode_off i + 64 <= dinode_off j \/ dinode_off j + 64 <= dinode_off i)%nat.
Proof.
  intros Hi Hj Hne E. unfold IBLOCK, u32 in E. unfold dinode_off. change IPB with 16 in *. change DINODE_SIZE with 64.
  assert (Ed : i / 16 = j / 16); [|pose proof (Z.div_mod i 16); pose proof (Z.div_mod j 16); pose proof (Z.mod_pos_bound i 16); pose proof (Z.mod_pos_bound j 16); lia].
  assert (Hm : (i / 16 - j / 16) mod 2 ^ 32 = 0).
  { replace (i / 16 - j / 16) with ((i / 16 + sb_inodestart sb) - (j / 16 + sb_inodestart sb)) by lia. by rewrite Zminus_mod, E, Z.sub_diag. }
  apply Z.mod_divide in Hm as [q Hq]; [|lia]. pose proof (Z.div_mod i 16). pose proof (Z.div_mod j 16). pose proof (Z.mod_pos_bound i 16). pose proof (Z.mod_pos_bound j 16).
  assert (q = 0) by nia. lia.
Qed.

Section Rw.
Variables (fuel : nat) (d0 : Z -> list Z) (dev st ds : Z) (p : nat) (pid : Z) (spurious : Prop) (ws : list (Z * list Z)) (ip : nat).
Notation txn := (txn d0 dev st p pid ws).
Notation twp := (wp spurious (sub_rel (env d0 dev p pid spurious)) (fun s : fss => b_writes (l_b (fs_l s)) = ws)).
Notation alloc_ok := (alloc_ok st ds).
Notation file_ok := (file_ok dev ds ip).
Hypothesis Hds : 0 < ds.

(** Code that only asks for the current process. *)
Lemma t_machine {A} s a (x : M machine A) v :
  txn s a -> (forall m, calm p pid m -> x m = Ok v (settle m)) -> exists s', lift x s = Ok v s' /\ txn s' a.
Proof.
  intros [(G & Hr & Hc) H2 H3 H4 H5 H6 H7] Hx. eexists. split.
  - unfold lift. cbn. rewrite Hx by apply Hr. reflexivity.
  - split; try done. exists G. split; [|done]. destruct Hr as [R1 R2 R3 R4 R5]. split; try done. by apply calm_settle.
Qed.

Lemma t_copyout s a bytes : txn s a -> exists s', lift (either_copyout Dkernel bytes) s = Ok (0, bytes) s' /\ txn s' a.
Proof.
  intros Hs. apply (t_machine s a _ _ Hs). intros m Hm. unfold either_copyout.
  erewrite bind_ok by (apply curproc_eq; [by eapply calm_ok|apply Hm]). done.
Qed.

Lemma t_copyin s a bytes off len : txn s a ->
  exists s', lift (either_copyin (Skernel bytes) off len) s = Ok (0, take (Z.to_nat len) (drop (Z.to_nat off) bytes)) s' /\ txn s' a.
Proof.
  intros Hs. apply (t_machine s a _ _ Hs). intros m Hm. unfold either_copyin.
  erewrite bind_ok by (apply curproc_eq; [by eapply calm_ok|apply Hm]). done.
Qed.

Lemma spare_0 a : spare 0 a.
Proof. exists []. split; [constructor|]. by split. Qed.

(** [bmap] of a block that is there. *)
Lemma bmap_hit s a bn :
  txn s a -> alloc_ok a -> file_ok a -> v_held a = ∅ -> 0 <= bn < MAXFILE -> room 4 a -> vslot a ip (idx bn) <> 0 ->
  twp (fun r s' => txn s' a /\ r = vslot a ip (idx bn)) (bmap (S fuel) ip bn s).
Proof.
  intros Hs Ha Hf Hh Hbn Hr Hn. unfold bmap, inode_get. mgo. rewrite (inode_at_get d0 dev st p pid ws ip s a Hs), (fo_dev _ _ _ _ Hf).
  destruct (idx_range bn Hbn) as [Hi Hine]. assert (Hempty : forall k, vslot a ip k <> 0 -> spare (empty ip k a) a).
  { intros k Hk. unfold empty. rewrite (proj2 (Z.eqb_neq _ _)) by done. apply spare_0. }
  assert (Hsame : forall k a', vslot a ip k <> 0 -> took ip k a a' -> a' = a) by (intros k a' Hk [[_ ->]|[? _]]; done).
  unfold room in Hr. unfold idx in *. destruct (Z.ltb_spec bn NDIRECT) as [Hlt|Hge].
  - eapply wp_mono; [apply (direct_wp fuel d0 dev st ds p pid spurious ws ip Hds s a bn); try done; [lia|unfold room; lia|by apply Hempty]|].
    intros r s' (a' & H' & ->%(Hsame bn) & ->); done.
  - rewrite (proj2 (Z.ltb_lt _ _)) by (unfold MAXFILE in Hbn; lia). assert (Hind : vslot a ip NDIRECT <> 0).
    { intros E. apply Hn. rewrite slot_indirect by lia. by rewrite E. }
    eapply wp_call; [apply (direct_wp fuel d0 dev st ds p pid spurious ws ip Hds s a NDIRECT); try done; [unfold room; lia|by apply Hempty]|].
    intros r s1 (a1 & H1 & ->%(Hsame NDIRECT) & ->); [|done].
    replace (Z.to_nat (4 * (bn - NDIRECT))) with (ind_off (bn + 1)) by (unfold ind_off; f_equal; lia).
    eapply wp_mono; [apply (indirect_wp fuel d0 dev st ds p pid spurious ws ip Hds s1 a (bn + 1)); try done; [lia|by rewrite Hh|by apply Hempty]|].
    intros r s' (a' & H' & ->%(Hsame (bn + 1)) & ->); done.
Qed.

(** Blocks of the file are not held and can be read. *)
Lemma slot_home a k : alloc_ok a -> file_ok a -> 0 <= k < NSLOT -> vslot a ip k <> 0 -> home st (vslot a ip k).
Proof. intros Ha Hf Hk Hn. destruct (fo_slot _ _ _ _ Hf k Hk Hn). by apply (layout_data _ ds (v_sb a)); [apply Ha|]. Qed.

(** No block of the first [size] bytes is missing. *)
Definition no_holes (a : view_) : Prop := forall bn, 0 <= bn -> bn * BSIZE < i_size (inode_at a ip) -> vslot a ip (idx bn) <> 0.

Lemma readi_loop_wp k : forall s a off tot n acc,
  txn s a -> alloc_ok a -> file_ok a -> v_held a = ∅ -> room 4 a -> no_holes a -> i_size (inode_at a ip) <= MAXFILE * BSIZE ->
  0 <= off -> 0 <= tot <= n -> off + (n - tot) <= i_size (inode_at a ip) -> (tot < n -> off mod BSIZE + (n - tot) <= Z.of_nat k * BSIZE) ->
  twp (fun r s' => txn s' a /\ r = (i32 n, acc ++ bytes_at (vbyte a ip) off (n - tot))) (readi_loop (S fuel) k ip Dkernel off tot n acc s).
Proof.
  induction k as [|k IH]; intros s a off tot n acc Hs Ha Hf Hh Hr Hnh Hsz Ho Ht Hn Hk; destruct (block_split off Ho) as (Eo & Hm & Hq).
  { cbn [readi_loop]. rewrite (proj2 (Z.ltb_ge _ _)) by lia. cbn. split; [done|]. replace n with tot by lia. by rewrite Z.sub_diag, app_nil_r. }
  cbn [readi_loop]. destruct (Z.ltb_spec tot n) as [Hlt|Hge]; cbn [negb].
  2:{ cbn. split; [done|]. replace n with tot by lia. by rewrite Z.sub_diag, app_nil_r. }
  unfold inode_get. mgo. rewrite (inode_at_get d0 dev st p pid ws ip s a Hs), (fo_dev _ _ _ _ Hf). set (bn := off / BSIZE) in *.
  assert (HB : 0 < BSIZE) by done. assert (Hbn : 0 <= bn < MAXFILE) by nia. assert (Hnz : vslot a ip (idx bn) <> 0) by (apply Hnh; nia).
  eapply wp_call; [by apply bmap_hit|]. intros r s1 [H1 ->]. destruct (idx_range bn Hbn) as [Hi _].
  unfold room in Hr. eapply (t_bread fuel); [exact H1|by rewrite Hh|by apply slot_home|lia|]. intros bp s2 H2.
  eapply wp_bind_ok; [apply (t_bdata fuel d0 dev st p pid spurious ws s2 _ (vslot a ip (idx bn)) bp H2), lookup_insert_eq|]. cbn [taking v_disk].
  set (m := Z.min (n - tot) (BSIZE - off mod BSIZE)). assert (Hmr : 0 < m /\ m <= n - tot /\ m <= BSIZE - off mod BSIZE) by lia.
  destruct (t_copyout s2 _ (take (Z.to_nat m) (drop (Z.to_nat (off mod BSIZE)) (v_disk a (vslot a ip (idx bn))))) H2) as (s3 & E3 & H3).
  eapply wp_bind_ok; [exact E3|]. cbn [fst snd]. change (0 =? -1) with false. cbn iota.
  destruct (t_release d0 dev st p pid ws s1 a s3 (vslot a ip (idx bn)) bp H1) as (s4 & E4 & H4); [by rewrite Hh|done|]. eapply wp_bind_ok; [exact E4|].
  assert (Hpiece : take (Z.to_nat m) (drop (Z.to_nat (off mod BSIZE)) (v_disk a (vslot a ip (idx bn)))) = bytes_at (vbyte a ip) off m).
  { apply piece_bytes; [lia|lia|rewrite (t_len d0 dev st p pid ws s a); [lia|done]|]. intros i Hi'. unfold fbyte, fblock.
    destruct (same_chunk off i Ho ltac:(lia)) as [-> ->]. fold bn. by rewrite (proj2 (Z.eqb_neq _ _)). }
  assert (Hmax : MAXFILE * BSIZE = 274432) by done. assert (Hu : u32 (off + m) = off + m) by (unfold u32; rewrite Z.mod_small; lia).
  rewrite Hpiece, Hu. eapply wp_mono; [apply (IH s4 a); try done; try lia|].
  - intros Hlt'. rewrite Z.sub_add_distr. apply next_chunk; lia.
  - intros r s' [H' ->]. split; [done|]. rewrite <- app_assoc. f_equal. f_equal.
    replace (n - tot) with (m + (n - (tot + m))) at 1 by lia. symmetry. apply bytes_at_app; lia.
Qed.

Lemma readi_wp s a off n :
  txn s a -> alloc_ok a -> file_ok a -> v_held a = ∅ -> room 4 a -> no_holes a -> 0 <= i_size (inode_at a ip) <= MAXFILE * BSIZE ->
  0 <= off < 2 ^ 32 -> 0 <= n < 2 ^ 32 ->
  twp (fun r s' => txn s' a /\
         let m := if (off >? i_size (inode_at a ip)) || (2 ^ 32 <=? off + n) then 0 else Z.min n (i_size (inode_at a ip) - off) in
         r = (m, bytes_at (vbyte a ip) off m))
    (readi (S fuel) ip Dkernel off n s).
Proof.
  intros Hs Ha Hf Hh Hr Hnh Hsz Ho Hn. unfold readi, inode_get. mgo. rewrite (inode_at_get d0 dev st p pid ws ip s a Hs). cbn zeta.
  assert (Hmax : MAXFILE * BSIZE = 274432) by done. set (size := i_size (inode_at a ip)) in *.
  assert (Ew : (u32 (off + n) <? off) = (2 ^ 32 <=? off + n)).
  { unfold u32. destruct (Z.leb_spec (2 ^ 32) (off + n)); [apply Z.ltb_lt|apply Z.ltb_ge]; dlia. }
  rewrite Ew. destruct ((off >? size) || (2 ^ 32 <=? off + n)) eqn:Eg; [by cbn|]. apply orb_false_iff in Eg as [E1 E2].
  rewrite Z.gtb_ltb in E1. apply Z.ltb_ge in E1. apply Z.leb_gt in E2. assert (Hu : u32 (off + n) = off + n) by (unfold u32; apply Z.mod_small; lia).
  set (n' := if u32 (off + n) >? size then u32 (size - off) else n). assert (En : n' = Z.min n (size - off)).
  { unfold n'. rewrite Hu, Z.gtb_ltb. unfold u32. rewrite Z.mod_small by lia. destruct (Z.ltb_spec size (off + n)); lia. }
  rewrite En. clear n' En. set (m := Z.min n (size - off)). eapply wp_mono; [apply (readi_loop_wp _ s a off 0 m []); try done; try lia|].
  - intros Hm. rewrite Z2Nat.id by (apply Z.add_nonneg_nonneg; [apply Z.div_pos; [lia|done]|lia]). change BSIZE with 1024. dlia.
  - intros r s' [H' ->]. split; [done|]. rewrite i32_small, Z.sub_0_r; [done|]. lia.
Qed.

(** ** writei *)

(** The block [bn] of the file becomes [v]. *)
Definition stored (bn : Z) (v : list Z) (a : view_) : view_ := let b := vslot a ip (idx bn) in listed b (put b v a).

Lemma stored_slot bn v a k : alloc_ok a -> file_ok a -> 0 <= bn < MAXFILE -> vslot a ip (idx bn) <> 0 -> vslot (stored bn v a) ip k = vslot a ip k.
Proof.
  intros Ha Hf Hbn Hn. destruct (idx_range bn Hbn) as [Hi Hne]. apply slot_ext; [done|]. intros Hnz. cbn. unfold set_block.
  rewrite (proj2 (Z.eqb_neq _ _)); [done|]. intros E. apply Hne. symmetry. by apply (fo_inj _ _ _ _ Hf).
Qed.

Lemma stored_used bn v a d : alloc_ok a -> file_ok a -> 0 <= bn < MAXFILE -> vslot a ip (idx bn) <> 0 -> 0 <= d < sb_size (v_sb a) ->
  used (v_disk (stored bn v a)) (v_sb a) d = used (v_disk a) (v_sb a) d.
Proof.
  intros Ha Hf Hbn Hn Hd. destruct (idx_range bn Hbn) as [Hi _]. destruct (fo_slot _ _ _ _ Hf _ Hi Hn) as [Hr _].
  destruct (layout_map _ _ _ d (ao_layout _ _ _ Ha) Hd) as (_ & _ & Hlt). unfold used. cbn. unfold set_block. by rewrite (proj2 (Z.eqb_neq _ _)) by lia.
Qed.

(** A change that keeps the slots and the free map. *)
Lemma same_shape a a' :
  alloc_ok a -> file_ok a -> v_sb a' = v_sb a -> v_held a' = v_held a -> length (v_inodes a') = length (v_inodes a) ->
  i_dev (inode_at a' ip) = i_dev (inode_at a ip) -> length (i_addrs (inode_at a' ip)) = length (i_addrs (inode_at a ip)) ->
  (forall k, vslot a' ip k = vslot a ip k) ->
  (forall d, 0 <= d < sb_size (v_sb a) -> used (v_disk a') (v_sb a) d = used (v_disk a) (v_sb a) d) -> alloc_ok a' /\ file_ok a'.
Proof.
  intros [A1 A2 A3] [F1 F2 F3 F4 F5] Esb Eh El Ed Ea Hs Hu. pose proof (ly_size _ _ _ A1). split; split; rewrite ?Esb, ?Eh, ?El, ?Ed, ?Ea; try done.
  - intros b Hb. rewrite Hu by lia. by apply A2.
  - intros b x E. destruct (A3 b x E) as [Hr Hus]. split; [done|]. by rewrite Hu by lia.
  - intros k Hk. rewrite Hs. intros Hnz. destruct (F4 k Hk Hnz) as [Hr Hus]. split; [done|]. by rewrite Hu by lia.
  - intros i k Hi Hk. rewrite !Hs. by apply F5.
Qed.

Lemma stored_ok bn v a : alloc_ok a -> file_ok a -> 0 <= bn < MAXFILE -> vslot a ip (idx bn) <> 0 -> alloc_ok (stored bn v a) /\ file_ok (stored bn v a).
Proof. intros Ha Hf Hbn Hn. apply (same_shape a); try done; [intros k; by apply stored_slot|intros d; by apply stored_used]. Qed.

Lemma stored_ext bn v a : alloc_ok a -> file_ok a -> 0 <= bn < MAXFILE -> vslot a ip (idx bn) <> 0 ->
  ext ds ip [idx bn] (fun i => if i / BSIZE =? bn then zget v (i mod BSIZE) else vbyte a ip i) a (stored bn v a).
Proof.
  intros Ha Hf Hbn Hn. pose proof (fun k => stored_slot bn v a k Ha Hf Hbn Hn) as Hs. destruct (idx_range bn Hbn) as [Hi _]. split; try done.
  - exists (i_addrs (inode_at a ip)). change (v_inodes (stored bn v a)) with (v_inodes a). by apply (same_inodes dev ds).
  - intros b Hb Hu. by rewrite stored_used.
  - intros k _ Hz. by rewrite Hs.
  - intros b _ Ho _. cbn. unfold set_block. rewrite (proj2 (Z.eqb_neq _ _)); [done|]. intros ->. apply Ho. split; [done|]. by exists (idx bn).
  - intros i Hir. unfold fbyte, fblock. rewrite Hs. destruct (block_split i ltac:(lia)) as (Ei & Hm & Hq).
    assert (HB : 0 < BSIZE) by done. assert (Hib : 0 <= i / BSIZE < MAXFILE) by nia. destruct (idx_range _ Hib) as [Hi' _].
    destruct (Z.eqb_spec (i / BSIZE) bn) as [->|Hne].
    + rewrite (proj2 (Z.eqb_neq _ 0)) by done. cbn. unfold set_block. by rewrite Z.eqb_refl.
    + destruct (Z.eqb_spec (vslot a ip (idx (i / BSIZE))) 0) as [|Hnz]; [done|]. cbn. unfold set_block. rewrite (proj2 (Z.eqb_neq _ _)); [done|].
      intros E. apply Hne. pose proof (fo_inj _ _ _ _ Hf _ _ Hi' Hi Hnz E) as Ex. clear - Ex. unfold idx in Ex.
      destruct (Z.ltb_spec (i / BSIZE) NDIRECT), (Z.ltb_spec bn NDIRECT); lia.
  - intros b Hb. unfold stored in Hb. apply elem_listed in Hb as [Hb|Hb]; [by left|]. right. right. exists (idx bn). split; [left|].
    rewrite Hs. subst b. done.
  - intros b Hb. apply elem_listed. by left.
Qed.

Lemma stored_spare bn v a n : alloc_ok a -> file_ok a -> 0 <= bn < MAXFILE -> vslot a ip (idx bn) <> 0 -> spare n a -> spare n (stored bn v a).
Proof.
  intros Ha Hf Hbn Hn (l & Hnd & Hl & H). exists l. split; [done|]. split; [done|]. eapply Forall_impl; [exact H|]. intros c [H1 H2].
  split; [done|]. change (v_sb (stored bn v a)) with (v_sb a). by rewrite stored_used.
Qed.

(** [bmap] with a count of the free blocks that are left for the rest of the write. *)
Lemma bmap_grow s a bn n :
  txn s a -> alloc_ok a -> file_ok a -> sb_size (v_sb a) <= BPB -> v_held a = ∅ -> 0 <= bn < MAXFILE -> room 7 a ->
  spare (S n + empty ip NDIRECT a) a ->
  twp (fun r s' => exists a', txn s' a' /\ alloc_ok a' /\ file_ok a' /\ ext ds ip [idx bn; NDIRECT] (vbyte a ip) a a' /\
         r = vslot a' ip (idx bn) /\ r <> 0 /\ spare (n + empty ip NDIRECT a') a')
    (bmap (S fuel) ip bn s).
Proof.
  intros Hs Ha Hf Hone Hh Hbn Hr Hsp. assert (H1 : (empty ip (idx bn) a <= 1)%nat) by (unfold empty; case_match; lia).
  destruct (Z.lt_ge_cases bn NDIRECT) as [Hlt|Hge].
  - eapply wp_mono; [apply (bmap_wp fuel d0 dev st ds p pid spurious ws ip Hds s a bn (n + empty ip NDIRECT a)); try done|].
    { eapply spare_le; [|exact Hsp]. unfold needs. rewrite (proj2 (Z.ltb_lt _ _)) by done. lia. }
    intros r s' (a' & T1 & T2 & T3 & T4 & T5 & T6 & T7 & T8). exists a'. repeat (split; [done|]). destruct (idx_range bn Hbn) as [_ Hne].
    unfold empty at 1. rewrite T8; [done|done|congruence|by right].
  - eapply wp_mono; [apply (bmap_wp fuel d0 dev st ds p pid spurious ws ip Hds s a bn n); try done|].
    { eapply spare_le; [|exact Hsp]. unfold needs. rewrite (proj2 (Z.ltb_ge _ _)) by done. lia. }
    intros r s' (a' & T1 & T2 & T3 & T4 & T5 & T6 & T7 & T8). exists a'. repeat (split; [done|]).
    assert (Hnz : vslot a' ip NDIRECT <> 0).
    { intros E. apply T6. rewrite T5, slot_indirect, E; [done|]. unfold idx. rewrite (proj2 (Z.ltb_ge _ _)) by done. lia. }
    unfold empty. rewrite (proj2 (Z.eqb_neq _ _)), Nat.add_0_r by done. done.
Qed.

(** One round: the block [bn] gets [bytes] at [o]. *)
Lemma write_block s a bn n o bytes :
  txn s a -> alloc_ok a -> file_ok a -> sb_size (v_sb a) <= BPB -> v_held a = ∅ -> 0 <= bn < MAXFILE -> room 7 a ->
  spare (S n + empty ip NDIRECT a) a -> (o + length bytes <= Z.to_nat BSIZE)%nat ->
  forall (f e : M fss (Z * Z)) (Q : (Z * Z) -> fss -> Prop),
  (forall s' a' l, txn s' a' -> alloc_ok a' -> file_ok a' -> vslot a' ip (idx bn) <> 0 -> spare (n + empty ip NDIRECT a') a' -> Z.of_nat (length l) = BSIZE ->
     (forall i, 0 <= i < MAXFILE * BSIZE -> i / BSIZE = bn -> vbyte a ip i = zget l (i mod BSIZE)) ->
     ext ds ip [idx bn; NDIRECT] (fun i => if i / BSIZE =? bn then zget (splice l o bytes) (i mod BSIZE) else vbyte a ip i) a a' -> twp Q (f s')) ->
  forall sr tot m, (forall s a, txn s a -> exists s', lift (either_copyin sr tot m) s = Ok (0, bytes) s' /\ txn s' a) ->
  twp Q ((addr <- bmap (S fuel) ip bn ;;
    bp <- fs_bread (S fuel) dev addr ;;
    r <- lift (either_copyin sr tot m) ;;
    lift (buf_set bp (fun b => set_buf_data (splice (buf_data b) o r.2) b)) ;;;
    if r.1 =? -1 then fs_brelse bp ;;; e else
    fs_log_write bp ;;;
    fs_brelse bp ;;;
    f) s).
Proof.
  intros Hs Ha Hf Hone Hh Hbn Hr Hsp Hlen f e Q HQ sr tot m Hin. eapply wp_call; [by apply bmap_grow|].
  intros r s1 (a1 & H1 & Ha1 & Hf1 & He1 & -> & Hnz & Hsp1). destruct (idx_range bn Hbn) as [Hi _].
  pose proof (ext_log_length _ _ _ _ _ _ _ Ha Hone He1 (t_nodup _ _ _ _ _ _ _ _ H1)) as HL. pose proof (x_held _ _ _ _ _ _ He1) as Hh1.
  rewrite Hh in Hh1. unfold room in Hr. rewrite Hh, map_size_empty in Hr. cbn [length] in HL. set (b := vslot a1 ip (idx bn)) in *.
  eapply (t_bread fuel); [exact H1|by rewrite Hh1|by apply slot_home|rewrite Hh1, map_size_empty; lia|]. intros bp s2 H2.
  destruct (Hin s2 _ H2) as (s3 & E3 & H3). eapply wp_bind_ok; [exact E3|]. cbn [fst snd]. change (0 =? -1) with false. cbn iota.
  set (l := v_disk a1 b). assert (Hl : Z.of_nat (length l) = BSIZE) by (eapply t_len; exact H1).
  destruct (t_update fuel d0 dev st p pid spurious ws s3 a1 b bp (fun x => set_buf_data (splice (buf_data x) o bytes) x) (splice l o bytes) H3)
    as (s4 & s5 & s6 & E4 & E5 & E6 & H6).
  { by rewrite Hh1. } { by apply slot_home. } { unfold room. rewrite Hh1, map_size_empty. lia. } { by intros x ->. }
  { rewrite length_splice; [done|]. lia. }
  eapply wp_bind_ok; [exact E4|]. eapply wp_bind_ok; [exact E5|]. eapply wp_bind_ok; [exact E6|].
  change (listed b (put b _ a1)) with (stored bn (splice l o bytes) a1) in H6. destruct (stored_ok bn (splice l o bytes) a1) as [Ha2 Hf2]; try done.
  apply (HQ s6 (stored bn (splice l o bytes) a1) l); try done.
  - by rewrite stored_slot.
  - unfold empty. rewrite stored_slot by done. by apply stored_spare.
  - intros i Hir Ei. rewrite <- (x_byte _ _ _ _ _ _ He1) by done. unfold fbyte, fblock. rewrite Ei. by rewrite (proj2 (Z.eqb_neq _ _)).
  - apply (ext_mono ds ip ([idx bn; NDIRECT] ++ [idx bn])); [set_solver|]. eapply (ext_trans dev ds ip Hds _ _ _ _ a a1); try done.
    eapply ext_fun; [|by apply stored_ext]. intros i Hir. cbn. case_match; [done|]. symmetry. by apply (x_byte _ _ _ _ _ _ He1).
Qed.

(** The slots that a write of [nb] blocks may fill. *)
Definition touched (off : Z) (nb : nat) : list Z := NDIRECT :: map idx (seqZ (off / BSIZE) (Z.of_nat nb)).

Lemma touched_next off m nb j : 0 <= off -> 0 <= m <= BSIZE - off mod BSIZE ->
  j ∈ [idx (off / BSIZE); NDIRECT] ++ touched (off + m) nb -> j ∈ touched off (S nb).
Proof.
  intros Ho Hm. assert (Hq : off / BSIZE <= (off + m) / BSIZE <= off / BSIZE + 1) by (revert Hm; change BSIZE with 1024; intros; dlia).
  unfold touched. rewrite !elem_of_app, !elem_of_cons, elem_of_nil, !list_elem_of_fmap.
  assert (Hhere : off / BSIZE ∈ seqZ (off / BSIZE) (Z.of_nat (S nb))) by (apply elem_of_seqZ; lia).
  intros [[->|[->|[]]]|[->|(x & -> & Hx)]]; [right; by exists (off / BSIZE)|by left|by left|].
  right. exists x. split; [done|]. apply elem_of_seqZ in Hx. apply elem_of_seqZ. lia.
Qed.

Lemma write_nothing a off nb bytes tot : file_ok a -> Z.of_nat (length bytes) <= tot ->
  ext ds ip (touched off nb) (over (vbyte a ip) off (drop (Z.to_nat tot) bytes)) a a.
Proof.
  intros Hf Ht. apply (ext_mono ds ip []); [by intros ? ?%elem_of_nil|]. apply (ext_refl dev); [|done]. intros i _. unfold over.
  rewrite drop_ge by lia. cbn [length]. rewrite Z.add_0_r. destruct (Z.leb_spec off i), (Z.ltb_spec i off); cbn; lia || done.
Qed.

(** The blocks of the file that [n] bytes at [off] lie in are there. *)
Definition filled (off n : Z) (a : view_) : Prop := forall bn, off / BSIZE <= bn -> bn * BSIZE < off + n -> vslot a ip (idx bn) <> 0.

Lemma filled_next off m n nb f a a' :
  0 <= off -> m = Z.min n (BSIZE - off mod BSIZE) -> off + n <= MAXFILE * BSIZE -> 0 < n -> vslot a ip (idx (off / BSIZE)) <> 0 ->
  ext ds ip (touched (off + m) nb) f a a' -> (m < n -> filled (off + m) (n - m) a') -> filled off n a'.
Proof.
  intros Ho Hm Hmax Hn Hz He Hf bn H1 H2. assert (HB : 0 < BSIZE) by done. destruct (block_split off Ho) as (Eo & Hom & Hq).
  destruct (Z.eq_dec bn (off / BSIZE)) as [->|Hne].
  - destruct (idx_range (off / BSIZE) ltac:(nia)) as [Hi _]. by rewrite (x_slot _ _ _ _ _ _ He).
  - assert (m < n) by nia. apply Hf; [done| |lia]. assert (off + m = BSIZE * (off / BSIZE + 1)) as -> by lia. rewrite Z.mul_comm, Z.div_mul; lia.
Qed.

Lemma writei_loop_wp k : forall s a bytes off tot nb,
  txn s a -> alloc_ok a -> file_ok a -> sb_size (v_sb a) <= BPB -> v_held a = ∅ -> (nb <= k)%nat -> room (7 + 3 * nb) a -> spare (nb + empty ip NDIRECT a) a ->
  0 <= off -> 0 <= tot <= Z.of_nat (length bytes) -> let n := Z.of_nat (length bytes) in off + (n - tot) <= MAXFILE * BSIZE ->
  (tot < n -> off mod BSIZE + (n - tot) <= Z.of_nat nb * BSIZE) ->
  twp (fun r s' => r = (n, off + (n - tot)) /\ exists a', txn s' a' /\ alloc_ok a' /\ file_ok a' /\ (tot < n -> filled off (n - tot) a') /\
         ext ds ip (touched off nb) (over (vbyte a ip) off (drop (Z.to_nat tot) bytes)) a a')
    (writei_loop (S fuel) k ip (Skernel bytes) off tot n s).
Proof.
  induction k as [|k IH]; intros s a bytes off tot nb Hs Ha Hf Hone Hh Hnb Hr Hsp Ho Ht n Hn Hk.
  all: assert (Hdone : n <= tot -> twp (fun r s' => r = (n, off + (n - tot)) /\ exists a', txn s' a' /\ alloc_ok a' /\ file_ok a' /\ (tot < n -> filled off (n - tot) a') /\
         ext ds ip (touched off nb) (over (vbyte a ip) off (drop (Z.to_nat tot) bytes)) a a') (ret (tot, off) s)) by
    (intros Hge; split; [f_equal; lia|]; exists a; do 3 (split; [done|]); split; [lia|by apply write_nothing; [|lia]]).
  { assert (n <= tot) by (destruct (block_split off Ho) as (_ & ? & _); destruct nb; lia). cbn [writei_loop]. rewrite (proj2 (Z.ltb_ge _ _)) by done. by apply Hdone. }
  cbn [writei_loop]. destruct (Z.ltb_spec tot n) as [Hlt|Hge]; cbn [negb].
  2:{ by apply Hdone. }
  unfold inode_get. mgo. rewrite (inode_at_get d0 dev st p pid ws ip s a Hs), (fo_dev _ _ _ _ Hf).
  destruct (block_split off Ho) as (Eo & Hom & Hq). assert (HB : 0 < BSIZE) by done. destruct nb as [|nb]; [lia|].
  set (m := Z.min (n - tot) (BSIZE - off mod BSIZE)). assert (Hm : 0 < m /\ m <= n - tot /\ m <= BSIZE - off mod BSIZE) by lia.
  assert (Hmax : MAXFILE * BSIZE = 274432) by done. assert (Hu : u32 (off + m) = off + m) by (unfold u32; rewrite Z.mod_small; lia).
  assert (Hbn : 0 <= off / BSIZE < MAXFILE) by nia.
  apply (write_block s a (off / BSIZE) nb (Z.to_nat (off mod BSIZE)) (take (Z.to_nat m) (drop (Z.to_nat tot) bytes))); try done.
  - unfold room in *. lia.
  - rewrite length_take, length_drop. lia.
  - intros s' a' l H' Ha' Hf' Hnz Hsp' Hl Hfl He. rewrite Hu. assert (Hr' : room (7 + 3 * nb) a').
    { pose proof (ext_log_length _ _ _ _ _ _ _ Ha Hone He (t_nodup _ _ _ _ _ _ _ _ H')). unfold room in *. rewrite (x_held _ _ _ _ _ _ He). cbn [length] in *. lia. }
    eapply wp_mono; [apply (IH s' a' bytes (off + m) (tot + m) nb); try done; try lia|].
    + by rewrite (x_sb _ _ _ _ _ _ He).
    + by rewrite (x_held _ _ _ _ _ _ He).
    + intros Hlt'. rewrite Z.sub_add_distr. apply next_chunk; lia.
    + intros r s2 [-> (a2 & H2 & Ha2 & Hf2 & Hfi & He2)]. split; [f_equal; lia|]. exists a2. do 3 (split; [done|]). split.
      { intros _. apply (filled_next off m (n - tot) nb _ a' a2 Ho eq_refl Hn ltac:(lia) Hnz He2). rewrite <- Z.sub_add_distr. intros. apply Hfi. lia. }
      eapply ext_mono; [intros j; by apply (touched_next off m nb j); [|lia]|]. eapply (ext_trans dev ds ip Hds _ _ _ _ a a'); try done.
      eapply ext_fun; [|exact He2]. intros i Hi. rewrite Z2Nat.inj_add, <- drop_drop by lia. unfold over at 2.
      rewrite (x_byte _ _ _ _ _ _ He) by done.
      symmetry. apply over_round; [lia|lia|rewrite length_drop; lia|lia|done|by apply Hfl].
  - intros s' a' H'. by apply t_copyin.
Qed.

(** ** The inode on the disk *)

(** The block of the inode is neither in the log nor in the map nor a data block. *)
Record iblock_ok (a : view_) : Prop := {
  ib_home : home st (IBLOCK (i_inum (inode_at a ip)) (v_sb a));
  ib_meta : IBLOCK (i_inum (inode_at a ip)) (v_sb a) < ds;
  ib_map : ~ map_block (v_sb a) (IBLOCK (i_inum (inode_at a ip)) (v_sb a))
}.

(** The view after [ip->size = size] and [iupdate(ip)]. *)
Definition sized (size : Z) (a : view_) : view_ := with_inodes (<[ip := set_i_size size (inode_at a ip)]> (v_inodes a)) a.
Definition updated (a : view_) : view_ :=
  let x := inode_at a ip in
  let ib := IBLOCK (i_inum x) (v_sb a) in
  listed ib (put ib (splice (v_disk a ib) (dinode_off (i_inum x)) (encode_dinode (inode_dinode x))) a).

Lemma iupdate_wp s a :
  txn s a -> file_ok a -> iblock_ok a -> v_held a = ∅ -> room 1 a -> 0 <= i_inum (inode_at a ip) ->
  twp (fun _ s' => txn s' (updated a)) (iupdate (S fuel) ip s).
Proof.
  intros Hs Hf [I1 I2 I3] Hh Hr Hi. unfold iupdate, inode_get, sb_get. mgo. rewrite (inode_at_get d0 dev st p pid ws ip s a Hs), (fo_dev _ _ _ _ Hf), (t_sb _ _ _ _ _ _ _ _ Hs).
  set (x := inode_at a ip) in *. set (ib := IBLOCK (i_inum x) (v_sb a)) in *. unfold room in Hr.
  eapply (t_bread fuel); [exact Hs|by rewrite Hh|apply I1|lia|]. intros bp s1 H1.
  eapply wp_bind_ok; [apply (t_bdata fuel d0 dev st p pid spurious ws s1 _ ib bp H1), lookup_insert_eq|]. cbn [taking v_disk].
  set (v := splice _ _ _). destruct (t_update fuel d0 dev st p pid spurious ws s1 a ib bp (set_buf_data v) v H1) as (s2 & s3 & s4 & E2 & E3 & E4 & H4); try done.
  { by rewrite Hh. }
  { unfold v. pose proof (t_len d0 dev st p pid ws s a ib Hs) as Hl. rewrite length_splice; [done|]. pose proof (dinode_off_fits _ Hi).
    rewrite length_encode by apply Hf. lia. }
  eapply wp_bind_ok; [exact E2|]. eapply wp_bind_ok; [exact E3|]. by eapply wp_ok; [exact E4|].
Qed.

Lemma t_sized s a size : txn s a -> txn (upd_inode ip (set_i_size size) s) (sized size a).
Proof.
  intros Hs. pose proof (inode_at_get d0 dev st p pid ws ip s a Hs) as Ex. destruct Hs as [H1 H2 H3 H4 H5 H6 H7]. split; try done. cbn. by rewrite Ex, H6.
Qed.

Lemma sized_inode size a : file_ok a -> inode_at (sized size a) ip = set_i_size size (inode_at a ip).
Proof. intros Hf. unfold inode_at at 1, sized. cbn. by rewrite list_lookup_insert_eq by apply Hf. Qed.

Lemma sized_ok size a : alloc_ok a -> file_ok a -> alloc_ok (sized size a) /\ file_ok (sized size a).
Proof.
  intros Ha Hf. pose proof (sized_inode size a Hf) as E. apply (same_shape a); try done; [cbn; by rewrite length_insert|by rewrite E|by rewrite E|].
  intros k. rewrite E. by apply slot_ext.
Qed.

(** What [iupdate] changes of the view. *)
Lemma updated_disk a b : v_disk (updated a) b = if b =? IBLOCK (i_inum (inode_at a ip)) (v_sb a)
  then splice (v_disk a b) (dinode_off (i_inum (inode_at a ip))) (encode_dinode (inode_dinode (inode_at a ip))) else v_disk a b.
Proof. cbn. unfold set_block. by destruct (Z.eqb_spec b (IBLOCK (i_inum (inode_at a ip)) (v_sb a))) as [->|]. Qed.

Lemma updated_slot a k : file_ok a -> iblock_ok a -> vslot (updated a) ip k = vslot a ip k.
Proof.
  intros Hf Hi. apply slot_ext; [done|]. intros Hn. rewrite updated_disk. destruct (fo_slot _ _ _ _ Hf NDIRECT ltac:(done) Hn).
  pose proof (ib_meta _ Hi). by rewrite (proj2 (Z.eqb_neq _ _)) by lia.
Qed.

Lemma updated_used a d : iblock_ok a -> 0 <= d < sb_size (v_sb a) -> used (v_disk (updated a)) (v_sb a) d = used (v_disk a) (v_sb a) d.
Proof.
  intros Hi Hd. unfold used. rewrite updated_disk, (proj2 (Z.eqb_neq _ _)); [done|]. intros E. apply (ib_map _ Hi). rewrite <- E. by exists d.
Qed.

Lemma updated_byte a i : file_ok a -> iblock_ok a -> 0 <= i < MAXFILE * BSIZE -> vbyte (updated a) ip i = vbyte a ip i.
Proof.
  intros Hf Hi Hir. destruct (block_split i ltac:(lia)) as (Ei & Hm & Hq). assert (HB : 0 < BSIZE) by done.
  destruct (idx_range (i / BSIZE) ltac:(nia)) as [Hx _]. unfold fbyte, fblock. rewrite updated_slot by done.
  destruct (Z.eqb_spec (vslot a ip (idx (i / BSIZE))) 0) as [|Hnz]; [done|]. destruct (fo_slot _ _ _ _ Hf _ Hx Hnz). pose proof (ib_meta _ Hi).
  by rewrite updated_disk, (proj2 (Z.eqb_neq _ _)) by lia.
Qed.

Lemma updated_ok a : alloc_ok a -> file_ok a -> iblock_ok a -> alloc_ok (updated a) /\ file_ok (updated a).
Proof. intros Ha Hf Hi. apply (same_shape a); try done; [intros k; by apply updated_slot|intros d; by apply updated_used]. Qed.
End Rw.
