(* ===== verification/FsWrite.v ===== *)
(** * A write to a file as one transaction

    [writei] replaces the bytes of a file and brings its inode on the disk up to date;
    between [begin_op] and [end_op] this happens on the disk as a whole or not at all. *)
From stdpp Require Import gmap list strings.
From S2P Require Import Prelude Kstring Abi Machine Spinlock Kalloc Vm Proc Sched Sleeplock UserMem Virtio Bio Log Fs Wp BioList BlockEnv VirtioSpec BioSpec LogSpec LogCrash LogWrite FsTx FsBitmap FsAlloc FsFile FsRw.

(** The blocks of the file that [n] bytes at [off] lie in. *)
Definition nblocks (off n : Z) : nat := Z.to_nat ((off mod BSIZE + n + BSIZE - 1) / BSIZE).

Lemma nblocks_enough off n : 0 <= off -> 0 <= n -> off mod BSIZE + n <= Z.of_nat (nblocks off n) * BSIZE.
Proof. intros Ho Hn. unfold nblocks. change BSIZE with 1024. dlia. Qed.

Lemma nblocks_fuel off n : 0 <= off -> 0 <= n -> (nblocks off n <= Z.to_nat (n / BSIZE + 2))%nat.
Proof. intros Ho Hn. unfold nblocks. change BSIZE with 1024. dlia. Qed.

(** From [a] to [a'], [bytes] were written at [off] of the file. *)
Record written (ds : Z) (ip : nat) (off : Z) (bytes : list Z) (a a' : view_) : Prop := {
  w_sb : v_sb a' = v_sb a;
  w_held : v_held a' = v_held a;
  w_inode : exists l, inode_at a' ip = set_i_size (Z.max (i_size (inode_at a ip)) (off + Z.of_nat (length bytes))) (set_i_addrs l (inode_at a ip));
  w_others : forall j, j <> ip -> v_inodes a' !! j = v_inodes a !! j;
  w_bytes : forall i, 0 <= i < MAXFILE * BSIZE -> vbyte a' ip i = over (vbyte a ip) off bytes i;
  w_dinode : decode_dinode (v_disk a' (IBLOCK (i_inum (inode_at a ip)) (v_sb a))) (dinode_off (i_inum (inode_at a ip))) = inode_dinode (inode_at a' ip);
  w_used : forall b, 0 <= b < sb_size (v_sb a) -> used (v_disk a) (v_sb a) b = true -> used (v_disk a') (v_sb a) b = true;
  w_frame : forall b, ~ map_block (v_sb a) b -> ~ owned ip a b -> ~ (ds <= b < sb_size (v_sb a) /\ used (v_disk a) (v_sb a) b = false) ->
    b <> IBLOCK (i_inum (inode_at a ip)) (v_sb a) -> v_disk a' b = v_disk a b;
  w_dinodes : i_inum (inode_at a ip) < 2 ^ 32 -> forall inum, 0 <= inum < 2 ^ 32 -> inum <> i_inum (inode_at a ip) ->
    IBLOCK inum (v_sb a) < ds -> ~ map_block (v_sb a) (IBLOCK inum (v_sb a)) ->
    decode_dinode (v_disk a' (IBLOCK inum (v_sb a))) (dinode_off inum) = decode_dinode (v_disk a (IBLOCK inum (v_sb a))) (dinode_off inum);
  w_no_holes : off <= i_size (inode_at a ip) -> no_holes ip a -> no_holes ip a';
  w_log : (length (v_log a') <= length (v_log a) + 3 + nblocks off (Z.of_nat (length bytes)))%nat
}.

Section Write.
Variables (fuel : nat) (d0 : Z -> list Z) (dev st ds : Z) (p : nat) (pid : Z) (spurious : Prop) (ws : list (Z * list Z)) (ip : nat).
Notation txn := (txn d0 dev st p pid ws).
Notation twp := (wp spurious (sub_rel (env d0 dev p pid spurious)) (fun s : fss => b_writes (l_b (fs_l s)) = ws)).
Notation alloc_ok := (alloc_ok st ds).
Notation file_ok := (file_ok dev ds ip).
Hypothesis Hds : 0 < ds.

(** What [writei] relies on: the file system is in order, the inode fits its type, and
    there is room in the log, in the cache and on the disk. *)
Record write_ready (off n : Z) (a : view_) : Prop := {
  wr_alloc : alloc_ok a;
  wr_file : file_ok a;
  wr_iblock : iblock_ok st ds ip a;
  wr_dinode : dinode_ok (inode_dinode (inode_at a ip));
  wr_inum : 0 <= i_inum (inode_at a ip);
  wr_map : sb_size (v_sb a) <= BPB;
  wr_held : v_held a = ∅;
  wr_room : room (8 + 3 * nblocks off n) a;
  wr_spare : spare (S (nblocks off n)) a
}.

Lemma file_dinode_ok a : alloc_ok a -> file_ok a -> Forall (fun x => 0 <= x < 2 ^ 32) (i_addrs (inode_at a ip)).
Proof.
  intros Ha Hf. apply Forall_lookup. intros i x Hx. pose proof (lookup_lt_Some _ _ _ Hx) as Hl. rewrite (fo_addrs _ _ _ _ Hf) in Hl.
  assert (E : vslot a ip (Z.of_nat i) = x).
  { rewrite slot_direct by (change NDIRECT with 12; lia). unfold zget. by rewrite Nat2Z.id, Hx. }
  destruct (Z.eq_dec x 0) as [->|Hn]; [lia|]. destruct (fo_slot _ _ _ _ Hf (Z.of_nat i)) as [Hr _]; [change NSLOT with 269; lia|congruence|].
  pose proof (ly_size _ _ _ (ao_layout _ _ _ Ha)). lia.
Qed.

Lemma sized_same a : file_ok a -> sized ip (i_size (inode_at a ip)) a = a.
Proof.
  intros Hf. unfold sized, with_inodes. replace (set_i_size _ _) with (inode_at a ip) by (by destruct (inode_at a ip)). rewrite list_insert_id; [by destruct a|].
  unfold inode_at. by destruct (lookup_lt_is_Some_2 _ _ (fo_ip _ _ _ _ Hf)) as [x ->].
Qed.

(** The end of [writei]: the size and [iupdate]. *)
Lemma finish_written off bytes a a1 (size := Z.max (i_size (inode_at a ip)) (off + Z.of_nat (length bytes))) :
  write_ready off (Z.of_nat (length bytes)) a -> alloc_ok a1 -> file_ok a1 -> 0 <= size < 2 ^ 32 -> (forall b, Z.of_nat (length (v_disk a1 b)) = BSIZE) ->
  ext ds ip (touched off (nblocks off (Z.of_nat (length bytes)))) (over (vbyte a ip) off bytes) a a1 ->
  (0 < Z.of_nat (length bytes) -> filled ip off (Z.of_nat (length bytes)) a1) -> 0 <= off -> size <= MAXFILE * BSIZE ->
  NoDup (v_log a1) -> (alloc_ok (sized ip size a1) /\ file_ok (sized ip size a1) /\ iblock_ok st ds ip (sized ip size a1)) /\
    written ds ip off bytes a (updated ip (sized ip size a1)).
Proof.
  intros W Ha1 Hf1 Hsz Hlen He Hfi Hoff Hmax Hnd. destruct W as [W1 W2 W3 W4 W5 W6 W7 W8 W9].
  destruct (x_inode dev ds ip _ _ a a1 W2 He) as [l El]. pose proof (sized_inode dev ds ip size a1 Hf1) as Es. rewrite El in Es.
  destruct (sized_ok dev st ds ip Hds size a1 Ha1 Hf1) as [Ha2 Hf2]. pose proof (x_sb _ _ _ _ _ _ He) as Hsb. destruct W3 as [I1 I2 I3].
  assert (Hib : iblock_ok st ds ip (sized ip size a1)) by (split; rewrite Es; cbn; by rewrite Hsb).
  split; [done|]. set (a2 := sized ip size a1) in *. assert (Eib : IBLOCK (i_inum (inode_at a2 ip)) (v_sb a2) = IBLOCK (i_inum (inode_at a ip)) (v_sb a)) by (rewrite Es; cbn; by rewrite Hsb).
  change (inode_at (updated ip a2) ip) with (inode_at a2 ip). split; try (change (inode_at (updated ip a2) ip) with (inode_at a2 ip)).
  - by cbn.
  - by apply (x_held _ _ _ _ _ _ He).
  - exists l. by rewrite Es.
  - intros j Hj. cbn. rewrite list_lookup_insert_ne by done. destruct (x_inodes _ _ _ _ _ _ He) as [l' ->]. by rewrite list_lookup_insert_ne.
  - intros i Hi. rewrite (updated_byte dev st ds ip) by done. rewrite <- (x_byte _ _ _ _ _ _ He i Hi). unfold fbyte, fblock. rewrite Es, El.
    change (v_disk a2) with (v_disk a1). by rewrite (slot_ext (v_disk a1) (v_disk a1) (set_i_addrs l (inode_at a ip))).
  - rewrite updated_disk, Eib, Z.eqb_refl. rewrite Es at 1. cbn [i_inum set_i_size set_i_addrs]. apply decode_encode.
    + pose proof (file_dinode_ok a1 Ha1 Hf1) as Had. pose proof (fo_addrs _ _ _ _ Hf1) as Hl13. rewrite El in Had, Hl13. rewrite Es.
      destruct W4 as (D1 & D2 & D3 & D4 & D5 & D6 & D7). exact (conj D1 (conj D2 (conj D3 (conj D4 (conj Hsz (conj Hl13 Had)))))).
    + pose proof (dinode_off_fits _ W5). pose proof (Hlen (IBLOCK (i_inum (inode_at a ip)) (v_sb a))) as Hl. cbn. lia.
  - intros b Hb Hu. rewrite <- Hsb. rewrite (updated_used st ds ip a2) by (done || (cbn; rewrite Hsb; lia)).
    change (v_sb a2) with (v_sb a1). rewrite Hsb. by apply (x_used _ _ _ _ _ _ He).
  - intros b Hm Ho Hfr Hb. rewrite updated_disk, Eib, (proj2 (Z.eqb_neq _ _)) by done. by apply (x_frame _ _ _ _ _ _ He).
  - intros Hin inum Hr Hne Hb Hm. assert (E : v_disk a1 (IBLOCK inum (v_sb a)) = v_disk a (IBLOCK inum (v_sb a))).
    { apply (x_frame _ _ _ _ _ _ He); [done| |lia]. intros (Hz & k & Hk & Ek). destruct (fo_slot _ _ _ _ W2 k Hk ltac:(congruence)). lia. }
    rewrite updated_disk, Eib. change (v_disk a2) with (v_disk a1). rewrite <- E. destruct (Z.eqb_spec (IBLOCK inum (v_sb a)) (IBLOCK (i_inum (inode_at a ip)) (v_sb a))) as [Eb|]; [|done].
    assert (Ein : i_inum (inode_at a2 ip) = i_inum (inode_at a ip)) by (by rewrite Es). rewrite Ein. rewrite Eb.
    apply decode_other; [apply Hf2| |].
    + pose proof (dinode_off_fits _ W5). pose proof (Hlen (IBLOCK (i_inum (inode_at a ip)) (v_sb a))) as Hl. lia.
    + eapply (inodes_apart (v_sb a)); try done.
  - intros Hle Hnh bn Hb Hlt. rewrite (updated_slot dev st ds ip) by done.
    rewrite (slot_ext (v_disk a1) (v_disk a2) (inode_at a1 ip) (inode_at a2 ip)) by (done || by rewrite Es, El).
    change (i_size (inode_at (updated ip a2) ip)) with (i_size (inode_at a2 ip)) in Hlt. rewrite Es in Hlt. cbn [i_size set_i_size] in Hlt.
    assert (HB : 0 < BSIZE) by done. destruct (Z.lt_ge_cases (bn * BSIZE) (i_size (inode_at a ip))) as [Hin|Hout].
    + destruct (idx_range bn ltac:(nia)) as [Hi _]. rewrite (x_slot _ _ _ _ _ _ He) by (done || by apply Hnh). by apply Hnh.
    + apply Hfi; [lia| |lia]. apply Z.div_le_upper_bound; lia.
  - pose proof (listed_length (IBLOCK (i_inum (inode_at a2 ip)) (v_sb a2)) a2) as HL. change (v_log (updated ip a2)) with (v_log (listed (IBLOCK (i_inum (inode_at a2 ip)) (v_sb a2)) a2)).
    pose proof (ext_log_length st ds ip _ _ a a1 W1 W6 He Hnd) as HL'. unfold touched in HL'. cbn [length] in HL'. rewrite length_map, length_seqZ, Nat2Z.id in HL'.
    change (v_log a2) with (v_log a1) in HL. lia.
Qed.

(** [writei] on every branch. *)
Lemma writei_wp s a off bytes (n := Z.of_nat (length bytes)) :
  txn s a -> 0 <= off < 2 ^ 32 -> n < 2 ^ 32 -> 0 <= i_size (inode_at a ip) <= MAXFILE * BSIZE ->
  if (off >? i_size (inode_at a ip)) || (MAXFILE * BSIZE <? off + n) then writei (S fuel) ip (Skernel bytes) off n s = Ok (-1) s
  else write_ready off n a ->
    twp (fun r s' => r = n /\ exists a', txn s' a' /\ alloc_ok a' /\ file_ok a' /\ written ds ip off bytes a a') (writei (S fuel) ip (Skernel bytes) off n s).
Proof.
  intros Hs Ho Hn Hsz. unfold writei, inode_get. mgo. rewrite (inode_at_get d0 dev st p pid ws ip s a Hs). set (size := i_size (inode_at a ip)) in *.
  assert (Hmax : MAXFILE * BSIZE = 274432) by done. rewrite Z.gtb_ltb. destruct (Z.ltb_spec size off) as [|Hle]; [done|]. cbn [orb].
  destruct (Z.ltb_spec (MAXFILE * BSIZE) (off + n)) as [Hbig|Hfit].
  { destruct (u32 (off + n) <? off) eqn:Ew; [done|]. apply Z.ltb_ge in Ew. assert (u32 (off + n) = off + n) as -> by (unfold u32 in *; dlia).
    rewrite Z.gtb_ltb, (proj2 (Z.ltb_lt _ _)) by done. done. }
  intros W. assert (u32 (off + n) = off + n) as -> by (unfold u32; apply Z.mod_small; lia).
  rewrite (proj2 (Z.ltb_ge _ off)), Z.gtb_ltb, (proj2 (Z.ltb_ge _ (off + n))) by lia. pose proof W as [W1 W2 W3 W4 W5 W6 W7 W8 W9].
  eapply wp_call; [apply (writei_loop_wp fuel d0 dev st ds p pid spurious ws ip Hds _ s a bytes off 0 (nblocks off n)); try done; try lia|].
  - by apply nblocks_fuel; lia.
  - unfold room in *. lia.
  - eapply spare_le; [|exact W9]. unfold empty. case_match; lia.
  - intros _. rewrite Z.sub_0_r. apply nblocks_enough; lia.
  - intros r s1 [-> (a1 & H1 & Ha1 & Hf1 & Hfi & He)]. fold n. rewrite Z.sub_0_r, drop_0 in *. mgo.
    rewrite (inode_at_get d0 dev st p pid ws ip s1 a1 H1). destruct (x_inode dev ds ip _ _ a a1 W2 He) as [l El].
    assert (Esz : i_size (inode_at a1 ip) = size) by (by rewrite El). rewrite Esz.
    destruct (finish_written off bytes a a1) as [(Ha2 & Hf2 & Hib) Hw]; try done; [fold n size; lia|intros b; by eapply t_len; exact H1|lia|fold n size; lia|by eapply t_nodup; exact H1|].
    fold n size in Ha2, Hf2, Hib, Hw. set (a2 := sized ip (Z.max size (off + n)) a1) in *.
    assert (exists s2, when (off + n >? size) (inode_set ip (set_i_size (off + n))) s1 = Ok tt s2 /\ txn s2 a2) as (s2 & E2 & H2).
    { rewrite Z.gtb_ltb. unfold a2. destruct (Z.ltb_spec size (off + n)) as [Hlt|Hge].
      - eexists. split; [reflexivity|]. rewrite Z.max_r by lia. by apply t_sized.
      - exists s1. split; [reflexivity|]. rewrite Z.max_l by lia. by rewrite <- Esz, sized_same. }
    eapply wp_bind_ok; [exact E2|]. eapply wp_call; [apply (iupdate_wp fuel d0 dev st ds p pid spurious ws ip s2 a2 H2)|].
    + done.
    + done.
    + change (v_held a2) with (v_held a1). by rewrite (x_held _ _ _ _ _ _ He).
    + pose proof (ext_log_length _ _ _ _ _ _ _ W1 W6 He (t_nodup _ _ _ _ _ _ _ _ H1)) as HL. unfold touched in HL. cbn [length] in HL.
      rewrite length_map, length_seqZ, Nat2Z.id in HL. fold n in HL. unfold room in *. change (v_held a2) with (v_held a1). change (v_log a2) with (v_log a1).
      rewrite (x_held _ _ _ _ _ _ He). lia.
    + unfold a2. rewrite (sized_inode dev ds) by done. by rewrite El.
    + intros [] s3 H3. cbn. split; [apply i32_small; lia|]. destruct (updated_ok dev st ds ip Hds a2) as [Ha3 Hf3]; try done. by exists (updated ip a2).
Qed.
End Write.
