(* ===== verification/FsAtomic.v ===== *)
(** * Transactions of the file system

    [begin_op], the work, [end_op]: from a quiet file system the work sees the disk and
    changes the cache only, and [end_op] brings all of it to the disk at once.  For a write
    to a file this means that after a crash and recovery the file has its old contents or
    the new ones. *)
From stdpp Require Import gmap list strings.
From S2P Require Import Prelude Kstring Abi Machine Spinlock Kalloc Vm Proc Sched Sleeplock UserMem Virtio Bio Log Fs File Wp BioList BlockEnv VirtioSpec BioSpec LogSpec LogCrash LogWrite FsTx FsBitmap FsAlloc FsFile FsRw FsWrite.

(** The blocks of a transaction with their new contents. *)
Definition txmap (a : view_) : gmap Z (list Z) := foldr (fun bn => <[bn := v_disk a bn]>) ∅ (v_log a).

Lemma txmap_lookup a bn : txmap a !! bn = if decide (bn ∈ v_log a) then Some (v_disk a bn) else None.
Proof.
  unfold txmap. induction (v_log a) as [|b l IH]; [done|]. cbn [foldr]. destruct (decide (b = bn)) as [->|Hne].
  - rewrite lookup_insert_eq, decide_True by left. done.
  - rewrite lookup_insert_ne, IH by done. destruct (decide (bn ∈ l)), (decide (bn ∈ b :: l)); set_solver.
Qed.

(** The state between transactions. *)
Record fs_quiet (d0 : Z -> list Z) (dev st : Z) (p : nat) (pid : Z) (ws : list (Z * list Z)) (s : fss) : Prop := {
  q_st : 0 <= st /\ st + LOGSIZE + 1 < 2 ^ 31;
  q_rep : brep d0 dev p pid (l_b (fs_l s)) ∅ ws;
  q_where : lg_dev (l_log (fs_l s)) = dev /\ lg_start (l_log (fs_l s)) = st;
  q_empty : lg_n (l_log (fs_l s)) = 0 /\ lg_outstanding (l_log (fs_l s)) = 0 /\ lg_committing (l_log (fs_l s)) = 0;
  q_size : lg_size (l_log (fs_l s)) = LOGSIZE /\ Z.of_nat (length (lg_block (l_log (fs_l s)))) = LOGSIZE;
  q_head : hd_int (dblock d0 ws st) 0 = 0
}.

Definition view_of (d0 : Z -> list Z) (ws : list (Z * list Z)) (s : fss) : view_ := mk_view (dblock d0 ws) [] ∅ (fs_itable s) (fs_sb s).

Section Atomic.
Variables (fuel : nat) (d0 : Z -> list Z) (dev st : Z) (p : nat) (pid : Z) (spurious : Prop).
Notation fwp C := (wp spurious (sub_rel (env d0 dev p pid spurious)) (fun s : fss => C (b_writes (l_b (fs_l s))))).

(** The two ways to see the block layer inside the file system. *)
Lemma sub_rel_fss (R : bst -> bst -> Prop) (s s' : fss) : sub_rel (T := lst) (sub_rel R) s s' <-> sub_rel (T := bst) R s s'.
Proof.
  unfold sub_rel. cbn. split.
  - intros ((H & E) & E'). split; [done|]. by rewrite <- E.
  - intros (H & E). rewrite E in H |- *. cbn in *. by destruct s' as [[]].
Qed.

Lemma begin_op_eq s ws : fs_quiet d0 dev st p pid ws s ->
  exists s', lift (log_begin_op fuel) s = Ok tt s' /\ txn d0 dev st p pid ws s' (view_of d0 ws s).
Proof.
  intros [Q1 Q2 [Q3 Q3'] (Q4 & Q5 & Q6) [Q7 Q8] Q9]. destruct (enter_log d0 dev p pid (fs_l s) ∅ ws Q2) as (m & bufs & vd & rg & Es & Hm & Ea & Hrel).
  destruct (Hrel (set_lg_outstanding 1 (l_log (fs_l s)))) as [Er Hr].
  exists (set_fs_l (mk_lst (mk_bst (settle m) bufs vd rg ws) (set_lg_outstanding 1 (l_log (fs_l s)))) s). split.
  - unfold lift. cbn [sub_get sub_lst_fss]. unfold log_begin_op. rewrite (bind_ok _ _ _ _ _ Ea). destruct fuel as [|f]; cbn [begin_op_loop]; unfold log_get, log_upd; mgo;
      cbn [l_log]; rewrite Q4, Q5, Q6; change (0 + (0 + 1) * MAXOPBLOCKS >? LOGSIZE) with false; cbn [Z.eqb negb orb]; mgo; unfold set_l_log; cbn [l_log l_b];
      rewrite Q5; change (0 + 1) with 1; by rewrite Er.
  - split; cbn; try done.
    + exists ∅. split; [done|]. intros bn. cbn. by rewrite lookup_empty.
    + apply NoDup_nil_2.
Qed.

Lemma txn_ready s a ws : txn d0 dev st p pid ws s a -> v_held a = ∅ -> 0 <= st /\ st + LOGSIZE + 1 < 2 ^ 31 -> hd_int (dblock d0 ws st) 0 = 0 ->
  end_op_ready d0 dev st p pid (txmap a) (v_log a) ws (fs_l s) /\ forall bn, default (dblock d0 ws bn) (txmap a !! bn) = v_disk a bn.
Proof.
  intros [(G & Hr & Hc) H2 H3 H4 H5 H6 H7] Hh Hst Hz. assert (Hc' : forall bn, if decide (bn ∈ v_log a) then exists b, G !! bn = Some (mk_entry b 1 false (v_disk a bn))
    else G !! bn = None /\ v_disk a bn = dblock d0 ws bn).
  { intros bn. specialize (Hc bn). by rewrite Hh, lookup_empty in Hc. }
  split.
  - split; try done; try by apply H3.
    + intros bn. rewrite txmap_lookup. destruct (decide _); split; [by eauto|done|done|]. by intros [].
    + exists G. split; [done|]. split.
      * intros bn. specialize (Hc' bn). destruct (decide _); [destruct Hc' as [b ->]; by exists b, (v_disk a bn)|by destruct Hc'].
      * intros bn e Hg. rewrite txmap_lookup. specialize (Hc' bn). destruct (decide _); [destruct Hc' as [b E]; rewrite Hg in E; by injection E as ->|].
        destruct Hc'. congruence.
    + split; apply H3.
  - intros bn. rewrite txmap_lookup. specialize (Hc' bn). destruct (decide _); [done|]. by destruct Hc' as [_ ->].
Qed.

(** The work between [begin_op] and [end_op]: whatever it does to the view, after a crash
    and recovery the disk shows the view before or the view after. *)
Definition as_before_or (ws : list (Z * list Z)) (V : view_ -> Prop) (w : list (Z * list Z)) : Prop :=
  (forall b, home st b -> recovered st (dblock d0 w) b = dblock d0 ws b) \/
  (exists a', V a' /\ forall b, home st b -> recovered st (dblock d0 w) b = v_disk a' b).

Lemma transaction_wp {A} s ws (work : M fss A) (V : A -> view_ -> Prop) :
  fs_quiet d0 dev st p pid ws s ->
  (forall s1, txn d0 dev st p pid ws s1 (view_of d0 ws s) ->
     fwp (fun w => w = ws) (fun r s' => exists a', txn d0 dev st p pid ws s' a' /\ v_held a' = ∅ /\ V r a') (work s1)) ->
  fwp (as_before_or ws (fun a' => exists r, V r a'))
    (fun r s' => exists ws' a', V r a' /\ fs_quiet d0 dev st p pid ws' s' /\ fs_itable s' = v_inodes a' /\ fs_sb s' = v_sb a' /\
       forall b, home st b -> dblock d0 ws' b = v_disk a' b)
    ((lift (log_begin_op fuel) ;;; r <- work ;; lift (log_end_op (S fuel)) ;;; ret r) s).
Proof.
  intros Hq Hw. pose proof Hq as [Q1 _ _ _ _ Q9]. destruct (begin_op_eq s ws Hq) as (s1 & E1 & H1). eapply wp_bind_ok; [exact E1|].
  eapply wp_call; [eapply wp_weaken; [done| |exact (Hw s1 H1)]|].
  { intros t ->. left. intros b _. by apply recovered_empty. }
  intros r s2 (a' & H2 & Hh & HV). destruct (txn_ready s2 a' ws H2 Hh Q1 Q9) as [Hready Hdef].
  eapply wp_call.
  - eapply (wp_weaken _ (sub_rel (T := lst) (sub_rel (env d0 dev p pid spurious))) _ (fun s => atomic d0 st (txmap a') ws (b_writes (l_b (fs_l s))))); [intros; apply sub_rel_fss| |].
    2:{ exact (wp_lift (S := fss) spurious _ (fun s => atomic d0 st (txmap a') ws (b_writes (l_b s))) _ (log_end_op (S fuel)) s2
        (end_op_wp fuel d0 dev st p pid spurious (txmap a') (v_log a') ws (fs_l s2) Hready)). }
    intros t [H|H]; [by left|]. right. exists a'. split; [by exists r|]. intros b Hb. rewrite <- Hdef. by apply H.
  - intros [] s3 (t & -> & ws' & C1 & C2 & C3 & C4). exists ws', a'. destruct H2 as [_ [L1 L2 L3 L4] [O1 O2 O3 O4 O5] _ _ T6 T7].
    split; [done|]. split; [split; cbn; rewrite ?C3; done|]. do 2 (split; [done|]). intros b Hb. rewrite <- Hdef. by apply C4.
Qed.
End Atomic.

(** ** A write to a file *)

(** The inode [inum] on the disk [D], and the file that it and the blocks make up. *)
Definition disk_inode (D : Z -> list Z) (sb : superblock) (inum : Z) : dinode := decode_dinode (D (IBLOCK inum sb)) (dinode_off inum).
Definition file_is (D : Z -> list Z) (sb : superblock) (inum size : Z) (f : Z -> Z) : Prop :=
  di_size (disk_inode D sb inum) = size /\
  forall i, 0 <= i < MAXFILE * BSIZE -> fbyte D (set_i_addrs (di_addrs (disk_inode D sb inum)) inode_zero) i = f i.

(** A disk that agrees with a view shows its files. *)
Lemma file_is_view dev st ds ip a D f :
  alloc_ok st ds a -> file_ok dev ds ip a -> home st (IBLOCK (i_inum (inode_at a ip)) (v_sb a)) ->
  (forall b, home st b -> D b = v_disk a b) ->
  disk_inode (v_disk a) (v_sb a) (i_inum (inode_at a ip)) = inode_dinode (inode_at a ip) ->
  (forall i, 0 <= i < MAXFILE * BSIZE -> vbyte a ip i = f i) ->
  file_is D (v_sb a) (i_inum (inode_at a ip)) (i_size (inode_at a ip)) f.
Proof.
  intros Ha Hf Hib HD Hd Hb. assert (E : disk_inode D (v_sb a) (i_inum (inode_at a ip)) = inode_dinode (inode_at a ip)).
  { rewrite <- Hd. unfold disk_inode. by rewrite HD. }
  unfold file_is. rewrite E. split; [done|]. intros i Hi. rewrite <- Hb by done. destruct (block_split i ltac:(lia)) as (Ei & Hm & Hq).
  assert (HB : 0 < BSIZE) by done. destruct (idx_range (i / BSIZE) ltac:(nia)) as [Hx _]. unfold fbyte, fblock.
  assert (Hs : forall k, slot D (set_i_addrs (di_addrs (inode_dinode (inode_at a ip))) inode_zero) k = vslot a ip k).
  { intros k. apply slot_ext; [done|]. intros Hn. apply HD. by apply (slot_home dev st ds). }
  rewrite Hs. destruct (Z.eqb_spec (vslot a ip (idx (i / BSIZE))) 0) as [|Hn]; [done|]. rewrite HD; [done|]. by apply (slot_home dev st ds).
Qed.

(** The blocks that a write to the file leaves alone: not in the free map, not of the
    file, not free, and not the block of the inode. *)
Definition elsewhere (ds : Z) (ip : nat) (a : view_) (b : Z) : Prop :=
  ~ map_block (v_sb a) b /\ ~ owned ip a b /\ ~ (ds <= b < sb_size (v_sb a) /\ used (v_disk a) (v_sb a) b = false) /\
  b <> IBLOCK (i_inum (inode_at a ip)) (v_sb a).

(** The other inodes on the disk, those in the same block included. *)
Definition other_inodes (st ds : Z) (ip : nat) (a : view_) (D : Z -> list Z) : Prop :=
  forall inum, 0 <= inum < 2 ^ 32 -> inum <> i_inum (inode_at a ip) ->
    home st (IBLOCK inum (v_sb a)) -> IBLOCK inum (v_sb a) < ds -> ~ map_block (v_sb a) (IBLOCK inum (v_sb a)) ->
    disk_inode D (v_sb a) inum = disk_inode (v_disk a) (v_sb a) inum.

Lemma other_inodes_same st ds ip a D : (forall b, home st b -> D b = v_disk a b) -> other_inodes st ds ip a D.
Proof. intros HD inum _ _ Hh _ _. unfold disk_inode. by rewrite HD. Qed.

Lemma written_disk dev st ds ip off bytes a a' D (x := inode_at a ip) :
  alloc_ok st ds a' -> file_ok dev ds ip a' -> home st (IBLOCK (i_inum x) (v_sb a)) -> i_inum x < 2 ^ 32 -> written ds ip off bytes a a' ->
  (forall b, home st b -> D b = v_disk a' b) ->
  ((forall b, home st b -> elsewhere ds ip a b -> D b = v_disk a b) /\ other_inodes st ds ip a D) /\
  file_is D (v_sb a) (i_inum x) (Z.max (i_size x) (off + Z.of_nat (length bytes))) (over (vbyte a ip) off bytes).
Proof.
  intros Ha Hf Hh Hlt Hw HD. destruct (w_inode _ _ _ _ _ _ Hw) as [l El]. split; [split|].
  - intros b Hb (E1 & E2 & E3 & E4). rewrite HD by done. by apply (w_frame _ _ _ _ _ _ Hw).
  - intros inum Hr Hne Hhi Hd Hm. unfold disk_inode. rewrite HD by done. by apply (w_dinodes _ _ _ _ _ _ Hw).
  - assert (Ei : i_inum (inode_at a' ip) = i_inum x) by (by rewrite El).
    pose proof (file_is_view dev st ds ip a' D (over (vbyte a ip) off bytes) Ha Hf) as H. rewrite Ei, (w_sb _ _ _ _ _ _ Hw) in H.
    assert (Es : i_size (inode_at a' ip) = Z.max (i_size x) (off + Z.of_nat (length bytes))) by (by rewrite El). rewrite Es in H.
    apply H; try done; [apply (w_dinode _ _ _ _ _ _ Hw)|apply (w_bytes _ _ _ _ _ _ Hw)].
Qed.

(** C2. A write to a file is atomic with respect to crashes.  From a quiet file system,
    [begin_op], [writei] of bytes in the kernel's memory and [end_op] write the bytes: whenever the process waits for the
    disk the machine may stop, and after recovery the inode on the disk and its blocks
    make up the old file or the file with the bytes in place and the size adjusted, while
    the blocks that do not belong to the file and the other inodes are as before.  At the
    end the new file is on the disk and the file system is quiet again. *)
Theorem write_crash_safe (fuel : nat) (d0 : Z -> list Z) (dev st ds : Z) (p : nat) (pid : Z) (spurious : Prop) (ws : list (Z * list Z))
    (ip : nat) (off : Z) (bytes : list Z) (s : fss) (a := view_of d0 ws s) (x := inode_at a ip) (n := Z.of_nat (length bytes)) :
  fs_quiet d0 dev st p pid ws s -> disk_inode (dblock d0 ws) (fs_sb s) (i_inum x) = inode_dinode x ->
  write_ready dev st ds ip off n a -> i_inum x < 2 ^ 32 -> 0 <= off <= i_size x -> i_size x <= MAXFILE * BSIZE -> off + n <= MAXFILE * BSIZE ->
  wp spurious (sub_rel (env d0 dev p pid spurious))
    (fun s' => let D := recovered st (dblock d0 (b_writes (l_b (fs_l s')))) in
       (forall b, home st b -> elsewhere ds ip a b -> D b = dblock d0 ws b) /\ other_inodes st ds ip a D /\
       (file_is D (fs_sb s) (i_inum x) (i_size x) (vbyte a ip) \/
        file_is D (fs_sb s) (i_inum x) (Z.max (i_size x) (off + n)) (over (vbyte a ip) off bytes)))
    (fun r s' => r = n /\ exists ws', fs_quiet d0 dev st p pid ws' s' /\
       (forall b, home st b -> elsewhere ds ip a b -> dblock d0 ws' b = dblock d0 ws b) /\ other_inodes st ds ip a (dblock d0 ws') /\
       file_is (dblock d0 ws') (fs_sb s) (i_inum x) (Z.max (i_size x) (off + n)) (over (vbyte a ip) off bytes))
    ((lift (log_begin_op fuel) ;;; r <- writei (S fuel) ip (Skernel bytes) off n ;; lift (log_end_op (S fuel)) ;;; ret r) s).
Proof.
  intros Hq Hd W Hin Ho Hsz Hfit. assert (Hmax : MAXFILE * BSIZE = 274432) by done.
  assert (Hds : 0 < ds) by (destruct (ly_log _ _ _ (ao_layout _ _ _ (wr_alloc _ _ _ _ _ _ _ W))); pose proof LOGSIZE_eq; lia).
  set (V (r : Z) (a' : view_) := r = n /\ alloc_ok st ds a' /\ file_ok dev ds ip a' /\ written ds ip off bytes a a').
  assert (Hnew : forall r a' D, V r a' -> (forall b, home st b -> D b = v_disk a' b) ->
    ((forall b, home st b -> elsewhere ds ip a b -> D b = dblock d0 ws b) /\ other_inodes st ds ip a D) /\ file_is D (fs_sb s) (i_inum x) (Z.max (i_size x) (off + n)) (over (vbyte a ip) off bytes)).
  { intros r a' D (_ & Ha & Hf & Hw) HD. apply (written_disk dev st ds ip off bytes a a'); try done. apply (wr_iblock _ _ _ _ _ _ _ W). }
  eapply wp_weaken; [done| |eapply wp_mono; [apply (transaction_wp fuel d0 dev st p pid spurious s ws _ V Hq)|]].
  - intros s' [Hold|(a' & (r & HV) & HD)]; cbn zeta; [|destruct (Hnew r a' _ HV HD) as [[N1 N2] N3]; split; [done|]; split; [done|by right]].
    split; [intros b Hb _; by apply Hold|]. split; [by apply other_inodes_same|]. left.
    apply (file_is_view dev st ds ip a); try done; [apply W|apply W|apply (wr_iblock _ _ _ _ _ _ _ W)].
  - intros s1 H1. pose proof (writei_wp fuel d0 dev st ds p pid spurious ws ip Hds s1 a off bytes H1 ltac:(lia) ltac:(fold n; lia) ltac:(fold x; lia)) as Hw.
    fold x n in Hw. rewrite Z.gtb_ltb, (proj2 (Z.ltb_ge _ _)), (proj2 (Z.ltb_ge _ _)) in Hw by lia. eapply wp_mono; [exact (Hw W)|].
    intros r s' (-> & a' & H' & Ha' & Hf' & Hw'). exists a'. split; [done|]. split; [|done]. by rewrite (w_held _ _ _ _ _ _ Hw').
  - intros r s' (ws' & a' & HV & Hq' & _ & _ & HD). destruct (Hnew r a' _ HV HD) as [[N1 N2] N3]. split; [exact (proj1 HV)|]. by exists ws'.
Qed.

(** ** A file system with one file *)

(** The layout of mkfs, with block 46 in use for the file of inode 2. *)
Definition demo_sb : superblock := mk_superblock FSMAGIC 1000 954 200 30 2 32 45.
Definition demo_inode : inode := mk_inode 1 2 1 (mk_sleeplock 0 "inode" 0) 1 T_FILE 0 0 1 1024 (46 :: replicate 12 0).
Definition demo_map : list Z := replicate 5 255 ++ 127 :: replicate 1018 0.
Definition demo_fs_disk (sector : Z) : list Z :=
  if sector =? 2 * 45 then demo_map
  else if sector =? 2 * 32 then splice zeros 128 (encode_dinode (inode_dinode demo_inode))
  else if sector =? 2 * 46 then sevens else zeros.
Definition demo_fs : fss := mk_fss demo_boot [demo_inode] demo_sb.
Notation demo_view := (view_of demo_fs_disk [] demo_fs).

Lemma demo_used b : 0 <= b < 1000 -> used (dblock demo_fs_disk []) demo_sb b = (b <? 47).
Proof.
  intros Hb. assert (H : forallb (fun k => Bool.eqb (used_bit demo_map (Z.of_nat k)) (Z.of_nat k <? 47)) (seq 0 1000) = true) by (by vm_compute).
  rewrite forallb_forall in H. specialize (H (Z.to_nat b) ltac:(apply in_seq; lia)). apply eqb_prop in H. rewrite Z2Nat.id in H by lia. rewrite <- H.
  unfold used, BBLOCK, demo_sb, sb_bmapstart. change BPB with 8192. rewrite Z.div_small, Z.mod_small by lia. done.
Qed.

Lemma demo_slot k : 0 <= k < NSLOT -> vslot demo_view 0 k = if k =? 0 then 46 else 0.
Proof.
  intros Hk. destruct (Z.le_gt_cases k NDIRECT) as [Hle|Hgt]; [|rewrite slot_indirect by done; by destruct k].
  rewrite slot_direct by done. change NDIRECT with 12 in Hle. assert (H : forall j, (j <= 12)%nat -> zget (46 :: replicate 12 0) (Z.of_nat j) = if Z.of_nat j =? 0 then 46 else 0).
  { intros j Hj. do 13 (destruct j as [|j]; [done|]). lia. }
  specialize (H (Z.to_nat k) ltac:(lia)). by rewrite Z2Nat.id in H by lia.
Qed.

Lemma demo_alloc : alloc_ok 2 46 demo_view.
Proof.
  split; [split; by vm_compute| |done]. intros b Hb. change (used (dblock demo_fs_disk []) demo_sb b = true). rewrite demo_used by lia. apply Z.ltb_lt. lia.
Qed.

Lemma demo_file : file_ok 1 46 0 demo_view.
Proof.
  split; try done; [cbn; lia| |].
  - intros k Hk. rewrite demo_slot by done. destruct (k =? 0); [|done]. intros _. split; [by vm_compute|]. by apply demo_used.
  - intros j k Hj Hk. rewrite !demo_slot by done. destruct (Z.eqb_spec j 0), (Z.eqb_spec k 0); try done. by subst.
Qed.

Lemma demo_ready (bytes : list Z) : length bytes = 100%nat -> write_ready 1 2 46 0 1000 (Z.of_nat (length bytes)) demo_view.
Proof.
  intros Hl. rewrite Hl. split; try done; [exact demo_alloc|exact demo_file| | | |].
  - assert (E : IBLOCK (i_inum (inode_at demo_view 0)) (v_sb demo_view) = 32) by (by vm_compute).
    split; rewrite E; [pose proof LOGSIZE_eq; unfold home; lia|lia|]. intros (c & Hc & E'). cbn [sb_size v_sb view_of fs_sb demo_fs demo_sb] in Hc.
    revert E'. unfold BBLOCK. rewrite Z.div_small by (change BPB with 8192; lia). by vm_compute.
  - by repeat split; try apply Forall_cons; repeat constructor.
  - unfold room. by vm_compute; lia.
  - exists [47; 48; 49]. split; [by repeat constructor; set_solver|]. split; [done|]. repeat constructor; by vm_compute.
Qed.

Lemma demo_quiet : fs_quiet demo_fs_disk 1 2 0 1 [] demo_fs.
Proof.
  split; try done. apply demo_boot_rep. intros sec. unfold demo_fs_disk. by repeat destruct (_ =? _).
Qed.

Lemma write_crash_safe_witness :
  let bytes := replicate 100 9 in
  wp False (sub_rel (env demo_fs_disk 1 0 1 False))
    (fun s' => let D := recovered 2 (dblock demo_fs_disk (b_writes (l_b (fs_l s')))) in
       (forall b, home 2 b -> elsewhere 46 0 demo_view b -> D b = dblock demo_fs_disk [] b) /\ other_inodes 2 46 0 demo_view D /\
       (file_is D demo_sb 2 1024 (vbyte demo_view 0) \/ file_is D demo_sb 2 1100 (over (vbyte demo_view 0) 1000 bytes)))
    (fun r s' => r = 100 /\ exists ws', fs_quiet demo_fs_disk 1 2 0 1 ws' s' /\
       (forall b, home 2 b -> elsewhere 46 0 demo_view b -> dblock demo_fs_disk ws' b = dblock demo_fs_disk [] b) /\ other_inodes 2 46 0 demo_view (dblock demo_fs_disk ws') /\
       file_is (dblock demo_fs_disk ws') demo_sb 2 1100 (over (vbyte demo_view 0) 1000 bytes))
    ((lift (log_begin_op 0) ;;; r <- writei 1 0 (Skernel bytes) 1000 100 ;; lift (log_end_op 1) ;;; ret r) demo_fs).
Proof.
  apply (write_crash_safe 0 demo_fs_disk 1 2 46 0 1 False [] 0 1000 (replicate 100 9) demo_fs demo_quiet).
  - by vm_compute.
  - by apply demo_ready.
  - by vm_compute.
  - by vm_compute.
  - by vm_compute.
  - by vm_compute.
Defined.

(** C9. [readi] returns the bytes of the file.  Inside a transaction and for a file without
    holes, a read into the kernel's memory gives nothing when the offset lies past the end
    or the sum wraps around, and otherwise [n] bytes, cut at the end of the file; these are
    the bytes of the file, and nothing of the file system changes. *)
Theorem readi_correct (fuel : nat) (d0 : Z -> list Z) (dev st ds : Z) (p : nat) (pid : Z) (spurious : Prop) (ws : list (Z * list Z))
    (ip : nat) (s : fss) (a : view_) (off n : Z) (size := i_size (inode_at a ip)) :
  txn d0 dev st p pid ws s a -> alloc_ok st ds a -> file_ok dev ds ip a -> no_holes ip a -> v_held a = ∅ -> room 4 a ->
  0 <= size <= MAXFILE * BSIZE -> 0 <= off < 2 ^ 32 -> 0 <= n < 2 ^ 32 ->
  wp spurious (sub_rel (env d0 dev p pid spurious)) (fun s' => b_writes (l_b (fs_l s')) = ws)
    (fun r s' => txn d0 dev st p pid ws s' a /\
       let m := if (off >? size) || (2 ^ 32 <=? off + n) then 0 else Z.min n (size - off) in
       r = (m, map (vbyte a ip) (seqZ off m)))
    (readi (S fuel) ip Dkernel off n s).
Proof.
  intros Hs Ha Hf Hnh Hh Hr Hsz Ho Hn.
  assert (Hds : 0 < ds) by (destruct (ly_log _ _ _ (ao_layout _ _ _ Ha)); pose proof LOGSIZE_eq; lia). by apply (readi_wp fuel d0 dev st ds).
Qed.

Lemma readi_correct_witness : exists s,
  lift (log_begin_op 0) demo_fs = Ok tt s /\
  wp False (sub_rel (env demo_fs_disk 1 0 1 False)) (fun s' => b_writes (l_b (fs_l s')) = [])
    (fun r s' => txn demo_fs_disk 1 2 0 1 [] s' demo_view /\ r = (24, replicate 24 7)) (readi 1 0 Dkernel 1000 100 s).
Proof.
  destruct (begin_op_eq 0 demo_fs_disk 1 2 0 1 demo_fs [] demo_quiet) as (s & E & Hs). exists s. split; [exact E|].
  apply (readi_correct 0 demo_fs_disk 1 2 46 0 1 False [] 0 s demo_view 1000 100 Hs demo_alloc demo_file).
  - intros bn Hbn Hlt. change (i_size (inode_at demo_view 0)) with 1024 in Hlt. change BSIZE with 1024 in Hlt. by replace bn with 0 by lia.
  - reflexivity.
  - unfold room. vm_compute. lia.
  - change (i_size (inode_at demo_view 0)) with 1024. change (MAXFILE * BSIZE) with 274432. lia.
  - lia.
  - lia.
Defined.

(** C8. [writei] on every branch, for bytes of the kernel.  An offset past the end and a
    file that would become too large are refused and nothing changes; otherwise all bytes
    are written: the file has them in place, its size grows to the end of the write, the
    inode on the disk agrees with the one in memory, no other file and no other inode
    changes, and the transaction has grown by at most three blocks and those that the bytes
    lie in.  A piece of the size that [filewrite] uses adds no more than [MAXOPBLOCKS].
    Bytes of the kernel are always there, so the break for a failed copy is not among
    these branches. *)
Theorem writei_correct (fuel : nat) (d0 : Z -> list Z) (dev st ds : Z) (p : nat) (pid : Z) (spurious : Prop) (ws : list (Z * list Z))
    (ip : nat) (s : fss) (a : view_) (off : Z) (bytes : list Z) (n := Z.of_nat (length bytes)) (size := i_size (inode_at a ip)) :
  txn d0 dev st p pid ws s a -> 0 < ds -> 0 <= off < 2 ^ 32 -> n < 2 ^ 32 -> 0 <= size <= MAXFILE * BSIZE ->
  if (off >? size) || (MAXFILE * BSIZE <? off + n) then writei (S fuel) ip (Skernel bytes) off n s = Ok (-1) s
  else write_ready dev st ds ip off n a ->
    wp spurious (sub_rel (env d0 dev p pid spurious)) (fun s' => b_writes (l_b (fs_l s')) = ws)
      (fun r s' => r = n /\ exists a', txn d0 dev st p pid ws s' a' /\ alloc_ok st ds a' /\ file_ok dev ds ip a' /\ written ds ip off bytes a a' /\
         (n <= filewrite_max -> Z.of_nat (length (v_log a')) <= Z.of_nat (length (v_log a)) + MAXOPBLOCKS))
      (writei (S fuel) ip (Skernel bytes) off n s).
Proof.
  intros Hs Hds Ho Hn Hsz. pose proof (writei_wp fuel d0 dev st ds p pid spurious ws ip Hds s a off bytes Hs Ho Hn Hsz) as H. fold n size in H.
  destruct ((off >? size) || (MAXFILE * BSIZE <? off + n)); [done|]. intros W. eapply wp_mono; [exact (H W)|].
  intros r s' (-> & a' & H1 & H2 & H3 & H4). split; [done|]. exists a'. repeat (split; [done|]). intros Hm.
  pose proof (w_log _ _ _ _ _ _ H4) as HL. fold n in HL. assert (Hb : (nblocks off n <= 4)%nat).
  { unfold nblocks. change filewrite_max with 3072 in Hm. change BSIZE with 1024. dlia. }
  change MAXOPBLOCKS with 10. lia.
Qed.

Lemma writei_correct_witness : exists s,
  lift (log_begin_op 0) demo_fs = Ok tt s /\ writei 1 0 (Skernel (replicate 100 9)) 2000 100 s = Ok (-1) s /\
  wp False (sub_rel (env demo_fs_disk 1 0 1 False)) (fun s' => b_writes (l_b (fs_l s')) = [])
    (fun r s' => r = 100 /\ exists a', txn demo_fs_disk 1 2 0 1 [] s' a' /\ written 46 0 1000 (replicate 100 9) demo_view a')
    (writei 1 0 (Skernel (replicate 100 9)) 1000 100 s).
Proof.
  destruct (begin_op_eq 0 demo_fs_disk 1 2 0 1 demo_fs [] demo_quiet) as (s & E & Hs). exists s. split; [exact E|].
  assert (Hz : 0 <= 1024 <= MAXFILE * BSIZE) by (change (MAXFILE * BSIZE) with 274432; lia).
  pose proof (fun off H => writei_correct 0 demo_fs_disk 1 2 46 0 1 False [] 0 s demo_view off (replicate 100 9) Hs eq_refl H eq_refl
    Hz) as W.
  split; [exact (W 2000 ltac:(lia))|]. eapply wp_mono; [exact (W 1000 ltac:(lia) (demo_ready (replicate 100 9) eq_refl))|].
  intros r s' (Hr & a' & H1 & _ & _ & H2 & _). split; [exact Hr|]. exists a'. split; [exact H1|exact H2].
Defined.
