(* ===== verification/FsDir.v ===== *)
(** * Directories: dirlookup and dirlink of kernel/fs.c

    A directory is a file of 16-byte entries, of which those with number 0 are free.  Here
    it is a finite map from names to inode numbers: [dirlookup] looks a name up, [dirlink]
    adds one, and a transaction around [dirlink] leaves the old map or the new one on the
    disk, whenever the machine stops. *)
From stdpp Require Import gmap list strings.
From S2P Require Import Prelude Kstring Abi Machine Spinlock Kalloc Vm Proc Sched Sleeplock UserMem Virtio Bio Log Fs File Wp BioList BlockEnv VirtioSpec BioSpec LogSpec LogCrash LogWrite FsTx FsBitmap FsAlloc FsFile FsRw FsWrite FsAtomic.

(** ** Names *)

(** What [namecmp] compares: at most [n] characters before the nul. *)
Fixpoint cname (n : nat) (l : list Z) : list Z :=
  match n, l with
  | S n, c :: l => if c =? 0 then [] else c :: cname n l
  | _, _ => []
  end.
Definition key (name : list Z) : list Z := cname (Z.to_nat DIRSIZ) name.

Lemma strncmp_cname n : forall p q, strncmp_list n p q = 0 <-> cname n p = cname n q.
Proof.
  induction n as [|n IH]; intros p q; [done|]. cbn [strncmp_list cname].
  destruct p as [|a p], q as [|b q]; cbn [hd tail].
  - done.
  - destruct (Z.eqb_spec b 0) as [->|]; [done|]. cbn. split; [lia|done].
  - destruct (Z.eqb_spec a 0) as [->|]; cbn [negb andb]; [done|]. destruct (Z.eqb_spec a 0); cbn; split; lia || done.
  - destruct (Z.eqb_spec a 0) as [->|Ha], (Z.eqb_spec b 0) as [->|Hb]; cbn [negb andb]; try (split; lia || done).
    + destruct (Z.eqb_spec a 0); [done|]. split; [lia|done].
    + destruct (Z.eqb_spec a b) as [->|Hab]; [|split; [lia|congruence]]. rewrite IH. split; [by intros ->|congruence].
Qed.

Lemma namecmp_key p q : (namecmp p q =? 0) = bool_decide (key p = key q).
Proof.
  destruct (Z.eqb_spec (namecmp p q) 0) as [E|E]; symmetry.
  - apply bool_decide_eq_true. by apply strncmp_cname.
  - apply bool_decide_eq_false. intros H. apply E. by apply strncmp_cname.
Qed.

Lemma key_pad name : key (pad_name name) = key name.
Proof.
  unfold key, pad_name. change (Z.to_nat DIRSIZ) with 14%nat. assert (H : forall n name, cname n (take n name ++ replicate (n - length name) 0) = cname n name).
  { induction n as [|n IH]; intros l; [done|]. destruct l as [|c l]; [done|]. cbn [take app cname length]. destruct (c =? 0); [done|]. f_equal. apply IH. }
  apply H.
Qed.

(** ** The map of a list of entries *)

Notation dir := (gmap (list Z) Z).

(** The first entry of a name counts. *)
Fixpoint dir_map (l : list (list Z)) : dir :=
  match l with
  | [] => ∅
  | e :: l => if de_inum e =? 0 then dir_map l else <[key (de_name e) := de_inum e]> (dir_map l)
  end.

(** The index of the first entry of a name, and of the first free one. *)
Fixpoint dir_find (name : list Z) (l : list (list Z)) : option nat :=
  match l with
  | [] => None
  | e :: l => if negb (de_inum e =? 0) && bool_decide (key name = key (de_name e)) then Some 0%nat else S <$> dir_find name l
  end.
Fixpoint dir_free (l : list (list Z)) : nat :=
  match l with
  | [] => 0
  | e :: l => if de_inum e =? 0 then 0 else S (dir_free l)
  end.

Lemma dir_map_find name l : dir_map l !! key name = (i ← dir_find name l; de_inum <$> l !! i).
Proof.
  induction l as [|e l IH]; [done|]. cbn [dir_map dir_find]. destruct (Z.eqb_spec (de_inum e) 0) as [E|E]; cbn [negb andb].
  - rewrite IH. by destruct (dir_find name l).
  - destruct (decide (key name = key (de_name e))) as [->|Hne].
    + by rewrite bool_decide_true, lookup_insert_eq by done.
    + rewrite bool_decide_false, lookup_insert_ne, IH by done. by destruct (dir_find name l).
Qed.

Lemma dir_find_some name l : forall i, dir_find name l = Some i -> exists e, l !! i = Some e /\ de_inum e <> 0 /\ key (de_name e) = key name.
Proof.
  induction l as [|e l IH]; intros i; [done|]. cbn [dir_find]. destruct (Z.eqb_spec (de_inum e) 0) as [E|E]; cbn [negb andb].
  - destruct (dir_find name l) as [j|]; [|done]. intros [= <-]. by apply IH.
  - case_bool_decide as Hk; [intros [= <-]; by exists e|]. destruct (dir_find name l) as [j|]; [|done]. intros [= <-]. by apply IH.
Qed.

(** A new entry for a name that is not there, in place of the first free one. *)
Lemma dir_map_add name e l :
  key (de_name e) = key name -> de_inum e <> 0 -> dir_map l !! key name = None ->
  dir_map (take (dir_free l) l ++ e :: drop (S (dir_free l)) l) = <[key name := de_inum e]> (dir_map l).
Proof.
  intros Hk He. induction l as [|x l IH]; intros Hn; cbn [dir_free].
  - cbn. by rewrite (proj2 (Z.eqb_neq _ _)), Hk by done.
  - cbn [dir_map] in *. destruct (Z.eqb_spec (de_inum x) 0) as [Ex|Ex].
    + cbn. rewrite (proj2 (Z.eqb_neq _ _)), Hk by done. by rewrite drop_0.
    + cbn [take app drop dir_map]. rewrite (proj2 (Z.eqb_neq _ _)) by done. apply lookup_insert_None in Hn as [Hn Hne].
      rewrite IH by done. by rewrite insert_insert_ne.
Qed.

Lemma dir_free_le l : (dir_free l <= length l)%nat.
Proof. induction l as [|e l IH]; [done|]. cbn. destruct (_ =? _); lia. Qed.

(** ** The entries of a file *)

Definition entry (f : Z -> Z) (k : Z) : list Z := bytes_at f (DIRENT_SIZE * k) DIRENT_SIZE.
Definition entries (f : Z -> Z) (size : Z) : list (list Z) := map (entry f) (seqZ 0 (size / DIRENT_SIZE)).

Lemma nblocks_entry i : nblocks (DIRENT_SIZE * Z.of_nat i) DIRENT_SIZE = 1%nat.
Proof. unfold nblocks. change BSIZE with 1024. change DIRENT_SIZE with 16. dlia. Qed.

Lemma entries_lookup f size i : 0 <= size -> (i < Z.to_nat (size / DIRENT_SIZE))%nat -> entries f size !! i = Some (entry f (Z.of_nat i)).
Proof.
  intros Hs Hi. unfold entries. rewrite list_lookup_fmap, lookup_seqZ_lt by lia. cbn. by rewrite Z.add_0_l.
Qed.

Lemma length_entries f size : length (entries f size) = Z.to_nat (size / DIRENT_SIZE).
Proof. unfold entries. by rewrite length_map, length_seqZ. Qed.

Lemma entries_ext f g size : (forall i, 0 <= i < size -> f i = g i) -> entries f size = entries g size.
Proof.
  intros H. apply list_eq. intros k. destruct (decide (k < Z.to_nat (size / DIRENT_SIZE))%nat) as [Hk|Hk].
  - assert (Hs : 0 <= size) by (destruct (Z.le_gt_cases 0 size); [done|]; rewrite Z2Nat.nonpos in Hk; [lia|]; apply Z.div_le_upper_bound; [done|]; lia).
    rewrite !entries_lookup by done. f_equal. unfold entry, bytes_at. apply list_fmap_ext. intros j x Hx. apply lookup_seqZ in Hx as [-> Hj]. apply H.
    change DIRENT_SIZE with 16 in *. assert (16 * (size / 16) <= size) by dlia. lia.
  - by rewrite !lookup_ge_None_2 by (rewrite length_entries; lia).
Qed.

Lemma entry_over f i k e : 0 <= i -> 0 <= k -> length e = Z.to_nat DIRENT_SIZE ->
  entry (over f (DIRENT_SIZE * i) e) k = if k =? i then e else entry f k.
Proof.
  intros Hi Hk He. change (Z.to_nat DIRENT_SIZE) with 16%nat in He. unfold entry, bytes_at. change DIRENT_SIZE with 16. destruct (Z.eqb_spec k i) as [->|Hne].
  - apply list_eq. intros j. rewrite list_lookup_fmap. destruct (decide (j < 16)%nat) as [Hj|Hj].
    + rewrite lookup_seqZ_lt by lia. cbn. unfold over. rewrite He, (proj2 (Z.leb_le _ _)), (proj2 (Z.ltb_lt _ _)) by lia. cbn [andb].
      unfold zget. replace (Z.to_nat _) with j by lia. by destruct (lookup_lt_is_Some_2 e j ltac:(lia)) as [x ->].
    + rewrite lookup_seqZ_ge by lia. symmetry. apply lookup_ge_None_2. lia.
  - apply list_fmap_ext. intros j x Hx. apply lookup_seqZ in Hx as [-> Hj]. unfold over. rewrite He.
    destruct (Z.leb_spec (16 * i) (16 * k + Z.of_nat j)), (Z.ltb_spec (16 * k + Z.of_nat j) (16 * i + Z.of_nat 16)); cbn [andb]; done || lia.
Qed.

(** One entry is written. *)
Lemma entries_over f size i e (l := entries f size) :
  0 <= size -> size mod DIRENT_SIZE = 0 -> length e = Z.to_nat DIRENT_SIZE -> (i <= length l)%nat ->
  entries (over f (DIRENT_SIZE * Z.of_nat i) e) (Z.max size (DIRENT_SIZE * Z.of_nat i + DIRENT_SIZE)) = take i l ++ e :: drop (S i) l.
Proof.
  intros Hs Hm He Hi. unfold l in *. rewrite length_entries in Hi. set (n := Z.to_nat (size / DIRENT_SIZE)) in *.
  assert (Hn : size = DIRENT_SIZE * Z.of_nat n) by (unfold n; change DIRENT_SIZE with 16 in *; dlia).
  assert (Hn' : Z.to_nat (Z.max size (DIRENT_SIZE * Z.of_nat i + DIRENT_SIZE) / DIRENT_SIZE) = Nat.max n (S i)) by (rewrite Hn; change DIRENT_SIZE with 16; dlia).
  apply list_eq. intros k. destruct (decide (k < Nat.max n (S i))%nat) as [Hk|Hk].
  - rewrite entries_lookup by lia. rewrite entry_over by (lia || done). destruct (Nat.lt_trichotomy k i) as [Hlt|[->|Hgt]].
    + rewrite (proj2 (Z.eqb_neq _ _)), lookup_app_l, lookup_take_lt, entries_lookup by (rewrite ?length_take, ?length_entries; lia). done.
    + rewrite Z.eqb_refl, lookup_app_r, length_take, length_entries, Nat.min_l, Nat.sub_diag by (rewrite ?length_take, ?length_entries; lia). done.
    + rewrite (proj2 (Z.eqb_neq _ _)), lookup_app_r, length_take, length_entries, Nat.min_l by (rewrite ?length_take, ?length_entries; lia).
      replace (k - i)%nat with (S (k - S i)) by lia. cbn [lookup list_lookup]. change (?l !! ?j) with (l !! j).
      rewrite lookup_drop, entries_lookup by lia. do 2 f_equal. lia.
  - rewrite lookup_ge_None_2 by (rewrite length_entries; lia). symmetry. apply lookup_ge_None_2.
    rewrite length_app, length_take. cbn [length]. rewrite length_drop, length_entries. lia.
Qed.

(** The entry that [dirlink] writes. *)
Definition new_entry (name : list Z) (inum : Z) : list Z := le_bytes 2 inum ++ pad_name name.

Lemma new_entry_ok name inum : 0 <= inum < 2 ^ 16 ->
  length (new_entry name inum) = Z.to_nat DIRENT_SIZE /\ de_inum (new_entry name inum) = inum /\ key (de_name (new_entry name inum)) = key name.
Proof.
  intros Hi. assert (Hp : length (pad_name name) = 14%nat) by (unfold pad_name; rewrite length_app, length_take, length_replicate; lia).
  unfold new_entry, de_inum, de_name, get_u16. split; [by rewrite length_app, length_le_bytes, Hp|]. split.
  - rewrite drop_0, take_app_length' by (by rewrite length_le_bytes). rewrite le_val_le_bytes. by apply Z.mod_small.
  - rewrite drop_app_length', take_ge by (by rewrite ?length_le_bytes, ?Hp). apply key_pad.
Qed.

(** ** The table of inodes *)

(** [iget] gives a reference to the entry of the inode, or makes a free entry its own. *)
Definition refers (dev inum : Z) (x : inode) : Prop := 0 < i_ref x /\ i_dev x = dev /\ i_inum x = inum.
Definition fresh (dev inum : Z) (x : inode) : inode := set_i_valid 0 (set_i_ref 1 (set_i_inum inum (set_i_dev dev x))).
Definition igot (dev inum : Z) (l : list inode) (j : nat) (l' : list inode) : Prop :=
  exists x, l !! j = Some x /\
    ((refers dev inum x /\ l' = <[j := set_i_ref (i_ref x + 1) x]> l) \/
     (i_ref x = 0 /\ (forall k y, l !! k = Some y -> ~ refers dev inum y) /\ l' = <[j := fresh dev inum x]> l)).

(** There is such an entry. *)
Definition table_room (dev inum : Z) (l : list inode) : Prop :=
  length l = Z.to_nat NINODE /\ exists j x, l !! j = Some x /\ (refers dev inum x \/ i_ref x = 0).

Lemma iget_find_spec dev inum s (ks : list nat) : forall e,
  match iget_find ks e s dev inum with
  | inl j => j ∈ ks /\ refers dev inum (get_inode s j)
  | inr r => (forall k, k ∈ ks -> ~ refers dev inum (get_inode s k)) /\
      match r with
      | Some j => e = Some j \/ (j ∈ ks /\ i_ref (get_inode s j) = 0)
      | None => e = None /\ forall k, k ∈ ks -> i_ref (get_inode s k) <> 0
      end
  end.
Proof.
  induction ks as [|k ks IH]; intros e; cbn [iget_find].
  { split; [by intros k ?%elem_of_nil|]. destruct e; [by left|]. split; [done|]. by intros k ?%elem_of_nil. }
  assert (Hr : (i_ref (get_inode s k) >? 0) && (i_dev (get_inode s k) =? dev) && (i_inum (get_inode s k) =? inum) = true <-> refers dev inum (get_inode s k)).
  { rewrite !andb_true_iff, Z.gtb_lt, !Z.eqb_eq. unfold refers. tauto. }
  destruct (_ && _ && _); [split; [left|by apply Hr]|]. set (e' := match e with Some _ => e | None => _ end). specialize (IH e').
  destruct (iget_find ks e' s dev inum) as [j|[j|]].
  - destruct IH as [IH1 IH2]. split; [by right|done].
  - destruct IH as [IH1 IH2]. split; [intros k' [->|?]%elem_of_cons; [rewrite <- Hr; done|by apply IH1]|].
    destruct IH2 as [E|[H1 H2]]; [|right; split; [by right|done]]. unfold e' in E. destruct e as [j'|]; [by left|].
    destruct (Z.eqb_spec (i_ref (get_inode s k)) 0); [|done]. injection E as <-. right. split; [left|done].
  - destruct IH as (IH1 & E & IH2). split; [intros k' [->|?]%elem_of_cons; [rewrite <- Hr; done|by apply IH1]|].
    unfold e' in E. destruct e; [done|]. split; [done|]. destruct (Z.eqb_spec (i_ref (get_inode s k)) 0); [done|].
    intros k' [->|?]%elem_of_cons; [done|by apply IH2].
Qed.

Lemma upd_upd_inode j f g s : (j < length (fs_itable s))%nat -> upd_inode j f (upd_inode j g s) = upd_inode j (fun x => f (g x)) s.
Proof.
  intros Hj. unfold upd_inode, get_inode. cbn. rewrite list_lookup_insert_eq by done. cbn. by rewrite list_insert_insert_eq.
Qed.

Lemma itable_block : block_lock Lk_itable.
Proof. do 4 right. by left. Qed.

Section Dir.
Variables (fuel : nat) (d0 : Z -> list Z) (dev st ds : Z) (p : nat) (pid : Z) (spurious : Prop) (ws : list (Z * list Z)) (dp : nat).
Notation txn := (txn d0 dev st p pid ws).
Notation twp := (wp spurious (sub_rel (env d0 dev p pid spurious)) (fun s : fss => b_writes (l_b (fs_l s)) = ws)).

(** Changing the table with its lock held. *)
Lemma t_itable s a : txn s a ->
  exists s1, lift (acquire Lk_itable) s = Ok tt s1 /\ fs_itable s1 = fs_itable s /\
    forall l, exists s2, lift (release Lk_itable) (set_fs_itable l s1) = Ok tt s2 /\ txn s2 (with_inodes l a).
Proof.
  intros [(G & Hr & Hc) H2 H3 H4 H5 H6 H7]. destruct Hr as [R1 R2 R3 R4 R5]. eexists. split; [|split].
  - unfold lift. cbn. rewrite (calm_acquire p pid _ _ R1 itable_block). reflexivity.
  - done.
  - intros l. eexists. split; [unfold lift; cbn; rewrite (calm_release p pid _ _ R1 itable_block); reflexivity|].
    split; try done. exists G. split; [|done]. split; try done. by apply calm_settle.
Qed.

Lemma iget_eq s a inum : txn s a -> table_room dev inum (v_inodes a) ->
  exists j l' s', iget dev inum s = Ok j s' /\ igot dev inum (v_inodes a) j l' /\ txn s' (with_inodes l' a).
Proof.
  intros Hs [Hlen (j0 & x0 & Hj0 & Hx0)]. pose proof (t_inodes _ _ _ _ _ _ _ _ Hs) as Ei. destruct (t_itable s a Hs) as (s1 & E1 & E1' & Hrel).
  rewrite Ei in E1'. unfold iget. rewrite (bind_ok _ _ _ _ _ E1). mgo.
  assert (Hg : forall k, (k < length (v_inodes a))%nat -> v_inodes a !! k = Some (get_inode s1 k)).
  { intros k Hk. unfold get_inode. rewrite E1'. by destruct (lookup_lt_is_Some_2 _ _ Hk) as [x ->]. }
  assert (Hin : forall k, k ∈ inode_table <-> (k < length (v_inodes a))%nat) by (intros k; unfold inode_table; rewrite elem_of_seq, Hlen; lia).
  pose proof (iget_find_spec dev inum s1 inode_table None) as Hf. destruct (iget_find _ _ _ _ _) as [j|[j|]].
  - destruct Hf as [Hj Hx]. apply Hin in Hj. destruct (Hrel (<[j := set_i_ref (i_ref (get_inode s1 j) + 1) (get_inode s1 j)]> (v_inodes a))) as (s2 & E2 & H2).
    exists j. eexists _, s2. unfold inode_set. mgo. unfold upd_inode. rewrite E1'. rewrite (bind_ok _ _ _ _ _ E2). split; [done|]. split; [|exact H2].
    exists (get_inode s1 j). split; [by apply Hg|]. by left.
  - destruct Hf as [Hn [Hj|[Hj Hx]]]; [done|]. apply Hin in Hj. destruct (Hrel (<[j := fresh dev inum (get_inode s1 j)]> (v_inodes a))) as (s2 & E2 & H2).
    exists j. eexists _, s2. unfold inode_set. mgo. rewrite !upd_upd_inode by (cbn; rewrite ?length_insert; by rewrite E1').
    change (upd_inode j _ s1) with (set_fs_itable (<[j := fresh dev inum (get_inode s1 j)]> (fs_itable s1)) s1). rewrite E1', (bind_ok _ _ _ _ _ E2).
    split; [done|]. split; [|exact H2]. exists (get_inode s1 j). split; [by apply Hg|]. right. split; [done|]. split; [|done].
    intros k y Hy. pose proof (lookup_lt_Some _ _ _ Hy) as Hk. rewrite (Hg k Hk) in Hy. injection Hy as <-. apply Hn. by apply Hin.
  - exfalso. destruct Hf as (Hn & _ & Hz). assert (Hj : (j0 < length (v_inodes a))%nat) by (by eapply lookup_lt_Some).
    rewrite (Hg _ Hj) in Hj0. injection Hj0 as <-. apply Hin in Hj. destruct Hx0; [by apply (Hn j0)|by apply (Hz j0)].
Qed.

(** [iput] of a reference that is not the last one of an inode without links. *)
Lemma iput_eq s a j x (y := set_i_ref (i_ref x - 1) x) : txn s a -> v_inodes a !! j = Some x -> (i_ref x =? 1) && negb (i_valid x =? 0) && (i_nlink x =? 0) = false ->
  exists s', fs_iput (S fuel) j s = Ok tt s' /\ txn s' (with_inodes (<[j := y]> (v_inodes a)) a).
Proof.
  intros Hs Hj Hx. pose proof (t_inodes _ _ _ _ _ _ _ _ Hs) as Ei. destruct (t_itable s a Hs) as (s1 & E1 & E1' & Hrel). rewrite Ei in E1'.
  destruct (Hrel (<[j := y]> (v_inodes a))) as (s2 & E2 & H2). exists s2. split; [|done]. unfold fs_iput. rewrite (bind_ok _ _ _ _ _ E1). unfold inode_get, inode_set. mgo.
  assert (Eg : get_inode s1 j = x) by (unfold get_inode; by rewrite E1', Hj). rewrite Eg, Hx. cbn [when]. mgo. unfold upd_inode. by rewrite Eg, E1'.
Qed.

(** A directory in order, as a file. *)
Record dir_ok (a : view_) : Prop := {
  do_alloc : alloc_ok st ds a;
  do_file : file_ok dev ds dp a;
  do_holes : no_holes dp a;
  do_type : i_type (inode_at a dp) = T_DIR;
  do_size : 0 <= i_size (inode_at a dp) <= MAXFILE * BSIZE;
  do_whole : i_size (inode_at a dp) mod DIRENT_SIZE = 0;
  do_held : v_held a = ∅
}.

Notation size a := (i_size (inode_at a dp)).
Notation listing a := (entries (vbyte a dp) (size a)).
Definition dir_of (a : view_) : dir := dir_map (listing a).

Lemma dir_ds a : alloc_ok st ds a -> 0 < ds.
Proof. intros Ha. destruct (ly_log _ _ _ (ao_layout _ _ _ Ha)). pose proof LOGSIZE_eq. lia. Qed.

Lemma dir_offset a i : dir_ok a -> DIRENT_SIZE * Z.of_nat i < size a <-> (i < length (listing a))%nat.
Proof.
  intros [_ _ _ _ Hs Hm _]. rewrite length_entries. change DIRENT_SIZE with 16 in *. dlia.
Qed.

Lemma read_entry s a i : txn s a -> dir_ok a -> room 4 a -> (i < length (listing a))%nat ->
  twp (fun r s' => txn s' a /\ exists e, listing a !! i = Some e /\ r = (DIRENT_SIZE, e)) (readi (S fuel) dp Dkernel (DIRENT_SIZE * Z.of_nat i) DIRENT_SIZE s).
Proof.
  intros Hs Hd Hr Hi. pose proof Hd as [D1 D2 D3 D4 D5 D6 D7]. assert (Hmax : MAXFILE * BSIZE = 274432) by done. pose proof (proj2 (dir_offset a i Hd) Hi) as Hlt.
  rewrite length_entries in Hi. change DIRENT_SIZE with 16 in *.
  eapply wp_mono; [apply (readi_wp fuel d0 dev st ds p pid spurious ws dp (dir_ds a D1) s a (16 * Z.of_nat i) 16); try done; lia|].
  intros r s' [H ->]. split; [done|]. exists (entry (vbyte a dp) (Z.of_nat i)). split; [apply entries_lookup; [lia|exact Hi]|].
  assert (16 * Z.of_nat i + 16 <= size a) by (revert D6 Hlt; intros; dlia).
  rewrite Z.gtb_ltb, (proj2 (Z.ltb_ge _ _)), (proj2 (Z.leb_gt _ _)), Z.min_l by lia. done.
Qed.

(** The loops, from entry [i] on. *)
Lemma dirlookup_loop_wp name k : forall i s a,
  txn s a -> dir_ok a -> room 4 a -> (i <= length (listing a) <= i + k)%nat ->
  (forall j e, dir_find name (drop i (listing a)) = Some j -> listing a !! (i + j)%nat = Some e -> table_room dev (de_inum e) (v_inodes a)) ->
  twp (fun r s' => match dir_find name (drop i (listing a)) with
         | None => r = None /\ txn s' a
         | Some j => exists e q l', listing a !! (i + j)%nat = Some e /\ r = Some (q, DIRENT_SIZE * Z.of_nat (i + j)) /\
             igot dev (de_inum e) (v_inodes a) q l' /\ txn s' (with_inodes l' a)
         end) (dirlookup_loop (S fuel) k dp name (DIRENT_SIZE * Z.of_nat i) s).
Proof.
  induction k as [|k IH]; intros i s a Hs Hd Hr Hi Hroom; cbn [dirlookup_loop]; unfold inode_get; mgo; rewrite (inode_at_get d0 dev st p pid ws dp s a Hs).
  all: destruct (Z.ltb_spec (DIRENT_SIZE * Z.of_nat i) (size a)) as [Hlt|Hge]; cbn [negb].
  - apply (dir_offset a i Hd) in Hlt. lia.
  - by rewrite drop_ge by lia.
  - apply (dir_offset a i Hd) in Hlt as Hlen. eapply wp_call; [by apply read_entry|]. intros r s1 (H1 & e & He & ->). cbn [fst snd]. rewrite Z.eqb_refl. cbn [negb].
    assert (Hmax : MAXFILE * BSIZE = 274432) by done. pose proof (do_size a Hd).
    assert (Hnext : u32 (DIRENT_SIZE * Z.of_nat i + DIRENT_SIZE) = DIRENT_SIZE * Z.of_nat (S i)).
    { change DIRENT_SIZE with 16 in *. unfold u32. rewrite Z.mod_small; lia. }
    rewrite Hnext, namecmp_key. rewrite (drop_S _ _ _ He) in *. cbn [dir_find] in *.
    assert (Hrest : negb (de_inum e =? 0) && bool_decide (key name = key (de_name e)) = false -> twp (fun r s' => match S <$> dir_find name (drop (S i) (listing a)) with
         | None => r = None /\ txn s' a
         | Some j => exists e q l', listing a !! (i + j)%nat = Some e /\ r = Some (q, DIRENT_SIZE * Z.of_nat (i + j)) /\
             igot dev (de_inum e) (v_inodes a) q l' /\ txn s' (with_inodes l' a)
         end) (dirlookup_loop (S fuel) k dp name (DIRENT_SIZE * Z.of_nat (S i)) s1)).
    { intros Hb. rewrite Hb in Hroom. eapply wp_mono; [apply (IH (S i) s1 a); try done; [lia|]|].
      - intros j e' Hj He'. apply (Hroom (S j)); [by rewrite Hj|]. by replace (i + S j)%nat with (S i + j)%nat by lia.
      - intros r s' Hr'. destruct (dir_find name (drop (S i) (listing a))) as [j|]; [|done]. cbn [fmap option_fmap option_map].
        by replace (i + S j)%nat with (S i + j)%nat by lia. }
    destruct (de_inum e =? 0); cbn [negb andb] in *; [by apply Hrest|]. destruct (bool_decide _); [|by apply Hrest].
    mgo. rewrite (inode_at_get d0 dev st p pid ws dp s1 a H1), (fo_dev _ _ _ _ (do_file a Hd)).
    destruct (iget_eq s1 a (de_inum e) H1) as (q & l' & s2 & E2 & Hq & H2); [by apply (Hroom 0%nat); [|rewrite Nat.add_0_r]|].
    eapply wp_bind_ok; [exact E2|]. exists e, q, l'. by rewrite Nat.add_0_r.
  - by rewrite drop_ge by (rewrite <- Nat.nlt_ge, <- (dir_offset a i Hd); lia).
Qed.

Lemma dirlink_find_wp k : forall i s a,
  txn s a -> dir_ok a -> room 4 a -> (i <= length (listing a) <= i + k)%nat ->
  twp (fun r s' => r = DIRENT_SIZE * Z.of_nat (i + dir_free (drop i (listing a))) /\ txn s' a) (dirlink_find (S fuel) k dp (DIRENT_SIZE * Z.of_nat i) s).
Proof.
  induction k as [|k IH]; intros i s a Hs Hd Hr Hi; cbn [dirlink_find]; unfold inode_get; mgo; rewrite (inode_at_get d0 dev st p pid ws dp s a Hs).
  all: destruct (Z.ltb_spec (DIRENT_SIZE * Z.of_nat i) (size a)) as [Hlt|Hge]; cbn [negb].
  - apply (dir_offset a i Hd) in Hlt. lia.
  - rewrite drop_ge by lia. cbn. by rewrite Nat.add_0_r.
  - apply (dir_offset a i Hd) in Hlt as Hlen. eapply wp_call; [by apply read_entry|]. intros r s1 (H1 & e & He & ->). cbn [fst snd]. rewrite Z.eqb_refl. cbn [negb].
    rewrite (drop_S _ _ _ He). cbn [dir_free]. destruct (de_inum e =? 0); [cbn; by rewrite Nat.add_0_r|].
    replace (DIRENT_SIZE * Z.of_nat i + DIRENT_SIZE) with (DIRENT_SIZE * Z.of_nat (S i)) by lia.
    eapply wp_mono; [apply (IH (S i) s1 a); try done; lia|]. intros r s' [-> H]. split; [|done]. do 2 f_equal. lia.
  - rewrite drop_ge by (rewrite <- Nat.nlt_ge, <- (dir_offset a i Hd); lia). cbn. by rewrite Nat.add_0_r.
Qed.

Lemma dirlookup_wp name s a :
  txn s a -> dir_ok a -> room 4 a -> (forall inum, dir_of a !! key name = Some inum -> table_room dev inum (v_inodes a)) ->
  twp (fun r s' => match dir_of a !! key name with
         | None => r = None /\ txn s' a
         | Some inum => exists i e q l', listing a !! i = Some e /\ de_inum e = inum /\ key (de_name e) = key name /\
             r = Some (q, DIRENT_SIZE * Z.of_nat i) /\ igot dev inum (v_inodes a) q l' /\ txn s' (with_inodes l' a)
         end) (dirlookup (S fuel) dp name s).
Proof.
  intros Hs Hd Hr Hroom. unfold dirlookup, inode_get. mgo. rewrite (inode_at_get d0 dev st p pid ws dp s a Hs), (do_type a Hd). cbn [Z.eqb Pos.eqb negb T_DIR].
  unfold dir_of in *. rewrite dir_map_find in *. eapply wp_mono; [apply (dirlookup_loop_wp name _ 0 s a); try done|].
  - rewrite length_entries. pose proof (do_size a Hd). pose proof (Z.div_pos (size a) DIRENT_SIZE ltac:(lia) eq_refl). lia.
  - rewrite drop_0. intros j e Hj He. apply Hroom. rewrite Hj. cbn in *. by rewrite He.
  - rewrite drop_0. intros r s' H. destruct (dir_find name (listing a)) as [j|] eqn:Ej; cbn; [|done].
    destruct H as (e & q & l' & He & -> & Hq & H'). cbn [Nat.add] in *. rewrite He. cbn. destruct (dir_find_some _ _ _ Ej) as (e' & He' & _ & Hk).
    rewrite He in He'. injection He' as <-. by exists j, e, q, l'.
Qed.

(** What [dirlink] needs besides: room in the log, on the disk and in the directory. *)
Record link_ready (a : view_) : Prop := {
  lr_iblock : iblock_ok st ds dp a;
  lr_dinode : dinode_ok (inode_dinode (inode_at a dp));
  lr_inum : 0 <= i_inum (inode_at a dp);
  lr_map : sb_size (v_sb a) <= BPB;
  lr_room : room 11 a;
  lr_spare : spare 2 a;
  lr_fits : size a + DIRENT_SIZE <= MAXFILE * BSIZE
}.

(** The table of inodes after a reference was taken and given back. *)
Definition same_live (inum : Z) (l l' : list inode) : Prop :=
  l' = l \/ exists q x, l !! q = Some x /\ i_ref x = 0 /\ l' = <[q := set_i_ref 0 (fresh dev inum x)]> l.

(** An entry written to the directory. *)
Lemma link_written name inum a a' (i := dir_free (listing a)) :
  dir_ok a -> link_ready a -> 0 < inum < 2 ^ 16 -> dir_of a !! key name = None -> alloc_ok st ds a' -> file_ok dev ds dp a' ->
  written ds dp (DIRENT_SIZE * Z.of_nat i) (new_entry name inum) a a' -> dir_ok a' /\ dir_of a' = <[key name := inum]> (dir_of a).
Proof.
  intros Hd Hl Hi Hn Ha' Hf' Hw. pose proof Hd as [D1 D2 D3 D4 D5 D6 D7]. destruct (new_entry_ok name inum ltac:(lia)) as (N1 & N2 & N3).
  destruct (w_inode _ _ _ _ _ _ Hw) as [l El]. pose proof (dir_free_le (listing a)) as Hle. fold i in Hle.
  assert (Hoff : DIRENT_SIZE * Z.of_nat i <= size a) by (rewrite length_entries in Hle; change DIRENT_SIZE with 16 in *; dlia).
  assert (Es : size a' = Z.max (size a) (DIRENT_SIZE * Z.of_nat i + DIRENT_SIZE)) by (rewrite El, N1; done).
  pose proof (lr_fits a Hl). split.
  - split; try done; [by apply (w_no_holes _ _ _ _ _ _ Hw)|by rewrite El|lia| |by rewrite (w_held _ _ _ _ _ _ Hw)].
    rewrite Es. change DIRENT_SIZE with 16 in *. dlia.
  - unfold dir_of. rewrite Es, (entries_ext _ (over (vbyte a dp) (DIRENT_SIZE * Z.of_nat i) (new_entry name inum))).
    + rewrite entries_over by (done || lia). rewrite <- N2 at 2. apply (dir_map_add name); [done|lia|done].
    + intros j Hj. apply (w_bytes _ _ _ _ _ _ Hw). lia.
Qed.

Lemma dirlink_wp name inum s a :
  txn s a -> dir_ok a -> link_ready a -> 0 < inum < 2 ^ 16 -> (forall old, dir_of a !! key name = Some old -> table_room dev old (v_inodes a)) ->
  twp (fun r s' => match dir_of a !! key name with
         | Some old => r = -1 /\ exists l', same_live old (v_inodes a) l' /\ txn s' (with_inodes l' a)
         | None => r = 0 /\ exists a', txn s' a' /\ dir_ok a' /\ dir_of a' = <[key name := inum]> (dir_of a) /\
             written ds dp (DIRENT_SIZE * Z.of_nat (dir_free (listing a))) (new_entry name inum) a a'
         end) (dirlink (S fuel) dp name inum s).
Proof.
  intros Hs Hd Hl Hi Hroom. pose proof Hd as [D1 D2 D3 D4 D5 D6 D7]. pose proof Hl as [L1 L2 L3 L4 L5 L6 L7]. assert (Hr : room 4 a) by (unfold room in *; lia).
  unfold dirlink. eapply wp_call; [by apply (dirlookup_wp name)|]. intros r s1 H1. destruct (dir_of a !! key name) as [old|] eqn:En.
  - destruct H1 as (i & e & q & l' & _ & _ & _ & -> & (x & Hx & Hq) & H1). pose proof (lookup_lt_Some _ _ _ Hx) as Hql.
    assert (exists y, l' = <[q := y]> (v_inodes a) /\ (i_ref y =? 1) && negb (i_valid y =? 0) && (i_nlink y =? 0) = false /\ same_live old (v_inodes a) (<[q := set_i_ref (i_ref y - 1) y]> l')) as (y & -> & Hy & Hsame).
    { destruct Hq as [[(R1 & R2 & R3) ->]|(R1 & _ & ->)]; eexists; (split; [reflexivity|]); cbn.
      - split; [by rewrite (proj2 (Z.eqb_neq _ _)) by lia|]. left. rewrite list_insert_insert_eq. apply list_insert_id. rewrite Hx. f_equal.
        destruct x. unfold set_i_ref. cbn. f_equal. lia.
      - split; [done|]. right. exists q, x. by rewrite list_insert_insert_eq. }
    destruct (iput_eq s1 _ q y H1) as (s2 & E2 & H2); [by apply list_lookup_insert_eq|done|]. eapply wp_bind_ok; [exact E2|]. split; [done|]. eexists. split; [exact Hsame|exact H2].
  - destruct H1 as [-> H1]. unfold inode_get. mgo. rewrite (inode_at_get d0 dev st p pid ws dp s1 a H1). eapply wp_call; [apply (dirlink_find_wp _ 0 s1 a); try done|].
    { rewrite length_entries. pose proof (Z.div_pos (size a) DIRENT_SIZE ltac:(lia) eq_refl). lia. }
    intros r s2 [-> H2]. rewrite drop_0. cbn [Nat.add]. set (i := dir_free (listing a)). destruct (new_entry_ok name inum ltac:(lia)) as (N1 & N2 & N3).
    pose proof (dir_free_le (listing a)) as Hle. fold i in Hle. assert (Hmax : MAXFILE * BSIZE = 274432) by done.
    assert (Hoff : DIRENT_SIZE * Z.of_nat i <= size a) by (rewrite length_entries in Hle; change DIRENT_SIZE with 16 in *; dlia).
    fold (new_entry name inum). assert (Hn : Z.of_nat (length (new_entry name inum)) = DIRENT_SIZE) by (by rewrite N1).
    pose proof (writei_wp fuel d0 dev st ds p pid spurious ws dp (dir_ds a D1) s2 a (DIRENT_SIZE * Z.of_nat i) (new_entry name inum) H2) as W.
    rewrite Hn in W. change DIRENT_SIZE with 16 in *. specialize (W ltac:(lia) ltac:(lia) ltac:(lia)).
    rewrite Z.gtb_ltb, (proj2 (Z.ltb_ge _ _)), (proj2 (Z.ltb_ge _ _)) in W by lia. cbn [orb] in W.
    pose proof (nblocks_entry i) as Hnb. change DIRENT_SIZE with 16 in Hnb.
    eapply wp_call; [apply W; split; try done; rewrite Hnb; done|]. intros r s3 (-> & a' & H3 & Ha' & Hf' & Hw). change (16 =? 16) with true. cbn [negb].
    split; [done|]. exists a'. split; [done|]. destruct (link_written name inum a a') as [G1 G2]; done.
Qed.
End Dir.

Lemma length_others {A} j (l l' : list A) : (j < length l)%nat -> (j < length l')%nat -> (forall k, k <> j -> l' !! k = l !! k) -> length l' = length l.
Proof.
  intros H H' Hk. destruct (Nat.lt_trichotomy (length l') (length l)) as [Hlt|[|Hlt]]; [|done|].
  - destruct (lookup_lt_is_Some_2 l _ Hlt) as [x Hx]. rewrite <- (Hk (length l')), lookup_ge_None_2 in Hx by lia. done.
  - destruct (lookup_lt_is_Some_2 l' _ Hlt) as [x Hx]. rewrite (Hk (length l)), lookup_ge_None_2 in Hx by lia. done.
Qed.

Lemma igot_refers dev inum l j l' : igot dev inum l j l' -> exists x, l' !! j = Some x /\ refers dev inum x.
Proof.
  intros (x & Hx & H). pose proof (lookup_lt_Some _ _ _ Hx). destruct H as [[(R1 & R2 & R3) ->]|(_ & _ & ->)]; rewrite list_lookup_insert_eq by done.
  - eexists. split; [done|]. repeat split; cbn; lia || done.
  - eexists. split; [done|]. by repeat split.
Qed.

Lemma written_room dev inum ds dp off bytes a a' : written ds dp off bytes a a' -> (dp < length (v_inodes a'))%nat ->
  table_room dev inum (v_inodes a) -> length (v_inodes a') = length (v_inodes a) -> table_room dev inum (v_inodes a').
Proof.
  intros Hw Hdp [Hlen (j & x & Hj & Hx)] Hl. split; [lia|]. destruct (decide (j = dp)) as [->|Hne].
  - destruct (w_inode _ _ _ _ _ _ Hw) as [l El]. unfold inode_at in El. rewrite Hj in El. cbn in El. exists dp.
    destruct (lookup_lt_is_Some_2 _ _ Hdp) as [y Hy]. rewrite Hy in El. cbn in El. exists y. split; [done|]. by subst y.
  - exists j, x. by rewrite (w_others _ _ _ _ _ _ Hw).
Qed.

(** C10. [dirlookup] is the lookup of the map that the directory stands for: a name that is
    not in it is not found and nothing changes; for a name that is, the result is the
    offset of its entry and an entry of the table of inodes that refers to its inode, with
    one more reference. *)
Theorem dirlookup_correct (fuel : nat) (d0 : Z -> list Z) (dev st ds : Z) (p : nat) (pid : Z) (spurious : Prop) (ws : list (Z * list Z)) (dp : nat)
    (name : list Z) (s : fss) (a : view_) :
  txn d0 dev st p pid ws s a -> dir_ok dev st ds dp a -> room 4 a ->
  (forall inum, dir_of dp a !! key name = Some inum -> table_room dev inum (v_inodes a)) ->
  wp spurious (sub_rel (env d0 dev p pid spurious)) (fun s' => b_writes (l_b (fs_l s')) = ws)
    (fun r s' => match dir_of dp a !! key name with
       | None => r = None /\ txn d0 dev st p pid ws s' a
       | Some inum => exists i e q l', entries (vbyte a dp) (i_size (inode_at a dp)) !! i = Some e /\ de_inum e = inum /\ key (de_name e) = key name /\
           r = Some (q, DIRENT_SIZE * Z.of_nat i) /\ igot dev inum (v_inodes a) q l' /\ txn d0 dev st p pid ws s' (with_inodes l' a)
       end) (dirlookup (S fuel) dp name s).
Proof. apply dirlookup_wp. Qed.

(** What [dirlink] enters [dirlookup] finds: after [dirlink] of a name that the directory
    does not have, the map has the name in addition, the directory is in order, and
    looking the name up gives an entry of the table that refers to the inode. *)
Theorem dirlink_dirlookup (fuel : nat) (d0 : Z -> list Z) (dev st ds : Z) (p : nat) (pid : Z) (spurious : Prop) (ws : list (Z * list Z)) (dp : nat)
    (name : list Z) (inum : Z) (s : fss) (a : view_) :
  txn d0 dev st p pid ws s a -> dir_ok dev st ds dp a -> link_ready st ds dp a -> 0 < inum < 2 ^ 16 ->
  dir_of dp a !! key name = None -> table_room dev inum (v_inodes a) ->
  wp spurious (sub_rel (env d0 dev p pid spurious)) (fun s' => b_writes (l_b (fs_l s')) = ws)
    (fun r s' => exists q off x l' a', r = Some (q, off) /\ l' !! q = Some x /\ refers dev inum x /\
       txn d0 dev st p pid ws s' (with_inodes l' a') /\ dir_ok dev st ds dp a' /\ dir_of dp a' = <[key name := inum]> (dir_of dp a))
    ((dirlink (S fuel) dp name inum ;;; dirlookup (S fuel) dp name) s).
Proof.
  intros Hs Hd Hl Hi Hn Hroom. eapply wp_call; [by apply (dirlink_wp fuel d0 dev st ds p pid spurious ws dp name inum s a); [..|rewrite Hn]|].
  rewrite Hn. intros r s1 (_ & a1 & H1 & Hd1 & Em & Hw).
  assert (Hr : room 4 a1).
  { pose proof (w_log _ _ _ _ _ _ Hw) as HL. pose proof (lr_room _ _ _ _ Hl) as Hr. destruct (new_entry_ok name inum ltac:(lia)) as (N1 & _).
    rewrite N1, Z2Nat.id, nblocks_entry in HL by done. unfold room in *. rewrite (w_held _ _ _ _ _ _ Hw). lia. }
  assert (Ef : dir_of dp a1 !! key name = Some inum) by (by rewrite Em, lookup_insert_eq).
  assert (Hroom1 : table_room dev inum (v_inodes a1)).
  { pose proof (fo_ip _ _ _ _ (do_file _ _ _ _ _ Hd)). pose proof (fo_ip _ _ _ _ (do_file _ _ _ _ _ Hd1)).
    apply (written_room dev inum ds dp _ _ a a1 Hw); [done|done|]. apply (length_others dp); [done|done|apply (w_others _ _ _ _ _ _ Hw)]. }
  eapply wp_mono; [apply (dirlookup_wp fuel d0 dev st ds p pid spurious ws dp name s1 a1); try done; by rewrite Ef; intros ? [= <-]|].
  rewrite Ef. intros r' s' (i & e & q & l' & _ & _ & _ & -> & Hg & H'). destruct (igot_refers _ _ _ _ _ Hg) as (x & Hx & Hrx).
  by exists q, (DIRENT_SIZE * Z.of_nat i), x, l', a1.
Qed.

(** ** On the disk *)

(** The directory with inode number [dnum] on the disk [D] stands for the map [m]. *)
Definition dir_is (D : Z -> list Z) (sb : superblock) (dnum : Z) (m : dir) : Prop :=
  let di := disk_inode D sb dnum in dir_map (entries (fbyte D (set_i_addrs (di_addrs di) inode_zero)) (di_size di)) = m.

Lemma file_is_dir D sb dnum size f : file_is D sb dnum size f -> size <= MAXFILE * BSIZE -> dir_is D sb dnum (dir_map (entries f size)).
Proof. intros [Es Hf] Hs. unfold dir_is. rewrite Es. f_equal. apply entries_ext. intros i Hi. apply Hf. lia. Qed.

Section Crash.
Context {dev st ds : Z} {dp : nat} {a : view_} (x := inode_at a dp).
Context (Hd : dir_ok dev st ds dp a) (Hl : link_ready st ds dp a) (Hx : disk_inode (v_disk a) (v_sb a) (i_inum x) = inode_dinode x).

Lemma old_dir D : (forall b, home st b -> D b = v_disk a b) -> dir_is D (v_sb a) (i_inum x) (dir_of dp a).
Proof.
  intros HD. apply file_is_dir; [|apply (do_size _ _ _ _ _ Hd)].
  apply (file_is_view dev st ds dp a); try done; [apply Hd|apply Hd|apply (ib_home _ _ _ _ (lr_iblock _ _ _ _ Hl))].
Qed.

Lemma new_dir name inum a' D (off := DIRENT_SIZE * Z.of_nat (dir_free (entries (vbyte a dp) (i_size x)))) :
  i_inum x < 2 ^ 32 -> dir_ok dev st ds dp a' -> written ds dp off (new_entry name inum) a a' -> (forall b, home st b -> D b = v_disk a' b) ->
  ((forall b, home st b -> elsewhere ds dp a b -> D b = v_disk a b) /\ other_inodes st ds dp a D) /\ dir_is D (v_sb a) (i_inum x) (dir_of dp a').
Proof.
  intros Hlt Hd' Hw HD. pose proof (ib_home _ _ _ _ (lr_iblock _ _ _ _ Hl)) as Hib. destruct (w_inode _ _ _ _ _ _ Hw) as [l El].
  destruct (written_disk dev st ds dp off (new_entry name inum) a a' D) as [W1 _]; try done; [apply Hd'|apply Hd'|]. split; [done|].
  assert (Ei : i_inum (inode_at a' dp) = i_inum x) by (by rewrite El). unfold x in *.
  pose proof (file_is_view dev st ds dp a' D (vbyte a' dp) (do_alloc _ _ _ _ _ Hd') (do_file _ _ _ _ _ Hd')) as H.
  rewrite Ei, (w_sb _ _ _ _ _ _ Hw) in H. apply file_is_dir; [|apply (do_size _ _ _ _ _ Hd')]. apply H; try done. apply (w_dinode _ _ _ _ _ _ Hw).
Qed.
End Crash.

(** C3. Entering a name in a directory is atomic with respect to crashes.  From a quiet file
    system, [begin_op], [dirlink] and [end_op] refuse a name that is there and otherwise add
    it; whenever the machine stops, after recovery the directory on the disk stands for
    the old map or for the new one, and the blocks that do not belong to the directory and
    the other inodes are as before; at the end it stands for the new one. *)
Theorem dirlink_crash_safe (fuel : nat) (d0 : Z -> list Z) (dev st ds : Z) (p : nat) (pid : Z) (spurious : Prop) (ws : list (Z * list Z))
    (dp : nat) (name : list Z) (inum : Z) (s : fss) (a := view_of d0 ws s) (x := inode_at a dp)
    (m := dir_of dp a) (m' := match m !! key name with Some _ => m | None => <[key name := inum]> m end) :
  fs_quiet d0 dev st p pid ws s -> disk_inode (dblock d0 ws) (fs_sb s) (i_inum x) = inode_dinode x ->
  dir_ok dev st ds dp a -> link_ready st ds dp a -> i_inum x < 2 ^ 32 -> 0 < inum < 2 ^ 16 -> (forall old, m !! key name = Some old -> table_room dev old (fs_itable s)) ->
  wp spurious (sub_rel (env d0 dev p pid spurious))
    (fun s' => let D := recovered st (dblock d0 (b_writes (l_b (fs_l s')))) in
       (forall b, home st b -> elsewhere ds dp a b -> D b = dblock d0 ws b) /\ other_inodes st ds dp a D /\ (dir_is D (fs_sb s) (i_inum x) m \/ dir_is D (fs_sb s) (i_inum x) m'))
    (fun r s' => r = (if m !! key name then -1 else 0) /\ exists ws', fs_quiet d0 dev st p pid ws' s' /\
       (forall b, home st b -> elsewhere ds dp a b -> dblock d0 ws' b = dblock d0 ws b) /\ other_inodes st ds dp a (dblock d0 ws') /\ dir_is (dblock d0 ws') (fs_sb s) (i_inum x) m')
    ((lift (log_begin_op fuel) ;;; r <- dirlink (S fuel) dp name inum ;; lift (log_end_op (S fuel)) ;;; ret r) s).
Proof.
  intros Hq Hx Hd Hl Hin Hi Hroom.
  set (V (r : Z) (a' : view_) := r = (if m !! key name then -1 else 0) /\
    forall D, (forall b, home st b -> D b = v_disk a' b) ->
      (forall b, home st b -> elsewhere ds dp a b -> D b = dblock d0 ws b) /\ other_inodes st ds dp a D /\ dir_is D (fs_sb s) (i_inum x) m').
  eapply wp_weaken; [done| |eapply wp_mono; [apply (transaction_wp fuel d0 dev st p pid spurious s ws _ V Hq)|]].
  - intros s' [Hold|(a' & (r & _ & HV) & HD)]; cbn zeta; [|destruct (HV _ HD) as (N1 & N2 & N3); split; [done|]; split; [done|by right]].
    split; [intros b Hb _; by apply Hold|]. split; [by apply other_inodes_same|]. left. by apply (old_dir Hd Hl Hx).
  - intros s1 H1. eapply wp_mono; [by apply (dirlink_wp fuel d0 dev st ds p pid spurious ws dp name inum s1 a)|].
    intros r s' H. unfold V, m'. fold m in H. destruct (m !! key name) as [old|] eqn:Em.
    + destruct H as (-> & l' & _ & H'). exists (with_inodes l' a). split; [done|]. split; [done|]. split; [done|]. intros D HD. split; [by intros; apply HD|]. split; [by apply other_inodes_same|].
      by apply (old_dir Hd Hl Hx).
    + destruct H as (-> & a' & H' & Hd' & Edir & Hw). exists a'. split; [done|]. split; [apply Hd'|]. split; [done|]. intros D HD.
      destruct (new_dir Hl name inum a' D Hin Hd' Hw HD) as [[N1 N2] N3]. split; [done|]. split; [done|]. by rewrite Edir in N3.
  - intros r s' (ws' & a' & [-> HV] & Hq' & _ & _ & HD). split; [done|]. exists ws'. split; [done|]. by apply HV.
Qed.

(** ** A file system with one directory *)

(** The layout of mkfs; the root directory has its two entries in block 46. *)
Definition demo_root : inode := mk_inode 1 1 1 (mk_sleeplock 0 "inode" 0) 1 T_DIR 0 0 1 32 (46 :: replicate 12 0).
Definition demo_entries : list Z := new_entry [46] 1 ++ new_entry [46; 46] 1 ++ replicate 992 0.
Definition demo_dir_disk (sector : Z) : list Z :=
  if sector =? 2 * 45 then demo_map
  else if sector =? 2 * 32 then splice zeros 64 (encode_dinode (inode_dinode demo_root))
  else if sector =? 2 * 46 then demo_entries else zeros.
Definition demo_dir_fs : fss := mk_fss demo_boot (demo_root :: replicate 49 inode_zero) demo_sb.
Notation demo_dir_view := (view_of demo_dir_disk [] demo_dir_fs).

Lemma demo_dir_quiet : fs_quiet demo_dir_disk 1 2 0 1 [] demo_dir_fs.
Proof.
  split; try done. apply demo_boot_rep. intros sec. unfold demo_dir_disk. by repeat destruct (_ =? _).
Qed.

Lemma demo_dir_used b : 0 <= b < 1000 -> used (dblock demo_dir_disk []) demo_sb b = (b <? 47).
Proof.
  intros Hb. rewrite <- demo_used by done. unfold used, BBLOCK, demo_sb, sb_bmapstart. by rewrite Z.div_small by (change BPB with 8192; lia).
Qed.

Lemma demo_dir_slot k : 0 <= k < NSLOT -> vslot demo_dir_view 0 k = if k =? 0 then 46 else 0.
Proof. intros Hk. rewrite <- demo_slot by done. apply slot_ext; [done|]. by intros []. Qed.

Lemma demo_dir_ok : dir_ok 1 2 46 0 demo_dir_view.
Proof.
  split; try done.
  - split; [split; by vm_compute| |done]. intros b Hb. change (used (dblock demo_dir_disk []) demo_sb b = true). rewrite demo_dir_used by lia. apply Z.ltb_lt. lia.
  - split; try done; [cbn; lia| |].
    + intros k Hk. rewrite demo_dir_slot by done. destruct (k =? 0); [|done]. intros _. split; [by vm_compute|]. by apply demo_dir_used.
    + intros j k Hj Hk. rewrite !demo_dir_slot by done. destruct (Z.eqb_spec j 0), (Z.eqb_spec k 0); try done. by subst.
  - intros bn Hbn Hlt. change (i_size (inode_at demo_dir_view 0)) with 32 in Hlt. change BSIZE with 1024 in Hlt. by replace bn with 0 by lia.
Qed.

Lemma demo_link_ready : link_ready 2 46 0 demo_dir_view.
Proof.
  split; try done.
  - assert (E : IBLOCK (i_inum (inode_at demo_dir_view 0)) (v_sb demo_dir_view) = 32) by (by vm_compute).
    split; rewrite E; [pose proof LOGSIZE_eq; unfold home; lia|lia|]. intros (c & Hc & E'). cbn [sb_size v_sb view_of fs_sb demo_dir_fs demo_sb] in Hc.
    revert E'. unfold BBLOCK. rewrite Z.div_small by (change BPB with 8192; lia). by vm_compute.
  - by repeat split; try apply Forall_cons; repeat constructor.
  - unfold room. by vm_compute; lia.
  - exists [47; 48]. split; [by repeat constructor; set_solver|]. split; [done|]. repeat constructor; by vm_compute.
Qed.

Lemma demo_table inum : table_room 1 inum (v_inodes demo_dir_view).
Proof. split; [done|]. exists 1%nat, inode_zero. split; [done|]. by right. Qed.

Lemma demo_dir_map : dir_of 0 demo_dir_view = <[[46] := 1]> (<[[46; 46] := 1]> ∅).
Proof. by vm_compute. Qed.

Lemma dirlookup_correct_witness : exists s,
  lift (log_begin_op 0) demo_dir_fs = Ok tt s /\
  wp False (sub_rel (env demo_dir_disk 1 0 1 False)) (fun s' => b_writes (l_b (fs_l s')) = [])
    (fun r s' => exists q l', r = Some (q, 16) /\ igot 1 1 (v_inodes demo_dir_view) q l' /\ txn demo_dir_disk 1 2 0 1 [] s' (with_inodes l' demo_dir_view))
    (dirlookup 1 0 [46; 46] s).
Proof.
  destruct (begin_op_eq 0 demo_dir_disk 1 2 0 1 demo_dir_fs [] demo_dir_quiet) as (s & E & Hs). exists s. split; [exact E|].
  eapply wp_mono; [apply (dirlookup_correct 0 demo_dir_disk 1 2 46 0 1 False [] 0 [46; 46] s demo_dir_view Hs demo_dir_ok)|].
  - unfold room. vm_compute. lia.
  - intros inum _. apply demo_table.
  - rewrite demo_dir_map. change (key [46; 46]) with [46; 46]. rewrite lookup_insert_ne, lookup_insert_eq by done.
    intros r s' (i & e & q & l' & Hi & _ & Hk & -> & Hg & H). exists q, l'. split; [|exact (conj Hg H)].
    assert (Hl : entries (vbyte demo_dir_view 0) (i_size (inode_at demo_dir_view 0)) = [new_entry [46] 1; new_entry [46; 46] 1]) by (by vm_compute).
    rewrite Hl in Hi. destruct i as [|[|i]]; [|done|done]. injection Hi as <-. done.
Defined.

Lemma dirlink_dirlookup_witness : exists s,
  lift (log_begin_op 0) demo_dir_fs = Ok tt s /\
  wp False (sub_rel (env demo_dir_disk 1 0 1 False)) (fun s' => b_writes (l_b (fs_l s')) = [])
    (fun r s' => exists q off x l' a', r = Some (q, off) /\ l' !! q = Some x /\ refers 1 7 x /\
       txn demo_dir_disk 1 2 0 1 [] s' (with_inodes l' a') /\ dir_ok 1 2 46 0 a' /\ dir_of 0 a' = <[[104; 105] := 7]> (dir_of 0 demo_dir_view))
    ((dirlink 1 0 [104; 105] 7 ;;; dirlookup 1 0 [104; 105]) s).
Proof.
  destruct (begin_op_eq 0 demo_dir_disk 1 2 0 1 demo_dir_fs [] demo_dir_quiet) as (s & E & Hs). exists s. split; [exact E|].
  apply (dirlink_dirlookup 0 demo_dir_disk 1 2 46 0 1 False [] 0 [104; 105] 7 s demo_dir_view Hs demo_dir_ok demo_link_ready).
  - lia.
  - rewrite demo_dir_map. reflexivity.
  - apply demo_table.
Defined.

Lemma dirlink_crash_safe_witness :
  let m := <[[46] := 1]> (<[[46; 46] := 1]> ∅) in
  wp False (sub_rel (env demo_dir_disk 1 0 1 False))
    (fun s' => let D := recovered 2 (dblock demo_dir_disk (b_writes (l_b (fs_l s')))) in
       (forall b, home 2 b -> elsewhere 46 0 demo_dir_view b -> D b = dblock demo_dir_disk [] b) /\ other_inodes 2 46 0 demo_dir_view D /\
       (dir_is D demo_sb 1 m \/ dir_is D demo_sb 1 (<[[104; 105] := 7]> m)))
    (fun r s' => r = 0 /\ exists ws', fs_quiet demo_dir_disk 1 2 0 1 ws' s' /\
       (forall b, home 2 b -> elsewhere 46 0 demo_dir_view b -> dblock demo_dir_disk ws' b = dblock demo_dir_disk [] b) /\ other_inodes 2 46 0 demo_dir_view (dblock demo_dir_disk ws') /\
       dir_is (dblock demo_dir_disk ws') demo_sb 1 (<[[104; 105] := 7]> m))
    ((lift (log_begin_op 0) ;;; r <- dirlink 1 0 [104; 105] 7 ;; lift (log_end_op 1) ;;; ret r) demo_dir_fs).
Proof.
  pose proof (dirlink_crash_safe 0 demo_dir_disk 1 2 46 0 1 False [] 0 [104; 105] 7 demo_dir_fs demo_dir_quiet ltac:(by vm_compute) demo_dir_ok demo_link_ready ltac:(by vm_compute) ltac:(lia)
    (fun old _ => demo_table old)) as H.
  rewrite demo_dir_map in H. exact H.
Defined.
