(* ===== verification/FsTrunc.v ===== *)
(** * Truncation: itrunc and iput of kernel/fs.c

    [itrunc] frees every block of a file and nothing else, and leaves an empty file. *)
From stdpp Require Import gmap list strings.
From S2P Require Import Prelude Kstring Abi Machine Spinlock Kalloc Vm Proc Sched Sleeplock UserMem Virtio Bio Log Fs File Wp BioList BlockEnv VirtioSpec BioSpec LogSpec LogCrash LogWrite FsTx FsBitmap FsAlloc FsFile FsRw FsWrite FsAtomic FsDir.

Section Trunc.
Variables (fuel : nat) (d0 : Z -> list Z) (dev st ds : Z) (p : nat) (pid : Z) (spurious : Prop) (ws : list (Z * list Z)) (ip : nat).
Notation txn := (txn d0 dev st p pid ws).
Notation twp := (wp spurious (sub_rel (env d0 dev p pid spurious)) (fun s : fss => b_writes (l_b (fs_l s)) = ws)).
Notation alloc_ok := (alloc_ok st ds).
Notation file_ok := (file_ok dev ds ip).

(** The blocks of the slots [K]. *)
Definition gone (K : Z -> Prop) (a : view_) (d : Z) : Prop := d <> 0 /\ exists k, 0 <= k < NSLOT /\ K k /\ vslot a ip k = d.

(** From [a] to [a'] the blocks of the slots [K] were freed; the addresses are now [l] and the
    process holds [h]. *)
Record shed (K : Z -> Prop) (l : list Z) (h : gmap Z nat) (a a' : view_) : Prop := {
  sh_sb : v_sb a' = v_sb a;
  sh_held : v_held a' = h;
  sh_inodes : v_inodes a' = <[ip := set_i_addrs l (inode_at a ip)]> (v_inodes a);
  sh_used : forall d, 0 <= d < sb_size (v_sb a) -> used (v_disk a') (v_sb a) d = true <-> used (v_disk a) (v_sb a) d = true /\ ~ gone K a d;
  sh_disk : forall b, ~ map_block (v_sb a) b -> v_disk a' b = v_disk a b;
  sh_log : forall b, b ∈ v_log a' -> b ∈ v_log a \/ map_block (v_sb a) b;
  sh_mono : forall b, b ∈ v_log a -> b ∈ v_log a'
}.

Lemma shed_inode K l h a a' : file_ok a -> shed K l h a a' -> inode_at a' ip = set_i_addrs l (inode_at a ip).
Proof. intros Hf H. unfold inode_at at 1. rewrite (sh_inodes _ _ _ _ _ H). by rewrite list_lookup_insert_eq by apply Hf. Qed.

Lemma shed_refl K a : file_ok a -> (forall k, 0 <= k < NSLOT -> ~ K k) -> shed K (i_addrs (inode_at a ip)) (v_held a) a a.
Proof.
  intros Hf HK. split; try done; [by apply (same_inodes dev ds)| |by left]. intros d Hd. split; [|by intros []]. intros Hu. split; [done|].
  intros (_ & k & Hk & HKk & _). by apply (HK k).
Qed.

Lemma shed_K K K' l h a a' : (forall k, 0 <= k < NSLOT -> vslot a ip k <> 0 -> K k <-> K' k) -> shed K l h a a' -> shed K' l h a a'.
Proof.
  intros HK [S1 S2 S3 S4 S5 S6 S7]. split; try done. intros d Hd. rewrite S4 by done.
  assert (gone K a d <-> gone K' a d); [|tauto]. unfold gone. split; intros (H0 & k & Hk & HKk & E); (split; [done|]); exists k; (split; [done|]); (split; [|done]); apply HK; congruence || done.
Qed.

Lemma ds_pos a : alloc_ok a -> 0 < ds.
Proof. intros Ha. destruct (ly_log _ _ _ (ao_layout _ _ _ Ha)). pose proof LOGSIZE_eq. lia. Qed.

(** Data blocks are not in the map. *)
Lemma slot_not_map a k : alloc_ok a -> file_ok a -> 0 <= k < NSLOT -> vslot a ip k <> 0 -> ~ map_block (v_sb a) (vslot a ip k).
Proof.
  intros Ha Hf Hk Hn (c & Hc & E). destruct (fo_slot _ _ _ _ Hf k Hk Hn). destruct (layout_map _ _ _ c (ao_layout _ _ _ Ha) Hc). lia.
Qed.

Lemma shed_alloc K l h a a' : alloc_ok a -> file_ok a -> shed K l h a a' ->
  (forall bn b, h !! bn = Some b -> exists k, 0 <= k < NSLOT /\ ~ K k /\ vslot a ip k = bn /\ bn <> 0) -> alloc_ok a'.
Proof.
  intros Ha Hf [S1 S2 S3 S4 S5 S6 S7] Hh. pose proof (ds_pos a Ha) as Hds. destruct Ha as [A1 A2 A3]. pose proof (ly_size _ _ _ A1). split; rewrite ?S1; [done| |].
  - intros b Hb. apply S4; [lia|]. split; [by apply A2|]. intros (Hz & k & Hk & _ & E). destruct (fo_slot _ _ _ _ Hf k Hk ltac:(congruence)). lia.
  - intros bn b Hb. rewrite S2 in Hb. destruct (Hh bn b Hb) as (k & Hk & HK & E & Hz). destruct (fo_slot _ _ _ _ Hf k Hk ltac:(congruence)) as [Hr Hu].
    rewrite E in *. split; [done|]. apply S4; [lia|]. split; [done|]. intros (_ & j & Hj & HKj & Ej). apply HK.
    by rewrite (fo_inj _ _ _ _ Hf k j) by congruence.
Qed.

Lemma shed_room K l h a a' n : sb_size (v_sb a) <= BPB -> NoDup (v_log a') -> (size h <= size (v_held a) + 1)%nat -> shed K l h a a' -> room (n + 2) a -> room n a'.
Proof.
  intros Hone Hnd Hh [S1 S2 S3 S4 S5 S6 S7] Hr. unfold room in *. rewrite S2.
  assert (length (v_log a') <= length (v_log a ++ [BBLOCK 0 (v_sb a)]))%nat as HL; [|rewrite length_app in HL; cbn in HL; lia].
  apply submseteq_length, NoDup_submseteq; [done|]. intros b Hb. apply elem_of_app. destruct (S6 b Hb) as [|(c & Hc & ->)]; [by left|].
  right. unfold BBLOCK. rewrite Z.div_small by lia. left.
Qed.

(** One more block is freed. *)
Lemma freed_shed K l h a a' k s :
  alloc_ok a -> file_ok a -> txn s a' -> shed K l h a a' -> 0 <= k < NSLOT -> ~ K k -> vslot a ip k <> 0 ->
  shed (fun j => K j \/ j = k) l h a (freed (vslot a ip k) a').
Proof.
  intros Ha Hf Hs [S1 S2 S3 S4 S5 S6 S7] Hk HK Hn. destruct (fo_slot _ _ _ _ Hf k Hk Hn) as [Hr _]. pose proof (ly_size _ _ _ (ao_layout _ _ _ Ha)).
  pose proof (ds_pos a Ha) as Hds.
  set (c := vslot a ip k) in *. assert (Hmb : map_block (v_sb a) (BBLOCK c (v_sb a))) by (exists c; split; [lia|done]).
  unfold freed. rewrite S1. split; try done.
  - intros d Hd. cbn. rewrite (used_unmark _ _ c d st ds) by (apply Ha || lia || by eapply t_len). rewrite andb_true_iff, negb_true_iff, Z.eqb_neq, S4 by done.
    unfold gone. split.
    + intros (Hne & Hu & Hg). split; [done|]. intros (Hz & j & Hj & [HKj| ->] & E); [|done]. apply Hg. split; [done|]. by exists j.
    + intros (Hu & Hg). split; [|split; [done|]].
      * intros ->. apply Hg. split; [done|]. exists k. split; [done|]. split; [by right|done].
      * intros (Hz & j & Hj & HKj & E). apply Hg. split; [done|]. exists j. split; [done|]. split; [by left|done].
  - intros b Hb. cbn. unfold set_block. destruct (Z.eqb_spec b (BBLOCK c (v_sb a))) as [->|]; [done|]. by apply S5.
  - intros b Hb. apply elem_listed in Hb as [Hb| ->]; [by apply S6|by right].
  - intros b Hb. apply elem_listed. left. by apply S7.
Qed.

Lemma shed_addrs K l l' h a a' s (f : inode -> inode) :
  file_ok a -> txn s a' -> shed K l h a a' -> (forall x, i_addrs x = l -> f x = set_i_addrs l' x) ->
  exists a'', txn (upd_inode ip f s) a'' /\ shed K l' h a a''.
Proof.
  intros Hf Hs HS Hfx. pose proof (shed_inode _ _ _ _ _ Hf HS) as Ei. pose proof (inode_at_get d0 dev st p pid ws ip s a' Hs) as Eg.
  exists (with_inodes (<[ip := set_i_addrs l' (inode_at a ip)]> (v_inodes a)) a'). destruct HS as [S1 S2 S3 S4 S5 S6 S7]. split; [|by split].
  destruct Hs as [H1 H2 H3 H4 H5 H6 H7]. split; try done. cbn. rewrite Eg, Ei, H6, S3, list_insert_insert_eq, Hfx by done. by destruct (inode_at a ip).
Qed.

(** [bfree] of slot [k]. *)
Lemma bfree_shed K l h a a' k s :
  alloc_ok a -> file_ok a -> sb_size (v_sb a) <= BPB -> room 3 a -> (size h <= size (v_held a) + 1)%nat ->
  (forall bn b, h !! bn = Some b -> exists k, 0 <= k < NSLOT /\ ~ K k /\ vslot a ip k = bn /\ bn <> 0) ->
  txn s a' -> shed K l h a a' -> 0 <= k < NSLOT -> ~ K k -> vslot a ip k <> 0 ->
  twp (fun _ s' => exists a'', txn s' a'' /\ shed (fun j => K j \/ j = k) l h a a'') (bfree (S fuel) dev (vslot a ip k) s).
Proof.
  intros Ha Hf Hone Hr Hh Hhk Hs HS Hk HK Hn. destruct (fo_slot _ _ _ _ Hf k Hk Hn) as [Hrange Hu]. pose proof (ly_size _ _ _ (ao_layout _ _ _ Ha)).
  pose proof (ds_pos a Ha) as Hds. pose proof (sh_sb _ _ _ _ _ HS) as Esb.
  eapply wp_mono; [apply (bfree_wp fuel d0 dev st ds p pid spurious ws s a' (vslot a ip k) Hs)|].
  - by eapply shed_alloc.
  - eapply (shed_room K l h a a' 1); try done. by eapply t_nodup.
  - rewrite Esb. lia.
  - rewrite Esb. apply (sh_used _ _ _ _ _ HS); [lia|]. split; [done|]. intros (_ & j & Hj & HKj & E). apply HK. by rewrite (fo_inj _ _ _ _ Hf k j).
  - intros [] s' H'. eexists. split; [exact H'|]. by eapply freed_shed.
Qed.

(** ** The direct blocks *)

(** The addresses when the first [n] are cleared. *)
Definition cleared (n : nat) (l : list Z) : list Z := replicate n 0 ++ drop n l.

Lemma cleared_at n l j : (n <= length l)%nat -> (n <= j)%nat -> zget (cleared n l) (Z.of_nat j) = zget l (Z.of_nat j).
Proof.
  intros Hn Hj. unfold zget, cleared. rewrite Nat2Z.id, lookup_app_r, length_replicate, lookup_drop by (rewrite length_replicate; lia). do 2 f_equal. lia.
Qed.

Lemma cleared_next n l : (n < length l)%nat -> zset (cleared n l) (Z.of_nat n) 0 = cleared (S n) l /\ (zget l (Z.of_nat n) = 0 -> cleared n l = cleared (S n) l).
Proof.
  intros Hn. destruct (lookup_lt_is_Some_2 l n Hn) as [x Hx]. unfold cleared. rewrite (drop_S _ _ _ Hx). unfold zset, zget. rewrite Nat2Z.id, Hx.
  assert (E : (0 :: replicate n 0) ++ drop (S n) l = replicate n 0 ++ 0 :: drop (S n) l) by (by rewrite replicate_cons_app, <- app_assoc).
  change (replicate (S n) 0) with (0 :: replicate n 0). rewrite E. split.
  - rewrite insert_app_r_alt, length_replicate, Nat.sub_diag by (rewrite length_replicate; lia). done.
  - cbn. by intros ->.
Qed.

Lemma itrunc_direct_wp s a (l := i_addrs (inode_at a ip)) :
  txn s a -> alloc_ok a -> file_ok a -> sb_size (v_sb a) <= BPB -> room 3 a -> v_held a = ∅ ->
  twp (fun _ s' => exists a', txn s' a' /\ shed (fun k => k < NDIRECT) (cleared (Z.to_nat NDIRECT) l) ∅ a a') (itrunc_direct (S fuel) ip s).
Proof.
  intros Hs Ha Hf Hone Hr Hh. pose proof (fo_addrs _ _ _ _ Hf) as Hl. fold l in Hl. unfold itrunc_direct.
  eapply wp_mono; [apply (wp_each _ _ _ (fun n s => exists a', txn s a' /\ shed (fun k => k < Z.of_nat n) (cleared n l) ∅ a a'))|].
  - intros i x s1 Hi (a1 & H1 & HS). apply lookup_seq in Hi as [-> Hi]. cbn [Nat.add] in *. change (Z.to_nat NDIRECT) with 12%nat in Hi. unfold inode_get. mgo.
    rewrite (inode_at_get d0 dev st p pid ws ip s1 a1 H1), (shed_inode _ _ _ _ _ Hf HS). cbn [i_addrs i_dev set_i_addrs].
    rewrite cleared_at by lia. destruct (cleared_next i l ltac:(lia)) as [Hset Hzero].
    assert (Es : zget l (Z.of_nat i) = vslot a ip (Z.of_nat i)) by (by rewrite slot_direct by (change NDIRECT with 12; lia)).
    assert (HK : forall k, k < Z.of_nat i \/ k = Z.of_nat i <-> k < Z.of_nat (i + 1)) by lia. replace (i + 1)%nat with (S i) in * by lia.
    destruct (Z.eqb_spec (zget l (Z.of_nat i)) 0) as [Ez|Ez].
    + exists a1. split; [done|]. rewrite <- Hzero by done. eapply shed_K; [|exact HS]. intros k Hk Hn. rewrite <- HK. split; [by left|].
      intros [?| ->]; [done|congruence].
    + rewrite Es in *. change (i_dev (set_i_addrs _ _)) with (i_dev (inode_at a ip)). rewrite (fo_dev _ _ _ _ Hf).
      eapply wp_call; [apply (bfree_shed (fun k => k < Z.of_nat i) (cleared i l) ∅ a a1 (Z.of_nat i) s1); try done|].
      * rewrite map_size_empty. lia.
      * change NSLOT with 269. lia.
      * lia.
      * intros [] s2 (a2 & H2 & HS2). destruct (shed_addrs _ _ (cleared (S i) l) _ _ _ s2 (fun x => set_i_addrs (zset (i_addrs x) (Z.of_nat i) 0) x) Hf H2 HS2) as (a3 & H3 & HS3).
        { intros x Hx. by rewrite Hx, Hset. }
        exists a3. split; [exact H3|]. eapply shed_K; [|exact HS3]. intros k _ _. apply HK.
  - exists a. split; [done|]. change (cleared 0 l) with l. rewrite <- Hh. apply shed_refl; [done|]. intros k Hk. cbn. lia.
  - intros [] s' (a' & H' & HS). rewrite length_seq in HS. exists a'. split; [done|]. exact HS.
Qed.

(** ** The indirect block *)

Lemma itrunc_entries_wp s a a1 b (l := cleared (Z.to_nat NDIRECT) (i_addrs (inode_at a ip))) (ind := vslot a ip NDIRECT) (h : gmap Z nat := {[ind := b]}) :
  alloc_ok a -> file_ok a -> sb_size (v_sb a) <= BPB -> room 3 a -> ind <> 0 -> v_held a = ∅ -> txn s a1 -> shed (fun k => k < NDIRECT) l h a a1 ->
  twp (fun _ s' => exists a', txn s' a' /\ shed (fun k => k <> NDIRECT) l h a a')
    (each (seq 0 (Z.to_nat NINDIRECT)) (fun j =>
       data <- bdata b ;;
       let aj := get_u32 data (4 * j) in
       if aj =? 0 then ret tt else bfree (S fuel) dev aj) s).
Proof.
  intros Ha Hf Hone Hr Hind Hh Hs HS. eapply wp_mono.
  - apply (wp_each _ _ _ (fun n s => exists a', txn s a' /\ shed (fun k => k < NDIRECT \/ NDIRECT < k < NDIRECT + 1 + Z.of_nat n) l h a a')).
    + intros j x s1 Hj (a2 & H2 & HS2). apply lookup_seq in Hj as [-> Hj]. cbn [Nat.add] in *. change (Z.to_nat NINDIRECT) with 256%nat in Hj.
      assert (Hb : v_held a2 !! ind = Some b) by (rewrite (sh_held _ _ _ _ _ HS2); apply lookup_singleton_eq).
      eapply wp_bind_ok; [apply (t_bdata fuel d0 dev st p pid spurious ws s1 a2 ind b H2 Hb)|]. cbn zeta.
      set (k := NDIRECT + 1 + Z.of_nat j). assert (Hk : 0 <= k < NSLOT) by (unfold k; change NSLOT with 269; change NDIRECT with 12; lia).
      assert (Hk' : NDIRECT < k) by (unfold k; lia).
      assert (Es : get_u32 (v_disk a2 ind) (4 * j) = vslot a ip k).
      { rewrite (sh_disk _ _ _ _ _ HS2) by (by apply slot_not_map). rewrite (slot_indirect _ _ k) by done. fold ind. rewrite (proj2 (Z.eqb_neq ind 0)) by done.
        f_equal. unfold k. lia. }
      rewrite Es. assert (HK : forall i, (i < NDIRECT \/ NDIRECT < i < k) \/ i = k <-> i < NDIRECT \/ NDIRECT < i < NDIRECT + 1 + Z.of_nat (j + 1)) by (unfold k; lia).
      destruct (Z.eqb_spec (vslot a ip k) 0) as [Ez|Ez].
      * exists a2. split; [done|]. eapply shed_K; [|exact HS2]. intros i Hi Hn. rewrite <- HK. split; [by left|]. intros [?| ->]; [done|congruence].
      * eapply wp_mono; [apply (bfree_shed (fun i => i < NDIRECT \/ NDIRECT < i < k) l h a a2 k s1); try done|].
        -- unfold h. rewrite map_size_singleton. lia.
        -- intros bn c Hc. apply lookup_singleton_Some in Hc as [<- _]. exists NDIRECT. split; [done|]. split; [lia|done].
        -- lia.
        -- intros [] s2 (a3 & H3 & HS3). exists a3. split; [done|]. eapply shed_K; [|exact HS3]. intros i _ _. apply HK.
    + exists a1. split; [done|]. eapply shed_K; [|exact HS]. intros k _ _. cbn. lia.
  - intros [] s' (a' & H' & HS'). exists a'. split; [done|]. rewrite length_seq in HS'. eapply shed_K; [|exact HS']. intros k Hk _. cbn.
    change (Z.of_nat (Z.to_nat NINDIRECT)) with 256. change NDIRECT with 12. change NSLOT with 269 in Hk. lia.
Qed.

(** The second part of [itrunc]. *)
Definition itrunc_rest (x : inode) : M fss unit :=
  let a := zget (i_addrs x) NDIRECT in
  if a =? 0 then ret tt else
  bp <- fs_bread (S fuel) (i_dev x) a ;;
  each (seq 0 (Z.to_nat NINDIRECT)) (fun j =>
    data <- bdata bp ;;
    let aj := get_u32 data (4 * j) in
    if aj =? 0 then ret tt else bfree (S fuel) (i_dev x) aj) ;;;
  fs_brelse bp ;;;
  bfree (S fuel) (i_dev x) a ;;;
  inode_set ip (fun x => set_i_addrs (zset (i_addrs x) NDIRECT 0) x).

Lemma itrunc_rest_wp s0 s a a1 (l := i_addrs (inode_at a ip)) :
  txn s0 a -> alloc_ok a -> file_ok a -> sb_size (v_sb a) <= BPB -> room 3 a -> v_held a = ∅ -> txn s a1 ->
  shed (fun k => k < NDIRECT) (cleared (Z.to_nat NDIRECT) l) ∅ a a1 ->
  twp (fun _ s' => exists a', txn s' a' /\ shed (fun _ => True) (replicate 13 0) ∅ a a') (itrunc_rest (inode_at a1 ip) s).
Proof.
  intros H0 Ha Hf Hone Hr Hh Hs HS. pose proof (fo_addrs _ _ _ _ Hf) as Hl. fold l in Hl. unfold itrunc_rest. rewrite (shed_inode _ _ _ _ _ Hf HS). cbn [i_addrs i_dev set_i_addrs].
  rewrite (fo_dev _ _ _ _ Hf). set (ind := vslot a ip NDIRECT).
  assert (El : zget l NDIRECT = ind) by (unfold ind; by rewrite slot_direct).
  assert (Ei : zget (cleared (Z.to_nat NDIRECT) l) NDIRECT = ind) by (rewrite <- El; apply (cleared_at 12 l 12); lia). rewrite !Ei.
  destruct (cleared_next 12 l ltac:(lia)) as [Hset Hzero]. change (Z.of_nat 12) with NDIRECT in *. change (Z.to_nat NDIRECT) with 12%nat in *.
  assert (E13 : cleared 13 l = replicate 13 0) by (unfold cleared; by rewrite drop_ge, app_nil_r by lia).
  rewrite E13 in *. cbn zeta. destruct (Z.eqb_spec ind 0) as [Ez|Ez].
  - exists a1. split; [done|]. rewrite <- Hzero by congruence. eapply shed_K; [|exact HS]. intros k Hk Hn. split; [done|]. intros _.
    destruct (Z.lt_trichotomy k NDIRECT) as [|[->|]]; [done|by fold ind in Hn|]. rewrite slot_indirect in Hn by done. fold ind in Hn. by rewrite Ez in Hn.
  - pose proof (sh_held _ _ _ _ _ HS) as Hh1. pose proof (slot_home dev st ds ip a NDIRECT Ha Hf ltac:(done) Ez) as Hhome. fold ind in Hhome.
    eapply (t_bread fuel); [exact Hs|by rewrite Hh1|apply Hhome| |].
    { pose proof (shed_room _ _ _ _ _ 1 Hone (t_nodup _ _ _ _ _ _ _ _ Hs) ltac:(rewrite map_size_empty; lia) HS Hr) as R. unfold room in R. lia. }
    intros b s1 H1. assert (HS1 : shed (fun k => k < NDIRECT) (cleared 12 l) {[ind := b]} a (taking ind b a1)).
    { destruct HS as [S1 S2 S3 S4 S5 S6 S7]. split; try done. cbn. by rewrite S2. }
    eapply wp_call; [by apply (itrunc_entries_wp s1 a (taking ind b a1) b)|]. intros [] s2 (a2 & H2 & HS2).
    destruct (t_brelse d0 dev st p pid ws s2 a2 ind b H2) as (s3 & E3 & H3).
    { rewrite (sh_held _ _ _ _ _ HS2). apply lookup_singleton_eq. }
    { destruct H0 as [(G & _ & Hc) _ _ _ _ _ _]. specialize (Hc ind). rewrite Hh, lookup_empty in Hc. destruct (decide (ind ∈ v_log a)); [left; by apply (sh_mono _ _ _ _ _ HS2)|].
      right. rewrite (sh_disk _ _ _ _ _ HS2); [by destruct Hc|]. by apply slot_not_map. }
    eapply wp_bind_ok; [exact E3|]. assert (HS3 : shed (fun k => k <> NDIRECT) (cleared 12 l) ∅ a (dropped ind a2)).
    { destruct HS2 as [S1 S2 S3 S4 S5 S6 S7]. split; try done. cbn. rewrite S2. apply delete_singleton_eq. }
    eapply wp_call; [apply (bfree_shed (fun k => k <> NDIRECT) (cleared 12 l) ∅ a (dropped ind a2) NDIRECT s3); try done|].
    + rewrite map_size_empty. lia.
    + by intros [].
    + intros [] s4 (a4 & H4 & HS4). destruct (shed_addrs _ _ (replicate 13 0) _ _ _ s4 (fun x => set_i_addrs (zset (i_addrs x) NDIRECT 0) x) Hf H4 HS4) as (a5 & H5 & HS5).
      { intros x Hx. by rewrite Hx, Hset. }
      exists a5. split; [exact H5|]. eapply shed_K; [|exact HS5]. intros k _ _. split; [done|]. intros _. destruct (Z.eq_dec k NDIRECT); [by right|by left].
Qed.

(** ** The inode *)

Notation ib a := (IBLOCK (i_inum (inode_at a ip)) (v_sb a)).

(** From [a] to [a'] every block of the file was freed and nothing else happened to the disk
    but to the inode; the inode in memory is [x]. *)
Record emptied (x : inode) (a a' : view_) : Prop := {
  em_addrs : i_addrs x = replicate 13 0;
  em_inum : i_inum x = i_inum (inode_at a ip);
  em_dev : i_dev x = dev;
  em_sb : v_sb a' = v_sb a;
  em_held : v_held a' = ∅;
  em_inodes : v_inodes a' = <[ip := x]> (v_inodes a);
  em_used : forall d, 0 <= d < sb_size (v_sb a) -> used (v_disk a') (v_sb a) d = true <-> used (v_disk a) (v_sb a) d = true /\ ~ owned ip a d;
  em_disk : forall b, ~ map_block (v_sb a) b -> b <> ib a -> v_disk a' b = v_disk a b;
  em_others : forall inum, 0 <= inum < 2 ^ 32 -> inum <> i_inum (inode_at a ip) -> ~ map_block (v_sb a) (IBLOCK inum (v_sb a)) ->
    disk_inode (v_disk a') (v_sb a) inum = disk_inode (v_disk a) (v_sb a) inum;
  em_log : forall b, b ∈ v_log a' -> b ∈ v_log a \/ map_block (v_sb a) b \/ b = ib a
}.

Lemma shed_emptied a a' : file_ok a -> shed (fun _ => True) (replicate 13 0) ∅ a a' -> emptied (set_i_addrs (replicate 13 0) (inode_at a ip)) a a'.
Proof.
  intros Hf [S1 S2 S3 S4 S5 S6 S7]. split; try done; [apply Hf| | | |].
  - intros d Hd. rewrite S4 by done. assert (gone (fun _ => True) a d <-> owned ip a d); [|tauto]. unfold gone, owned. split; intros (H0 & k & H); (split; [done|]); exists k; tauto.
  - intros b Hb _. by apply S5.
  - intros inum _ _ Hm. unfold disk_inode. by rewrite S5.
  - intros b Hb. destruct (S6 b Hb); tauto.
Qed.

Lemma emptied_inode x a a' : file_ok a -> emptied x a a' -> inode_at a' ip = x.
Proof. intros Hf H. unfold inode_at at 1. rewrite (em_inodes _ _ _ H). by rewrite list_lookup_insert_eq by apply Hf. Qed.

(** Without addresses there are no blocks. *)
Lemma zero_slot D x k : i_addrs x = replicate 13 0 -> 0 <= k -> slot D x k = 0.
Proof.
  intros Hx Hk. assert (Hz : forall k, 0 <= k <= NDIRECT -> slot D x k = 0).
  { intros j Hj. rewrite slot_direct, Hx by lia. unfold zget. rewrite lookup_replicate_2; [done|]. change NDIRECT with 12 in Hj. lia. }
  destruct (Z.le_gt_cases k NDIRECT); [by apply Hz|]. by rewrite slot_indirect, Hz by done.
Qed.

Lemma emptied_slot x a a' k : file_ok a -> emptied x a a' -> 0 <= k -> vslot a' ip k = 0.
Proof. intros Hf H Hk. rewrite (emptied_inode x a a' Hf H). apply zero_slot; [apply (em_addrs _ _ _ H)|done]. Qed.

Lemma emptied_ok x a a' : alloc_ok a -> file_ok a -> iblock_ok st ds ip a -> emptied x a a' -> alloc_ok a' /\ file_ok a' /\ iblock_ok st ds ip a'.
Proof.
  intros Ha Hf [I1 I2 I3] H. pose proof (emptied_inode x a a' Hf H) as Ei. pose proof (ds_pos a Ha) as Hds. pose proof (fun k => emptied_slot x a a' k Hf H) as Hz.
  destruct H as [E1 E2 E3 E4 E5 E6 E7 E8 E9 E10]. destruct Ha as [A1 A2 A3]. pose proof (ly_size _ _ _ A1). split; [|split].
  - split; rewrite ?E4; [done| |by rewrite E5]. intros b Hb. apply E7; [lia|]. split; [by apply A2|]. intros (Hn & k & Hk & E).
    destruct (fo_slot _ _ _ _ Hf k Hk ltac:(congruence)). lia.
  - split; [rewrite E6, length_insert; apply Hf|by rewrite Ei|by rewrite Ei, E1| |].
    + intros k Hk. by rewrite Hz by lia.
    + intros j k Hj Hk. by rewrite Hz by lia.
  - split; rewrite Ei, E4, E2; done.
Qed.

Lemma emptied_room x a a' n : sb_size (v_sb a) <= BPB -> NoDup (v_log a') -> emptied x a a' -> room (n + 2) a -> room n a'.
Proof.
  intros Hone Hnd H Hr. unfold room in *. rewrite (em_held _ _ _ H), map_size_empty.
  assert (length (v_log a') <= length (v_log a ++ [BBLOCK 0 (v_sb a); ib a]))%nat as HL; [|rewrite length_app in HL; cbn in HL; lia].
  apply submseteq_length, NoDup_submseteq; [done|]. intros b Hb. apply elem_of_app. destruct (em_log _ _ _ H b Hb) as [|[(c & Hc & ->)| ->]]; [by left| |right; right; left].
  right. unfold BBLOCK. rewrite Z.div_small by lia. left.
Qed.

(** A field of the inode in memory changes. *)
Definition with_inode (x : inode) (a : view_) : view_ := with_inodes (<[ip := x]> (v_inodes a)) a.

Lemma t_inode_set s a f : txn s a -> txn (upd_inode ip f s) (with_inode (f (inode_at a ip)) a).
Proof.
  intros Hs. pose proof (inode_at_get d0 dev st p pid ws ip s a Hs) as Ex. destruct Hs as [H1 H2 H3 H4 H5 H6 H7]. split; try done. cbn. by rewrite Ex, H6.
Qed.

Lemma emptied_set x x' a a' : emptied x a a' -> i_addrs x' = i_addrs x -> i_inum x' = i_inum x -> i_dev x' = i_dev x -> emptied x' a (with_inode x' a').
Proof.
  intros [E1 E2 E3 E4 E5 E6 E7 E8 E9 E10] Ha Hi Hd. split; try done; [congruence..|]. cbn. by rewrite E6, list_insert_insert_eq.
Qed.

(** [iupdate] after that. *)
Lemma emptied_updated x a a' s : alloc_ok a -> file_ok a -> iblock_ok st ds ip a -> 0 <= i_inum (inode_at a ip) < 2 ^ 32 -> dinode_ok (inode_dinode x) -> txn s a' -> emptied x a a' ->
  emptied x a (updated ip a') /\ disk_inode (v_disk (updated ip a')) (v_sb a) (i_inum (inode_at a ip)) = inode_dinode x.
Proof.
  intros Ha Hf Hi Hin Hdi Hs H. destruct (emptied_ok x a a' Ha Hf Hi H) as (Ha' & Hf' & Hi'). pose proof (emptied_inode x a a' Hf H) as Ei.
  assert (Eib : ib a' = ib a) by (by rewrite Ei, (em_sb _ _ _ H), (em_inum _ _ _ H)). pose proof (updated_disk ip a') as Hup. rewrite Eib, Ei, (em_inum _ _ _ H) in Hup.
  pose proof (dinode_off_fits _ (proj1 Hin)) as Hfit. pose proof (t_len d0 dev st p pid ws s a' (ib a) Hs) as Hlen.
  destruct H as [E1 E2 E3 E4 E5 E6 E7 E8 E9 E10]. split; [split; try done|].
  - intros d Hd. rewrite <- E4, (updated_used st ds ip a' d), E4 by (done || by rewrite E4). by apply E7.
  - intros b Hb Hne. rewrite Hup, (proj2 (Z.eqb_neq _ _)) by done. by apply E8.
  - intros inum H0 Hne Hm. rewrite <- E9 by done. unfold disk_inode. rewrite Hup. destruct (Z.eqb_spec (IBLOCK inum (v_sb a)) (ib a)) as [Eb|]; [|done].
    rewrite Eb, decode_other; [done|by cbn; rewrite E1|lia|]. by eapply inodes_apart.
  - intros b Hb. apply elem_listed in Hb as [Hb| ->]; [by apply E10|right; right; exact Eib].
  - unfold disk_inode. rewrite Hup, Z.eqb_refl. apply decode_encode; [done|lia].
Qed.

(** What [itrunc] needs: the file is sound, the free map is one block (as with mkfs), and the
    fields of the inode fit the disk. *)
Record trunc_ready (a : view_) : Prop := {
  tr_alloc : alloc_ok a;
  tr_file : file_ok a;
  tr_iblock : iblock_ok st ds ip a;
  tr_one : sb_size (v_sb a) <= BPB;
  tr_held : v_held a = ∅;
  tr_inum : 0 <= i_inum (inode_at a ip) < 2 ^ 32;
  tr_dinode : dinode_ok (inode_dinode (inode_at a ip));
  tr_room : room 5 a
}.

Lemma emptied_iupdate_wp s x a a' : trunc_ready a -> dinode_ok (inode_dinode x) -> txn s a' -> emptied x a a' ->
  twp (fun _ s' => exists a'', txn s' a'' /\ emptied x a a'' /\ disk_inode (v_disk a'') (v_sb a) (i_inum (inode_at a ip)) = inode_dinode x) (iupdate (S fuel) ip s).
Proof.
  intros [R1 R2 R3 R4 R5 R6 R7 R8] Hx Hs H. destruct (emptied_ok x a a' R1 R2 R3 H) as (Ha & Hf & Hi). pose proof (emptied_inode x a a' R2 H) as Ei.
  eapply wp_mono; [apply (iupdate_wp fuel d0 dev st ds p pid spurious ws ip s a' Hs Hf Hi (em_held _ _ _ H))|].
  - eapply (emptied_room x a a' 1); try done; [by eapply t_nodup|]. unfold room in *. lia.
  - rewrite Ei, (em_inum _ _ _ H). apply R6.
  - intros [] s' H'. exists (updated ip a'). split; [done|]. by eapply emptied_updated.
Qed.

Lemma itrunc_wp s a (x := set_i_size 0 (set_i_addrs (replicate 13 0) (inode_at a ip))) : txn s a -> trunc_ready a ->
  twp (fun _ s' => exists a', txn s' a' /\ emptied x a a' /\ disk_inode (v_disk a') (v_sb a) (i_inum (inode_at a ip)) = inode_dinode x) (itrunc (S fuel) ip s).
Proof.
  intros Hs R. pose proof R as [R1 R2 R3 R4 R5 R6 R7 R8]. assert (Hr : room 3 a) by (unfold room in *; lia). unfold itrunc.
  eapply wp_call; [by apply (itrunc_direct_wp s a)|]. intros [] s1 (a1 & H1 & HS1). unfold inode_get. mgo.
  rewrite (inode_at_get d0 dev st p pid ws ip s1 a1 H1).
  eapply wp_call; [by apply (itrunc_rest_wp s s1 a a1)|]. intros [] s2 (a2 & H2 & HS2). unfold inode_set. mgo.
  pose proof (shed_emptied a a2 R2 HS2) as HE2. pose proof (t_inode_set s2 a2 (set_i_size 0) H2) as H3. rewrite (emptied_inode _ a a2 R2 HE2) in H3.
  apply (emptied_iupdate_wp _ x a (with_inode x a2) R); [|exact H3|by eapply emptied_set].
  destruct R7 as (D1 & D2 & D3 & D4 & _). split; [done|]. do 3 (split; [done|]). split; [done|]. split; [done|]. by apply Forall_replicate.
Qed.

(** ** The last reference *)

Notation calm := (calm p pid).

Definition at_machine (m : machine) (s : fss) : fss := set_fs_l (set_l_b (set_b_m m (l_b (fs_l s))) (fs_l s)) s.
Definition locked_as (v holder : Z) (x : inode) : inode := set_i_lock (set_sl_pid holder (set_sl_locked v (i_lock x))) x.

Lemma fss_lift {A} (x : M machine A) m s r m' : x m = Ok r m' -> lift x (at_machine m s) = Ok r (at_machine m' s).
Proof. intros E. unfold lift. cbn. by rewrite E. Qed.

Lemma at_machine_self s : at_machine (b_m (l_b (fs_l s))) s = s.
Proof. by destruct s as [[[]]]. Qed.

Lemma t_calm s a : txn s a -> calm (b_m (l_b (fs_l s))) /\ forall m, calm m -> txn (at_machine m s) a.
Proof.
  intros [(G & Hr & Hc) H2 H3 H4 H5 H6 H7]. destruct Hr as [R1 R2 R3 R4 R5]. split; [done|]. intros m Hm. split; try done. exists G. split; [|done]. by split.
Qed.

(** The sleep lock of an inode, free as nobody else has a reference. *)
Lemma inode_acquiresleep m s : hart_ok m -> unlocked (Lk_inode ip) m -> h_proc (m_hart m) = Some p -> p_pid (get_proc m p) = pid -> 
  (ip < length (fs_itable s))%nat -> sl_locked (i_lock (get_inode s ip)) = 0 ->
  acquiresleep (S fuel) (inode_sl ip) (at_machine m s) = Ok tt (at_machine (settle m) (upd_inode ip (locked_as 1 pid) s)).
Proof.
  intros Hm Hu Hp Hpid Hl H0. unfold acquiresleep. cbn [inode_sl sl_lk]. erewrite bind_ok by (by apply fss_lift, acquire_ok).
  assert (E : forall s', get_inode s' ip = get_inode s ip -> acquiresleep_loop (S fuel) (inode_sl ip) s' = Ok tt s').
  { intros s' Es. cbn [acquiresleep_loop]. mgo. cbn. by rewrite Es, H0. }
  erewrite bind_ok by (by apply E). unfold sl_upd. mgo. cbn [inode_sl sl_set sl_get].
  change (upd_inode ip ?f (at_machine ?m s)) with (at_machine m (upd_inode ip f s)).
  erewrite bind_ok. 2:{ apply fss_lift. apply curproc_eq; [by apply hart_ok_hold|exact Hp]. }
  rewrite settle_hold by apply Hm. erewrite bind_ok by (apply fss_lift; reflexivity). mgo. rewrite get_proc_hold, Hpid.
  change (upd_inode ip ?f (at_machine ?m ?s)) with (at_machine m (upd_inode ip f s)).
  erewrite fss_lift by (by apply release_hold). rewrite upd_upd_inode by done. unfold get_inode at 1. cbn. rewrite list_lookup_insert_eq by done. done.
Qed.

Lemma inode_releasesleep m s : calm m -> (ip < Z.to_nat NINODE)%nat -> (ip < length (fs_itable s))%nat ->
  exists m', calm m' /\ releasesleep (inode_sl ip) (at_machine m s) = Ok tt (at_machine m' (upd_inode ip (locked_as 0 0) s)).
Proof.
  intros Hm Hi Hl. assert (Hb : block_lock (Lk_inode ip)) by (do 5 right; by exists ip).
  destruct (calm_wakeup p pid m (Lk_inode ip) (Some (Ch_sleep_inode ip)) Hm Hb) as (m' & E & Hm'). exists (settle m'). split; [by apply calm_settle|].
  unfold releasesleep. cbn [inode_sl sl_lk sl_chan]. erewrite bind_ok by (by apply fss_lift, (calm_acquire p pid)). unfold sl_upd. mgo. cbn [inode_sl sl_set sl_get].
  change (upd_inode ip ?f (at_machine ?m s)) with (at_machine m (upd_inode ip f s)). change (upd_inode ip ?f (at_machine ?m ?s)) with (at_machine m (upd_inode ip f s)).
  erewrite bind_ok by (by apply fss_lift). erewrite fss_lift by (by apply (calm_release p pid)).
  rewrite upd_upd_inode by done. unfold get_inode at 1. cbn. rewrite list_lookup_insert_eq by done. done.
Qed.

Lemma with_inode_at x a : (ip < length (v_inodes a))%nat -> inode_at (with_inode x a) ip = x.
Proof. intros H. unfold inode_at. cbn. by rewrite list_lookup_insert_eq. Qed.

(** Taking the lock changes nothing that [itrunc] looks at. *)
Lemma locked_slot v q a k : file_ok a -> vslot (with_inode (locked_as v q (inode_at a ip)) a) ip k = vslot a ip k.
Proof. intros Hf. rewrite with_inode_at by apply Hf. by apply slot_ext. Qed.

Lemma locked_ready v q a : trunc_ready a -> trunc_ready (with_inode (locked_as v q (inode_at a ip)) a).
Proof.
  intros [R1 R2 R3 R4 R5 R6 R7 R8]. pose proof (with_inode_at (locked_as v q (inode_at a ip)) a (fo_ip _ _ _ _ R2)) as Ei.
  destruct (same_shape dev st ds ip (ds_pos a R1) a (with_inode (locked_as v q (inode_at a ip)) a)) as [Ha Hf]; try done; try (by rewrite Ei); [cbn; by rewrite length_insert|].
  split; try done; try (by rewrite Ei). destruct R3 as [I1 I2 I3]. by split; rewrite Ei.
Qed.

Lemma locked_emptied v q y a a' : file_ok a -> emptied y (with_inode (locked_as v q (inode_at a ip)) a) a' -> emptied y a a'.
Proof.
  intros Hf [E1 E2 E3 E4 E5 E6 E7 E8 E9 E10]. pose proof (with_inode_at (locked_as v q (inode_at a ip)) a (fo_ip _ _ _ _ Hf)) as Ei. rewrite Ei in E2, E8, E9, E10.
  split; try done.
  - rewrite E6. cbn. by rewrite list_insert_insert_eq.
  - intros d Hd. rewrite (E7 d Hd). unfold owned. by setoid_rewrite (fun k => locked_slot v q a k Hf).
Qed.

(** What [iput] does to the last reference of an inode that no directory names. *)
Record dropped_last (a a' : view_) : Prop := {
  dl_inode : exists y, emptied y a a' /\ i_ref y = 0 /\ i_valid y = 0 /\ sl_locked (i_lock y) = 0;
  dl_disk : disk_inode (v_disk a') (v_sb a) (i_inum (inode_at a ip)) = mk_dinode 0 (i_major (inode_at a ip)) (i_minor (inode_at a ip)) 0 0 (replicate 13 0)
}.

(** The work under the lock of the inode. *)
Definition iput_free : M fss unit :=
  itrunc (S fuel) ip ;;;
  inode_set ip (set_i_type 0) ;;;
  iupdate (S fuel) ip ;;;
  inode_set ip (set_i_valid 0) ;;;
  releasesleep (inode_sl ip) ;;;
  lift (acquire Lk_itable).

Lemma iput_free_wp s a : txn s a -> trunc_ready a -> (ip < Z.to_nat NINODE)%nat ->
  twp (fun _ s' => exists s1 a' y, txn s1 a' /\ lift (acquire Lk_itable) s1 = Ok tt s' /\ emptied y a a' /\
         i_ref y = i_ref (inode_at a ip) /\ i_valid y = 0 /\ sl_locked (i_lock y) = 0 /\
         disk_inode (v_disk a') (v_sb a) (i_inum (inode_at a ip)) =
           mk_dinode 0 (i_major (inode_at a ip)) (i_minor (inode_at a ip)) (i_nlink (inode_at a ip)) 0 (replicate 13 0)) (iput_free s).
Proof.
  intros Hs R Hn. pose proof (tr_file _ R) as Hf. unfold iput_free. eapply wp_call; [by apply (itrunc_wp s a)|]. intros [] s1 (a1 & H1 & HE1 & _). unfold inode_set. mgo.
  pose proof (t_inode_set s1 a1 (set_i_type 0) H1) as H2. rewrite (emptied_inode _ a a1 Hf HE1) in H2. set (x2 := set_i_type 0 _) in H2.
  eapply wp_call; [apply (emptied_iupdate_wp _ x2 a (with_inode x2 a1) R); [|exact H2|by eapply emptied_set]|].
  { destruct (tr_dinode _ R) as (_ & D2 & D3 & D4 & _). split; [done|]. do 3 (split; [done|]). split; [done|]. split; [done|]. by apply Forall_replicate. }
  intros [] s3 (a3 & H3 & HE3 & Hd). mgo. pose proof (t_inode_set s3 a3 (set_i_valid 0) H3) as H4. rewrite (emptied_inode _ a a3 Hf HE3) in H4. set (x4 := set_i_valid 0 x2) in H4.
  assert (HE4 : emptied x4 a (with_inode x4 a3)) by (by eapply emptied_set). set (s4 := upd_inode ip (set_i_valid 0) s3) in *. destruct (t_calm _ _ H4) as [Hc _].
  assert (Hlen : (ip < length (fs_itable s4))%nat) by (rewrite (t_inodes _ _ _ _ _ _ _ _ H4), (em_inodes _ _ _ HE4), length_insert; apply Hf).
  destruct (inode_releasesleep _ s4 Hc Hn Hlen) as (m5 & Hm5 & E5). rewrite at_machine_self in E5. eapply wp_bind_ok; [exact E5|].
  pose proof (t_inode_set s4 _ (locked_as 0 0) H4) as H5. rewrite (emptied_inode _ a _ Hf HE4) in H5. destruct (t_calm _ _ H5) as [_ H6]. specialize (H6 m5 Hm5).
  destruct (t_itable d0 dev st p pid ws _ _ H6) as (s7 & E7 & _ & _). eapply wp_ok; [exact E7|]. eexists _, _, (locked_as 0 0 x4).
  split; [exact H6|]. split; [exact E7|]. split; [by eapply emptied_set|]. split; [done|]. split; [done|]. split; [done|]. exact Hd.
Qed.

Lemma iput_last_wp s a (x := inode_at a ip) : txn s a -> trunc_ready a -> (ip < Z.to_nat NINODE)%nat -> 
  i_ref x = 1 -> i_valid x <> 0 -> i_nlink x = 0 -> sl_locked (i_lock x) = 0 ->
  twp (fun _ s' => exists a', txn s' a' /\ dropped_last a a') (fs_iput (S fuel) ip s).
Proof.
  intros Hs R Hn Hr Hv Hl Hk. pose proof (tr_file _ R) as Hf. pose proof (t_inodes _ _ _ _ _ _ _ _ Hs) as Et. destruct (t_calm _ _ Hs) as [Hm _]. set (m := b_m (l_b (fs_l s))) in *.
  pose proof (inode_at_get d0 dev st p pid ws ip s a Hs) as Eg. fold x in Eg.
  unfold fs_iput. rewrite <- (at_machine_self s). fold m. erewrite bind_ok by (by apply fss_lift, (calm_acquire p pid), itable_block). unfold inode_get at 1. mgo.
  change (get_inode (at_machine ?m s) ip) with (get_inode s ip). rewrite Eg, Hr, Hl. rewrite (proj2 (Z.eqb_neq _ _) Hv). change (when _ ?w) with w.
  eapply wp_call.
  - erewrite bind_ok. 2:{ apply inode_acquiresleep; [by apply hart_ok_hold, (calm_ok p pid)| |apply Hm|rewrite get_proc_hold; apply Hm|rewrite Et; apply Hf|by rewrite Eg].
      apply unlocked_hold; [done|]. apply (ca_locks _ _ _ Hm). do 5 right. by exists ip. }
    rewrite settle_hold by (rewrite (ca_depth _ _ _ Hm); lia). erewrite bind_ok by (by apply fss_lift, (calm_release p pid), itable_block).
    destruct (t_calm _ _ (t_inode_set s a (locked_as 1 pid) Hs)) as [_ H1]. specialize (H1 _ (calm_settle p pid m Hm)).
    apply (iput_free_wp _ _ H1 (locked_ready 1 pid a R) Hn).
  - intros [] s2 (s1 & a' & y & H1 & E1 & HE & Ey1 & Ey2 & Ey3 & Hd).
    pose proof (with_inode_at (locked_as 1 pid (inode_at a ip)) a (fo_ip _ _ _ _ Hf)) as Ei. rewrite Ei in Ey1, Hd. apply locked_emptied in HE; [|done].
    destruct (t_itable d0 dev st p pid ws s1 a' H1) as (s1' & E1' & Ei1 & Hrel). rewrite E1 in E1'. injection E1' as <-.
    pose proof (inode_at_get d0 dev st p pid ws ip s1 a' H1) as Eg1. rewrite (emptied_inode _ a a' Hf HE) in Eg1.
    destruct (Hrel (<[ip := set_i_ref (i_ref y - 1) y]> (v_inodes a'))) as (s3 & E3 & H3). unfold inode_set. mgo.
    assert (Eu : upd_inode ip (fun x => set_i_ref (i_ref x - 1) x) s2 = set_fs_itable (<[ip := set_i_ref (i_ref y - 1) y]> (v_inodes a')) s2).
    { unfold upd_inode. unfold get_inode in *. rewrite Ei1, (t_inodes _ _ _ _ _ _ _ _ H1) in *. by rewrite Eg1. }
    rewrite Eu. eapply wp_ok; [exact E3|]. eexists. split; [exact H3|]. split; [|etransitivity; [exact Hd|]; cbn; fold x; by rewrite Hl].
    exists (set_i_ref (i_ref y - 1) y). split; [by eapply emptied_set|]. cbn. fold x in Ey1. cbn in Ey1. split; [lia|done].
Qed.
End Trunc.

(** ** After a crash *)

(** The disk [D] without the file of inode [ip]: its inode is free, its blocks and no others
    have left the free map's used ones, and the rest is as in [a]. *)
Record removed (st : Z) (ip : nat) (a : view_) (D : Z -> list Z) : Prop := {
  rm_inode : disk_inode D (v_sb a) (i_inum (inode_at a ip)) = mk_dinode 0 (i_major (inode_at a ip)) (i_minor (inode_at a ip)) 0 0 (replicate 13 0);
  rm_used : forall d, 0 <= d < sb_size (v_sb a) -> used D (v_sb a) d = true <-> used (v_disk a) (v_sb a) d = true /\ ~ owned ip a d;
  rm_blocks : forall b, home st b -> ~ map_block (v_sb a) b -> b <> IBLOCK (i_inum (inode_at a ip)) (v_sb a) -> D b = v_disk a b;
  rm_others : forall inum, 0 <= inum < 2 ^ 32 -> inum <> i_inum (inode_at a ip) ->
    home st (IBLOCK inum (v_sb a)) -> ~ map_block (v_sb a) (IBLOCK inum (v_sb a)) -> disk_inode D (v_sb a) inum = disk_inode (v_disk a) (v_sb a) inum
}.

Lemma dropped_removed dev st ds ip a a' D : trunc_ready dev st ds ip a -> dropped_last dev ip a a' -> (forall b, home st b -> D b = v_disk a' b) -> removed st ip a D.
Proof.
  intros [R1 R2 [I1 I2 I3] R4 R5 R6 R7 R8] [(y & [E1 E2 E3 E4 E5 E6 E7 E8 E9 E10] & _) Hd] HD. split.
  - rewrite <- Hd. unfold disk_inode. by rewrite HD.
  - intros d Hdr. rewrite <- E7 by done. unfold used. rewrite HD; [done|]. by apply (layout_map _ ds _ d (ao_layout _ _ _ R1)).
  - intros b Hb Hm Hne. rewrite HD by done. by apply E8.
  - intros inum Hr Hne Hh Hm. rewrite <- E9 by done. unfold disk_inode. by rewrite HD.
Qed.

(** C4. Dropping the last reference to a file without a name removes the file, atomically with
    respect to crashes.  From a quiet file system, [begin_op], [iput] and [end_op]: whenever
    the machine stops, after recovery either no block has changed, or the inode on the
    disk is free, every block of the file is free again, no other block has become free or
    used, and the other blocks and the other inodes are as before.  At the end that is what
    the disk holds, and the entry of the table of inodes is free. *)
Theorem iput_crash_safe (fuel : nat) (d0 : Z -> list Z) (dev st ds : Z) (p : nat) (pid : Z) (spurious : Prop) (ws : list (Z * list Z))
    (ip : nat) (s : fss) (a := view_of d0 ws s) (x := inode_at a ip) :
  fs_quiet d0 dev st p pid ws s -> trunc_ready dev st ds ip a -> (ip < Z.to_nat NINODE)%nat ->
  i_ref x = 1 -> i_valid x <> 0 -> i_nlink x = 0 -> sl_locked (i_lock x) = 0 ->
  wp spurious (sub_rel (env d0 dev p pid spurious))
    (fun s' => let D := recovered st (dblock d0 (b_writes (l_b (fs_l s')))) in
       (forall b, home st b -> D b = dblock d0 ws b) \/ removed st ip a D)
    (fun _ s' => exists ws', fs_quiet d0 dev st p pid ws' s' /\ removed st ip a (dblock d0 ws') /\
       i_ref (get_inode s' ip) = 0 /\ forall j, j <> ip -> get_inode s' j = get_inode s j)
    ((lift (log_begin_op fuel) ;;; r <- fs_iput (S fuel) ip ;; lift (log_end_op (S fuel)) ;;; ret r) s).
Proof.
  intros Hq R Hn Hr Hv Hl Hk. pose proof (fo_ip _ _ _ _ (tr_file _ _ _ _ _ R)) as Hip.
  eapply wp_weaken; [done| |eapply wp_mono; [apply (transaction_wp fuel d0 dev st p pid spurious s ws _ (fun _ a' => dropped_last dev ip a a') Hq)|]].
  - intros s' [Hold|(a' & (_ & HV) & HD)]; [by left|]. right. by eapply dropped_removed.
  - intros s1 H1. eapply wp_mono; [by apply (iput_last_wp fuel d0 dev st ds p pid spurious ws ip s1 a)|]. intros [] s' (a' & H' & HL). exists a'. split; [done|].
    split; [|done]. destruct HL as [(y & HE & _) _]. apply (em_held _ _ _ _ _ HE).
  - intros [] s' (ws' & a' & HL & Hq' & Et & _ & HD). exists ws'. split; [done|]. split; [by eapply dropped_removed|]. destruct HL as [(y & HE & Hy & _) _].
    unfold get_inode. rewrite Et, (em_inodes _ _ _ _ _ HE). split; [by rewrite list_lookup_insert_eq|]. intros j Hj. by rewrite list_lookup_insert_ne.
Qed.

(** ** A file of two blocks, one of them indirect *)

(** Blocks 46 and 48 hold the file, block 47 the addresses; no directory names it. *)
Definition orphan : inode := mk_inode 1 2 1 (mk_sleeplock 0 "inode" 0) 1 T_FILE 0 0 0 13312 (46 :: replicate 11 0 ++ [47]).
Definition orphan_disk (sector : Z) : list Z :=
  if sector =? 2 * 45 then replicate 6 255 ++ 1 :: replicate 1017 0
  else if sector =? 2 * 32 then splice zeros 128 (encode_dinode (inode_dinode orphan))
  else if sector =? 2 * 46 then sevens
  else if sector =? 2 * 47 then splice zeros 0 (le_bytes 4 48)
  else if sector =? 2 * 48 then sevens else zeros.
Definition orphan_fs : fss := mk_fss demo_boot [orphan] demo_sb.
Notation orphan_view := (view_of orphan_disk [] orphan_fs).

Lemma orphan_used b : 0 <= b < 1000 -> used (dblock orphan_disk []) demo_sb b = (b <? 49).
Proof.
  intros Hb. assert (H : forallb (fun k => Bool.eqb (used_bit (dblock orphan_disk [] 45) (Z.of_nat k)) (Z.of_nat k <? 49)) (seq 0 1000) = true) by (by vm_compute).
  rewrite forallb_forall in H. specialize (H (Z.to_nat b) ltac:(apply in_seq; lia)). apply eqb_prop in H. rewrite Z2Nat.id in H by lia. rewrite <- H.
  unfold used, BBLOCK, demo_sb, sb_bmapstart. change BPB with 8192. rewrite Z.div_small, Z.mod_small by lia. done.
Qed.

Lemma orphan_slot k : 0 <= k < NSLOT -> vslot orphan_view 0 k = if k =? 0 then 46 else if k =? 12 then 47 else if k =? 13 then 48 else 0.
Proof.
  intros Hk. assert (H : forallb (fun j => let k := Z.of_nat j in vslot orphan_view 0 k =? (if k =? 0 then 46 else if k =? 12 then 47 else if k =? 13 then 48 else 0)) (seq 0 269) = true) by (by vm_compute).
  rewrite forallb_forall in H. change NSLOT with 269 in Hk. specialize (H (Z.to_nat k) ltac:(apply in_seq; lia)). cbn zeta in H. rewrite Z2Nat.id in H by lia. by apply Z.eqb_eq in H.
Qed.

Lemma orphan_ready : trunc_ready 1 2 46 0 orphan_view.
Proof.
  split; try done; [| | | |unfold room; vm_compute; lia].
  - split; [split; by vm_compute| |done]. intros b Hb. change (used (dblock orphan_disk []) demo_sb b = true). rewrite orphan_used by lia. apply Z.ltb_lt. lia.
  - split; try done; [cbn; lia| |].
    + intros k Hk. rewrite orphan_slot by done. repeat (destruct (_ =? _); [intros _; split; [by vm_compute|by apply orphan_used]|]). done.
    + intros j k Hj Hk. rewrite !orphan_slot by done.
      destruct (Z.eqb_spec j 0), (Z.eqb_spec k 0), (Z.eqb_spec j 12), (Z.eqb_spec k 12), (Z.eqb_spec j 13), (Z.eqb_spec k 13); try done; by subst.
  - assert (E : IBLOCK (i_inum (inode_at orphan_view 0)) (v_sb orphan_view) = 32) by (by vm_compute).
    split; rewrite E; [pose proof LOGSIZE_eq; unfold home; lia|lia|]. intros (c & Hc & E'). cbn [sb_size v_sb view_of fs_sb orphan_fs demo_sb] in Hc.
    revert E'. unfold BBLOCK. rewrite Z.div_small by (change BPB with 8192; lia). by vm_compute.
  - by repeat split; try apply Forall_cons; repeat constructor.
Qed.

Lemma orphan_quiet : fs_quiet orphan_disk 1 2 0 1 [] orphan_fs.
Proof. split; try done. apply demo_boot_rep. intros sec. unfold orphan_disk. by repeat destruct (_ =? _). Qed.

Lemma iput_crash_safe_witness :
  wp False (sub_rel (env orphan_disk 1 0 1 False))
    (fun s' => let D := recovered 2 (dblock orphan_disk (b_writes (l_b (fs_l s')))) in
       (forall b, home 2 b -> D b = dblock orphan_disk [] b) \/ removed 2 0 orphan_view D)
    (fun _ s' => exists ws', fs_quiet orphan_disk 1 2 0 1 ws' s' /\ removed 2 0 orphan_view (dblock orphan_disk ws') /\
       i_ref (get_inode s' 0) = 0 /\ forall j, j <> 0%nat -> get_inode s' j = get_inode orphan_fs j)
    ((lift (log_begin_op 0) ;;; r <- fs_iput 1 0 ;; lift (log_end_op 1) ;;; ret r) orphan_fs).
Proof.
  apply (iput_crash_safe 0 orphan_disk 1 2 46 0 1 False [] 0 orphan_fs orphan_quiet orphan_ready); try done. apply Nat.ltb_lt. reflexivity.
Defined.
