(* ===== verification/FsPath.v ===== *)
(** * Path names: namex, ilock and iunlock of kernel/fs.c

    A path is a list of names, the disk a tree of directories.  [namex] walks the tree: it
    returns the inode that the path leads to, or the parent and the last name, and leaves
    no other reference behind. *)
From stdpp Require Import gmap list strings.
From S2P Require Import Prelude Kstring Abi Machine Spinlock Kalloc Vm Proc Sched Sleeplock UserMem Virtio Bio Log Fs File Wp BioList BlockEnv VirtioSpec BioSpec LogSpec LogCrash LogWrite FsTx FsBitmap FsAlloc FsFile FsRw FsWrite FsAtomic FsDir FsTrunc.

(** ** The names of a path *)

(** Split at the slashes. *)
Fixpoint pieces (path : list Z) : list (list Z) :=
  match path with
  | [] => [[]]
  | c :: rest => if c =? SLASH then [] :: pieces rest else match pieces rest with [] => [[c]] | e :: es => (c :: e) :: es end
  end.
Definition elements (path : list Z) : list (list Z) := map (take (Z.to_nat DIRSIZ)) (filter (fun e => e <> []) (pieces path)).

Lemma pieces_slashes path : filter (fun e => e <> []) (pieces (skip_slashes path)) = filter (fun e => e <> []) (pieces path).
Proof. induction path as [|c path IH]; [done|]. cbn [skip_slashes pieces]. destruct (c =? SLASH) eqn:E; [|by cbn [pieces]; rewrite E]. rewrite IH. by rewrite filter_cons_False by tauto. Qed.

Lemma elements_slashes path : elements (skip_slashes path) = elements path.
Proof. unfold elements. by rewrite pieces_slashes. Qed.

(** The name at the start and what follows it. *)
Lemma span_pieces path : exists es, pieces path = (span_elem path).1 :: es /\
  filter (fun e => e <> []) es = filter (fun e => e <> []) (pieces (span_elem path).2).
Proof.
  induction path as [|c path (es & E1 & E2)]; [by exists []|]. cbn [pieces span_elem]. destruct (c =? SLASH) eqn:Ec.
  - eexists. split; [done|]. cbn [pieces snd]. rewrite Ec. by rewrite (filter_cons_False _ []) by tauto.
  - destruct (span_elem path) as [e r]. cbn [fst snd] in *. rewrite E1. by exists es.
Qed.

Lemma skip_length path : (length (skip_slashes path) <= length path)%nat.
Proof. induction path as [|c path IH]; [done|]. cbn. destruct (c =? SLASH); cbn; lia. Qed.

Lemma span_length path : length path = (length (span_elem path).1 + length (span_elem path).2)%nat.
Proof. induction path as [|c path IH]; [done|]. cbn. destruct (c =? SLASH); [done|]. destruct (span_elem path). cbn in *. lia. Qed.

Lemma skip_head path c rest : skip_slashes path = c :: rest -> (c =? SLASH) = false.
Proof. induction path as [|d path IH]; [done|]. cbn. destruct (d =? SLASH) eqn:E; [done|]. intros H. congruence. Qed.

Lemma skipelem_spec path :
  match skipelem path with
  | None => elements path = []
  | Some (rest, name) => elements path = name :: elements rest /\ (length rest < length path)%nat /\ (rest = [] <-> elements rest = [])
  end.
Proof.
  unfold skipelem. rewrite <- (elements_slashes path). pose proof (skip_length path) as Hl. pose proof (skip_head path) as Hh. destruct (skip_slashes path) as [|c q] eqn:Es; [done|].
  specialize (Hh c q eq_refl). destruct (span_pieces (c :: q)) as (es & E1 & E2). pose proof (span_length (c :: q)) as Hsl. destruct (span_elem (c :: q)) as [e r] eqn:Ee. cbn [fst snd] in *.
  assert (He : e <> []) by (cbn in Ee; rewrite Hh in Ee; destruct (span_elem q); congruence). split; [|split].
  - unfold elements. rewrite E1, filter_cons_True by done. cbn [map]. by rewrite pieces_slashes, E2.
  - pose proof (skip_length r). destruct e; [done|]. cbn in Hsl, Hl. lia.
  - split; [by intros ->|]. intros H. pose proof (skip_head r) as Hr. destruct (skip_slashes r) as [|d r'] eqn:Er; [done|]. exfalso. specialize (Hr d r' eq_refl).
    destruct (span_pieces (d :: r')) as (es' & E1' & _). revert H. unfold elements. rewrite E1'. rewrite filter_cons_True; [done|]. cbn. rewrite Hr. by destruct (span_elem r').
Qed.

(** ** Locking an inode *)

Section Path.
Variables (fuel : nat) (d0 : Z -> list Z) (dev st ds : Z) (p : nat) (pid : Z) (spurious : Prop) (ws : list (Z * list Z)).
Notation txn := (txn d0 dev st p pid ws).
Notation twp := (wp spurious (sub_rel (env d0 dev p pid spurious)) (fun s : fss => b_writes (l_b (fs_l s)) = ws)).
Notation calm := (calm p pid).

Lemma inode_holdingsleep ip m s : calm m -> (ip < Z.to_nat NINODE)%nat -> sl_locked (i_lock (get_inode s ip)) = 1 -> sl_pid (i_lock (get_inode s ip)) = pid ->
  holdingsleep (inode_sl ip) (at_machine m s) = Ok true (at_machine (settle m) s).
Proof.
  intros Hm Hi H1 H2. unfold holdingsleep. cbn [inode_sl sl_lk]. assert (Hb : block_lock (Lk_inode ip)) by (do 5 right; by exists ip).
  erewrite bind_ok by (by apply fss_lift, (calm_acquire p pid)). mgo.
  change (sl_get (inode_sl ip) (at_machine ?m s)) with (i_lock (get_inode s ip)). rewrite H1, H2. cbn [Z.eqb]. erewrite bind_ok.
  2: { erewrite bind_ok by (by apply fss_lift, (calm_curproc p pid)). erewrite bind_ok by (apply fss_lift; reflexivity).
       rewrite get_proc_hold, (ca_pid _ _ _ Hm), Z.eqb_refl. reflexivity. }
  by erewrite bind_ok by (by apply fss_lift, (calm_release p pid)).
Qed.

(** A block that the process does not hold is as on the disk or in the log. *)
Lemma t_clean s a bn : txn s a -> v_held a !! bn = None -> bn ∈ v_log a \/ v_disk a bn = dblock d0 ws bn.
Proof.
  intros [(G & _ & Hc) _ _ _ _ _ _] Hn. specialize (Hc bn). rewrite Hn in Hc. destruct (decide (bn ∈ v_log a)); [by left|]. right. by destruct Hc.
Qed.

Variables (ip : nat) (x : inode) (l : list inode) (a : view_).
Hypotheses (Hx : l !! ip = Some x) (Hip : (ip < Z.to_nat NINODE)%nat) (Href : 0 < i_ref x).
Notation n := (i_inum x).

Lemma iunlock_eq s : txn s (with_inodes l a) -> sl_locked (i_lock x) = 1 -> sl_pid (i_lock x) = pid ->
  exists s', iunlock ip s = Ok tt s' /\ txn s' (with_inodes (<[ip := locked_as 0 0 x]> l) a).
Proof.
  intros Hs H1 H2. destruct (t_calm _ _ _ _ _ _ _ _ Hs) as [Hm _]. pose proof (t_inodes _ _ _ _ _ _ _ _ Hs) as Et. cbn in Et.
  assert (Eg : get_inode s ip = x) by (unfold get_inode; by rewrite Et, Hx). set (m := b_m (l_b (fs_l s))) in *.
  assert (Hl : (ip < length (fs_itable s))%nat) by (rewrite Et; by eapply lookup_lt_Some).
  destruct (inode_releasesleep p pid ip (settle m) s (calm_settle p pid m Hm) Hip Hl) as (m' & Hm' & E').
  exists (at_machine m' (upd_inode ip (locked_as 0 0) s)). split.
  - unfold iunlock. rewrite <- (at_machine_self s) at 1. fold m. erewrite bind_ok by (apply inode_holdingsleep; by rewrite ?Eg). unfold inode_get. mgo.
    change (get_inode (at_machine ?m s) ip) with (get_inode s ip). rewrite Eg, (proj2 (Z.ltb_ge _ _)) by lia. exact E'.
  - destruct (t_calm _ _ _ _ _ _ _ _ (t_inode_set d0 dev st p pid ws ip s _ (locked_as 0 0) Hs)) as [_ H]. specialize (H m' Hm'). unfold with_inode, inode_at in H. cbn in H. by rewrite Hx in H.
Qed.

(** The inode in memory says what the disk says. *)
Definition agrees (y : inode) : Prop := inode_dinode y = disk_inode (v_disk a) (v_sb a) (i_inum y).

Lemma ilock_wp s :
  txn s (with_inodes l a) -> i_dev x = dev -> sl_locked (i_lock x) = 0 -> (i_valid x <> 0 -> agrees x) ->
  home st (IBLOCK n (v_sb a)) -> di_type (disk_inode (v_disk a) (v_sb a) n) <> 0 -> v_held a = ∅ -> room 1 a ->
  twp (fun _ s' => exists y, txn s' (with_inodes (<[ip := y]> l) a) /\ i_ref y = i_ref x /\ i_dev y = dev /\ i_inum y = n /\
         i_valid y <> 0 /\ agrees y /\ sl_locked (i_lock y) = 1 /\ sl_pid (i_lock y) = pid) (ilock (S fuel) ip s).
Proof.
  intros Hs Hd H0 Hv Hh Ht Hheld Hr. destruct (t_calm _ _ _ _ _ _ _ _ Hs) as [Hm _]. pose proof (t_inodes _ _ _ _ _ _ _ _ Hs) as Et. cbn in Et.
  assert (Eg : get_inode s ip = x) by (unfold get_inode; by rewrite Et, Hx). set (m := b_m (l_b (fs_l s))) in *.
  assert (Hl : (ip < length (fs_itable s))%nat) by (rewrite Et; by eapply lookup_lt_Some).
  unfold ilock, inode_get. mgo. rewrite Eg, (proj2 (Z.ltb_ge _ _)) by lia. rewrite <- (at_machine_self s). fold m.
  erewrite bind_ok. 2:{ apply (inode_acquiresleep fuel p pid ip m s); [by apply (calm_ok p pid)| |apply Hm|apply Hm|done|by rewrite Eg]. apply (ca_locks _ _ _ Hm). do 5 right. by exists ip. }
  destruct (t_calm _ _ _ _ _ _ _ _ (t_inode_set d0 dev st p pid ws ip s _ (locked_as 1 pid) Hs)) as [_ H1]. specialize (H1 _ (calm_settle p pid m Hm)).
  unfold with_inode, inode_at in H1. cbn in H1. rewrite Hx in H1. cbn [default] in H1. set (s1 := at_machine _ _) in *. mgo.
  pose proof (t_inodes _ _ _ _ _ _ _ _ H1) as Et1. assert (Hl' : (ip < length l)%nat) by (by eapply lookup_lt_Some).
  assert (Eg1 : get_inode s1 ip = locked_as 1 pid x) by (unfold get_inode; rewrite Et1; cbn; by rewrite list_lookup_insert_eq).
  rewrite Eg1. cbn [i_valid i_dev i_inum locked_as set_i_lock]. destruct (Z.eqb_spec (i_valid x) 0) as [Ev|Ev].
  2:{ exists (locked_as 1 pid x). split; [exact H1|]. do 3 (split; [done|]). split; [done|]. split; [exact (Hv Ev)|done]. }
  unfold sb_get. mgo. rewrite (t_sb _ _ _ _ _ _ _ _ H1), Hd. cbn [v_sb with_inodes]. set (bn := IBLOCK n (v_sb a)) in *. unfold room in Hr.
  eapply (t_bread fuel); [exact H1|cbn; by rewrite Hheld|apply Hh|cbn; lia|]. intros b s2 H2. set (A := taking bn b _) in H2.
  eapply wp_bind_ok; [apply (t_bdata fuel d0 dev st p pid spurious ws s2 A bn b H2), lookup_insert_eq|]. cbn [A taking v_disk with_inodes].
  change (decode_dinode (v_disk a bn) (dinode_off n)) with (disk_inode (v_disk a) (v_sb a) n). set (d := disk_inode _ _ _) in *. unfold inode_set. mgo.
  pose proof (t_inodes _ _ _ _ _ _ _ _ H2) as Et2. cbn in Et2.
  rewrite !upd_upd_inode by (cbn; rewrite ?length_insert, Et2, length_insert; done).
  set (f := fun y : inode => _) at 1. pose proof (t_inode_set d0 dev st p pid ws ip s2 A f H2) as H3. unfold with_inode, inode_at in H3. cbn [A taking v_inodes with_inodes] in H3.
  rewrite list_lookup_insert_eq, list_insert_insert_eq in H3 by done. cbn [default] in H3.
  destruct (t_brelse d0 dev st p pid ws _ _ bn b H3) as (s4 & E4 & H4); [apply lookup_insert_eq|apply (t_clean s1 _ bn H1); cbn; by rewrite Hheld|].
  eapply wp_bind_ok; [exact E4|]. mgo. set (y := f (locked_as 1 pid x)) in *.
  assert (EA : dropped bn (with_inodes (<[ip:=y]> l) A) = with_inodes (<[ip:=y]> l) a).
  { unfold dropped, A, with_inodes. cbn. rewrite delete_insert_id by (by rewrite Hheld). done. }
  assert (H4' : txn s4 (with_inodes (<[ip:=y]> l) a)) by (rewrite <- EA; exact H4).
  pose proof (t_inode_set d0 dev st p pid ws ip s4 _ (set_i_valid 1) H4') as H5. unfold with_inode, inode_at in H5. cbn [v_inodes with_inodes] in H5.
  rewrite list_lookup_insert_eq, list_insert_insert_eq in H5 by done. cbn [default] in H5.
  assert (Eg5 : get_inode (upd_inode ip (set_i_valid 1) s4) ip = set_i_valid 1 y).
  { unfold get_inode. rewrite (t_inodes _ _ _ _ _ _ _ _ H5). cbn. by rewrite list_lookup_insert_eq. }
  rewrite Eg5. cbn [i_type set_i_valid y f]. rewrite (proj2 (Z.eqb_neq _ _)) by (unfold y, f; exact Ht).
  exists (set_i_valid 1 y). split; [exact H5|]. unfold y, f, agrees, d. cbn. do 4 (split; [done|]). split; [reflexivity|done].
Qed.
End Path.

(** ** The tree on the disk *)

Section Tree.
Variables (dev st ds : Z) (a : view_).

(** The inode as [ilock] reads it, alone in the table. *)
Definition loaded (n : Z) : inode :=
  let d := disk_inode (v_disk a) (v_sb a) n in
  mk_inode dev n 1 (mk_sleeplock 0 "inode" 0) 1 (di_type d) (di_major d) (di_minor d) (di_nlink d) (di_size d) (di_addrs d).
Definition disk_view (n : Z) : view_ := with_inodes [loaded n] a.

(** What a directory on the disk holds; nothing for another file. *)
Definition children (n : Z) : option dir :=
  if di_type (disk_inode (v_disk a) (v_sb a) n) =? T_DIR then Some (dir_of 0 (disk_view n)) else None.

Fixpoint walk (n : Z) (es : list (list Z)) : option Z :=
  match es with
  | [] => Some n
  | e :: es => m ← children n; n' ← m !! key e; walk n' es
  end.

(** The directory of the last name. *)
Fixpoint walk_parent (n : Z) (es : list (list Z)) : option (Z * list Z) :=
  match es with
  | [] => None
  | [e] => _ ← children n; Some (n, e)
  | e :: es => m ← children n; n' ← m !! key e; walk_parent n' es
  end.

(** The inodes [N] are in use, linked, and closed under the names in their directories. *)
Record tree_ok (N : gset Z) : Prop := {
  to_home : forall n, n ∈ N -> home st (IBLOCK n (v_sb a));
  to_type : forall n, n ∈ N -> di_type (disk_inode (v_disk a) (v_sb a) n) <> 0;
  to_link : forall n, n ∈ N -> di_nlink (disk_inode (v_disk a) (v_sb a) n) <> 0;
  to_dir : forall n m, n ∈ N -> children n = Some m -> dir_ok dev st ds 0 (disk_view n);
  to_closed : forall n m k n', n ∈ N -> children n = Some m -> m !! k = Some n' -> n' ∈ N
}.

(** An entry of the table that agrees with the disk is the same file and directory. *)
Lemma loaded_same l ip x : l !! ip = Some x -> agrees a x ->
  (forall k, vslot (with_inodes l a) ip k = vslot (disk_view (i_inum x)) 0 k) /\ dir_of ip (with_inodes l a) = dir_of 0 (disk_view (i_inum x)) /\
  inode_dinode (inode_at (with_inodes l a) ip) = inode_dinode (loaded (i_inum x)).
Proof.
  intros Hx Ha. unfold agrees in Ha. set (n := i_inum x) in *. assert (E0 : inode_at (disk_view n) 0 = loaded n) by done.
  assert (E1 : inode_at (with_inodes l a) ip = x) by (unfold inode_at; cbn; by rewrite Hx). assert (Ed : inode_dinode x = inode_dinode (loaded n)) by (by rewrite Ha).
  assert (Esl : forall k, vslot (with_inodes l a) ip k = vslot (disk_view n) 0 k).
  { intros k. rewrite E0, E1. apply slot_ext; [exact (f_equal di_addrs Ed)|done]. }
  split; [done|]. rewrite E1. split; [|done]. unfold dir_of. rewrite E1, E0, (f_equal di_size Ed : i_size x = i_size (loaded n)). f_equal. apply entries_ext. intros i _.
  unfold fbyte, fblock. pose proof (Esl (idx (i / BSIZE))) as E. rewrite E1, E0 in E. by rewrite E.
Qed.

Lemma loaded_dir l ip x : l !! ip = Some x -> i_dev x = dev -> agrees a x -> dir_ok dev st ds 0 (disk_view (i_inum x)) ->
  dir_ok dev st ds ip (with_inodes l a) /\ dir_of ip (with_inodes l a) = dir_of 0 (disk_view (i_inum x)).
Proof.
  intros Hx Hd Ha [[L1 L2 L3] [F1 F2 F3 F4 F5] H3 H4 H5 H6 H7]. destruct (loaded_same l ip x Hx Ha) as (Esl & Edir & Ed). set (n := i_inum x) in *. split; [|done].
  assert (E1 : inode_at (with_inodes l a) ip = x) by (unfold inode_at; cbn; by rewrite Hx). change (inode_at (disk_view n) 0) with (loaded n) in *. rewrite E1 in Ed.
  pose proof (f_equal di_addrs Ed : i_addrs x = i_addrs (loaded n)) as Ea. pose proof (f_equal di_size Ed : i_size x = i_size (loaded n)) as Es.
  pose proof (f_equal di_type Ed : i_type x = i_type (loaded n)) as Ety. split; rewrite ?E1, ?Es, ?Ety; try done.
  - split; rewrite ?E1; [cbn; by eapply lookup_lt_Some|done|by rewrite Ea|intros k; rewrite <- E1, Esl; apply F4|intros j k; rewrite <- E1, !Esl; apply F5].
  - intros bn Hb Hlt. rewrite Esl. apply H3; [done|]. rewrite E1, Es in Hlt. exact Hlt.
Qed.
End Tree.

(** ** The table of inodes during the walk *)

Definition refs (l : list inode) (j : nat) : Z := i_ref (default inode_zero (l !! j)).

(** Two entries are free: one for the directory, one for what is found in it. *)
Definition two_free (l : list inode) : Prop :=
  exists i j, i <> j /\ (i < Z.to_nat NINODE)%nat /\ (j < Z.to_nat NINODE)%nat /\ refs l i = 0 /\ refs l j = 0.

(** The entries in use still stand for the same inodes. *)
Definition kept (l l' : list inode) : Prop :=
  forall k x, l !! k = Some x -> 0 < i_ref x -> exists y, l' !! k = Some y /\ i_dev y = i_dev x /\ i_inum y = i_inum x.

Lemma kept_trans l l1 l2 : kept l l1 -> (forall k, refs l k <= refs l1 k) -> kept l1 l2 -> kept l l2.
Proof.
  intros H1 Hr H2 k x Hx Hp. destruct (H1 k x Hx Hp) as (y & Hy & Ey1 & Ey2). specialize (Hr k). unfold refs in Hr. rewrite Hx, Hy in Hr. cbn in Hr.
  destruct (H2 k y Hy ltac:(lia)) as (z & Hz & Ez1 & Ez2). exists z. split; [done|]. split; congruence.
Qed.

Lemma kept_insert l j x y : l !! j = Some x -> i_dev y = i_dev x -> i_inum y = i_inum x -> kept l (<[j := y]> l).
Proof.
  intros Hx Hd Hn k z Hz _. destruct (decide (k = j)) as [->|Hk].
  - rewrite Hx in Hz. injection Hz as <-. exists y. split; [|done]. apply list_lookup_insert_eq. by eapply lookup_lt_Some.
  - exists z. by rewrite list_lookup_insert_ne.
Qed.

Section Table.
Variables (dev pid : Z) (a : view_) (N : gset Z).

(** Only the inode [o] is locked, by this process, and the inodes in use agree with the disk. *)
Definition lock_ok (o : option nat) (j : nat) (x : inode) : Prop :=
  if decide (o = Some j) then sl_locked (i_lock x) = 1 /\ sl_pid (i_lock x) = pid else sl_locked (i_lock x) = 0.
Definition entry_ok (x : inode) : Prop :=
  0 <= i_ref x /\ (0 < i_ref x -> i_dev x = dev -> i_inum x ∈ N -> i_valid x <> 0 -> agrees a x).
Record table_ok (o : option nat) (l : list inode) : Prop := {
  tb_len : length l = Z.to_nat NINODE;
  tb_lock : forall j x, l !! j = Some x -> lock_ok o j x;
  tb_entry : forall j x, l !! j = Some x -> entry_ok x
}.

Lemma refs_insert l j y k : (j < length l)%nat -> refs (<[j := y]> l) k = if decide (k = j) then i_ref y else refs l k.
Proof. intros Hj. unfold refs. destruct (decide (k = j)) as [->|Hk]; [by rewrite list_lookup_insert_eq|by rewrite list_lookup_insert_ne]. Qed.

Lemma table_set o o' l j y : table_ok o l -> (forall k, k <> j -> o = Some k <-> o' = Some k) -> lock_ok o' j y -> entry_ok y -> table_ok o' (<[j := y]> l).
Proof.
  intros [T1 T2 T3] Ho Hl He. split; [by rewrite length_insert| |]; intros k x; (destruct (decide (k = j)) as [->|Hk];
    [intros Hx; assert (Hj : (j < length l)%nat) by (apply lookup_lt_Some in Hx; by rewrite length_insert in Hx); rewrite list_lookup_insert_eq in Hx by done; by injection Hx as <-|
     rewrite list_lookup_insert_ne by done; intros Hx]).
  - specialize (T2 k x Hx). unfold lock_ok in *. specialize (Ho k Hk). destruct (decide (o = Some k)), (decide (o' = Some k)); tauto.
  - by eapply T3.
Qed.

(** [iget] adds one reference. *)
Lemma igot_ok o n l j l' : table_ok o l -> igot dev n l j l' ->
  table_ok o l' /\ (forall k, refs l' k = refs l k + if decide (k = j) then 1 else 0) /\ (exists y, l' !! j = Some y /\ refers dev n y) /\
  (forall k x, l !! k = Some x -> 0 < i_ref x -> l' !! k = Some (set_i_ref (refs l' k) x)).
Proof.
  intros Ht (x & Hx & H). pose proof (lookup_lt_Some _ _ _ Hx) as Hj. pose proof (tb_lock _ _ Ht j x Hx) as Hl. destruct (tb_entry _ _ Ht j x Hx) as [Hr Ha].
  assert (Erx : refs l j = i_ref x) by (unfold refs; by rewrite Hx). assert (Hself : forall y : inode, set_i_ref (i_ref y) y = y) by (by intros []).
  destruct H as [[Hf ->]|(H0 & _ & ->)].
  - split; [|split; [|split]].
    + apply (table_set o); try done. split; [cbn; lia|]. intros _. exact (Ha (proj1 Hf)).
    + intros k. rewrite refs_insert by done. destruct (decide (k = j)) as [->|]; [cbn; lia|lia].
    + eexists. rewrite list_lookup_insert_eq by done. split; [done|]. destruct Hf as (F1 & F2 & F3). split; [cbn; lia|done].
    + intros k y Hy Hp. destruct (decide (k = j)) as [->|Hk].
      * rewrite list_lookup_insert_eq, refs_insert, decide_True by done. rewrite Hx in Hy. by injection Hy as <-.
      * rewrite list_lookup_insert_ne, refs_insert, decide_False by done. unfold refs. rewrite Hy. cbn. by rewrite Hself.
  - split; [|split; [|split]].
    + apply (table_set o); try done.
    + intros k. rewrite refs_insert by done. destruct (decide (k = j)) as [->|]; [cbn; lia|lia].
    + eexists. rewrite list_lookup_insert_eq by done. split; [done|]. split; [cbn; lia|done].
    + intros k y Hy Hp. assert (Hk : k <> j) by (intros ->; rewrite Hx in Hy; injection Hy as <-; lia).
      rewrite list_lookup_insert_ne, refs_insert, decide_False by done. unfold refs. rewrite Hy. cbn. by rewrite Hself.
Qed.

End Table.

Section Walk.
Variables (fuel : nat) (d0 : Z -> list Z) (dev st ds : Z) (p : nat) (pid : Z) (spurious : Prop) (ws : list (Z * list Z)) (a : view_) (N : gset Z).
Notation txn := (txn d0 dev st p pid ws).
Notation twp := (wp spurious (sub_rel (env d0 dev p pid spurious)) (fun s : fss => b_writes (l_b (fs_l s)) = ws)).
Notation table_ok := (table_ok dev pid a N).
Hypotheses (Htree : tree_ok dev st ds a N) (Hheld : v_held a = ∅) (Hroom : room 4 a).

(** [iput] takes one away. *)
Lemma iput_ok l s j x : table_ok None l -> txn s (with_inodes l a) -> l !! j = Some x -> 0 < i_ref x -> i_dev x = dev -> i_inum x ∈ N ->
  exists l' s', fs_iput (S fuel) j s = Ok tt s' /\ txn s' (with_inodes l' a) /\ table_ok None l' /\
    (forall k, refs l' k = refs l k - if decide (k = j) then 1 else 0) /\ kept l l'.
Proof.
  intros Ht Hs Hx Hp Hd Hn. pose proof (lookup_lt_Some _ _ _ Hx) as Hj. destruct (tb_entry _ _ _ _ _ _ Ht j x Hx) as [Hr Ha].
  destruct (iput_eq fuel d0 dev st p pid ws s _ j x Hs Hx) as (s' & E & H').
  { destruct (Z.eqb_spec (i_valid x) 0) as [|Hv]; [by rewrite andb_false_r|]. specialize (Ha Hp Hd Hn Hv). apply (to_link _ _ _ _ _ Htree) in Hn.
    unfold agrees in Ha. rewrite <- Ha in Hn. cbn in Hn. by rewrite (proj2 (Z.eqb_neq (i_nlink x) 0)), andb_false_r. }
  eexists _, s'. split; [exact E|]. split; [exact H'|]. cbn [v_inodes with_inodes]. split; [|split].
  - apply (table_set _ _ _ _ None); try done; [exact (tb_lock _ _ _ _ _ _ Ht j x Hx)|]. split; [cbn; lia|]. intros _. by apply Ha.
  - intros k. rewrite refs_insert by done. unfold refs. destruct (decide (k = j)) as [->|]; [rewrite Hx; cbn; lia|lia].
  - by apply (kept_insert _ _ x).
Qed.

Lemma ilock_ok l s ip x n : table_ok None l -> l !! ip = Some x -> refers dev n x -> n ∈ N -> txn s (with_inodes l a) ->
  twp (fun _ s' => exists l' y, txn s' (with_inodes l' a) /\ table_ok (Some ip) l' /\ kept l l' /\ (forall k, refs l' k = refs l k) /\
         l' !! ip = Some y /\ refers dev n y /\ i_valid y <> 0 /\ agrees a y) (ilock (S fuel) ip s).
Proof.
  intros Ht Hx (Hp & Hd & <-) Hn Hs. pose proof (lookup_lt_Some _ _ _ Hx) as Hj. pose proof (tb_lock _ _ _ _ _ _ Ht ip x Hx) as Hl. destruct (tb_entry _ _ _ _ _ _ Ht ip x Hx) as [_ Ha].
  eapply wp_mono; [apply (ilock_wp fuel d0 dev st p pid spurious ws ip x l a Hx); try done; [rewrite <- (tb_len _ _ _ _ _ _ Ht); done|by apply Ha|by apply (to_home _ _ _ _ _ Htree)|by apply (to_type _ _ _ _ _ Htree)|unfold room in *; lia]|].
  intros [] s' (y & H' & Y1 & Y2 & Y3 & Y4 & Y5 & Y6 & Y7). exists (<[ip := y]> l), y. split; [done|]. split; [|split; [|split; [|split]]].
  - apply (table_set _ _ _ _ None); try done; [intros k Hk; split; congruence|unfold lock_ok; by rewrite decide_True|]. split; [lia|]. by intros.
  - by apply (kept_insert _ _ x); [|congruence|].
  - intros k. rewrite refs_insert by done. destruct (decide (k = ip)) as [->|]; [|done]. unfold refs. by rewrite Hx.
  - by rewrite list_lookup_insert_eq.
  - split; [|done]. split; [lia|done].
Qed.

Lemma iunlock_ok l s ip y : table_ok (Some ip) l -> l !! ip = Some y -> 0 < i_ref y -> txn s (with_inodes l a) ->
  exists s', iunlock ip s = Ok tt s' /\ txn s' (with_inodes (<[ip := locked_as 0 0 y]> l) a) /\ table_ok None (<[ip := locked_as 0 0 y]> l).
Proof.
  intros Ht Hy Hp Hs. pose proof (lookup_lt_Some _ _ _ Hy) as Hj. pose proof (tb_lock _ _ _ _ _ _ Ht ip y Hy) as Hl. unfold lock_ok in Hl. rewrite decide_True in Hl by done. destruct Hl as [L1 L2].
  destruct (iunlock_eq d0 dev st p pid ws ip y l a Hy ltac:(rewrite <- (tb_len _ _ _ _ _ _ Ht); done) Hp s Hs L1 L2) as (s' & E & H'). exists s'. split; [done|]. split; [done|].
  apply (table_set _ _ _ _ (Some ip)); try done; [intros k Hk; split; congruence|]. exact (tb_entry _ _ _ _ _ _ Ht ip y Hy).
Qed.

Lemma iunlockput_ok l s ip y n : table_ok (Some ip) l -> l !! ip = Some y -> refers dev n y -> n ∈ N -> txn s (with_inodes l a) ->
  exists l' s', iunlockput (S fuel) ip s = Ok tt s' /\ txn s' (with_inodes l' a) /\ table_ok None l' /\ (forall k, refs l' k = refs l k - if decide (k = ip) then 1 else 0) /\
    kept l l'.
Proof.
  intros Ht Hy (Hp & Hd & <-) Hn Hs. pose proof (lookup_lt_Some _ _ _ Hy) as Hj. destruct (iunlock_ok l s ip y Ht Hy Hp Hs) as (s1 & E1 & H1 & Ht1).
  destruct (iput_ok _ s1 ip (locked_as 0 0 y) Ht1 H1) as (l' & s2 & E2 & H2 & Ht2 & R2 & K2); try done; [by rewrite list_lookup_insert_eq|].
  exists l', s2. split; [unfold iunlockput; rewrite (bind_ok _ _ _ _ _ E1); exact E2|]. split; [done|]. split; [done|]. split.
  - intros k. rewrite R2, refs_insert by done. destruct (decide (k = ip)) as [->|]; [|done]. unfold refs. by rewrite Hy.
  - apply (kept_trans l (<[ip := locked_as 0 0 y]> l)); [by apply (kept_insert _ _ y)| |done]. intros k. rewrite refs_insert by done.
    destruct (decide (k = ip)) as [->|]; [|done]. unfold refs. by rewrite Hy.
Qed.

(** ** The walk *)

Variable l0 : list inode.
(** The process has one reference more than at the start, to inode [n]; the other entries
    stand for the same inodes as before. *)
Definition here (l : list inode) (ip : nat) (n : Z) : Prop :=
  table_ok None l /\ kept l0 l /\ (forall k, refs l k = refs l0 k + if decide (k = ip) then 1 else 0) /\ exists x, l !! ip = Some x /\ refers dev n x.
Definition target (parent : bool) (n : Z) (es : list (list Z)) : option (Z * list Z) :=
  if parent then walk_parent dev a n es else (fun n' => (n', [])) <$> walk dev a n es.
Definition outcome (parent : bool) (t : option (Z * list Z)) (r : option nat * list Z) (l : list inode) : Prop :=
  match t with
  | None => r.1 = None /\ table_ok None l /\ kept l0 l /\ forall k, refs l k = refs l0 k
  | Some (n, e) => (exists q, r.1 = Some q /\ here l q n) /\ (if parent then r.2 = e else True)
  end.

Hypothesis Hspare : two_free l0.

Lemma here_room l ip (t : Z) : table_ok (Some ip) l -> (forall k, refs l k = refs l0 k + if decide (k = ip) then 1 else 0) -> table_room dev t l.
Proof.
  intros Ht Hr. split; [apply Ht|]. destruct Hspare as (i & j & Hij & Hi & Hj & Ri & Rj).
  assert (exists q, (q < Z.to_nat NINODE)%nat /\ refs l q = 0) as (q & Hq & Rq).
  { destruct (decide (i = ip)) as [->|Hne]; [exists j|exists i]; (split; [done|]); rewrite Hr, decide_False by done; lia. }
  rewrite <- (tb_len _ _ _ _ _ _ Ht) in Hq. destruct (lookup_lt_is_Some_2 _ _ Hq) as [x Hx]. exists q, x. split; [done|]. right. unfold refs in Rq. by rewrite Hx in Rq.
Qed.

Lemma target_file parent n e es : children dev a n = None -> target parent n (e :: es) = None.
Proof. intros H. unfold target. destruct parent; cbn [walk walk_parent]; rewrite ?H; [|done]. by destruct es. Qed.

Lemma target_step parent n e es m : children dev a n = Some m -> parent && (match es with [] => true | _ => false end) = false ->
  target parent n (e :: es) = n' ← m !! key e; target parent n' es.
Proof.
  intros H Hp. unfold target. destruct parent; cbn [walk walk_parent]; rewrite H; cbn [mbind option_bind]; [by destruct es|]. by destruct (m !! key e).
Qed.

(** The round fails, after [ilock]. *)
Lemma give_up_wp parent s ip y n l (r : option nat * list Z) :
  table_ok (Some ip) l -> kept l0 l -> (forall k, refs l k = refs l0 k + if decide (k = ip) then 1 else 0) -> l !! ip = Some y -> refers dev n y -> n ∈ N -> txn s (with_inodes l a) -> r.1 = None ->
  twp (fun r s' => exists l', txn s' (with_inodes l' a) /\ outcome parent None r l') ((iunlockput (S fuel) ip ;;; ret r) s).
Proof.
  intros Ht Hk Hr Hy Hyr Hn Hs Er. destruct (iunlockput_ok l s ip y n Ht Hy Hyr Hn Hs) as (l' & s' & E & H' & Ht' & R' & Hk'). eapply wp_bind_ok; [exact E|]. exists l'.
  split; [done|]. split; [done|]. split; [done|]. split; [|intros k; rewrite R', Hr; lia]. apply (kept_trans l0 l); [done| |done]. intros k. rewrite Hr. destruct (decide _); lia.
Qed.

(** The next directory, with the reference to this one given back. *)
Lemma step_down s ip y n l q n' l' :
  table_ok (Some ip) l -> kept l0 l -> (forall k, refs l k = refs l0 k + if decide (k = ip) then 1 else 0) -> l !! ip = Some y -> refers dev n y -> n ∈ N ->
  igot dev n' l q l' -> txn s (with_inodes l' a) -> exists l2 s2, iunlockput (S fuel) ip s = Ok tt s2 /\ txn s2 (with_inodes l2 a) /\ here l2 q n'.
Proof.
  intros Ht Hkl Hr Hy Hyr Hn Hg Hs. destruct (igot_ok _ _ _ _ (Some ip) n' l q l' Ht Hg) as (Ht' & R' & (z & Hz & Hzr) & Hkeep).
  pose proof (Hkeep ip y Hy (proj1 Hyr)) as Hy'. destruct (Hyr) as (Y1 & Y2 & Y3).
  assert (Hyr' : refers dev n (set_i_ref (refs l' ip) y)).
  { split; [|done]. cbn. rewrite R'. unfold refs. rewrite Hy. cbn. destruct (decide _); lia. }
  destruct (iunlockput_ok l' s ip _ n Ht' Hy' Hyr' Hn Hs) as (l2 & s2 & E2 & H2 & Ht2 & R2 & Hall). exists l2, s2. split; [done|]. split; [done|].
  assert (Rall : forall k, refs l2 k = refs l0 k + if decide (k = q) then 1 else 0) by (intros k; rewrite R2, R', Hr; lia).
  assert (Hle : forall k, refs l0 k <= refs l k <= refs l' k) by (intros k; rewrite R', Hr; repeat destruct (decide _); lia).
  split; [done|]. split; [|split; [done|]].
  { apply (kept_trans l0 l'); [|intros k; specialize (Hle k); lia|done]. apply (kept_trans l0 l); [done|intros k; specialize (Hle k); lia|].
    intros k x Hx Hp. rewrite (Hkeep k x Hx Hp). by eexists. }
  destruct (Hall q z Hz (proj1 Hzr)) as (z' & Hz' & Z1 & Z2). exists z'. split; [done|]. destruct Hzr as (_ & W2 & W3). split; [|by rewrite Z1, Z2].
  pose proof (Rall q) as Rq. rewrite decide_True in Rq by done. unfold refs at 1 in Rq. rewrite Hz' in Rq. cbn in Rq.
  assert (0 <= refs l0 q); [|lia]. specialize (Hr q). unfold refs in Hr at 1. destruct (decide (q = ip)) as [->|].
  - rewrite Hy in Hr. cbn in Hr. lia.
  - destruct (l !! q) as [w|] eqn:Ew; cbn in Hr; [destruct (tb_entry _ _ _ _ _ _ Ht q w Ew)|]; lia.
Qed.

Lemma namex_loop_wp parent k : forall path name ip n l s, (length path <= k)%nat -> txn s (with_inodes l a) -> n ∈ N -> here l ip n ->
  twp (fun r s' => exists l', txn s' (with_inodes l' a) /\ outcome parent (target parent n (elements path)) r l') (namex_loop (S fuel) k ip path parent name s).
Proof.
  induction k as [|k IH]; intros path name ip n l s Hk Hs Hn (Ht & Hkl & Hr & x & Hx & Hrf); cbn [namex_loop]; pose proof (skipelem_spec path) as Hsk; destruct (skipelem path) as [[rest e]|].
  all: try (destruct Hsk as (Ees & Hlt & Hnil)). 1: lia. 1,3: rewrite Hsk; destruct parent.
  1,3: destruct Hrf as (F1 & F2 & <-); destruct (iput_ok l s ip x Ht Hs Hx F1 F2 Hn) as (l' & s' & E & H' & Ht' & R' & Hk'); eapply wp_bind_ok; [exact E|]; exists l'; split; [done|];
    split; [done|]; split; [done|]; split; [apply (kept_trans l0 l); [done| |done]|]; intros k'; rewrite ?R', Hr; destruct (decide _); lia.
  1,2: exists l; split; [done|]; split; [|done]; exists ip; split; [done|]; split; [done|]; split; [done|]; split; [done|]; by exists x.
  rewrite Ees. eapply wp_call; [by apply (ilock_ok l s ip x n)|]. intros [] s1 (l1 & y & H1 & Ht1 & Hk1 & R1 & Hy & Hyr & Hv & Hag).
  assert (Hkl1 : kept l0 l1) by (apply (kept_trans l0 l); [done| |done]; intros k'; rewrite Hr; destruct (decide _); lia).
  assert (Hr1 : forall k, refs l1 k = refs l0 k + if decide (k = ip) then 1 else 0) by (intros k'; by rewrite R1, Hr). destruct (Hyr) as (_ & Yd & Yn). unfold inode_get. mgo.
  assert (Eg : get_inode s1 ip = y) by (unfold get_inode; rewrite (t_inodes _ _ _ _ _ _ _ _ H1); cbn; by rewrite Hy). rewrite Eg.
  assert (Ety : i_type y = di_type (disk_inode (v_disk a) (v_sb a) n)) by (unfold agrees in Hag; rewrite Yn in Hag; by rewrite <- Hag). rewrite Ety.
  pose proof (eq_refl (children dev a n)) as Ec. unfold children in Ec at 2. destruct (di_type (disk_inode (v_disk a) (v_sb a) n) =? T_DIR) eqn:Ed; cbn [negb].
  2:{ rewrite target_file by done. by apply (give_up_wp parent s1 ip y n l1). }
  destruct (parent && match rest with [] => true | _ => false end) eqn:Elast.
  - apply andb_prop in Elast as [-> Erest]. destruct rest; [|done]. destruct (iunlock_ok l1 s1 ip y Ht1 Hy (proj1 Hyr) H1) as (s2 & E2 & H2 & Ht2).
    eapply wp_bind_ok; [exact E2|]. eexists. split; [exact H2|]. rewrite (proj1 Hnil eq_refl). unfold target. cbn [walk_parent]. rewrite Ec. split; [|done]. exists ip. split; [done|].
    split; [done|]. pose proof (lookup_lt_Some _ _ _ Hy) as Hj. split; [|split; [|eexists; rewrite list_lookup_insert_eq by done; by split]].
    { apply (kept_trans l0 l1); [done| |by apply (kept_insert _ _ y)]. intros k'. rewrite Hr1. destruct (decide _); lia. }
    intros k'. rewrite refs_insert by done. destruct (decide (k' = ip)) as [->|]; [|rewrite Hr1, decide_False by done; lia]. specialize (Hr1 ip). unfold refs in Hr1 at 1. rewrite Hy, decide_True in Hr1 by done. exact Hr1.
  - assert (Elast' : parent && match elements rest with [] => true | _ => false end = false).
    { destruct parent; [|done]. destruct rest; [done|]. cbn [andb]. destruct (elements (z :: rest)); [|done]. by destruct Hnil as [_ ?%(fun f => f eq_refl)]. }
    rewrite (target_step parent n e (elements rest) _ Ec Elast').
    pose proof (to_dir _ _ _ _ _ Htree n _ Hn Ec) as Hdir. rewrite <- Yn in Hdir. destruct (loaded_dir dev st ds a l1 ip y Hy Yd Hag Hdir) as [Hok Hof]. rewrite Yn in Hof.
    eapply wp_call; [apply (dirlookup_wp fuel d0 dev st ds p pid spurious ws ip e s1 (with_inodes l1 a) H1 Hok Hroom)|].
    { intros t _. by apply (here_room l1 ip). }
    intros r s2 H2. rewrite Hof in H2. destruct (_ !! key e) as [n'|] eqn:En; cbn [mbind option_bind].
    + destruct H2 as (i & en & q & l' & _ & _ & _ & -> & Hg & H2). destruct (step_down s2 ip y n l1 q n' l' Ht1 Hkl1 Hr1 Hy Hyr Hn Hg H2) as (l2 & s3 & E3 & H3 & Hh).
      eapply wp_bind_ok; [exact E3|]. apply (IH rest e q n' l2 s3); try done; [lia|]. by eapply (to_closed _ _ _ _ _ Htree n).
    + destruct H2 as [-> H2]. by apply (give_up_wp parent s2 ip y n l1).
Qed.
End Walk.

(** ** Where it starts *)

Section Start.
Context {d0 : Z -> list Z} {dev st : Z} {p : nat} {pid : Z} {ws : list (Z * list Z)} {a : view_} {N : gset Z} {s : fss}.
Context (Hs : txn d0 dev st p pid ws s a) (Ht : table_ok dev pid a N None (v_inodes a)).

Lemma igot_here ip n l' : igot dev n (v_inodes a) ip l' -> here dev pid a N (v_inodes a) l' ip n.
Proof.
  intros Hg. destruct (igot_ok _ _ _ _ _ _ _ _ _ Ht Hg) as (T1 & T2 & T3 & T4). split; [done|]. split; [|by split].
  intros k x Hx Hp. rewrite (T4 k x Hx Hp). by eexists.
Qed.

Lemma start_root n : table_room dev n (v_inodes a) ->
  exists ip l' s', iget dev n s = Ok ip s' /\ txn d0 dev st p pid ws s' (with_inodes l' a) /\ here dev pid a N (v_inodes a) l' ip n.
Proof.
  intros Hr. destruct (iget_eq d0 dev st p pid ws s a n Hs Hr) as (ip & l' & s' & E & Hg & H'). exists ip, l', s'. split; [done|]. split; [done|].
  by apply igot_here.
Qed.

Lemma start_cwd c x : p_cwd (get_proc (b_m (l_b (fs_l s))) p) = Some c -> v_inodes a !! c = Some x -> refers dev (i_inum x) x ->
  exists l' s', (q <- lift curproc ;; cwd <- lift (proc_get q p_cwd) ;; match cwd with Some c => fs_idup c | None => panic "kerneltrap" end) s = Ok c s' /\
    txn d0 dev st p pid ws s' (with_inodes l' a) /\ here dev pid a N (v_inodes a) l' c (i_inum x).
Proof.
  intros Hc Hx Hrf. destruct (t_calm _ _ _ _ _ _ _ _ Hs) as [Hm Hat]. set (m := b_m (l_b (fs_l s))) in *. specialize (Hat _ (calm_settle p pid m Hm)).
  pose proof (t_inodes _ _ _ _ _ _ _ _ Hs) as Et. destruct (t_itable d0 dev st p pid ws _ _ Hat) as (s2 & E2 & Ei2 & Hrel). set (y := set_i_ref (i_ref x + 1) x).
  destruct (Hrel (<[c := y]> (v_inodes a))) as (s3 & E3 & H3). exists (<[c := y]> (v_inodes a)), s3. split; [|split; [exact H3|]].
  - rewrite <- (at_machine_self s). fold m. erewrite bind_ok by (apply fss_lift; apply (curproc_eq m p); [by apply (calm_ok p pid)|apply Hm]).
    erewrite bind_ok by (apply fss_lift; reflexivity). change (get_proc (settle m) p) with (get_proc m p). rewrite Hc. unfold fs_idup. rewrite (bind_ok _ _ _ _ _ E2). unfold inode_set. mgo.
    assert (Eu : upd_inode c (fun x => set_i_ref (i_ref x + 1) x) s2 = set_fs_itable (<[c := y]> (v_inodes a)) s2).
    { unfold upd_inode, get_inode. rewrite Ei2. change (fs_itable (at_machine _ s)) with (fs_itable s). by rewrite Et, Hx. }
    rewrite Eu. by rewrite (bind_ok _ _ _ _ _ E3).
  - assert (Hg : igot dev (i_inum x) (v_inodes a) c (<[c := y]> (v_inodes a))) by (exists x; split; [done|]; by left).
    by apply igot_here.
Qed.
End Start.

Lemma free_room dev pid a N n l : table_ok dev pid a N None l -> two_free l -> table_room dev n l.
Proof.
  intros Ht (i & _ & _ & Hi & _ & Ri & _). split; [apply Ht|]. rewrite <- (tb_len _ _ _ _ _ _ Ht) in Hi. destruct (lookup_lt_is_Some_2 _ _ Hi) as [z Hz].
  exists i, z. split; [done|]. right. unfold refs in Ri. by rewrite Hz in Ri.
Qed.

Section Namex.
Variables (fuel : nat) (d0 : Z -> list Z) (st ds : Z) (p : nat) (pid : Z) (spurious : Prop) (ws : list (Z * list Z)) (a : view_) (N : gset Z) (s : fss).
Hypotheses (Hs : txn d0 ROOTDEV st p pid ws s a) (Htree : tree_ok ROOTDEV st ds a N) (Ht : table_ok ROOTDEV pid a N None (v_inodes a)) (Hheld : v_held a = ∅).
Hypotheses (Hroom : room 4 a) (Hspare : two_free (v_inodes a)) (Hroot : ROOTINO ∈ N).
Notation resolved_by parent n path run := (wp spurious (sub_rel (env d0 ROOTDEV p pid spurious)) (fun s' => b_writes (l_b (fs_l s')) = ws)
    (fun r s' => exists l', txn d0 ROOTDEV st p pid ws s' (with_inodes l' a) /\
       outcome ROOTDEV pid a N (v_inodes a) parent (target ROOTDEV a parent n (elements path)) r l')
    run).
Notation resolved parent n path := (resolved_by parent n path (namex (S fuel) path parent s)).

Lemma namex_from parent path n ip l s1 : txn d0 ROOTDEV st p pid ws s1 (with_inodes l a) -> n ∈ N -> here ROOTDEV pid a N (v_inodes a) l ip n ->
  resolved_by parent n path (namex_loop (S fuel) (length path) ip path parent [] s1).
Proof. by apply (namex_loop_wp _ _ _ _ ds). Qed.

(** From the root. *)
Lemma namex_root_wp parent path : resolved parent ROOTINO (SLASH :: path).
Proof.
  destruct (start_root Hs Ht ROOTINO (free_room _ _ _ _ _ _ Ht Hspare)) as (ip & l1 & s1 & E1 & H1 & Hh1). unfold namex. rewrite Z.eqb_refl.
  eapply wp_bind_ok; [exact E1|]. by eapply namex_from.
Qed.

Lemma namex_wp cwd x parent path : p_cwd (get_proc (b_m (l_b (fs_l s))) p) = Some cwd -> v_inodes a !! cwd = Some x -> refers ROOTDEV (i_inum x) x -> i_inum x ∈ N ->
  resolved parent (match path with c :: _ => if c =? SLASH then ROOTINO else i_inum x | [] => i_inum x end) path.
Proof.
  intros Hcwd Hx Hrf Hn. destruct (start_cwd Hs Ht cwd x Hcwd Hx Hrf) as (l2 & s2 & E2 & H2 & Hh2).
  destruct path as [|c path]; [|destruct (Z.eqb_spec c SLASH) as [->|Hc%Z.eqb_neq]; [apply namex_root_wp|]]; unfold namex; rewrite ?Hc; (eapply wp_bind_ok; [eassumption|]); by eapply namex_from.
Qed.
End Namex.

(** C5. Path names are resolved correctly.  Inside a transaction, on a disk whose directories
    form a tree [N] and with the inodes in memory unlocked and as on the disk, [namex] gives
    a reference to the inode that the names of the path lead to, from the root or
    from the current directory, or, asked for the parent, to the directory of the last
    name, and that name; it fails exactly when a name is missing or one that is not the last
    is no directory.  Every other reference it took is given back, no inode stays
    locked, and the disk is unchanged. *)
Theorem namex_correct (fuel : nat) (d0 : Z -> list Z) (st ds : Z) (p : nat) (pid : Z) (spurious : Prop) (ws : list (Z * list Z))
    (a : view_) (N : gset Z) (s : fss) (cwd : nat) (x : inode) (path : list Z) (parent : bool)
    (start := match path with c :: _ => if c =? SLASH then ROOTINO else i_inum x | [] => i_inum x end) :
  txn d0 ROOTDEV st p pid ws s a -> tree_ok ROOTDEV st ds a N -> table_ok ROOTDEV pid a N None (v_inodes a) -> v_held a = ∅ -> room 4 a ->
  two_free (v_inodes a) -> ROOTINO ∈ N -> p_cwd (get_proc (b_m (l_b (fs_l s))) p) = Some cwd -> v_inodes a !! cwd = Some x -> refers ROOTDEV (i_inum x) x -> i_inum x ∈ N ->
  wp spurious (sub_rel (env d0 ROOTDEV p pid spurious)) (fun s' => b_writes (l_b (fs_l s')) = ws)
    (fun r s' => exists l', txn d0 ROOTDEV st p pid ws s' (with_inodes l' a) /\
       outcome ROOTDEV pid a N (v_inodes a) parent (target ROOTDEV a parent start (elements path)) r l')
    (namex (S fuel) path parent s).
Proof. intros. by apply (namex_wp fuel d0 st ds p pid spurious ws a N s) with (cwd := cwd). Qed.

(** ** A tree with a file in a directory *)

(** The root, inode 1, has the directory [d], inode 2, and that the file [f], inode 3. *)
Definition tree_root : inode := mk_inode 1 1 1 (mk_sleeplock 0 "inode" 0) 1 T_DIR 0 0 1 48 (46 :: replicate 12 0).
Definition tree_inodes : list Z :=
  splice (splice (splice zeros 64 (encode_dinode (inode_dinode tree_root))) 128 (encode_dinode (mk_dinode T_DIR 0 0 1 48 (47 :: replicate 12 0))))
    192 (encode_dinode (mk_dinode T_FILE 0 0 1 0 (replicate 13 0))).
Definition tree_disk (sector : Z) : list Z :=
  if sector =? 2 * 45 then replicate 6 255 ++ replicate 1018 0
  else if sector =? 2 * 32 then tree_inodes
  else if sector =? 2 * 46 then new_entry [46] 1 ++ new_entry [46; 46] 1 ++ new_entry [100] 2 ++ replicate 976 0
  else if sector =? 2 * 47 then new_entry [46] 2 ++ new_entry [46; 46] 1 ++ new_entry [102] 3 ++ replicate 976 0 else zeros.
Definition tree_fs : fss := mk_fss demo_boot (tree_root :: replicate 49 inode_zero) demo_sb.
Notation tree_view := (view_of tree_disk [] tree_fs).

Lemma tree_quiet : fs_quiet tree_disk 1 2 0 1 [] tree_fs.
Proof. split; try done. apply demo_boot_rep. intros sec. unfold tree_disk. by repeat destruct (_ =? _). Qed.

Lemma tree_used b : 0 <= b < 48 -> used (dblock tree_disk []) demo_sb b = true.
Proof.
  intros Hb. assert (H : forallb (fun k => used_bit (dblock tree_disk [] 45) (Z.of_nat k)) (seq 0 48) = true) by (by vm_compute).
  rewrite forallb_forall in H. specialize (H (Z.to_nat b) ltac:(apply in_seq; lia)). rewrite Z2Nat.id in H by lia. rewrite <- H.
  unfold used, BBLOCK, demo_sb, sb_bmapstart. change BPB with 8192. rewrite Z.div_small, Z.mod_small by lia. done.
Qed.

(** A file of at most one block. *)
Lemma tree_slot n b k : i_addrs (loaded 1 tree_view n) = b :: replicate 12 0 -> 0 <= k < NSLOT -> vslot (disk_view 1 tree_view n) 0 k = if k =? 0 then b else 0.
Proof.
  intros El Hk. change (inode_at (disk_view 1 tree_view n) 0) with (loaded 1 tree_view n). assert (Ed : forall j, 0 <= j <= NDIRECT -> slot (v_disk (disk_view 1 tree_view n)) (loaded 1 tree_view n) j = if j =? 0 then b else 0).
  { intros j Hj. rewrite slot_direct, El by apply Hj. change NDIRECT with 12 in Hj. unfold zget. destruct (Z.eqb_spec j 0) as [->|]; [done|].
    replace (Z.to_nat j) with (S (Z.to_nat (j - 1))) by lia. change (default 0 (replicate 12 0 !! Z.to_nat (j - 1)) = 0). by rewrite lookup_replicate_2 by lia. }
  destruct (Z.le_gt_cases k NDIRECT) as [Hle|Hgt]; [apply Ed; lia|]. rewrite slot_indirect, Ed by done. by destruct k.
Qed.

Lemma tree_file n b : i_addrs (loaded 1 tree_view n) = b :: replicate 12 0 -> b = 0 \/ 46 <= b < 48 -> file_ok 1 46 0 (disk_view 1 tree_view n).
Proof.
  intros El Hb. split; try done; [cbn; lia| |].
  - intros k Hk. rewrite (tree_slot n b) by done. destruct (k =? 0); [|done]. intros Hz. split; [cbn; lia|apply tree_used; lia].
  - intros j k Hj Hk. rewrite !(tree_slot n b) by done. destruct (Z.eqb_spec j 0), (Z.eqb_spec k 0); lia.
Qed.

(** A directory of one block. *)
Lemma tree_dir n b : loaded 1 tree_view n = mk_inode 1 n 1 (mk_sleeplock 0 "inode" 0) 1 T_DIR 0 0 1 48 (b :: replicate 12 0) -> 46 <= b < 48 ->
  dir_ok 1 2 46 0 (disk_view 1 tree_view n).
Proof.
  intros El Hb. assert (E0 : inode_at (disk_view 1 tree_view n) 0 = loaded 1 tree_view n) by done. rewrite El in E0.
  split; rewrite ?E0; try done.
  - split; [split; by vm_compute| |done]. intros c Hc. apply tree_used. lia.
  - apply (tree_file n b); [by rewrite El|lia].
  - intros bn Hbn Hlt. rewrite E0 in Hlt. change BSIZE with 1024 in Hlt. cbn in Hlt. replace bn with 0 by lia. rewrite (tree_slot n b); [cbn; lia|by rewrite El|done].
Qed.

Lemma tree_children : children 1 tree_view 1 = Some (<[[46] := 1]> (<[[46; 46] := 1]> (<[[100] := 2]> ∅))) /\
  children 1 tree_view 2 = Some (<[[46] := 2]> (<[[46; 46] := 1]> (<[[102] := 3]> ∅))) /\ children 1 tree_view 3 = None.
Proof. split; [|split]; by vm_compute. Qed.

Lemma tree_nodes n : n ∈ ({[1; 2; 3]} : gset Z) <-> n = 1 \/ n = 2 \/ n = 3.
Proof. set_solver. Qed.

Lemma tree_tree_ok : tree_ok 1 2 46 tree_view {[1; 2; 3]}.
Proof.
  destruct tree_children as (C1 & C2 & C3).
  split; setoid_rewrite tree_nodes.
  - intros n [->|[->| ->]]; pose proof LOGSIZE_eq; unfold home; vm_compute (IBLOCK _ _); lia.
  - intros n [->|[->| ->]]; by vm_compute.
  - intros n [->|[->| ->]]; by vm_compute.
  - intros n m [->|[->| ->]] Hm; [apply (tree_dir 1 46)|apply (tree_dir 2 47)|congruence]; lia || by vm_compute.
  - intros n m k n' [->|[->| ->]] Hm; [rewrite C1 in Hm|rewrite C2 in Hm|congruence]; injection Hm as <-; clear C1 C2 C3; rewrite !lookup_insert_Some, lookup_empty; intuition congruence || lia.
Qed.

Lemma tree_table : table_ok 1 1 tree_view {[1; 2; 3]} None (v_inodes tree_view).
Proof.
  assert (Hx : forall j x, v_inodes tree_view !! j = Some x -> j = 0%nat /\ x = tree_root \/ x = inode_zero).
  { intros [|j] x Hx; [left; by injection Hx|right]. change (replicate 49 inode_zero !! j = Some x) in Hx. by apply lookup_replicate in Hx as [-> _]. }
  by split; [done| |]; intros j x [[-> ->]| ->]%Hx.
Qed.

Lemma tree_spare : two_free (v_inodes tree_view).
Proof. exists 1%nat, 2%nat. split; [done|]. do 2 (split; [apply Nat.ltb_lt; reflexivity|]). done. Qed.

(** "/d/f" is inode 3, and the parent of "d/g" from the root is inode 2. *)
Lemma tree_targets : target 1 tree_view false 1 (elements [47; 100; 47; 102]) = Some (3, []) /\ target 1 tree_view true 1 (elements [100; 47; 103]) = Some (2, [103]).
Proof. split; by vm_compute. Qed.

Lemma namex_correct_witness : exists s, txn tree_disk 1 2 0 1 [] s tree_view /\
  wp False (sub_rel (env tree_disk 1 0 1 False)) (fun s' => b_writes (l_b (fs_l s')) = [])
    (fun r s' => exists l' q, txn tree_disk 1 2 0 1 [] s' (with_inodes l' tree_view) /\ r.1 = Some q /\ here 1 1 tree_view {[1; 2; 3]} (v_inodes tree_view) l' q 3)
    (namex 1 [47; 100; 47; 102] false s) /\
  wp False (sub_rel (env tree_disk 1 0 1 False)) (fun s' => b_writes (l_b (fs_l s')) = [])
    (fun r s' => exists l' q, txn tree_disk 1 2 0 1 [] s' (with_inodes l' tree_view) /\ r = (Some q, [103]) /\ here 1 1 tree_view {[1; 2; 3]} (v_inodes tree_view) l' q 2)
    (namex 1 [100; 47; 103] true s).
Proof.
  destruct (begin_op_eq 0 tree_disk 1 2 0 1 tree_fs [] tree_quiet) as (s0 & _ & H0). destruct (t_calm _ _ _ _ _ _ _ _ H0) as [Hm Hat].
  set (m := upd_proc 0 (set_p_cwd (Some 0%nat)) (b_m (l_b (fs_l s0)))) in *. assert (Hc : calm 0 1 m) by (by apply calm_upd).
  exists (at_machine m s0). split; [by apply Hat|]. assert (Hcwd : p_cwd (get_proc m 0) = Some 0%nat) by (unfold m; rewrite get_upd_proc_eq; [done|rewrite (ca_len _ _ _ Hm); apply Nat.ltb_lt; reflexivity]).
  pose proof (fun path parent => namex_correct 0 tree_disk 2 46 0 1 False [] tree_view {[1; 2; 3]} (at_machine m s0) 0 tree_root path parent (Hat m Hc) tree_tree_ok tree_table eq_refl) as W.
  assert (Hroom : room 4 tree_view) by (apply Nat.ltb_lt; by vm_compute).
  specialize (fun path parent => W path parent Hroom tree_spare ltac:(by apply tree_nodes; left) Hcwd eq_refl ltac:(done) ltac:(by apply tree_nodes; left)).
  destruct tree_targets as [T1 T2]. split; (eapply wp_mono; [apply W|]); intros r s'; cbn beta iota; change ((47 =? SLASH)%Z) with true; change ((100 =? SLASH)%Z) with false; cbn beta iota.
  - change ROOTDEV with 1. change ROOTINO with 1. rewrite T1. intros (l' & H' & (q & Hq & Hh) & _). exists l', q. exact (conj H' (conj Hq Hh)).
  - change ROOTDEV with 1. change (i_inum tree_root) with 1. rewrite T2. destruct r as [r1 r2]. intros (l' & H' & (q & Hq & Hh) & Hn). exists l', q. cbn [fst snd] in Hq, Hn. subst r1 r2. exact (conj H' (conj eq_refl Hh)).
Defined.
