(* ===== verification/FsCreate.v ===== *)
(** * Creating a file: ialloc of kernel/fs.c and create of kernel/sysfile.c

    [create] resolves the path of the parent, takes the first free inode, writes it and
    enters the name.  As one transaction it adds the file to the tree on the disk or leaves
    the tree as it was, whenever the machine stops. *)
From stdpp Require Import gmap list strings.
From S2P Require Import Prelude Kstring Abi Machine Spinlock Kalloc Vm Proc Sched Sleeplock UserMem Virtio Bio Log Fs File Sysfile Wp BioList BlockEnv VirtioSpec BioSpec LogSpec LogCrash LogWrite FsTx FsBitmap FsAlloc FsFile FsRw FsWrite FsAtomic FsDir FsTrunc FsPath.

(** ** Writing one inode *)

(** The view after the inode [c] on the disk became [d]. *)
Definition inode_put (c : Z) (d : dinode) (a : view_) : view_ :=
  let ib := IBLOCK c (v_sb a) in listed ib (put ib (splice (v_disk a ib) (dinode_off c) (encode_dinode d)) a).

(** From [a] to [a'] only the inode [c] on the disk changed, to [d]. *)
Record redone (c : Z) (d : dinode) (a a' : view_) : Prop := {
  rd_sb : v_sb a' = v_sb a;
  rd_held : v_held a' = v_held a;
  rd_inode : disk_inode (v_disk a') (v_sb a) c = d;
  rd_others : forall n, 0 <= n < 2 ^ 32 -> n <> c -> disk_inode (v_disk a') (v_sb a) n = disk_inode (v_disk a) (v_sb a) n;
  rd_blocks : forall b, b <> IBLOCK c (v_sb a) -> v_disk a' b = v_disk a b;
  rd_log : forall b, b ∈ v_log a' -> b ∈ v_log a \/ b = IBLOCK c (v_sb a)
}.

Lemma redone_put c d a : 0 <= c < 2 ^ 32 -> dinode_ok d -> (forall b, Z.of_nat (length (v_disk a b)) = BSIZE) -> redone c d a (inode_put c d a).
Proof.
  intros Hc Hd Hlen. pose proof (dinode_off_fits c (proj1 Hc)) as Hfit. pose proof (Hlen (IBLOCK c (v_sb a))) as Hl.
  assert (Hdisk : forall b, v_disk (inode_put c d a) b = if b =? IBLOCK c (v_sb a) then splice (v_disk a (IBLOCK c (v_sb a))) (dinode_off c) (encode_dinode d) else v_disk a b) by done.
  split; try done.
  - unfold disk_inode. rewrite Hdisk, Z.eqb_refl. apply decode_encode; [done|lia].
  - intros n Hn Hne. unfold disk_inode. rewrite Hdisk. destruct (Z.eqb_spec (IBLOCK n (v_sb a)) (IBLOCK c (v_sb a))) as [E|]; [|done].
    rewrite E. apply decode_other; [apply Hd|lia|]. by eapply (inodes_apart (v_sb a)).
  - intros b Hb. by rewrite Hdisk, (proj2 (Z.eqb_neq _ _)).
  - intros b Hb. by apply elem_listed in Hb.
Qed.

Lemma redone_trans c d d' a a1 a2 : redone c d a a1 -> redone c d' a1 a2 -> redone c d' a a2.
Proof.
  intros [A1 A2 A3 A4 A5 A6] [B1 B2 B3 B4 B5 B6]. rewrite A1 in *. split; try congruence.
  - intros n Hn Hne. by rewrite B4, A4.
  - intros b Hb. by rewrite B5, A5.
  - intros b Hb. destruct (B6 b Hb) as [H| ->]; [by apply A6|by right].
Qed.

Lemma redone_inodes c d a a' l : redone c d a a' -> redone c d a (with_inodes l a').
Proof. by intros [A1 A2 A3 A4 A5 A6]. Qed.

Lemma redone_room c d a a' k : NoDup (v_log a') -> redone c d a a' -> room (S k) a -> room k a'.
Proof.
  intros Hnd [A1 A2 A3 A4 A5 A6] Hr. unfold room in *. rewrite A2. assert (length (v_log a') <= length (v_log a ++ [IBLOCK c (v_sb a)]))%nat as HL; [|rewrite length_app in HL; cbn in HL; lia].
  apply submseteq_length, NoDup_submseteq; [done|]. intros b Hb. apply elem_of_app. destruct (A6 b Hb) as [| ->]; [by left|right; left].
Qed.

(** ** Taking a free inode *)

Definition inode_free (D : Z -> list Z) (sb : superblock) (n : Z) : Prop := get_u16 (D (IBLOCK n sb)) (dinode_off n) = 0.

Section Ialloc.
Variables (fuel : nat) (d0 : Z -> list Z) (dev st ds : Z) (p : nat) (pid : Z) (spurious : Prop) (ws : list (Z * list Z)).
Notation txn := (txn d0 dev st p pid ws).
Notation twp := (wp spurious (sub_rel (env d0 dev p pid spurious)) (fun s : fss => b_writes (l_b (fs_l s)) = ws)).
Variables (type c : Z).
Notation new := (mk_dinode type 0 0 0 0 (replicate 13 0)).

Lemma ialloc_loop_wp k : forall inum s a, txn s a -> v_held a = ∅ -> room 2 a -> 1 <= inum <= c -> c < sb_ninodes (v_sb a) -> c - inum < Z.of_nat k ->
  (forall n, inum <= n < c -> ~ inode_free (v_disk a) (v_sb a) n) -> inode_free (v_disk a) (v_sb a) c ->
  (forall n, inum <= n <= c -> home st (IBLOCK n (v_sb a))) -> table_room dev c (v_inodes a) ->
  twp (fun r s' => exists l', igot dev c (v_inodes a) r l' /\ txn s' (with_inodes l' (inode_put c new a))) (ialloc_loop (S fuel) k dev type inum s).
Proof.
  induction k as [|k IH]; intros inum s a Hs Hheld Hr Hin Hc Hk Hused Hfree Hhome Htab; [lia|]. cbn [ialloc_loop]. unfold sb_get. mgo.
  rewrite (t_sb _ _ _ _ _ _ _ _ Hs), (proj2 (Z.ltb_lt _ _)) by lia. cbn [negb]. set (ib := IBLOCK inum (v_sb a)) in *. pose proof (Hhome inum ltac:(lia)) as Hib. fold ib in Hib. unfold room in Hr.
  eapply (t_bread fuel); [exact Hs|by rewrite Hheld|apply Hib|lia|]. intros bp s1 H1.
  eapply wp_bind_ok; [apply (t_bdata fuel d0 dev st p pid spurious ws s1 _ ib bp H1), lookup_insert_eq|]. cbn [taking v_disk].
  destruct (Z.eq_dec inum c) as [->|Hne].
  - unfold inode_free in Hfree. fold ib in Hfree. rewrite Hfree, Z.eqb_refl. set (v := splice _ _ _).
    destruct (t_update fuel d0 dev st p pid spurious ws s1 a ib bp (set_buf_data v) v H1) as (s2 & s3 & s4 & E2 & E3 & E4 & H4); try done.
    { by rewrite Hheld. }
    { unfold room. lia. }
    { unfold v. pose proof (t_len d0 dev st p pid ws s a ib Hs) as Hl. rewrite length_splice; [done|]. pose proof (dinode_off_fits c ltac:(lia)).
      change (length (le_bytes 2 type ++ replicate 62 0)) with 64%nat. lia. }
    eapply wp_bind_ok; [exact E2|]. eapply wp_bind_ok; [exact E3|]. eapply wp_bind_ok; [exact E4|].
    destruct (iget_eq d0 dev st p pid ws s4 _ c H4 Htab) as (q & l' & s5 & E5 & Hg & H5). eapply wp_ok; [exact E5|]. by exists l'.
  - pose proof (Hused inum ltac:(lia)) as Hu. unfold inode_free in Hu. fold ib in Hu. rewrite (proj2 (Z.eqb_neq _ _) Hu).
    destruct (t_brelse d0 dev st p pid ws s1 _ ib bp H1) as (s2 & E2 & H2); [apply lookup_insert_eq|apply (t_clean d0 dev st p pid ws s a ib Hs); by rewrite Hheld|].
    eapply wp_bind_ok; [exact E2|]. rewrite dropped_taking in H2 by (by rewrite Hheld).
    apply (IH (inum + 1) s2 a); try done; try lia; intros n Hn; [apply Hused|apply Hhome]; lia.
Qed.

Lemma ialloc_wp s a : txn s a -> v_held a = ∅ -> room 2 a -> 1 <= c < sb_ninodes (v_sb a) ->
  (forall n, 1 <= n < c -> ~ inode_free (v_disk a) (v_sb a) n) -> inode_free (v_disk a) (v_sb a) c ->
  (forall n, 1 <= n <= c -> home st (IBLOCK n (v_sb a))) -> table_room dev c (v_inodes a) ->
  twp (fun r s' => exists l', igot dev c (v_inodes a) r l' /\ txn s' (with_inodes l' (inode_put c new a))) (ialloc (S fuel) dev type s).
Proof.
  intros Hs Hheld Hr Hc Hused Hfree Hhome Htab. unfold ialloc, sb_get. mgo. rewrite (t_sb _ _ _ _ _ _ _ _ Hs). apply ialloc_loop_wp; try done; lia.
Qed.
End Ialloc.

(** ** Directories are not affected *)

Section Frame.
Context {dev st ds c : Z} {d : dinode} {a a' : view_} (Hrd : redone c d a a') (Hmeta : IBLOCK c (v_sb a) < ds) (Hnomap : ~ map_block (v_sb a) (IBLOCK c (v_sb a))).

Lemma redone_used b : 0 <= b < sb_size (v_sb a) -> used (v_disk a') (v_sb a) b = used (v_disk a) (v_sb a) b.
Proof. intros Hb. unfold used. rewrite (rd_blocks _ _ _ _ Hrd); [done|]. intros E. apply Hnomap. rewrite <- E. by exists b. Qed.

Lemma redone_slot dp k : file_ok dev ds dp a -> inode_at a' dp = inode_at a dp -> vslot a' dp k = vslot a dp k.
Proof.
  intros Hf E. rewrite E. apply slot_ext; [done|]. intros Hn. apply (rd_blocks _ _ _ _ Hrd). destruct (fo_slot _ _ _ _ Hf NDIRECT ltac:(done) Hn). lia.
Qed.

Lemma redone_byte dp i : file_ok dev ds dp a -> inode_at a' dp = inode_at a dp -> 0 <= i < MAXFILE * BSIZE -> vbyte a' dp i = vbyte a dp i.
Proof.
  intros Hf E Hi. destruct (block_split i ltac:(lia)) as (Ei & Hm & Hq). assert (HB : 0 < BSIZE) by done. destruct (idx_range (i / BSIZE) ltac:(nia)) as [Hx _].
  unfold fbyte, fblock. rewrite (redone_slot dp) by done. destruct (Z.eqb_spec (vslot a dp (idx (i / BSIZE))) 0) as [|Hn]; [done|].
  rewrite (rd_blocks _ _ _ _ Hrd); [done|]. destruct (fo_slot _ _ _ _ Hf _ Hx Hn). lia.
Qed.

Lemma redone_dir dp : dir_ok dev st ds dp a -> v_inodes a' !! dp = v_inodes a !! dp -> length (v_inodes a') = length (v_inodes a) ->
  dir_ok dev st ds dp a' /\ dir_of dp a' = dir_of dp a.
Proof.
  intros [D1 D2 D3 D4 D5 D6 D7] Hx Hl. assert (E : inode_at a' dp = inode_at a dp) by (unfold inode_at; by rewrite Hx).
  destruct (same_shape dev st ds dp (dir_ds _ _ a D1) a a' D1 D2) as [Ha Hf]; try (apply Hrd); try (by rewrite E); [done|by intros k; apply redone_slot|exact redone_used|].
  split.
  - split; rewrite ?E; try done; [|by rewrite (rd_held _ _ _ _ Hrd)]. intros bn Hb Hlt. rewrite E in Hlt. rewrite redone_slot by done. by apply D3.
  - unfold dir_of. rewrite E. f_equal. apply entries_ext. intros i Hi. rewrite <- E at 1. apply redone_byte; try done. lia.
Qed.

Lemma redone_spare n : spare n a -> spare n a'.
Proof.
  intros (l & H1 & H2 & H3). exists l. split; [done|]. split; [done|]. eapply Forall_impl; [exact H3|]. intros b Hb. cbn in Hb |- *. rewrite (rd_sb _ _ _ _ Hrd). by rewrite redone_used by apply Hb.
Qed.

Lemma redone_link dp : link_ready st ds dp a -> room 12 a -> NoDup (v_log a') -> v_inodes a' !! dp = v_inodes a !! dp -> link_ready st ds dp a'.
Proof.
  intros [[I1 I2 I3] L2 L3 L4 L5 L6 L7] Hr Hnd Hx. assert (E : inode_at a' dp = inode_at a dp) by (unfold inode_at; by rewrite Hx).
  split; rewrite ?E, ?(rd_sb _ _ _ _ Hrd); try done; [by split; rewrite E, (rd_sb _ _ _ _ Hrd)|by apply (redone_room c d a)|by apply redone_spare].
Qed.
End Frame.

(** ** The new inode *)

Section New.
Variables (fuel : nat) (d0 : Z -> list Z) (dev st ds : Z) (p : nat) (pid : Z) (spurious : Prop) (ws : list (Z * list Z)).
Notation txn := (txn d0 dev st p pid ws).
Notation twp := (wp spurious (sub_rel (env d0 dev p pid spurious)) (fun s : fss => b_writes (l_b (fs_l s)) = ws)).
Variables (type major minor c : Z).
Hypotheses (Htype : - 2 ^ 15 <= type < 2 ^ 15) (Hmajor : - 2 ^ 15 <= major < 2 ^ 15) (Hminor : - 2 ^ 15 <= minor < 2 ^ 15) (Hused : type <> 0).
Notation new := (mk_dinode type major minor 1 0 (replicate 13 0)).

Lemma new_ok ma mi nl : - 2 ^ 15 <= ma < 2 ^ 15 -> - 2 ^ 15 <= mi < 2 ^ 15 -> - 2 ^ 15 <= nl < 2 ^ 15 -> dinode_ok (mk_dinode type ma mi nl 0 (replicate 13 0)).
Proof. intros H1 H2 H3. split; [done|]. do 3 (split; [done|]). split; [done|]. split; [done|]. by apply Forall_replicate. Qed.

(** The first free inode. *)
Record first_free (a : view_) : Prop := {
  ff_range : 1 <= c < sb_ninodes (v_sb a);
  ff_small : c < 2 ^ 16;
  ff_free : inode_free (v_disk a) (v_sb a) c;
  ff_first : forall n, 1 <= n < c -> ~ inode_free (v_disk a) (v_sb a) n;
  ff_home : forall n, 1 <= n <= c -> home st (IBLOCK n (v_sb a));
  ff_meta : IBLOCK c (v_sb a) < ds;
  ff_map : ~ map_block (v_sb a) (IBLOCK c (v_sb a))
}.

(** The part of [create] that makes the inode. *)
Lemma make_inode_wp {B} (Q : B -> fss -> Prop) (k : nat -> Z -> M fss B) s a (l := v_inodes a) :
  txn s a -> v_held a = ∅ -> room 3 a -> first_free a -> length l = Z.to_nat NINODE ->
  (exists j x, l !! j = Some x /\ i_ref x = 0) -> (forall j x, l !! j = Some x -> ~ refers dev c x) ->
  (forall j x, l !! j = Some x -> i_ref x = 0 -> sl_locked (i_lock x) = 0) ->
  (forall q a' x z s', txn s' a' -> redone c new a a' -> l !! q = Some x -> i_ref x = 0 -> v_inodes a' = <[q := z]> l ->
     i_ref z = 1 -> i_dev z = dev -> i_inum z = c -> sl_locked (i_lock z) = 1 -> sl_pid (i_lock z) = pid -> twp Q (k q c s')) ->
  twp Q ((ip <- ialloc (S fuel) dev type ;;
    ilock (S fuel) ip ;;;
    inode_set ip (set_i_major major) ;;;
    inode_set ip (set_i_minor minor) ;;;
    inode_set ip (set_i_nlink 1) ;;;
    iupdate (S fuel) ip ;;;
    inum <- inode_get ip i_inum ;;
    k ip inum) s).
Proof.
  intros Hs Hheld Hr [F1 F2 F3 F4 F5 F6 F7] Hlen (j & xj & Hj & Hj0) Hno Hlk Hk. unfold room in Hr.
  assert (Hall : forall b, Z.of_nat (length (v_disk a b)) = BSIZE) by (intros b; by eapply t_len).
  eapply wp_call; [apply (ialloc_wp fuel d0 dev st p pid spurious ws type c s a); try done; [unfold room; lia|split; [done|]; exists j, xj; split; [done|]; by right]|].
  intros q s1 (l1 & (x & Hx & Hg) & H1). destruct Hg as [[Hrf _]|(Hx0 & _ & ->)]; [by destruct (Hno q x)|]. fold l in Hx, H1. pose proof (lookup_lt_Some _ _ _ Hx) as Hq.
  set (n0 := mk_dinode type 0 0 0 0 (replicate 13 0)) in *. set (a0 := inode_put c n0 a) in *. assert (R0 : redone c n0 a a0) by (apply redone_put; [lia|by apply new_ok|done]).
  eapply wp_call; [apply (ilock_wp fuel d0 dev st p pid spurious ws q (fresh dev c x) (<[q := fresh dev c x]> l) a0); try done|].
  { by apply list_lookup_insert_eq. } { by rewrite <- Hlen. } { by apply (Hlk q x). } { apply F5. cbn. lia. }
  { change (v_sb a0) with (v_sb a). cbn [fresh i_inum set_i_valid set_i_ref set_i_inum]. by rewrite (rd_inode _ _ _ _ R0). }
  { apply (redone_room c n0 a); [|done|unfold room; lia]. exact (t_nodup _ _ _ _ _ _ _ _ H1). }
  intros [] s2 (y & H2 & Y1 & Y2 & Y3 & Y4 & Y5 & Y6 & Y7). rewrite list_insert_insert_eq in H2. unfold inode_set. mgo.
  pose proof (t_inodes _ _ _ _ _ _ _ _ H2) as Et. cbn in Et. rewrite !upd_upd_inode by (cbn; rewrite ?length_insert, Et, length_insert; done). set (f := fun x : inode => _) at 1. set (z := f y).
  pose proof (t_inode_set d0 dev st p pid ws q s2 _ f H2) as H3. unfold with_inode, inode_at in H3. cbn [v_inodes with_inodes] in H3. rewrite list_lookup_insert_eq, list_insert_insert_eq in H3 by done.
  cbn [default] in H3. fold z in H3. set (a1 := with_inodes (<[q := z]> l) a0). change (txn (upd_inode q f s2) a1) in H3.
  assert (Ey : inode_dinode y = n0) by (unfold agrees in Y5; rewrite Y5, Y3; exact (rd_inode _ _ _ _ R0)).
  assert (Ez : inode_dinode z = new) by (unfold z, f, inode_dinode in *; cbn; by injection Ey as -> _ _ _ -> ->).
  assert (Ea : inode_at a1 q = z) by (unfold inode_at; cbn; by rewrite list_lookup_insert_eq). assert (Ezn : i_inum z = c) by exact Y3.
  assert (Eaddr : i_addrs z = replicate 13 0) by exact (f_equal di_addrs Ez).
  pose proof (redone_inodes c n0 a a0 (<[q := z]> l) R0) as R1. fold a1 in R1. eapply wp_call; [apply (iupdate_wp fuel d0 dev st ds p pid spurious ws q _ a1 H3)|].
  - split; rewrite ?Ea; [cbn; by rewrite length_insert|done|by rewrite Eaddr|intros k' Hk'|intros i k' Hi Hk']; rewrite zero_slot by (done || lia); done.
  - split; rewrite Ea, Ezn; [apply F5; lia|done|done].
  - done.
  - apply (redone_room c n0 a); [exact (t_nodup _ _ _ _ _ _ _ _ H3)|exact R1|unfold room; lia].
  - rewrite Ea, Ezn. lia.
  - intros [] s3 H4. unfold inode_get. mgo. rewrite (inode_at_get d0 dev st p pid ws q s3 _ H4).
    change (inode_at (updated q a1) q) with (inode_at a1 q). rewrite Ea, Ezn. apply (Hk q (updated q a1) x z); try done.
    apply (redone_trans c n0 _ a a1 _ R1). unfold updated. rewrite Ea, Ezn, Ez. apply redone_put; [lia|by apply new_ok|].
    intros b. exact (t_len d0 dev st p pid ws _ a1 b H3).
Qed.
End New.

(** ** create *)

Notation dev := ROOTDEV.

(** What [create] of a file needs: the tree and the table as for [namex]; the name is not
    in its directory, which has room for it; [c] is the first free inode; there is room in
    the log and on the disk. *)
Record create_ready (st ds pid : Z) (a : view_) (N : gset Z) (c nd : Z) (e : list Z) (m : dir) : Prop := {
  cr_tree : tree_ok dev st ds a N;
  cr_table : table_ok dev pid a N None (v_inodes a);
  cr_live : forall j x, v_inodes a !! j = Some x -> refers dev (i_inum x) x -> i_inum x ∈ N;
  cr_spare : two_free (v_inodes a);
  cr_free : first_free st ds c a;
  cr_fresh : c ∉ N;
  cr_area : forall n, n ∈ N -> 0 <= n < 2 ^ 32 /\ IBLOCK n (v_sb a) < ds /\ ~ map_block (v_sb a) (IBLOCK n (v_sb a));
  cr_file : forall n, n ∈ N -> file_ok dev ds 0 (disk_view dev a n);
  cr_apart : forall n b, n ∈ N -> n <> nd -> owned 0 (disk_view dev a n) b -> ~ owned 0 (disk_view dev a nd) b;
  cr_in : nd ∈ N;
  cr_dir : children dev a nd = Some m;
  cr_name : m !! key e = None;
  cr_link : link_ready st ds 0 (disk_view dev a nd);
  cr_held : v_held a = ∅;
  cr_room : room 12 a
}.

(** The view with another disk. *)
Definition with_disk (D : Z -> list Z) (a : view_) : view_ := mk_view D [] ∅ [] (v_sb a).

(** The directory is the one that its bytes make up. *)
Lemma children_file a n size f : file_is (v_disk a) (v_sb a) n size f -> size <= MAXFILE * BSIZE ->
  children dev a n = if di_type (disk_inode (v_disk a) (v_sb a) n) =? T_DIR then Some (dir_map (entries f size)) else None.
Proof.
  intros [Es Hf] Hs. unfold children. destruct (_ =? _); [|done]. do 2 f_equal. unfold dir_of. change (i_size (inode_at (disk_view dev a n) 0)) with (di_size (disk_inode (v_disk a) (v_sb a) n)).
  rewrite Es. f_equal. apply entries_ext. intros i Hi. rewrite <- Hf by lia. done.
Qed.

(** A file whose inode and blocks are untouched. *)
Lemma file_is_frame ds a n D : file_ok dev ds 0 (disk_view dev a n) -> disk_inode D (v_sb a) n = disk_inode (v_disk a) (v_sb a) n ->
  (forall b, owned 0 (disk_view dev a n) b -> D b = v_disk a b) -> file_is D (v_sb a) n (di_size (disk_inode (v_disk a) (v_sb a) n)) (vbyte (disk_view dev a n) 0).
Proof.
  intros Hf Ei Hb. split; [by rewrite Ei|]. rewrite Ei. intros i Hi. destruct (block_split i ltac:(lia)) as (Eb & Hm & Hq). assert (HB : 0 < BSIZE) by done.
  destruct (idx_range (i / BSIZE) ltac:(nia)) as [Hx _]. set (x := set_i_addrs _ _). assert (Hs : forall k, slot D x k = vslot (disk_view dev a n) 0 k).
  { intros k. apply slot_ext; [done|]. intros Hn. apply Hb. split; [done|]. by exists NDIRECT. }
  unfold fbyte, fblock. rewrite Hs. destruct (Z.eqb_spec (vslot (disk_view dev a n) 0 (idx (i / BSIZE))) 0) as [|Hn]; [done|].
  rewrite Hb; [done|]. split; [done|]. by exists (idx (i / BSIZE)).
Qed.

(** The view after: the name leads to the new inode. *)
Record created (st ds c nd : Z) (e : list Z) (m : dir) (new : dinode) (N : gset Z) (a a' : view_) : Prop := {
  cd_sb : v_sb a' = v_sb a;
  cd_held : v_held a' = ∅;
  cd_new : disk_inode (v_disk a') (v_sb a) c = new;
  cd_dir : forall D, (forall b, home st b -> D b = v_disk a' b) -> children dev (with_disk D a) nd = Some (<[key e := c]> m);
  cd_others : forall n, n ∈ N -> n <> nd -> disk_inode (v_disk a') (v_sb a) n = disk_inode (v_disk a) (v_sb a) n;
  cd_blocks : forall b, ds <= b < sb_size (v_sb a) -> used (v_disk a) (v_sb a) b = true -> ~ owned 0 (disk_view dev a nd) b -> v_disk a' b = v_disk a b
}.

(** What [create] returns: the inode, locked. *)
Definition made (pid c : Z) (z : inode) : Prop := refers dev c z /\ sl_locked (i_lock z) = 1 /\ sl_pid (i_lock z) = pid.

Section Create.
Variables (fuel : nat) (d0 : Z -> list Z) (st ds : Z) (p : nat) (pid : Z) (spurious : Prop) (ws : list (Z * list Z)).
Notation txn := (txn d0 dev st p pid ws).
Notation twp := (wp spurious (sub_rel (env d0 dev p pid spurious)) (fun s : fss => b_writes (l_b (fs_l s)) = ws)).
Variables (type major minor c nd : Z) (e : list Z) (m : dir) (N : gset Z) (a : view_).
Hypotheses (Htype : - 2 ^ 15 <= type < 2 ^ 15) (Hmajor : - 2 ^ 15 <= major < 2 ^ 15) (Hminor : - 2 ^ 15 <= minor < 2 ^ 15) (Hused : type <> 0) (Hnodir : type <> T_DIR).
Hypothesis Hready : create_ready st ds pid a N c nd e m.
Notation new := (mk_dinode type major minor 1 0 (replicate 13 0)).

Lemma cr_range : 0 <= c < 2 ^ 32.
Proof. destruct (cr_free _ _ _ _ _ _ _ _ _ Hready) as [F1 F2 _ _ _ _ _]. lia. Qed.

(** From the directory, locked, to the entry in it. *)
Section Entered.
Variables (l : list inode) (dp : nat) (y : inode) (a2 a3 : view_) (off : Z).
Hypotheses (Hy : l !! dp = Some y) (Hyn : i_inum y = nd) (Hag : agrees a y) (Hy2 : v_inodes a2 !! dp = Some y).
Hypotheses (Hrd : redone c new (with_inodes l a) a2) (Hd3 : dir_ok dev st ds dp a3) (Hdir : dir_of dp a3 = <[key e := c]> m).
Hypothesis Hw : written ds dp off (new_entry e c) a2 a3.

Lemma entered_slot k : vslot a2 dp k = vslot (disk_view dev a nd) 0 k.
Proof.
  destruct Hready as [C1 C2 C3 C4 [F1 F2 F3 F4 F5 F6 F7] C6 Carea Cfile Capart C7 C8 C9 C10 C11 C12]. destruct (loaded_same dev a l dp y Hy Hag) as (Esl & _ & _). rewrite Hyn in Esl. rewrite <- Esl.
  assert (E1 : inode_at (with_inodes l a) dp = y) by (unfold inode_at; cbn; by rewrite Hy). assert (E2 : inode_at a2 dp = y) by (unfold inode_at; by rewrite Hy2). rewrite E1, E2.
  apply slot_ext; [done|]. intros Hnz. apply (rd_blocks _ _ _ _ Hrd). assert (Eq : slot (v_disk (with_inodes l a)) y NDIRECT = vslot (disk_view dev a nd) 0 NDIRECT) by (rewrite <- E1; apply Esl).
  rewrite Eq in *. pose proof (to_dir _ _ _ _ _ C1 nd m C7 C8) as Hdk. destruct (fo_slot _ _ _ _ (do_file _ _ _ _ _ Hdk) NDIRECT ltac:(done) Hnz) as [Hlo _]. cbn [v_sb with_inodes]. lia.
Qed.

Lemma entered_created l' : created st ds c nd e m new N a (with_inodes l' a3).
Proof.
  destruct Hready as [C1 C2 C3 C4 [F1 F2 F3 F4 F5 F6 F7] C6 Carea Cfile Capart C7 C8 C9 C10 C11 C12]. pose proof (rd_sb _ _ _ _ Hrd) as Esb2. cbn in Esb2. pose proof (w_sb _ _ _ _ _ _ Hw) as Esb3. rewrite Esb2 in Esb3.
  assert (E2 : inode_at a2 dp = y) by (unfold inode_at; by rewrite Hy2). assert (Hne : nd <> c) by (by intros ->). destruct (Carea nd C7) as (Hr & Hm & Hmap).
  pose proof (w_dinodes _ _ _ _ _ _ Hw) as Hdi. rewrite E2, Hyn, Esb2 in Hdi. specialize (Hdi (proj2 Hr)). destruct (w_inode _ _ _ _ _ _ Hw) as [la Ei3]. rewrite E2 in Ei3.
  assert (En3 : i_inum (inode_at a3 dp) = nd) by (by rewrite Ei3). pose proof (w_dinode _ _ _ _ _ _ Hw) as Hd. rewrite E2, Hyn, Esb2 in Hd.
  assert (Hag3 : agrees a3 (inode_at a3 dp)) by (unfold agrees, disk_inode; by rewrite En3, Esb3, Hd).
  split; cbn [v_sb v_held v_disk with_inodes].
  - done.
  - apply Hd3.
  - unfold disk_inode. rewrite Hdi by (done || lia). exact (rd_inode _ _ _ _ Hrd).
  - intros D HD. pose proof (to_home _ _ _ _ _ C1 nd C7) as Hhome. destruct Hd3 as [D1 D2 D3 D4 D5 D6 D7].
    pose proof (file_is_view dev st ds dp a3 D (vbyte a3 dp) D1 D2) as Hfi. rewrite En3, Esb3 in Hfi. specialize (Hfi Hhome HD Hd ltac:(done)).
    rewrite (children_file (with_disk D a) nd _ _ Hfi) by lia. unfold disk_inode. cbn [v_disk v_sb with_disk]. rewrite HD, Hd by done. cbn [di_type inode_dinode]. rewrite D4.
    change (T_DIR =? T_DIR) with true. cbn iota. by rewrite <- Hdir.
  - intros n Hn Hnn. destruct (Carea n Hn) as (Hr' & Hm' & Hmap'). assert (n <> c) by (by intros ->). unfold disk_inode at 1. rewrite Hdi by done. exact (rd_others _ _ _ _ Hrd n Hr' ltac:(done)).
  - intros b Hb Hu Ho. transitivity (v_disk a2 b); [|apply (rd_blocks _ _ _ _ Hrd); cbn; lia]. pose proof (ao_layout _ _ _ (do_alloc _ _ _ _ _ Hd3)) as Hlay. rewrite Esb3 in Hlay.
    apply (w_frame _ _ _ _ _ _ Hw); rewrite ?Esb2, ?E2, ?Hyn; [| | |lia].
    + intros (k & Hk & ->). destruct (layout_map _ _ _ k Hlay Hk). lia.
    + intros (Hz & k & Hk & Ek). apply Ho. split; [done|]. exists k. split; [done|]. by rewrite <- Ek, entered_slot.
    + intros [_ Hf]. pose proof (dir_ds _ _ a3 (do_alloc _ _ _ _ _ Hd3)). pose proof (redone_used (a := with_inodes l a) Hrd F7 b ltac:(cbn; lia)) as E. cbn in E. congruence.
Qed.
End Entered.

(** [iunlockput] of the directory at the end; it has links. *)
Lemma leave_dir a3 s dp y : txn s a3 -> v_inodes a3 !! dp = Some y -> (dp < Z.to_nat NINODE)%nat -> 0 < i_ref y -> i_nlink y <> 0 -> sl_locked (i_lock y) = 1 -> sl_pid (i_lock y) = pid ->
  exists s' l', iunlockput (S fuel) dp s = Ok tt s' /\ txn s' (with_inodes l' a3) /\ forall q, q <> dp -> l' !! q = v_inodes a3 !! q.
Proof.
  intros Hs Hy Hd Hr Hn H1 H2. assert (E : with_inodes (v_inodes a3) a3 = a3) by (by destruct a3). rewrite <- E in Hs.
  destruct (iunlock_eq d0 dev st p pid ws dp y (v_inodes a3) a3 Hy Hd Hr s Hs H1 H2) as (s1 & E1 & Hs1). pose proof (lookup_lt_Some _ _ _ Hy) as Hl.
  destruct (iput_eq fuel d0 dev st p pid ws s1 _ dp (locked_as 0 0 y) Hs1) as (s2 & E2 & Hs2); [by apply list_lookup_insert_eq|cbn; by rewrite (proj2 (Z.eqb_neq (i_nlink y) 0)), andb_false_r|].
  eexists s2, _. split; [unfold iunlockput; rewrite (bind_ok _ _ _ _ _ E1); exact E2|]. split; [exact Hs2|]. intros q Hq. cbn. by rewrite !list_lookup_insert_ne.
Qed.

(** Before the inode is made: the directory is locked, and every entry in use is in the tree. *)
Lemma free_entry l dp y : table_ok dev pid a N (Some dp) l -> kept (v_inodes a) l -> (forall k, refs l k = refs (v_inodes a) k + if decide (k = dp) then 1 else 0) ->
  l !! dp = Some y -> i_inum y = nd -> 
  (exists j x, l !! j = Some x /\ i_ref x = 0) /\ (forall j x, l !! j = Some x -> ~ refers dev c x) /\ (forall j x, l !! j = Some x -> i_ref x = 0 -> sl_locked (i_lock x) = 0).
Proof.
  intros Ht Hk Hr Hy Hn. destruct Hready as [C1 C2 C3 C4 C5 C6 Carea Cfile Capart C7 C8 C9 C10 C11 C12].
  assert (Hno : forall j x, l !! j = Some x -> ~ refers dev c x).
  { intros j x Hx (Hp & Hd & Hc). destruct (decide (j = dp)) as [->|Hj]; [rewrite Hy in Hx; injection Hx as <-; apply C6; by rewrite <- Hc, Hn|].
    pose proof (Hr j) as Rj. rewrite decide_False in Rj by done. unfold refs in Rj. rewrite Hx in Rj. destruct (v_inodes a !! j) as [x0|] eqn:E0; cbn in Rj; [|lia].
    destruct (Hk j x0 E0 ltac:(lia)) as (x' & Hx' & D' & N'). rewrite Hx in Hx'. injection Hx' as <-. apply C6. rewrite <- Hc, N'. apply (C3 j x0 E0). split; [lia|]. by rewrite <- D'. }
  split; [|split; [done|]].
  - destruct (here_room dev pid a N (v_inodes a) C4 l dp c Ht Hr) as (_ & j & x & Hx & [Hrf|H0]); [by destruct (Hno j x)|]. by exists j, x.
  - intros j x Hx H0. pose proof (tb_lock _ _ _ _ _ _ Ht j x Hx) as Hl. unfold lock_ok in Hl. destruct (decide (Some dp = Some j)) as [[= <-]|]; [|done]. exfalso.
    pose proof (Hr dp) as Rd. rewrite decide_True in Rd by done. unfold refs in Rd. rewrite Hx in Rd. cbn in Rd.
    destruct (v_inodes a !! dp) as [x0|] eqn:E0; cbn in Rd; [|lia]. destruct (tb_entry _ _ _ _ _ _ C2 dp x0 E0). lia.
Qed.

Lemma loaded_link l dp y : l !! dp = Some y -> agrees a y -> link_ready st ds 0 (disk_view dev a (i_inum y)) -> link_ready st ds dp (with_inodes l a).
Proof.
  intros Hy Hag [[I1 I2 I3] L2 L3 L4 L5 L6 L7]. destruct (loaded_same dev a l dp y Hy Hag) as (_ & _ & Ed). change (inode_at (disk_view dev a (i_inum y)) 0) with (loaded dev a (i_inum y)) in *.
  assert (Ey : inode_at (with_inodes l a) dp = y) by (unfold inode_at; cbn; by rewrite Hy). pose proof (f_equal di_size Ed) as Es. rewrite Ey in *. cbn [di_size inode_dinode] in Es.
  split; rewrite ?Ey; try done; [by split; rewrite Ey|by rewrite Ed|by rewrite Es].
Qed.

(** The directory found and locked, the name not in it: the rest of [create]. *)
Definition enter (dp : nat) : M fss (option nat) :=
  d <- inode_get dp i_dev ;;
  ip <- ialloc (S fuel) d type ;;
  ilock (S fuel) ip ;;;
  inode_set ip (set_i_major major) ;;;
  inode_set ip (set_i_minor minor) ;;;
  inode_set ip (set_i_nlink 1) ;;;
  iupdate (S fuel) ip ;;;
  inum <- inode_get ip i_inum ;;
  when (type =? T_DIR)
    (inode_set dp (fun x => set_i_nlink (i16 (i_nlink x + 1)) x) ;;;
     iupdate (S fuel) dp ;;;
     c <- dirlink (S fuel) ip (bytes_of ".") inum ;;
     if c <? 0 then panic "create dots" else
     dinum <- inode_get dp i_inum ;;
     c <- dirlink (S fuel) ip (bytes_of "..") dinum ;;
     if c <? 0 then panic "create dots" else ret tt) ;;;
  c <- dirlink (S fuel) dp e inum ;;
  if c <? 0 then panic "create: dirlink" else
  iunlockput (S fuel) dp ;;;
  ret (Some ip).

Lemma enter_wp s l dp y : txn s (with_inodes l a) -> table_ok dev pid a N (Some dp) l -> kept (v_inodes a) l ->
  (forall k, refs l k = refs (v_inodes a) k + if decide (k = dp) then 1 else 0) -> l !! dp = Some y -> refers dev nd y -> agrees a y ->
  twp (fun r s' => exists q a', r = Some q /\ txn s' a' /\ created st ds c nd e m new N a a' /\ made pid c (inode_at a' q)) (enter dp s).
Proof.
  intros Hs Ht Hk Hr Hy (Yr & Yd & Yn) Hag. destruct (free_entry l dp y Ht Hk Hr Hy Yn) as (Hfree & Hno & Hlk). pose proof cr_range as Hcr. pose proof Hready as [C1 C2 C3 C4 C5 C6 Carea Cfile Capart C7 C8 C9 C10 C11 C12].
  pose proof (tb_lock _ _ _ _ _ _ Ht dp y Hy) as Hl. unfold lock_ok in Hl. rewrite decide_True in Hl by done. destruct Hl as [L1 L2]. pose proof (lookup_lt_Some _ _ _ Hy) as Hdl.
  assert (Hnl : i_nlink y <> 0) by (rewrite (f_equal di_nlink Hag : i_nlink y = _), Yn; by apply (to_link _ _ _ _ _ C1)).
  pose proof (to_dir _ _ _ _ _ C1 nd m C7 C8) as Hdk. rewrite <- Yn in Hdk. destruct (loaded_dir dev st ds a l dp y Hy Yd Hag Hdk) as [Hok Hof]. rewrite Yn in Hof.
  assert (Em : dir_of dp (with_inodes l a) = m).
  { rewrite Hof. unfold children in C8. destruct (_ =? _); [by injection C8|done]. }
  assert (Ey : inode_at (with_inodes l a) dp = y) by (unfold inode_at; cbn; by rewrite Hy).
  unfold enter, inode_get. mgo. rewrite (inode_at_get d0 dev st p pid ws dp s _ Hs), Ey, Yd. assert (C5' : first_free st ds c (with_inodes l a)) by (by destruct C5).
  apply (make_inode_wp fuel d0 dev st ds p pid spurious ws type major minor c Htype Hmajor Hminor Hused _ _ s (with_inodes l a) Hs); try done; [unfold room in *; cbn; lia|apply Ht|].
  intros q a2 xq z s2 H2 Hrd Hq Hq0 Ei2 Z1 Z2 Z3 Z4 Z5. cbn [v_inodes with_inodes] in Hq, Ei2. assert (Hqd : q <> dp) by (intros ->; rewrite Hy in Hq; injection Hq as <-; lia).
  assert (Hy2 : v_inodes a2 !! dp = Some y) by (rewrite Ei2, list_lookup_insert_ne by done; exact Hy). assert (Hsame : v_inodes a2 !! dp = v_inodes (with_inodes l a) !! dp) by (by rewrite Hy2).
  destruct C5 as [F1 F2 F3 F4 F5 F6 F7]. destruct (redone_dir Hrd F6 F7 dp Hok Hsame) as [Hok2 Em2]; [rewrite Ei2; apply length_insert|]. rewrite Em in Em2.
  assert (Hlink : link_ready st ds dp (with_inodes l a)).
  { apply (loaded_link l dp y Hy Hag). by rewrite Yn. }
  pose proof (redone_link Hrd F7 dp Hlink C12 (t_nodup _ _ _ _ _ _ _ _ H2) Hsame) as Hlink2.
  rewrite (proj2 (Z.eqb_neq _ _) Hnodir). eapply wp_bind_ok; [reflexivity|].
  eapply wp_call; [apply (dirlink_wp fuel d0 dev st ds p pid spurious ws dp e c s2 a2 H2 Hok2 Hlink2); [lia|rewrite Em2, C9; done]|].
  rewrite Em2, C9. intros r s3 (-> & a3 & H3 & Hok3 & Em3 & Hw). change (0 <? 0) with false. cbn iota.
  destruct (w_inode _ _ _ _ _ _ Hw) as [la Ei3]. assert (E2 : inode_at a2 dp = y) by (unfold inode_at; by rewrite Hy2). rewrite E2 in Ei3. set (y3 := inode_at a3 dp) in *.
  assert (Hy3 : v_inodes a3 !! dp = Some y3).
  { unfold y3, inode_at. by destruct (lookup_lt_is_Some_2 _ _ (fo_ip _ _ _ _ (do_file _ _ _ _ _ Hok3))) as [x ->]. }
  destruct (leave_dir a3 s3 dp y3 H3 Hy3) as (s4 & l4 & E4 & H4 & Ho4); try (by rewrite Ei3); [by rewrite <- (tb_len _ _ _ _ _ _ Ht)|].
  eapply wp_bind_ok; [exact E4|]. exists q, (with_inodes l4 a3). split; [done|]. split; [done|]. split; [by eapply (entered_created l dp y a2 a3)|].
  unfold inode_at. cbn [v_inodes with_inodes]. rewrite Ho4, (w_others _ _ _ _ _ _ Hw), Ei2 by done. rewrite list_lookup_insert_eq by (by eapply lookup_lt_Some). split; [|done]. split; [cbn; lia|done].
Qed.

(** [create] of a path from the root whose last name is new. *)
Lemma create_wp s path : txn s a -> ROOTINO ∈ N -> walk_parent dev a ROOTINO (elements (SLASH :: path)) = Some (nd, e) ->
  twp (fun r s' => exists q a', r = Some q /\ txn s' a' /\ created st ds c nd e m new N a a' /\ made pid c (inode_at a' q)) (create (S fuel) (SLASH :: path) type major minor s).
Proof.
  intros Hs Hroot Hw. pose proof Hready as [C1 C2 C3 C4 C5 C6 Carea Cfile Capart C7 C8 C9 C10 C11 C12]. assert (Hroom : room 4 a) by (unfold room in *; lia).
  unfold create, nameiparent. eapply wp_call; [by apply (namex_root_wp fuel d0 st ds p pid spurious ws a N s)|]. unfold target. rewrite Hw. intros [r1 r2] s1 (l1 & H1 & (dp & Er & T1 & K1 & R1 & x & Hx & Hrf) & En).
  cbn in Er, En. subst r1 r2. cbn iota. eapply wp_call; [by apply (ilock_ok fuel d0 dev st ds p pid spurious ws a N C1 C11 Hroom l1 s1 dp x nd)|].
  intros [] s2 (l2 & y & H2 & T2 & K2 & R2 & Hy & Hyr & _ & Hag). pose proof Hyr as (_ & Yd & Yn).
  assert (K : kept (v_inodes a) l2) by (apply (kept_trans _ l1); [done| |done]; intros k; rewrite R1; destruct (decide _); lia).
  assert (R : forall k, refs l2 k = refs (v_inodes a) k + if decide (k = dp) then 1 else 0) by (intros k; by rewrite R2, R1).
  pose proof (to_dir _ _ _ _ _ C1 nd m C7 C8) as Hdk. rewrite <- Yn in Hdk. destruct (loaded_dir dev st ds a l2 dp y Hy Yd Hag Hdk) as [Hok Hof]. rewrite Yn in Hof.
  assert (Em : dir_of dp (with_inodes l2 a) !! key e = None).
  { rewrite Hof. unfold children in C8. destruct (_ =? _); [by injection C8 as ->|done]. }
  eapply wp_call; [apply (dirlookup_wp fuel d0 dev st ds p pid spurious ws dp e s2 (with_inodes l2 a) H2 Hok Hroom)|]; rewrite Em; [done|].
  intros r s3 [-> H3]. by apply (enter_wp s3 l2 dp y).
Qed.
End Create.

(** ** On the disk *)

(** The tree on the disk [D]: the directory [nd] has the name [e] for the new inode [c]; the
    other files and directories of the tree are as in [a]. *)
Record file_added (c nd : Z) (e : list Z) (m : dir) (new : dinode) (N : gset Z) (a : view_) (D : Z -> list Z) : Prop := {
  fa_new : disk_inode D (v_sb a) c = new;
  fa_dir : children dev (with_disk D a) nd = Some (<[key e := c]> m);
  fa_inodes : forall n, n ∈ N -> n <> nd -> disk_inode D (v_sb a) n = disk_inode (v_disk a) (v_sb a) n;
  fa_files : forall n, n ∈ N -> n <> nd -> file_is D (v_sb a) n (di_size (disk_inode (v_disk a) (v_sb a) n)) (vbyte (disk_view dev a n) 0);
  fa_dirs : forall n, n ∈ N -> n <> nd -> children dev (with_disk D a) n = children dev a n
}.

Lemma created_added st ds pid c nd e m new N a a' D : create_ready st ds pid a N c nd e m -> created st ds c nd e m new N a a' ->
  (forall b, home st b -> D b = v_disk a' b) -> file_added c nd e m new N a D.
Proof.
  intros [C1 C2 C3 C4 [F1 F2 F3 F4 F5 F6 F7] C6 Carea Cfile Capart C7 C8 C9 C10 C11 C12] [D1 D2 D3 D4 D5 D6] HD.
  pose proof (ao_layout _ _ _ (do_alloc _ _ _ _ _ (to_dir _ _ _ _ _ C1 nd m C7 C8))) as Hlay. cbn [v_sb disk_view] in Hlay.
  assert (Hi : forall n, n ∈ N -> n <> nd -> disk_inode D (v_sb a) n = disk_inode (v_disk a) (v_sb a) n).
  { intros n Hn Hne. rewrite <- D5 by done. unfold disk_inode. by rewrite HD by (by apply (to_home _ _ _ _ _ C1)). }
  assert (Hf : forall n, n ∈ N -> n <> nd -> file_is D (v_sb a) n (di_size (disk_inode (v_disk a) (v_sb a) n)) (vbyte (disk_view dev a n) 0)).
  { intros n Hn Hne. apply (file_is_frame ds); [by apply Cfile|by apply Hi|]. intros b Hb. pose proof Hb as (Hz & k & Hk & Ek). destruct (fo_slot _ _ _ _ (Cfile n Hn) k Hk ltac:(by rewrite Ek)) as [Hr Hu].
    rewrite Ek in *. cbn [v_sb v_disk disk_view] in Hr, Hu. rewrite HD by (by apply (layout_data _ _ _ _ Hlay)). apply D6; [done|done|]. by apply (Capart n). }
  split; try done.
  - rewrite <- D3. unfold disk_inode. rewrite HD; [done|]. apply F5. lia.
  - by apply D4.
  - intros n Hn Hne. destruct (children dev a n) as [m'|] eqn:Em.
    + pose proof (do_size _ _ _ _ _ (to_dir _ _ _ _ _ C1 n m' Hn Em)) as Hs. rewrite <- Em. rewrite (children_file (with_disk D a) n _ _ (Hf n Hn Hne)) by apply Hs.
      cbn [v_disk v_sb with_disk]. rewrite Hi by done. done.
    + unfold children in *. cbn [v_disk v_sb with_disk]. rewrite Hi by done. destruct (di_type (disk_inode (v_disk a) (v_sb a) n) =? T_DIR); [discriminate Em|reflexivity].
Qed.

(** C1. A file is created atomically with respect to crashes.  From a quiet file system whose
    directories form the tree [N], [begin_op], [create] of a path from the root whose last name
    [e] is not yet in its directory [nd], and [end_op]: whenever the machine stops, after recovery
    either no block has changed, or the first free inode [c] is the new file, [nd] has the name
    [e] for it besides the names it had, and every other file and directory of the
    tree has its inode and its contents.  At the end that is what the disk holds, and the
    result is the new inode, locked by the process. *)
Theorem create_crash_safe (fuel : nat) (d0 : Z -> list Z) (st ds : Z) (p : nat) (pid : Z) (spurious : Prop) (ws : list (Z * list Z))
    (type major minor c nd : Z) (e : list Z) (m : dir) (N : gset Z) (path : list Z) (s : fss) (a := view_of d0 ws s)
    (new := mk_dinode type major minor 1 0 (replicate 13 0)) :
  fs_quiet d0 ROOTDEV st p pid ws s -> create_ready st ds pid a N c nd e m -> ROOTINO ∈ N ->
  walk_parent ROOTDEV a ROOTINO (elements (SLASH :: path)) = Some (nd, e) ->
  - 2 ^ 15 <= type < 2 ^ 15 -> - 2 ^ 15 <= major < 2 ^ 15 -> - 2 ^ 15 <= minor < 2 ^ 15 -> type <> 0 -> type <> T_DIR ->
  wp spurious (sub_rel (env d0 ROOTDEV p pid spurious))
    (fun s' => let D := recovered st (dblock d0 (b_writes (l_b (fs_l s')))) in
       (forall b, home st b -> D b = dblock d0 ws b) \/ file_added c nd e m new N a D)
    (fun r s' => exists q ws', r = Some q /\ made pid c (get_inode s' q) /\ fs_quiet d0 ROOTDEV st p pid ws' s' /\
       file_added c nd e m new N a (dblock d0 ws'))
    ((lift (log_begin_op fuel) ;;; r <- create (S fuel) (SLASH :: path) type major minor ;; lift (log_end_op (S fuel)) ;;; ret r) s).
Proof.
  intros Hq R Hroot Hw T1 T2 T3 T4 T5. set (V := fun r a' => exists q, r = Some q /\ created st ds c nd e m new N a a' /\ made pid c (inode_at a' q)).
  eapply wp_weaken; [done| |eapply wp_mono; [apply (transaction_wp fuel d0 ROOTDEV st p pid spurious s ws _ V Hq)|]].
  - intros s' [Hold|(a' & (r & q & _ & HC & _) & HD)]; [by left|]. right. by eapply created_added.
  - intros s1 H1. eapply wp_mono; [by apply (create_wp fuel d0 st ds p pid spurious ws type major minor c nd e m N a)|]. intros r s' (q & a' & -> & H' & HC & HM).
    exists a'. split; [done|]. split; [apply HC|]. by exists q.
  - intros r s' (ws' & a' & (q & -> & HC & HM) & Hq' & Et & _ & HD). exists q, ws'. split; [done|]. split; [|split; [done|by eapply created_added]].
    unfold get_inode. rewrite Et. exact HM.
Qed.

(** ** A new file in the tree *)

Notation tree_set := ({[1; 2; 3]} : gset Z).
Notation tree_d := (<[[46] := 2]> (<[[46; 46] := 1]> (<[[102] := 3]> ∅)) : dir).

Lemma tree_addrs n : n ∈ tree_set -> exists b, i_addrs (loaded 1 tree_view n) = b :: replicate 12 0 /\ b = (if n =? 3 then 0 else 45 + n).
Proof. intros [->|[->| ->]]%tree_nodes; eexists; split; by vm_compute. Qed.

Lemma tree_area n : 1 <= n <= 4 -> home 2 (IBLOCK n demo_sb) /\ IBLOCK n demo_sb < 46 /\ ~ map_block demo_sb (IBLOCK n demo_sb).
Proof.
  intros Hn. assert (E : IBLOCK n demo_sb = 32) by (unfold IBLOCK; rewrite Z.div_small by (change IPB with 16; lia); done). rewrite E.
  split; [pose proof LOGSIZE_eq; unfold home; lia|]. split; [lia|]. intros (k & Hk & E'). revert E'. unfold BBLOCK. cbn [sb_size demo_sb] in Hk. rewrite Z.div_small by (change BPB with 8192; lia). by vm_compute.
Qed.

Lemma tree_free : first_free 2 46 4 tree_view.
Proof.
  split; [done|done|by vm_compute| | |apply (tree_area 4); lia|apply (tree_area 4); lia].
  - intros n Hn. assert (n = 1 \/ n = 2 \/ n = 3) as [->|[->| ->]] by lia; by vm_compute.
  - intros n Hn. apply (tree_area n). lia.
Qed.

Lemma tree_link : link_ready 2 46 0 (disk_view 1 tree_view 2).
Proof.
  assert (E0 : inode_at (disk_view 1 tree_view 2) 0 = mk_inode 1 2 1 (mk_sleeplock 0 "inode" 0) 1 T_DIR 0 0 1 48 (47 :: replicate 12 0)) by (by vm_compute).
  destruct (tree_area 2 ltac:(lia)) as (A1 & A2 & A3). split.
  - split; rewrite E0; assumption.
  - rewrite E0. by repeat split; try apply Forall_cons; repeat constructor.
  - by rewrite E0.
  - by apply Z.leb_le.
  - apply Nat.ltb_lt. by vm_compute.
  - exists [48; 49]. split; [apply (bool_decide_unpack _); by vm_compute|]. split; [done|]. repeat constructor; by vm_compute.
  - rewrite E0. by apply Z.leb_le.
Qed.

Lemma tree_ready : create_ready 2 46 1 tree_view tree_set 4 2 [103] tree_d.
Proof.
  split.
  - exact tree_tree_ok.
  - exact tree_table.
  - intros [|j] x Hx; [injection Hx as <-; intros _; by apply tree_nodes; left|]. change (replicate 49 inode_zero !! j = Some x) in Hx. apply lookup_replicate in Hx as [-> _]. by intros [? _].
  - exact tree_spare.
  - exact tree_free.
  - intros [?|[?|?]]%tree_nodes; done.
  - intros n Hn%tree_nodes. split; [lia|]. apply (tree_area n). lia.
  - intros n Hn. destruct (tree_addrs n Hn) as (b & El & ->). apply (tree_file n _ El). apply tree_nodes in Hn as [->|[->| ->]]; cbn; lia.
  - intros n b Hn Hne (Hz & k & Hk & Ek) (_ & k' & Hk' & Ek'). destruct (tree_addrs n Hn) as (b1 & El & E1). destruct (tree_addrs 2 ltac:(by apply tree_nodes; right; left)) as (b2 & El2 & E2).
    rewrite (tree_slot n b1) in Ek by done. rewrite (tree_slot 2 b2) in Ek' by done. cbn in E2. destruct (k =? 0), (k' =? 0), (n =? 3); lia.
  - by apply tree_nodes; right; left.
  - apply tree_children.
  - done.
  - exact tree_link.
  - done.
  - apply Nat.ltb_lt. by vm_compute.
Qed.

(** "/d/g" in the tree of "/d/f". *)
Lemma create_crash_safe_witness :
  let new := mk_dinode T_FILE 0 0 1 0 (replicate 13 0) in
  wp False (sub_rel (env tree_disk 1 0 1 False))
    (fun s' => let D := recovered 2 (dblock tree_disk (b_writes (l_b (fs_l s')))) in
       (forall b, home 2 b -> D b = dblock tree_disk [] b) \/ file_added 4 2 [103] tree_d new tree_set tree_view D)
    (fun r s' => exists q ws', r = Some q /\ made 1 4 (get_inode s' q) /\ fs_quiet tree_disk 1 2 0 1 ws' s' /\
       file_added 4 2 [103] tree_d new tree_set tree_view (dblock tree_disk ws'))
    ((lift (log_begin_op 0) ;;; r <- create 1 [47; 100; 47; 103] T_FILE 0 0 ;; lift (log_end_op 1) ;;; ret r) tree_fs).
Proof.
  apply (create_crash_safe 0 tree_disk 2 46 0 1 False [] T_FILE 0 0 4 2 [103] tree_d tree_set [100; 47; 103] tree_fs tree_quiet tree_ready).
  - by apply tree_nodes; left.
  - by vm_compute.
  - by vm_compute.
  - by vm_compute.
  - by vm_compute.
  - discriminate.
  - discriminate.
Defined.
