(* ===== verification/UtLib.v ===== *)
(** * What the test programs share

    user/usertests.c, forktest.c, stressfs.c and grind.c call the kernel directly and
    report with printf.  Here are the stubs they use, the ways they report, and a
    predicate for programs that keep to their own memory whatever the kernel answers:
    the formats given to printf match their arguments. *)
From stdpp Require Import list strings.
From S2P Require Import Prelude Kstring Abi Machine User UserLib.

(** A string constant of C, in which [\n] is a newline. *)
Fixpoint unescape (s : list Z) : list Z :=
  match s with
  | 92 :: 110 :: s => 10 :: unescape s
  | c :: s => c :: unescape s
  | [] => []
  end.
Definition cs (s : string) : list Z := unescape (bytes_of s).
Coercion cs : string >-> list.

Notation "a .| b" := (Z.lor a b) (at level 50, left associativity) : user_scope.

(** ** The stubs of user/usys.pl, with the arguments of user.h *)

Definition fork : prog Z := call Fork.
Definition wait : prog (Z * Z) := call Wait.
(** [wait(&st)]: the pid, and [st] as it was if there is no child. *)
Definition wait_into (st : Z) : prog (Z * Z) := r <- wait ;; Ret (fst r, if fst r <? 0 then st else snd r).
Definition pipe : prog (Z * (Z * Z)) := call Pipe.
Definition read (fd n : Z) : prog (Z * list Z) := call (Read fd n).
Definition write (fd : Z) (bytes : list Z) : prog Z := call (Write fd bytes).
Definition close (fd : Z) : prog Z := call (Close fd).
Definition kill (pid : Z) : prog Z := call (Kill pid).
Definition exec (path : list Z) (argv : list (list Z)) : prog Z := call (Exec path argv).
Definition open (path : list Z) (omode : Z) : prog Z := call (Open path omode).
Definition unlink (path : list Z) : prog Z := call (Unlink path).
Definition link (old new : list Z) : prog Z := call (Link old new).
Definition mkdir (path : list Z) : prog Z := call (Mkdir path).
Definition chdir (path : list Z) : prog Z := call (Chdir path).
Definition dup (fd : Z) : prog Z := call (Dup fd).
Definition getpid : prog Z := call Getpid.
(** [sbrk] takes an [int] and returns an address. *)
Definition sbrk (n : Z) : prog Z := r <- call (Sbrk (i32 n)) ;; Ret (u64 r).
Definition sleep (n : Z) : prog Z := call (Sleep n).
Definition ecall (num : Z) (args : list sysarg) : prog Z := call (Ecall num args).

(** The hardware refuses an access and usertrap ends the process with status -1. *)
Definition load (a : Z) : prog Z := r <- call (Load a) ;; match r with Some v => Ret v | None => Exit (-1) end.
Definition store (a v : Z) : prog unit := r <- call (Store a v) ;; if r : bool then Ret tt else Exit (-1).

Definition SYS_pipe : Z := 4.
Definition SYS_read : Z := 5.
Definition SYS_exec : Z := 7.
Definition SYS_open : Z := 15.
Definition SYS_write : Z := 16.
Definition SYS_unlink : Z := 18.
Definition SYS_link : Z := 19.

(** ** Reports *)

Notation D_ v := (Uprintf.Aval v).
Notation S_ s := (Uprintf.Astr (Some s)).

Definition say (fmt : list Z) (args : list Uprintf.uarg) : prog unit := Uprintf.printf fmt args.
(** [printf(...); exit(1);] *)
Definition die (fmt : list Z) (args : list Uprintf.uarg) : prog unit := say fmt args ;;; Exit 1.

(** [for(i = 0; i < n; i++)] *)
Definition ufor (n : Z) (body : Z -> prog unit) : prog unit := ueach (map Z.of_nat (seq 0 (Z.to_nat n))) body.

(** The same with variables that the body changes. *)
Fixpoint ufold {St} (n : nat) (i : Z) (body : Z -> St -> prog St) (s : St) : prog St :=
  match n with
  | O => Ret s
  | S n => s <- body i s ;; ufold n (i + 1) body s
  end.

(** [close(open(...))] *)
Definition close_open (path : list Z) (omode : Z) : prog unit := fd <- open path omode ;; close fd ;;; Ret tt.

(** A buffer after [read] stored [bytes] at its start. *)
Definition fill (buf bytes : list Z) : list Z := bytes ++ drop (length bytes) buf.

(** A process that only waits to be killed. *)
Definition forever {A} (fuel : nat) (body : prog unit) : prog A := loop fuel (fun _ => body ;;; Ret (inl tt)) tt.

(** ** Programs that keep to their memory *)

(** Whatever the kernel answers the program does not access memory it does not have; with
    [more] it may use up its fuel. *)
Fixpoint sound {A} (more : bool) (p : prog A) : Prop :=
  match p with
  | Ret _ => True
  | Call X c k => forall x, sound more (k x)
  | Exit _ => True
  | Fault => False
  | More => more = true
  end.

Lemma sound_run {St} `{OS St} {A} more (p : prog A) (s : St) :
  sound more p -> fst (run p s) <> Faulted /\ (more = false -> fst (run p s) <> OutOfFuel).
Proof.
  revert s. induction p as [a|X c k IH|n| |]; intros s Hp; cbn in *; [done| |done|done|by subst].
  destruct (answer X c s) as [x s']. by apply IH.
Qed.

Lemma sound_bind {A B} more (p : prog A) (f : A -> prog B) : sound more p -> (forall a, sound more (f a)) -> sound more (ubind p f).
Proof. intros Hp Hf. induction p as [a|X c k IH|n| |]; cbn in *; try done. intros x. by apply IH. Qed.

Lemma sound_each {X} more (l : list X) body : (forall x, sound more (body x)) -> sound more (ueach l body).
Proof. intros H. induction l as [|x l IH]; [done|]. cbn [ueach]. by apply sound_bind. Qed.

Lemma sound_loop {St R} fuel (body : St -> prog (St + R)) s : (forall s, sound true (body s)) -> sound true (loop fuel body s).
Proof.
  intros H. revert s. induction fuel as [|fuel IH]; intros s; cbn [loop]; [done|]. apply sound_bind; [done|]. intros [s'|r]; [apply IH|done].
Qed.

Lemma sound_fold {St} more n i (body : Z -> St -> prog St) s : (forall i s, sound more (body i s)) -> sound more (ufold n i body s).
Proof. intros H. revert i s. induction n as [|n IH]; intros i s; cbn [ufold]; [done|]. apply sound_bind; [done|]. intros s'. apply IH. Qed.

Lemma sound_putcs more fd l : sound more (ueach l (Uprintf.putc fd)).
Proof. apply sound_each. by intros x r. Qed.

(** The format has the arguments it names. *)
Fixpoint fits (fmt : list Z) (pct : bool) (ap : list Uprintf.uarg) : bool :=
  match fmt with
  | [] => true
  | c :: fmt =>
      if negb pct then fits fmt (c =? 37) ap
      else if (c =? 100) || (c =? 108) || (c =? 120) || (c =? 112) || (c =? 99) then
        match ap with Uprintf.Aval _ :: ap => fits fmt false ap | _ => false end
      else if c =? 115 then match ap with Uprintf.Astr _ :: ap => fits fmt false ap | _ => false end
      else fits fmt false ap
  end.

Lemma sound_vprintf more fd fmt : forall pct ap, fits fmt pct ap = true -> sound more (Uprintf.vprintf fd fmt pct ap).
Proof.
  assert (Hputc : forall c, sound more (Uprintf.putc fd c)) by (by intros c r). pose proof (sound_putcs more fd) as Hputcs.
  assert (Hptr : forall x, sound more (Uprintf.printptr fd x)).
  { intros x. unfold Uprintf.printptr. do 2 (apply sound_bind; [done|]; intros _). apply Hputcs. }
  induction fmt as [|c fmt IH]; intros pct ap Hf; [done|]. cbn [fits Uprintf.vprintf] in *. destruct pct; cbn [negb] in *.
  2:{ destruct (c =? 37); [by apply IH|]. apply sound_bind; [done|]. intros _. by apply IH. }
  destruct (c =? 100); [|destruct (c =? 108); [|destruct (c =? 120); [|destruct (c =? 112)]]]; cbn [orb] in Hf.
  1-4: destruct ap as [|[v|x] ap]; try done; (apply sound_bind; [first [apply Hptr|apply Hputcs]|]); intros _; by apply IH.
  destruct (Z.eqb_spec c 115) as [->|]; cbn [Z.eqb orb Pos.eqb] in Hf.
  { destruct ap as [|[v|x] ap]; try done. apply sound_bind; [apply Hputcs|]. intros _. by apply IH. }
  destruct (c =? 99).
  { destruct ap as [|[v|x] ap]; try done. apply sound_bind; [done|]. intros _. by apply IH. }
  destruct (c =? 37); repeat (apply sound_bind; [done|]; intros _); by apply IH.
Qed.

Lemma sound_say more fmt args : fits fmt false args = true -> sound more (say fmt args).
Proof. apply sound_vprintf. Qed.
Lemma sound_die more fmt args : fits fmt false args = true -> sound more (die fmt args).
Proof. intros H. apply sound_bind; [by apply sound_say|done]. Qed.
Lemma sound_load more a : sound more (load a).
Proof. by intros []. Qed.
Lemma sound_store more a v : sound more (store a v).
Proof. by intros []. Qed.

(** Through the code of a program. *)
Ltac head_of t := match t with ?f _ => head_of f | _ => t end.
Ltac sound_step :=
  match goal with
  | |- sound _ (say _ _) => apply sound_say; reflexivity
  | |- sound _ (die _ _) => apply sound_die; reflexivity
  | |- sound _ (Uprintf.fprintf _ _ _) => apply sound_vprintf; reflexivity
  | |- sound _ (load _) => apply sound_load
  | |- sound _ (store _ _) => apply sound_store
  | |- sound _ (ubind _ _) => apply sound_bind; [|intros ?]
  | |- sound _ (ufor _ _) => apply sound_each; intros ?
  | |- sound _ (ueach _ _) => apply sound_each; intros ?
  | |- sound _ (ufold _ _ _ _) => apply sound_fold; intros ? ?
  | |- sound _ (forever _ _) => apply sound_loop; intros ?
  | |- sound _ (loop _ _ _) => apply sound_loop; intros ?
  | |- sound _ (uwhen ?b _) => destruct b; cbn [uwhen]
  | |- sound _ (if ?b then _ else _) => destruct b
  | |- sound _ (match ?x with _ => _ end) => destruct x
  | |- sound _ (Ret _) => exact I
  | |- sound _ (Exit _) => exact I
  | |- sound _ (call _) => exact (fun _ => I)
  | |- sound true More => reflexivity
  | |- sound _ ?p => let h := head_of p in progress unfold h
  end.
Ltac sound := repeat (cbn beta zeta; sound_step).
