(* ===== verification/Grind.v ===== *)
(** * user/grind.c

    [do_rand] computes 7^5 * x mod (2^31 - 1) in a way that stays within 32 bits; [go] makes
    system calls that these numbers choose, in two processes, for ever. *)
From stdpp Require Import list strings.
From S2P Require Import Prelude Kstring Abi Machine User UserLib UtLib.

(** The new value of [*ctx], which is also the result; [ctx] is an [unsigned long]. *)
Definition do_rand (ctx : Z) : Z :=
  let x := ctx mod 0x7ffffffe + 1 in
  let hi := x / 127773 in
  let lo := x mod 127773 in
  let x := 16807 * lo - 2836 * hi in
  let x := if x <? 0 then x + 0x7fffffff else x in
  x - 1.

(** [rand]: the result and [rand_next]. *)
Definition rand (rand_next : Z) : Z * Z := (i32 (do_rand rand_next), do_rand rand_next).

(** The generator of Park and Miller on 1 .. 2^31 - 2. *)
Definition park_miller (x : Z) : Z := (7 ^ 5 * x) mod (2 ^ 31 - 1).

Lemma park_miller_nonzero x : 1 <= x <= 0x7ffffffe -> park_miller x <> 0.
Proof.
  intros Hx. unfold park_miller. intros E. apply Z.mod_divide in E; [|lia].
  apply Z.gauss in E; [|by vm_compute]. destruct E as [k Hk].
  assert (2 ^ 31 - 1 = 0x7fffffff) as Hc by done. rewrite Hc in Hk. assert (k <= 0 \/ 1 <= k) as [|] by lia; lia.
Qed.

Lemma do_rand_step x : 1 <= x <= 0x7ffffffe ->
  let y := 16807 * (x mod 127773) - 2836 * (x / 127773) in
  (if y <? 0 then y + 0x7fffffff else y) = park_miller x.
Proof.
  intros Hx y. assert (Hd : x = 127773 * (x / 127773) + x mod 127773) by (apply Z.div_mod; lia).
  assert (Hr : 0 <= x mod 127773 < 127773) by (apply Z.mod_pos_bound; lia).
  assert (Hq : 0 <= x / 127773 < 16808) by (split; [apply Z.div_pos; lia|apply Z.div_lt_upper_bound; lia]).
  assert (Ey : 7 ^ 5 * x = (2 ^ 31 - 1) * (x / 127773) + y) by (subst y; change (7 ^ 5) with 16807; change (2 ^ 31 - 1) with 2147483647; lia).
  assert (Ep : park_miller x = y mod 0x7fffffff).
  { unfold park_miller. rewrite Ey, Z.add_comm, Z.mul_comm. change (2 ^ 31 - 1) with 0x7fffffff. apply Z.mod_add. lia. }
  pose proof (park_miller_nonzero x Hx) as Hn. rewrite Ep in Hn |- *. destruct (Z.ltb_spec y 0).
  - rewrite <- (Z.mod_add y 1) by lia. symmetry. apply Z.mod_small. lia.
  - symmetry. apply Z.mod_small. lia.
Qed.

(** [do_rand] is the generator its comment names: with [x] the state moved to
    [1, 0x7ffffffe], the result is 7^5 * x mod (2^31 - 1) moved back, it is in
    [0, 0x7ffffffd], so it is the same number as an [int] and as the next state. *)
Theorem do_rand_correct (ctx : Z) :
  0 <= ctx < 2 ^ 64 ->
  do_rand ctx = park_miller (ctx mod 0x7ffffffe + 1) - 1 /\
  0 <= do_rand ctx <= 0x7ffffffd /\ rand ctx = (do_rand ctx, do_rand ctx).
Proof.
  intros Hc. assert (Hx : 1 <= ctx mod 0x7ffffffe + 1 <= 0x7ffffffe) by (pose proof (Z.mod_pos_bound ctx 0x7ffffffe ltac:(lia)); lia).
  assert (E : do_rand ctx = park_miller (ctx mod 0x7ffffffe + 1) - 1) by (unfold do_rand; by rewrite do_rand_step).
  assert (Hb : 0 <= do_rand ctx <= 0x7ffffffd).
  { rewrite E. pose proof (park_miller_nonzero _ Hx). unfold park_miller in *.
    pose proof (Z.mod_pos_bound (7 ^ 5 * (ctx mod 0x7ffffffe + 1)) (2 ^ 31 - 1) ltac:(lia)). lia. }
  split; [done|]. split; [done|]. unfold rand. f_equal. unfold i32. rewrite Z.mod_small by lia. lia.
Qed.

Lemma do_rand_correct_witness : do_rand 31 = 16807 * 32 - 1.
Proof. rewrite (proj1 (do_rand_correct 31 ltac:(lia))). reflexivity. Defined.

(** ** The loop *)

(** The variables of [go] that live through an iteration: [fd], [buf] and [rand_next]. *)
Record gs := mk_gs { g_fd : Z; g_buf : list Z; g_rand : Z; g_iters : Z }.

(** [pid = fork()], after which the child runs [child] and exits and the parent ends when
    there is no child. *)
Definition go_fork (child : prog unit) : prog Z :=
  pid <- fork ;;
  (if pid =? 0 then child ;;; Exit 0
   else if pid <? 0 then die "grind: fork failed\n" []
   else Ret tt) ;;;
  Ret pid.

(** [what] up to 12: files and directories; the new [fd] and [buf]. *)
Definition go_files (what fd : Z) (buf : list Z) : prog (Z * list Z) :=
  if what =? 1 then
    close_open "grindir/../a" (O_CREATE .| O_RDWR) ;;; Ret (fd, buf)
  else if what =? 2 then
    close_open "grindir/../grindir/../b" (O_CREATE .| O_RDWR) ;;; Ret (fd, buf)
  else if what =? 3 then
    unlink "grindir/../a" ;;; Ret (fd, buf)
  else if what =? 4 then
    r <- chdir "grindir" ;;
    uwhen (negb (r =? 0)) (die "grind: chdir grindir failed\n" []) ;;;
    unlink "../b" ;;;
    chdir "/" ;;;
    Ret (fd, buf)
  else if what =? 5 then
    close fd ;;;
    fd <- open "/grindir/../a" (O_CREATE .| O_RDWR) ;;
    Ret (fd, buf)
  else if what =? 6 then
    close fd ;;;
    fd <- open "/./grindir/./../b" (O_CREATE .| O_RDWR) ;;
    Ret (fd, buf)
  else if what =? 7 then
    write fd buf ;;; Ret (fd, buf)
  else if what =? 8 then
    r <- read fd 999 ;;
    Ret (fd, fill buf (snd r))
  else if what =? 9 then
    mkdir "grindir/../a" ;;;
    close_open "a/../a/./a" (O_CREATE .| O_RDWR) ;;;
    unlink "a/a" ;;;
    Ret (fd, buf)
  else if what =? 10 then
    mkdir "/../b" ;;;
    close_open "grindir/../b/b" (O_CREATE .| O_RDWR) ;;;
    unlink "b/b" ;;;
    Ret (fd, buf)
  else if what =? 11 then
    unlink "b" ;;;
    link "../grindir/./../a" "../b" ;;;
    Ret (fd, buf)
  else if what =? 12 then
    unlink "../grindir/../a" ;;;
    link ".././b" "/grindir/../a" ;;;
    Ret (fd, buf)
  else Ret (fd, buf).

(** [what] from 13 to 20: processes and memory.  The [fd] of case 20 is the child's, which
    exits. *)
Definition go_procs (what break0 : Z) : prog unit :=
  if what =? 13 then
    go_fork (Ret tt) ;;; wait ;;; Ret tt
  else if what =? 14 then
    go_fork (fork ;;; fork ;;; Ret tt) ;;; wait ;;; Ret tt
  else if what =? 15 then
    sbrk 6011 ;;; Ret tt
  else if what =? 16 then
    top <- sbrk 0 ;;
    uwhen (top >? break0) (top <- sbrk 0 ;; sbrk (- (top - break0)) ;;; Ret tt)
  else if what =? 17 then
    pid <- go_fork (close_open "a" (O_CREATE .| O_RDWR)) ;;
    r <- chdir "../grindir/.." ;;
    uwhen (negb (r =? 0)) (die "grind: chdir failed\n" []) ;;;
    kill pid ;;;
    wait ;;;
    Ret tt
  else if what =? 18 then
    go_fork (pid <- getpid ;; kill pid ;;; Ret tt) ;;; wait ;;; Ret tt
  else if what =? 19 then
    r <- pipe ;;
    let '(e, (fds0, fds1)) := r in
    uwhen (e <? 0) (die "grind: pipe failed\n" []) ;;;
    go_fork
      (fork ;;;
       fork ;;;
       w <- write fds1 "x" ;;
       uwhen (negb (w =? 1)) (say "grind: pipe write failed\n" []) ;;;
       r <- read fds0 1 ;;
       uwhen (negb (fst r =? 1)) (say "grind: pipe read failed\n" [])) ;;;
    close fds0 ;;;
    close fds1 ;;;
    wait ;;;
    Ret tt
  else if what =? 20 then
    go_fork
      (unlink "a" ;;;
       mkdir "a" ;;;
       chdir "a" ;;;
       unlink "../a" ;;;
       open "x" (O_CREATE .| O_RDWR) ;;;
       unlink "x" ;;;
       Ret tt) ;;;
    wait ;;;
    Ret tt
  else Ret tt.

(** [what] = 21. *)
Definition go_stat : prog unit :=
  unlink "c" ;;;
  fd1 <- open "c" (O_CREATE .| O_RDWR) ;;
  uwhen (fd1 <? 0) (die "grind: create c failed\n" []) ;;;
  w <- write fd1 "x" ;;
  uwhen (negb (w =? 1)) (die "grind: write c failed\n" []) ;;;
  r <- call (Fstat fd1) ;;
  let '(e, st) := r in
  uwhen (negb (e =? 0)) (die "grind: fstat failed\n" []) ;;;
  uwhen (negb (st_size st =? 1)) (die "grind: fstat reports wrong size %d\n" [D_ (i32 (st_size st))]) ;;;
  uwhen (st_ino st >? 200) (die "grind: fstat reports crazy i-number %d\n" [D_ (st_ino st)]) ;;;
  close fd1 ;;;
  unlink "c" ;;;
  Ret tt.

(** [fprintf(2, ...); exit(status);] *)
Definition abandon (fmt : list Z) (status : Z) : prog unit := Uprintf.fprintf 2 fmt [] ;;; Exit status.

(** The processes of [what] = 22: the first runs echo into the first pipe, the second cat
    from there into the second. *)
Definition go_echo (aa0 aa1 bb0 bb1 : Z) : prog unit :=
  close bb0 ;;;
  close bb1 ;;;
  close aa0 ;;;
  close 1 ;;;
  d <- dup aa1 ;;
  uwhen (negb (d =? 1)) (abandon "grind: dup failed\n" 1) ;;;
  close aa1 ;;;
  exec "grindir/../echo" ["echo" : list Z; "hi" : list Z] ;;;
  abandon "grind: echo: not found\n" 2.

Definition go_cat (aa0 aa1 bb0 bb1 : Z) : prog unit :=
  close aa1 ;;;
  close bb0 ;;;
  close 0 ;;;
  d <- dup aa0 ;;
  uwhen (negb (d =? 0)) (abandon "grind: dup failed\n" 4) ;;;
  close aa0 ;;;
  close 1 ;;;
  d <- dup bb1 ;;
  uwhen (negb (d =? 1)) (abandon "grind: dup failed\n" 5) ;;;
  close bb1 ;;;
  exec "/cat" ["cat" : list Z] ;;;
  abandon "grind: cat: not found\n" 6.

(** [read(fd, &c, 1)] where [c] was 0. *)
Definition read_char (fd : Z) : prog Z := r <- read fd 1 ;; Ret (default 0 (head (snd r))).

Definition go_pipeline : prog unit :=
  r <- pipe ;;
  let '(e, (aa0, aa1)) := r in
  uwhen (e <? 0) (abandon "grind: pipe failed\n" 1) ;;;
  r <- pipe ;;
  let '(e, (bb0, bb1)) := r in
  uwhen (e <? 0) (abandon "grind: pipe failed\n" 1) ;;;
  pid1 <- fork ;;
  (if pid1 =? 0 then go_echo aa0 aa1 bb0 bb1
   else uwhen (pid1 <? 0) (abandon "grind: fork failed\n" 3)) ;;;
  pid2 <- fork ;;
  (if pid2 =? 0 then go_cat aa0 aa1 bb0 bb1
   else uwhen (pid2 <? 0) (abandon "grind: fork failed\n" 7)) ;;;
  close aa0 ;;;
  close aa1 ;;;
  close bb1 ;;;
  c0 <- read_char bb0 ;;
  c1 <- read_char bb0 ;;
  c2 <- read_char bb0 ;;
  let buf := until_nul [c0; c1; c2; 0] in
  close bb0 ;;;
  st1 <- wait ;;
  st2 <- wait ;;
  uwhen (negb (snd st1 =? 0) || negb (snd st2 =? 0) || negb (Ulib.strcmp buf "hi\n" =? 0))
    (die (cs "grind: exec pipeline failed %d %d " ++ [34; 37; 115; 34; 10]) [D_ (snd st1); D_ (snd st2); S_ buf]).

(** One iteration of the loop of [go]. *)
Definition go_step (which_child break0 : Z) (g : gs) : prog gs :=
  let iters := u64 (g_iters g + 1) in
  uwhen (iters mod 500 =? 0) (write 1 (if negb (which_child =? 0) then cs "B" else "A") ;;; Ret tt) ;;;
  let '(x, rand_next) := rand (g_rand g) in
  let what := Z.rem x 23 in
  f <- go_files what (g_fd g) (g_buf g) ;;
  go_procs what break0 ;;;
  uwhen (what =? 21) go_stat ;;;
  uwhen (what =? 22) go_pipeline ;;;
  Ret (mk_gs (fst f) (snd f) rand_next iters).

Definition go (fuel : nat) (which_child rand_next : Z) : prog unit :=
  break0 <- sbrk 0 ;;
  mkdir "grindir" ;;;
  r <- chdir "grindir" ;;
  uwhen (negb (r =? 0)) (die "grind: chdir grindir failed\n" []) ;;;
  chdir "/" ;;;
  loop fuel (fun g => g <- go_step which_child break0 g ;; Ret (inl g)) (mk_gs (-1) (replicate 999 0) rand_next 0).

Definition iter (fuel : nat) : prog unit :=
  unlink "a" ;;;
  unlink "b" ;;;
  pid1 <- fork ;;
  uwhen (pid1 <? 0) (die "grind: fork failed\n" []) ;;;
  uwhen (pid1 =? 0) (go fuel 0 31 ;;; Exit 0) ;;;
  pid2 <- fork ;;
  uwhen (pid2 <? 0) (die "grind: fork failed\n" []) ;;;
  uwhen (pid2 =? 0) (go fuel 1 7177 ;;; Exit 0) ;;;
  st1 <- wait_into (-1) ;;
  uwhen (negb (snd st1 =? 0)) (kill pid1 ;;; kill pid2 ;;; Ret tt) ;;;
  wait_into (-1) ;;;
  Exit 0.

Definition main (fuel : nat) : prog unit :=
  forever fuel
    (pid <- fork ;;
     uwhen (pid =? 0) (iter fuel ;;; Exit 0) ;;;
     uwhen (pid >? 0) (wait ;;; Ret tt) ;;;
     sleep 20 ;;;
     Ret tt).

(** Whatever the kernel answers, grind gives printf the arguments its formats name. *)
Lemma sound_grind fuel : sound true (main fuel).
Proof. sound. Qed.
