(* ===== verification/Stress.v ===== *)
(** * user/forktest.c and user/stressfs.c

    [forktest] on a kernel whose process table has a given number of free entries. *)
From stdpp Require Import list strings.
From S2P Require Import Prelude Kstring Abi Machine User UserLib UtLib.

Module Forktest.
Definition N : Z := 1000.

Definition print (s : list Z) : prog unit := write 1 (take (Z.to_nat (Ulib.strlen s)) s) ;;; Ret tt.

(** The first loop: the number of forks that worked. *)
Fixpoint forks (k : nat) (n : Z) : prog Z :=
  match k with
  | O => Ret n
  | S k =>
      pid <- fork ;;
      if pid <? 0 then Ret n else
      if pid =? 0 then Exit 0 else
      forks k (n + 1)
  end.

(** The second, for [n] children. *)
Fixpoint waits (n : nat) : prog unit :=
  match n with
  | O => Ret tt
  | S n =>
      r <- wait ;;
      uwhen (fst r <? 0) (print "wait stopped early\n" ;;; Exit 1) ;;;
      waits n
  end.

Definition forktest : prog unit :=
  print "fork test\n" ;;;
  n <- forks (Z.to_nat N) 0 ;;
  uwhen (n =? N) (print "fork claimed to work N times!\n" ;;; Exit 1) ;;;
  waits (Z.to_nat n) ;;;
  r <- wait ;;
  uwhen (negb (fst r =? -1)) (print "wait got too many\n" ;;; Exit 1) ;;;
  print "fork test OK\n".

Definition main : prog unit := forktest ;;; Exit 0.
End Forktest.

Module Stressfs.
(** [for(i = 0; i < 4; i++) if(fork() > 0) break;] *)
Fixpoint forks (k : nat) (i : Z) : prog Z :=
  match k with
  | O => Ret i
  | S k => pid <- fork ;; if pid >? 0 then Ret i else forks k (i + 1)
  end.

Definition main : prog unit :=
  say "stressfs starting\n" [] ;;;
  let data := replicate 512 97 in
  i <- forks 4 0 ;;
  say "write %d\n" [D_ i] ;;;
  let path := cs "stressfs" ++ [48 + i] in
  fd <- open path (O_CREATE .| O_RDWR) ;;
  ufor 20 (fun _ => write fd data ;;; Ret tt) ;;;
  close fd ;;;
  say "read\n" [] ;;;
  fd <- open path O_RDONLY ;;
  ufor 20 (fun _ => read fd 512 ;;; Ret tt) ;;;
  close fd ;;;
  wait ;;;
  Exit 0.

Lemma sound_stressfs : sound false main.
Proof.
  assert (H : forall k i, sound false (forks k i)) by (induction k as [|k IH]; intros i; cbn [forks]; sound; apply IH).
  unfold main. repeat (first [apply H|cbn beta zeta; sound_step]).
Qed.
End Stressfs.

(** ** A process table

    [pt_free] entries are free and [pt_children] hold children of the caller, which have
    exited. *)
Record ptable := mk_ptable { pt_free : nat; pt_children : nat; pt_out : list Z }.

#[global] Instance ptable_os : OS ptable := fun X c s =>
  match c in sys X return X * ptable with
  | Fork => match pt_free s with O => (-1, s) | S n => (1, mk_ptable n (S (pt_children s)) (pt_out s)) end
  | Wait => match pt_children s with O => ((-1, 0), s) | S n => ((1, 0), mk_ptable (S (pt_free s)) n (pt_out s)) end
  | Write fd bytes => (Z.of_nat (length bytes), mk_ptable (pt_free s) (pt_children s) (pt_out s ++ bytes))
  | Read fd n => ((-1, []), s)
  | Pipe => ((-1, (0, 0)), s)
  | Fstat _ => ((-1, Ulib.stat_zero), s)
  | Listenmsgs _ => (tt, s)
  | Load _ => (None, s)
  | Store _ _ => (false, s)
  | Close _ | Kill _ | Exec _ _ | Open _ _ | Mknod _ _ _ | Unlink _ | Link _ _ | Mkdir _ | Chdir _
  | Dup _ | Getpid | Sbrk _ | Sleep _ | Uptime | Setpixel _ _ _ _ _ | Getmsg | Ecall _ _ => (-1, s)
  end.

#[local] Arguments cs : simpl never.

Lemma run_print {A} s (k : prog A) t : run (Forktest.print s ;;; k) t = run k (mk_ptable (pt_free t) (pt_children t) (pt_out t ++ s)).
Proof. unfold Forktest.print, Ulib.strlen. rewrite Nat2Z.id, firstn_all. done. Qed.

Lemma run_forks k : forall n t,
  run (Forktest.forks k n) t =
    let m := Nat.min k (pt_free t) in (Returned (n + Z.of_nat m), mk_ptable (pt_free t - m) (pt_children t + m) (pt_out t)).
Proof.
  induction k as [|k IH]; intros n [f c out]; cbn zeta; cbn [pt_free pt_children pt_out].
  - cbn. by rewrite Z.add_0_r, Nat.sub_0_r, Nat.add_0_r.
  - destruct f as [|f]; cbn -[Nat.min Nat.sub Nat.add Z.of_nat]; [by rewrite Z.add_0_r, Nat.add_0_r|].
    rewrite IH. cbn -[Nat.sub Nat.add Z.of_nat]. do 2 f_equal; lia.
Qed.

Lemma run_waits n : forall t, (n <= pt_children t)%nat ->
  run (Forktest.waits n) t = (Returned tt, mk_ptable (pt_free t + n) (pt_children t - n) (pt_out t)).
Proof.
  induction n as [|n IH]; intros [f c out] Hn; cbn [pt_free pt_children pt_out] in *.
  - cbn. by rewrite Nat.add_0_r, Nat.sub_0_r.
  - destruct c as [|c]; [lia|]. cbn -[Nat.add Nat.sub]. rewrite IH by (cbn; lia). cbn -[Nat.add]. do 2 f_equal; lia.
Qed.

(** With fewer free entries than [N] forktest ends well, having used each of them once and
    given each back; with [N] or more it reports that fork works too often. *)
Theorem forktest_correct (free : nat) :
  let r := run Forktest.main (mk_ptable free 0 []) in
  if Z.of_nat free <? Forktest.N
  then r = (Exited 0, mk_ptable free 0 (cs "fork test\n" ++ cs "fork test OK\n"))
  else r = (Exited 1, mk_ptable (free - 1000) 1000 (cs "fork test\n" ++ cs "fork claimed to work N times!\n")).
Proof.
  cbn zeta. unfold Forktest.main, Forktest.forktest. rewrite run_bind, run_print, (run_bind (Forktest.forks _ _)), run_forks.
  cbn [pt_free pt_children pt_out]. change (Z.to_nat Forktest.N) with 1000%nat. unfold Forktest.N. destruct (Z.ltb_spec (Z.of_nat free) 1000).
  - rewrite (Nat.min_r 1000 free) by lia. cbn zeta iota beta. destruct (Z.eqb_spec (0 + Z.of_nat free) 1000); [lia|]. cbn [uwhen ubind].
    rewrite run_bind, run_waits by (cbn; lia). cbn [pt_free pt_children pt_out]. replace (Z.to_nat (0 + Z.of_nat free)) with free by lia.
    replace (0 + free - free)%nat with 0%nat by lia. cbn -[Nat.sub Nat.add]. unfold Forktest.print, Ulib.strlen. rewrite Nat2Z.id, firstn_all.
    cbn -[Nat.sub Nat.add]. do 2 f_equal. lia.
  - rewrite (Nat.min_l 1000 free) by lia. cbn zeta iota beta. change (0 + Z.of_nat 1000 =? 1000) with true. cbn [uwhen].
    rewrite (run_bind (Forktest.print _ ;;; _)), run_print. reflexivity.
Qed.
