(* ===== verification/UtPtr.v ===== *)
(** * user/usertests.c: tests of addresses and of sbrk

    The tests that give the kernel addresses a program does not have, access such
    addresses themselves, or move the end of the program's memory. *)
From stdpp Require Import list strings.
From S2P Require Import Prelude Kstring Abi Machine User UserLib UtLib.

Definition BADADDR : Z := 0xffffffffffffffff.
Definition addrs : list Z := [0x80000000; 0xffffffffffffffff].

Definition copyin (s : list Z) : prog unit :=
  ueach addrs (fun addr =>
    fd <- open "copyin1" (O_CREATE .| O_WRONLY) ;;
    uwhen (fd <? 0) (die "open(copyin1) failed\n" []) ;;;
    n <- ecall SYS_write [Word fd; Word addr; Word 8192] ;;
    uwhen (n >=? 0) (die "write(fd, %p, 8192) returned %d, not -1\n" [D_ addr; D_ n]) ;;;
    close fd ;;;
    unlink "copyin1" ;;;
    n <- ecall SYS_write [Word 1; Word addr; Word 8192] ;;
    uwhen (n >? 0) (die "write(1, %p, 8192) returned %d, not -1 or 0\n" [D_ addr; D_ n]) ;;;
    r <- pipe ;;
    let '(e, (fds0, fds1)) := r in
    uwhen (e <? 0) (die "pipe() failed\n" []) ;;;
    n <- ecall SYS_write [Word fds1; Word addr; Word 8192] ;;
    uwhen (n >? 0) (die "write(pipe, %p, 8192) returned %d, not -1 or 0\n" [D_ addr; D_ n]) ;;;
    close fds0 ;;;
    close fds1 ;;;
    Ret tt).

Definition copyout (s : list Z) : prog unit :=
  ueach addrs (fun addr =>
    fd <- open "README" 0 ;;
    uwhen (fd <? 0) (die "open(README) failed\n" []) ;;;
    n <- ecall SYS_read [Word fd; Word addr; Word 8192] ;;
    uwhen (n >? 0) (die "read(fd, %p, 8192) returned %d, not -1 or 0\n" [D_ addr; D_ n]) ;;;
    close fd ;;;
    r <- pipe ;;
    let '(e, (fds0, fds1)) := r in
    uwhen (e <? 0) (die "pipe() failed\n" []) ;;;
    n <- write fds1 "x" ;;
    uwhen (negb (n =? 1)) (die "pipe write failed\n" []) ;;;
    n <- ecall SYS_read [Word fds0; Word addr; Word 8192] ;;
    uwhen (n >? 0) (die "read(pipe, %p, 8192) returned %d, not -1 or 0\n" [D_ addr; D_ n]) ;;;
    close fds0 ;;;
    close fds1 ;;;
    Ret tt).

Definition copyinstr1 (s : list Z) : prog unit :=
  ueach addrs (fun addr =>
    fd <- ecall SYS_open [Word addr; Word (O_CREATE .| O_WRONLY)] ;;
    uwhen (fd >=? 0) (die "open(%p) returned %d, not -1\n" [D_ addr; D_ fd])).

Definition copyinstr2 (s : list Z) : prog unit :=
  let b := replicate (Z.to_nat MAXPATH) 120 in
  r <- unlink b ;;
  uwhen (negb (r =? -1)) (die "unlink(%s) returned %d, not -1\n" [S_ b; D_ r]) ;;;
  fd <- open b (O_CREATE .| O_WRONLY) ;;
  uwhen (negb (fd =? -1)) (die "open(%s) returned %d, not -1\n" [S_ b; D_ fd]) ;;;
  r <- link b b ;;
  uwhen (negb (r =? -1)) (die "link(%s, %s) returned %d, not -1\n" [S_ b; S_ b; D_ r]) ;;;
  r <- exec b ["xx" : list Z] ;;
  uwhen (negb (r =? -1)) (die "exec(%s) returned %d, not -1\n" [S_ b; D_ fd]) ;;;
  pid <- fork ;;
  uwhen (pid <? 0) (die "fork failed\n" []) ;;;
  uwhen (pid =? 0)
    (let big := replicate (Z.to_nat PGSIZE) 120 in
     r <- exec "echo" [big; big; big] ;;
     uwhen (negb (r =? -1)) (die "exec(echo, BIG) returned %d, not -1\n" [D_ fd]) ;;;
     Exit 747) ;;;
  r <- wait_into 0 ;;
  uwhen (negb (snd r =? 747)) (die "exec(echo, BIG) succeeded, should have failed\n" []).

(** The string at an address outside the program's variables, as [%s] prints it. *)
Fixpoint puts_at (fuel : nat) (a : Z) : prog unit :=
  match fuel with
  | O => More
  | S fuel => c <- load a ;; if c =? 0 then Ret tt else Uprintf.putc 1 c ;;; puts_at fuel (u64 (a + 1))
  end.

Definition copyinstr3 (fuel : nat) (s : list Z) : prog unit :=
  sbrk 8192 ;;;
  top <- sbrk 0 ;;
  uwhen (negb (top mod PGSIZE =? 0)) (sbrk (PGSIZE - top mod PGSIZE) ;;; Ret tt) ;;;
  top <- sbrk 0 ;;
  uwhen (negb (top mod PGSIZE =? 0)) (die "oops\n" []) ;;;
  let b := u64 (top - 1) in
  store b 120 ;;;
  r <- ecall SYS_unlink [Word b] ;;
  uwhen (negb (r =? -1)) (say "unlink(" [] ;;; puts_at fuel b ;;; die ") returned %d, not -1\n" [D_ r]) ;;;
  fd <- ecall SYS_open [Word b; Word (O_CREATE .| O_WRONLY)] ;;
  uwhen (negb (fd =? -1)) (say "open(" [] ;;; puts_at fuel b ;;; die ") returned %d, not -1\n" [D_ fd]) ;;;
  r <- ecall SYS_link [Word b; Word b] ;;
  uwhen (negb (r =? -1))
    (say "link(" [] ;;; puts_at fuel b ;;; say ", " [] ;;; puts_at fuel b ;;; die ") returned %d, not -1\n" [D_ r]) ;;;
  r <- ecall SYS_exec [Word b; Argv [Cstring "xx"]] ;;
  uwhen (negb (r =? -1)) (say "exec(" [] ;;; puts_at fuel b ;;; die ") returned %d, not -1\n" [D_ fd]).

Definition rwsbrk (s : list Z) : prog unit :=
  a <- sbrk 8192 ;;
  uwhen (a =? BADADDR) (die "sbrk(rwsbrk) failed\n" []) ;;;
  r <- sbrk (-8192) ;;
  uwhen (r =? BADADDR) (die "sbrk(rwsbrk) shrink failed\n" []) ;;;
  fd <- open "rwsbrk" (O_CREATE .| O_WRONLY) ;;
  uwhen (fd <? 0) (die "open(rwsbrk) failed\n" []) ;;;
  n <- ecall SYS_write [Word fd; Word (u64 (a + 4096)); Word 1024] ;;
  uwhen (n >=? 0) (die "write(fd, %p, 1024) returned %d, not -1\n" [D_ (u64 (a + 4096)); D_ n]) ;;;
  close fd ;;;
  unlink "rwsbrk" ;;;
  fd <- open "README" O_RDONLY ;;
  uwhen (fd <? 0) (die "open(rwsbrk) failed\n" []) ;;;
  n <- ecall SYS_read [Word fd; Word (u64 (a + 4096)); Word 10] ;;
  uwhen (n >=? 0) (die "read(fd, %p, 10) returned %d, not -1\n" [D_ (u64 (a + 4096)); D_ n]) ;;;
  close fd ;;;
  Exit 0.

Definition TOOMUCH : Z := 1024 * 1024 * 1024.

Definition sbrkbasic (s : list Z) : prog unit :=
  pid <- fork ;;
  uwhen (pid <? 0) (die "fork failed in sbrkbasic\n" []) ;;;
  uwhen (pid =? 0)
    (a <- sbrk TOOMUCH ;;
     uwhen (a =? BADADDR) (Exit 0) ;;;
     ufor (TOOMUCH / 4096) (fun i => store (u64 (a + 4096 * i)) 99) ;;;
     Exit 1) ;;;
  r <- wait ;;
  uwhen (snd r =? 1) (die "%s: too much memory allocated!\n" [S_ s]) ;;;
  a <- sbrk 0 ;;
  a <- ufold 5000 0 (fun i a =>
    b <- sbrk 1 ;;
    uwhen (negb (b =? a)) (die "%s: sbrk test failed %d %x %x\n" [S_ s; D_ i; D_ a; D_ b]) ;;;
    store b 1 ;;;
    Ret (u64 (b + 1))) a ;;
  pid <- fork ;;
  uwhen (pid <? 0) (die "%s: sbrk test fork failed\n" [S_ s]) ;;;
  sbrk 1 ;;;
  c <- sbrk 1 ;;
  uwhen (negb (c =? u64 (a + 1))) (die "%s: sbrk test failed post-fork\n" [S_ s]) ;;;
  uwhen (pid =? 0) (Exit 0) ;;;
  r <- wait ;;
  Exit (snd r).

Definition BIG : Z := 100 * 1024 * 1024.

Definition sbrkmuch (s : list Z) : prog unit :=
  oldbrk <- sbrk 0 ;;
  a <- sbrk 0 ;;
  p <- sbrk (u64 (BIG - a)) ;;
  uwhen (negb (p =? a)) (die "%s: sbrk test failed to grow big address space; enough phys mem?\n" [S_ s]) ;;;
  eee <- sbrk 0 ;;
  ufor ((eee - a + 4095) / 4096) (fun i => store (u64 (a + 4096 * i)) 1) ;;;
  let lastaddr := BIG - 1 in
  store lastaddr 99 ;;;
  a <- sbrk 0 ;;
  c <- sbrk (- PGSIZE) ;;
  uwhen (c =? BADADDR) (die "%s: sbrk could not deallocate\n" [S_ s]) ;;;
  c <- sbrk 0 ;;
  uwhen (negb (c =? u64 (a - PGSIZE)))
    (die "%s: sbrk deallocation produced wrong address, a %x c %x\n" [S_ s; D_ a; D_ c]) ;;;
  a <- sbrk 0 ;;
  c <- sbrk PGSIZE ;;
  bad <- (if negb (c =? a) then Ret true else e <- sbrk 0 ;; Ret (negb (e =? u64 (a + PGSIZE)))) ;;
  uwhen bad (die "%s: sbrk re-allocation failed, a %x c %x\n" [S_ s; D_ a; D_ c]) ;;;
  v <- load lastaddr ;;
  uwhen (v =? 99) (die "%s: sbrk de-allocation didn't really deallocate\n" [S_ s]) ;;;
  a <- sbrk 0 ;;
  e <- sbrk 0 ;;
  c <- sbrk (- (e - oldbrk)) ;;
  uwhen (negb (c =? a)) (die "%s: sbrk downsize failed, a %x c %x\n" [S_ s; D_ a; D_ c]).

Definition kernmem (s : list Z) : prog unit :=
  ufor (2000000 / 50000) (fun i =>
    let a := KERNBASE + 50000 * i in
    pid <- fork ;;
    uwhen (pid <? 0) (die "%s: fork failed\n" [S_ s]) ;;;
    uwhen (pid =? 0) (v <- load a ;; die "%s: oops could read %x = %x\n" [S_ s; D_ a; D_ v]) ;;;
    r <- wait ;;
    uwhen (negb (snd r =? -1)) (Exit 1)).

(** [a <<= 1] is 0 after 64 - 38 rounds. *)
Definition MAXVAplus (s : list Z) : prog unit :=
  ufor 26 (fun i =>
    let a := u64 (Z.shiftl MAXVA i) in
    pid <- fork ;;
    uwhen (pid <? 0) (die "%s: fork failed\n" [S_ s]) ;;;
    uwhen (pid =? 0) (store a 99 ;;; die "%s: oops wrote %x\n" [S_ s; D_ a]) ;;;
    r <- wait ;;
    uwhen (negb (snd r =? -1)) (Exit 1)).

(** The ten children that take memory until they are killed, and their pids. *)
Definition sbrkfail_forks (fuel : nat) (fds0 fds1 : Z) : prog (list Z) :=
  ufold 10 0 (fun i pids =>
    pid <- fork ;;
    uwhen (pid =? 0)
      (e <- sbrk 0 ;;
       sbrk (u64 (BIG - e)) ;;;
       write fds1 "x" ;;;
       forever fuel (sleep 1000 ;;; Ret tt)) ;;;
    uwhen (negb (pid =? -1)) (read fds0 1 ;;; Ret tt) ;;;
    Ret (pids ++ [pid])) [].

Definition sbrkfail (fuel : nat) (s : list Z) : prog unit :=
  r <- pipe ;;
  let '(e, (fds0, fds1)) := r in
  uwhen (negb (e =? 0)) (die "%s: pipe() failed\n" [S_ s]) ;;;
  pids <- sbrkfail_forks fuel fds0 fds1 ;;
  c <- sbrk PGSIZE ;;
  ueach pids (fun pid => uwhen (negb (pid =? -1)) (kill pid ;;; wait ;;; Ret tt)) ;;;
  uwhen (c =? BADADDR) (die "%s: failed sbrk leaked memory\n" [S_ s]) ;;;
  pid <- fork ;;
  uwhen (pid <? 0) (die "%s: fork failed\n" [S_ s]) ;;;
  uwhen (pid =? 0)
    (a <- sbrk 0 ;;
     sbrk (10 * BIG) ;;;
     n <- ufold (Z.to_nat (10 * BIG / PGSIZE)) 0 (fun i n => v <- load (u64 (a + PGSIZE * i)) ;; Ret (i32 (n + v))) 0 ;;
     die "%s: allocate a lot of memory succeeded %d\n" [S_ s; D_ n]) ;;;
  r <- wait ;;
  uwhen (negb (snd r =? -1) && negb (snd r =? 2)) (Exit 1).

Definition sbrkarg (s : list Z) : prog unit :=
  a <- sbrk PGSIZE ;;
  fd <- open "sbrk" (O_CREATE .| O_WRONLY) ;;
  unlink "sbrk" ;;;
  uwhen (fd <? 0) (die "%s: open sbrk failed\n" [S_ s]) ;;;
  n <- ecall SYS_write [Word fd; Word a; Word PGSIZE] ;;
  uwhen (n <? 0) (die "%s: write sbrk failed\n" [S_ s]) ;;;
  close fd ;;;
  a <- sbrk PGSIZE ;;
  e <- ecall SYS_pipe [Word a] ;;
  uwhen (negb (e =? 0)) (die "%s: pipe() failed\n" [S_ s]).

Definition validatetest (s : list Z) : prog unit :=
  let hi := 1100 * 1024 in
  ufor (hi / PGSIZE + 1) (fun i =>
    let p := PGSIZE * i in
    r <- ecall SYS_link [Cstring "nosuchfile"; Word p] ;;
    uwhen (negb (r =? -1)) (die "%s: link should not succeed\n" [S_ s])).

(** [uninit] is the address of the array, which the kernel provides as part of bss. *)
Definition bsstest (uninit : Z) (s : list Z) : prog unit :=
  ufor 10000 (fun i =>
    v <- load (uninit + i) ;;
    uwhen (negb (v =? 0)) (die "%s: bss test failed\n" [S_ s])).

Definition argptest (s : list Z) : prog unit :=
  fd <- open "init" O_RDONLY ;;
  uwhen (fd <? 0) (die "%s: open failed\n" [S_ s]) ;;;
  e <- sbrk 0 ;;
  ecall SYS_read [Word fd; Word (u64 (e - 1)); Word (-1)] ;;;
  close fd ;;;
  Ret tt.

(** [sp] is the stack pointer that [r_sp] reads. *)
Definition stacktest (sp : Z) (s : list Z) : prog unit :=
  pid <- fork ;;
  (if pid =? 0 then
     v <- load (u64 (sp - PGSIZE)) ;;
     die "%s: stacktest: read below stack %p\n" [S_ s; D_ v]
   else if pid <? 0 then die "%s: fork failed\n" [S_ s]
   else Ret tt) ;;;
  r <- wait ;;
  if snd r =? -1 then Exit 0 else Exit (snd r).

Definition pgbug (s : list Z) : prog unit :=
  ecall SYS_exec [Word 0xeaeb0b5b00002f5e; Argv []] ;;;
  ecall SYS_pipe [Word 0xeaeb0b5b00002f5e] ;;;
  Exit 0.

(** [int sz = (uint64) sbrk(0)] *)
Definition sbrkbugs (s : list Z) : prog unit :=
  pid <- fork ;;
  uwhen (pid <? 0) (die "fork failed\n" []) ;;;
  uwhen (pid =? 0) (e <- sbrk 0 ;; let sz := i32 e in sbrk (- sz) ;;; Exit 0) ;;;
  wait ;;;
  pid <- fork ;;
  uwhen (pid <? 0) (die "fork failed\n" []) ;;;
  uwhen (pid =? 0) (e <- sbrk 0 ;; let sz := i32 e in sbrk (- (sz - 3500)) ;;; Exit 0) ;;;
  wait ;;;
  pid <- fork ;;
  uwhen (pid <? 0) (die "fork failed\n" []) ;;;
  uwhen (pid =? 0)
    (e <- sbrk 0 ;;
     sbrk (u64 (10 * 4096 + 2048 - e)) ;;;
     sbrk (-10) ;;;
     Exit 0) ;;;
  wait ;;;
  Exit 0.

Definition sbrklast (s : list Z) : prog unit :=
  top <- sbrk 0 ;;
  uwhen (negb (top mod 4096 =? 0)) (sbrk (4096 - top mod 4096) ;;; Ret tt) ;;;
  sbrk 4096 ;;;
  sbrk 10 ;;;
  sbrk (-20) ;;;
  top <- sbrk 0 ;;
  let p := u64 (top - 64) in
  store p 120 ;;;
  store (u64 (p + 1)) 0 ;;;
  fd <- ecall SYS_open [Word p; Word (O_RDWR .| O_CREATE)] ;;
  ecall SYS_write [Word fd; Word p; Word 1] ;;;
  close fd ;;;
  fd <- ecall SYS_open [Word p; Word O_RDWR] ;;
  store p 0 ;;;
  ecall SYS_read [Word fd; Word p; Word 1] ;;;
  c <- load p ;;
  uwhen (negb (c =? 120)) (Exit 1).

Definition sbrk8000 (s : list Z) : prog unit :=
  sbrk 0x80000004 ;;;
  top <- sbrk 0 ;;
  v <- load (u64 (top - 1)) ;;
  store (u64 (top - 1)) (u8 (v + 1)).

Definition badwrite (s : list Z) : prog unit :=
  let assumed_free := 600 in
  unlink "junk" ;;;
  ufor assumed_free (fun i =>
    fd <- open "junk" (O_CREATE .| O_WRONLY) ;;
    uwhen (fd <? 0) (die "open junk failed\n" []) ;;;
    ecall SYS_write [Word fd; Word 0xffffffffff; Word 1] ;;;
    close fd ;;;
    unlink "junk" ;;;
    Ret tt) ;;;
  fd <- open "junk" (O_CREATE .| O_WRONLY) ;;
  uwhen (fd <? 0) (die "open junk failed\n" []) ;;;
  n <- write fd "x" ;;
  uwhen (negb (n =? 1)) (die "write failed\n" []) ;;;
  close fd ;;;
  unlink "junk" ;;;
  Exit 0.

Definition badarg (s : list Z) : prog unit :=
  ufor 50000 (fun i => ecall SYS_exec [Cstring "echo"; Argv [Word 0xffffffff]] ;;; Ret tt) ;;;
  Exit 0.

(** ** None of them misuses printf *)

Lemma sound_puts_at fuel a : sound true (puts_at fuel a).
Proof. revert a. induction fuel as [|fuel IH]; intros a; cbn [puts_at]; [done|]. sound. apply IH. Qed.

Lemma sound_addresses uninit sp s : Forall (sound false)
  [copyin s; copyout s; copyinstr1 s; copyinstr2 s; rwsbrk s; sbrkbasic s; sbrkmuch s; kernmem s; MAXVAplus s; sbrkarg s; validatetest s;
   bsstest uninit s; argptest s; stacktest sp s; pgbug s; sbrkbugs s; sbrklast s; sbrk8000 s; badwrite s; badarg s].
Proof.
  repeat (apply Forall_cons; split; [sound|]). apply Forall_nil. done.
Qed.

Lemma sound_copyinstr3 fuel s : sound true (copyinstr3 fuel s).
Proof. unfold copyinstr3. repeat (first [apply sound_puts_at|cbn beta zeta; sound_step]). Qed.

Lemma sound_sbrkfail fuel s : sound true (sbrkfail fuel s).
Proof. sound. Qed.
