(* ===== verification/UtProc.v ===== *)
(** * user/usertests.c: tests of processes

    Tests of fork, wait, exit, kill, exec, pipes and the heap.  A loop that only ends when
    the process is killed or the kernel refuses takes fuel. *)
From stdpp Require Import list strings.
From S2P Require Import Prelude Kstring Abi Machine User UserLib Umalloc UtLib.

Definition BUFSZ : Z := (MAXOPBLOCKS + 2) * BSIZE.
(** [buf] of a fresh process. *)
Definition buf0 : list Z := replicate (Z.to_nat BUFSZ) 0.

Definition exectest (s : list Z) : prog unit :=
  unlink "echo-ok" ;;;
  pid <- fork ;;
  uwhen (pid <? 0) (die "%s: fork failed\n" [S_ s]) ;;;
  uwhen (pid =? 0)
    (close 1 ;;;
     fd <- open "echo-ok" (O_CREATE .| O_WRONLY) ;;
     uwhen (fd <? 0) (die "%s: create failed\n" [S_ s]) ;;;
     uwhen (negb (fd =? 1)) (die "%s: wrong fd\n" [S_ s]) ;;;
     r <- exec "echo" ["echo" : list Z; "OK" : list Z] ;;
     uwhen (r <? 0) (die "%s: exec echo failed\n" [S_ s])) ;;;
  r <- wait ;;
  uwhen (negb (fst r =? pid)) (say "%s: wait failed!\n" [S_ s]) ;;;
  uwhen (negb (snd r =? 0)) (Exit (snd r)) ;;;
  fd <- open "echo-ok" O_RDONLY ;;
  uwhen (fd <? 0) (die "%s: open failed\n" [S_ s]) ;;;
  r <- read fd 2 ;;
  uwhen (negb (fst r =? 2)) (die "%s: read failed\n" [S_ s]) ;;;
  unlink "echo-ok" ;;;
  if (zget (snd r) 0 =? 79) && (zget (snd r) 1 =? 75) then Exit 0
  else die "%s: wrong output\n" [S_ s].

(** The parent's loop: [seq] and [total] at the end of the pipe, or nothing after a wrong
    byte. *)
Definition pipe1_read (fuel : nat) (s : list Z) (fds0 : Z) : prog (option Z) :=
  loop fuel (fun '(seq, cc, total) =>
    r <- read fds0 cc ;;
    let '(n, bytes) := r in
    if negb (n >? 0) then Ret (inr (Some total)) else
    if negb (forallb (fun i => Z.land (zget bytes (Z.of_nat i)) 0xff =? Z.land (seq + Z.of_nat i) 0xff) (List.seq 0 (Z.to_nat n)))
    then say "%s: pipe1 oops 2\n" [S_ s] ;;; Ret (inr None)
    else
      let cc := cc * 2 in
      Ret (inl (seq + n, if cc >? BUFSZ then BUFSZ else cc, total + n))) (0, 1, 0).

Definition pipe1 (fuel : nat) (s : list Z) : prog unit :=
  let N := 5 in
  let SZ := 1033 in
  r <- pipe ;;
  let '(e, (fds0, fds1)) := r in
  uwhen (negb (e =? 0)) (die "%s: pipe() failed\n" [S_ s]) ;;;
  pid <- fork ;;
  if pid =? 0 then
    close fds0 ;;;
    ufor N (fun n =>
      let buf := map (fun i => u8 (n * SZ + Z.of_nat i)) (seq 0 (Z.to_nat SZ)) in
      w <- write fds1 buf ;;
      uwhen (negb (w =? SZ)) (die "%s: pipe1 oops 1\n" [S_ s])) ;;;
    Exit 0
  else if pid >? 0 then
    close fds1 ;;;
    r <- pipe1_read fuel s fds0 ;;
    match r with
    | None => Ret tt
    | Some total =>
        uwhen (negb (total =? N * SZ)) (die "%s: pipe1 oops 3 total %d\n" [D_ total]) ;;;
        close fds0 ;;;
        r <- wait ;;
        Exit (snd r)
    end
  else die "%s: fork() failed\n" [S_ s].

Definition killstatus (fuel : nat) (s : list Z) : prog unit :=
  ufor 100 (fun i =>
    pid1 <- fork ;;
    uwhen (pid1 <? 0) (die "%s: fork failed\n" [S_ s]) ;;;
    uwhen (pid1 =? 0) (forever fuel (getpid ;;; Ret tt)) ;;;
    sleep 1 ;;;
    kill pid1 ;;;
    r <- wait ;;
    uwhen (negb (snd r =? -1)) (die "%s: status should be -1\n" [S_ s])) ;;;
  Exit 0.

Definition preempt (fuel : nat) (s : list Z) : prog unit :=
  pid1 <- fork ;;
  uwhen (pid1 <? 0) (die "%s: fork failed" [S_ s]) ;;;
  uwhen (pid1 =? 0) (forever fuel (Ret tt)) ;;;
  pid2 <- fork ;;
  uwhen (pid2 <? 0) (die "%s: fork failed\n" [S_ s]) ;;;
  uwhen (pid2 =? 0) (forever fuel (Ret tt)) ;;;
  r <- pipe ;;
  let '(_, (pfds0, pfds1)) := r in
  pid3 <- fork ;;
  uwhen (pid3 <? 0) (die "%s: fork failed\n" [S_ s]) ;;;
  uwhen (pid3 =? 0)
    (close pfds0 ;;;
     w <- write pfds1 "x" ;;
     uwhen (negb (w =? 1)) (say "%s: preempt write error" [S_ s]) ;;;
     close pfds1 ;;;
     forever fuel (Ret tt)) ;;;
  close pfds1 ;;;
  r <- read pfds0 BUFSZ ;;
  if negb (fst r =? 1) then say "%s: preempt read error" [S_ s] else
  close pfds0 ;;;
  say "kill... " [] ;;;
  kill pid1 ;;;
  kill pid2 ;;;
  kill pid3 ;;;
  say "wait... " [] ;;;
  wait ;;;
  wait ;;;
  wait ;;;
  Ret tt.

Definition exitwait (s : list Z) : prog unit :=
  ufor 100 (fun i =>
    pid <- fork ;;
    uwhen (pid <? 0) (die "%s: fork failed\n" [S_ s]) ;;;
    if negb (pid =? 0) then
      r <- wait ;;
      uwhen (negb (fst r =? pid)) (die "%s: wait wrong pid\n" [S_ s]) ;;;
      uwhen (negb (i =? snd r)) (die "%s: wait wrong exit status\n" [S_ s])
    else Exit i).

Definition reparent (s : list Z) : prog unit :=
  master_pid <- getpid ;;
  ufor 200 (fun i =>
    pid <- fork ;;
    uwhen (pid <? 0) (die "%s: fork failed\n" [S_ s]) ;;;
    if negb (pid =? 0) then
      r <- wait ;;
      uwhen (negb (fst r =? pid)) (die "%s: wait wrong pid\n" [S_ s])
    else
      pid2 <- fork ;;
      uwhen (pid2 <? 0) (kill master_pid ;;; Exit 1) ;;;
      Exit 0) ;;;
  Exit 0.

Definition twochildren (s : list Z) : prog unit :=
  ufor 1000 (fun i =>
    pid1 <- fork ;;
    uwhen (pid1 <? 0) (die "%s: fork failed\n" [S_ s]) ;;;
    if pid1 =? 0 then Exit 0 else
    pid2 <- fork ;;
    uwhen (pid2 <? 0) (die "%s: fork failed\n" [S_ s]) ;;;
    if pid2 =? 0 then Exit 0 else
    wait ;;;
    wait ;;;
    Ret tt).

Definition forkfork (s : list Z) : prog unit :=
  let N := 2 in
  ufor N (fun i =>
    pid <- fork ;;
    uwhen (pid <? 0) (die "%s: fork failed" [S_ s]) ;;;
    uwhen (pid =? 0)
      (ufor 200 (fun j =>
         pid1 <- fork ;;
         uwhen (pid1 <? 0) (Exit 1) ;;;
         uwhen (pid1 =? 0) (Exit 0) ;;;
         wait ;;;
         Ret tt) ;;;
       Exit 0)) ;;;
  ufor N (fun i =>
    r <- wait ;;
    uwhen (negb (snd r =? 0)) (die "%s: fork in child failed" [S_ s])).

Definition forkforkfork (fuel : nat) (s : list Z) : prog unit :=
  unlink "stopforking" ;;;
  pid <- fork ;;
  uwhen (pid <? 0) (die "%s: fork failed" [S_ s]) ;;;
  uwhen (pid =? 0)
    (forever fuel
       (fd <- open "stopforking" 0 ;;
        uwhen (fd >=? 0) (Exit 0) ;;;
        pid <- fork ;;
        uwhen (pid <? 0) (close_open "stopforking" (O_CREATE .| O_RDWR)))) ;;;
  sleep 20 ;;;
  close_open "stopforking" (O_CREATE .| O_RDWR) ;;;
  wait ;;;
  sleep 10 ;;;
  Ret tt.

Definition reparent2 (s : list Z) : prog unit :=
  ufor 800 (fun i =>
    pid1 <- fork ;;
    uwhen (pid1 <? 0) (die "fork failed\n" []) ;;;
    uwhen (pid1 =? 0) (fork ;;; fork ;;; Exit 0) ;;;
    wait ;;;
    Ret tt) ;;;
  Exit 0.

(** [base] is the address of the allocator's static header; pointers are stored in the
    blocks that [malloc] returns. *)
Definition mem_fill (base : Z) (fuel : nat) (u : ust) : prog (ust * Z) :=
  loop fuel (fun '(u, m1) =>
    r <- malloc base fuel 10001 u ;;
    let '(m2, u) := r in
    if m2 =? 0 then Ret (inr (u, m1))
    else Ret (inl (mk_ust (store64 (u_mem u) m2 m1) (u_freep u), m2))) (u, 0).

Definition mem_free (fuel : nat) (u : ust) (m1 : Z) : prog ust :=
  loop fuel (fun '(u, m1) =>
    if m1 =? 0 then Ret (inr u) else
    let m2 := load64 (u_mem u) m1 in
    u <- free fuel m1 u ;;
    Ret (inl (u, m2))) (u, m1).

Definition mem (base : Z) (fuel : nat) (s : list Z) : prog unit :=
  pid <- fork ;;
  if pid =? 0 then
    r <- mem_fill base fuel (mk_ust ∅ 0) ;;
    let '(u, m1) := r in
    u <- mem_free fuel u m1 ;;
    r <- malloc base fuel (1024 * 20) u ;;
    let '(m1, u) := r in
    uwhen (m1 =? 0) (die "couldn't allocate mem?!!\n" [S_ s]) ;;;
    free fuel m1 u ;;;
    Exit 0
  else
    r <- wait ;;
    uwhen (snd r =? -1) (Exit 0) ;;;
    Exit (snd r).

(** [for(n=0; n<N; n++)], left with [break] when there is no new process: the number of
    processes that were made. *)
Fixpoint forktest_forks (k : nat) (n : Z) : prog Z :=
  match k with
  | O => Ret n
  | S k =>
      pid <- fork ;;
      if pid <? 0 then Ret n else
      if pid =? 0 then Exit 0 else
      forktest_forks k (n + 1)
  end.

Definition forktest (s : list Z) : prog unit :=
  let N := 1000 in
  n <- forktest_forks (Z.to_nat N) 0 ;;
  uwhen (n =? 0) (die "%s: no fork at all!\n" [S_ s]) ;;;
  uwhen (n =? N) (die "%s: fork claimed to work 1000 times!\n" [S_ s]) ;;;
  ufor n (fun _ =>
    r <- wait ;;
    uwhen (fst r <? 0) (die "%s: wait stopped early\n" [S_ s])) ;;;
  r <- wait ;;
  uwhen (negb (fst r =? -1)) (die "%s: wait got too many\n" [S_ s]).

Definition bigargtest (s : list Z) : prog unit :=
  unlink "bigarg-ok" ;;;
  pid <- fork ;;
  (if pid =? 0 then
     let args := replicate (Z.to_nat (MAXARG - 1)) (cs "bigargs test: failed\n" ++ replicate 199 32) in
     exec "echo" args ;;;
     fd <- open "bigarg-ok" O_CREATE ;;
     close fd ;;;
     Exit 0
   else uwhen (pid <? 0) (die "%s: bigargtest: fork failed\n" [S_ s])) ;;;
  r <- wait ;;
  uwhen (negb (snd r =? 0)) (Exit (snd r)) ;;;
  fd <- open "bigarg-ok" 0 ;;
  uwhen (fd <? 0) (die "%s: bigarg test failed!\n" [S_ s]) ;;;
  close fd ;;;
  Ret tt.

(** [while(1)]: a page at a time until there is no more. *)
Definition take_all (fuel : nat) (each : prog unit) : prog unit :=
  loop fuel (fun _ =>
    a <- sbrk 4096 ;;
    if a =? 0xffffffffffffffff then Ret (inr tt) else
    store (u64 (a + 4096 - 1)) 1 ;;;
    each ;;;
    Ret (inl tt)) tt.

Definition execout (fuel : nat) (s : list Z) : prog unit :=
  ufor 15 (fun avail =>
    pid <- fork ;;
    if pid <? 0 then die "fork failed\n" []
    else if pid =? 0 then
      take_all fuel (Ret tt) ;;;
      ufor avail (fun i => sbrk (-4096) ;;; Ret tt) ;;;
      close 1 ;;;
      exec "echo" ["echo" : list Z; "x" : list Z] ;;;
      Exit 0
    else wait ;;; Ret tt) ;;;
  Exit 0.

Definition countfree (fuel : nat) : prog Z :=
  r <- pipe ;;
  let '(e, (fds0, fds1)) := r in
  uwhen (e <? 0) (die "pipe() failed in countfree()\n" []) ;;;
  pid <- fork ;;
  uwhen (pid <? 0) (die "fork failed in countfree()\n" []) ;;;
  uwhen (pid =? 0)
    (close fds0 ;;;
     take_all fuel
       (w <- write fds1 "x" ;;
        uwhen (negb (w =? 1)) (die "write() failed in countfree()\n" [])) ;;;
     Exit 0) ;;;
  close fds1 ;;;
  n <- loop fuel (fun n =>
    r <- read fds0 1 ;;
    let cc := fst r in
    uwhen (cc <? 0) (die "read() failed in countfree()\n" []) ;;;
    if cc =? 0 then Ret (inr n) else Ret (inl (n + 1))) 0 ;;
  close fds0 ;;;
  wait ;;;
  Ret n.

(** ** Their formats *)

Lemma sound_processes s :
  Forall (sound false) [exectest s; exitwait s; reparent s; twochildren s; forkfork s; reparent2 s; bigargtest s].
Proof. repeat (apply Forall_cons; split; [sound|]). by apply Forall_nil. Qed.

Lemma sound_forktest s : sound false (forktest s).
Proof.
  assert (H : forall k n, sound false (forktest_forks k n)) by (induction k as [|k IH]; intros n; cbn [forktest_forks]; sound; apply IH).
  unfold forktest. repeat (first [apply H|cbn beta zeta; sound_step]).
Qed.

Lemma sound_endless base fuel s :
  Forall (sound true) [killstatus fuel s; preempt fuel s; forkforkfork fuel s; mem base fuel s; execout fuel s; countfree fuel ;;; Ret tt].
Proof. repeat (apply Forall_cons; split; [sound|]). by apply Forall_nil. Qed.
