(* ===== verification/UtFile.v ===== *)
(** * user/usertests.c: tests of files and directories *)
From stdpp Require Import list strings.
From S2P Require Import Prelude Kstring Abi Machine User UserLib Umalloc UtLib UtProc.

Definition truncate1 (s : list Z) : prog unit :=
  unlink "truncfile" ;;;
  fd1 <- open "truncfile" (O_CREATE .| O_WRONLY .| O_TRUNC) ;;
  write fd1 "abcd" ;;;
  close fd1 ;;;
  fd2 <- open "truncfile" O_RDONLY ;;
  r <- read fd2 32 ;;
  uwhen (negb (fst r =? 4)) (die "%s: read %d bytes, wanted 4\n" [S_ s; D_ (fst r)]) ;;;
  fd1 <- open "truncfile" (O_WRONLY .| O_TRUNC) ;;
  fd3 <- open "truncfile" O_RDONLY ;;
  r <- read fd3 32 ;;
  uwhen (negb (fst r =? 0))
    (say "aaa fd3=%d\n" [D_ fd3] ;;; die "%s: read %d bytes, wanted 0\n" [S_ s; D_ (fst r)]) ;;;
  r <- read fd2 32 ;;
  uwhen (negb (fst r =? 0))
    (say "bbb fd2=%d\n" [D_ fd2] ;;; die "%s: read %d bytes, wanted 0\n" [S_ s; D_ (fst r)]) ;;;
  write fd1 "abcdef" ;;;
  r <- read fd3 32 ;;
  uwhen (negb (fst r =? 6)) (die "%s: read %d bytes, wanted 6\n" [S_ s; D_ (fst r)]) ;;;
  r <- read fd2 32 ;;
  uwhen (negb (fst r =? 2)) (die "%s: read %d bytes, wanted 2\n" [S_ s; D_ (fst r)]) ;;;
  unlink "truncfile" ;;;
  close fd1 ;;;
  close fd2 ;;;
  close fd3 ;;;
  Ret tt.

Definition truncate2 (s : list Z) : prog unit :=
  unlink "truncfile" ;;;
  fd1 <- open "truncfile" (O_CREATE .| O_TRUNC .| O_WRONLY) ;;
  write fd1 "abcd" ;;;
  fd2 <- open "truncfile" (O_TRUNC .| O_WRONLY) ;;
  n <- write fd1 "x" ;;
  uwhen (negb (n =? -1)) (die "%s: write returned %d, expected -1\n" [S_ s; D_ n]) ;;;
  unlink "truncfile" ;;;
  close fd1 ;;;
  close fd2 ;;;
  Ret tt.

Definition truncate3 (s : list Z) : prog unit :=
  close_open "truncfile" (O_CREATE .| O_TRUNC .| O_WRONLY) ;;;
  pid <- fork ;;
  uwhen (pid <? 0) (die "%s: fork failed\n" [S_ s]) ;;;
  uwhen (pid =? 0)
    (ufor 100 (fun i =>
       fd <- open "truncfile" O_WRONLY ;;
       uwhen (fd <? 0) (die "%s: open failed\n" [S_ s]) ;;;
       n <- write fd "1234567890" ;;
       uwhen (negb (n =? 10)) (die "%s: write got %d, expected 10\n" [S_ s; D_ n]) ;;;
       close fd ;;;
       fd <- open "truncfile" O_RDONLY ;;
       read fd 32 ;;;
       close fd ;;;
       Ret tt) ;;;
     Exit 0) ;;;
  ufor 150 (fun i =>
    fd <- open "truncfile" (O_CREATE .| O_WRONLY .| O_TRUNC) ;;
    uwhen (fd <? 0) (die "%s: open failed\n" [S_ s]) ;;;
    n <- write fd "xxx" ;;
    uwhen (negb (n =? 3)) (die "%s: write got %d, expected 3\n" [S_ s; D_ n]) ;;;
    close fd ;;;
    Ret tt) ;;;
  r <- wait ;;
  unlink "truncfile" ;;;
  Exit (snd r).

Definition iputtest (s : list Z) : prog unit :=
  r <- mkdir "iputdir" ;;
  uwhen (r <? 0) (die "%s: mkdir failed\n" [S_ s]) ;;;
  r <- chdir "iputdir" ;;
  uwhen (r <? 0) (die "%s: chdir iputdir failed\n" [S_ s]) ;;;
  r <- unlink "../iputdir" ;;
  uwhen (r <? 0) (die "%s: unlink ../iputdir failed\n" [S_ s]) ;;;
  r <- chdir "/" ;;
  uwhen (r <? 0) (die "%s: chdir / failed\n" [S_ s]).

Definition exitiputtest (s : list Z) : prog unit :=
  pid <- fork ;;
  uwhen (pid <? 0) (die "%s: fork failed\n" [S_ s]) ;;;
  uwhen (pid =? 0)
    (r <- mkdir "iputdir" ;;
     uwhen (r <? 0) (die "%s: mkdir failed\n" [S_ s]) ;;;
     r <- chdir "iputdir" ;;
     uwhen (r <? 0) (die "%s: child chdir failed\n" [S_ s]) ;;;
     r <- unlink "../iputdir" ;;
     uwhen (r <? 0) (die "%s: unlink ../iputdir failed\n" [S_ s]) ;;;
     Exit 0) ;;;
  r <- wait ;;
  Exit (snd r).

Definition openiputtest (s : list Z) : prog unit :=
  r <- mkdir "oidir" ;;
  uwhen (r <? 0) (die "%s: mkdir oidir failed\n" [S_ s]) ;;;
  pid <- fork ;;
  uwhen (pid <? 0) (die "%s: fork failed\n" [S_ s]) ;;;
  uwhen (pid =? 0)
    (fd <- open "oidir" O_RDWR ;;
     uwhen (fd >=? 0) (die "%s: open directory for write succeeded\n" [S_ s]) ;;;
     Exit 0) ;;;
  sleep 1 ;;;
  r <- unlink "oidir" ;;
  uwhen (negb (r =? 0)) (die "%s: unlink failed\n" [S_ s]) ;;;
  r <- wait ;;
  Exit (snd r).

Definition opentest (s : list Z) : prog unit :=
  fd <- open "echo" 0 ;;
  uwhen (fd <? 0) (die "%s: open echo failed!\n" [S_ s]) ;;;
  close fd ;;;
  fd <- open "doesnotexist" 0 ;;
  uwhen (fd >=? 0) (die "%s: open doesnotexist succeeded!\n" [S_ s]).

Definition writetest (s : list Z) : prog unit :=
  let N := 100 in
  let SZ := 10 in
  fd <- open "small" (O_CREATE .| O_RDWR) ;;
  uwhen (fd <? 0) (die "%s: error: creat small failed!\n" [S_ s]) ;;;
  ufor N (fun i =>
    w <- write fd "aaaaaaaaaa" ;;
    uwhen (negb (w =? SZ)) (die "%s: error: write aa %d new file failed\n" [S_ s; D_ i]) ;;;
    w <- write fd "bbbbbbbbbb" ;;
    uwhen (negb (w =? SZ)) (die "%s: error: write bb %d new file failed\n" [S_ s; D_ i])) ;;;
  close fd ;;;
  fd <- open "small" O_RDONLY ;;
  uwhen (fd <? 0) (die "%s: error: open small failed!\n" [S_ s]) ;;;
  r <- read fd (N * SZ * 2) ;;
  uwhen (negb (fst r =? N * SZ * 2)) (die "%s: read failed\n" [S_ s]) ;;;
  close fd ;;;
  r <- unlink "small" ;;
  uwhen (r <? 0) (die "%s: unlink small failed\n" [S_ s]).

(** The first word of [buf] as an [int]. *)
Definition buf_int (buf : list Z) : Z := i32 (get_u32 buf 0).

Definition writebig (fuel : nat) (s : list Z) : prog unit :=
  fd <- open "big" (O_CREATE .| O_RDWR) ;;
  uwhen (fd <? 0) (die "%s: error: creat big failed!\n" [S_ s]) ;;;
  ufor MAXFILE (fun i =>
    w <- write fd (take (Z.to_nat BSIZE) (fill buf0 (le_bytes 4 i))) ;;
    uwhen (negb (w =? BSIZE)) (die "%s: error: write big file failed\n" [S_ s; D_ i])) ;;;
  close fd ;;;
  fd <- open "big" O_RDONLY ;;
  uwhen (fd <? 0) (die "%s: error: open big failed!\n" [S_ s]) ;;;
  loop fuel (fun '(n, buf) =>
    r <- read fd BSIZE ;;
    let '(i, bytes) := r in
    let buf := fill buf bytes in
    if i =? 0 then
      uwhen (n =? MAXFILE - 1) (die "%s: read only %d blocks from big" [S_ s; D_ n]) ;;;
      Ret (inr tt)
    else
      uwhen (negb (i =? BSIZE)) (die "%s: read failed %d\n" [S_ s; D_ i]) ;;;
      uwhen (negb (buf_int buf =? n)) (die "%s: read content of block %d is %d\n" [S_ s; D_ n; D_ (buf_int buf)]) ;;;
      Ret (inl (n + 1, buf))) (0, fill buf0 (le_bytes 4 (MAXFILE - 1))) ;;;
  close fd ;;;
  r <- unlink "big" ;;
  uwhen (r <? 0) (die "%s: unlink big failed\n" [S_ s]).

Definition createtest (s : list Z) : prog unit :=
  let N := 52 in
  ufor N (fun i => fd <- open [97; 48 + i] (O_CREATE .| O_RDWR) ;; close fd ;;; Ret tt) ;;;
  ufor N (fun i => unlink [97; 48 + i] ;;; Ret tt).

Definition dirtest (s : list Z) : prog unit :=
  r <- mkdir "dir0" ;;
  uwhen (r <? 0) (die "%s: mkdir failed\n" [S_ s]) ;;;
  r <- chdir "dir0" ;;
  uwhen (r <? 0) (die "%s: chdir dir0 failed\n" [S_ s]) ;;;
  r <- chdir ".." ;;
  uwhen (r <? 0) (die "%s: chdir .. failed\n" [S_ s]) ;;;
  r <- unlink "dir0" ;;
  uwhen (r <? 0) (die "%s: unlink dir0 failed\n" [S_ s]).

(** The counts of the two letters in the file; a short read leaves the rest of the buffer
    as it was, and all of it is counted. *)
Definition sharedfd_count (fuel : nat) (fd : Z) (buf : list Z) : prog (Z * Z) :=
  loop fuel (fun '(buf, nc, np) =>
    r <- read fd 10 ;;
    let '(n, bytes) := r in
    if negb (n >? 0) then Ret (inr (nc, np)) else
    let buf := fill buf bytes in
    let count c := Z.of_nat (length (List.filter (Z.eqb c) buf)) in
    Ret (inl (buf, nc + count 99, np + count 112))) (buf, 0, 0).

Definition sharedfd (fuel : nat) (s : list Z) : prog unit :=
  let N := 1000 in
  let SZ := 10 in
  unlink "sharedfd" ;;;
  fd <- open "sharedfd" (O_CREATE .| O_RDWR) ;;
  uwhen (fd <? 0) (die "%s: cannot open sharedfd for writing" [S_ s]) ;;;
  pid <- fork ;;
  let buf := replicate (Z.to_nat SZ) (if pid =? 0 then 99 else 112) in
  ufor N (fun i =>
    w <- write fd buf ;;
    uwhen (negb (w =? SZ)) (die "%s: write sharedfd failed\n" [S_ s])) ;;;
  (if pid =? 0 then Exit 0
   else r <- wait ;; uwhen (negb (snd r =? 0)) (Exit (snd r))) ;;;
  close fd ;;;
  fd <- open "sharedfd" 0 ;;
  uwhen (fd <? 0) (die "%s: cannot open sharedfd for reading\n" [S_ s]) ;;;
  c <- sharedfd_count fuel fd buf ;;
  close fd ;;;
  unlink "sharedfd" ;;;
  if (fst c =? N * SZ) && (snd c =? N * SZ) then Exit 0
  else die "%s: nc/np test fails\n" [S_ s].

(** [wait(&xstatus)] in a loop that goes on only while [xstatus] is 0 and starts with it
    unset. *)
Definition wait_next (i : Z) : prog (Z * Z) := if i =? 0 then wait else wait_into 0.

Definition fourfiles (fuel : nat) (s : list Z) : prog unit :=
  let N := 12 in
  let NCHILD := 4 in
  let SZ := 500 in
  let fname pi := [102; 48 + pi] in
  ufor NCHILD (fun pi =>
    unlink (fname pi) ;;;
    pid <- fork ;;
    uwhen (pid <? 0) (die "fork failed\n" [S_ s]) ;;;
    uwhen (pid =? 0)
      (fd <- open (fname pi) (O_CREATE .| O_RDWR) ;;
       uwhen (fd <? 0) (die "create failed\n" [S_ s]) ;;;
       ufor N (fun i =>
         n <- write fd (replicate (Z.to_nat SZ) (48 + pi)) ;;
         uwhen (negb (n =? SZ)) (die "write failed %d\n" [D_ n])) ;;;
       Exit 0)) ;;;
  ufor NCHILD (fun pi => r <- wait_next pi ;; uwhen (negb (snd r =? 0)) (Exit (snd r))) ;;;
  ufor NCHILD (fun i =>
    fd <- open (fname i) 0 ;;
    total <- loop fuel (fun total =>
      r <- read fd BUFSZ ;;
      let '(n, bytes) := r in
      if negb (n >? 0) then Ret (inr total) else
      uwhen (negb (forallb (fun c => c =? 48 + i) (take (Z.to_nat n) bytes))) (die "wrong char\n" [S_ s]) ;;;
      Ret (inl (total + n))) 0 ;;
    close fd ;;;
    uwhen (negb (total =? N * SZ)) (die "wrong length %d\n" [D_ total]) ;;;
    unlink (fname i) ;;;
    Ret tt).

Definition createdelete (s : list Z) : prog unit :=
  let N := 20 in
  let NCHILD := 4 in
  ufor NCHILD (fun pi =>
    pid <- fork ;;
    uwhen (pid <? 0) (die "fork failed\n" [S_ s]) ;;;
    uwhen (pid =? 0)
      (ufor N (fun i =>
         fd <- open [112 + pi; 48 + i] (O_CREATE .| O_RDWR) ;;
         uwhen (fd <? 0) (die "%s: create failed\n" [S_ s]) ;;;
         close fd ;;;
         uwhen ((i >? 0) && (i mod 2 =? 0))
           (r <- unlink [112 + pi; 48 + i / 2] ;;
            uwhen (r <? 0) (die "%s: unlink failed\n" [S_ s]))) ;;;
       Exit 0)) ;;;
  ufor NCHILD (fun pi => r <- wait_next pi ;; uwhen (negb (snd r =? 0)) (Exit 1)) ;;;
  ufor N (fun i =>
    ufor NCHILD (fun pi =>
      let name := [112 + pi; 48 + i] in
      fd <- open name 0 ;;
      (if ((i =? 0) || (i >=? N / 2)) && (fd <? 0) then die "%s: oops createdelete %s didn't exist\n" [S_ s; S_ name]
       else if (i >=? 1) && (i <? N / 2) && (fd >=? 0) then die "%s: oops createdelete %s did exist\n" [S_ s; S_ name]
       else Ret tt) ;;;
      uwhen (fd >=? 0) (close fd ;;; Ret tt))) ;;;
  ufor N (fun i => ufor NCHILD (fun pi => unlink [112 + i; 48 + i] ;;; Ret tt)).

Definition unlinkread (s : list Z) : prog unit :=
  let SZ := 5 in
  fd <- open "unlinkread" (O_CREATE .| O_RDWR) ;;
  uwhen (fd <? 0) (die "%s: create unlinkread failed\n" [S_ s]) ;;;
  write fd "hello" ;;;
  close fd ;;;
  fd <- open "unlinkread" O_RDWR ;;
  uwhen (fd <? 0) (die "%s: open unlinkread failed\n" [S_ s]) ;;;
  r <- unlink "unlinkread" ;;
  uwhen (negb (r =? 0)) (die "%s: unlink unlinkread failed\n" [S_ s]) ;;;
  fd1 <- open "unlinkread" (O_CREATE .| O_RDWR) ;;
  write fd1 "yyy" ;;;
  close fd1 ;;;
  r <- read fd BUFSZ ;;
  uwhen (negb (fst r =? SZ)) (die "%s: unlinkread read failed" [S_ s]) ;;;
  let buf := fill buf0 (snd r) in
  uwhen (negb (zget buf 0 =? 104)) (die "%s: unlinkread wrong data\n" [S_ s]) ;;;
  w <- write fd (take 10 buf) ;;
  uwhen (negb (w =? 10)) (die "%s: unlinkread write failed\n" [S_ s]) ;;;
  close fd ;;;
  unlink "unlinkread" ;;;
  Ret tt.

Definition linktest (s : list Z) : prog unit :=
  let SZ := 5 in
  unlink "lf1" ;;;
  unlink "lf2" ;;;
  fd <- open "lf1" (O_CREATE .| O_RDWR) ;;
  uwhen (fd <? 0) (die "%s: create lf1 failed\n" [S_ s]) ;;;
  w <- write fd "hello" ;;
  uwhen (negb (w =? SZ)) (die "%s: write lf1 failed\n" [S_ s]) ;;;
  close fd ;;;
  r <- link "lf1" "lf2" ;;
  uwhen (r <? 0) (die "%s: link lf1 lf2 failed\n" [S_ s]) ;;;
  unlink "lf1" ;;;
  fd <- open "lf1" 0 ;;
  uwhen (fd >=? 0) (die "%s: unlinked lf1 but it is still there!\n" [S_ s]) ;;;
  fd <- open "lf2" 0 ;;
  uwhen (fd <? 0) (die "%s: open lf2 failed\n" [S_ s]) ;;;
  r <- read fd BUFSZ ;;
  uwhen (negb (fst r =? SZ)) (die "%s: read lf2 failed\n" [S_ s]) ;;;
  close fd ;;;
  r <- link "lf2" "lf2" ;;
  uwhen (r >=? 0) (die "%s: link lf2 lf2 succeeded! oops\n" [S_ s]) ;;;
  unlink "lf2" ;;;
  r <- link "lf2" "lf1" ;;
  uwhen (r >=? 0) (die "%s: link non-existent succeeded! oops\n" [S_ s]) ;;;
  r <- link "." "lf1" ;;
  uwhen (r >=? 0) (die "%s: link . lf1 succeeded! oops\n" [S_ s]).

(** The listing of the directory in [concreate]: [fa] marks the files seen, [de] keeps its
    bytes after a short read. *)
Definition concreate_list (fuel : nat) (s : list Z) (fd N : Z) : prog Z :=
  loop fuel (fun '(fa, n, de) =>
    r <- read fd DIRENT_SIZE ;;
    if negb (fst r >? 0) then Ret (inr n) else
    let de := fill de (snd r) in
    if de_inum de =? 0 then Ret (inl (fa, n, de)) else
    let name := de_name de in
    if (zget name 0 =? 67) && (zget name 2 =? 0) then
      let i := zget name 1 - 48 in
      uwhen ((i <? 0) || (i >=? N)) (die "%s: concreate weird file %s\n" [S_ s; S_ (until_nul name)]) ;;;
      uwhen (negb (zget fa i =? 0)) (die "%s: concreate duplicate file %s\n" [S_ s; S_ (until_nul name)]) ;;;
      Ret (inl (zset fa i 1, n + 1, de))
    else Ret (inl (fa, n, de))) (replicate (Z.to_nat N) 0, 0, replicate 16 0).

Definition concreate (fuel : nat) (s : list Z) : prog unit :=
  let N := 40 in
  let file i := [67; 48 + i] in
  ufor N (fun i =>
    unlink (file i) ;;;
    pid <- fork ;;
    (if negb (pid =? 0) && (i mod 3 =? 1) then link "C0" (file i) ;;; Ret tt
     else if (pid =? 0) && (i mod 5 =? 1) then link "C0" (file i) ;;; Ret tt
     else
       fd <- open (file i) (O_CREATE .| O_RDWR) ;;
       uwhen (fd <? 0) (die "concreate create %s failed\n" [S_ (file i)]) ;;;
       close fd ;;;
       Ret tt) ;;;
    if pid =? 0 then Exit 0
    else r <- wait ;; uwhen (negb (snd r =? 0)) (Exit 1)) ;;;
  fd <- open "." 0 ;;
  n <- concreate_list fuel s fd N ;;
  close fd ;;;
  uwhen (negb (n =? N)) (die "%s: concreate not enough files in directory listing\n" [S_ s]) ;;;
  ufor N (fun i =>
    pid <- fork ;;
    uwhen (pid <? 0) (die "%s: fork failed\n" [S_ s]) ;;;
    (if ((i mod 3 =? 0) && (pid =? 0)) || ((i mod 3 =? 1) && negb (pid =? 0))
     then ufor 6 (fun _ => close_open (file i) 0)
     else ufor 6 (fun _ => unlink (file i) ;;; Ret tt)) ;;;
    if pid =? 0 then Exit 0 else wait ;;; Ret tt).

Definition linkunlink (s : list Z) : prog unit :=
  unlink "x" ;;;
  pid <- fork ;;
  uwhen (pid <? 0) (die "%s: fork failed\n" [S_ s]) ;;;
  ufold 100 0 (fun i x =>
    let x := u32 (x * 1103515245 + 12345) in
    (if x mod 3 =? 0 then close_open "x" (O_RDWR .| O_CREATE)
     else if x mod 3 =? 1 then link "cat" "x" ;;; Ret tt
     else unlink "x" ;;; Ret tt) ;;;
    Ret x) (if negb (pid =? 0) then 1 else 97) ;;;
  if negb (pid =? 0) then wait ;;; Ret tt else Exit 0.

Definition bigdir (s : list Z) : prog unit :=
  let N := 500 in
  let name i := [120; 48 + i / 64; 48 + i mod 64] in
  unlink "bd" ;;;
  fd <- open "bd" O_CREATE ;;
  uwhen (fd <? 0) (die "%s: bigdir create failed\n" [S_ s]) ;;;
  close fd ;;;
  ufor N (fun i =>
    r <- link "bd" (name i) ;;
    uwhen (negb (r =? 0)) (die "%s: bigdir link(bd, %s) failed\n" [S_ s; S_ (name i)])) ;;;
  unlink "bd" ;;;
  ufor N (fun i =>
    r <- unlink (name i) ;;
    uwhen (negb (r =? 0)) (die "%s: bigdir unlink failed" [S_ s])).

(** The first half of [subdir], to the second [chdir] back. *)
Definition subdir_build (s : list Z) : prog unit :=
  unlink "ff" ;;;
  r <- mkdir "dd" ;;
  uwhen (negb (r =? 0)) (die "%s: mkdir dd failed\n" [S_ s]) ;;;
  fd <- open "dd/ff" (O_CREATE .| O_RDWR) ;;
  uwhen (fd <? 0) (die "%s: create dd/ff failed\n" [S_ s]) ;;;
  write fd "ff" ;;;
  close fd ;;;
  r <- unlink "dd" ;;
  uwhen (r >=? 0) (die "%s: unlink dd (non-empty dir) succeeded!\n" [S_ s]) ;;;
  r <- mkdir "/dd/dd" ;;
  uwhen (negb (r =? 0)) (die "subdir mkdir dd/dd failed\n" [S_ s]) ;;;
  fd <- open "dd/dd/ff" (O_CREATE .| O_RDWR) ;;
  uwhen (fd <? 0) (die "%s: create dd/dd/ff failed\n" [S_ s]) ;;;
  write fd "FF" ;;;
  close fd ;;;
  fd <- open "dd/dd/../ff" 0 ;;
  uwhen (fd <? 0) (die "%s: open dd/dd/../ff failed\n" [S_ s]) ;;;
  r <- read fd BUFSZ ;;
  let '(cc, bytes) := r in
  uwhen (negb (cc =? 2) || negb (zget (fill buf0 bytes) 0 =? 102)) (die "%s: dd/dd/../ff wrong content\n" [S_ s]) ;;;
  close fd ;;;
  r <- link "dd/dd/ff" "dd/dd/ffff" ;;
  uwhen (negb (r =? 0)) (die "link dd/dd/ff dd/dd/ffff failed\n" [S_ s]) ;;;
  r <- unlink "dd/dd/ff" ;;
  uwhen (negb (r =? 0)) (die "%s: unlink dd/dd/ff failed\n" [S_ s]) ;;;
  r <- open "dd/dd/ff" O_RDONLY ;;
  uwhen (r >=? 0) (die "%s: open (unlinked) dd/dd/ff succeeded\n" [S_ s]) ;;;
  r <- chdir "dd" ;;
  uwhen (negb (r =? 0)) (die "%s: chdir dd failed\n" [S_ s]) ;;;
  r <- chdir "dd/../../dd" ;;
  uwhen (negb (r =? 0)) (die "%s: chdir dd/../../dd failed\n" [S_ s]) ;;;
  r <- chdir "dd/../../../dd" ;;
  uwhen (negb (r =? 0)) (die "chdir dd/../../dd failed\n" [S_ s]) ;;;
  r <- chdir "./.." ;;
  uwhen (negb (r =? 0)) (die "%s: chdir ./.. failed\n" [S_ s]).

Definition subdir (s : list Z) : prog unit :=
  subdir_build s ;;;
  fd <- open "dd/dd/ffff" 0 ;;
  uwhen (fd <? 0) (die "%s: open dd/dd/ffff failed\n" [S_ s]) ;;;
  r <- read fd BUFSZ ;;
  uwhen (negb (fst r =? 2)) (die "%s: read dd/dd/ffff wrong len\n" [S_ s]) ;;;
  close fd ;;;
  r <- open "dd/dd/ff" O_RDONLY ;;
  uwhen (r >=? 0) (die "%s: open (unlinked) dd/dd/ff succeeded!\n" [S_ s]) ;;;
  r <- open "dd/ff/ff" (O_CREATE .| O_RDWR) ;;
  uwhen (r >=? 0) (die "%s: create dd/ff/ff succeeded!\n" [S_ s]) ;;;
  r <- open "dd/xx/ff" (O_CREATE .| O_RDWR) ;;
  uwhen (r >=? 0) (die "%s: create dd/xx/ff succeeded!\n" [S_ s]) ;;;
  r <- open "dd" O_CREATE ;;
  uwhen (r >=? 0) (die "%s: create dd succeeded!\n" [S_ s]) ;;;
  r <- open "dd" O_RDWR ;;
  uwhen (r >=? 0) (die "%s: open dd rdwr succeeded!\n" [S_ s]) ;;;
  r <- open "dd" O_WRONLY ;;
  uwhen (r >=? 0) (die "%s: open dd wronly succeeded!\n" [S_ s]) ;;;
  r <- link "dd/ff/ff" "dd/dd/xx" ;;
  uwhen (r =? 0) (die "%s: link dd/ff/ff dd/dd/xx succeeded!\n" [S_ s]) ;;;
  r <- link "dd/xx/ff" "dd/dd/xx" ;;
  uwhen (r =? 0) (die "%s: link dd/xx/ff dd/dd/xx succeeded!\n" [S_ s]) ;;;
  r <- link "dd/ff" "dd/dd/ffff" ;;
  uwhen (r =? 0) (die "%s: link dd/ff dd/dd/ffff succeeded!\n" [S_ s]) ;;;
  r <- mkdir "dd/ff/ff" ;;
  uwhen (r =? 0) (die "%s: mkdir dd/ff/ff succeeded!\n" [S_ s]) ;;;
  r <- mkdir "dd/xx/ff" ;;
  uwhen (r =? 0) (die "%s: mkdir dd/xx/ff succeeded!\n" [S_ s]) ;;;
  r <- mkdir "dd/dd/ffff" ;;
  uwhen (r =? 0) (die "%s: mkdir dd/dd/ffff succeeded!\n" [S_ s]) ;;;
  r <- unlink "dd/xx/ff" ;;
  uwhen (r =? 0) (die "%s: unlink dd/xx/ff succeeded!\n" [S_ s]) ;;;
  r <- unlink "dd/ff/ff" ;;
  uwhen (r =? 0) (die "%s: unlink dd/ff/ff succeeded!\n" [S_ s]) ;;;
  r <- chdir "dd/ff" ;;
  uwhen (r =? 0) (die "%s: chdir dd/ff succeeded!\n" [S_ s]) ;;;
  r <- chdir "dd/xx" ;;
  uwhen (r =? 0) (die "%s: chdir dd/xx succeeded!\n" [S_ s]) ;;;
  r <- unlink "dd/dd/ffff" ;;
  uwhen (negb (r =? 0)) (die "%s: unlink dd/dd/ff failed\n" [S_ s]) ;;;
  r <- unlink "dd/ff" ;;
  uwhen (negb (r =? 0)) (die "%s: unlink dd/ff failed\n" [S_ s]) ;;;
  r <- unlink "dd" ;;
  uwhen (r =? 0) (die "%s: unlink non-empty dd succeeded!\n" [S_ s]) ;;;
  r <- unlink "dd/dd" ;;
  uwhen (r <? 0) (die "%s: unlink dd/dd failed\n" [S_ s]) ;;;
  r <- unlink "dd" ;;
  uwhen (r <? 0) (die "%s: unlink dd failed\n" [S_ s]).

(** [for(sz = 499; sz < (MAXOPBLOCKS+2)*BSIZE; sz += 471)] *)
Definition bigwrite_sizes : Z := (BUFSZ - 499 + 470) / 471.

Definition bigwrite (s : list Z) : prog unit :=
  unlink "bigwrite" ;;;
  ufor bigwrite_sizes (fun k =>
    let sz := 499 + 471 * k in
    fd <- open "bigwrite" (O_CREATE .| O_RDWR) ;;
    uwhen (fd <? 0) (die "%s: cannot create bigwrite\n" [S_ s]) ;;;
    ufor 2 (fun i =>
      cc <- write fd (take (Z.to_nat sz) buf0) ;;
      uwhen (negb (cc =? sz)) (die "%s: write(%d) ret %d\n" [S_ s; D_ sz; D_ cc])) ;;;
    close fd ;;;
    unlink "bigwrite" ;;;
    Ret tt).

Definition manywrites (s : list Z) : prog unit :=
  let nchildren := 4 in
  let howmany := 30 in
  ufor nchildren (fun ci =>
    pid <- fork ;;
    uwhen (pid <? 0) (die "fork failed\n" []) ;;;
    uwhen (pid =? 0)
      (let name := [98; 97 + ci] in
       unlink name ;;;
       ufor howmany (fun iters =>
         ufor (ci + 1) (fun i =>
           fd <- open name (O_CREATE .| O_RDWR) ;;
           uwhen (fd <? 0) (die "%s: cannot create %s\n" [S_ s; S_ name]) ;;;
           let sz := BUFSZ in
           cc <- write fd buf0 ;;
           uwhen (negb (cc =? sz)) (die "%s: write(%d) ret %d\n" [S_ s; D_ sz; D_ cc]) ;;;
           close fd ;;;
           Ret tt) ;;;
         unlink name ;;;
         Ret tt) ;;;
       unlink name ;;;
       Exit 0)) ;;;
  ufor nchildren (fun ci => r <- wait_into 0 ;; uwhen (negb (snd r =? 0)) (Exit (snd r))) ;;;
  Exit 0.

(** Reading the file back, half a record at a time: the number of bytes. *)
Definition bigfile_read (fuel : nat) (s : list Z) (fd SZ : Z) (buf : list Z) : prog Z :=
  loop fuel (fun '(i, total, buf) =>
    r <- read fd (SZ / 2) ;;
    let '(cc, bytes) := r in
    let buf := fill buf bytes in
    uwhen (cc <? 0) (die "%s: read bigfile failed\n" [S_ s]) ;;;
    if cc =? 0 then Ret (inr total) else
    uwhen (negb (cc =? SZ / 2)) (die "%s: short read bigfile\n" [S_ s]) ;;;
    uwhen (negb (zget buf 0 =? i / 2) || negb (zget buf (SZ / 2 - 1) =? i / 2))
      (die "%s: read bigfile wrong data\n" [S_ s]) ;;;
    Ret (inl (i + 1, total + cc, buf))) (0, 0, buf).

Definition bigfile (fuel : nat) (s : list Z) : prog unit :=
  let N := 20 in
  let SZ := 600 in
  unlink "bigfile.dat" ;;;
  fd <- open "bigfile.dat" (O_CREATE .| O_RDWR) ;;
  uwhen (fd <? 0) (die "%s: cannot create bigfile" [S_ s]) ;;;
  ufor N (fun i =>
    w <- write fd (replicate (Z.to_nat SZ) i) ;;
    uwhen (negb (w =? SZ)) (die "%s: write bigfile failed\n" [S_ s])) ;;;
  close fd ;;;
  fd <- open "bigfile.dat" 0 ;;
  uwhen (fd <? 0) (die "%s: cannot open bigfile\n" [S_ s]) ;;;
  total <- bigfile_read fuel s fd SZ (fill buf0 (replicate (Z.to_nat SZ) (N - 1))) ;;
  close fd ;;;
  uwhen (negb (total =? N * SZ)) (die "%s: read bigfile wrong total\n" [S_ s]) ;;;
  unlink "bigfile.dat" ;;;
  Ret tt.

Definition fourteen (s : list Z) : prog unit :=
  r <- mkdir "12345678901234" ;;
  uwhen (negb (r =? 0)) (die "%s: mkdir 12345678901234 failed\n" [S_ s]) ;;;
  r <- mkdir "12345678901234/123456789012345" ;;
  uwhen (negb (r =? 0)) (die "%s: mkdir 12345678901234/123456789012345 failed\n" [S_ s]) ;;;
  fd <- open "123456789012345/123456789012345/123456789012345" O_CREATE ;;
  uwhen (fd <? 0) (die "%s: create 123456789012345/123456789012345/123456789012345 failed\n" [S_ s]) ;;;
  close fd ;;;
  fd <- open "12345678901234/12345678901234/12345678901234" 0 ;;
  uwhen (fd <? 0) (die "%s: open 12345678901234/12345678901234/12345678901234 failed\n" [S_ s]) ;;;
  close fd ;;;
  r <- mkdir "12345678901234/12345678901234" ;;
  uwhen (r =? 0) (die "%s: mkdir 12345678901234/12345678901234 succeeded!\n" [S_ s]) ;;;
  r <- mkdir "123456789012345/12345678901234" ;;
  uwhen (r =? 0) (die "%s: mkdir 12345678901234/123456789012345 succeeded!\n" [S_ s]) ;;;
  unlink "123456789012345/12345678901234" ;;;
  unlink "12345678901234/12345678901234" ;;;
  unlink "12345678901234/12345678901234/12345678901234" ;;;
  unlink "123456789012345/123456789012345/123456789012345" ;;;
  unlink "12345678901234/123456789012345" ;;;
  unlink "12345678901234" ;;;
  Ret tt.

Definition rmdot (s : list Z) : prog unit :=
  r <- mkdir "dots" ;;
  uwhen (negb (r =? 0)) (die "%s: mkdir dots failed\n" [S_ s]) ;;;
  r <- chdir "dots" ;;
  uwhen (negb (r =? 0)) (die "%s: chdir dots failed\n" [S_ s]) ;;;
  r <- unlink "." ;;
  uwhen (r =? 0) (die "%s: rm . worked!\n" [S_ s]) ;;;
  r <- unlink ".." ;;
  uwhen (r =? 0) (die "%s: rm .. worked!\n" [S_ s]) ;;;
  r <- chdir "/" ;;
  uwhen (negb (r =? 0)) (die "%s: chdir / failed\n" [S_ s]) ;;;
  r <- unlink "dots/." ;;
  uwhen (r =? 0) (die "%s: unlink dots/. worked!\n" [S_ s]) ;;;
  r <- unlink "dots/.." ;;
  uwhen (r =? 0) (die "%s: unlink dots/.. worked!\n" [S_ s]) ;;;
  r <- unlink "dots" ;;
  uwhen (negb (r =? 0)) (die "%s: unlink dots failed!\n" [S_ s]).

Definition dirfile (s : list Z) : prog unit :=
  fd <- open "dirfile" O_CREATE ;;
  uwhen (fd <? 0) (die "%s: create dirfile failed\n" [S_ s]) ;;;
  close fd ;;;
  r <- chdir "dirfile" ;;
  uwhen (r =? 0) (die "%s: chdir dirfile succeeded!\n" [S_ s]) ;;;
  fd <- open "dirfile/xx" 0 ;;
  uwhen (fd >=? 0) (die "%s: create dirfile/xx succeeded!\n" [S_ s]) ;;;
  fd <- open "dirfile/xx" O_CREATE ;;
  uwhen (fd >=? 0) (die "%s: create dirfile/xx succeeded!\n" [S_ s]) ;;;
  r <- mkdir "dirfile/xx" ;;
  uwhen (r =? 0) (die "%s: mkdir dirfile/xx succeeded!\n" [S_ s]) ;;;
  r <- unlink "dirfile/xx" ;;
  uwhen (r =? 0) (die "%s: unlink dirfile/xx succeeded!\n" [S_ s]) ;;;
  r <- link "README" "dirfile/xx" ;;
  uwhen (r =? 0) (die "%s: link to dirfile/xx succeeded!\n" [S_ s]) ;;;
  r <- unlink "dirfile" ;;
  uwhen (negb (r =? 0)) (die "%s: unlink dirfile failed!\n" [S_ s]) ;;;
  fd <- open "." O_RDWR ;;
  uwhen (fd >=? 0) (die "%s: open . for writing succeeded!\n" [S_ s]) ;;;
  fd <- open "." 0 ;;
  r <- write fd "x" ;;
  uwhen (r >? 0) (die "%s: write . succeeded!\n" [S_ s]) ;;;
  close fd ;;;
  Ret tt.

Definition iref (s : list Z) : prog unit :=
  ufor (NINODE + 1) (fun i =>
    r <- mkdir "irefd" ;;
    uwhen (negb (r =? 0)) (die "%s: mkdir irefd failed\n" [S_ s]) ;;;
    r <- chdir "irefd" ;;
    uwhen (negb (r =? 0)) (die "%s: chdir irefd failed\n" [S_ s]) ;;;
    mkdir [] ;;;
    link "README" [] ;;;
    fd <- open [] O_CREATE ;;
    uwhen (fd >=? 0) (close fd ;;; Ret tt) ;;;
    fd <- open "xx" O_CREATE ;;
    uwhen (fd >=? 0) (close fd ;;; Ret tt) ;;;
    unlink "xx" ;;;
    Ret tt) ;;;
  ufor (NINODE + 1) (fun i =>
    chdir ".." ;;;
    unlink "irefd" ;;;
    Ret tt) ;;;
  chdir "/" ;;;
  Ret tt.

(** [name], a string of at most five [char]s. *)
Definition fsfull_name (nfiles : Z) : list Z :=
  until_nul (map (fun c => c mod 256)
    [102; 48 + nfiles / 1000; 48 + nfiles mod 1000 / 100; 48 + nfiles mod 100 / 10; 48 + nfiles mod 10]).

(** [fsblocks] counts and is not used. *)
Definition fsfull (fuel : nat) : prog unit :=
  say "fsfull test\n" [] ;;;
  nfiles <- loop fuel (fun nfiles =>
    let name := fsfull_name nfiles in
    say "writing %s\n" [S_ name] ;;;
    fd <- open name (O_CREATE .| O_RDWR) ;;
    if fd <? 0 then say "open %s failed\n" [S_ name] ;;; Ret (inr nfiles) else
    total <- loop fuel (fun total =>
      cc <- write fd (take (Z.to_nat BSIZE) buf0) ;;
      Ret (if cc <? BSIZE then inr total else inl (total + cc))) 0 ;;
    say "wrote %d bytes\n" [D_ total] ;;;
    close fd ;;;
    Ret (if total =? 0 then inr nfiles else inl (nfiles + 1))) 0 ;;
  ufor (nfiles + 1) (fun k => unlink (fsfull_name (nfiles - k)) ;;; Ret tt) ;;;
  say "fsfull test finished\n" [].

(** ** Their formats *)

Lemma sound_files s :
  Forall (sound false) [truncate1 s; truncate2 s; truncate3 s; iputtest s; exitiputtest s; openiputtest s; opentest s;
    writetest s; createtest s; dirtest s; createdelete s; unlinkread s; linktest s; linkunlink s; bigdir s; subdir s;
    bigwrite s; manywrites s; fourteen s; rmdot s; dirfile s; iref s].
Proof. repeat (apply Forall_cons; split; [sound|]). by apply Forall_nil. Qed.

Lemma sound_file_loops fuel s :
  Forall (sound true) [writebig fuel s; sharedfd fuel s; fourfiles fuel s; concreate fuel s; bigfile fuel s; fsfull fuel].
Proof. repeat (apply Forall_cons; split; [sound|]). by apply Forall_nil. Qed.
