(* ===== verification/Usertests.v ===== *)
(** * user/usertests.c: the test driver

    [run] runs a test in a child, [tests] is the table, [main] chooses the tests and
    reports.  No test but [pipe1] misuses printf, whatever the kernel does.  The status of
    [run] is the one that [wait] answers; the source leaves it uninitialised when
    [wait] fails, and the model takes what the answer holds then. *)
From stdpp Require Import list strings.
From S2P Require Import Prelude Kstring Abi Machine User UserLib Umalloc UtLib UtPtr UtProc UtFile.

Definition run (f : list Z -> prog unit) (s : list Z) : prog bool :=
  say "test %s: " [S_ s] ;;;
  pid <- fork ;;
  uwhen (pid <? 0) (die "runtest: fork error\n" []) ;;;
  if pid =? 0 then f s ;;; Exit 0
  else
    r <- wait ;;
    (if negb (snd r =? 0) then say "FAILED\n" [] else say "OK\n" []) ;;;
    Ret (snd r =? 0).

Section Tests.
(** The address of [uninit], the stack pointer and the end of the heap when a test starts;
    the fuel of the tests that loop until the kernel refuses. *)
Context (uninit sp base : Z) (fuel : nat).

Definition tests : list ((list Z -> prog unit) * list Z) := [
  (MAXVAplus, "MAXVAplus" : list Z);
  (manywrites, "manywrites" : list Z);
  (execout fuel, "execout" : list Z);
  (copyin, "copyin" : list Z);
  (copyout, "copyout" : list Z);
  (copyinstr1, "copyinstr1" : list Z);
  (copyinstr2, "copyinstr2" : list Z);
  (copyinstr3 fuel, "copyinstr3" : list Z);
  (rwsbrk, "rwsbrk" : list Z);
  (truncate1, "truncate1" : list Z);
  (truncate2, "truncate2" : list Z);
  (truncate3, "truncate3" : list Z);
  (reparent2, "reparent2" : list Z);
  (pgbug, "pgbug" : list Z);
  (sbrkbugs, "sbrkbugs" : list Z);
  (badarg, "badarg" : list Z);
  (reparent, "reparent" : list Z);
  (twochildren, "twochildren" : list Z);
  (forkfork, "forkfork" : list Z);
  (forkforkfork fuel, "forkforkfork" : list Z);
  (argptest, "argptest" : list Z);
  (createdelete, "createdelete" : list Z);
  (linkunlink, "linkunlink" : list Z);
  (linktest, "linktest" : list Z);
  (unlinkread, "unlinkread" : list Z);
  (concreate fuel, "concreate" : list Z);
  (subdir, "subdir" : list Z);
  (fourfiles fuel, "fourfiles" : list Z);
  (sharedfd fuel, "sharedfd" : list Z);
  (dirtest, "dirtest" : list Z);
  (exectest, "exectest" : list Z);
  (bigargtest, "bigargtest" : list Z);
  (bigwrite, "bigwrite" : list Z);
  (bsstest uninit, "bsstest" : list Z);
  (sbrkbasic, "sbrkbasic" : list Z);
  (sbrkmuch, "sbrkmuch" : list Z);
  (kernmem, "kernmem" : list Z);
  (sbrkfail fuel, "sbrkfail" : list Z);
  (sbrkarg, "sbrkarg" : list Z);
  (sbrklast, "sbrklast" : list Z);
  (sbrk8000, "sbrk8000" : list Z);
  (validatetest, "validatetest" : list Z);
  (stacktest sp, "stacktest" : list Z);
  (opentest, "opentest" : list Z);
  (writetest, "writetest" : list Z);
  (writebig fuel, "writebig" : list Z);
  (createtest, "createtest" : list Z);
  (openiputtest, "openiput" : list Z);
  (exitiputtest, "exitiput" : list Z);
  (iputtest, "iput" : list Z);
  (mem base fuel, "mem" : list Z);
  (pipe1 fuel, "pipe1" : list Z);
  (killstatus fuel, "killstatus" : list Z);
  (preempt fuel, "preempt" : list Z);
  (exitwait, "exitwait" : list Z);
  (rmdot, "rmdot" : list Z);
  (fourteen, "fourteen" : list Z);
  (bigfile fuel, "bigfile" : list Z);
  (dirfile, "dirfile" : list Z);
  (iref, "iref" : list Z);
  (forktest, "forktest" : list Z);
  (bigdir, "bigdir" : list Z)].

Definition chosen (justone : option (list Z)) (s : list Z) : bool :=
  match justone with None => true | Some name => Ulib.strcmp s name =? 0 end.

(** The loop over the table; the result is [fail]. *)
Fixpoint run_chosen (justone : option (list Z)) (l : list ((list Z -> prog unit) * list Z)) (fail : bool) : prog bool :=
  match l with
  | [] => Ret fail
  | (f, s) :: l =>
      if chosen justone s then ok <- run f s ;; run_chosen justone l (if ok : bool then fail else true)
      else run_chosen justone l fail
  end.

(** The same in continuous mode, which stops at the first failure. *)
Fixpoint run_all (l : list ((list Z -> prog unit) * list Z)) : prog bool :=
  match l with
  | [] => Ret false
  | (f, s) :: l => ok <- run f s ;; if ok : bool then run_all l else Ret true
  end.

Definition continuously (continuous : Z) : prog unit :=
  say "continuous usertests starting\n" [] ;;;
  loop fuel (fun _ =>
    free0 <- countfree fuel ;;
    fail <- run_all tests ;;
    uwhen fail (say "SOME TESTS FAILED\n" [] ;;; uwhen (negb (continuous =? 2)) (Exit 1)) ;;;
    free1 <- countfree fuel ;;
    uwhen (free1 <? free0)
      (say "FAILED -- lost %d free pages\n" [D_ (free0 - free1)] ;;; uwhen (negb (continuous =? 2)) (Exit 1)) ;;;
    Ret (inl tt)) tt.

Definition once (justone : option (list Z)) : prog unit :=
  say "usertests starting\n" [] ;;;
  free0 <- countfree fuel ;;
  fail <- run_chosen justone tests false ;;
  if fail : bool then die "SOME TESTS FAILED\n" [] else
  free1 <- countfree fuel ;;
  if free1 <? free0 then die "FAILED -- lost some free pages %d (out of %d)\n" [D_ free1; D_ free0]
  else say "ALL TESTS PASSED\n" [] ;;; Exit 0.

Definition main (argv : list (list Z)) : prog unit :=
  match argv with
  | [_; arg] =>
      if Ulib.strcmp arg "-c" =? 0 then continuously 1
      else if Ulib.strcmp arg "-C" =? 0 then continuously 2
      else if negb (default 0 (head arg) =? 45) then once (Some arg)
      else die "Usage: usertests [-c] [testname]\n" []
  | _ :: _ :: _ => die "Usage: usertests [-c] [testname]\n" []
  | _ => once None
  end.

(** ** The formats *)

(** The tests that go on until the kernel refuses, kills them or ends a file. *)
Definition looping (s : list Z) : bool :=
  existsb (fun n => bool_decide (n = s)) (map cs
    ["execout"; "copyinstr3"; "forkforkfork"; "concreate"; "fourfiles"; "sharedfd"; "sbrkfail"; "writebig"; "mem";
     "pipe1"; "killstatus"; "preempt"; "bigfile"]%string).

(** The member of a list of sound programs that is, letter for letter, the goal. *)
Ltac from_list H :=
  apply Forall_cons in H; let H1 := fresh in destruct H as [H1 H];
  match type of H1 with
  | ?P => match goal with |- P => exact H1 end
  | _ => from_list H
  end.
Ltac known_sound :=
  match goal with
  | |- sound _ (copyinstr3 _ _) => apply sound_copyinstr3
  | |- sound _ (sbrkfail _ _) => apply sound_sbrkfail
  | |- sound _ (forktest _) => apply sound_forktest
  | |- sound false (_ ?s) =>
      first
        [ let H := fresh in pose proof (sound_files s) as H; from_list H
        | let H := fresh in pose proof (sound_processes s) as H; from_list H
        | let H := fresh in pose proof (sound_addresses uninit sp s) as H; from_list H ]
  | |- sound true (_ ?s) =>
      first
        [ let H := fresh in pose proof (sound_file_loops fuel s) as H; from_list H
        | let H := fresh in pose proof (sound_endless base fuel s) as H; from_list H ]
  end.

Lemma tests_sound : Forall (fun t => snd t = cs "pipe1" \/ sound (looping (snd t)) (fst t (snd t))) tests.
Proof.
  unfold tests.
  repeat (apply Forall_cons; split;
    [cbn [fst snd];
     match goal with
     | |- ?a = ?a \/ _ => by left
     | |- _ \/ sound ?b _ => right; let v := eval vm_compute in b in change b with v; known_sound
     end|]).
  by apply Forall_nil.
Qed.

(** C34. Whatever the kernel answers, no test but [pipe1] gives printf a format whose arguments
    are missing or of another type, or accesses memory outside its variables other than
    through the hardware's checks; and a test that is not one of [looping] ends. *)
Theorem tests_typed (St : Type) (kernel : OS St) (k : St) (f : list Z -> prog unit) (s : list Z) :
  In (f, s) tests -> s <> cs "pipe1" ->
  fst (User.run (f s) k) <> Faulted /\ (looping s = false -> fst (User.run (f s) k) <> OutOfFuel).
Proof.
  intros Hin Hs. pose proof tests_sound as H. rewrite List.Forall_forall in H.
  destruct (H _ Hin) as [E|E]; [done|]. exact (sound_run (looping s) (f s) k E).
Qed.
End Tests.

Lemma tests_typed_witness :
  fst (User.run (linktest "linktest") (mk_fakeos 0 [] [])) <> Faulted /\
  (looping "linktest" = false -> fst (User.run (linktest "linktest") (mk_fakeos 0 [] [])) <> OutOfFuel).
Proof.
  apply (tests_typed 0 0 0 0 fakeos fakeos_os (mk_fakeos 0 [] []) linktest "linktest"); [|by vm_compute].
  do 23 apply in_cons. apply in_eq.
Defined.
