(* ===== verification/UtVerdict.v ===== *)
(** * The verdict of user/usertests.c

    The driver on a kernel in which the children end with given statuses and the pipe of
    [countfree] holds given numbers of bytes: what it prints and the status it exits with. *)
From stdpp Require Import list strings.
From S2P Require Import Prelude Kstring Abi Machine User UserLib UtLib UtProc Usertests.

#[local] Arguments cs : simpl never.

(** ** A kernel seen by the driver

    Forks succeed in the parent; [sk_status] are the statuses that the next calls of wait
    report, [sk_pages] the bytes that will be in each pipe to come, one for each free page,
    [sk_pipe] those left in the pipe that is open, [sk_out] what was printed. *)
Record script := mk_script { sk_status : list Z; sk_pages : list nat; sk_pipe : nat; sk_out : list Z }.

#[global] Instance script_os : OS script := fun X c s =>
  match c in sys X return X * script with
  | Fork => (1, s)
  | Wait =>
      match sk_status s with
      | [] => ((-1, 0), s)
      | st :: l => ((1, st), mk_script l (sk_pages s) (sk_pipe s) (sk_out s))
      end
  | Pipe =>
      match sk_pages s with
      | [] => ((-1, (0, 0)), s)
      | n :: l => ((0, (3, 4)), mk_script (sk_status s) l n (sk_out s))
      end
  | Read fd n =>
      match sk_pipe s with
      | O => ((0, []), s)
      | S k => ((1, [120]), mk_script (sk_status s) (sk_pages s) k (sk_out s))
      end
  | Write fd bytes => (Z.of_nat (length bytes), mk_script (sk_status s) (sk_pages s) (sk_pipe s) (sk_out s ++ bytes))
  | Close _ => (0, s)
  | Fstat _ => ((-1, Ulib.stat_zero), s)
  | Listenmsgs _ => (tt, s)
  | Load _ => (None, s)
  | Store _ _ => (false, s)
  | Kill _ | Exec _ _ | Open _ _ | Mknod _ _ _ | Unlink _ | Link _ _ | Mkdir _ | Chdir _
  | Dup _ | Getpid | Sbrk _ | Sleep _ | Uptime | Setpixel _ _ _ _ _ | Getmsg | Ecall _ _ => (-1, s)
  end.

Definition emit (l : list Z) (s : script) : script := mk_script (sk_status s) (sk_pages s) (sk_pipe s) (sk_out s ++ l).
Definition emits (l : list Z) (p : prog unit) : Prop := forall s : script, User.run p s = (Returned tt, emit l s).

Lemma emit_app l l' s : emit l' (emit l s) = emit (l ++ l') s.
Proof. unfold emit. cbn. by rewrite app_assoc. Qed.

Lemma emits_ret : emits [] (Ret tt).
Proof. intros [a b c d]. unfold emit. cbn. by rewrite app_nil_r. Qed.

Lemma emits_bind l l' p q : emits l p -> emits l' q -> emits (l ++ l') (p ;;; q).
Proof. intros Hp Hq s. by rewrite (run_bind_ret _ _ _ _ _ (Hp s)), Hq, emit_app. Qed.

Lemma emits_vprintf fmt pct ap l : format fmt pct ap = Some l -> emits (map u8 l) (Uprintf.vprintf 1 fmt pct ap).
Proof. apply (writer_vprintf 1 emits); [apply emits_ret|by intros c s|apply emits_bind]. Qed.

(** What printf writes. *)
Definition text (fmt : list Z) (ap : list Uprintf.uarg) : list Z := map u8 (default [] (format fmt false ap)).

Lemma run_say {A} fmt ap (k : prog A) (s : script) :
  is_Some (format fmt false ap) -> User.run (say fmt ap ;;; k) s = User.run k (emit (text fmt ap) s).
Proof.
  intros [l E]. unfold text. rewrite E. exact (run_bind_ret _ (fun _ => k) _ _ _ (emits_vprintf _ _ _ _ E s)).
Qed.

(** The number of free pages is the number of bytes in the pipe. *)
Lemma run_countfree fuel n l st sts k out :
  (n < fuel)%nat ->
  User.run (countfree fuel) (mk_script (st :: sts) (n :: l) k out) = (Returned (Z.of_nat n), mk_script sts l 0 out).
Proof.
  intros Hn. unfold countfree.
  assert (Hloop : forall fuel n m, (n < fuel)%nat ->
    User.run (loop fuel (fun n => r <- read 3 1 ;; uwhen (fst r <? 0) (die "read() failed in countfree()\n" []) ;;;
      if fst r =? 0 then Ret (inr n) else Ret (inl (n + 1))) m) (mk_script (st :: sts) l n out) =
    (Returned (m + Z.of_nat n), mk_script (st :: sts) l 0 out)).
  { clear. induction fuel as [|fuel IH]; intros n m Hn; [lia|]. cbn [loop]. destruct n as [|n]; cbn.
    - by rewrite Z.add_0_r.
    - rewrite IH by lia. do 2 f_equal. lia. }
  cbn -[loop die say]. rewrite (run_bind_ret _ _ _ _ _ (Hloop fuel n 0 Hn)). cbn. done.
Qed.

Definition line (name : list Z) (st : Z) : list Z := text "test %s: " [S_ name] ++ text (if st =? 0 then cs "OK\n" else "FAILED\n") [].

(** A test is reported by its status. *)
Lemma run_run f name (s : script) st sts : sk_status s = st :: sts ->
  User.run (run f name) s = (Returned (st =? 0), mk_script sts (sk_pages s) (sk_pipe s) (sk_out s ++ line name st)).
Proof.
  intros E. unfold run. rewrite run_say by (by eexists). destruct s as [a pg pi out]. cbn in E. subst a.
  cbn -[say text]. unfold line. rewrite app_assoc. destruct (st =? 0); cbn [negb]; by rewrite run_say by (by eexists).
Qed.

(** The names the driver runs. *)
Definition names (justone : option (list Z)) (l : list ((list Z -> prog unit) * list Z)) : list (list Z) :=
  List.filter (chosen justone) (map snd l).

Lemma run_run_chosen justone l : forall fail sts rest (s : script),
  length sts = length (names justone l) -> sk_status s = sts ++ rest ->
  User.run (run_chosen justone l fail) s =
    (Returned (fail || negb (forallb (Z.eqb 0) sts)),
     mk_script rest (sk_pages s) (sk_pipe s) (sk_out s ++ concat (zip_with line (names justone l) sts))).
Proof.
  induction l as [|[f x] l IH]; intros fail sts rest s Hlen Hs.
  { destruct sts; [|done]. destruct s as [a pg pi out]. cbn in *. subst a. by rewrite orb_false_r, app_nil_r. }
  unfold names in *. cbn [run_chosen map snd List.filter] in *. destruct (chosen justone x); [|by apply IH].
  destruct sts as [|st sts]; [done|]. cbn [length] in Hlen.
  rewrite (run_bind_ret _ _ _ _ _ (run_run f x s st (sts ++ rest) Hs)), (IH _ sts rest) by first [done|lia].
  cbn [sk_pages sk_pipe sk_out zip_with concat forallb]. rewrite (Z.eqb_sym st 0), <- app_assoc. do 2 f_equal. by destruct (0 =? st), fail.
Qed.

Section Verdict.
Context (uninit sp base : Z) (fuel : nat).

(** The last line. *)
Definition verdict (ok : bool) (free0 free1 : nat) : list Z :=
  if negb ok then text "SOME TESTS FAILED\n" []
  else if Nat.ltb free1 free0 then
    text "FAILED -- lost some free pages %d (out of %d)\n" [D_ (Z.of_nat free1); D_ (Z.of_nat free0)]
  else text "ALL TESTS PASSED\n" [].

(** The arguments that choose all the tests, or one by its name. *)
Definition args (justone : option (list Z)) : list (list Z) :=
  cs "usertests" :: match justone with None => [] | Some name => [name] end.

(** A name, not an option. *)
Definition named (justone : option (list Z)) : Prop :=
  match justone with None => True | Some name => Forall is_byte name /\ head name <> Some 45 end.

Lemma main_args justone :
  named justone ->
  main uninit sp base fuel (args justone) = once uninit sp base fuel justone.
Proof.
  destruct justone as [[|c name]|]; [done| |done]. intros [Hb Hc]. apply Forall_cons in Hb as [Hb _]. cbn in Hc.
  assert (E : forall l, (Ulib.strcmp (c :: name) (45 :: l) =? 0) = false).
  { intros l. cbn. destruct (Z.eqb_spec c 45); [congruence|]. rewrite !u8_id by (unfold is_byte in *; lia). apply Z.eqb_neq. lia. }
  unfold main, args. change (cs "-c") with (45 :: [99]). change (cs "-C") with (45 :: [67]). rewrite !E. cbn [head default from_option].
  unfold id. destruct (Z.eqb_spec c 45); [congruence|done].
Qed.

(** C35. usertests passes exactly when every test it ran ended with status 0 and no free page
    was lost, and prints one line for each test it ran. *)
Theorem main_verdict (justone : option (list Z)) (sts : list Z) (free0 free1 : nat) (st0 st1 : Z) :
  named justone ->
  length sts = length (names justone (tests uninit sp base fuel)) -> (free0 < fuel)%nat -> (free1 < fuel)%nat ->
  let ok := forallb (Z.eqb 0) sts in
  let r := User.run (main uninit sp base fuel (args justone)) (mk_script (st0 :: sts ++ [st1]) [free0; free1] 0 []) in
  fst r = Exited (if ok && Nat.leb free0 free1 then 0 else 1) /\
  sk_out (snd r) = text "usertests starting\n" [] ++
    concat (zip_with line (names justone (tests uninit sp base fuel)) sts) ++ verdict ok free0 free1.
Proof.
  intros Hj Hlen H0 H1 ok r. subst r. rewrite main_args by done. unfold once. revert Hlen. generalize (tests uninit sp base fuel). intros l Hlen.
  rewrite run_say by (by eexists). unfold emit at 1 2. cbn [sk_status sk_pages sk_pipe sk_out].
  rewrite (run_bind_ret _ _ _ _ _ (run_countfree fuel free0 _ st0 _ _ _ H0)).
  rewrite (run_bind_ret _ _ _ _ _ (run_run_chosen justone l false sts [st1] (mk_script (sts ++ [st1]) [free1] 0 _) Hlen eq_refl)). fold ok. unfold verdict. cbn [sk_pages sk_pipe sk_out orb].
  destruct ok; cbn [negb andb].
  2:{ unfold die. rewrite run_say by (by eexists). cbn [fst snd User.run emit sk_out]. by rewrite app_assoc. }
  rewrite (run_bind_ret _ _ _ _ _ (run_countfree fuel free1 _ st1 _ _ _ H1)).
  destruct (Z.ltb_spec (Z.of_nat free1) (Z.of_nat free0)), (Nat.leb_spec free0 free1), (Nat.ltb_spec free1 free0); try lia;
    unfold die; rewrite run_say by (by eexists); cbn [fst snd User.run emit sk_out]; by rewrite app_assoc.
Qed.
End Verdict.

Lemma main_verdict_witness :
  let s := mk_script (0 :: [0] ++ [0]) [3%nat; 4%nat] 0 [] in
  let r := User.run (main 0 0 0 10 (args (Some (cs "linktest")))) s in
  fst r = Exited 0 /\ sk_out (snd r) = map u8 (cs "usertests starting\ntest linktest: OK\nALL TESTS PASSED\n").
Proof.
  destruct (main_verdict 0 0 0 10 (Some (cs "linktest")) [0] 3 4 0 0) as [H1 H2]; [|reflexivity|lia|lia|].
  - unfold named. let l := eval vm_compute in (cs "linktest") in change (cs "linktest") with l.
    split; [|done]. repeat (apply Forall_cons; split; [unfold is_byte; lia|]). by apply Forall_nil.
  - split; [exact H1|]. etransitivity; [exact H2|reflexivity].
Defined.

(** A pipe that ends early makes [pipe1] print [total] with a format that names a string first
    and a number after it. *)
Theorem pipe1_misprints (fuel : nat) (s : list Z) (sts : list Z) (out : list Z) :
  fst (User.run (pipe1 (S fuel) s) (mk_script sts [0%nat] 0 out)) = Faulted.
Proof. reflexivity. Qed.

(** A name that no test has passes. *)
Theorem unknown_test_passes :
  sk_out (snd (User.run (main 0 0 0 1 (args (Some (cs "linktset")))) (mk_script [0; 0] [0%nat; 0%nat] 0 []))) =
  map u8 (cs "usertests starting\nALL TESTS PASSED\n").
Proof. vm_compute. reflexivity. Qed.
